(* ===== verification/_CoqProject ===== *)
-Q . S2P
Prelude.v
CppFloat.v
CppStd.v
Socket.v
SocketProps.v
LatencyModel.v
DevPerfModel.v
LatencyProps.v
SchedData.v
SchedUtils.v
SchedBase.v
Json.v
JsonReader.v
JsonReaderSafe.v
Setup.v
LatencyQueries.v
BatchSearch.v
SchedFrame.v
IncrEstimate.v
IncrFit.v
IncrReadjust.v
IncrSchedule.v
Demo.v
IncrFrame.v
SchedInv.v
BaseProps.v
IncrProps.v
IncrFitProps.v
SchedCopy.v
SetupProps.v
LoadBalancer.v
SelfTuning.v
AppModel.v
AppProps.v
SysState.v
Printf.v
Endpoints.v
Control.v
ControlProps.v
GlobalState.v
GlobalSched.v
GlobalSetup.v
Pipeline.v
DemoServer.v
PipelineProps.v
MapProps.v
ServiceInv.v
ReplyInv.v
RoutingProps.v
ProxyJobs.v
ProxyJobsProps.v
ReorgProps.v
EpochProps.v
GlobalProps.v
Wire.v
ProxyProc.v
DataPath.v
DataPathProps.v
BackendMain.v
BackendProps.v
BackendSocket.v
FrontendMain.v
FrontendProps.v
JsonText.v
EndpointsProps.v
Standalone.v
StandaloneProps.v
Client.v
ClientProps.v
Inference.v
InferenceProps.v
