(* ===== verification/Prelude.v ===== *)
(** * Gpulet: a verification library for the inference server

    Gpulet serves neural-network inference on spatially partitioned GPUs.  A
    frontend receives requests of applications (graphs of models), queues them per
    model, forms batches and sends them to proxies; a proxy is a process that owns
    one partition of one GPU of a backend machine.  A scheduler decides, from
    profiled latencies and the request rates seen, how the GPUs are partitioned and
    which models run where with which batch size.  This library translates that
    program into definitions that can be run, and proves the theorems that make
    its parts correct, or that state precisely what they do where they fall short.

    Paths below are relative to the directory of the sources, [src/src].

    ** How code is modelled

    [M S A] is a state monad over [outcome]: a C++ function returns a value with a
    new state, or stops ([fault]) because an [assert] failed, [exit] was called,
    an exception was not caught, or its behaviour is undefined.  The build is a
    Debug build, so assertions are on, and the macros [CMakeLists.txt] defines are on
    too; those that change what the code does are [SCHED_DEBUG], [EPOCH_DEBUG],
    [SCALE], [CHECK_MEM], [CHECK_NETBW], [ADD_RATE] and [NO_NET] (tensor data is not
    sent).  The loops of the prelude ([for_each],
    [for_ret], [for_acc], [for_acc_ret], [loop]) follow the exits of the loop they
    translate.
    Objects reached by several pointers live in a store and a pointer is an index
    of it: tasks, nodes and GPUs ([SchedData.World]), proxies ([SysState.Front]),
    applications, requests and batches ([Pipeline.Service]).  Containers that are
    copied by the code are values here.  [std::map]s whose order matters are sorted
    association lists ([CppStd]), others are [gmap]s; a read with [operator[]] that
    inserts an element does so in the model where anyone can tell.  [int]
    arithmetic wraps around at 32 bits ([CppFloat.i32]), unsigned counters at their
    width; [float] and [double] are IEEE binary32 and binary64 with a rounding at
    every operation.  The value of an uninitialised member is a parameter
    ([SchedData.Indet]).
    Not under the sources, and hence parameters: libtorch tensors (the class
    [AppModel.Torch]), the answers of other machines ([reply]), what other
    processes and threads do while one sleeps ([env], [threads]), which sockets
    somebody listens on ([up]), the clock, and the GPU driver.

    ** The parts of the program and their files

    - The scheduler ([scheduler/], [common/scheduler_utils.cpp]).  [LatencyModel]:
      [latency_model.cpp]; [DevPerfModel]: [interference_model.cpp] and
      [device_perf_model.cpp]; [SchedData]: the records of [scheduler_base.h];
      [SchedUtils]: [scheduler_utils.cpp] and [network_limit.cpp]; [SchedBase] and
      [Setup]: [scheduler_base.cpp] with its set-up files; [IncrEstimate],
      [IncrFit], [IncrReadjust] and [IncrSchedule]: [scheduler_incremental.cpp],
      from the estimate of one model up to [runScheduling].
    - Configuration files.  [Json]: the accessors of [common/jsoncpp.cpp];
      [JsonReader]: its parser.  The set-up code below takes the parsed value
      ([None]: the text does not parse), which is [JsonReader.parse_document] of
      the text.
    - Balancing and tuning.  [LoadBalancer]: [service/load_balancer.cpp];
      [SelfTuning]: [common/self_tuning.cpp] and [service/EWMA.cpp].
    - Applications and requests.  [AppModel]: [service/app_spec.cpp],
      [app_instance.cpp], [request.cpp], [batched_request.cpp] and the readers of
      [input.cpp].
    - State shared by the threads.  [SysState]: [service/sys_monitor.cpp] and
      [common/gpu_proxy.h].
    - Control of the proxies.  [Control]: the shared-memory table
      ([common/shmem_ctrl.cpp]), a backend's control of its proxies
      ([service/proxy_ctrl.cpp]), the messages of the frontend
      ([backend_proxy_ctrl.cpp], [backend_delegate.cpp]) and their execution
      ([backend_control.cpp]).  An order to connect to a proxy whose sockets are not
      up ends the backend, as [connectGPUProxyIn] and [connectGPUProxyOut] call
      [exit(1)]; [Endpoints] and [Printf], which name the sockets, come before it.
    - Sockets.  [Socket]: the functions of [common/socket.cpp] on streams of bytes;
      [BackendSocket]: both ends of a control connection on them.  [Endpoints]: where
      connections go, from the command that boots a proxy ([service/proxy_ctrl.cpp],
      the script [startProxy.sh], the options of [proxy.cpp]) to the sockets of the
      proxy and of its backend ([common/gpu_proxy.cpp]), and the addresses of backends
      ([service/backend_delegate.cpp]).
    - The global scheduler.  [GlobalState]: its tables, rates, sessions and the
      static scheduler ([service/global_scheduler.cpp], [monitor_thread.cpp]);
      [GlobalSched]: loading, routing and the oracle scheduler
      ([global_scheduler_proxy.cpp], [global_scheduler.cpp]); [GlobalSetup]: the
      start-up ([global_scheduler_setup.cpp], [common/config.cpp],
      [backend_setup.cpp]).
    - The way of a request.  [Pipeline]: [service/request_thread.cpp],
      [server_thread.cpp], [app_thread.cpp], [proxy_thread.cpp] and
      [drop_thread.cpp]; one step of a thread is one operation on the state;
      [ServiceInv]: these operations as one step relation.
    - The way of a batch.  [Wire]: streams of [int]s and their readers; [ProxyProc]:
      the threads of a proxy process ([proxy.cpp], [common/custom_ops.cpp]);
      [DataPath]: the data threads of a backend ([service/backend_data.cpp],
      [backend_thread.cpp]) and of the frontend ([common/gpu_proxy.cpp]) with that
      process, as one step relation.
    - The two servers.  [BackendMain]: [main] of a backend and its control thread
      ([backend.cpp], [backend_thread.cpp]); [FrontendMain]: [main] of the frontend,
      the threads it starts, and a turn of the server thread ([frontend.cpp],
      [service/server_thread.cpp], [monitor_thread.cpp]).
    - The other programs.  [Printf]: what [printf] writes of numbers; [Standalone]:
      the scheduler on its own and the partition file it writes
      ([standalone_scheduler.cpp], [common/config.cpp]); [Client]: the client
      ([client.cpp], [common/exp_model.cpp]); [Inference]: one model on its own
      ([standalone_inference.cpp]) and the timers of [common/profile.cpp].

    They meet as in the code: the frontend's threads work on [Pipeline.Service],
    which contains the scheduling state [GlobalState.Server]; that contains the
    scheduler's [World], which [GlobalSched] drives through
    [IncrSchedule.runScheduling] and copies with [SchedUtils.copyToOutput], and the
    [Control.Frontend], through which it starts, loads and routes to proxies.  The
    messages [Control.call] logs are those [Control.receiveControl] and
    [executeControl] read in a backend.  What [Client.sendRequest] sends is what
    [Pipeline.handleRequest] reads, and the file [Standalone.writeResults] writes
    is the one [GlobalSetup] reads.

    ** What the theorems show

    - Partitioning: every schedule the scheduler returns keeps the GPUs fully and
      exactly partitioned ([SchedInv]); the fitting step picks the best node that
      admits the estimate, and memory is charged as [IncrFitProps] says; copies of a
      schedule are deep ([SchedCopy]); the scheduling loop ends within its fuel, and
      takes the sessions in order ([IncrProps]).
    - Estimation: latency queries answer on profiled partitions by linear
      interpolation, a query elsewhere spoils the table ([LatencyProps],
      [LatencyQueries]); the batch-size searches return the largest admissible batch
      below 32, whatever latencies the queries answer, and what they do for a residue
      that no batch size serves ([BatchSearch], [BaseProps]); interference factors exist and are at
      least 1.
    - Balancing: weighted round robin starves no partition ([LoadBalancer]); self
      tuning ends and covers the shares asked for ([SelfTuning]).
    - Set-up: what the configuration files leave in the tables ([SetupProps]), the
      round trip of an application file ([AppProps]), and the proxies created for a
      backend, each found again by device, share and number ([GlobalProps]).
    - Text: the JSON parser ends on every text, inside it, and fails exactly when it
      reports an error ([JsonReaderSafe]); every text of the JSON grammar is parsed
      to the value it stands for ([JsonText]).
    - Service: an application is reported finished exactly once under any
      interleaving of the operations, a batch respects its limit up to one request
      ([AppProps]); a turn of the batching loop keeps the order of arrival, and the
      dropping thread reports the late requests at the front of every queue and
      leaves the queues as they are ([PipelineProps]); the static
      scheduler issues exactly the batches that are due, and an epoch never starts a
      model that had no target ([GlobalProps]); an epoch puts
      the schedule found before into effect: routes, proxies, load balancer, copies
      and the threads that unload ([RoutingProps], [EpochProps]); the table of proxy
      states keeps one state per proxy, and a control message reaches the proxy it is
      about ([ControlProps]).
    - Models: a new schedule starts exactly the loading and unloading threads it
      needs ([ReorgProps]); they end, with exactly the messages sent that order the
      changes; a loading and an unloading thread together leave the frontend's list
      of a proxy, and the orders the proxy got, with exactly the models of the
      schedule ([ProxyJobs], [ProxyJobsProps]).  They rest on a backend that answers
      polls according to where the proxy is in its life ([ProxyJobs.Course]): an
      order to load does not have to come to an end on a proxy that is down, and a
      proxy whose state was set by the frontend (the backend marks it LOADING, see
      the findings) need not answer at all; the witness runs the backend's own
      [executeControl].
    - Sockets: blocks of bytes arrive whole however the calls split them, a receiver
      whose peer left never ends ([SocketProps]); a control connection byte by byte
      is the one on lists of [int]s ([BackendSocket]); a booted proxy listens where
      its backend connects ([EndpointsProps]).
    - Start: when the frontend goes on to its first schedule, all its threads have
      what they use ([FrontendProps]); a backend comes up with all its proxies and
      performs the orders of a control connection one after the other, up to a
      CONNECT that nobody listens for ([BackendProps]).
    - Requests: in every run of the service no request is lost, and none is doubled
      but by the dropping thread, once for each report ([ServiceInv]); an application
      is answered at most once as long as nothing is dropped, and at most three times
      otherwise ([ReplyInv]).
    - Programs: the stand-alone scheduler tries every way to split the GPUs, starts
      each from the cluster it describes, and writes a file from which what is valid
      of a schedule is read back ([StandaloneProps]); the
      client's requests are queued by the frontend, and its run reports a time for
      each ([ClientProps]); the inference program runs the model as often as asked
      and times each run ([InferenceProps]).
    - Data path: in every interleaving the results come back in order and fit their
      batches, and the assertions on the way never fail; the receive timeout of the
      backend may end its output thread between two results, and only then; a system
      that has come to rest has answered everything that the timeout did not cut off,
      and carried out every load order ([DataPathProps]).

    [SchedFrame] and [IncrFrame] hold the frame rules these proofs share, [MapProps]
    the order of [std::map] keys; [Demo] and
    [DemoServer] a concrete cluster and frontend, on which the witnesses run the
    definitions.

    ** Bounds and fuel

    Every loop whose end the code does not bound syntactically takes fuel; running
    out is the fault [OutOfFuel], never a result.  [IncrSchedule.SCHED_ROUNDS] is
    enough for the retry loop ([sched_rounds_enough]); [IncrReadjust.readjust_fuel]
    and [rate_fuel] are measures of the loops they bound; [LatencyModel.down_fuel]
    and [up_fuel] are the distance to the ends of the profile; the loop of
    [oneshotScheduling] adds one GPU per round and has as much fuel as there are
    GPUs; [JsonReader.parse_fuel] is the length of the text and enough for every text
    ([parse_reports]).  The polling loops ([Control.wait_loop], [c_wait_loop],
    [GlobalSched.spin], [wait_cleared]), [Pipeline.handleRequest] and
    [GlobalSched.scale_round] wait for others and need not end: their fuel is an
    argument, and the theorems about code that calls them assume that the condition
    holds already, or that the others make it hold within that many sleeps
    ([ProxyJobs]), or are about a run that returned.  [return99P] does not end for
    mean 0.  [Socket.socket_send] needs at most one call per byte;
    [Socket.socket_receive] need not end ([socket_receive_hangs]).

    ** Not modelled

    - The command lines but the one of a proxy, printing other than the partition file, logging,
      destructors, and getters that return a member or a whole table (the projection
      of the record).  Of [jsoncpp.cpp], the writers and the older [Reader], which
      the program does not use, and the comments and offsets of a value.
    - The creation of sockets beyond their names and of processes and threads, CUDA and libtorch calls, and
      memory.  Bytes are modelled in [Socket] and [BackendSocket]; elsewhere a
      connection carries [int]s, and a message of the frontend's control path is a
      log entry.  On the data path connections stay open: the end of a stream is
      modelled in the threads but not in the step relation of [DataPath], which has
      no step that closes or opens one again, and none in which a proxy exits.  The
      receive timeout of five seconds is a step that may happen whenever the output
      thread waits for a result ([DataPath.read_expires]); time is not counted.
      The theorems assume that it does not strike between two [int]s of one result
      (the argument [inside] of [sstep]; the findings say what happens then).
    - The infinite loops around the steps of the threads and their condition
      variables.  A critical section is one atomic step.  [FrontendMain] records the
      threads it starts; what a new thread does before the next statement of [main]
      is part of the start only where [main] waits for it.  Loading
      and unloading threads are recorded when they are started, and
      [GlobalSched.run_job] is what they do.  While one of them sleeps the others are
      a parameter ([threads]); between two sleeps it runs alone, so the steps of two
      such threads on one proxy are interleaved at their sleeps only.
    - The helpers for images, GPUs and tensors in [common/], which only call
      libraries; the third-party concurrent queue, and the parts of [jsoncpp.cpp] the
      program does not reach. *)
From Stdlib Require Export ZArith Lia.
From stdpp Require Export prelude strings list gmap.
#[export] Set Default Goal Selector "!".

(** ** Outcomes of C++ code

    A C++ function returns a value or stops: a failed [assert] (the build type
    is Debug, so assertions are on), a call of [exit], undefined behaviour
    (null or out-of-range access), an uncaught exception, or, in the model
    only, a loop that used up its fuel. *)
Inductive fault : Type :=
| AssertionFailed
| Exited (code : Z)
| Undefined
| Uncaught
| OutOfFuel.

Inductive outcome (A : Type) : Type :=
| Done (a : A)
| Stop (f : fault).
Arguments Done {A} a.
Arguments Stop {A} f.

#[global] Instance fault_eq_dec : EqDecision fault.
Proof. solve_decision. Defined.

#[global] Instance outcome_ret : MRet outcome := fun A a => Done a.
#[global] Instance outcome_bind : MBind outcome := fun A B f m =>
  match m with Done a => f a | Stop e => Stop e end.

(** A value read through an [option]: the absent case is undefined behaviour. *)
Definition deref {A} (o : option A) : outcome A :=
  match o with Some a => Done a | None => Stop Undefined end.

(** ** Stateful code: explicit state passing with faults *)
Definition M (S A : Type) : Type := S -> outcome (A * S).

#[global] Instance M_ret S : MRet (M S) := fun A a s => Done (a, s).
#[global] Instance M_bind S : MBind (M S) := fun A B f m s =>
  match m s with Done (a, s') => f a s' | Stop e => Stop e end.

Definition get {S} : M S S := fun s => Done (s, s).
Definition gets {S A} (f : S -> A) : M S A := fun s => Done (f s, s).
Definition put {S} (s : S) : M S unit := fun _ => Done (tt, s).
Definition modify {S} (f : S -> S) : M S unit := fun s => Done (tt, f s).
Definition fail {S A} (e : fault) : M S A := fun _ => Stop e.
Definition lift {S A} (o : outcome A) : M S A := fun s =>
  match o with Done a => Done (a, s) | Stop e => Stop e end.
Definition massert {S} (b : bool) : M S unit :=
  if b then mret tt else fail AssertionFailed.
Definition when {S} (b : bool) (m : M S unit) : M S unit :=
  if b then m else mret tt.

(** Running code on a part of the state (a member object). *)
Definition zoom {S T A} (rd : S -> T) (wr : T -> S -> S) (m : M T A) : M S A :=
  fun s => match m (rd s) with
           | Done (a, t) => Done (a, wr t s)
           | Stop e => Stop e
           end.

(** ** Loops

    [for_each] is a range-for without exits; [for_ret] is a range-for whose
    body may leave the enclosing function (or the loop) with a value;
    [for_acc] threads local variables. *)
Fixpoint for_each {S A} (l : list A) (body : A -> M S unit) : M S unit :=
  match l with
  | [] => mret tt
  | x :: l' => body x ≫= fun _ => for_each l' body
  end.

Fixpoint for_ret {S A R} (l : list A) (body : A -> M S (option R)) : M S (option R) :=
  match l with
  | [] => mret None
  | x :: l' => body x ≫= fun r =>
      match r with Some v => mret (Some v) | None => for_ret l' body end
  end.

Fixpoint for_acc {S A V} (l : list A) (v : V) (body : V -> A -> M S V) : M S V :=
  match l with
  | [] => mret v
  | x :: l' => body v x ≫= fun v' => for_acc l' v' body
  end.

(** A range-for with local variables whose body may also leave the loop:
    [inl v] goes on with locals [v], [inr r] leaves with [r]. *)
Fixpoint for_acc_ret {S A V R} (l : list A) (v : V)
    (body : V -> A -> M S (V + R)) : M S (V + R) :=
  match l with
  | [] => mret (inl v)
  | x :: l' => body v x ≫= fun o =>
      match o with inl v' => for_acc_ret l' v' body | inr r => mret (inr r) end
  end.

(** A [while] loop over local variables [v]: [inl v'] is the next iteration,
    [inr r] leaves the loop with [r]. *)
Fixpoint loop {S V R} (fuel : nat) (v : V) (body : V -> M S (V + R)) : M S R :=
  match fuel with
  | O => fail OutOfFuel
  | Datatypes.S fuel' => body v ≫= fun o =>
      match o with inl v' => loop fuel' v' body | inr r => mret r end
  end.

(** ** Reasoning about stateful code

    [satisfies m s Q]: running [m] from [s], if it returns, returns a value and
    a state in [Q]; [returns] also says that it does return.  [preserves R m]
    relates the states before and after every run that returns. *)
Definition satisfies {S A} (m : M S A) (s : S) (Q : A -> S -> Prop) : Prop :=
  match m s with Done (a, s') => Q a s' | Stop _ => True end.
Definition returns {S A} (m : M S A) (s : S) (Q : A -> S -> Prop) : Prop :=
  match m s with Done (a, s') => Q a s' | Stop _ => False end.
Definition preserves {S A} (R : S -> S -> Prop) (m : M S A) : Prop :=
  forall s a s', m s = Done (a, s') -> R s s'.

(** A computation that returns, decided by running it. *)
Definition completes {A} (o : outcome A) : bool :=
  match o with Done _ => true | Stop _ => false end.
Lemma run_returns {A} (o : outcome A) (P : A -> Prop) :
  completes o = true -> (forall a, o = Done a -> P a) ->
  match o with Done a => P a | Stop _ => False end.
Proof. destruct o; [auto|done]. Qed.

(** ** Invariants with results

    [keeping I m Q]: a run of [m] from a state in [I] that returns, returns a
    value in [Q] and leaves a state in [I]. *)
Definition keeping {S A} (I : S -> Prop) (m : M S A) (Q : A -> Prop) : Prop :=
  forall s a s', I s -> m s = Done (a, s') -> I s' /\ Q a.

Definition sum_post {V R} (QV : V -> Prop) (QR : R -> Prop) (o : V + R) : Prop :=
  match o with inl v => QV v | inr r => QR r end.
Definition any {A} (_ : A) : Prop := True.

(** The relation of an invariant. *)
Definition inv_rel {S} (I : S -> Prop) : S -> S -> Prop := fun s s' => I s -> I s'.
#[global] Instance inv_rel_preorder {S} (I : S -> Prop) : PreOrder (inv_rel I).
Proof. split; unfold inv_rel; repeat intro; eauto. Qed.

Ltac mred :=
  unfold mbind, mret, M_bind, M_ret, outcome_bind, outcome_ret, lift, get, gets,
    put, modify, massert, when, fail, deref in *; cbn in *.

Section Preserves.
Context {S : Type} (R : S -> S -> Prop) `{!PreOrder R}.

Lemma preserves_ret {A} (a : A) : preserves R (mret a : M S A).
Proof. intros s b s' H. inversion H. reflexivity. Qed.
Lemma preserves_fail {A} e : preserves R (fail e : M S A).
Proof. intros s b s' H. discriminate. Qed.
Lemma preserves_lift {A} (o : outcome A) : preserves R (lift o).
Proof. intros s b s' H. destruct o; mred; [|discriminate]. by inversion H. Qed.
Lemma preserves_get : preserves R get.
Proof. intros s b s' H. by inversion H. Qed.
Lemma preserves_gets {A} (f : S -> A) : preserves R (gets f).
Proof. intros s b s' H. by inversion H. Qed.
Lemma preserves_massert b : preserves R (massert b).
Proof. destruct b; [apply preserves_ret|apply preserves_fail]. Qed.
Lemma preserves_when b m : preserves R m -> preserves R (when b m).
Proof. intros Hm. destruct b; [done|apply preserves_ret]. Qed.
Lemma preserves_if {A} (b : bool) (m1 m2 : M S A) :
  preserves R m1 -> preserves R m2 -> preserves R (if b then m1 else m2).
Proof. by destruct b. Qed.
Lemma preserves_modify f : (forall s, R s (f s)) -> preserves R (modify f).
Proof. intros Hf s b s' H. inversion H. apply Hf. Qed.

Lemma preserves_bind {A B} (m : M S A) (f : A -> M S B) :
  preserves R m -> (forall a, preserves R (f a)) -> preserves R (m ≫= f).
Proof.
  intros Hm Hf s b s' H. mred. destruct (m s) as [[a s1]|] eqn:E; [|discriminate].
  transitivity s1; [by eapply Hm|by eapply Hf].
Qed.

(** Code that reads the state first. *)
Lemma preserves_get_bind {B} (f : S -> M S B) :
  (forall s b s', f s s = Done (b, s') -> R s s') -> preserves R (get ≫= f).
Proof. intros Hf s b s' H. by eapply Hf. Qed.

Lemma preserves_for_each {A} (l : list A) body :
  (forall x, preserves R (body x)) -> preserves R (for_each l body).
Proof.
  intros Hb. induction l; cbn; [apply preserves_ret|]. by apply preserves_bind.
Qed.
Lemma preserves_for_ret {A T} (l : list A) (body : A -> M S (option T)) :
  (forall x, preserves R (body x)) -> preserves R (for_ret l body).
Proof.
  intros Hb. induction l; cbn; [apply preserves_ret|]. apply preserves_bind; [done|].
  intros [v|]; [apply preserves_ret|done].
Qed.
Lemma preserves_for_acc {A V} (l : list A) (v : V) body :
  (forall v x, preserves R (body v x)) -> preserves R (for_acc l v body).
Proof.
  intros Hb. revert v. induction l; intros v; cbn; [apply preserves_ret|].
  by apply preserves_bind.
Qed.
Lemma preserves_for_acc_ret {A V T} (l : list A) (v : V) (body : V -> A -> M S (V + T)) :
  (forall v x, preserves R (body v x)) -> preserves R (for_acc_ret l v body).
Proof.
  intros Hb. revert v. induction l; intros v; cbn; [apply preserves_ret|].
  apply preserves_bind; [done|]. intros [v'|r]; [done|apply preserves_ret].
Qed.
Lemma preserves_loop {V T} fuel (v : V) (body : V -> M S (V + T)) :
  (forall v, preserves R (body v)) -> preserves R (loop fuel v body).
Proof.
  intros Hb. revert v. induction fuel; intros v; cbn; [apply preserves_fail|].
  apply preserves_bind; [done|]. intros [v'|r]; [done|apply preserves_ret].
Qed.
End Preserves.

Lemma preserves_zoom {S T A} (R : S -> S -> Prop) (R' : T -> T -> Prop)
    (rd : S -> T) (wr : T -> S -> S) (m : M T A) :
  (forall s t, R' (rd s) t -> R s (wr t s)) ->
  preserves R' m -> preserves R (zoom rd wr m).
Proof.
  intros Hw Hm s a s' H. unfold zoom in H. destruct (m (rd s)) as [[b t]|] eqn:E; [|done].
  inversion H; subst. apply Hw. by eapply Hm.
Qed.

Lemma preserves_mono {S A} (R R' : S -> S -> Prop) (m : M S A) :
  (forall s s', R s s' -> R' s s') -> preserves R m -> preserves R' m.
Proof. intros HR Hm s a s' H. eauto. Qed.

(** Goals [preserves R m] are solved by walking through [m]; the database holds
    the facts about the operations [m] calls. *)
Create HintDb frame.
Ltac preserve_step :=
  lazymatch goal with
  | |- preserves _ (mbind _ _) => apply preserves_bind; [.. | intros ?]
  | |- preserves _ (mret _) => apply preserves_ret
  | |- preserves _ (fail _) => apply preserves_fail
  | |- preserves _ (lift _) => apply preserves_lift
  | |- preserves _ get => apply preserves_get
  | |- preserves _ (gets _) => apply preserves_gets
  | |- preserves _ (massert _) => apply preserves_massert
  | |- preserves _ (when _ _) => apply preserves_when
  | |- preserves _ (for_each _ _) => apply preserves_for_each; [.. | intros ?]
  | |- preserves _ (for_ret _ _) => apply preserves_for_ret; [.. | intros ?]
  | |- preserves _ (for_acc _ _ _) => apply preserves_for_acc; [.. | intros ? ?]
  | |- preserves _ (for_acc_ret _ _ _) => apply preserves_for_acc_ret; [.. | intros ? ?]
  | |- preserves _ (loop _ _ _) => apply preserves_loop; [.. | intros ?]
  | |- preserves _ (if ?b then _ else _) => destruct b
  | |- preserves _ (match ?x with _ => _ end) => destruct x
  | |- preserves _ (let _ := _ in _) => cbv zeta
  end.
Ltac preserve :=
  repeat first
    [ typeclasses eauto
    | solve [eauto with frame nocore]
    | preserve_step; try typeclasses eauto
    | progress cbv beta ].

(** ** Stepping through a run

    [bind_done], [obind_done] and [lift_done] run the first part of a bind; [minv H] takes a run [H] of a
    sequence apart into the runs of its parts. *)
Lemma bind_done {S A B} (m : M S A) (f : A -> M S B) s a s' :
  m s = Done (a, s') -> (m ≫= f) s = f a s'.
Proof. intros H. unfold mbind, M_bind. by rewrite H. Qed.

Lemma obind_done {A B} (m : outcome A) (f : A -> outcome B) a : m = Done a -> (m ≫= f) = f a.
Proof. by intros ->. Qed.
Lemma lift_done {S A B} (o : outcome A) (f : A -> M S B) a s : o = Done a -> (lift o ≫= f) s = f a s.
Proof. by intros ->. Qed.

Lemma bind_inv {S A B} (m : M S A) (f : A -> M S B) s b s'' :
  (m ≫= f) s = Done (b, s'') -> exists a s', m s = Done (a, s') /\ f a s' = Done (b, s'').
Proof.
  unfold mbind, M_bind. intros H. destruct (m s) as [[a s']|] eqn:E; [|done]. eauto.
Qed.

Lemma ret_inv {S A} (a : A) (s : S) b s' :
  (mret a : M S A) s = Done (b, s') -> b = a /\ s' = s.
Proof. by intros [= -> ->]. Qed.
Lemma get_inv {S} (s : S) b s' : get s = Done (b, s') -> b = s /\ s' = s.
Proof. by intros [= -> ->]. Qed.
Lemma gets_inv {S A} (f : S -> A) (s : S) b s' : gets f s = Done (b, s') -> b = f s /\ s' = s.
Proof. by intros [= -> ->]. Qed.
Lemma put_inv {S} (x s : S) b s' : put x s = Done (b, s') -> s' = x.
Proof. by intros [= _ ->]. Qed.
Lemma modify_inv {S} f (s : S) b s' : modify f s = Done (b, s') -> s' = f s.
Proof. by intros [= _ ->]. Qed.
Lemma lift_inv {S A} (o : outcome A) (s : S) b s' :
  lift o s = Done (b, s') -> o = Done b /\ s' = s.
Proof. unfold lift. destruct o; by intros [= -> ->]. Qed.
Lemma massert_inv {S} b (s : S) u s' : massert b s = Done (u, s') -> b = true /\ s' = s.
Proof. destruct b; [|done]. by intros [= _ ->]. Qed.
Lemma deref_inv {A} (o : option A) a : deref o = Done a -> o = Some a.
Proof. destruct o; by intros [= ->]. Qed.
Lemma obind_inv {A B} (m : outcome A) (f : A -> outcome B) b :
  (m ≫= f) = Done b -> exists a, m = Done a /\ f a = Done b.
Proof. unfold mbind, outcome_bind. destruct m; [eauto|done]. Qed.

Ltac minv1 H :=
  lazymatch type of H with
  | (mbind _ _) _ = Done _ =>
      let a := fresh "a" in let s := fresh "s" in let E := fresh "E" in
      apply bind_inv in H as (a & s & E & H); minv1 E; minv1 H
  | (mret _) _ = Done _ =>
      first [apply ret_inv in H as [-> ->] | apply ret_inv in H as [<- ->]
            | apply ret_inv in H as [? ?]]
  | get _ = Done _ => apply get_inv in H as [-> ->]
  | gets _ _ = Done _ => apply gets_inv in H as [-> ->]
  | put _ _ = Done _ => apply put_inv in H; subst
  | modify _ _ = Done _ => apply modify_inv in H; subst
  | lift _ _ = Done _ => apply lift_inv in H as [H ->]; try (apply deref_inv in H)
  | massert _ _ = Done _ => apply massert_inv in H as [H ->]
  | _ => idtac
  end.
Ltac minv H := minv1 H.

(** ** Rules for [keeping] *)
Section Keeping.
Context {S : Type} (I : S -> Prop).

Lemma keeping_weaken {A} (m : M S A) (Q Q' : A -> Prop) :
  keeping I m Q -> (forall a, Q a -> Q' a) -> keeping I m Q'.
Proof. intros Hm HQ s a s' Hs H. destruct (Hm s a s' Hs H). eauto. Qed.
Lemma keeping_any {A} (m : M S A) (Q : A -> Prop) : keeping I m Q -> keeping I m any.
Proof. intros Hm. by eapply keeping_weaken. Qed.
Lemma keeping_ret {A} (a : A) (Q : A -> Prop) : Q a -> keeping I (mret a : M S A) Q.
Proof. intros Ha s b s' Hs [-> ->]%ret_inv. done. Qed.
Lemma keeping_fail {A} e (Q : A -> Prop) : keeping I (fail e : M S A) Q.
Proof. intros s b s' _ H. discriminate. Qed.
Lemma keeping_lift {A} (o : outcome A) (Q : A -> Prop) :
  (forall a, o = Done a -> Q a) -> keeping I (lift o) Q.
Proof. intros Ho s b s' Hs [H ->]%lift_inv. auto. Qed.
Lemma keeping_gets {A} (f : S -> A) (Q : A -> Prop) :
  (forall s, I s -> Q (f s)) -> keeping I (gets f) Q.
Proof. intros Hf s b s' Hs [-> ->]%gets_inv. auto. Qed.
Lemma keeping_get (Q : S -> Prop) : (forall s, I s -> Q s) -> keeping I get Q.
Proof. intros Hf s b s' Hs [-> ->]%get_inv. auto. Qed.
Lemma keeping_modify f : (forall s, I s -> I (f s)) -> keeping I (modify f) any.
Proof. intros Hf s b s' Hs ->%modify_inv. split; [auto|done]. Qed.
Lemma keeping_massert b : keeping I (massert b) (fun _ => b = true).
Proof. intros s u s' Hs [H ->]%massert_inv. done. Qed.
Lemma keeping_when b m : keeping I m any -> keeping I (when b m) any.
Proof. intros Hm. destruct b; [done|by apply keeping_ret]. Qed.

Lemma keeping_bind {A B} (m : M S A) (f : A -> M S B) (Q1 : A -> Prop) (Q : B -> Prop) :
  keeping I m Q1 -> (forall a, Q1 a -> keeping I (f a) Q) -> keeping I (m ≫= f) Q.
Proof.
  intros Hm Hf s b s'' Hs (a & s' & H1 & H2)%bind_inv.
  destruct (Hm s a s' Hs H1) as [Hs' Ha]. by eapply Hf.
Qed.

Lemma keeping_for_each {A} (l : list A) body :
  (forall x, x ∈ l -> keeping I (body x) any) -> keeping I (for_each l body) any.
Proof.
  induction l as [|x l IH]; intros Hb; cbn; [by apply keeping_ret|].
  eapply keeping_bind; [apply Hb; by left|]. intros _ _. apply IH. intros y Hy. apply Hb. by right.
Qed.
Lemma keeping_for_ret {A R} (l : list A) (body : A -> M S (option R)) (Q : option R -> Prop) :
  Q None ->
  (forall x, x ∈ l -> keeping I (body x) (fun o => match o with Some _ => Q o | None => True end)) ->
  keeping I (for_ret l body) Q.
Proof.
  intros Hn. induction l as [|x l IH]; intros Hb; cbn; [by apply keeping_ret|].
  eapply keeping_bind; [apply Hb; by left|]. intros [r|] Hr; [by apply keeping_ret|].
  apply IH. intros y Hy. apply Hb. by right.
Qed.
Lemma keeping_for_acc {A V} (l : list A) (v : V) body (Q : V -> Prop) :
  Q v -> (forall v x, x ∈ l -> Q v -> keeping I (body v x) Q) -> keeping I (for_acc l v body) Q.
Proof.
  revert v. induction l as [|x l IH]; intros v Hv Hb; cbn; [by apply keeping_ret|].
  eapply keeping_bind; [apply Hb; [by left|done]|]. intros v' Hv'.
  apply IH; [done|]. intros w y Hy. apply Hb. by right.
Qed.
Lemma keeping_for_acc_ret {A V R} (l : list A) (v : V) (body : V -> A -> M S (V + R))
    (QV : V -> Prop) (QR : R -> Prop) :
  QV v -> (forall v x, x ∈ l -> QV v -> keeping I (body v x) (sum_post QV QR)) ->
  keeping I (for_acc_ret l v body) (sum_post QV QR).
Proof.
  revert v. induction l as [|x l IH]; intros v Hv Hb; cbn; [by apply keeping_ret|].
  eapply keeping_bind; [apply Hb; [by left|done]|].
  intros [v'|r] Hr; [|by apply keeping_ret].
  apply IH; [done|]. intros w y Hy. apply Hb. by right.
Qed.
Lemma keeping_loop {V R} fuel (v : V) (body : V -> M S (V + R)) (QV : V -> Prop) (Q : R -> Prop) :
  QV v -> (forall v, QV v -> keeping I (body v) (sum_post QV Q)) ->
  keeping I (loop fuel v body) Q.
Proof.
  intros Hv Hb. revert v Hv. induction fuel as [|fuel IH]; intros v Hv; cbn; [apply keeping_fail|].
  eapply keeping_bind; [by apply Hb|]. intros [v'|r] Hr; [by apply IH|by apply keeping_ret].
Qed.
Lemma keeping_any_sum {V R} (m : M S (V + R)) :
  keeping I m any -> keeping I m (sum_post any any).
Proof. intros Hm. eapply keeping_weaken; [done|]. by intros [|]. Qed.
End Keeping.

(** A loop whose invariant relates its local variables and the state. *)
Lemma loop_inv {S V R} (P : V -> S -> Prop) (Q : R -> S -> Prop) fuel (v : V)
    (body : V -> M S (V + R)) s r s' :
  (forall v s o s', P v s -> body v s = Done (o, s') ->
     match o with inl v' => P v' s' | inr r => Q r s' end) ->
  P v s -> loop fuel v body s = Done (r, s') -> Q r s'.
Proof.
  intros Hb. revert v s. induction fuel as [|fuel IH]; intros v s Hv H; [done|].
  cbn in H. apply bind_inv in H as (o & s1 & E & H). specialize (Hb _ _ _ _ Hv E).
  destruct o as [v'|r']; [exact (IH _ _ Hb H)|]. by apply ret_inv in H as [-> ->].
Qed.

Lemma for_acc_ret_inv {S A V R} (P : V -> S -> Prop) (Q : R -> S -> Prop) (l : list A) (v : V)
    (body : V -> A -> M S (V + R)) s r s' :
  (forall v x s o s', P v s -> body v x s = Done (o, s') ->
     match o with inl v' => P v' s' | inr r => Q r s' end) ->
  P v s -> for_acc_ret l v body s = Done (r, s') ->
  match r with inl v' => P v' s' | inr r => Q r s' end.
Proof.
  intros Hb. revert v s. induction l as [|x l IH]; intros v s Hv H; cbn in H.
  - by apply ret_inv in H as [-> ->].
  - apply bind_inv in H as (o & s1 & E & H). specialize (Hb _ _ _ _ _ Hv E).
    destruct o as [v'|r']; [exact (IH _ _ Hb H)|]. by apply ret_inv in H as [-> ->].
Qed.

Lemma for_acc_inv {S A V} (P : V -> S -> Prop) (l : list A) (v : V) (body : V -> A -> M S V) s r s' :
  (forall v x s v' s', x ∈ l -> P v s -> body v x s = Done (v', s') -> P v' s') ->
  P v s -> for_acc l v body s = Done (r, s') -> P r s'.
Proof.
  revert v s. induction l as [|x l IH]; intros v s Hb Hv H; cbn in H.
  - by apply ret_inv in H as [-> ->].
  - apply bind_inv in H as (v' & s1 & E & H). eapply IH; [|eapply Hb; [by left|exact Hv|exact E]|exact H].
    intros v2 y s2 v3 s3 Hy. apply Hb. by right.
Qed.

(** The same with the part of the list that was already visited. *)
Lemma for_acc_prefix {S A V} (P : list A -> V -> S -> Prop) (l : list A) (v : V)
    (body : V -> A -> M S V) s r s' :
  (forall pre x v s v' s', x ∈ l -> P pre v s -> body v x s = Done (v', s') -> P (pre ++ [x]) v' s') ->
  P [] v s -> for_acc l v body s = Done (r, s') -> P l r s'.
Proof.
  intros Hb Hv H. change l with ([] ++ l). revert Hv H. generalize (@nil A) as pre.
  revert v s Hb. induction l as [|x l IH]; intros v s Hb pre Hv H; cbn in H.
  - apply ret_inv in H as [-> ->]. by rewrite app_nil_r.
  - apply bind_inv in H as (v' & s1 & E & H).
    replace (pre ++ x :: l) with ((pre ++ [x]) ++ l) by (by rewrite <- app_assoc).
    eapply IH; [|eapply Hb; [by left|exact Hv|exact E]|exact H].
    intros pre' y v2 s2 v3 s3 Hy. apply Hb. by right.
Qed.

(** Rules for [returns]. *)
Lemma returns_intro {S A} (m : M S A) s a s' (Q : A -> S -> Prop) :
  m s = Done (a, s') -> Q a s' -> returns m s Q.
Proof. unfold returns. by intros ->. Qed.
Lemma returns_read {S A B} (m : M S A) (f : A -> M S B) s a s' Q :
  m s = Done (a, s') -> returns (f a) s' Q -> returns (m ≫= f) s Q.
Proof. intros Hm Hf. unfold returns. by rewrite (bind_done _ _ _ _ _ Hm). Qed.
Lemma returns_bind {S A B} (m : M S A) (f : A -> M S B) s (Q1 : A -> S -> Prop) Q :
  returns m s Q1 -> (forall a s', Q1 a s' -> returns (f a) s' Q) -> returns (m ≫= f) s Q.
Proof.
  unfold returns, mbind, M_bind. intros Hm Hf. destruct (m s) as [[a s']|]; [by apply Hf|done].
Qed.
Lemma returns_weaken {S A} (m : M S A) s (Q Q' : A -> S -> Prop) :
  returns m s Q -> (forall a s', Q a s' -> Q' a s') -> returns m s Q'.
Proof. unfold returns. destruct (m s) as [[a s']|]; [by auto|done]. Qed.
Lemma returns_and {S A} (m : M S A) s (Q Q' : A -> S -> Prop) :
  returns m s Q -> returns m s Q' -> returns m s (fun a s' => Q a s' /\ Q' a s').
Proof. unfold returns. by destruct (m s) as [[a s']|]. Qed.
Lemma returns_for_acc {S A V} (P : list A -> V -> S -> Prop) (l : list A) (v : V)
    (body : V -> A -> M S V) s :
  (forall pre x v s, x ∈ l -> P pre v s -> returns (body v x) s (P (pre ++ [x]))) ->
  P [] v s -> returns (for_acc l v body) s (P l).
Proof.
  intros Hb Hv. change l with ([] ++ l) at 2. revert Hv. generalize (@nil A) as pre.
  revert v s Hb. induction l as [|x l IH]; intros v s Hb pre Hv; cbn; [by rewrite app_nil_r|].
  eapply returns_bind; [apply Hb; [by left|exact Hv]|]. intros v' s' Hv'.
  replace (pre ++ x :: l) with ((pre ++ [x]) ++ l) by (by rewrite <- app_assoc).
  apply IH; [|done]. intros pre' y v2 s2 Hy. apply Hb. by right.
Qed.
(** A loop over consecutive numbers. *)
Lemma returns_for_acc_seq {S A V} (P : nat -> V -> S -> Prop) (f : nat -> A) n m (v : V)
    (body : V -> A -> M S V) s :
  (forall j v s, (n <= j < n + m)%nat -> P j v s -> returns (body v (f j)) s (P (Datatypes.S j))) ->
  P n v s -> returns (for_acc (map f (seq n m)) v body) s (P (n + m)%nat).
Proof.
  revert n v s. induction m as [|m IH]; intros n v s Hb Hv; cbn [seq map for_acc].
  - eapply returns_intro; [reflexivity|]. by rewrite Nat.add_0_r.
  - eapply returns_bind; [apply Hb; [lia|exact Hv]|]. intros v' s' Hv'.
    rewrite <- Nat.add_succ_comm. apply IH; [|exact Hv']. intros j v2 s2 Hj. apply Hb. lia.
Qed.
Lemma returns_for_each {S A} (P : list A -> S -> Prop) (l : list A) (body : A -> M S unit) s :
  (forall pre x s, x ∈ l -> P pre s -> returns (body x) s (fun _ => P (pre ++ [x]))) ->
  P [] s -> returns (for_each l body) s (fun _ => P l).
Proof.
  intros Hb Hv. change l with ([] ++ l) at 2. revert Hv. generalize (@nil A) as pre.
  revert s Hb. induction l as [|x l IH]; intros s Hb pre Hv; cbn; [by rewrite app_nil_r|].
  eapply returns_bind; [apply Hb; [by left|exact Hv]|]. intros u s' Hv'.
  replace (pre ++ x :: l) with ((pre ++ [x]) ++ l) by (by rewrite <- app_assoc).
  apply IH; [|done]. intros pre' y s2 Hy. apply Hb. by right.
Qed.

(** A loop whose body only computes. *)
Lemma for_acc_pure {S A V} (f : V -> A -> V) (l : list A) (v : V) (body : V -> A -> M S V) s :
  (forall v x, x ∈ l -> body v x s = Done (f v x, s)) ->
  for_acc l v body s = Done (foldl f v l, s).
Proof.
  revert v. induction l as [|x l IH]; intros v Hb; [done|]. cbn.
  rewrite (bind_done _ _ _ _ _ (Hb v x ltac:(by left))). apply IH. intros w y Hy. apply Hb. by right.
Qed.

(** Goals [keeping I m any] are solved by walking through [m]; the database
    [keeps] holds the facts about the operations it calls.  A bind first tries
    the database, whose result fact becomes a hypothesis. *)
Create HintDb keeps.
Lemma any_intro {A} (a : A) : any a.
Proof. done. Qed.
#[export] Hint Resolve any_intro : keeps.
Ltac keep_step :=
  lazymatch goal with
  | |- keeping _ (mbind _ _) _ =>
      first [ eapply keeping_bind; [solve [eauto with keeps nocore] | intros ? ?]
            | apply keeping_bind with (Q1 := any); [ | intros ? _] ]
  | |- keeping _ (mret _) _ => apply keeping_ret; try done
  | |- keeping _ (fail _) _ => apply keeping_fail
  | |- keeping _ (lift _) _ => apply keeping_lift; try done
  | |- keeping _ get _ => apply keeping_get; try done
  | |- keeping _ (gets _) _ => apply keeping_gets; try done
  | |- keeping _ (massert _) _ => first [apply keeping_massert | eapply keeping_any, keeping_massert]
  | |- keeping _ (when _ _) _ => apply keeping_when
  | |- keeping _ (for_each _ _) _ => apply keeping_for_each; intros ? ?
  | |- keeping _ (for_ret _ _) any => apply keeping_for_ret; [done | intros ? ?; eapply keeping_weaken with (Q := any); [ | by intros [?|] _]]
  | |- keeping _ (for_acc _ _ _) any => apply keeping_for_acc; [done | intros ? ? ? _]
  | |- keeping _ (for_acc_ret _ _ _) any =>
      eapply keeping_any; apply keeping_for_acc_ret with (QV := any) (QR := any);
        [done | intros ? ? ? _; apply keeping_any_sum]
  | |- keeping _ (loop _ _ _) any =>
      apply keeping_loop with (QV := any); [done | intros ? _; apply keeping_any_sum]
  | |- keeping _ (let _ := _ in _) _ => cbv zeta
  | |- keeping _ (if ?b then _ else _) _ => destruct b eqn:?
  | |- keeping _ (match ?x with _ => _ end) _ => destruct x eqn:?
  | |- keeping _ ((match ?x with _ => _ end) _) _ => destruct x eqn:?; cbv beta
  end.
Ltac keep :=
  repeat first
    [ solve [eauto with keeps nocore]
    | keep_step
    | progress cbv beta ].
