(* ===== verification/CppFloat.v ===== *)
(** * C++ numbers: 32-bit [int], and [float]/[double] as IEEE-754 binary32 and
    binary64, computed by the Standard Library's [SpecFloat].

    Every operation below rounds to nearest-even at its own precision, which is
    what x86-64 (SSE) code does for [float] and [double].  The usual arithmetic
    conversions are written out at each use: [i2f]/[i2d] convert an integer,
    [f2d] widens, [d2f] narrows, [f2i] truncates towards zero. *)
From Stdlib Require Import ZArith SpecFloat Lia.
From S2P Require Import Prelude.

Declare Scope cpp_scope.
Delimit Scope cpp_scope with cpp.

(** ** 32-bit signed integers, two's complement *)
Definition INT_MIN : Z := -2147483648.
Definition INT_MAX : Z := 2147483647.
Definition i32 (z : Z) : Z := (z + 2147483648) mod 4294967296 - 2147483648.
Definition in_i32 (z : Z) : Prop := (INT_MIN <= z <= INT_MAX)%Z.

Lemma i32_id z : in_i32 z -> i32 z = z.
Proof. unfold in_i32, i32, INT_MIN, INT_MAX. intros H. rewrite Z.mod_small; lia. Qed.

Lemma i32_range z : in_i32 (i32 z).
Proof.
  unfold in_i32, i32, INT_MIN, INT_MAX.
  pose proof (Z.mod_pos_bound (z + 2147483648) 4294967296 ltac:(lia)). lia.
Qed.

(** Unsigned integers wrap around. *)
Definition u32 (z : Z) : Z := z mod 4294967296.
Definition u64 (z : Z) : Z := z mod 18446744073709551616.

(** ** Floating point *)
Abbreviation float32 := spec_float (only parsing).
Abbreviation float64 := spec_float (only parsing).

#[global] Instance spec_float_eq_dec : EqDecision spec_float.
Proof. solve_decision. Defined.

Definition fprec : Z := 24.
Definition femax : Z := 128.
Definition dprec : Z := 53.
Definition demax : Z := 1024.

Definition fzero : spec_float := S754_zero false.

Definition fadd := SFadd fprec femax.
Definition fsub := SFsub fprec femax.
Definition fmul := SFmul fprec femax.
Definition fdiv := SFdiv fprec femax.
Definition fneg := SFopp.

Definition dadd := SFadd dprec demax.
Definition dsub := SFsub dprec demax.
Definition dmul := SFmul dprec demax.
Definition ddiv := SFdiv dprec demax.

Definition i2f (z : Z) : spec_float := binary_normalize fprec femax z 0 false.
Definition i2d (z : Z) : spec_float := binary_normalize dprec demax z 0 false.

(** Change of format: rounds when narrowing, exact when widening. *)
Definition reround (prec emax : Z) (x : spec_float) : spec_float :=
  match x with
  | S754_finite s m e => binary_round prec emax s m e
  | _ => x
  end.
Definition f2d := reround dprec demax.
Definition d2f := reround fprec femax.

(** Conversion to [int]: truncation; out-of-range values and NaN give the
    "integer indefinite" value of [cvttss2si]/[cvttsd2si]. *)
Definition trunc (x : spec_float) : option Z :=
  match x with
  | S754_zero _ => Some 0%Z
  | S754_finite s m e =>
      let a := if (0 <=? e)%Z then Z.shiftl (Zpos m) e else Z.shiftr (Zpos m) (- e) in
      Some (cond_Zopp s a)
  | _ => None
  end.
Definition f2i (x : spec_float) : Z :=
  match trunc x with
  | Some z => if ((INT_MIN <=? z) && (z <=? INT_MAX))%Z then z else INT_MIN
  | None => INT_MIN
  end.

(** Comparisons; every one of them is false on NaN, [neqb] is true on NaN. *)
Definition ltb := SFltb.
Definition leb := SFleb.
Definition feqb := SFeqb.
Definition gtb (x y : spec_float) := SFltb y x.
Definition geb (x y : spec_float) := SFleb y x.
Definition fneqb (x y : spec_float) := negb (SFeqb x y).

(** [std::max]: the first argument unless it is smaller. *)
Definition fmax (x y : spec_float) : spec_float := if ltb x y then y else x.

(** A decimal literal [n / d] of type [double], correctly rounded; a literal
    initialising a [float] is narrowed from it. *)
Definition dlit (n d : Z) : spec_float := ddiv (i2d n) (i2d d).

(** The digits [n * 10^-k] read directly as a [float] ([std::stof]) or as a
    [double] ([std::stod]): one rounding of the exact quotient. *)
Definition decimal (prec emax : Z) (s : bool) (n : Z) (k : Z) : spec_float :=
  match n with
  | Zpos m =>
      if (k <=? 0)%Z then binary_round prec emax s (Z.to_pos (Zpos m * 10 ^ (- k))) 0
      else SFdiv prec emax (S754_finite s m 0) (S754_finite false (Z.to_pos (10 ^ k)) 0)
  | _ => S754_zero s
  end.

Definition is_finite (x : spec_float) : bool :=
  match x with S754_zero _ | S754_finite _ _ _ => true | _ => false end.
Definition is_nan (x : spec_float) : bool :=
  match x with S754_nan => true | _ => false end.

Infix "<f" := ltb (at level 70) : cpp_scope.
Infix "<=f" := leb (at level 70) : cpp_scope.
Infix ">f" := gtb (at level 70) : cpp_scope.
Infix ">=f" := geb (at level 70) : cpp_scope.

Example f2i_ex : f2i (fdiv (i2f 1000) (i2f 3)) = 333%Z.
Proof. reflexivity. Qed.
Example dlit_ex : f2i (d2f (dmul (dlit 85 100) (i2d 100))) = 85%Z.
Proof. reflexivity. Qed.

(** ** Identities used by the components *)
Lemma fmul_i2f_0 x : is_finite x = true -> exists s, fmul x (i2f 0) = S754_zero s.
Proof. destruct x; cbn; try done; eauto. Qed.

Lemma fadd_zero_l s v : fneqb v fzero = true -> fadd (S754_zero s) v = v.
Proof. by destruct v, s. Qed.

Lemma leb_refl x : is_finite x = true -> leb x x = true.
Proof.
  unfold leb, SFleb, SFcompare. destruct x as [| | |s m e]; try done. intros _.
  rewrite Z.compare_refl.
  assert (Pos.compare_cont Eq m m = Eq) as -> by apply Pos.compare_refl. by destruct s.
Qed.

Lemma geb_of_not_ltb x y : is_nan x = false -> is_nan y = false -> ltb x y = false -> leb y x = true.
Proof.
  unfold ltb, leb, SFltb, SFleb, SFcompare.
  destruct x as [sx|sx| |sx mx ex], y as [sy|sy| |sy my ey]; try done;
    try (by destruct sx); try (by destruct sy); try (by destruct sx, sy).
  intros _ _. rewrite (Z.compare_antisym ex ey).
  change (Pos.compare_cont Eq mx my) with (Pos.compare mx my).
  change (Pos.compare_cont Eq my mx) with (Pos.compare my mx).
  rewrite (Pos.compare_antisym mx my).
  destruct sx, sy, (ex ?= ey)%Z, (mx ?= my)%positive; done.
Qed.

Lemma ltb_asym x y : ltb x y = true -> ltb y x = false.
Proof.
  unfold ltb, SFltb, SFcompare.
  destruct x as [sx|sx| |sx mx ex], y as [sy|sy| |sy my ey]; try done;
    try (by destruct sx); try (by destruct sy); try (by destruct sx, sy).
  rewrite (Z.compare_antisym ex ey).
  change (Pos.compare_cont Eq mx my) with (Pos.compare mx my).
  change (Pos.compare_cont Eq my mx) with (Pos.compare my mx).
  rewrite (Pos.compare_antisym mx my).
  destruct sx, sy, (ex ?= ey)%Z, (mx ?= my)%positive; done.
Qed.

(** ** Signs

    Rounding a non-negative significand never gives NaN and keeps the sign. *)
Definition nonneg (x : spec_float) : bool :=
  match x with
  | S754_zero _ => true
  | S754_infinity s | S754_finite s _ _ => negb s
  | S754_nan => false
  end.

Lemma shr_1_nonneg mrs : (0 <= shr_m mrs)%Z -> (0 <= shr_m (shr_1 mrs))%Z.
Proof.
  destruct mrs as [m r s]. cbn. intros H. destruct m as [|[p|p|]|p]; cbn; try lia.
Qed.

Lemma iter_shr_1_nonneg p mrs :
  (0 <= shr_m mrs)%Z -> (0 <= shr_m (SpecFloat.iter_pos shr_1 p mrs))%Z.
Proof.
  revert mrs. induction p as [p IH|p IH|]; intros mrs H; cbn.
  - apply IH, IH. by apply shr_1_nonneg.
  - by apply IH, IH.
  - by apply shr_1_nonneg.
Qed.

Lemma shr_fexp_nonneg prec emax m e l :
  (0 <= m)%Z -> (0 <= shr_m (shr_fexp prec emax m e l).1)%Z.
Proof.
  intros Hm. unfold shr_fexp, shr. set (n := (_ - e)%Z).
  assert (H0 : (0 <= shr_m (shr_record_of_loc m l))%Z) by (destruct l as [|[]]; cbn; lia).
  destruct n as [|p|p]; cbn; [done| |done]. by apply iter_shr_1_nonneg.
Qed.

Lemma round_nearest_even_nonneg m l : (0 <= m)%Z -> (0 <= round_nearest_even m l)%Z.
Proof. destruct l as [|[]]; cbn; try lia. destruct (Z.even m); lia. Qed.

Lemma binary_round_aux_sign prec emax s m e l :
  (0 <= m)%Z ->
  match binary_round_aux prec emax s m e l with
  | S754_zero s' | S754_infinity s' | S754_finite s' _ _ => s' = s
  | S754_nan => False
  end.
Proof.
  intros Hm. unfold binary_round_aux.
  pose proof (shr_fexp_nonneg prec emax m e l Hm) as H1.
  destruct (shr_fexp prec emax m e l) as [mrs' e']. cbn in H1.
  pose proof (shr_fexp_nonneg prec emax _ e' loc_Exact
    (round_nearest_even_nonneg (shr_m mrs') (loc_of_shr_record mrs') H1)) as H2.
  destruct (shr_fexp _ _ _ e' loc_Exact) as [mrs'' e'']. cbn in H2.
  destruct (shr_m mrs''); [done| |lia]. by destruct (_ <=? _)%Z.
Qed.

Lemma nonneg_round prec emax m e l :
  (0 <= m)%Z -> nonneg (binary_round_aux prec emax false m e l) = true.
Proof.
  intros Hm. pose proof (binary_round_aux_sign prec emax false m e l Hm) as H.
  destruct (binary_round_aux _ _ _ _ _ _); cbn in *; by subst.
Qed.

Lemma nonneg_binary_round prec emax p e : nonneg (binary_round prec emax false p e) = true.
Proof. unfold binary_round. destruct (shl_align _ _ _). by apply nonneg_round. Qed.

Lemma nonneg_dadd x y : nonneg x = true -> nonneg y = true -> nonneg (dadd x y) = true.
Proof.
  destruct x as [[]|[]| |[] mx ex], y as [[]|[]| |[] my ey]; try done. intros _ _.
  unfold dadd, SFadd. cbn [cond_Zopp].
  apply nonneg_binary_round.
Qed.

Lemma nonneg_reround prec emax x : nonneg x = true -> nonneg (reround prec emax x) = true.
Proof. destruct x as [| | |[] m e]; try done. intros _. apply nonneg_binary_round. Qed.

Lemma nonneg_SFdiv prec emax x y :
  nonneg x = true -> nonneg y = true -> fneqb x fzero = true -> fneqb y fzero = true ->
  is_finite y = true -> nonneg (SFdiv prec emax x y) = true.
Proof.
  destruct x as [[]|[]| |[] mx ex], y as [[]|[]| |[] my ey]; try done. intros _ _ _ _ _.
  unfold SFdiv, SFdiv_core_binary.
  set (e' := Z.min _ _). set (m' := match _ with Z0 => _ | _ => _ end).
  assert (Hm : (0 <= m')%Z).
  { unfold m'. destruct (_ - e')%Z; [lia| |lia]. apply Z.shiftl_nonneg. lia. }
  pose proof (Z.div_pos m' (Zpos my) Hm ltac:(lia)) as Hq. unfold Z.div in Hq.
  destruct (Z.div_eucl m' (Zpos my)) as [q r]. by apply nonneg_round.
Qed.

Lemma nonneg_not_nan x : nonneg x = true -> is_nan x = false.
Proof. by destruct x. Qed.

Lemma leb_refl_nn x : is_nan x = false -> leb x x = true.
Proof.
  destruct x as [|[]| |]; try done. intros _. by apply leb_refl.
Qed.
