(* ===== verification/CppStd.v ===== *)
(** * The parts of the C++ standard library the program uses: [std::map]
    (ordered), [std::sort], [std::getline] on a delimiter, [std::stoi] and
    [std::stof]/[std::stod]. *)
From Stdlib Require Import ZArith SpecFloat Ascii String Sorted Permutation Lia.
From S2P Require Import Prelude CppFloat.

(** ** [std::map]: an association list kept in key order *)
Class KeyOrder (K : Type) := key_ltb : K -> K -> bool.
#[global] Instance Z_key : KeyOrder Z := Z.ltb.
#[global] Instance string_key : KeyOrder string := String.ltb.

Section OrderedMap.
Context {K V : Type} `{KeyOrder K} `{EqDecision K}.

Fixpoint om_find (k : K) (m : list (K * V)) : option V :=
  match m with
  | [] => None
  | (k', v) :: m' => if decide (k = k') then Some v else om_find k m'
  end.

(** [m[k] = v]: overwrite, or insert in key order. *)
Fixpoint om_set (k : K) (v : V) (m : list (K * V)) : list (K * V) :=
  match m with
  | [] => [(k, v)]
  | (k', v') :: m' =>
      if decide (k = k') then (k, v) :: m'
      else if key_ltb k k' then (k, v) :: m
      else (k', v') :: om_set k v m'
  end.

(** A read of [m[k]] inserts the value-initialised element when [k] is
    absent. *)
Definition om_get (d : V) (k : K) (m : list (K * V)) : V * list (K * V) :=
  match om_find k m with
  | Some v => (v, m)
  | None => (d, om_set k d m)
  end.

Lemma om_find_set k v m : om_find k (om_set k v m) = Some v.
Proof.
  induction m as [|[k' v'] m IH]; simpl.
  - by rewrite decide_True.
  - case_decide; simpl; [by rewrite decide_True|].
    destruct (key_ltb k k'); simpl; [by rewrite decide_True|].
    by rewrite decide_False.
Qed.

Lemma om_find_set_ne k k2 v m : k <> k2 -> om_find k2 (om_set k v m) = om_find k2 m.
Proof.
  intros Hne. induction m as [|[k' v'] m IH]; simpl.
  - by rewrite decide_False.
  - case_decide; subst; simpl.
    + rewrite !(decide_False (P := k2 = k')); congruence.
    + destruct (key_ltb k k'); simpl; [by rewrite decide_False|].
      case_decide; [done|apply IH].
Qed.
End OrderedMap.

(** ** [std::sort]

    Insertion sort scanning from the right, which is what libstdc++ runs on up
    to 16 elements; the standard only promises a sorted permutation, and the
    properties proved with it use nothing else. *)
Section Sort.
Context {A : Type} (comp : A -> A -> bool).

(** [rp] is the sorted prefix, last element first. *)
Fixpoint sort_insert (rp : list A) (v : A) : list A :=
  match rp with
  | [] => [v]
  | y :: rp' => if comp v y then y :: sort_insert rp' v else v :: rp
  end.
Definition std_sort (l : list A) : list A := rev (fold_left sort_insert l []).

Lemma sort_insert_perm rp v : Permutation (sort_insert rp v) (v :: rp).
Proof.
  induction rp as [|y rp IH]; simpl; [done|].
  destruct (comp v y); [|done]. rewrite IH. apply perm_swap.
Qed.

Lemma sort_fold_perm l rp :
  Permutation (fold_left sort_insert l rp) (l ++ rp).
Proof.
  revert rp. induction l as [|x l IH]; intros rp; simpl; [done|].
  rewrite IH, sort_insert_perm. symmetry. apply Permutation_middle.
Qed.

Lemma std_sort_perm l : Permutation (std_sort l) l.
Proof.
  unfold std_sort. rewrite <- Permutation_rev, sort_fold_perm. by rewrite app_nil_r.
Qed.

Lemma std_sort_in x l : x ∈ std_sort l <-> x ∈ l.
Proof. by rewrite std_sort_perm. Qed.

Lemma std_sort_nil l : std_sort l = [] -> l = [].
Proof.
  intros Hs. apply Permutation_nil. symmetry. rewrite <- Hs. symmetry. apply std_sort_perm.
Qed.

(** Sortedness, for an asymmetric comparison whose negation is transitive (a
    strict weak order). *)
Definition le_comp (x y : A) : Prop := comp y x = false.
Context (asym : forall x y, comp x y = true -> comp y x = false).
Context (ntrans : forall x y z, comp x y = false -> comp y z = false -> comp x z = false).

Lemma sort_insert_sorted rp v :
  StronglySorted (fun x y => le_comp y x) rp ->
  StronglySorted (fun x y => le_comp y x) (sort_insert rp v).
Proof.
  induction rp as [|y rp IH]; simpl; intros Hs; [repeat constructor|].
  apply StronglySorted_inv in Hs as [Hs Hy].
  destruct (comp v y) eqn:E.
  - constructor; [by apply IH|].
    eapply Permutation_Forall; [symmetry; apply sort_insert_perm|].
    constructor; [by apply asym|done].
  - constructor; [by constructor|]. constructor; [done|].
    eapply Forall_impl; [exact Hy|]. intros z Hz. unfold le_comp in *. eauto.
Qed.

Lemma std_sort_sorted l : StronglySorted le_comp (std_sort l).
Proof.
  unfold std_sort.
  assert (Hall : forall l rp, StronglySorted (fun x y => le_comp y x) rp ->
    StronglySorted (fun x y => le_comp y x) (fold_left sort_insert l rp)).
  { clear l. induction l as [|x l IH]; simpl; intros rp Hs; [done|].
    apply IH. by apply sort_insert_sorted. }
  specialize (Hall l [] (SSorted_nil _)).
  induction Hall as [|y rp Hs IH Hy]; simpl; [constructor|].
  clear Hs. revert IH Hy. generalize (rev rp) (in_rev rp). intros r Hin IH Hy.
  assert (Hr : Forall (fun z => le_comp z y) r).
  { apply List.Forall_forall. intros z Hz. rewrite List.Forall_forall in Hy.
    apply Hy. by apply Hin. }
  clear Hin Hy. induction IH as [|x r Hx IHr Hfx]; simpl; [repeat constructor|].
  inversion Hr; subst. constructor; [by apply IHr|].
  apply Forall_app. split; [done|]. by constructor.
Qed.
End Sort.

(** ** Text input

    [std::getline(s, field, ',')]: [rest] is the unread text of a good stream,
    [None] once the end was reached; a stream that is not good leaves [field]
    as it was. *)
Definition COMMA : ascii := ","%char.
Definition NEWLINE : ascii := "010"%char.

Fixpoint span_delim (d : ascii) (s : string) : string * option string :=
  match s with
  | EmptyString => (EmptyString, None)
  | String c s' =>
      if Ascii.eqb c d then (EmptyString, Some s')
      else let '(f, r) := span_delim d s' in (String c f, r)
  end.

Definition getline (rest : option string) (field : string) : string * option string :=
  match rest with
  | None => (field, None)
  | Some s => span_delim COMMA s
  end.

Definition is_space (c : ascii) : bool :=
  let n := Z.of_nat (nat_of_ascii c) in ((n =? 32) || ((9 <=? n) && (n <=? 13)))%Z.
Definition digit_of (c : ascii) : option Z :=
  let n := Z.of_nat (nat_of_ascii c) in
  if ((48 <=? n) && (n <=? 57))%Z then Some (n - 48)%Z else None.

Fixpoint skip_space (s : string) : string :=
  match s with
  | String c s' => if is_space c then skip_space s' else s
  | EmptyString => s
  end.

Definition read_sign (s : string) : bool * string :=
  match s with
  | String c s' =>
      if Ascii.eqb c "-"%char then (true, s')
      else if Ascii.eqb c "+"%char then (false, s') else (false, s)
  | EmptyString => (false, s)
  end.

(** The digits at the front of [s]: value so far, number of digits, the rest. *)
Fixpoint read_digits (s : string) (acc : Z) (n : Z) : Z * Z * string :=
  match s with
  | String c s' =>
      match digit_of c with
      | Some d => read_digits s' (10 * acc + d) (n + 1)
      | None => (acc, n, s)
      end
  | EmptyString => (acc, n, s)
  end.

(** [std::stoi]: no digits raises [invalid_argument], a value outside [int]
    raises [out_of_range]; trailing text is ignored. *)
Definition stoi (s : string) : outcome Z :=
  let '(neg, s1) := read_sign (skip_space s) in
  let '(v, n, _) := read_digits s1 0 0 in
  if (n =? 0)%Z then Stop Uncaught
  else let z := if neg then (- v)%Z else v in
       if ((INT_MIN <=? z) && (z <=? INT_MAX))%Z then Done z else Stop Uncaught.

Definition read_exponent (s : string) : Z :=
  match s with
  | String c s1 =>
      if Ascii.eqb c "e"%char || Ascii.eqb c "E"%char then
        let '(neg, s2) := read_sign s1 in
        let '(v, n, _) := read_digits s2 0 0 in
        if (n =? 0)%Z then 0%Z else if neg then (- v)%Z else v
      else 0%Z
  | EmptyString => 0%Z
  end.

(** [std::stof]/[std::stod] on decimal text (the hexadecimal, "inf" and "nan"
    spellings are not modelled); overflow and a non-zero text that rounds to
    zero raise [out_of_range]. *)
Definition parse_float (prec emax : Z) (s : string) : outcome spec_float :=
  let '(neg, s1) := read_sign (skip_space s) in
  let '(ip, n1, s2) := read_digits s1 0 0 in
  let '(v, n2, s3) :=
    match s2 with
    | String c s2' =>
        if Ascii.eqb c "."%char then
          let '(v, n, r) := read_digits s2' ip 0 in (v, n, r)
        else (ip, 0%Z, s2)
    | EmptyString => (ip, 0%Z, s2)
    end in
  if (n1 + n2 =? 0)%Z then Stop Uncaught
  else let x := decimal prec emax neg v (n2 - read_exponent s3) in
       match x with
       | S754_infinity _ => Stop Uncaught
       | S754_zero _ => if (v =? 0)%Z then Done x else Stop Uncaught
       | _ => Done x
       end.
Definition stof := parse_float fprec femax.
Definition stod := parse_float dprec demax.

Example stof_ex : stof " 12.50,x" = Done (fdiv (i2f 25) (i2f 2)).
Proof. reflexivity. Qed.
Example stoi_ex : stoi "-17 " = Done (-17)%Z.
Proof. reflexivity. Qed.
