(* ===== verification/Socket.v ===== *)
(** * Sockets ([common/socket.cpp])

    A socket is a stream of bytes in each direction.  The operating system decides
    how many bytes a call moves; the functions here loop, or do not, until they have
    all.  [Kernel] is that decision, its laws what the manual pages of [send],
    [write], [recv] and [read] say of stream sockets.  The input is what arrives
    until the peer closes the connection; waiting for it is not visible.  The
    creation of sockets and their options are left out. *)
From Stdlib Require Import ZArith Lia.
From S2P Require Import Prelude CppFloat.

(** ** Bytes of an [int]: little endian *)
Fixpoint to_bytes (n : nat) (z : Z) : list Z :=
  match n with O => [] | S n' => Z.land z 255 :: to_bytes n' (Z.shiftr z 8) end.
Fixpoint of_bytes (l : list Z) : Z :=
  match l with [] => 0%Z | b :: l' => Z.lor b (Z.shiftl (of_bytes l') 8) end.
Definition int_bytes (z : Z) : list Z := to_bytes 4 z.

(** ** System calls

    [k_recv i n] is the result of call number [i] when [n > 0] bytes are both asked
    for and there, [k_send i n] when [n] bytes are handed over. *)
Class Kernel : Type := { k_recv : nat -> nat -> Z; k_send : nat -> nat -> Z }.
Class KernelLaws (K : Kernel) : Prop := {
  k_recv_range i n : (0 < n)%nat -> k_recv i n = (-1)%Z \/ (1 <= k_recv i n <= Z.of_nat n)%Z;
  k_send_range i n : (0 < n)%nat -> k_send i n = (-1)%Z \/ (1 <= k_send i n <= Z.of_nat n)%Z }.
(** No call fails. *)
Class Healthy (K : Kernel) : Prop := {
  k_recv_moves i n : (0 < n)%nat -> (1 <= k_recv i n <= Z.of_nat n)%Z;
  k_send_moves i n : (0 < n)%nat -> (1 <= k_send i n <= Z.of_nat n)%Z }.
(** An [int] is never split. *)
Class WholeInts (K : Kernel) : Prop := {
  k_recv_int i : k_recv i 4 = 4%Z;
  k_send_int i : k_send i 4 = 4%Z }.

(** What is still to arrive, what was written, and the number of calls so far. *)
Record Sock : Type := mkSock { sk_in : list Z; sk_out : list Z; sk_calls : nat }.

Section Socket.
Context {K : Kernel}.

(** [recv] and [read]: 0 at the end of the stream. *)
Definition sys_recv (size : nat) : M Sock (Z * list Z) :=
  s ← get;
  let n := Nat.min size (length (sk_in s)) in
  let got := if (n =? 0)%nat then 0%Z else k_recv (sk_calls s) n in
  _ ← put (mkSock (drop (Z.to_nat got) (sk_in s)) (sk_out s) (S (sk_calls s)));
  mret (got, take (Z.to_nat got) (sk_in s)).
(** [send] and [write]. *)
Definition sys_send (data : list Z) : M Sock Z :=
  s ← get;
  let sent := if (length data =? 0)%nat then 0%Z else k_send (sk_calls s) (length data) in
  _ ← put (mkSock (sk_in s) (sk_out s ++ take (Z.to_nat sent) data) (S (sk_calls s)));
  mret sent.

Definition MAX_BUF_SIZE : Z := 65535.
Definition READ_MAX_BUF_SIZE : Z := 512.
Definition SEND_BUF_SIZE : Z := 210000.

(** ** One [int], in one call *)
Definition socket_txsize (len : Z) : M Sock Z := sys_send (int_bytes len).
(** [size] is 0 before the call: bytes that are not read stay 0. *)
Definition socket_rxsize : M Sock Z :=
  '(stat, bytes) ← sys_recv 4;
  mret (if (stat <? 0)%Z then (-1)%Z else i32 (of_bytes bytes)).

(** ** Blocks of bytes *)
Definition send_turn (data : list Z) (total : Z) : M Sock (Z + Z) :=
  if (total <? Z.of_nat (length data))%Z then
    sent ← sys_send (drop (Z.to_nat total) data);
    mret (if (sent <=? 0)%Z then inr total else inl (i32 (total + sent)))
  else mret (inr total).
Definition socket_send (data : list Z) : M Sock Z := loop (S (length data)) 0%Z (send_turn data).

(** The comparison of the rest with the largest datagram is unsigned. *)
Definition UDP_send_turn (data : list Z) (total : Z) : M Sock (Z + Z) :=
  if (total <? Z.of_nat (length data))%Z then
    let rest := drop (Z.to_nat total) data in
    sent ← sys_send (if (SEND_BUF_SIZE <=? u32 (Z.of_nat (length data) - total))%Z
                     then take (Z.to_nat SEND_BUF_SIZE) rest else rest);
    mret (if (sent <=? 0)%Z then inr total else inl (i32 (total + sent)))
  else mret (inr total).
Definition UDP_socket_send (data : list Z) : M Sock Z := loop (S (length data)) 0%Z (UDP_send_turn data).

(** The locals are [rcvd] and what the buffer holds so far.  Only -1 leaves the
    loop early: at the end of the stream [got] is 0 and nothing changes. *)
Definition receive_turn (size : Z) (local : Z * list Z) : M Sock ((Z * list Z) + (Z * list Z)) :=
  let '(rcvd, data) := local in
  if (rcvd <? size)%Z then
    '(got, bytes) ← sys_recv (Z.to_nat (size - rcvd));
    mret (if (got =? -1)%Z then inr ((-1)%Z, data) else inl (i32 (rcvd + got), data ++ bytes))
  else mret (inr local).
Definition socket_receive (fuel : nat) (size : Z) : M Sock (Z * list Z) :=
  loop fuel (0%Z, []) (receive_turn size).
End Socket.
