(* ===== verification/SocketProps.v ===== *)
(** * Properties of the socket functions: blocks and [int]s arrive as they were
    sent, however the calls split them. *)
From Stdlib Require Import ZArith Lia.
From S2P Require Import Prelude CppFloat Socket.

(** ** Bytes *)
Lemma length_to_bytes n z : length (to_bytes n z) = n.
Proof. revert z. induction n as [|n IH]; intros z; cbn; [done|]. by rewrite IH. Qed.
Lemma of_to_bytes n z : of_bytes (to_bytes n z) = (z mod 2 ^ (8 * Z.of_nat n))%Z.
Proof.
  revert z. induction n as [|n IH]; intros z; [by rewrite Z.mod_1_r|]. cbn [to_bytes of_bytes]. rewrite IH.
  apply Z.bits_inj'. intros i Hi. rewrite <- !Z.land_ones by lia. change 255%Z with (Z.ones 8).
  rewrite Z.lor_spec, !Z.land_spec, Z.shiftl_spec by lia.
  destruct (Z.ltb_spec i 8) as [Hlt|Hge].
  - rewrite !Z.ones_spec_low by lia. rewrite (Z.testbit_neg_r _ (i - 8)) by lia.
    by rewrite andb_true_r, orb_false_r.
  - rewrite Z.ones_spec_high by lia. rewrite Z.land_spec, Z.shiftr_spec by lia.
    replace (i - 8 + 8)%Z with i by lia. rewrite andb_false_r. cbn. f_equal.
    destruct (Z.ltb_spec i (8 * Z.of_nat (S n))).
    + rewrite !Z.ones_spec_low by lia. done.
    + rewrite !Z.ones_spec_high by lia. done.
Qed.
(** An [int] is read back from its bytes. *)
Lemma int_roundtrip z : in_i32 z -> i32 (of_bytes (int_bytes z)) = z.
Proof.
  intros H. unfold int_bytes. rewrite of_to_bytes. change (2 ^ (8 * Z.of_nat 4))%Z with 4294967296%Z.
  rewrite <- (i32_id z H) at 2. unfold i32. by rewrite Zplus_mod_idemp_l.
Qed.

Section Calls.
Context {K : Kernel} `{!KernelLaws K}.

(** ** Single calls *)
Lemma sys_send_run (data : list Z) s : data <> [] ->
  exists r s', sys_send data s = Done (r, s') /\ sk_in s' = sk_in s /\
    sk_out s' = sk_out s ++ take (Z.to_nat r) data /\
    (r = (-1)%Z \/ (1 <= r <= Z.of_nat (length data))%Z) /\ r = k_send (sk_calls s) (length data).
Proof.
  intros Hne. assert (Hl : (0 < length data)%nat) by (destruct data; [done|cbn; lia]).
  assert (E : (length data =? 0)%nat = false) by (apply Nat.eqb_neq; lia).
  eexists (k_send (sk_calls s) (length data)), _. split; [unfold sys_send; mred; by rewrite E|].
  cbn. repeat split. by apply k_send_range.
Qed.
Lemma sys_recv_run size s : (0 < size)%nat -> sk_in s <> [] ->
  exists r s', sys_recv size s = Done ((r, take (Z.to_nat r) (sk_in s)), s') /\
    sk_in s' = drop (Z.to_nat r) (sk_in s) /\ sk_out s' = sk_out s /\
    (r = (-1)%Z \/ (1 <= r <= Z.of_nat (Nat.min size (length (sk_in s))))%Z) /\
    r = k_recv (sk_calls s) (Nat.min size (length (sk_in s))).
Proof.
  intros Hs Hne. assert (Hl : (0 < length (sk_in s))%nat) by (destruct (sk_in s); [done|cbn; lia]).
  assert (E : (Nat.min size (length (sk_in s)) =? 0)%nat = false) by (apply Nat.eqb_neq; lia).
  eexists (k_recv (sk_calls s) (Nat.min size (length (sk_in s)))), _.
  split; [unfold sys_recv; mred; by rewrite E|]. cbn. repeat split. apply k_recv_range. lia.
Qed.

(** ** Sending loops

    [chunk] picks what one call is given: a part of what is left. *)
Section Sending.
Context (data : list Z) (turn : Z -> M Sock (Z + Z)) (chunk : list Z -> list Z).
Context (Hint : (Z.of_nat (length data) <= INT_MAX)%Z).
Context (Hchunk : forall l, l <> [] -> chunk l <> [] /\ exists rest, l = chunk l ++ rest).
Context (Hturn : forall n s, (n < length data)%nat -> turn (Z.of_nat n) s =
  (sent ← sys_send (chunk (drop n data));
   mret (if (sent <=? 0)%Z then inr (Z.of_nat n) else inl (i32 (Z.of_nat n + sent)))) s).
Context (Hend : forall s, turn (Z.of_nat (length data)) s = Done (inr (Z.of_nat (length data)), s)).

Lemma send_loop k n s : (n <= length data)%nat -> (length data - n < k)%nat ->
  exists total s', loop k (Z.of_nat n) turn s = Done (Z.of_nat total, s') /\ sk_in s' = sk_in s /\
    (n <= total <= length data)%nat /\ sk_out s' = sk_out s ++ take (total - n) (drop n data) /\
    (Healthy K -> total = length data).
Proof.
  revert n s. induction k as [|k IH]; intros n s Hn Hk; [lia|]. cbn [loop].
  destruct (decide (n = length data)) as [->|Hlt].
  { eexists _, s. rewrite (bind_done _ _ _ _ _ (Hend s)). split; [reflexivity|]. split; [done|].
    split; [lia|]. rewrite Nat.sub_diag, app_nil_r. done. }
  assert (Hne : drop n data <> []) by (intros E; apply (f_equal length) in E; rewrite length_drop in E; cbn in E; lia).
  destruct (Hchunk _ Hne) as [Hc (rest & Hrest)].
  assert (Hcl : (length (chunk (drop n data)) <= length data - n)%nat).
  { apply (f_equal length) in Hrest. rewrite length_drop, length_app in Hrest. lia. }
  destruct (sys_send_run _ s Hc) as (r & s1 & Hr & Hin & Hout & Hrange & Heq).
  assert (Ht : turn (Z.of_nat n) s = Done ((if (r <=? 0)%Z then inr (Z.of_nat n) else inl (i32 (Z.of_nat n + r))), s1)).
  { rewrite Hturn by lia. by rewrite (bind_done _ _ _ _ _ Hr). }
  rewrite (bind_done _ _ _ _ _ Ht). destruct (Z.leb_spec r 0) as [Hle|Hgt].
  { eexists _, s1. split; [reflexivity|]. split; [done|]. split; [lia|].
    rewrite Nat.sub_diag, take_0, Hout. destruct Hrange as [->|]; [|lia]. split; [done|].
    intros Hh. pose proof (k_send_moves (K := K) (sk_calls s) (length (chunk (drop n data)))) as Hm.
    rewrite <- Heq in Hm. destruct (chunk _); [done|]. cbn in *. lia. }
  destruct Hrange as [->|Hrange]; [lia|].
  rewrite i32_id by (unfold in_i32, INT_MIN, INT_MAX in *; lia).
  replace (Z.of_nat n + r)%Z with (Z.of_nat (n + Z.to_nat r)) by lia.
  destruct (IH (n + Z.to_nat r)%nat s1) as (total & s2 & H1 & H2 & H3 & H4 & H5); [lia|lia|].
  exists total, s2. split; [done|]. split; [congruence|]. split; [lia|]. split; [|done].
  rewrite H4, Hout, <- app_assoc. f_equal.
  assert (E1 : take (Z.to_nat r) (chunk (drop n data)) = take (Z.to_nat r) (drop n data)).
  { rewrite Hrest at 2. by rewrite take_app_le by lia. }
  rewrite E1, <- drop_drop. set (l := drop n data).
  replace (total - n)%nat with (Z.to_nat r + (total - (n + Z.to_nat r)))%nat by lia.
  apply take_take_drop.
Qed.
End Sending.

Lemma socket_send_run (data : list Z) s : (Z.of_nat (length data) <= INT_MAX)%Z ->
  exists total s', socket_send data s = Done (Z.of_nat total, s') /\ sk_in s' = sk_in s /\
    (total <= length data)%nat /\ sk_out s' = sk_out s ++ take total data /\ (Healthy K -> total = length data).
Proof.
  intros Hl. destruct (send_loop data (send_turn data) id Hl) with (k := S (length data)) (n := 0%nat) (s := s)
    as (total & s' & H1 & H2 & H3 & H4 & H5); [..|lia|lia|].
  - intros l Hne. split; [done|]. exists []. by rewrite app_nil_r.
  - intros n s1 Hn. unfold send_turn. rewrite (proj2 (Z.ltb_lt _ _)) by lia. by rewrite Nat2Z.id.
  - intros s1. unfold send_turn. by rewrite Z.ltb_irrefl.
  - exists total, s'. rewrite Nat.sub_0_r in H4. split; [done|]. split; [done|]. split; [lia|]. done.
Qed.
Lemma UDP_socket_send_run (data : list Z) s : (Z.of_nat (length data) <= INT_MAX)%Z ->
  exists total s', UDP_socket_send data s = Done (Z.of_nat total, s') /\ sk_in s' = sk_in s /\
    (total <= length data)%nat /\ sk_out s' = sk_out s ++ take total data /\ (Healthy K -> total = length data).
Proof.
  intros Hl.
  set (chunk := fun l : list Z => if (SEND_BUF_SIZE <=? Z.of_nat (length l))%Z then take (Z.to_nat SEND_BUF_SIZE) l else l).
  destruct (send_loop data (UDP_send_turn data) chunk Hl) with (k := S (length data)) (n := 0%nat) (s := s)
    as (total & s' & H1 & H2 & H3 & H4 & H5); [..|lia|lia|].
  - intros l Hne. unfold chunk. destruct (_ <=? _)%Z.
    + split; [|exists (drop (Z.to_nat SEND_BUF_SIZE) l); by rewrite take_drop].
      destruct l; [done|]. unfold SEND_BUF_SIZE. by destruct (Z.to_nat 210000) eqn:E; [lia|].
    + split; [done|]. exists []. by rewrite app_nil_r.
  - intros n s1 Hn. unfold UDP_send_turn. rewrite (proj2 (Z.ltb_lt _ _)) by lia. rewrite Nat2Z.id. unfold chunk.
    rewrite length_drop. unfold u32. rewrite Z.mod_small by (unfold INT_MAX in *; lia).
    by replace (Z.of_nat (length data) - Z.of_nat n)%Z with (Z.of_nat (length data - n)) by lia.
  - intros s1. unfold UDP_send_turn. by rewrite Z.ltb_irrefl.
  - exists total, s'. rewrite Nat.sub_0_r in H4. split; [done|]. split; [done|]. split; [lia|]. done.
Qed.

(** ** The receiving loop *)
Lemma receive_step (size n : nat) d s : (Z.of_nat size <= INT_MAX)%Z -> (n < size)%nat -> sk_in s <> [] ->
  exists r s', (r = (-1)%Z \/ (1 <= r <= Z.of_nat (Nat.min (size - n) (length (sk_in s))))%Z) /\ (Healthy K -> r <> (-1)%Z) /\
    sk_out s' = sk_out s /\ sk_in s' = drop (Z.to_nat r) (sk_in s) /\
    receive_turn (Z.of_nat size) (Z.of_nat n, d) s = Done
      (if (r =? -1)%Z then inr ((-1)%Z, d) else inl (Z.of_nat (n + Z.to_nat r), d ++ take (Z.to_nat r) (sk_in s)), s').
Proof.
  intros Hi Hn Hne. destruct (sys_recv_run (size - n) s ltac:(lia) Hne) as (r & s' & H1 & H2 & H3 & H4 & H5).
  exists r, s'. split; [done|]. split.
  { intros Hh. pose proof (k_recv_moves (K := K) (sk_calls s) (Nat.min (size - n) (length (sk_in s)))) as Hm.
    rewrite <- H5 in Hm. assert (Hl : (0 < length (sk_in s))%nat) by (destruct (sk_in s); [done|cbn; lia]). lia. }
  split; [done|]. split; [done|]. unfold receive_turn. rewrite (proj2 (Z.ltb_lt _ _)) by lia.
  replace (Z.to_nat (Z.of_nat size - Z.of_nat n)) with (size - n)%nat by lia. rewrite (bind_done _ _ _ _ _ H1).
  destruct (Z.eqb_spec r (-1)) as [|Hr]; [done|]. destruct H4 as [|H4]; [done|].
  rewrite i32_id by (unfold in_i32, INT_MIN, INT_MAX in *; lia).
  by replace (Z.of_nat n + r)%Z with (Z.of_nat (n + Z.to_nat r)) by lia.
Qed.
Lemma receive_loop k (size n : nat) d s : (Z.of_nat size <= INT_MAX)%Z -> (n <= size)%nat ->
  (size - n <= length (sk_in s))%nat -> (size - n < k)%nat ->
  exists r got s', loop k (Z.of_nat n, d) (receive_turn (Z.of_nat size)) s = Done ((r, d ++ got), s') /\
    sk_out s' = sk_out s /\ got ++ sk_in s' = sk_in s /\
    (r = Z.of_nat size /\ length got = (size - n)%nat \/ r = (-1)%Z) /\ (Healthy K -> r = Z.of_nat size).
Proof.
  intros Hi. revert n d s. induction k as [|k IH]; intros n d s Hn Hl Hk; [lia|]. cbn [loop].
  destruct (decide (n = size)) as [->|Hlt].
  { eexists _, [], s. rewrite app_nil_r. unfold receive_turn. rewrite Z.ltb_irrefl. split; [reflexivity|].
    split; [done|]. split; [done|]. split; [left; cbn; lia|done]. }
  destruct (receive_step size n d s) as (r & s1 & Hr & Hh & Hout & Hin & Ht); [done|lia|by destruct (sk_in s); cbn in Hl; [lia|]|].
  rewrite (bind_done _ _ _ _ _ Ht). destruct (Z.eqb_spec r (-1)) as [->|Hne].
  { eexists _, [], s1. rewrite app_nil_r. split; [reflexivity|]. split; [done|]. split; [done|]. split; [by right|].
    intros H. by apply Hh in H. }
  destruct Hr as [|Hr]; [done|].
  destruct (IH (n + Z.to_nat r)%nat (d ++ take (Z.to_nat r) (sk_in s)) s1) as (r' & got & s2 & H1 & H2 & H3 & H4 & H5);
    [lia|rewrite Hin, length_drop; lia|lia|].
  exists r', (take (Z.to_nat r) (sk_in s) ++ got), s2. rewrite app_assoc. split; [done|]. split; [congruence|].
  split; [by rewrite <- app_assoc, H3, Hin, take_drop|]. split; [|done].
  destruct H4 as [[-> H4]|]; [left|by right]. split; [done|]. rewrite length_app, length_take, H4. lia.
Qed.

(** The peer closes the connection before the block is complete: every further
    call gives 0, and the loop goes on. *)
Lemma receive_hangs `{!Healthy K} k (size n : nat) d s : (Z.of_nat size <= INT_MAX)%Z ->
  (n + length (sk_in s) < size)%nat -> loop k (Z.of_nat n, d) (receive_turn (Z.of_nat size)) s = Stop OutOfFuel.
Proof.
  intros Hi. revert n d s. induction k as [|k IH]; intros n d s Hn; [done|]. cbn [loop].
  destruct (decide (sk_in s = [])) as [E|Hne].
  - assert (Ht : receive_turn (Z.of_nat size) (Z.of_nat n, d) s =
      Done (inl (Z.of_nat n, d), mkSock [] (sk_out s) (S (sk_calls s)))).
    { unfold receive_turn, sys_recv. rewrite (proj2 (Z.ltb_lt _ _)) by (rewrite E in Hn; cbn in Hn; lia). mred.
      rewrite E. cbn [length]. rewrite Nat.min_0_r. cbn. rewrite Z.add_0_r, app_nil_r, i32_id; [done|].
      unfold in_i32, INT_MIN, INT_MAX in *. lia. }
    rewrite (bind_done _ _ _ _ _ Ht). apply IH. cbn. lia.
  - destruct (receive_step size n d s) as (r & s1 & Hr & Hh & Hout & Hin & Ht); [done|lia|done|].
    rewrite (bind_done _ _ _ _ _ Ht). destruct (Z.eqb_spec r (-1)) as [->|Hm]; [by destruct (Hh _)|].
    destruct Hr as [|Hr]; [done|]. apply IH. rewrite Hin, length_drop. lia.
Qed.
End Calls.

(** C25: blocks of bytes cross a connection whole, however the calls on either side
    split them.  [socket_send] returns; it has written the prefix whose length it
    returns, all of the block unless a call failed.  [socket_receive], when at least
    the block arrives, returns with the block, leaves what follows in the socket, and
    needs at most one call per byte; or a call failed, it returns -1, and nothing was
    lost between the buffer and the socket.  When no call fails both succeed. *)
Theorem socket_block_roundtrip (K1 K2 : Kernel) (L1 : KernelLaws K1) (L2 : KernelLaws K2)
    (data rest : list Z) (s1 s2 : Sock) (fuel : nat)
    (Hsize : (Z.of_nat (length data) <= INT_MAX)%Z) (Harrives : sk_in s2 = data ++ rest)
    (Hfuel : (length data < fuel)%nat) :
  (exists total s1', @socket_send K1 data s1 = Done (Z.of_nat total, s1') /\
     sk_out s1' = sk_out s1 ++ take total data /\ (total <= length data)%nat /\
     (Healthy K1 -> total = length data)) /\
  (exists r got s2', @socket_receive K2 fuel (Z.of_nat (length data)) s2 = Done ((r, got), s2') /\
     (r = Z.of_nat (length data) /\ got = data /\ sk_in s2' = rest \/
      r = (-1)%Z /\ got ++ sk_in s2' = data ++ rest) /\
     (Healthy K2 -> r = Z.of_nat (length data))).
Proof.
  split.
  - destruct (socket_send_run (K := K1) data s1 Hsize) as (total & s1' & H1 & _ & H3 & H4 & H5). by exists total, s1'.
  - destruct (receive_loop (K := K2) fuel (length data) 0 [] s2) as (r & got & s' & H1 & H2 & H3 & H4 & H5);
      [done|lia|rewrite Harrives, length_app; lia|lia|].
    exists r, got, s'. split; [exact H1|]. split; [|done]. rewrite Harrives in H3.
    destruct H4 as [[-> Hg]|]; [left|by right]. rewrite Nat.sub_0_r in Hg.
    by apply app_inj_1 in H3 as [-> ->].
Qed.

(** C26: a peer that closes the connection inside a block stops the thread that
    receives it for good: when fewer bytes arrive than [socket_receive] is to read and
    no call fails, no number of turns is enough, so the branches of its callers that
    treat a short block as a closed connection are not reached. *)
Theorem socket_receive_hangs (K : Kernel) (L : KernelLaws K) (H : Healthy K) (size : nat) (s : Sock)
    (Hsize : (Z.of_nat size <= INT_MAX)%Z) (Hshort : (length (sk_in s) < size)%nat) :
  forall fuel, socket_receive fuel (Z.of_nat size) s = Stop OutOfFuel.
Proof. intros fuel. by apply (receive_hangs fuel size 0). Qed.

(** ** Kernels *)
(** One byte at a time; three at most; everything. *)
Definition at_most (k : nat) : Kernel :=
  {| k_recv := fun _ n => Z.of_nat (Nat.min k n); k_send := fun _ n => Z.of_nat (Nat.min k n) |}.
Lemma at_most_healthy k : (0 < k)%nat -> Healthy (at_most k).
Proof. intros Hk. split; intros i n Hn; cbn [k_recv k_send at_most]; lia. Qed.
Lemma at_most_laws k : (0 < k)%nat -> KernelLaws (at_most k).
Proof. intros Hk. split; intros i n Hn; cbn [k_recv k_send at_most]; right; lia. Qed.
Definition whole_kernel : Kernel := {| k_recv := fun _ n => Z.of_nat n; k_send := fun _ n => Z.of_nat n |}.
Lemma whole_kernel_whole : WholeInts whole_kernel.
Proof. by split. Qed.

Definition fresh_sock (bytes : list Z) : Sock := mkSock bytes [] 0.
Lemma socket_block_roundtrip_witness :
  (exists total s1', @socket_send (at_most 1) [104; 105; 33]%Z (fresh_sock []) = Done (Z.of_nat total, s1') /\
     sk_out s1' = take total [104; 105; 33]%Z /\ total = 3%nat) /\
  (exists got s2', @socket_receive (at_most 2) 4 3 (fresh_sock [104; 105; 33; 10]%Z) = Done ((3%Z, got), s2')).
Proof.
  destruct (socket_block_roundtrip (at_most 1) (at_most 2) (at_most_laws 1 ltac:(lia)) (at_most_laws 2 ltac:(lia))
    [104; 105; 33]%Z [10]%Z (fresh_sock []) (fresh_sock [104; 105; 33; 10]%Z) 4)
    as [(total & s1' & H1 & H2 & _ & H3) (r & got & s2' & H4 & _ & H5)].
  - vm_compute. congruence.
  - reflexivity.
  - cbn. lia.
  - split.
    + exists total, s1'. split; [exact H1|]. split; [exact H2|]. apply H3, at_most_healthy. lia.
    + exists got, s2'. rewrite (H5 (at_most_healthy 2 ltac:(lia))) in H4. exact H4.
Defined.
Lemma socket_receive_hangs_witness : @socket_receive (at_most 1) 1000 4 (fresh_sock [1; 2; 3]%Z) = Stop OutOfFuel.
Proof.
  apply (socket_receive_hangs (at_most 1) (at_most_laws 1 ltac:(lia)) (at_most_healthy 1 ltac:(lia)) 4).
  - vm_compute. congruence.
  - cbn. lia.
Defined.

(** An [int] that a call splits is read wrong, and so is everything after it: the
    two bytes that are left are taken for the next one. *)
Lemma split_int_misread :
  @socket_rxsize (at_most 2) (fresh_sock (int_bytes 100000)) = Done (34464%Z, mkSock [1; 0]%Z [] 1).
Proof. vm_compute. reflexivity. Qed.

(** ** Whole [int]s *)
Section Ints.
Context {K : Kernel} `{!WholeInts K}.
Lemma socket_txsize_run z s :
  socket_txsize z s = Done (4%Z, mkSock (sk_in s) (sk_out s ++ int_bytes z) (S (sk_calls s))).
Proof.
  pose proof (length_to_bytes 4 z : length (int_bytes z) = 4%nat) as Hl. unfold socket_txsize.
  destruct (int_bytes z) as [|b1 [|b2 [|b3 [|b4 [|b5 bs]]]]]; try done.
  unfold sys_send. mred. by rewrite k_send_int.
Qed.
Lemma socket_rxsize_run z rest s : in_i32 z -> sk_in s = int_bytes z ++ rest ->
  socket_rxsize s = Done (z, mkSock rest (sk_out s) (S (sk_calls s))).
Proof.
  intros Hz Hs. pose proof (int_roundtrip z Hz) as Hi. pose proof (length_to_bytes 4 z : length (int_bytes z) = 4%nat) as Hl.
  destruct (int_bytes z) as [|b1 [|b2 [|b3 [|b4 [|b5 bs]]]]]; try done.
  unfold socket_rxsize, sys_recv. mred. rewrite Hs. cbn [length app Nat.min Nat.eqb]. rewrite k_recv_int. cbn [Z.ltb Z.compare].
  change (Z.to_nat 4) with 4%nat. cbn [take drop]. by rewrite <- Hi.
Qed.
Lemma socket_rxsize_end s : sk_in s = [] -> socket_rxsize s = Done (0%Z, mkSock [] (sk_out s) (S (sk_calls s))).
Proof. intros Hs. unfold socket_rxsize, sys_recv. mred. by rewrite Hs. Qed.
End Ints.
