(* ===== verification/LatencyModel.v ===== *)
(** * The profiled latency tables of one device
    ([scheduler/latency_model.h], [scheduler/latency_model.cpp]).

    The tables are [std::map]/[std::unordered_map]s read with [operator[]], so a
    read of an absent key inserts a zero: the queries are state-passing. *)
From Stdlib Require Import ZArith SpecFloat String Lia.
From S2P Require Import Prelude CppFloat CppStd.

Definition MAX_BATCH : Z := 32.
Definition MIN_BATCH : Z := 1.

Record Entry : Type := {
  batch : Z; part : Z; latency : spec_float; gpu_ratio : spec_float }.

Record LatencyModel : Type := {
  _perModelLatnecyTable : gmap string (gmap Z spec_float);
  _perModelGPURatioTable : gmap string (gmap Z spec_float);
  _perModelBatchVec : gmap string (gmap Z (list Z)) }.

Definition empty_latency_model : LatencyModel :=
  {| _perModelLatnecyTable := ∅; _perModelGPURatioTable := ∅; _perModelBatchVec := ∅ |}.

Definition set_lat (t : gmap string (gmap Z spec_float)) (lm : LatencyModel) : LatencyModel :=
  {| _perModelLatnecyTable := t; _perModelGPURatioTable := _perModelGPURatioTable lm;
     _perModelBatchVec := _perModelBatchVec lm |}.
Definition set_ratio (t : gmap string (gmap Z spec_float)) (lm : LatencyModel) : LatencyModel :=
  {| _perModelLatnecyTable := _perModelLatnecyTable lm; _perModelGPURatioTable := t;
     _perModelBatchVec := _perModelBatchVec lm |}.
Definition set_bvec (t : gmap string (gmap Z (list Z))) (lm : LatencyModel) : LatencyModel :=
  {| _perModelLatnecyTable := _perModelLatnecyTable lm;
     _perModelGPURatioTable := _perModelGPURatioTable lm; _perModelBatchVec := t |}.

Abbreviation LM := (M LatencyModel) (only parsing).

(** ** Keys *)
Definition makeKey (batch part : Z) : Z := i32 (i32 (batch * 1000) + part).

(** [/] and [%] of C++ truncate towards zero. *)
Definition parseKey (key : Z) : Z * Z := (Z.quot key 1000, Z.rem key 1000).

(** ** Loading the profile: one CSV row [model,part,batch,latency] per line *)
Definition setupRow (line : string) : LM unit :=
  let '(model, r) := getline (Some line) "" in
  lm ← get;
  _ ← (if decide (_perModelLatnecyTable lm !! model = None) then
         modify (fun lm =>
           set_ratio (<[model := ∅]> (_perModelGPURatioTable lm))
             (set_lat (<[model := ∅]> (_perModelLatnecyTable lm)) lm))
       else mret tt);
  let '(field, r) := getline r model in
  new_part ← lift (stoi field);
  let '(field, r) := getline r field in
  new_batch ← lift (stoi field);
  let '(field, r) := getline r field in
  new_latency ← lift (stof field);
  let key := makeKey new_batch new_part in
  lm ← get;
  t ← lift (deref (_perModelLatnecyTable lm !! model));
  let per_part := default ∅ (_perModelBatchVec lm !! model) in
  let vec := default [] (per_part !! new_part) in
  put (set_bvec (<[model := <[new_part := vec ++ [new_batch]]> per_part]> (_perModelBatchVec lm))
        (set_lat (<[model := <[key := new_latency]> t]> (_perModelLatnecyTable lm)) lm)).

Definition setupTable (lines : list string) : LM unit := for_each lines setupRow.

(** ** Table reads: [table[model]->operator[](key)] *)
Definition read_lat (model : string) (key : Z) : LM spec_float :=
  lm ← get;
  t ← lift (deref (_perModelLatnecyTable lm !! model));
  match t !! key with
  | Some v => mret v
  | None =>
      _ ← put (set_lat (<[model := <[key := fzero]> t]> (_perModelLatnecyTable lm)) lm);
      mret fzero
  end.

Definition read_ratio (model : string) (key : Z) : LM spec_float :=
  lm ← get;
  t ← lift (deref (_perModelGPURatioTable lm !! model));
  match t !! key with
  | Some v => mret v
  | None =>
      _ ← put (set_ratio (<[model := <[key := fzero]> t]> (_perModelGPURatioTable lm)) lm);
      mret fzero
  end.

(** [_perModelBatchVec[model][part]] *)
Definition read_bvec (model : string) (part : Z) : LM (list Z) :=
  lm ← get;
  let per_part := default ∅ (_perModelBatchVec lm !! model) in
  let vec := default [] (per_part !! part) in
  _ ← put (set_bvec (<[model := <[part := vec]> per_part]> (_perModelBatchVec lm)) lm);
  mret vec.

(** ** The neighbouring profiled batch sizes

    Both loops step by one until they meet a member of [list].  The fuel
    reaches past every member, so running out of it means that no member is
    left in that direction (and the C++ loop runs away). *)
Fixpoint search_down (fuel : nat) (l : list Z) (b : Z) : outcome Z :=
  match fuel with
  | O => Stop OutOfFuel
  | S fuel' => if decide (b ∈ l) then Done b else search_down fuel' l (b - 1)
  end.
Fixpoint search_up (fuel : nat) (l : list Z) (b : Z) : outcome Z :=
  match fuel with
  | O => Stop OutOfFuel
  | S fuel' =>
      let b := (b + 1)%Z in
      if decide (b ∈ l) then Done b else search_up fuel' l b
  end.
Definition down_fuel (l : list Z) (b : Z) : nat :=
  S (Z.to_nat (b - foldr Z.min b l)).
Definition up_fuel (l : list Z) (b : Z) : nat :=
  S (Z.to_nat (foldr Z.max b l - b)).

#[global] Arguments down_fuel : simpl never.
#[global] Arguments up_fuel : simpl never.

Definition findBatchpair (l : list Z) (batch part : Z) : outcome (Z * Z) :=
  if negb ((MIN_BATCH <? batch) && (batch <? MAX_BATCH))%Z then Stop AssertionFailed
  else
    lower ← search_down (down_fuel l batch) l batch;
    upper ← search_up (up_fuel l batch) l batch;
    mret (lower, upper).

(** [(v2-v1)/float(b2-b1) * (batch-b1) + v1] in [float]. *)
Definition interpolate (b1 b2 : Z) (v1 v2 : spec_float) (batch : Z) : spec_float :=
  fadd (fmul (fdiv (fsub v2 v1) (i2f (b2 - b1))) (i2f (batch - b1))) v1.

Definition getBatchInterpolatedLatency (model : string) (batch part : Z) : LM spec_float :=
  if ((batch =? MIN_BATCH) || (batch =? MAX_BATCH))%Z then read_lat model (makeKey batch part)
  else
    vec ← read_bvec model part;
    '(b1, b2) ← lift (findBatchpair vec batch part);
    l1 ← read_lat model (makeKey b1 part);
    l2 ← read_lat model (makeKey b2 part);
    _ ← massert (fneqb l1 fzero && fneqb l2 fzero);
    mret (interpolate b1 b2 l1 l2 batch).

Definition getBatchPartInterpolatedLatency (model : string) (batch part : Z) : LM spec_float :=
  lm ← get;
  t ← lift (deref (_perModelLatnecyTable lm !! model));
  let keys_vec := (map_to_list t).*1 in
  _ ← massert (2 <=? Z.of_nat (length keys_vec))%Z;
  let keys_vec := std_sort Z.ltb keys_vec in
  front ← lift (deref (head keys_vec));
  back ← lift (deref (last keys_vec));
  let min_part := (parseKey front).2 in
  let max_part := (parseKey back).2 in
  y1 ← getBatchInterpolatedLatency model MAX_BATCH min_part;
  y ← getBatchInterpolatedLatency model MAX_BATCH part;
  y2 ← getBatchInterpolatedLatency model MAX_BATCH max_part;
  let b := fdiv (fsub y y2) (fsub y1 y2) in
  y1 ← getBatchInterpolatedLatency model batch min_part;
  y2 ← getBatchInterpolatedLatency model batch max_part;
  let diff := fsub y1 y2 in
  mret (fadd (fmul diff b) y2).

Definition is_lenet (model : string) : bool :=
  (String.eqb model "lenet1" || String.eqb model "lenet2" || String.eqb model "lenet3"
   || String.eqb model "lenet4" || String.eqb model "lenet5" || String.eqb model "lenet6")%string.

Definition lenet_alias (model : string) : string :=
  if is_lenet model then "lenet1"%string else model.

Definition getLatency (model : string) (batch part : Z) : LM spec_float :=
  _ ← massert ((MIN_BATCH <=? batch) && (batch <=? MAX_BATCH))%Z;
  let model := lenet_alias model in
  lm ← get;
  match _perModelLatnecyTable lm !! model with
  | None => mret fzero
  | Some t =>
      match t !! makeKey batch part with
      | None => getBatchPartInterpolatedLatency model batch part
      | Some _ => getBatchInterpolatedLatency model batch part
      end
  end.

Definition getGPURatio (model : string) (batch part : Z) : LM spec_float :=
  _ ← massert ((MIN_BATCH <=? batch) && (batch <=? MAX_BATCH))%Z;
  let model := lenet_alias model in
  if ((batch =? MIN_BATCH) || (batch =? MAX_BATCH))%Z then read_ratio model (makeKey batch part)
  else
    vec ← read_bvec model part;
    '(b1, b2) ← lift (findBatchpair vec batch part);
    g1 ← read_ratio model (makeKey b1 part);
    g2 ← read_ratio model (makeKey b2 part);
    _ ← massert (fneqb g1 fzero && fneqb g2 fzero);
    mret (interpolate b1 b2 g1 g2 batch).

Definition demo_profile : list string :=
  ["resnet50,100,1,5.0"; "resnet50,100,8,10.0"; "resnet50,100,32,20.0";
   "resnet50,20,1,20.0"; "resnet50,20,32,80.0"]%string.
Definition demo_model : LatencyModel :=
  match setupTable demo_profile empty_latency_model with
  | Done (_, lm) => lm | Stop _ => empty_latency_model end.

(** ** Keys *)

(** A (batch, partition) pair is recovered from its key. *)
Lemma parseKey_makeKey b p :
  (0 <= b <= 2000)%Z -> (0 <= p < 1000)%Z -> parseKey (makeKey b p) = (b, p).
Proof.
  intros Hb Hp. unfold parseKey, makeKey.
  rewrite (i32_id (b * 1000)) by (unfold in_i32, INT_MIN, INT_MAX; lia).
  rewrite i32_id by (unfold in_i32, INT_MIN, INT_MAX; lia).
  f_equal.
  - rewrite Z.quot_div_nonneg by lia. rewrite Z.div_add_l by lia.
    rewrite Z.div_small; lia.
  - rewrite Z.rem_mod_nonneg by lia. rewrite Z.add_comm, Z.mod_add by lia.
    by apply Z.mod_small.
Qed.

Lemma makeKey_inj b p b' p' :
  (0 <= b <= 2000)%Z -> (0 <= p < 1000)%Z -> (0 <= b' <= 2000)%Z -> (0 <= p' < 1000)%Z ->
  makeKey b p = makeKey b' p' -> b = b' /\ p = p'.
Proof.
  intros. assert (E : parseKey (makeKey b p) = parseKey (makeKey b' p')) by congruence.
  rewrite !parseKey_makeKey in E by done. by inversion E.
Qed.

(** ** Neighbouring batch sizes *)
Lemma search_down_spec fuel l b r :
  search_down fuel l b = Done r ->
  r ∈ l /\ (r <= b)%Z /\ (forall x, x ∈ l -> (x <= b)%Z -> (x <= r)%Z).
Proof.
  revert b. induction fuel as [|fuel IH]; intros b; cbn; [done|].
  case_decide as Hb; intros H.
  - injection H as <-. split_and!; [done|lia|auto].
  - apply IH in H as (Hr & Hle & Hmax). split_and!; [done|lia|].
    intros x Hx Hxb. apply Hmax; [done|]. assert (x <> b) by congruence. lia.
Qed.

Lemma search_up_spec fuel l b r :
  search_up fuel l b = Done r ->
  r ∈ l /\ (b < r)%Z /\ (forall x, x ∈ l -> (b < x)%Z -> (r <= x)%Z).
Proof.
  revert b. induction fuel as [|fuel IH]; intros b; cbn; [done|].
  case_decide as Hb; intros H.
  - injection H as <-. split_and!; [done|lia|lia].
  - apply IH in H as (Hr & Hle & Hmin). split_and!; [done|lia|].
    intros x Hx Hxb. apply Hmin; [done|]. assert (x <> (b + 1)%Z) by congruence. lia.
Qed.

Lemma foldr_min_le l b x : x ∈ l -> (foldr Z.min b l <= x)%Z.
Proof. induction 1; cbn; lia. Qed.
Lemma foldr_max_ge l b x : x ∈ l -> (x <= foldr Z.max b l)%Z.
Proof. induction 1; cbn; lia. Qed.

Lemma search_down_total fuel l b x :
  x ∈ l -> (x <= b)%Z -> (Z.to_nat (b - x) < fuel)%nat -> exists r, search_down fuel l b = Done r.
Proof.
  intros Hx. revert b. induction fuel as [|fuel IH]; intros b Hb Hf; [lia|]. cbn.
  case_decide; [eauto|]. assert (x <> b) by congruence. apply IH; lia.
Qed.
Lemma search_up_total fuel l b x :
  x ∈ l -> (b < x)%Z -> (Z.to_nat (x - b) <= fuel)%nat -> exists r, search_up fuel l b = Done r.
Proof.
  intros Hx. revert b. induction fuel as [|fuel IH]; intros b Hb Hf; [lia|]. cbn.
  case_decide; [eauto|]. assert (x <> (b + 1)%Z) by congruence. apply IH; lia.
Qed.

(** What the pair is: the nearest profiled batch sizes around [batch]. *)
Definition neighbours (l : list Z) (batch lo hi : Z) : Prop :=
  lo ∈ l /\ hi ∈ l /\ (lo <= batch < hi)%Z /\
  forall x, x ∈ l -> (x <= lo \/ hi <= x)%Z.

Lemma findBatchpair_spec l b p lo hi :
  findBatchpair l b p = Done (lo, hi) -> neighbours l b lo hi /\ (MIN_BATCH < b < MAX_BATCH)%Z.
Proof.
  unfold findBatchpair. destruct (_ && _)%Z eqn:Hb; cbn; [|done].
  mred. destruct (search_down _ _ _) as [r1|] eqn:E1; cbn; [|done].
  destruct (search_up _ _ _) as [r2|] eqn:E2; cbn; [|done]. intros [= <- <-].
  apply search_down_spec in E1 as (?&?&Hd). apply search_up_spec in E2 as (?&?&Hu).
  apply andb_prop in Hb. rewrite !Z.ltb_lt in Hb.
  unfold neighbours. split_and!; try done; try lia.
  intros x Hx. destruct (decide (x <= b)%Z); [left; auto|right; apply Hu; [done|lia]].
Qed.

Lemma findBatchpair_total l b p x y :
  (MIN_BATCH < b < MAX_BATCH)%Z -> x ∈ l -> (x <= b)%Z -> y ∈ l -> (b < y)%Z ->
  exists lo hi, findBatchpair l b p = Done (lo, hi).
Proof.
  intros Hb Hx Hxb Hy Hyb. unfold findBatchpair.
  replace (_ && _)%Z with true by (symmetry; apply andb_true_intro; rewrite !Z.ltb_lt; lia).
  cbn [negb]. mred.
  destruct (search_down_total (down_fuel l b) l b x) as [r1 ->]; [done|done| |].
  { unfold down_fuel. pose proof (foldr_min_le l b x Hx). lia. }
  destruct (search_up_total (up_fuel l b) l b y) as [r2 ->]; [done|done| |eauto].
  unfold up_fuel. pose proof (foldr_max_ge l b y Hy). lia.
Qed.

(** ** Views of the tables *)
Definition lat_at (lm : LatencyModel) (model : string) (key : Z) : option spec_float :=
  match _perModelLatnecyTable lm !! model with Some t => t !! key | None => None end.
Definition has_model (lm : LatencyModel) (model : string) : Prop :=
  is_Some (_perModelLatnecyTable lm !! model).
Definition bvec_of (lm : LatencyModel) (model : string) (part : Z) : list Z :=
  default [] (default ∅ (_perModelBatchVec lm !! model) !! part).

(** A well-formed profile: every batch size listed for a partition has its
    latency in the table. *)
Definition lm_wf (lm : LatencyModel) : Prop :=
  forall model part b, b ∈ bvec_of lm model part ->
    is_Some (lat_at lm model (makeKey b part)).

(** Queries may only add entries: profiled latencies and profiled batch sizes
    stay what they were. *)
Record lm_le (lm lm' : LatencyModel) : Prop := {
  le_lat : forall model key v, lat_at lm model key = Some v -> lat_at lm' model key = Some v;
  le_model : forall model, has_model lm' model <-> has_model lm model;
  le_bvec : forall model part, bvec_of lm' model part = bvec_of lm model part }.

#[global] Instance lm_le_preorder : PreOrder lm_le.
Proof.
  split; [by split|]. intros a b c [] []. split; eauto.
  - intros m. by rewrite le_model1.
  - intros. congruence.
Qed.

Lemma lm_le_wf lm lm' : lm_le lm lm' -> lm_wf lm -> lm_wf lm'.
Proof.
  intros [] Hwf model part b. rewrite le_bvec0. intros [v Hv]%Hwf. eauto.
Qed.

Lemma lat_at_insert lm model t key v model' key' :
  _perModelLatnecyTable lm !! model = Some t ->
  lat_at (set_lat (<[model := <[key := v]> t]> (_perModelLatnecyTable lm)) lm) model' key' =
  if decide (model = model' /\ key = key') then Some v else lat_at lm model' key'.
Proof.
  intros Ht. unfold lat_at. cbn. destruct (decide (model = model')) as [->|Hm].
  - rewrite lookup_insert_eq, Ht. destruct (decide (key = key')) as [->|Hk].
    + rewrite lookup_insert_eq. by rewrite decide_True.
    + rewrite lookup_insert_ne by done. rewrite decide_False; [done|tauto].
  - rewrite lookup_insert_ne by done. rewrite decide_False; [done|tauto].
Qed.

Lemma bvec_of_insert lm model part vec model' part' :
  bvec_of (set_bvec (<[model := <[part := vec]> (default ∅ (_perModelBatchVec lm !! model))]>
    (_perModelBatchVec lm)) lm) model' part' =
  if decide (model = model' /\ part = part') then vec else bvec_of lm model' part'.
Proof.
  unfold bvec_of. cbn. destruct (decide (model = model')) as [->|Hm].
  - rewrite lookup_insert_eq. cbn. destruct (decide (part = part')) as [->|Hk].
    + rewrite lookup_insert_eq. by rewrite decide_True.
    + rewrite lookup_insert_ne by done. rewrite decide_False; [done|tauto].
  - rewrite lookup_insert_ne by done. rewrite decide_False; [done|tauto].
Qed.

Lemma has_model_set_lat lm model t t' model' :
  _perModelLatnecyTable lm !! model = Some t ->
  has_model (set_lat (<[model := t']> (_perModelLatnecyTable lm)) lm) model' <-> has_model lm model'.
Proof.
  intros Ht. unfold has_model. cbn. rewrite lookup_insert. case_decide; [subst|done].
  by rewrite Ht.
Qed.

(** ** Reads and queries only add entries *)
Lemma read_lat_spec model key lm :
  match _perModelLatnecyTable lm !! model with
  | None => read_lat model key lm = Stop Undefined
  | Some t =>
      match t !! key with
      | Some v => read_lat model key lm = Done (v, lm)
      | None => read_lat model key lm =
          Done (fzero, set_lat (<[model := <[key := fzero]> t]> (_perModelLatnecyTable lm)) lm)
      end
  end.
Proof. unfold read_lat. mred. destruct (_ !! model) as [t|]; [|done]. by destruct (t !! key). Qed.

Lemma read_lat_le model key : preserves lm_le (read_lat model key).
Proof.
  intros lm v lm' H. pose proof (read_lat_spec model key lm) as Hs.
  destruct (_ !! model) as [t|] eqn:Ht; [|congruence].
  destruct (t !! key) as [w|] eqn:Hk; rewrite Hs in H; injection H as <- <-; [done|].
  split.
  - intros m k v Hv. rewrite lat_at_insert by done. case_decide as Hd; [|done].
    destruct Hd as [-> ->]. unfold lat_at in Hv. rewrite Ht in Hv. congruence.
  - intros m. by eapply has_model_set_lat.
  - done.
Qed.

Lemma read_lat_hit model key lm v :
  lat_at lm model key = Some v -> read_lat model key lm = Done (v, lm).
Proof.
  intros H. pose proof (read_lat_spec model key lm) as Hs. unfold lat_at in H.
  destruct (_ !! model) as [t|]; [|done]. by rewrite H in Hs.
Qed.

Lemma read_bvec_eq model part lm :
  exists lm', read_bvec model part lm = Done (bvec_of lm model part, lm') /\ lm_le lm lm' /\
    (forall m k, lat_at lm' m k = lat_at lm m k).
Proof.
  unfold read_bvec. mred. eexists. split_and!; [done| |done].
  split; [done|done|].
  intros m p. rewrite bvec_of_insert. case_decide as Hd; [|done].
  by destruct Hd as [-> ->].
Qed.

Lemma read_bvec_le model part : preserves lm_le (read_bvec model part).
Proof.
  intros lm v lm' H. destruct (read_bvec_eq model part lm) as (lm2 & E & Hle & _).
  rewrite E in H. by injection H as <- <-.
Qed.
#[export] Hint Resolve read_lat_le read_bvec_le : frame.

Lemma getBatchInterpolatedLatency_le model b p :
  preserves lm_le (getBatchInterpolatedLatency model b p).
Proof. unfold getBatchInterpolatedLatency. preserve. Qed.
#[export] Hint Resolve getBatchInterpolatedLatency_le : frame.

Lemma getBatchPartInterpolatedLatency_le model b p :
  preserves lm_le (getBatchPartInterpolatedLatency model b p).
Proof. unfold getBatchPartInterpolatedLatency. preserve. Qed.
#[export] Hint Resolve getBatchPartInterpolatedLatency_le : frame.

Lemma getLatency_le model b p : preserves lm_le (getLatency model b p).
Proof. unfold getLatency. preserve. Qed.
#[export] Hint Resolve getLatency_le : frame.

(** ** Profiled points *)
Lemma interpolate_knot b b2 v1 v2 :
  is_finite (fdiv (fsub v2 v1) (i2f (b2 - b))) = true -> fneqb v1 fzero = true ->
  interpolate b b2 v1 v2 b = v1.
Proof.
  intros Hf Hz. unfold interpolate. rewrite Z.sub_diag.
  destruct (fmul_i2f_0 _ Hf) as [s ->]. by apply fadd_zero_l.
Qed.

(** A completely profiled partition: batch sizes 1 and 32 were measured, every
    latency is non-zero and the slopes between measurements are finite. *)
Record complete (lm : LatencyModel) (model : string) (p : Z) : Prop := {
  c_min : is_Some (lat_at lm model (makeKey MIN_BATCH p));
  c_low : MIN_BATCH ∈ bvec_of lm model p;
  c_high : MAX_BATCH ∈ bvec_of lm model p;
  c_lat : forall b, b ∈ bvec_of lm model p ->
    exists l, lat_at lm model (makeKey b p) = Some l /\ fneqb l fzero = true;
  c_slope : forall b1 b2 l1 l2, (b1 < b2)%Z -> b1 ∈ bvec_of lm model p -> b2 ∈ bvec_of lm model p ->
    lat_at lm model (makeKey b1 p) = Some l1 -> lat_at lm model (makeKey b2 p) = Some l2 ->
    is_finite (fdiv (fsub l2 l1) (i2f (b2 - b1))) = true }.

(** The state is the same to every reader. *)
Definition lm_same (lm lm' : LatencyModel) : Prop :=
  (forall m k, lat_at lm' m k = lat_at lm m k) /\
  _perModelLatnecyTable lm' = _perModelLatnecyTable lm /\
  (forall m p, bvec_of lm' m p = bvec_of lm m p).

#[global] Instance lm_same_preorder : PreOrder lm_same.
Proof.
  split; [by repeat split|]. intros a b c (?&?&?) (?&?&?). split_and!; intros; congruence.
Qed.

Lemma complete_same lm lm' model p : lm_same lm lm' -> complete lm model p -> complete lm' model p.
Proof.
  intros (Hl&Ht&Hb) []. split.
  - rewrite Hl. assumption.
  - by rewrite Hb.
  - by rewrite Hb.
  - intros b. rewrite Hb, Hl. auto.
  - intros b1 b2 l1 l2. rewrite !Hb, !Hl. eauto.
Qed.

Lemma read_bvec_same model part lm :
  exists lm', read_bvec model part lm = Done (bvec_of lm model part, lm') /\ lm_same lm lm'.
Proof.
  unfold read_bvec. mred. eexists. split; [done|]. split_and!; [done|done|].
  intros m p. rewrite bvec_of_insert. case_decide as Hd; [|done]. by destruct Hd as [-> ->].
Qed.

(** What interpolation along the batch size returns on such a partition. *)
Definition batch_value (lm : LatencyModel) (model : string) (b p : Z) (v : spec_float) : Prop :=
  ((b = MIN_BATCH \/ b = MAX_BATCH) /\ lat_at lm model (makeKey b p) = Some v) \/
  (exists lo hi l1 l2, neighbours (bvec_of lm model p) b lo hi /\
     lat_at lm model (makeKey lo p) = Some l1 /\ lat_at lm model (makeKey hi p) = Some l2 /\
     v = interpolate lo hi l1 l2 b).

Lemma getBatchInterpolatedLatency_total lm model b p :
  complete lm model p -> (MIN_BATCH <= b <= MAX_BATCH)%Z ->
  exists v lm', getBatchInterpolatedLatency model b p lm = Done (v, lm') /\
    lm_same lm lm' /\ batch_value lm model b p v.
Proof.
  intros Hc Hb. unfold getBatchInterpolatedLatency.
  destruct (_ || _)%Z eqn:E.
  - apply orb_prop in E. rewrite !Z.eqb_eq in E.
    assert (exists v, lat_at lm model (makeKey b p) = Some v) as [v Hv].
    { destruct E as [->| ->]; [apply (c_min _ _ _ Hc)|].
      destruct (c_lat _ _ _ Hc _ (c_high _ _ _ Hc)) as (l&?&_). eauto. }
    exists v, lm. rewrite (read_lat_hit _ _ _ _ Hv). split_and!; [done|done|by left].
  - apply orb_false_elim in E. rewrite !Z.eqb_neq in E. unfold MIN_BATCH, MAX_BATCH in *.
    destruct (read_bvec_same model p lm) as (lm2 & E2 & Hs).
    pose proof (complete_same _ _ _ _ Hs Hc) as Hc2.
    destruct (findBatchpair_total (bvec_of lm model p) b p 1 32) as (lo & hi & Hp);
      [unfold MIN_BATCH, MAX_BATCH; lia|apply Hc|lia|apply Hc|lia|].
    destruct (findBatchpair_spec _ _ _ _ _ Hp) as [Hn _].
    destruct (Hn) as (Hlo & Hhi & _).
    destruct (c_lat _ _ _ Hc lo Hlo) as (l1 & Hl1 & Hz1).
    destruct (c_lat _ _ _ Hc hi Hhi) as (l2 & Hl2 & Hz2).
    exists (interpolate lo hi l1 l2 b), lm2. split_and!; [|done|by right; eauto 10].
    unfold mbind, M_bind. rewrite E2. cbn. rewrite Hp. cbn. unfold mbind, M_bind.
    rewrite (read_lat_hit _ _ _ l1) by (by rewrite (proj1 Hs)). cbn.
    rewrite (read_lat_hit _ _ _ l2) by (by rewrite (proj1 Hs)). cbn.
    by rewrite Hz1, Hz2.
Qed.

(** A completely profiled model: every key of its table belongs to a completely
    profiled partition. *)
Definition table_ok (lm : LatencyModel) (model : string) : Prop :=
  exists t, _perModelLatnecyTable lm !! model = Some t /\ (2 <= size t)%nat /\
    forall key, is_Some (t !! key) -> exists b p,
      key = makeKey b p /\ (0 <= b <= 2000)%Z /\ (0 <= p < 1000)%Z /\ complete lm model p.

Lemma getBatchPartInterpolatedLatency_total lm model b p :
  table_ok lm model -> complete lm model p -> (MIN_BATCH <= b <= MAX_BATCH)%Z ->
  exists v lm', getBatchPartInterpolatedLatency model b p lm = Done (v, lm') /\ lm_same lm lm'.
Proof.
  intros (t & Ht & Hsz & Hk) Hc Hb. unfold getBatchPartInterpolatedLatency.
  set (keys := std_sort Z.ltb (map_to_list t).*1).
  assert (Hin : forall k, k ∈ keys -> exists b p,
      k = makeKey b p /\ (0 <= b <= 2000)%Z /\ (0 <= p < 1000)%Z /\ complete lm model p).
  { intros k Hk'. apply Hk. unfold keys in Hk'. rewrite std_sort_in in Hk'.
    apply list_elem_of_fmap in Hk' as ([k' v] & -> & Hv%elem_of_map_to_list). cbn. eauto. }
  assert (Hlen : (2 <= length (map_to_list t).*1)%nat).
  { rewrite length_fmap, length_map_to_list. done. }
  assert (Hne : keys <> []).
  { intros E%std_sort_nil. rewrite E in Hlen. cbn in Hlen. lia. }
  destruct (head keys) as [front|] eqn:Ef; [|by apply head_None in Ef].
  destruct (last keys) as [back|] eqn:Eb; [|by apply last_None in Eb].
  destruct (Hin front) as (b1 & p1 & -> & Hb1 & Hp1 & Hc1).
  { apply head_Some in Ef as [l ->]. by left. }
  destruct (Hin back) as (b2 & p2 & -> & Hb2 & Hp2 & Hc2).
  { apply last_Some in Eb as [l' ->]. apply elem_of_app. right. by left. }
  assert (Hget : forall lm1 q bb, lm_same lm lm1 -> complete lm model q ->
    (MIN_BATCH <= bb <= MAX_BATCH)%Z ->
    exists v lm2, getBatchInterpolatedLatency model bb q lm1 = Done (v, lm2) /\ lm_same lm lm2).
  { intros lm1 q bb Hs Hcq Hbb.
    destruct (getBatchInterpolatedLatency_total lm1 model bb q) as (v & lm2 & ? & ? & _);
      [by eapply complete_same|done|]. exists v, lm2. split; [done|by etrans]. }
  assert (Hmax : (MIN_BATCH <= MAX_BATCH <= MAX_BATCH)%Z) by (unfold MIN_BATCH, MAX_BATCH; lia).
  rewrite (bind_done _ _ _ lm lm) by done.
  rewrite (bind_done _ _ _ t lm) by (unfold lift, deref; by rewrite Ht).
  rewrite (bind_done _ _ _ tt lm)
    by (unfold massert; replace (2 <=? _)%Z with true by (symmetry; apply Z.leb_le; lia); done).
  fold keys.
  rewrite (bind_done _ _ _ (makeKey b1 p1) lm) by (unfold lift, deref; by rewrite Ef).
  rewrite (bind_done _ _ _ (makeKey b2 p2) lm) by (unfold lift, deref; by rewrite Eb).
  rewrite !parseKey_makeKey by done. cbn [snd].
  unfold mbind, M_bind.
  destruct (Hget lm p1 MAX_BATCH) as (y1 & s1 & -> & H1); [done..|].
  destruct (Hget s1 p MAX_BATCH) as (y & s2 & -> & H2); [done..|].
  destruct (Hget s2 p2 MAX_BATCH) as (y2 & s3 & -> & H3); [done..|].
  destruct (Hget s3 p1 b) as (y1' & s4 & -> & H4); [done..|].
  destruct (Hget s4 p2 b) as (y2' & s5 & -> & H5); [done..|]. eauto.
Qed.

Lemma lenet_alias_idem model : lenet_alias (lenet_alias model) = lenet_alias model.
Proof. unfold lenet_alias. by destruct (is_lenet model) eqn:E; [|rewrite E]. Qed.

(** On a completely profiled model every query in range returns, and leaves the
    tables as they were. *)
Lemma getLatency_total lm model b p :
  table_ok lm (lenet_alias model) -> complete lm (lenet_alias model) p ->
  (MIN_BATCH <= b <= MAX_BATCH)%Z ->
  exists v lm', getLatency model b p lm = Done (v, lm') /\ lm_same lm lm'.
Proof.
  intros Ht Hc Hb. unfold getLatency.
  replace (_ && _)%Z with true by (symmetry; apply andb_true_intro; rewrite !Z.leb_le; lia).
  unfold mbind, M_bind. cbn. destruct (Ht) as (t & Et & _). rewrite Et.
  destruct (t !! makeKey b p) as [v|]; [|by apply getBatchPartInterpolatedLatency_total].
  destruct (getBatchInterpolatedLatency_total lm (lenet_alias model) b p) as (w&lm'&?&?&_);
    eauto.
Qed.

(** A profiled point is returned exactly as it was measured. *)
Lemma getLatency_at_profiled lm model b p l :
  complete lm (lenet_alias model) p -> b ∈ bvec_of lm (lenet_alias model) p ->
  (MIN_BATCH <= b <= MAX_BATCH)%Z ->
  lat_at lm (lenet_alias model) (makeKey b p) = Some l ->
  exists lm', getLatency model b p lm = Done (l, lm') /\ lm_same lm lm'.
Proof.
  intros Hc Hin Hb Hl. unfold getLatency.
  replace (_ && _)%Z with true by (symmetry; apply andb_true_intro; rewrite !Z.leb_le; lia).
  unfold mbind, M_bind. cbn. pose proof Hl as Hl'. unfold lat_at in Hl.
  destruct (_ !! lenet_alias model) as [t|]; [|done]. rewrite Hl.
  destruct (getBatchInterpolatedLatency_total lm (lenet_alias model) b p Hc Hb)
    as (w & lm' & -> & Hs & Hv). exists lm'. split; [|done]. do 2 f_equal.
  destruct Hv as [[_ Hv]|(lo & hi & l1 & l2 & (Hlo & Hhi & Hlt & Hn) & Hl1 & Hl2 & ->)];
    [congruence|].
  assert (lo = b) as -> by (destruct (Hn b Hin); lia).
  assert (l1 = l) as -> by congruence.
  apply interpolate_knot; [eapply (c_slope _ _ _ Hc); eauto; lia|].
  destruct (c_lat _ _ _ Hc b Hin) as (l' & ? & ?). congruence.
Qed.

Lemma keys_of_table lm model t k :
  _perModelLatnecyTable lm !! model = Some t -> k ∈ std_sort Z.ltb (map_to_list t).*1 ->
  is_Some (lat_at lm model k).
Proof.
  intros Ht Hk. rewrite std_sort_in in Hk.
  apply list_elem_of_fmap in Hk as ([k' w] & -> & Hv%elem_of_map_to_list).
  unfold lat_at. rewrite Ht. eauto.
Qed.

Lemma makeKey_max_ne k p :
  (0 <= p < 1000)%Z -> (parseKey k).2 <> p ->
  makeKey MAX_BATCH (parseKey k).2 <> makeKey MAX_BATCH p.
Proof.
  intros Hp Hne. unfold makeKey, MAX_BATCH. cbn [parseKey snd] in *.
  assert (-1000 < Z.rem k 1000 < 1000)%Z by (pose proof (Z.rem_bound_abs k 1000 ltac:(lia)); lia).
  rewrite (i32_id (32 * 1000)) by (unfold in_i32, INT_MIN, INT_MAX; lia).
  rewrite !i32_id by (unfold in_i32, INT_MIN, INT_MAX; lia). lia.
Qed.

Lemma read_lat_other model key lm v lm' key' :
  read_lat model key lm = Done (v, lm') -> key <> key' ->
  lat_at lm' model key' = lat_at lm model key'.
Proof.
  intros H Hne. pose proof (read_lat_spec model key lm) as Hs.
  destruct (_ !! model) as [t|] eqn:Ht; [|congruence].
  destruct (t !! key); rewrite Hs in H; injection H as <- <-; [done|].
  rewrite lat_at_insert by done. rewrite decide_False; [done|tauto].
Qed.

Lemma read_lat_writes_zero model key lm v lm' :
  read_lat model key lm = Done (v, lm') -> lat_at lm model key = None ->
  lat_at lm' model key = Some fzero.
Proof.
  intros H Hn. pose proof (read_lat_spec model key lm) as Hs. unfold lat_at in Hn.
  destruct (_ !! model) as [t|] eqn:Ht; [|congruence].
  rewrite Hn in Hs. rewrite Hs in H. injection H as <- <-.
  rewrite lat_at_insert by done. by rewrite decide_True.
Qed.

Lemma unprofiled_query_writes_zero lm model b p t v lm' :
  getBatchPartInterpolatedLatency model b p lm = Done (v, lm') ->
  _perModelLatnecyTable lm !! model = Some t ->
  lat_at lm model (makeKey MAX_BATCH p) = None ->
  (forall key, is_Some (lat_at lm model key) -> (parseKey key).2 <> p) ->
  (0 <= p < 1000)%Z ->
  lat_at lm' model (makeKey MAX_BATCH p) = Some fzero.
Proof.
  intros Hrun Ht Hmax Hother Hp. unfold getBatchPartInterpolatedLatency in Hrun. minv Hrun.
  rename E3 into Hy1, E4 into Hy, E5 into Hy2, E6 into Hz1, E7 into Hz2, E1 into Hfront.
  assert (a = t) as -> by congruence.
  apply getBatchInterpolatedLatency_le in Hz1, Hz2, Hy2.
  apply (le_lat _ _ Hz2), (le_lat _ _ Hz1), (le_lat _ _ Hy2).
  change (read_lat model (makeKey MAX_BATCH (parseKey a1).2) lm = Done (a3, s)) in Hy1.
  change (read_lat model (makeKey MAX_BATCH p) s = Done (a4, s0)) in Hy.
  assert (Hne : makeKey MAX_BATCH (parseKey a1).2 <> makeKey MAX_BATCH p).
  { apply makeKey_max_ne; [done|]. apply Hother. eapply keys_of_table; [done|].
    apply head_Some in Hfront as [l ->]. by left. }
  assert (Hnone : lat_at s model (makeKey MAX_BATCH p) = None).
  { rewrite (read_lat_other _ _ _ _ _ _ Hy1) by congruence. done. }
  eapply read_lat_writes_zero; eauto.
Qed.

(** A query at a partition that was not profiled leaves a zero at batch size 32,
    and the next query there answers with it. *)
Lemma getLatency_unprofiled_poisons lm model b p v lm' :
  getLatency model b p lm = Done (v, lm') ->
  has_model lm (lenet_alias model) ->
  lat_at lm (lenet_alias model) (makeKey b p) = None ->
  lat_at lm (lenet_alias model) (makeKey MAX_BATCH p) = None ->
  (forall key, is_Some (lat_at lm (lenet_alias model) key) ->
     (parseKey key).2 <> p) ->
  (0 <= p < 1000)%Z ->
  getLatency model MAX_BATCH p lm' = Done (fzero, lm').
Proof.
  intros Hrun [t Ht] Hk Hmax Hother Hp.
  assert (Hhit : lat_at lm' (lenet_alias model) (makeKey MAX_BATCH p) = Some fzero).
  { unfold getLatency in Hrun. minv Hrun. rewrite Ht in Hrun.
    pose proof Hk as Hk'. unfold lat_at in Hk'. rewrite Ht in Hk'. rewrite Hk' in Hrun.
    eapply unprofiled_query_writes_zero; eauto. }
  unfold getLatency. rewrite (bind_done _ _ _ tt lm') by done.
  rewrite (bind_done _ _ _ lm' lm') by done.
  pose proof Hhit as Hh. unfold lat_at in Hhit.
  destruct (_perModelLatnecyTable lm' !! lenet_alias model) as [t'|]; [|done]. rewrite Hhit.
  unfold getBatchInterpolatedLatency. cbn. by apply read_lat_hit.
Qed.

(** ** Deciding that a profile is complete *)
Definition completeb (lm : LatencyModel) (model : string) (p : Z) : bool :=
  let vec := bvec_of lm model p in
  let at_ b := lat_at lm model (makeKey b p) in
  match at_ MIN_BATCH with Some _ => true | None => false end
  && bool_decide (MIN_BATCH ∈ vec) && bool_decide (MAX_BATCH ∈ vec)
  && forallb (fun b => match at_ b with Some l => fneqb l fzero | None => false end) vec
  && forallb (fun b1 => forallb (fun b2 => negb (b1 <? b2)%Z ||
       match at_ b1, at_ b2 with
       | Some l1, Some l2 => is_finite (fdiv (fsub l2 l1) (i2f (b2 - b1)))
       | _, _ => true
       end) vec) vec.

Lemma completeb_sound lm model p : completeb lm model p = true -> complete lm model p.
Proof.
  unfold completeb. cbv zeta. intros [[[[H1 H2]%andb_prop H3]%andb_prop H4]%andb_prop H5]%andb_prop.
  apply bool_decide_eq_true in H2, H3. rewrite forallb_forall in H4. rewrite forallb_forall in H5.
  split; [|done|done| |].
  - destruct (lat_at _ _ _); [by eexists|done].
  - intros b Hb%list_elem_of_In. specialize (H4 b Hb). cbn beta in H4.
    destruct (lat_at lm model (makeKey b p)) as [l|] in H4 |- *; [exists l; by split|done].
  - intros b1 b2 l1 l2 Hlt Hb1%list_elem_of_In Hb2%list_elem_of_In E1 E2. specialize (H5 b1 Hb1).
    rewrite forallb_forall in H5. specialize (H5 b2 Hb2). rewrite E1, E2 in H5.
    apply Z.ltb_lt in Hlt. by rewrite Hlt in H5.
Qed.

Definition table_okb (lm : LatencyModel) (model : string) : bool :=
  match _perModelLatnecyTable lm !! model with
  | None => false
  | Some t => (2 <=? size t)%nat && forallb (fun key =>
      let '(b, p) := parseKey key in
      (key =? makeKey b p)%Z && (0 <=? b)%Z && (b <=? 2000)%Z && (0 <=? p)%Z && (p <? 1000)%Z
      && completeb lm model p) (map_to_list t).*1
  end.

Lemma table_okb_sound lm model : table_okb lm model = true -> table_ok lm model.
Proof.
  unfold table_okb. destruct (_ !! model) as [t|] eqn:Ht; [|done].
  intros [Hsz Hk]%andb_prop. exists t. split_and!; [done|by apply Nat.leb_le|].
  rewrite forallb_forall in Hk. intros key [v Hv].
  specialize (Hk key). destruct (parseKey key) as [b p]. exists b, p.
  assert (Hin : In key (map_to_list t).*1).
  { apply list_elem_of_In, list_elem_of_fmap. exists (key, v). split; [done|]. by apply elem_of_map_to_list. }
  specialize (Hk Hin). apply andb_prop in Hk as [[[[[H1 H2]%andb_prop H3]%andb_prop H4]%andb_prop H5]%andb_prop H6].
  apply Z.eqb_eq in H1. apply Z.leb_le in H2, H3, H4. apply Z.ltb_lt in H5.
  split_and!; try done. by apply completeb_sound.
Qed.

(** ** Loading keeps the profile well formed *)
Lemma lat_at_add_model lm model key v :
  lat_at lm model key = Some v ->
  forall model', (_perModelLatnecyTable lm !! model' = None) ->
  lat_at (set_ratio (<[model' := ∅]> (_perModelGPURatioTable lm))
    (set_lat (<[model' := ∅]> (_perModelLatnecyTable lm)) lm)) model key = Some v.
Proof.
  intros Hv model' Hn. unfold lat_at in *. cbn. rewrite lookup_insert.
  case_decide; [subst; by rewrite Hn in Hv|done].
Qed.

Lemma lat_at_set_bvec t lm m k : lat_at (set_bvec t lm) m k = lat_at lm m k.
Proof. done. Qed.

Lemma setupRow_wf line : preserves (inv_rel lm_wf) (setupRow line).
Proof.
  intros lm u lm' Hrun Hwf. unfold setupRow in Hrun.
  destruct (getline (Some line) "") as [model r]. minv Hrun.
  assert (Hwf1 : lm_wf s).
  { case_decide as Hd; minv E; [|done]. intros m p b Hb.
    destruct (Hwf m p b Hb) as [v Hv]. exists v. by apply lat_at_add_model. }
  clear E Hwf. destruct (getline r model) as [field1 r1]. minv Hrun.
  destruct (getline r1 field1) as [field2 r2]. minv Hrun.
  destruct (getline r2 field2) as [field3 r3]. minv Hrun.
  intros m p b Hb.
  set (lm1 := set_lat _ s) in *.
  change (_perModelBatchVec s) with (_perModelBatchVec lm1) in Hb.
  rewrite lat_at_set_bvec. rewrite bvec_of_insert in Hb. unfold lm1. rewrite lat_at_insert by done.
  case_decide as Hb'.
  - destruct Hb' as [-> ->]. apply elem_of_app in Hb as [Hb|Hb].
    + case_decide; [by eexists|by apply Hwf1].
    + apply list_elem_of_singleton in Hb as ->. rewrite decide_True by done. by eexists.
  - case_decide; [by eexists|by apply Hwf1].
Qed.

Lemma empty_wf : lm_wf empty_latency_model.
Proof. intros m p b Hb. by apply not_elem_of_nil in Hb. Qed.

Lemma setupTable_wf lines : preserves (inv_rel lm_wf) (setupTable lines).
Proof. apply preserves_for_each; [typeclasses eauto|]. apply setupRow_wf. Qed.
