(* ===== verification/DevPerfModel.v ===== *)
(** * The interference model and the performance model of one device type
    ([scheduler/interference_model.h], [scheduler/interference_model.cpp],
    [scheduler/device_perf_model.h], [scheduler/device_perf_model.cpp]).

    Text files are given as the list of their (newline-terminated) lines. *)
From Stdlib Require Import ZArith SpecFloat String Lia.
From S2P Require Import Prelude CppFloat CppStd LatencyModel.

(** ** [InterferenceModel] *)
Record InterferenceModel : Type := {
  _intModelConsts : list spec_float;
  _utilInfo : gmap (string * Z) (list spec_float) }.

Definition empty_interference_model : InterferenceModel :=
  {| _intModelConsts := []; _utilInfo := ∅ |}.

(** [n] comma-separated [double]s, the last token being kept by the caller. *)
Fixpoint read_doubles (n : nat) (rest : option string) (token : string) :
    outcome (list spec_float) :=
  match n with
  | O => mret []
  | S n' =>
      let '(token, rest) := getline rest token in
      x ← stod token;
      xs ← read_doubles n' rest token;
      mret (x :: xs)
  end.

(** One row [name,batch,duration,sm,l2,mem,ach_occu,the_occu]; percentages are
    stored as fractions. *)
Definition util_row (line token : string) :
    outcome (string * Z * list spec_float * string) :=
  let '(token, rest) := getline (Some line) token in
  let name := token in
  let '(token, rest) := getline rest token in
  batch ← stoi token;
  let '(token, rest) := getline rest token in
  duration ← stod token;
  utils ← read_doubles 5 rest token;
  mret (name, batch, duration :: map (fun u => ddiv u (i2d 100)) utils, token).

Fixpoint util_rows (lines : list string) (token : string)
    (m : gmap (string * Z) (list spec_float)) : outcome (gmap (string * Z) (list spec_float)) :=
  match lines with
  | [] => mret m
  | line :: lines' =>
      '(name, batch, consts, token) ← util_row line token;
      util_rows lines' token (<[(name, batch) := consts]> m)
  end.

Definition _setup (input_file1 input_file2 : list string) (im : InterferenceModel) :
    outcome InterferenceModel :=
  let line := default ""%string (input_file1 !! 1%nat) in
  consts ← read_doubles 5 (Some line) "";
  util ← util_rows (tail input_file2) "" (_utilInfo im);
  mret {| _intModelConsts := _intModelConsts im ++ consts; _utilInfo := util |}.

Definition interference_setup (model_const_file util_file : list string)
    (im : InterferenceModel) : outcome InterferenceModel :=
  _setup model_const_file util_file im.

Definition lenet_family (model : string) : string :=
  if is_lenet model then "lenet"%string else model.

(** [(int)exp2((int)log2(batch))] and the next power of two, capped at 32. *)
Definition batch_below (batch : Z) : Z := if (batch <=? 0)%Z then 0%Z else (2 ^ Z.log2 batch)%Z.
Definition batch_top (batch : Z) : Z := Z.min 32 (i32 (batch_below batch * 2)).
Definition batch_ratio (batch : Z) : spec_float :=
  if (batch_top batch =? batch_below batch)%Z then i2d 1
  else ddiv (i2d (i32 (batch - batch_below batch))) (i2d (i32 (batch_top batch - batch_below batch))).

(** [_utilInfo[(model,batch)][i]]; an absent row is an empty vector, and
    reading it is out of range. *)
Definition util_at (im : InterferenceModel) (model : string) (batch : Z) (i : nat) :
    outcome spec_float :=
  deref (match _utilInfo im !! (model, batch) with Some v => v !! i | None => None end).

(** The utilisation [i] at [batch], between the two profiled powers of two. *)
Definition util_between (im : InterferenceModel) (model : string) (batch : Z) (i : nat) :
    outcome spec_float :=
  top ← util_at im model (batch_top batch) i;
  below ← util_at im model (batch_below batch) i;
  mret (dadd (dmul top (batch_ratio batch))
             (dmul below (dsub (i2d 1) (batch_ratio batch)))).

Definition scale_part (u : spec_float) (partition : Z) : spec_float :=
  ddiv (dmul u (i2d partition)) (i2d 100).

Definition im_getInterference (im : InterferenceModel)
    (my_model : string) (my_batch my_partition : Z)
    (your_model : string) (your_batch your_partition : Z) : outcome spec_float :=
  let my_model := lenet_family my_model in
  let your_model := lenet_family your_model in
  my_l2_util ← util_between im my_model my_batch 2;
  your_l2_util ← util_between im your_model your_batch 2;
  my_dram_util ← util_between im my_model my_batch 3;
  your_dram_util ← util_between im your_model your_batch 3;
  let my_l2_util := scale_part my_l2_util my_partition in
  let your_l2_util := scale_part your_l2_util your_partition in
  let my_dram_util := scale_part my_dram_util my_partition in
  let your_dram_util := scale_part your_dram_util your_partition in
  c0 ← deref (_intModelConsts im !! 0%nat);
  c1 ← deref (_intModelConsts im !! 1%nat);
  c2 ← deref (_intModelConsts im !! 2%nat);
  c3 ← deref (_intModelConsts im !! 3%nat);
  c4 ← deref (_intModelConsts im !! 4%nat);
  mret (dadd (dadd (dadd (dadd (dmul c0 my_l2_util) (dmul c1 your_l2_util))
          (dmul c2 my_dram_util)) (dmul c3 your_dram_util)) c4).

(** ** [DevPerfModel] *)
Record DevPerfModel : Type := {
  _latModel : LatencyModel; _intModel : InterferenceModel; _devMem : Z }.

Definition empty_dev_perf_model : DevPerfModel :=
  {| _latModel := empty_latency_model; _intModel := empty_interference_model; _devMem := 0 |}.

Definition set_latModel (lm : LatencyModel) (d : DevPerfModel) : DevPerfModel :=
  {| _latModel := lm; _intModel := _intModel d; _devMem := _devMem d |}.

Definition dev_setup (latency_info_file model_const_file util_file : list string)
    (dev_mem : Z) : M DevPerfModel unit :=
  _ ← zoom _latModel set_latModel (setupTable latency_info_file);
  d ← get;
  im ← lift (interference_setup model_const_file util_file (_intModel d));
  put {| _latModel := _latModel d; _intModel := im; _devMem := dev_mem |}.

Definition dev_getLatency (model : string) (batch part : Z) : M DevPerfModel spec_float :=
  zoom _latModel set_latModel (getLatency model batch part).

Definition dev_getGPURatio (model : string) (batch part : Z) : M DevPerfModel spec_float :=
  zoom _latModel set_latModel (getGPURatio model batch part).

(** The [double] result is returned as a [float]. *)
Definition dev_getInterference (my_model : string) (my_batch my_partition : Z)
    (your_model : string) (your_batch your_partition : Z) : M DevPerfModel spec_float :=
  d ← get;
  alpha ← lift (im_getInterference (_intModel d) my_model my_batch my_partition
                  your_model your_batch your_partition);
  mret (d2f alpha).

Definition getDevMem (d : DevPerfModel) : Z := _devMem d.

(** ** Batch windows *)
Lemma batch_window b : (1 <= b <= 32)%Z ->
  (1 <= batch_below b <= b)%Z /\ (b <= batch_top b <= 32)%Z /\ (batch_below b <= batch_top b)%Z /\
  (b < batch_top b \/ b = 32)%Z.
Proof.
  intros Hb. unfold batch_top, batch_below.
  replace (b <=? 0)%Z with false by (symmetry; apply Z.leb_gt; lia).
  pose proof (Z.log2_spec b ltac:(lia)) as [Hl Hu].
  assert (Hlog : (0 <= Z.log2 b <= 5)%Z).
  { split; [apply Z.log2_nonneg|]. change 5%Z with (Z.log2 32). apply Z.log2_le_mono. lia. }
  rewrite Z.pow_succ_r in Hu by lia.
  assert (1 <= 2 ^ Z.log2 b)%Z by (apply (Z.pow_le_mono_r 2 0); lia).
  rewrite i32_id by (unfold in_i32, INT_MIN, INT_MAX; lia).
  lia.
Qed.

Lemma batch_below_pow2 k : (0 <= k <= 5)%Z -> batch_below (2 ^ k) = (2 ^ k)%Z.
Proof.
  intros Hk. unfold batch_below.
  replace (2 ^ k <=? 0)%Z with false
    by (symmetry; apply Z.leb_gt; apply Z.pow_pos_nonneg; lia).
  by rewrite Z.log2_pow2 by lia.
Qed.

(** The model has a row for every batch size the window of [b] needs. *)
Definition util_covers (im : InterferenceModel) (model : string) (b : Z) : Prop :=
  forall b', b' = batch_below b \/ b' = batch_top b ->
    exists v, _utilInfo im !! (model, b') = Some v /\ (4 <= length v)%nat.

Lemma util_between_total im model b i :
  util_covers im model b -> (i < 4)%nat -> exists u, util_between im model b i = Done u.
Proof.
  intros Hc Hi. unfold util_between, util_at.
  destruct (Hc (batch_top b)) as (vt & -> & Ht); [by right|].
  destruct (Hc (batch_below b)) as (vb & -> & Hb); [by left|].
  destruct (lookup_lt_is_Some_2 vt i) as [x ->]; [lia|].
  destruct (lookup_lt_is_Some_2 vb i) as [y ->]; [lia|]. cbn. eauto.
Qed.

(** With the five constants and the needed rows loaded, the prediction is
    defined. *)
Lemma im_getInterference_total im m1 b1 p1 m2 b2 p2 :
  length (_intModelConsts im) = 5%nat ->
  util_covers im (lenet_family m1) b1 -> util_covers im (lenet_family m2) b2 ->
  exists a, im_getInterference im m1 b1 p1 m2 b2 p2 = Done a.
Proof.
  intros Hc H1 H2. unfold im_getInterference.
  destruct (util_between_total im _ b1 2 H1) as [? ->]; [lia|].
  destruct (util_between_total im _ b2 2 H2) as [? ->]; [lia|].
  destruct (util_between_total im _ b1 3 H1) as [? ->]; [lia|].
  destruct (util_between_total im _ b2 3 H2) as [? ->]; [lia|].
  destruct (_intModelConsts im) as [|c0 [|c1 [|c2 [|c3 [|c4 [|]]]]]]; try done. cbn. eauto.
Qed.
