(* ===== verification/LatencyProps.v ===== *)
(** * Properties of the latency and interference models *)
From Stdlib Require Import ZArith SpecFloat String Lia.
From S2P Require Import Prelude CppFloat CppStd LatencyModel DevPerfModel.

(** ** Loading a profile, seen from outside *)

(** One parsed row: model, partition, batch size, latency. *)
Definition Row : Type := string * Z * Z * spec_float.

Definition row_of (line : string) : outcome Row :=
  let '(model, r) := getline (Some line) "" in
  let '(field, r) := getline r model in
  part ← stoi field;
  let '(field, r) := getline r field in
  batch ← stoi field;
  let '(field, r) := getline r field in
  lat ← stof field;
  mret (model, part, batch, lat).

Fixpoint rows_of (lines : list string) : outcome (list Row) :=
  match lines with
  | [] => mret []
  | line :: lines' => row ← row_of line; rows ← rows_of lines'; mret (row :: rows)
  end.

(** What the table says for a model and a key: the last row wins. *)
Definition row_lat (f : string -> Z -> option spec_float) (row : Row) (model : string) (key : Z) :
    option spec_float :=
  let '(m, p, b, l) := row in
  if decide (m = model /\ makeKey b p = key) then Some l else f model key.
(** The batch sizes measured for a partition, in the order of the rows. *)
Definition row_bvec (f : string -> Z -> list Z) (row : Row) (model : string) (part : Z) : list Z :=
  let '(m, p, b, l) := row in
  if decide (m = model /\ p = part) then f model part ++ [b] else f model part.

Lemma lat_at_new_model lm model m k :
  lat_at (set_ratio (<[model := ∅]> (_perModelGPURatioTable lm))
    (set_lat (<[model := ∅]> (_perModelLatnecyTable lm)) lm)) m k =
  if decide (model = m) then None else lat_at lm m k.
Proof. unfold lat_at. cbn. rewrite lookup_insert. case_decide; [by rewrite lookup_empty|done]. Qed.

Lemma setupRow_refines line row lm :
  row_of line = Done row ->
  returns (setupRow line) lm (fun _ lm' =>
    (forall m k, lat_at lm' m k = row_lat (lat_at lm) row m k) /\
    (forall m p, bvec_of lm' m p = row_bvec (bvec_of lm) row m p)).
Proof.
  unfold row_of, setupRow. destruct (getline (Some line) "") as [model r] eqn:E0.
  destruct (getline r model) as [field1 r1]. intros H.
  apply obind_inv in H as (part & Hpart & H). destruct (getline r1 field1) as [field2 r2] eqn:E2.
  apply obind_inv in H as (b & Hb & H). destruct (getline r2 field2) as [field3 r3] eqn:E3.
  apply obind_inv in H as (l & Hl & [= <-]).
  eapply returns_read; [done|].
  set (lm1 := if decide (_perModelLatnecyTable lm !! model = None) then
    set_ratio (<[model := ∅]> (_perModelGPURatioTable lm))
      (set_lat (<[model := ∅]> (_perModelLatnecyTable lm)) lm) else lm).
  eapply (returns_read _ _ _ tt lm1); [by unfold lm1; case_decide|].
  assert (H1 : (forall m k, lat_at lm1 m k = lat_at lm m k) /\
    (forall m p, bvec_of lm1 m p = bvec_of lm m p) /\ is_Some (_perModelLatnecyTable lm1 !! model)).
  { unfold lm1. case_decide as Hd.
    - split_and!; [|done|cbn; rewrite lookup_insert_eq; by eexists].
      intros m k. rewrite lat_at_new_model. case_decide; [|done]. subst. unfold lat_at. by rewrite Hd.
    - split_and!; [done|done|]. by destruct (_ !! model); [eexists|]. }
  destruct H1 as (Hlat & Hbv & [t Ht]). clearbody lm1.
  eapply returns_read; [unfold lift; by rewrite Hpart|].
  eapply returns_read; [unfold lift; by rewrite Hb|].
  eapply returns_read; [unfold lift; by rewrite Hl|].
  eapply returns_read; [done|]. eapply returns_read; [unfold lift, deref; by rewrite Ht|].
  eapply returns_intro; [done|]. split.
  - intros m k. rewrite lat_at_set_bvec, lat_at_insert, Hlat by done. done.
  - intros m p.
    match goal with |- bvec_of (set_bvec _ ?x) _ _ = _ =>
      change (_perModelBatchVec lm1) with (_perModelBatchVec x) end.
    rewrite bvec_of_insert. unfold row_bvec. rewrite <- !Hbv. case_decide as Hd; [|done].
    destruct Hd as [-> ->]. done.
Qed.

Lemma setupTable_refines lines rows lm :
  rows_of lines = Done rows ->
  returns (setupTable lines) lm (fun _ lm' =>
    (forall m k, lat_at lm' m k = foldl row_lat (lat_at lm) rows m k) /\
    (forall m p, bvec_of lm' m p = foldl row_bvec (bvec_of lm) rows m p)).
Proof.
  assert (Hext1 : forall rows f g, (forall m k, f m k = g m k) ->
    forall m k, foldl row_lat f rows m k = foldl row_lat g rows m k).
  { clear. induction rows as [|[[[? ?] ?] ?] rows IH]; intros f g Hfg m k; [done|]. cbn. apply IH.
    intros m' k'. cbn. by case_decide. }
  assert (Hext2 : forall rows f g, (forall m k, f m k = g m k) ->
    forall m k, foldl row_bvec f rows m k = foldl row_bvec g rows m k).
  { clear. induction rows as [|[[[? ?] ?] ?] rows IH]; intros f g Hfg m k; [done|]. cbn. apply IH.
    intros m' k'. cbn. rewrite Hfg. by case_decide. }
  revert rows lm. unfold setupTable. induction lines as [|line lines IH]; intros rows lm H; cbn in H |- *.
  - injection H as <-. by split.
  - apply obind_inv in H as (row & Hrow & H). apply obind_inv in H as (rows' & Hrows & [= <-]).
    eapply returns_bind; [by apply setupRow_refines|]. intros u lm1 [H1 H2].
    eapply returns_weaken; [by apply IH|]. intros u' lm2 [H3 H4]. cbn. split.
    + intros m k. rewrite H3. by apply Hext1.
    + intros m p. rewrite H4. by apply Hext2.
Qed.

(** ** Queries *)

(** A query of the model: latency or GPU ratio of (model, batch, partition). *)
Inductive query : Type :=
| QLatency (model : string) (batch part : Z)
| QRatio (model : string) (batch part : Z).
Definition ask (q : query) : M LatencyModel spec_float :=
  match q with
  | QLatency model batch part => getLatency model batch part
  | QRatio model batch part => getGPURatio model batch part
  end.
Definition ask_all (qs : list query) : M LatencyModel unit :=
  for_each qs (fun q => _ ← ask q; mret tt).

Lemma read_ratio_le model key : preserves lm_le (read_ratio model key).
Proof.
  intros lm v lm' H. unfold read_ratio in H. minv H. destruct (a !! key); minv H; [done|]. by split.
Qed.
#[local] Hint Resolve read_ratio_le : frame.
Lemma ask_le q : preserves lm_le (ask q).
Proof. destruct q; unfold ask, getGPURatio; preserve. Qed.
#[local] Hint Resolve ask_le : frame.
Lemma ask_all_le qs : preserves lm_le (ask_all qs).
Proof. unfold ask_all. preserve. Qed.

(** ** Properties *)

(** C31: on a completely profiled model every latency query in range returns,
    and what it leaves behind no later query can tell from what was there; at
    a measured (batch, partition) the answer is the measured latency itself. *)
Theorem latency_queries_answer lm model b p :
  table_ok lm (lenet_alias model) -> complete lm (lenet_alias model) p ->
  (MIN_BATCH <= b <= MAX_BATCH)%Z ->
  exists v lm', getLatency model b p lm = Done (v, lm') /\ lm_same lm lm' /\
    forall l, b ∈ bvec_of lm (lenet_alias model) p ->
      lat_at lm (lenet_alias model) (makeKey b p) = Some l -> v = l.
Proof.
  intros Ht Hc Hb. destruct (getLatency_total lm model b p Ht Hc Hb) as (v & lm' & Hrun & Hs).
  exists v, lm'. split_and!; try done. intros l Hin Hl.
  destruct (getLatency_at_profiled lm model b p l Hc Hin Hb Hl) as (lm2 & Hrun2 & _). congruence.
Qed.

Lemma demo_complete : table_ok demo_model "resnet50" /\ complete demo_model "resnet50" 100.
Proof. split; [apply table_okb_sound|apply completeb_sound]; vm_compute; reflexivity. Qed.

Lemma latency_queries_answer_witness :
  exists v lm', getLatency "resnet50" 8 100 demo_model = Done (v, lm') /\ lm_same demo_model lm' /\
    v = i2f 10.
Proof.
  destruct (latency_queries_answer demo_model "resnet50" 8 100 (proj1 demo_complete) (proj2 demo_complete)
    ltac:(unfold MIN_BATCH, MAX_BATCH; lia)) as (v & lm' & Hrun & Hs & Hv).
  exists v, lm'. split; [exact Hrun|]. split; [exact Hs|]. apply Hv; [|vm_compute; reflexivity].
  assert (H : bvec_of demo_model "resnet50" 100 = [1; 8; 32]%Z) by (vm_compute; reflexivity).
  change (lenet_alias "resnet50") with "resnet50"%string. rewrite H. by right; left.
Defined.

(** C34: [findBatchpair] returns the nearest measured batch sizes around [batch]:
    whenever there is one at or below and one above it, the search ends, and
    nothing measured lies between the two. *)
Lemma findBatchpair_nearest l b part x y :
  (MIN_BATCH < b < MAX_BATCH)%Z -> x ∈ l -> (x <= b)%Z -> y ∈ l -> (b < y)%Z ->
  exists lo hi, findBatchpair l b part = Done (lo, hi) /\ neighbours l b lo hi /\
    (x <= lo)%Z /\ (hi <= y)%Z.
Proof.
  intros Hb Hx Hxb Hy Hyb. destruct (findBatchpair_total l b part x y) as (lo & hi & Hrun); try done.
  exists lo, hi. split; [done|]. destruct (findBatchpair_spec _ _ _ _ _ Hrun) as [Hn _].
  split; [done|]. destruct Hn as (_ & _ & Hlt & Hbetween).
  destruct (Hbetween x Hx), (Hbetween y Hy); lia.
Qed.

Lemma findBatchpair_nearest_witness :
  exists lo hi, findBatchpair [1; 8; 32; 16]%Z 10 50 = Done (lo, hi) /\ lo = 8%Z /\ hi = 16%Z /\
    neighbours [1; 8; 32; 16]%Z 10 lo hi.
Proof.
  destruct (findBatchpair_nearest [1; 8; 32; 16]%Z 10 50 1 32) as (lo & hi & Hrun & Hn & _).
  - unfold MIN_BATCH, MAX_BATCH. lia.
  - by left.
  - lia.
  - by right; right; left.
  - lia.
  - exists lo, hi. split; [exact Hrun|]. vm_compute in Hrun. injection Hrun as <- <-.
    split; [reflexivity|]. split; [reflexivity|exact Hn].
Defined.

(** The key of a table entry determines batch size and partition:
    [parseKey] recovers both from [makeKey], without overflow, for batch sizes
    up to 2000 and partitions below 1000. *)
Lemma key_roundtrip b p :
  (0 <= b <= 2000)%Z -> (0 <= p < 1000)%Z ->
  parseKey (makeKey b p) = (b, p) /\ in_i32 (b * 1000) /\ in_i32 (b * 1000 + p).
Proof.
  intros Hb Hp. split; [by apply parseKey_makeKey|].
  unfold in_i32, INT_MIN, INT_MAX. lia.
Qed.

Lemma key_roundtrip_witness : parseKey (makeKey 32 50) = (32, 50)%Z.
Proof. apply (key_roundtrip 32 50); lia. Defined.

(** C36: loading a profile does what its rows say.  If every line parses, the
    load returns; afterwards the latency at a key is the one of the last row
    with that model and key (or what was there before), and the batch sizes
    listed for a partition are extended by those of its rows, in order. *)
Theorem setupTable_loads_rows lines rows lm :
  rows_of lines = Done rows ->
  returns (setupTable lines) lm (fun _ lm' =>
    (forall m k, lat_at lm' m k = foldl row_lat (lat_at lm) rows m k) /\
    (forall m p, bvec_of lm' m p = foldl row_bvec (bvec_of lm) rows m p) /\
    (lm_wf lm -> lm_wf lm')).
Proof.
  intros H. pose proof (setupTable_refines lines rows lm H) as Hr. unfold returns in *.
  destruct (setupTable lines lm) as [[u lm']|] eqn:E; [|done].
  destruct Hr as [H1 H2]. split_and!; [done|done|]. exact (setupTable_wf lines lm u lm' E).
Qed.

Lemma setupTable_loads_rows_witness :
  rows_of ["vgg16,50,8,12.5"; "vgg16,50,8,11"] =
    Done [("vgg16"%string, 50%Z, 8%Z, fdiv (i2f 25) (i2f 2)); ("vgg16"%string, 50%Z, 8%Z, i2f 11)] /\
  returns (setupTable ["vgg16,50,8,12.5"; "vgg16,50,8,11"]) empty_latency_model (fun _ lm' =>
    lat_at lm' "vgg16" (makeKey 8 50) = Some (i2f 11) /\ bvec_of lm' "vgg16" 50 = [8; 8]%Z /\ lm_wf lm').
Proof.
  assert (Hp : rows_of ["vgg16,50,8,12.5"; "vgg16,50,8,11"] =
    Done [("vgg16"%string, 50%Z, 8%Z, fdiv (i2f 25) (i2f 2)); ("vgg16"%string, 50%Z, 8%Z, i2f 11)])
    by (vm_compute; reflexivity).
  split; [exact Hp|]. pose proof (setupTable_loads_rows _ _ empty_latency_model Hp) as H.
  eapply returns_weaken; [exact H|]. intros u lm' (H1 & H2 & H3).
  split; [rewrite H1; vm_compute; reflexivity|]. split; [rewrite H2; vm_compute; reflexivity|].
  apply H3, empty_wf.
Defined.

(** Queries never damage the profile: whatever sequence of latency and
    GPU-ratio queries is asked, every latency in the table stays what it was,
    no model appears or disappears, the lists of measured batch sizes stay the
    same, and a well-formed profile stays well formed. *)
Lemma queries_only_add qs lm lm' :
  ask_all qs lm = Done (tt, lm') -> lm_le lm lm' /\ (lm_wf lm -> lm_wf lm').
Proof. intros H. pose proof (ask_all_le qs _ _ _ H) as Hle. split; [done|by apply lm_le_wf]. Qed.

Lemma queries_only_add_witness :
  match ask_all [QLatency "resnet50" 16 100; QLatency "resnet50" 8 50] demo_model with
  | Done (_, lm') => lm_le demo_model lm'
  | Stop _ => False
  end.
Proof.
  apply run_returns; [vm_compute; reflexivity|]. intros [[] lm'] H.
  exact (proj1 (queries_only_add _ _ _ H)).
Defined.

(** A query at a partition that was never measured poisons it.  If the
    profile knows the model but nothing about partition [p], then after any
    latency query there the answer for batch size 32 is zero milliseconds. *)
Lemma unprofiled_query_poisons lm model b p v lm' :
  getLatency model b p lm = Done (v, lm') ->
  has_model lm (lenet_alias model) ->
  lat_at lm (lenet_alias model) (makeKey b p) = None ->
  lat_at lm (lenet_alias model) (makeKey MAX_BATCH p) = None ->
  (forall key, is_Some (lat_at lm (lenet_alias model) key) -> (parseKey key).2 <> p) ->
  (0 <= p < 1000)%Z ->
  getLatency model MAX_BATCH p lm' = Done (fzero, lm').
Proof. apply getLatency_unprofiled_poisons. Qed.

Lemma unprofiled_query_poisons_witness :
  match getLatency "resnet50" 8 50 demo_model with
  | Done (v, lm') => getLatency "resnet50" MAX_BATCH 50 lm' = Done (fzero, lm')
  | Stop _ => False
  end.
Proof.
  apply run_returns; [vm_compute; reflexivity|]. intros [v lm'] H.
  apply (unprofiled_query_poisons demo_model "resnet50" 8 50 v lm' H).
  - vm_compute. by eexists.
  - vm_compute. reflexivity.
  - vm_compute. reflexivity.
  - intros key [l Hl]. unfold lat_at in Hl.
    destruct (_perModelLatnecyTable demo_model !! lenet_alias "resnet50") as [t|] eqn:Et; [|discriminate Hl].
    assert (Hall : forallb (fun k => negb ((parseKey k).2 =? 50)%Z) (map_to_list t).*1 = true).
    { revert Et. vm_compute. intros [= <-]. reflexivity. }
    rewrite forallb_forall in Hall. specialize (Hall key).
    assert (Hk : In key (map_to_list t).*1).
    { apply list_elem_of_In, list_elem_of_fmap. exists (key, l). split; [done|]. by apply elem_of_map_to_list. }
    specialize (Hall Hk). apply negb_true_iff, Z.eqb_neq in Hall. exact Hall.
  - lia.
Defined.
