(* ===== verification/SchedData.v ===== *)
(** * The scheduler's data and its store
    ([scheduler/scheduler_base.h], data members of [BaseScheduler] and
    [IncrementalScheduler]).

    [TaskPtr], [NodePtr] and [GPUPtr] are shared pointers and the scheduler
    mutates through them, so tasks, nodes and GPUs live in a store and a pointer
    is an index of it; [Task &] parameters are pointers too.  Objects are never
    freed while a pointer to them is held. *)
From Stdlib Require Import ZArith SpecFloat String Lia.
From S2P Require Import Prelude CppFloat CppStd LatencyModel DevPerfModel.

Abbreviation TaskPtr := nat (only parsing).
Abbreviation NodePtr := nat (only parsing).
Abbreviation GPUPtr := nat (only parsing).

Definition EXIT_SUCCESS : bool := false.
Definition EXIT_FAILURE : bool := true.

Record Task : Type := mkTask {
  t_id : Z;
  t_request_rate : Z;
  t_ORG_RATE : Z;
  t_additional_rate : Z;
  t_SLO : Z;
  t_batch_size : Z;
  t_throughput : spec_float }.

Record MemNode : Type := mkMemNode { part : Z; m_dedup_num : Z }.

Record Node : Type := mkNode {
  n_vTaskList : list TaskPtr;
  n_duty_cycle : spec_float;
  n_occupancy : spec_float;
  n_resource_pntg : Z;
  n_id : Z;
  n_reserved : bool;
  n_dedup_num : Z;
  n_type : string }.

Record GPU : Type := mkGPU {
  g_GPUID : Z;
  g_TOTAL_MEMORY : Z;
  g_used_memory : Z;
  g_TYPE : string;
  g_vLoadedParts : list MemNode;
  g_vNodeList : list NodePtr }.

Record SimState : Type := mkSimState {
  vGPUList : list GPUPtr; parts : list Z; next_dummy_id : Z }.

Record SatTrpEntry : Type := mkSatTrpEntry {
  s_part : Z; s_max_batch : Z; s_sat_trp : spec_float; s_type : string }.

(** The values that uninitialised members hold; nothing is assumed of them. *)
Record Indet : Type := mkIndet {
  indet_int : Z; indet_float : spec_float; indet_bool : bool }.

(** The data members of the scheduler object.  [_NLC] is the table
    [_taskIDtoRequiredBytesPerRequest] of the [NetworkLimitChecker].
    The maps read with [operator[]] whose default-inserted elements nobody can
    observe are finite maps read with that default. *)
Record Sched : Type := mkSched {
  _useBatchingOverhead : bool;
  _numMaxGPU : Z;
  _numMaxModel : Z;
  _usePart : bool;
  _latencyRatio : spec_float;
  _useInterference : bool;
  _useIncremental : bool;
  _useSelfTuning : bool;
  _useRepartition : bool;
  _availParts : list Z;
  _batch_latency_1_28_28 : gmap Z spec_float;
  _batch_latency_3_224_224 : gmap Z spec_float;
  _batch_latency_3_300_300 : gmap Z spec_float;
  _mapModelIDtoMemSize : gmap Z Z;
  _nametoDevPerfModelTable : gmap string DevPerfModel;
  _typeToNumofTypeTable : list (string * Z);
  _IDtoModelName : list string;
  _priorityCheck : bool;
  _priorityType : string;
  _perModelSatTable : gmap Z (list SatTrpEntry);
  _NLC : gmap Z Z;
  _isNLCInitated : bool }.

Record World : Type := mkWorld {
  w_sched : Sched;
  w_tasks : list Task;
  w_nodes : list Node;
  w_gpus : list GPU;
  w_indet : Indet }.

Abbreviation SM := (M World) (only parsing).

(** ** Field updates *)
Definition set_t_id (x : Z) (t : Task) : Task :=
  mkTask x (t_request_rate t) (t_ORG_RATE t) (t_additional_rate t) (t_SLO t) (t_batch_size t)
    (t_throughput t).
Definition set_t_request_rate (x : Z) (t : Task) : Task :=
  mkTask (t_id t) x (t_ORG_RATE t) (t_additional_rate t) (t_SLO t) (t_batch_size t)
    (t_throughput t).
Definition set_t_ORG_RATE (x : Z) (t : Task) : Task :=
  mkTask (t_id t) (t_request_rate t) x (t_additional_rate t) (t_SLO t) (t_batch_size t)
    (t_throughput t).
Definition set_t_additional_rate (x : Z) (t : Task) : Task :=
  mkTask (t_id t) (t_request_rate t) (t_ORG_RATE t) x (t_SLO t) (t_batch_size t) (t_throughput
    t).
Definition set_t_SLO (x : Z) (t : Task) : Task :=
  mkTask (t_id t) (t_request_rate t) (t_ORG_RATE t) (t_additional_rate t) x (t_batch_size t)
    (t_throughput t).
Definition set_t_batch_size (x : Z) (t : Task) : Task :=
  mkTask (t_id t) (t_request_rate t) (t_ORG_RATE t) (t_additional_rate t) (t_SLO t) x
    (t_throughput t).
Definition set_t_throughput (x : spec_float) (t : Task) : Task :=
  mkTask (t_id t) (t_request_rate t) (t_ORG_RATE t) (t_additional_rate t) (t_SLO t)
    (t_batch_size t) x.

Definition set_n_vTaskList (x : list TaskPtr) (n : Node) : Node :=
  mkNode x (n_duty_cycle n) (n_occupancy n) (n_resource_pntg n) (n_id n) (n_reserved n)
    (n_dedup_num n) (n_type n).
Definition set_n_duty_cycle (x : spec_float) (n : Node) : Node :=
  mkNode (n_vTaskList n) x (n_occupancy n) (n_resource_pntg n) (n_id n) (n_reserved n)
    (n_dedup_num n) (n_type n).
Definition set_n_occupancy (x : spec_float) (n : Node) : Node :=
  mkNode (n_vTaskList n) (n_duty_cycle n) x (n_resource_pntg n) (n_id n) (n_reserved n)
    (n_dedup_num n) (n_type n).
Definition set_n_resource_pntg (x : Z) (n : Node) : Node :=
  mkNode (n_vTaskList n) (n_duty_cycle n) (n_occupancy n) x (n_id n) (n_reserved n) (n_dedup_num
    n) (n_type n).
Definition set_n_id (x : Z) (n : Node) : Node :=
  mkNode (n_vTaskList n) (n_duty_cycle n) (n_occupancy n) (n_resource_pntg n) x (n_reserved n)
    (n_dedup_num n) (n_type n).
Definition set_n_reserved (x : bool) (n : Node) : Node :=
  mkNode (n_vTaskList n) (n_duty_cycle n) (n_occupancy n) (n_resource_pntg n) (n_id n) x
    (n_dedup_num n) (n_type n).
Definition set_n_dedup_num (x : Z) (n : Node) : Node :=
  mkNode (n_vTaskList n) (n_duty_cycle n) (n_occupancy n) (n_resource_pntg n) (n_id n)
    (n_reserved n) x (n_type n).
Definition set_n_type (x : string) (n : Node) : Node :=
  mkNode (n_vTaskList n) (n_duty_cycle n) (n_occupancy n) (n_resource_pntg n) (n_id n)
    (n_reserved n) (n_dedup_num n) x.

Definition set_g_GPUID (x : Z) (g : GPU) : GPU :=
  mkGPU x (g_TOTAL_MEMORY g) (g_used_memory g) (g_TYPE g) (g_vLoadedParts g) (g_vNodeList g).
Definition set_g_TOTAL_MEMORY (x : Z) (g : GPU) : GPU :=
  mkGPU (g_GPUID g) x (g_used_memory g) (g_TYPE g) (g_vLoadedParts g) (g_vNodeList g).
Definition set_g_used_memory (x : Z) (g : GPU) : GPU :=
  mkGPU (g_GPUID g) (g_TOTAL_MEMORY g) x (g_TYPE g) (g_vLoadedParts g) (g_vNodeList g).
Definition set_g_TYPE (x : string) (g : GPU) : GPU :=
  mkGPU (g_GPUID g) (g_TOTAL_MEMORY g) (g_used_memory g) x (g_vLoadedParts g) (g_vNodeList g).
Definition set_g_vLoadedParts (x : list MemNode) (g : GPU) : GPU :=
  mkGPU (g_GPUID g) (g_TOTAL_MEMORY g) (g_used_memory g) (g_TYPE g) x (g_vNodeList g).
Definition set_g_vNodeList (x : list NodePtr) (g : GPU) : GPU :=
  mkGPU (g_GPUID g) (g_TOTAL_MEMORY g) (g_used_memory g) (g_TYPE g) (g_vLoadedParts g) x.

Definition set_numMaxGPU (x : Z) (s : Sched) : Sched :=
  mkSched (_useBatchingOverhead s) x (_numMaxModel s) (_usePart s) (_latencyRatio s)
    (_useInterference s) (_useIncremental s) (_useSelfTuning s) (_useRepartition s) (_availParts
    s) (_batch_latency_1_28_28 s) (_batch_latency_3_224_224 s) (_batch_latency_3_300_300 s)
    (_mapModelIDtoMemSize s) (_nametoDevPerfModelTable s) (_typeToNumofTypeTable s)
    (_IDtoModelName s) (_priorityCheck s) (_priorityType s) (_perModelSatTable s) (_NLC s)
    (_isNLCInitated s).
Definition set_numMaxModel (x : Z) (s : Sched) : Sched :=
  mkSched (_useBatchingOverhead s) (_numMaxGPU s) x (_usePart s) (_latencyRatio s)
    (_useInterference s) (_useIncremental s) (_useSelfTuning s) (_useRepartition s) (_availParts
    s) (_batch_latency_1_28_28 s) (_batch_latency_3_224_224 s) (_batch_latency_3_300_300 s)
    (_mapModelIDtoMemSize s) (_nametoDevPerfModelTable s) (_typeToNumofTypeTable s)
    (_IDtoModelName s) (_priorityCheck s) (_priorityType s) (_perModelSatTable s) (_NLC s)
    (_isNLCInitated s).
Definition set_usePart (x : bool) (s : Sched) : Sched :=
  mkSched (_useBatchingOverhead s) (_numMaxGPU s) (_numMaxModel s) x (_latencyRatio s)
    (_useInterference s) (_useIncremental s) (_useSelfTuning s) (_useRepartition s) (_availParts
    s) (_batch_latency_1_28_28 s) (_batch_latency_3_224_224 s) (_batch_latency_3_300_300 s)
    (_mapModelIDtoMemSize s) (_nametoDevPerfModelTable s) (_typeToNumofTypeTable s)
    (_IDtoModelName s) (_priorityCheck s) (_priorityType s) (_perModelSatTable s) (_NLC s)
    (_isNLCInitated s).
Definition set_latencyRatio (x : spec_float) (s : Sched) : Sched :=
  mkSched (_useBatchingOverhead s) (_numMaxGPU s) (_numMaxModel s) (_usePart s) x
    (_useInterference s) (_useIncremental s) (_useSelfTuning s) (_useRepartition s) (_availParts
    s) (_batch_latency_1_28_28 s) (_batch_latency_3_224_224 s) (_batch_latency_3_300_300 s)
    (_mapModelIDtoMemSize s) (_nametoDevPerfModelTable s) (_typeToNumofTypeTable s)
    (_IDtoModelName s) (_priorityCheck s) (_priorityType s) (_perModelSatTable s) (_NLC s)
    (_isNLCInitated s).
Definition set_useInterference (x : bool) (s : Sched) : Sched :=
  mkSched (_useBatchingOverhead s) (_numMaxGPU s) (_numMaxModel s) (_usePart s) (_latencyRatio
    s) x (_useIncremental s) (_useSelfTuning s) (_useRepartition s) (_availParts s)
    (_batch_latency_1_28_28 s) (_batch_latency_3_224_224 s) (_batch_latency_3_300_300 s)
    (_mapModelIDtoMemSize s) (_nametoDevPerfModelTable s) (_typeToNumofTypeTable s)
    (_IDtoModelName s) (_priorityCheck s) (_priorityType s) (_perModelSatTable s) (_NLC s)
    (_isNLCInitated s).
Definition set_useIncremental (x : bool) (s : Sched) : Sched :=
  mkSched (_useBatchingOverhead s) (_numMaxGPU s) (_numMaxModel s) (_usePart s) (_latencyRatio
    s) (_useInterference s) x (_useSelfTuning s) (_useRepartition s) (_availParts s)
    (_batch_latency_1_28_28 s) (_batch_latency_3_224_224 s) (_batch_latency_3_300_300 s)
    (_mapModelIDtoMemSize s) (_nametoDevPerfModelTable s) (_typeToNumofTypeTable s)
    (_IDtoModelName s) (_priorityCheck s) (_priorityType s) (_perModelSatTable s) (_NLC s)
    (_isNLCInitated s).
Definition set_useSelfTuning (x : bool) (s : Sched) : Sched :=
  mkSched (_useBatchingOverhead s) (_numMaxGPU s) (_numMaxModel s) (_usePart s) (_latencyRatio
    s) (_useInterference s) (_useIncremental s) x (_useRepartition s) (_availParts s)
    (_batch_latency_1_28_28 s) (_batch_latency_3_224_224 s) (_batch_latency_3_300_300 s)
    (_mapModelIDtoMemSize s) (_nametoDevPerfModelTable s) (_typeToNumofTypeTable s)
    (_IDtoModelName s) (_priorityCheck s) (_priorityType s) (_perModelSatTable s) (_NLC s)
    (_isNLCInitated s).
Definition set_useRepartition (x : bool) (s : Sched) : Sched :=
  mkSched (_useBatchingOverhead s) (_numMaxGPU s) (_numMaxModel s) (_usePart s) (_latencyRatio
    s) (_useInterference s) (_useIncremental s) (_useSelfTuning s) x (_availParts s)
    (_batch_latency_1_28_28 s) (_batch_latency_3_224_224 s) (_batch_latency_3_300_300 s)
    (_mapModelIDtoMemSize s) (_nametoDevPerfModelTable s) (_typeToNumofTypeTable s)
    (_IDtoModelName s) (_priorityCheck s) (_priorityType s) (_perModelSatTable s) (_NLC s)
    (_isNLCInitated s).
Definition set_availParts (x : list Z) (s : Sched) : Sched :=
  mkSched (_useBatchingOverhead s) (_numMaxGPU s) (_numMaxModel s) (_usePart s) (_latencyRatio
    s) (_useInterference s) (_useIncremental s) (_useSelfTuning s) (_useRepartition s) x
    (_batch_latency_1_28_28 s) (_batch_latency_3_224_224 s) (_batch_latency_3_300_300 s)
    (_mapModelIDtoMemSize s) (_nametoDevPerfModelTable s) (_typeToNumofTypeTable s)
    (_IDtoModelName s) (_priorityCheck s) (_priorityType s) (_perModelSatTable s) (_NLC s)
    (_isNLCInitated s).
Definition set_batch_latency_1_28_28 (x : gmap Z spec_float) (s : Sched) : Sched :=
  mkSched (_useBatchingOverhead s) (_numMaxGPU s) (_numMaxModel s) (_usePart s) (_latencyRatio
    s) (_useInterference s) (_useIncremental s) (_useSelfTuning s) (_useRepartition s)
    (_availParts s) x (_batch_latency_3_224_224 s) (_batch_latency_3_300_300 s)
    (_mapModelIDtoMemSize s) (_nametoDevPerfModelTable s) (_typeToNumofTypeTable s)
    (_IDtoModelName s) (_priorityCheck s) (_priorityType s) (_perModelSatTable s) (_NLC s)
    (_isNLCInitated s).
Definition set_batch_latency_3_224_224 (x : gmap Z spec_float) (s : Sched) : Sched :=
  mkSched (_useBatchingOverhead s) (_numMaxGPU s) (_numMaxModel s) (_usePart s) (_latencyRatio
    s) (_useInterference s) (_useIncremental s) (_useSelfTuning s) (_useRepartition s)
    (_availParts s) (_batch_latency_1_28_28 s) x (_batch_latency_3_300_300 s)
    (_mapModelIDtoMemSize s) (_nametoDevPerfModelTable s) (_typeToNumofTypeTable s)
    (_IDtoModelName s) (_priorityCheck s) (_priorityType s) (_perModelSatTable s) (_NLC s)
    (_isNLCInitated s).
Definition set_batch_latency_3_300_300 (x : gmap Z spec_float) (s : Sched) : Sched :=
  mkSched (_useBatchingOverhead s) (_numMaxGPU s) (_numMaxModel s) (_usePart s) (_latencyRatio
    s) (_useInterference s) (_useIncremental s) (_useSelfTuning s) (_useRepartition s)
    (_availParts s) (_batch_latency_1_28_28 s) (_batch_latency_3_224_224 s) x
    (_mapModelIDtoMemSize s) (_nametoDevPerfModelTable s) (_typeToNumofTypeTable s)
    (_IDtoModelName s) (_priorityCheck s) (_priorityType s) (_perModelSatTable s) (_NLC s)
    (_isNLCInitated s).
Definition set_mapModelIDtoMemSize (x : gmap Z Z) (s : Sched) : Sched :=
  mkSched (_useBatchingOverhead s) (_numMaxGPU s) (_numMaxModel s) (_usePart s) (_latencyRatio
    s) (_useInterference s) (_useIncremental s) (_useSelfTuning s) (_useRepartition s)
    (_availParts s) (_batch_latency_1_28_28 s) (_batch_latency_3_224_224 s)
    (_batch_latency_3_300_300 s) x (_nametoDevPerfModelTable s) (_typeToNumofTypeTable s)
    (_IDtoModelName s) (_priorityCheck s) (_priorityType s) (_perModelSatTable s) (_NLC s)
    (_isNLCInitated s).
Definition set_nametoDevPerfModelTable (x : gmap string DevPerfModel) (s : Sched) : Sched :=
  mkSched (_useBatchingOverhead s) (_numMaxGPU s) (_numMaxModel s) (_usePart s) (_latencyRatio
    s) (_useInterference s) (_useIncremental s) (_useSelfTuning s) (_useRepartition s)
    (_availParts s) (_batch_latency_1_28_28 s) (_batch_latency_3_224_224 s)
    (_batch_latency_3_300_300 s) (_mapModelIDtoMemSize s) x (_typeToNumofTypeTable s)
    (_IDtoModelName s) (_priorityCheck s) (_priorityType s) (_perModelSatTable s) (_NLC s)
    (_isNLCInitated s).
Definition set_typeToNumofTypeTable (x : list (string * Z)) (s : Sched) : Sched :=
  mkSched (_useBatchingOverhead s) (_numMaxGPU s) (_numMaxModel s) (_usePart s) (_latencyRatio
    s) (_useInterference s) (_useIncremental s) (_useSelfTuning s) (_useRepartition s)
    (_availParts s) (_batch_latency_1_28_28 s) (_batch_latency_3_224_224 s)
    (_batch_latency_3_300_300 s) (_mapModelIDtoMemSize s) (_nametoDevPerfModelTable s) x
    (_IDtoModelName s) (_priorityCheck s) (_priorityType s) (_perModelSatTable s) (_NLC s)
    (_isNLCInitated s).
Definition set_perModelSatTable (x : gmap Z (list SatTrpEntry)) (s : Sched) : Sched :=
  mkSched (_useBatchingOverhead s) (_numMaxGPU s) (_numMaxModel s) (_usePart s) (_latencyRatio
    s) (_useInterference s) (_useIncremental s) (_useSelfTuning s) (_useRepartition s)
    (_availParts s) (_batch_latency_1_28_28 s) (_batch_latency_3_224_224 s)
    (_batch_latency_3_300_300 s) (_mapModelIDtoMemSize s) (_nametoDevPerfModelTable s)
    (_typeToNumofTypeTable s) (_IDtoModelName s) (_priorityCheck s) (_priorityType s) x (_NLC s)
    (_isNLCInitated s).
Definition set_NLC (x : gmap Z Z) (s : Sched) : Sched :=
  mkSched (_useBatchingOverhead s) (_numMaxGPU s) (_numMaxModel s) (_usePart s) (_latencyRatio
    s) (_useInterference s) (_useIncremental s) (_useSelfTuning s) (_useRepartition s)
    (_availParts s) (_batch_latency_1_28_28 s) (_batch_latency_3_224_224 s)
    (_batch_latency_3_300_300 s) (_mapModelIDtoMemSize s) (_nametoDevPerfModelTable s)
    (_typeToNumofTypeTable s) (_IDtoModelName s) (_priorityCheck s) (_priorityType s)
    (_perModelSatTable s) x (_isNLCInitated s).
Definition set_isNLCInitated (x : bool) (s : Sched) : Sched :=
  mkSched (_useBatchingOverhead s) (_numMaxGPU s) (_numMaxModel s) (_usePart s) (_latencyRatio
    s) (_useInterference s) (_useIncremental s) (_useSelfTuning s) (_useRepartition s)
    (_availParts s) (_batch_latency_1_28_28 s) (_batch_latency_3_224_224 s)
    (_batch_latency_3_300_300 s) (_mapModelIDtoMemSize s) (_nametoDevPerfModelTable s)
    (_typeToNumofTypeTable s) (_IDtoModelName s) (_priorityCheck s) (_priorityType s)
    (_perModelSatTable s) (_NLC s) x.

Definition set_w_sched (x : Sched) (w : World) : World :=
  mkWorld x (w_tasks w) (w_nodes w) (w_gpus w) (w_indet w).
Definition set_w_tasks (x : list Task) (w : World) : World :=
  mkWorld (w_sched w) x (w_nodes w) (w_gpus w) (w_indet w).
Definition set_w_nodes (x : list Node) (w : World) : World :=
  mkWorld (w_sched w) (w_tasks w) x (w_gpus w) (w_indet w).
Definition set_w_gpus (x : list GPU) (w : World) : World :=
  mkWorld (w_sched w) (w_tasks w) (w_nodes w) x (w_indet w).

(** ** Store operations: reads and writes through pointers, [make_shared] *)
Definition sched : SM Sched := gets w_sched.
Definition mod_sched (f : Sched -> Sched) : SM unit :=
  modify (fun w => set_w_sched (f (w_sched w)) w).

Definition rd_task (p : TaskPtr) : SM Task := w ← get; lift (deref (w_tasks w !! p)).
Definition rd_node (p : NodePtr) : SM Node := w ← get; lift (deref (w_nodes w !! p)).
Definition rd_gpu (p : GPUPtr) : SM GPU := w ← get; lift (deref (w_gpus w !! p)).

Definition wr_task (p : TaskPtr) (f : Task -> Task) : SM unit :=
  w ← get; t ← lift (deref (w_tasks w !! p));
  put (set_w_tasks (<[p := f t]> (w_tasks w)) w).
Definition wr_node (p : NodePtr) (f : Node -> Node) : SM unit :=
  w ← get; n ← lift (deref (w_nodes w !! p));
  put (set_w_nodes (<[p := f n]> (w_nodes w)) w).
Definition wr_gpu (p : GPUPtr) (f : GPU -> GPU) : SM unit :=
  w ← get; g ← lift (deref (w_gpus w !! p));
  put (set_w_gpus (<[p := f g]> (w_gpus w)) w).

Definition new_task (t : Task) : SM TaskPtr :=
  w ← get; _ ← put (set_w_tasks (w_tasks w ++ [t]) w); mret (length (w_tasks w)).
Definition new_node (n : Node) : SM NodePtr :=
  w ← get; _ ← put (set_w_nodes (w_nodes w ++ [n]) w); mret (length (w_nodes w)).
Definition new_gpu (g : GPU) : SM GPUPtr :=
  w ← get; _ ← put (set_w_gpus (w_gpus w ++ [g]) w); mret (length (w_gpus w)).

(** Default-initialised objects: strings and vectors are empty, the scalars
    hold whatever was in memory. *)
Definition raw_task (i : Indet) : Task :=
  mkTask (indet_int i) (indet_int i) (indet_int i) (indet_int i) (indet_int i) (indet_int i)
    (indet_float i).
Definition raw_node (i : Indet) : Node :=
  mkNode [] (indet_float i) (indet_float i) (indet_int i) (indet_int i) (indet_bool i)
    (indet_int i) "".
Definition raw_gpu (i : Indet) : GPU :=
  mkGPU (indet_int i) (indet_int i) (indet_int i) "" [] [].

(** [vec[i]] for an [int] index *)
Definition at_index {A} (l : list A) (i : Z) : outcome A :=
  if (i <? 0)%Z then Stop Undefined else deref (l !! Z.to_nat i).

(** Steps on pointers that exist. *)
Lemma rd_node_ok w p n : w_nodes w !! p = Some n -> rd_node p w = Done (n, w).
Proof. intros H. unfold rd_node, mbind, M_bind, get, lift, deref. by rewrite H. Qed.
Lemma rd_task_ok w p t : w_tasks w !! p = Some t -> rd_task p w = Done (t, w).
Proof. intros H. unfold rd_task, mbind, M_bind, get, lift, deref. by rewrite H. Qed.
Lemma rd_gpu_ok w p g : w_gpus w !! p = Some g -> rd_gpu p w = Done (g, w).
Proof. intros H. unfold rd_gpu, mbind, M_bind, get, lift, deref. by rewrite H. Qed.
Lemma wr_task_ok w p t f :
  w_tasks w !! p = Some t ->
  wr_task p f w = Done (tt, set_w_tasks (<[p := f t]> (w_tasks w)) w).
Proof. intros H. unfold wr_task, mbind, M_bind, get, lift, deref, put. by rewrite H. Qed.
Lemma wr_node_ok w p n f :
  w_nodes w !! p = Some n ->
  wr_node p f w = Done (tt, set_w_nodes (<[p := f n]> (w_nodes w)) w).
Proof. intros H. unfold wr_node, mbind, M_bind, get, lift, deref, put. by rewrite H. Qed.
Lemma wr_gpu_ok w p g f :
  w_gpus w !! p = Some g ->
  wr_gpu p f w = Done (tt, set_w_gpus (<[p := f g]> (w_gpus w)) w).
Proof. intros H. unfold wr_gpu, mbind, M_bind, get, lift, deref, put. by rewrite H. Qed.
