(* ===== verification/SchedUtils.v ===== *)
(** * Helpers on schedules ([common/scheduler_utils.cpp]) and the network
    bandwidth check ([scheduler/network_limit.cpp]). *)
From Stdlib Require Import ZArith SpecFloat String Lia.
From S2P Require Import Prelude CppFloat CppStd LatencyModel DevPerfModel SchedData.

(** ** [createNewTaskPtr], three overloads *)
Definition createNewTaskPtr_copy (task : Task) : SM TaskPtr := new_task task.

Definition createNewTaskPtr_full (id request_rate ORG_RATE additional_rate SLO batch_size : Z)
    (throughput : spec_float) : SM TaskPtr :=
  createNewTaskPtr_copy
    (mkTask id request_rate ORG_RATE additional_rate SLO batch_size throughput).

Definition createNewTaskPtr (id request_rate SLO batch_size : Z) (throughput : spec_float) :
    SM TaskPtr :=
  createNewTaskPtr_full id request_rate 0 0 SLO batch_size throughput.

(** ** Copies of a schedule *)
Definition copy_task_fields (i : Indet) (t : Task) : Task :=
  mkTask (t_id t) (t_request_rate t) (indet_int i) (indet_int i) (t_SLO t) (t_batch_size t)
    (t_throughput t).
Definition copy_node_fields (n : Node) : Node :=
  mkNode [] (n_duty_cycle n) (n_occupancy n) (n_resource_pntg n) (n_id n) (n_reserved n)
    (n_dedup_num n) (n_type n).
Definition copy_gpu_fields (i : Indet) (g : GPU) : GPU :=
  set_g_TYPE (g_TYPE g) (set_g_GPUID (g_GPUID g) (raw_gpu i)).

(** One node of [input]; the loaded partition is recorded on the {e input}'s
    GPU [gp]. *)
Definition copy_node (gp new_gpu_ptr : GPUPtr) (np : NodePtr) : SM unit :=
  n ← rd_node np;
  new_node_ptr ← new_node (copy_node_fields n);
  _ ← when (negb (bool_decide (n_vTaskList n = [])))
        (wr_gpu gp (fun g =>
           set_g_vLoadedParts
             (g_vLoadedParts g ++ [mkMemNode (n_resource_pntg n) (n_dedup_num n)]) g));
  _ ← for_each (n_vTaskList n) (fun tp =>
        t ← rd_task tp;
        i ← gets w_indet;
        new_task_ptr ← new_task (copy_task_fields i t);
        wr_node new_node_ptr (fun nn => set_n_vTaskList (n_vTaskList nn ++ [new_task_ptr]) nn));
  wr_gpu new_gpu_ptr (fun g => set_g_vNodeList (g_vNodeList g ++ [new_node_ptr]) g).

Definition copy_gpu (gp : GPUPtr) : SM GPUPtr :=
  g ← rd_gpu gp;
  i ← gets w_indet;
  new_gpu_ptr ← new_gpu (copy_gpu_fields i g);
  _ ← for_each (g_vNodeList g) (copy_node gp new_gpu_ptr);
  mret new_gpu_ptr.

Definition copyToOutput (input output : SimState) : SM SimState :=
  gpus ← for_acc (vGPUList input) [] (fun acc gp =>
    new_gpu_ptr ← copy_gpu gp; mret (acc ++ [new_gpu_ptr]));
  mret (mkSimState gpus (parts input) (next_dummy_id output)).

Definition recoverScheduler (backup output : SimState) : SimState :=
  mkSimState (vGPUList backup) (parts output) (next_dummy_id output).

Definition copySession (org_session : list Task) : list Task := org_session.

(** ** Queries *)
Definition node_used (np : NodePtr) : SM bool :=
  n ← rd_node np; mret (negb (bool_decide (n_vTaskList n = []))).

Definition getNumofUsedGPUs (input : SimState) : SM Z :=
  for_acc (vGPUList input) 0%Z (fun (used_gpus : Z) gp =>
    g ← rd_gpu gp;
    used ← for_acc (g_vNodeList g) false (fun (used : bool) np =>
      u ← node_used np; mret (if (u : bool) then true else used));
    mret (if (used : bool) then (used_gpus + 1)%Z else used_gpus)).

Definition getMaxPartSize (input : SimState) : SM Z :=
  if decide (vGPUList input = []) then mret 100%Z
  else for_acc (vGPUList input) (-1)%Z (fun (max_part : Z) gp =>
    g ← rd_gpu gp;
    for_acc (g_vNodeList g) max_part (fun (max_part : Z) np =>
      n ← rd_node np;
      mret (if (max_part <? n_resource_pntg n)%Z then n_resource_pntg n else max_part))).

Definition getMinPartSize (input : SimState) : SM Z :=
  if decide (vGPUList input = []) then mret 0%Z
  else for_acc (vGPUList input) 100%Z (fun (min_part : Z) gp =>
    g ← rd_gpu gp;
    for_acc (g_vNodeList g) min_part (fun (min_part : Z) np =>
      n ← rd_node np;
      mret (if (n_resource_pntg n <? min_part)%Z then n_resource_pntg n else min_part))).

(** ** [NetworkLimitChecker] *)
Definition LIMIT_GBITS : spec_float := i2d 3.

Definition required_bytes (s : Sched) (task_id : Z) : Z := default 0%Z (_NLC s !! task_id).

(** [x * 8 / 1024 / 1024 / 1024] *)
Definition to_gbits (x : spec_float) : spec_float :=
  ddiv (ddiv (ddiv (dmul x (i2d 8)) (i2d 1024)) (i2d 1024)) (i2d 1024).

Definition getRequiredBandwidth (gpu : GPUPtr) : SM spec_float :=
  g ← rd_gpu gpu;
  sum ← for_acc (g_vNodeList g) (i2d 0) (fun sum np =>
    n ← rd_node np;
    for_acc (n_vTaskList n) sum (fun sum tp =>
      t ← rd_task tp;
      s ← sched;
      mret (dadd sum (dmul (f2d (t_throughput t)) (i2d (required_bytes s (t_id t)))))));
  mret (to_gbits sum).

Definition isBandwidthOK_gpu (gpu_ptr : GPUPtr) : SM bool :=
  gbit_bandwidth ← getRequiredBandwidth gpu_ptr;
  if gtb gbit_bandwidth LIMIT_GBITS then mret false else mret true.

Definition isBandwidthOK (decision : SimState) : SM bool :=
  r ← for_ret (vGPUList decision) (fun gpu_ptr =>
    ok ← isBandwidthOK_gpu gpu_ptr;
    mret (if (ok : bool) then None else Some false));
  mret (default true r).

(** The bandwidth of batch size [i], scaled from the current batch size. *)
Definition scaled_gbits (i curr_batch : Z) (throughput : spec_float) (bytes : Z) : spec_float :=
  to_gbits (dmul (dmul (ddiv (i2d i) (i2d curr_batch)) (f2d throughput)) (i2d bytes)).

(** The loop [for(i = curr_batch; i > 0; i--)], [n] iterations left. *)
Fixpoint fit_batch (n : nat) (i curr_batch : Z) (throughput : spec_float) (bytes : Z)
    (remain_bw : spec_float) : option Z :=
  match n with
  | O => None
  | S n' =>
      if leb (scaled_gbits i curr_batch throughput bytes) remain_bw then Some i
      else fit_batch n' (i - 1) curr_batch throughput bytes remain_bw
  end.

Definition adjustBatchSizetoNetBW (task_ptr : TaskPtr) (to_be_inserted_gpu : GPUPtr) : SM bool :=
  bw ← getRequiredBandwidth to_be_inserted_gpu;
  let remain_bw := fmax (dsub LIMIT_GBITS bw) (i2d 0) in
  if feqb remain_bw (i2d 0) then mret EXIT_FAILURE
  else
    t ← rd_task task_ptr;
    s ← sched;
    _ ← massert (negb (t_batch_size t =? 0)%Z && fneqb (t_throughput t) fzero);
    let curr_batch := t_batch_size t in
    match fit_batch (Z.to_nat curr_batch) curr_batch curr_batch (t_throughput t)
            (required_bytes s (t_id t)) remain_bw with
    | Some i =>
        _ ← wr_task task_ptr (fun t =>
              set_t_throughput (fmul (fdiv (i2f i) (i2f curr_batch)) (t_throughput t))
                (set_t_batch_size i t));
        mret EXIT_SUCCESS
    | None => mret EXIT_FAILURE
    end.

(** The chosen batch size is the largest one, from the current one down, whose
    bandwidth fits. *)
Lemma fit_batch_spec n i c thr bytes bw :
  match fit_batch n i c thr bytes bw with
  | Some j => (i - Z.of_nat n < j <= i)%Z /\ leb (scaled_gbits j c thr bytes) bw = true /\
      forall k, (j < k <= i)%Z -> leb (scaled_gbits k c thr bytes) bw = false
  | None => forall k, (i - Z.of_nat n < k <= i)%Z -> leb (scaled_gbits k c thr bytes) bw = false
  end.
Proof.
  revert i. induction n as [|n IH]; intros i; [cbn; lia|]. cbn [fit_batch].
  destruct (leb (scaled_gbits i c thr bytes) bw) eqn:E.
  - split_and!; [lia|lia|done|lia].
  - specialize (IH (i - 1)%Z).
    assert (Hi : forall k, (k = i)%Z -> leb (scaled_gbits k c thr bytes) bw = false)
      by (by intros k ->).
    destruct (fit_batch n (i - 1) c thr bytes bw) as [j|].
    + destruct IH as (? & ? & Hk). split_and!; [lia|lia|done|].
      intros k ?. destruct (decide (k = i)); [auto|]. apply Hk. lia.
    + intros k ?. destruct (decide (k = i)); [auto|]. apply IH. lia.
Qed.
