(* ===== verification/SchedBase.v ===== *)
(** * [BaseScheduler] ([scheduler/scheduler_base.cpp]): latency estimation,
    memory bookkeeping, batch-size search and interference adjustment. *)
From Stdlib Require Import ZArith SpecFloat String Lia.
From S2P Require Import Prelude CppFloat CppStd LatencyModel DevPerfModel SchedData SchedUtils.

Definition _MAX_BATCH : Z := 32.
Definition _MIN_BATCH : Z := 1.

(** ** Small accessors *)
Definition getUseParts : SM bool := gets (fun w => _usePart (w_sched w)).
Definition getAvailParts : SM (list Z) := gets (fun w => _availParts (w_sched w)).
Definition getMaxGPUs : SM Z :=
  gets (fun w => foldl (fun sum p => i32 (sum + p.2)) 0%Z (_typeToNumofTypeTable (w_sched w))).
(** [setMaxGPUs] is declared to return an [int] and returns none. *)
Definition setMaxGPUs (num_gpu : Z) : SM unit := mod_sched (set_numMaxGPU num_gpu).
Definition getMaxBatchSize : SM Z := mret _MAX_BATCH.

Definition getModelName (id : Z) : SM string :=
  s ← sched; lift (at_index (_IDtoModelName s) id).

(** The loop leaves [id] at the first match, or at the last index when there is
    none: an unknown name gets the identifier of the last model. *)
Fixpoint model_id_loop (names : list string) (model_name : string) (id : Z) : Z :=
  match names with
  | [] => id
  | name :: names' =>
      let id := (id + 1)%Z in
      if String.eqb name model_name then id else model_id_loop names' model_name id
  end.
Definition getModelID (model_name : string) : SM Z :=
  s ← sched;
  let id := model_id_loop (_IDtoModelName s) model_name (-1) in
  _ ← massert (negb (id =? -1)%Z);
  mret id.

(** ** Devices *)
Definition makeEmptyNode (gpu_id resource_pntg : Z) (type : string) : SM NodePtr :=
  i ← gets w_indet;
  new_node (mkNode [] (indet_float i) fzero resource_pntg gpu_id false 0 type).

(** The loop over [_typeToNumofTypeTable]; [inr] is the [return] out of both
    loops. *)
Fixpoint initiate_type (n : nat) (gpu_type : string) (nDevs : Z)
    (st : list GPUPtr * Z) : SM ((list GPUPtr * Z) + list GPUPtr) :=
  match n with
  | O => mret (inl st)
  | S n' =>
      let '(gpus, idx) := st in
      i ← gets w_indet;
      new_gpu_ptr ← new_gpu (set_g_TYPE gpu_type (set_g_GPUID idx (raw_gpu i)));
      new_node_ptr ← makeEmptyNode idx 100 gpu_type;
      _ ← wr_gpu new_gpu_ptr (fun g => set_g_vNodeList (g_vNodeList g ++ [new_node_ptr]) g);
      let gpus := gpus ++ [new_gpu_ptr] in
      let idx := (idx + 1)%Z in
      if (nDevs <=? idx)%Z then mret (inr gpus)
      else initiate_type n' gpu_type nDevs (gpus, idx)
  end.

Definition initiateDevs (input : SimState) (nDevs : Z) : SM SimState :=
  s ← sched;
  r ← for_acc_ret (_typeToNumofTypeTable s) ([], 0%Z) (fun st type =>
        initiate_type (Z.to_nat type.2) type.1 nDevs st);
  let gpus := match r with inl st => st.1 | inr gpus => gpus end in
  mret (mkSimState gpus (parts input) (next_dummy_id input)).

Definition initDevMem (gpu_ptr : GPUPtr) (mem : Z) : SM unit :=
  wr_gpu gpu_ptr (fun g => set_g_used_memory 0 (set_g_TOTAL_MEMORY mem g)).

Definition perf_of (s : Sched) (device : string) : DevPerfModel :=
  default empty_dev_perf_model (_nametoDevPerfModelTable s !! device).

Fixpoint init_mems_type (n : nat) (type : string) (gpus : list GPUPtr) (idx : Z) :
    SM (Z + unit) :=
  match n with
  | O => mret (inl idx)
  | S n' =>
      s ← sched;
      gpu_ptr ← lift (at_index gpus idx);
      _ ← initDevMem gpu_ptr (getDevMem (perf_of s type));
      let idx := (idx + 1)%Z in
      if (Z.of_nat (length gpus) <=? idx)%Z then mret (inr tt)
      else init_mems_type n' type gpus idx
  end.

Definition initDevMems (input : SimState) : SM unit :=
  _ ← massert (negb (bool_decide (vGPUList input = [])));
  s ← sched;
  _ ← for_acc_ret (_typeToNumofTypeTable s) 0%Z (fun idx type =>
        init_mems_type (Z.to_nat type.2) type.1 (vGPUList input) idx);
  mret tt.

Definition returnNDev (mem_per_dev : list Z) (input : SimState) : nat :=
  if decide (length mem_per_dev = length (vGPUList input)) then length mem_per_dev
  else Nat.min (length mem_per_dev) (length (vGPUList input)).

Definition updateDevMemUsage (used_mem_per_dev : list Z) (input : SimState) : SM unit :=
  for_each (seq 0 (returnNDev used_mem_per_dev input)) (fun i =>
    gpu_ptr ← lift (deref (vGPUList input !! i));
    mem ← lift (deref (used_mem_per_dev !! i));
    wr_gpu gpu_ptr (set_g_used_memory mem)).

(** [setupAvailParts]: every non-zero part, and its complement to 100 unless
    it is there already. *)
Definition add_part (avail : list Z) (part : Z) : list Z :=
  let avail := if (part =? 0)%Z then avail else avail ++ [part] in
  let counter_part := i32 (100 - part) in
  if (counter_part =? 0)%Z then avail
  else if decide (counter_part ∈ avail) then avail else avail ++ [counter_part].

Definition setupAvailParts (input_parts : list Z) : SM unit :=
  _ ← massert (negb (bool_decide (input_parts = [])));
  mod_sched (set_availParts (std_sort (fun a b => b <? a)%Z (foldl add_part [] input_parts))).

(** [resetScheduler]: the GPU index restarts at 0 for every type. *)
Definition reset_gpu (type : string) (node_sizes : list Node) (idx : Z) : SM GPUPtr :=
  i ← gets w_indet;
  new_gpu_ptr ← new_gpu (set_g_TYPE type (set_g_GPUID idx (raw_gpu i)));
  let temp_nodes := filter (fun node => (n_id node - 1)%Z = idx) node_sizes in
  _ ← for_each temp_nodes (fun the_node =>
        new_node_ptr ← makeEmptyNode (n_id the_node - 1) (n_resource_pntg the_node) type;
        _ ← wr_node new_node_ptr (set_n_dedup_num (n_dedup_num the_node));
        wr_gpu new_gpu_ptr (fun g => set_g_vNodeList (g_vNodeList g ++ [new_node_ptr]) g));
  mret new_gpu_ptr.

Definition resetScheduler (input : SimState) (node_sizes : list Node) : SM SimState :=
  s ← sched;
  gpus ← for_acc (_typeToNumofTypeTable s) (vGPUList input) (fun gpus type =>
    for_acc (seq 0 (Z.to_nat type.2)) gpus (fun gpus j =>
      new_gpu_ptr ← reset_gpu type.1 node_sizes (Z.of_nat j);
      mret (gpus ++ [new_gpu_ptr])));
  mret (mkSimState gpus (parts input) (next_dummy_id input)).

(** ** Nodes *)
Definition same_node (a b : Node) : bool :=
  ((n_id a =? n_id b) && (n_resource_pntg a =? n_resource_pntg b)
   && (n_dedup_num a =? n_dedup_num b))%Z.

Definition isSameNode (a b : NodePtr) : SM bool :=
  na ← rd_node a; nb ← rd_node b; mret (same_node na nb).

(** The first node of the GPUs numbered like [the_node]'s that is not
    [the_node]; [None] is [EXIT_FAILURE]. *)
Definition getOtherNode (the_node : NodePtr) (sim : SimState) : SM (option NodePtr) :=
  for_ret (vGPUList sim) (fun gpu_ptr =>
    g ← rd_gpu gpu_ptr;
    n ← rd_node the_node;
    if (g_GPUID g =? n_id n)%Z then
      for_ret (g_vNodeList g) (fun node_ptr =>
        same ← isSameNode the_node node_ptr;
        mret (if (same : bool) then None else Some node_ptr))
    else mret None).

(** ** Latency *)
Definition is_224 (modelname : string) : bool :=
  (String.eqb modelname "resnet50" || String.eqb modelname "googlenet"
   || String.eqb modelname "vgg16" || String.eqb modelname "mnasnet1_0"
   || String.eqb modelname "mobilenet_v2" || String.eqb modelname "densenet161")%string.

Definition getBatchLatency (modelname : string) (batch : Z) : SM spec_float :=
  _ ← massert (1 <=? batch)%Z;
  s ← sched;
  ret_latency ←
    (if is_lenet modelname then mret (d2f (dlit 4 10))
     else if is_224 modelname then
       mret (d2f (dmul (dlit 19 10) (f2d (default fzero (_batch_latency_3_224_224 s !! batch)))))
     else if String.eqb modelname "ssd-mobilenetv1" then
       mret (d2f (dmul (dlit 25 10) (f2d (default fzero (_batch_latency_3_300_300 s !! batch)))))
     else if String.eqb modelname "bert" then mret (i2f 1)
     else fail (Exited 1));
  _ ← massert (fneqb ret_latency fzero);
  mret ret_latency.

(** A call on [_nametoDevPerfModelTable[device]]. *)
Definition perf {A} (device : string) (m : M DevPerfModel A) : SM A :=
  zoom (fun w => perf_of (w_sched w) device)
       (fun d w => set_w_sched
          (set_nametoDevPerfModelTable
             (<[device := d]> (_nametoDevPerfModelTable (w_sched w))) (w_sched w)) w) m.

(** [getLatency] without interference. *)
Definition getLatency_part (device : string) (model_num batch part : Z) : SM spec_float :=
  _ ← massert (negb (String.eqb device ""));
  _ ← massert ((1 <=? batch) && (batch <=? _MAX_BATCH))%Z;
  model ← getModelName model_num;
  latency ← perf device (dev_getLatency model batch part);
  s ← sched;
  latency ← (if _useBatchingOverhead s then
               overhead ← getBatchLatency model batch; mret (fadd latency overhead)
             else mret latency);
  mret (fmul latency (_latencyRatio s)).

(** [retAlpha > 1 ? retAlpha : 1.0] (on a [float] value the trip through
    [double] is the identity). *)
Definition at_least_one (x : spec_float) : spec_float := if gtb x (i2f 1) then x else i2f 1.

Definition getInterference_pair (device : string) (a_id b_id a_batch b_batch partition_a partition_b : Z) :
    SM spec_float :=
  _ ← massert (negb (String.eqb device ""));
  model_a ← getModelName a_id;
  model_b ← getModelName b_id;
  retAlpha ← perf device (dev_getInterference model_a a_batch partition_a model_b b_batch partition_b);
  mret (at_least_one retAlpha).

Definition getInterference (device : string) (model_id batch_size : Z) (node_ptr : NodePtr)
    (gpu_nodes : list NodePtr) : SM spec_float :=
  _ ← massert (negb (String.eqb device ""));
  for_acc gpu_nodes (i2f 1) (fun max_interference node =>
    same ← isSameNode node node_ptr;
    if (same : bool) then mret max_interference
    else
      n ← rd_node node;
      for_acc (n_vTaskList n) max_interference (fun max_interference tp =>
        task ← rd_task tp;
        self ← rd_node node_ptr;
        n ← rd_node node;
        interference ← getInterference_pair device model_id (t_id task) batch_size
                         (t_batch_size task) (n_resource_pntg self) (n_resource_pntg n);
        mret (if ltb max_interference interference then interference else max_interference))).

(** [getLatency] with interference.  [vGPUList.size() > self_node->id] compares
    unsigned, so a negative id is large. *)
Definition getLatency (device : string) (model_num batch : Z) (self_node : NodePtr)
    (input : SimState) : SM spec_float :=
  _ ← massert (negb (String.eqb device ""));
  _ ← massert (1 <=? batch)%Z;
  model ← getModelName model_num;
  self ← rd_node self_node;
  pure_latency ← perf device (dev_getLatency model batch (n_resource_pntg self));
  s ← sched;
  batch_overhead ← (if _useBatchingOverhead s then getBatchLatency model batch else mret fzero);
  interference_overhead ←
    (if _useInterference s && ((0 <=? n_id self) && (n_id self <? Z.of_nat (length (vGPUList input))))%Z
     then
       self_gpu ← lift (at_index (vGPUList input) (n_id self));
       g ← rd_gpu self_gpu;
       int_overhead ← getInterference device model_num batch self_node (g_vNodeList g);
       mret (d2f (dmul (f2d pure_latency) (dsub (f2d int_overhead) (i2d 1))))
     else mret fzero);
  mret (fmul (fadd (fadd pure_latency batch_overhead) interference_overhead) (_latencyRatio s)).

(** ** Memory state of a GPU *)
Definition loaded (parts : list MemNode) (n : Node) : bool :=
  existsb (fun m => (part m =? n_resource_pntg n) && (m_dedup_num m =? n_dedup_num n))%Z parts.

Definition isPartLoaded (gpu_ptr : GPUPtr) (node_ptr : NodePtr) : SM bool :=
  g ← rd_gpu gpu_ptr; n ← rd_node node_ptr; mret (loaded (g_vLoadedParts g) n).

Definition isModelLoaded (gpu_ptr : GPUPtr) (node_ptr : NodePtr) (model_id : Z) : SM bool :=
  part_loaded ← isPartLoaded gpu_ptr node_ptr;
  if negb (part_loaded : bool) then mret false
  else
    g ← rd_gpu gpu_ptr;
    for_acc (g_vNodeList g) false (fun (found : bool) np =>
      n' ← rd_node np;
      n ← rd_node node_ptr;
      if ((n_resource_pntg n' =? n_resource_pntg n) && (n_dedup_num n' =? n_dedup_num n))%Z then
        for_acc (n_vTaskList n') found (fun (found : bool) tp =>
          t ← rd_task tp; mret (if (t_id t =? model_id)%Z then true else found))
      else mret found).

(** ** Interference adjustment *)

(** [while(SLO < other_latency + latency + new_duty_cycle)]: shrink the batch;
    [None] is the [return EXIT_FAILURE] of batch size 0. *)
Definition res_shrink (type : string) (task : Task) (node_ptr : NodePtr) (simulator : SimState)
    (other_latency latency0 duty0 : spec_float) : SM (option (Z * spec_float)) :=
  loop (S (Z.to_nat (t_batch_size task))) (t_batch_size task, latency0, duty0)
    (fun '(new_batch_size, latency, new_duty_cycle) =>
      if ltb (i2f (t_SLO task)) (fadd (fadd other_latency latency) new_duty_cycle) then
        let new_batch_size := (new_batch_size - 1)%Z in
        if (new_batch_size =? 0)%Z then mret (inr None)
        else
          latency ← getLatency type (t_id task) new_batch_size node_ptr simulator;
          mret (inl (new_batch_size, latency,
                 fmul new_duty_cycle (fdiv (i2f new_batch_size) (i2f (t_batch_size task)))))
      else mret (inr (Some (new_batch_size, new_duty_cycle)))).

Definition sum_latency (node_ptr : NodePtr) (simulator : SimState) : SM spec_float :=
  n ← rd_node node_ptr;
  for_acc (n_vTaskList n) fzero (fun latency_sum tp =>
    t ← rd_task tp;
    latency ← getLatency (n_type n) (t_id t) (t_batch_size t) node_ptr simulator;
    mret (fadd latency_sum latency)).

Definition adjustResNode (node_ptr : NodePtr) (simulator : SimState) : SM bool :=
  latency_sum ← sum_latency node_ptr simulator;
  n ← rd_node node_ptr;
  good_to_go ← for_acc (n_vTaskList n) true (fun (good : bool) tp =>
    t ← rd_task tp;
    mret (if gtb (f2d (fadd latency_sum (n_duty_cycle n)))
                 (dmul (i2d (t_SLO t)) (dlit 105 100)) then false else good));
  if (good_to_go : bool) then mret EXIT_SUCCESS
  else
    r ← for_acc_ret (n_vTaskList n) [] (fun acc tp =>
      t ← rd_task tp;
      latency ← getLatency (n_type n) (t_id t) (t_batch_size t) node_ptr simulator;
      o ← res_shrink (n_type n) t node_ptr simulator (fsub latency_sum latency) latency
            (n_duty_cycle n);
      mret (match o with Some p => inl (acc ++ [p]) | None => inr tt end));
    match r with
    | inr _ => mret EXIT_FAILURE
    | inl new_sizes =>
        _ ← massert (1 <=? Z.of_nat (length new_sizes))%Z;
        min_duty_cycle ← lift (deref (head (std_sort ltb (map snd new_sizes))));
        latency_sum ← for_acc (zip (n_vTaskList n) (map fst new_sizes)) fzero
          (fun latency_sum '(tp, new_batch) =>
            _ ← wr_task tp (fun t => set_t_throughput
                  (fdiv (i2f (i32 (1000 * new_batch))) min_duty_cycle) (set_t_batch_size new_batch t));
            t ← rd_task tp;
            latency ← getLatency (n_type n) (t_id t) (t_batch_size t) node_ptr simulator;
            mret (fadd latency_sum latency));
        _ ← wr_node node_ptr (fun n => set_n_occupancy (fdiv latency_sum min_duty_cycle)
              (set_n_duty_cycle min_duty_cycle n));
        mret EXIT_SUCCESS
    end.

Definition postAdjustInterference (input : SimState) : SM bool :=
  r ← for_ret (vGPUList input) (fun gpu_ptr =>
    g ← rd_gpu gpu_ptr;
    for_ret (g_vNodeList g) (fun node_ptr =>
      failed ← adjustResNode node_ptr input;
      mret (if (failed : bool) then Some EXIT_FAILURE else None)));
  mret (default EXIT_SUCCESS r).

(** [int(a - b) > 0 ? int(a - b) : 0] *)
Definition lost_rate (org_throughput new_throughput : spec_float) : Z :=
  let d := f2i (fsub org_throughput new_throughput) in if (0 <? d)%Z then d else 0%Z.

Definition add_rate (task_to_update : TaskPtr) (d : Z) : SM unit :=
  wr_task task_to_update (fun t => set_t_additional_rate (i32 (t_additional_rate t + d)) t).

(** [while(SLO < 2*latency)] *)
Definition sat_shrink (type : string) (task : Task) (node_ptr : NodePtr) (simulator : SimState)
    (latency0 duty0 : spec_float) : SM (option (Z * spec_float)) :=
  loop (S (Z.to_nat (t_batch_size task))) (t_batch_size task, latency0, duty0)
    (fun '(new_batch_size, latency, new_duty_cycle) =>
      if ltb (i2f (t_SLO task)) (fmul (i2f 2) latency) then
        let new_batch_size := (new_batch_size - 1)%Z in
        if (new_batch_size =? 0)%Z then mret (inr None)
        else
          latency ← getLatency type (t_id task) new_batch_size node_ptr simulator;
          mret (inl (new_batch_size, latency, latency))
      else mret (inr (Some (new_batch_size, new_duty_cycle)))).

(** [task_to_update] may be the very task of the node (the second overload). *)
Definition adjustSatNode_task (node_ptr : NodePtr) (simulator : SimState) (task_to_update : TaskPtr) :
    SM bool :=
  n ← rd_node node_ptr;
  _ ← massert (geb (n_occupancy n) (i2f 1) && (Z.of_nat (length (n_vTaskList n)) =? 1)%Z);
  task_ptr ← lift (deref (head (n_vTaskList n)));
  t ← rd_task task_ptr;
  latency ← getLatency (n_type n) (t_id t) (t_batch_size t) node_ptr simulator;
  if ltb (fmul (i2f 2) latency) (i2f (t_SLO t)) then
    let org_throughput := t_throughput t in
    let new_throughput :=
      d2f (ddiv (dmul (i2d (t_batch_size t)) (i2d 1000)) (f2d latency)) in
    _ ← wr_task task_ptr (set_t_throughput new_throughput);
    _ ← add_rate task_to_update (lost_rate org_throughput new_throughput);
    mret EXIT_SUCCESS
  else
    _ ← getLatency_part (n_type n) (t_id t) (t_batch_size t) (n_resource_pntg n);
    o ← sat_shrink (n_type n) t node_ptr simulator latency (n_duty_cycle n);
    match o with
    | None => mret EXIT_FAILURE
    | Some (min_batch, min_duty_cycle) =>
        _ ← massert (fneqb min_duty_cycle fzero);
        _ ← massert (negb (min_batch =? 0)%Z);
        _ ← wr_task task_ptr (set_t_batch_size min_batch);
        _ ← wr_node node_ptr (set_n_duty_cycle min_duty_cycle);
        let org_throughput := t_throughput t in
        let new_throughput :=
          d2f (dmul (i2d min_batch) (ddiv (i2d 1000) (f2d min_duty_cycle))) in
        _ ← wr_task task_ptr (set_t_throughput new_throughput);
        _ ← add_rate task_to_update
              (if gtb org_throughput new_throughput
               then f2i (fsub org_throughput new_throughput) else 0%Z);
        mret EXIT_SUCCESS
    end.

Definition adjustSatNode (node_ptr : NodePtr) (simulator : SimState) : SM bool :=
  n ← rd_node node_ptr;
  task_ptr ← lift (deref (head (n_vTaskList n)));
  adjustSatNode_task node_ptr simulator task_ptr.

(** ** Reserved nodes *)
Definition add_reserved (gpu_ptr : GPUPtr) (resource_pntg : Z) (dedup_num : Z) : SM unit :=
  i ← gets w_indet;
  g ← rd_gpu gpu_ptr;
  new_node_ptr ← new_node (mkNode [] fzero (indet_float i) resource_pntg (g_GPUID g) true dedup_num "");
  wr_gpu gpu_ptr (fun g => set_g_vNodeList (g_vNodeList g ++ [new_node_ptr]) g).

(** In the third case the [dedup_num] of a half GPU is assigned to the local
    [new_node] instead of the shared node, whose member stays uninitialised. *)
Definition fillReservedNodes (input : SimState) : SM unit :=
  for_each (vGPUList input) (fun gpu_ptr =>
    g ← rd_gpu gpu_ptr;
    assigned_part ← for_acc (g_vNodeList g) 0%Z (fun assigned_part np =>
      n ← rd_node np;
      mret (if decide (n_vTaskList n = []) then assigned_part
            else i32 (assigned_part + n_resource_pntg n)));
    let part_num := Z.of_nat (length (g_vNodeList g)) in
    s ← sched;
    i ← gets w_indet;
    if (assigned_part =? 0)%Z then
      if _usePart s then _ ← add_reserved gpu_ptr 50 0; add_reserved gpu_ptr 50 1
      else add_reserved gpu_ptr 100 0
    else if ((0 <? assigned_part) && (assigned_part <? 100) && (part_num <? 2))%Z then
      let pntg := i32 (100 - assigned_part) in
      add_reserved gpu_ptr pntg (if (pntg =? 50)%Z then indet_int i else 0%Z)
    else mret tt).

(** ** The largest admissible batch size *)

(** The latency test of one candidate batch size. *)
Definition batch_fits (is_residue : bool) (SLO req mid_batch : Z) (latency : spec_float) : bool :=
  if is_residue then
    leb (fadd latency (fdiv (fmul (i2f 1000) (i2f mid_batch)) (i2f req))) (i2f SLO)
  else leb (fmul (i2f 2) latency) (i2f SLO).

(** One round of the binary search on [(low_batch, high_batch, check_last)],
    given the answer of the latency test for [mid_batch]; [inr] is the result. *)
Definition search_round (fits : bool) (mid_batch low_batch high_batch : Z) (check_last : bool) :
    (Z * Z * bool) + Z :=
  if negb fits && check_last then inr 0%Z
  else
    let low_batch := if fits then mid_batch else low_batch in
    let high_batch := if fits then high_batch else mid_batch in
    let high_batch := if (high_batch - low_batch <=? 1)%Z then low_batch else high_batch in
    if ((high_batch =? low_batch) && (negb (low_batch =? 1) || check_last))%Z then inr low_batch
    else inl (low_batch, high_batch, check_last).

(** Six halvings reach [high - low <= 1] from 31, one more round checks batch
    size 1; [SEARCH_FUEL] rounds are enough ([batch_search_total]). *)
Definition SEARCH_FUEL : nat := 16.

Definition batch_search (latency_at : Z -> SM spec_float) (fits : Z -> spec_float -> bool) : SM Z :=
  loop SEARCH_FUEL (1%Z, _MAX_BATCH, false) (fun '(low_batch, high_batch, check_last) =>
    let check_last :=
      if ((low_batch =? 1) && (high_batch =? 1))%Z then true else check_last in
    let mid_batch := Z.quot (high_batch + low_batch) 2 in
    latency ← latency_at mid_batch;
    mret (search_round (fits mid_batch latency) mid_batch low_batch high_batch check_last)).

(** The second component is the value [req] is left with. *)
Definition getMaxBatch (self_task : Task) (self_node : NodePtr) (input : SimState) (req : Z)
    (is_residue interference : bool) : SM (Z * Z) :=
  let model_num := t_id self_task in
  let SLO := t_SLO self_task in
  ret_batch ← batch_search
    (fun mid_batch =>
      n ← rd_node self_node;
      if interference then getLatency (n_type n) model_num mid_batch self_node input
      else getLatency_part (n_type n) model_num mid_batch (n_resource_pntg n))
    (batch_fits is_residue SLO req);
  if ((ret_batch =? 0)%Z && is_residue) then
    n ← rd_node self_node;
    b1_latency ← getLatency (n_type n) model_num 1 self_node input;
    s ← sched;
    if ltb (f2d b1_latency) (ddiv (dmul (i2d 1000) (i2d 1)) (i2d req))
       && ltb b1_latency (i2f SLO)
    then mret (1%Z, f2i (fmul (fmul (i2f 1) (fdiv (i2f 1000) (fsub (i2f SLO) b1_latency)))
                           (_latencyRatio s)))
    else mret (0%Z, req)
  else mret (ret_batch, req).

(** ** Task files and the Poisson head-room ([ADD_RATE]) *)
Section Rates.
(** [exp(-mean)], from the C library. *)
Context (exp_neg : Z -> spec_float).

Definition calcPoissProb (actual mean : Z) : spec_float :=
  fold_left (fun t1 i => ddiv (dmul t1 (i2d mean)) (i2d (Z.of_nat i + 1)))
    (seq 0 (Z.to_nat actual)) (exp_neg mean).

(** The [do]-[while] loop; [fuel] rounds at most. *)
Fixpoint poiss_loop (fuel : nat) (mean new_mean : Z) (prob_sum : spec_float) : outcome Z :=
  match fuel with
  | O => Stop OutOfFuel
  | S fuel' =>
      let prob_sum := dadd prob_sum (calcPoissProb new_mean mean) in
      let new_mean := (new_mean + 1)%Z in
      if ltb prob_sum (dlit 99 100) then poiss_loop fuel' mean new_mean prob_sum
      else Done new_mean
  end.

Definition return99P (fuel : nat) (mean : Z) : outcome Z :=
  if (550 <? mean)%Z then Done (f2i (dmul (i2d mean) (dlit 11 10)))
  else poiss_loop fuel mean 1 (i2d 0).

(** [setupTasks]: [num_of_task] rows [id,rate,SLO]; [text] is the file. *)
Fixpoint read_tasks (n : nat) (fuel : nat) (i : Indet) (text : option string) (str_buf : string) :
    outcome (list Task) :=
  match n with
  | O => mret []
  | S n' =>
      let '(str_buf, text) := getline text str_buf in
      id ← stoi str_buf;
      let '(str_buf, text) := getline text str_buf in
      rate ← stoi str_buf;
      rate ← return99P fuel rate;
      let '(str_buf, text) := getline text str_buf in
      slo ← stoi str_buf;
      rest ← read_tasks n' fuel i text str_buf;
      mret (set_t_SLO slo (set_t_request_rate rate (set_t_id id (raw_task i))) :: rest)
  end.

Definition setupTasks (fuel : nat) (i : Indet) (text : option string) (task_list : list Task) :
    outcome (list Task) :=
  let '(str_buf, text) :=
    match text with None => (""%string, None) | Some s => span_delim NEWLINE s end in
  num_of_task ← stoi str_buf;
  tasks ← read_tasks (Z.to_nat num_of_task) fuel i text str_buf;
  mret (task_list ++ tasks).
End Rates.

(** ** Batching-overhead tables *)
Fixpoint read_batch_table (n : nat) (text : option string) (str_buf : string)
    (table : gmap Z spec_float) : outcome (gmap Z spec_float) :=
  match n with
  | O => mret table
  | S n' =>
      let '(str_buf, text) := getline text str_buf in
      batch ← stoi str_buf;
      let '(str_buf, text) := getline text str_buf in
      latency ← stof str_buf;
      read_batch_table n' text str_buf (<[batch := latency]> table)
  end.

(** [s.find(pat) != npos] *)
Fixpoint contains (pat s : string) : bool :=
  String.prefix pat s || match s with EmptyString => false | String _ s' => contains pat s' end.

Definition setupBatchLatencyTables (files : string -> option string)
    (batch_filenames : list string) : SM unit :=
  for_each batch_filenames (fun it =>
    s ← sched;
    '(table, store) ←
      (if contains "1_28_28.txt" it then
         mret (_batch_latency_1_28_28 s, set_batch_latency_1_28_28)
       else if contains "3_300_300.txt" it then
         mret (_batch_latency_3_300_300 s, set_batch_latency_3_300_300)
       else if contains "3_224_224.txt" it then
         mret (_batch_latency_3_224_224 s, set_batch_latency_3_224_224)
       else fail (Exited 1));
    match files it with
    | None => fail (Exited 1)
    | Some text =>
        table ← lift (read_batch_table (Z.to_nat _MAX_BATCH) (Some text) "" table);
        mod_sched (store table)
    end).
