(* ===== verification/Json.v ===== *)
(** * JSON values ([common/jsoncpp.cpp], class [Json::Value]): the accessors the
    set-up code calls.

    A value is what [parseFromStream] returns ([JsonReader]).
    The accessors throw [Json::LogicError] on a value of the wrong type, and no
    caller catches it ([Uncaught]).  The non-const [operator[]] inserts a null
    element when the key is absent; the set-up code reads every key with one
    type, asks [isMember] only for keys it has not read before and never looks
    at the document as a whole, so an inserted null is never told from an absent
    one and the reads are functions. *)
From Stdlib Require Import ZArith SpecFloat Ascii String Lia.
From S2P Require Import Prelude CppFloat CppStd.

(** [JInt] stands for [intValue] and [uintValue]; the members of an object are
    in the order of their keys. *)
Inductive Value : Type :=
| JNull
| JInt (z : Z)
| JReal (d : float64)
| JString (s : string)
| JBool (b : bool)
| JArray (elems : list Value)
| JObject (members : list (string * Value)).

Definition minInt : Z := INT_MIN.
Definition maxInt : Z := INT_MAX.

(** ** Conversions *)
Definition InRange (d : float64) (min max : Z) : bool :=
  geb d (i2d min) && leb d (i2d max).

Definition asInt (v : Value) : outcome Z :=
  match v with
  | JInt z => if ((minInt <=? z) && (z <=? maxInt))%Z then Done z else Stop Uncaught
  | JReal d => if InRange d minInt maxInt then Done (f2i d) else Stop Uncaught
  | JNull => Done 0%Z
  | JBool b => Done (if b then 1%Z else 0%Z)
  | _ => Stop Uncaught
  end.

Definition asFloat (v : Value) : outcome float32 :=
  match v with
  | JInt z => Done (i2f z)
  | JReal d => Done (d2f d)
  | JNull => Done fzero
  | JBool b => Done (if b then i2f 1 else fzero)
  | _ => Stop Uncaught
  end.

Definition asBool (v : Value) : outcome bool :=
  match v with
  | JBool b => Done b
  | JNull => Done false
  | JInt z => Done (negb (z =? 0)%Z)
  | JReal d => Done (match d with S754_zero _ | S754_nan => false | _ => true end)
  | _ => Stop Uncaught
  end.

(** *** Numbers as text *)
Definition digit_char (d : Z) : ascii := ascii_of_nat (48 + Z.to_nat d).
Fixpoint dec_digits (fuel : nat) (z : Z) (acc : string) : string :=
  match fuel with
  | O => acc
  | S fuel' =>
      let acc := String (digit_char (z mod 10)) acc in
      if (z <? 10)%Z then acc else dec_digits fuel' (z / 10) acc
  end.
(** The digits of [z >= 0]; [z] has no more decimal than binary digits. *)
Definition nat_text (z : Z) : string := dec_digits (S (Z.to_nat (Z.log2 z))) z "".
Definition int_text (z : Z) : string :=
  if (z <? 0)%Z then String "-" (nat_text (- z)) else nat_text z.

(** [n / d] rounded to the nearest integer, ties to even. *)
Definition round_div (n d : Z) : Z :=
  let q := (n / d)%Z in let r := (n mod d)%Z in
  if (2 * r <? d)%Z then q else if (d <? 2 * r)%Z then (q + 1)%Z
  else if Z.even q then q else (q + 1)%Z.
(** [n / d * 10^k], rounded. *)
Definition scaled (n d k : Z) : Z :=
  if (0 <=? k)%Z then round_div (n * 10 ^ k) d else round_div n (d * 10 ^ (- k)).

(** The decimal exponent of [n / d]: the largest [x] with [10^x <= n / d],
    counted down from [x]. *)
Fixpoint dec_exponent (fuel : nat) (n d x : Z) : Z :=
  match fuel with
  | O => x
  | S fuel' =>
      let below := if (0 <=? x)%Z then (d * 10 ^ x <=? n)%Z else (d <=? n * 10 ^ (- x))%Z in
      if below then x else dec_exponent fuel' n d (x - 1)
  end.

Fixpoint strip_zeros (fuel : nat) (m digits : Z) : Z * Z :=
  match fuel with
  | O => (m, digits)
  | S fuel' =>
      if (1 <? digits)%Z && (m mod 10 =? 0)%Z then strip_zeros fuel' (m / 10) (digits - 1)
      else (m, digits)
  end.

Definition zeros (n : Z) : string := String.concat "" (repeat "0"%string (Z.to_nat n)).
Fixpoint split_at (n : nat) (s : string) : string * string :=
  match n, s with
  | S n', String c s' => let '(a, b) := split_at n' s' in (String c a, b)
  | _, _ => ("", s)%string
  end.

(** ["%.17g"] of a positive [n / d]. *)
Definition g17 (n d : Z) : string :=
  let x := dec_exponent 700 n d 310 in
  let m := scaled n d (16 - x) in
  let '(m, x) := if (m =? 10 ^ 17)%Z then ((10 ^ 16)%Z, (x + 1)%Z) else (m, x) in
  let '(m, digits) := strip_zeros 17 m 17 in
  let text := nat_text m in
  (if ((x <? -4) || (17 <=? x))%Z then
     let '(a, b) := split_at 1 text in
     let e := Z.abs x in
     a +:+ (if String.eqb b "" then "" else "." +:+ b)
       +:+ (if (x <? 0)%Z then "e-" else "e+") +:+ (if (e <? 10)%Z then "0" else "") +:+ nat_text e
   else if (x <? 0)%Z then "0." +:+ zeros (- x - 1) +:+ text
   else if (digits <=? x + 1)%Z then text +:+ zeros (x + 1 - digits)
   else let '(a, b) := split_at (Z.to_nat (x + 1)) text in a +:+ "." +:+ b)%string.

Fixpoint has_char (p : ascii -> bool) (s : string) : bool :=
  match s with EmptyString => false | String c s' => p c || has_char p s' end.

Definition real_text (v : float64) : string :=
  (match v with
   | S754_nan => "null"
   | S754_infinity s => if s then "-1e+9999" else "1e+9999"
   | S754_zero s => if s then "-0.0" else "0.0"
   | S754_finite s m e =>
       let text := g17 (if (0 <=? e)%Z then Zpos m * 2 ^ e else Zpos m)%Z
                       (if (0 <=? e)%Z then 1 else 2 ^ (- e))%Z in
       let text := if s then "-" +:+ text else text in
       if has_char (fun c => Ascii.eqb c "." || Ascii.eqb c "e")%char text then text
       else text +:+ ".0"
   end)%string.

Definition asString (v : Value) : outcome string :=
  match v with
  | JNull => Done ""%string
  | JString s => Done s
  | JBool b => Done (if b then "true" else "false")%string
  | JInt z => Done (int_text z)
  | JReal d => Done (real_text d)
  | JArray _ | JObject _ => Stop Uncaught
  end.

Definition asCString (v : Value) : outcome string :=
  match v with JString s => Done s | _ => Stop Uncaught end.

(** ** Elements *)
Definition size (v : Value) : nat :=
  match v with
  | JArray l => length l
  | JObject m => length m
  | _ => O
  end.

(** [v[i]] *)
Definition element (v : Value) (index : nat) : outcome Value :=
  match v with
  | JNull => Done JNull
  | JArray l => Done (default JNull (l !! index))
  | _ => Stop Uncaught
  end.

(** [v["key"]] *)
Definition member (v : Value) (key : string) : outcome Value :=
  match v with
  | JNull => Done JNull
  | JObject m => Done (default JNull (om_find key m))
  | _ => Stop Uncaught
  end.

Definition isMember (v : Value) (key : string) : outcome bool :=
  match v with
  | JNull => Done false
  | JObject m => Done (match om_find key m with Some _ => true | None => false end)
  | _ => Stop Uncaught
  end.

(** What [for (auto x : v)] visits. *)
Definition elements (v : Value) : list Value :=
  match v with
  | JArray l => l
  | JObject m => map snd m
  | _ => []
  end.

Example asString_real : asString (JReal (dlit 1 10)) = Done "0.10000000000000001"%string.
Proof. vm_compute. reflexivity. Qed.
Example asString_whole : asString (JReal (i2d (-3))) = Done "-3.0"%string.
Proof. vm_compute. reflexivity. Qed.
Example asString_big : asString (JReal (i2d (10 ^ 22))) = Done "1e+22"%string.
Proof. vm_compute. reflexivity. Qed.
Example asString_small : asString (JReal (dlit 1 100000)) = Done "1.0000000000000001e-05"%string.
Proof. vm_compute. reflexivity. Qed.

(** ** Vectors of integers: [for (i < v.size()) out.push_back(v[i].asInt())] *)
Definition int_elements (v : Value) : outcome (list Z) :=
  foldr (fun i acc => e ← element v i; z ← asInt e; zs ← acc; mret (z :: zs))
    (mret []) (seq 0 (size v)).

(** Reading an array visits its elements. *)
Lemma array_reads {A} (f : Value -> outcome A) (pre l : list Value) :
  foldr (fun i acc => e ← element (JArray (pre ++ l)) i; a ← f e; r ← acc; mret (a :: r))
    (mret []) (seq (length pre) (length l)) =
  foldr (fun e acc => a ← f e; r ← acc; mret (a :: r)) (mret []) l.
Proof.
  revert pre. induction l as [|x l IH]; intros pre; [done|]. cbn [length seq foldr].
  change (element (JArray (pre ++ x :: l)) (length pre))
    with (Done (default JNull ((pre ++ x :: l) !! length pre))).
  rewrite list_lookup_middle by done.
  replace (Datatypes.S (length pre)) with (length (pre ++ [x])) by (rewrite length_app; cbn; lia).
  replace (pre ++ x :: l) with ((pre ++ [x]) ++ l) by (by rewrite <- app_assoc).
  by rewrite IH.
Qed.

Lemma int_elements_array l :
  int_elements (JArray l) = foldr (fun e acc => z ← asInt e; zs ← acc; mret (z :: zs)) (mret []) l.
Proof. exact (array_reads asInt [] l). Qed.

Lemma int_elements_ints zs :
  Forall in_i32 zs -> int_elements (JArray (map JInt zs)) = Done zs.
Proof.
  rewrite int_elements_array. induction 1 as [|z zs Hz Hzs IH]; [done|]. cbn [map foldr].
  rewrite IH. cbn [asInt]. unfold in_i32 in Hz. unfold minInt, maxInt.
  rewrite !(proj2 (Z.leb_le _ _)) by lia. done.
Qed.
