(* ===== verification/JsonReader.v ===== *)
(** * The parser of JSON text ([common/jsoncpp.cpp], class [Json::OurReader], and
    [parseFromStream]), which reads every configuration file.

    A pointer into the document ([Location]) is the text from there to the end.
    The value under construction ([nodes_]) is passed down and returned; the
    comments of a value are not kept, but collecting them can throw and is
    modelled.  Fuel counts characters: every token but the last takes one. *)
From Stdlib Require Import ZArith SpecFloat Ascii String Lia.
From S2P Require Import Prelude CppFloat CppStd Json.

Definition NUL : ascii := "000"%char.
Definition DQUOTE : ascii := "034"%char.
Definition SQUOTE : ascii := "039"%char.
Definition BACKSLASH : ascii := "092"%char.
Definition CR : ascii := "013"%char.
Definition TAB : ascii := "009"%char.
Definition one (c : ascii) : string := String c EmptyString.

Record OurFeatures : Type := mkFeatures {
  allowComments_ : bool; allowTrailingCommas_ : bool; strictRoot_ : bool;
  allowDroppedNullPlaceholders_ : bool; allowNumericKeys_ : bool; allowSingleQuotes_ : bool;
  failIfExtra_ : bool; rejectDupKeys_ : bool; allowSpecialFloats_ : bool; stackLimit_ : nat }.
(** [CharReaderBuilder::setDefaults], [strictMode]; comments are collected by
    default. *)
Definition setDefaults : OurFeatures := mkFeatures true true false false false false false false false 1000.
Definition strictMode : OurFeatures := mkFeatures false false true false false false true true false 1000.

Inductive TokenType : Type :=
| tokenEndOfStream | tokenObjectBegin | tokenObjectEnd | tokenArrayBegin | tokenArrayEnd | tokenString
| tokenNumber | tokenTrue | tokenFalse | tokenNull | tokenNaN | tokenPosInf | tokenNegInf
| tokenArraySeparator | tokenMemberSeparator | tokenComment | tokenError.
#[global] Instance TokenType_eq_dec : EqDecision TokenType.
Proof. solve_decision. Defined.
Definition Location : Type := string.
Record Token : Type := mkToken { type_ : TokenType; start_ : Location; end_ : Location }.
Record ErrorInfo : Type := mkError { token_ : Token; message_ : string; extra_ : option Location }.

Record Reader : Type := mkReader {
  current_ : Location; errors_ : list ErrorInfo; commentsBefore_ : string;
  lastValueEnd_ : option Location; lastValueHasAComment_ : bool }.
Definition set_current (x : Location) (r : Reader) : Reader :=
  mkReader x (errors_ r) (commentsBefore_ r) (lastValueEnd_ r) (lastValueHasAComment_ r).
Definition set_errors (x : list ErrorInfo) (r : Reader) : Reader :=
  mkReader (current_ r) x (commentsBefore_ r) (lastValueEnd_ r) (lastValueHasAComment_ r).
Definition set_commentsBefore (x : string) (r : Reader) : Reader :=
  mkReader (current_ r) (errors_ r) x (lastValueEnd_ r) (lastValueHasAComment_ r).
Definition set_lastValueEnd (x : option Location) (r : Reader) : Reader :=
  mkReader (current_ r) (errors_ r) (commentsBefore_ r) x (lastValueHasAComment_ r).
Definition set_lastValueHasAComment (x : bool) (r : Reader) : Reader :=
  mkReader (current_ r) (errors_ r) (commentsBefore_ r) (lastValueEnd_ r) x.

(** ** Texts *)
(** [String(begin, end)] *)
Definition text_between (begin end_ : Location) : string :=
  substring 0 (String.length begin - String.length end_) begin.
Definition token_text (t : Token) : string := text_between (start_ t) (end_ t).

Fixpoint containsNewLine_in (s : string) : bool :=
  match s with
  | EmptyString => false
  | String c s' => Ascii.eqb c NEWLINE || Ascii.eqb c CR || containsNewLine_in s'
  end.
Definition containsNewLine (begin end_ : Location) : bool := containsNewLine_in (text_between begin end_).

(** [after_cr]: the last character was a carriage return. *)
Fixpoint normalize (after_cr : bool) (s : string) : string :=
  match s with
  | EmptyString => EmptyString
  | String c s' =>
      if Ascii.eqb c CR then String NEWLINE (normalize true s')
      else if after_cr && Ascii.eqb c NEWLINE then normalize false s'
      else String c (normalize false s')
  end.
Definition normalizeEOL (begin end_ : Location) : string := normalize false (text_between begin end_).

Fixpoint last_char (s : string) : option ascii :=
  match s with EmptyString => None | String c EmptyString => Some c | String _ s' => last_char s' end.
Definition drop_last (s : string) : string := substring 0 (String.length s - 1) s.
(** [Value::setComment] throws unless a comment starts with a slash. *)
Definition setComment (comment : string) : outcome unit :=
  let comment := match last_char comment with
                 | Some c => if Ascii.eqb c NEWLINE then drop_last comment else comment
                 | None => comment
                 end in
  match comment with
  | EmptyString => Stop Uncaught
  | String c _ => if Ascii.eqb c NUL || Ascii.eqb c "/"%char then Done tt else Stop Uncaught
  end.

(** [codePointToUTF8] *)
Definition utf8_byte (z : Z) : ascii := ascii_of_nat (Z.to_nat z).
Definition tail_byte (z : Z) : ascii := utf8_byte (Z.lor 128 (Z.land 63 z)).
Definition codePointToUTF8 (cp : Z) : string :=
  if (cp <=? 127)%Z then one (utf8_byte cp)
  else if (cp <=? 2047)%Z then
    String (utf8_byte (Z.lor 192 (Z.land 31 (Z.shiftr cp 6)))) (one (tail_byte cp))
  else if (cp <=? 65535)%Z then
    String (utf8_byte (Z.lor 224 (Z.land 15 (Z.shiftr cp 12))))
      (String (tail_byte (Z.shiftr cp 6)) (one (tail_byte cp)))
  else if (cp <=? 1114111)%Z then
    String (utf8_byte (Z.lor 240 (Z.land 7 (Z.shiftr cp 18))))
      (String (tail_byte (Z.shiftr cp 12)) (String (tail_byte (Z.shiftr cp 6)) (one (tail_byte cp))))
  else EmptyString.

(** ** Numbers *)
Fixpoint skip_digits (s : string) : string :=
  match s with
  | String c s' => match digit_of c with Some _ => skip_digits s' | None => s end
  | EmptyString => s
  end.
Definition skip_char (p : ascii -> bool) (s : string) : string :=
  match s with String c s' => if p c then s' else s | EmptyString => s end.
Definition is_sign (c : ascii) : bool := Ascii.eqb c "+"%char || Ascii.eqb c "-"%char.
Definition is_exp (c : ascii) : bool := Ascii.eqb c "e"%char || Ascii.eqb c "E"%char.

(** Where a number ends. *)
Definition skip_fraction (s : string) : string :=
  match s with
  | String c s' => if Ascii.eqb c "."%char then skip_digits s' else s
  | EmptyString => s
  end.
Definition skip_exponent (s : string) : string :=
  match s with
  | String c s' => if is_exp c then skip_digits (skip_char is_sign s') else s
  | EmptyString => s
  end.
Definition number_end (s : string) : string := skip_exponent (skip_fraction (skip_digits s)).

(** The digits of an integer of 64 bits; [None] is read as a [double]. *)
Fixpoint int_digits (threshold max_last_digit : Z) (s : string) (value : Z) : option Z :=
  match s with
  | EmptyString => Some value
  | String c s' =>
      match digit_of c with
      | None => None
      | Some digit =>
          if ((threshold <=? value) &&
              ((threshold <? value) || negb (String.eqb s' "") || (max_last_digit <? digit)))%Z
          then None else int_digits threshold max_last_digit s' (value * 10 + digit)
      end
  end.
Definition decode_int (text : string) : option Z :=
  match text with
  | String c s =>
      if Ascii.eqb c "-"%char then
        v ← int_digits 922337203685477580 8 s 0;
        Some (- (v / 10) * 10 - v mod 10)%Z
      else int_digits 1844674407370955161 5 text 0
  | EmptyString => Some 0%Z
  end.

(** [is >> value] of a [double] on the whole text; a mantissa or an exponent
    without digits and an overflow fail. *)
Definition read_fraction (ip : Z) (s : string) : Z * Z * string :=
  match s with
  | String c s' => if Ascii.eqb c "."%char then read_digits s' ip 0 else (ip, 0%Z, s)
  | EmptyString => (ip, 0%Z, s)
  end.
Definition read_power (s : string) : option Z :=
  match s with
  | EmptyString => Some 0%Z
  | String c s1 =>
      if is_exp c then
        let '(neg, s2) := read_sign s1 in
        let '(v, n, s3) := read_digits s2 0 0 in
        if (n =? 0)%Z || negb (String.eqb s3 "") then None
        else Some (if neg then - v else v)%Z
      else None
  end.
Definition read_double (text : string) : option float64 :=
  let '(neg, s1) := read_sign text in
  let '(ip, n1, s2) := read_digits s1 0 0 in
  let '(v, n2, s3) := read_fraction ip s2 in
  if (n1 + n2 =? 0)%Z then None
  else
    e ← read_power s3;
    match decimal dprec demax neg v (n2 - e) with
    | S754_infinity _ => None
    | x => Some x
    end.

(** ** Tokens *)
Section Reader.
Context (features_ : OurFeatures) (collectComments_ : bool).
Local Abbreviation RM := (M Reader).

Definition getNextChar : RM ascii :=
  r ← get;
  match current_ r with
  | EmptyString => mret NUL
  | String c s => _ ← put (set_current s r); mret c
  end.

Definition is_blank (c : ascii) : bool :=
  Ascii.eqb c " "%char || Ascii.eqb c TAB || Ascii.eqb c CR || Ascii.eqb c NEWLINE.
Fixpoint skip_blanks (s : string) : string :=
  match s with String c s' => if is_blank c then skip_blanks s' else s | EmptyString => s end.
Definition skipSpaces : RM unit := modify (fun r => set_current (skip_blanks (current_ r)) r).

Fixpoint drop_prefix (pattern s : string) : option string :=
  match pattern, s with
  | EmptyString, _ => Some s
  | String p pattern', String c s' => if Ascii.eqb p c then drop_prefix pattern' s' else None
  | String _ _, EmptyString => None
  end.
(** [match] *)
Definition match_ (pattern : string) : RM bool :=
  r ← get;
  match drop_prefix pattern (current_ r) with
  | Some s => _ ← put (set_current s r); mret true
  | None => mret false
  end.

(** [readString], [readStringSingleQuote]: whether the closing quote was found. *)
Fixpoint string_end (quote : ascii) (s : string) : bool * string :=
  match s with
  | EmptyString => (false, s)
  | String c s' =>
      if Ascii.eqb c BACKSLASH then
        match s' with EmptyString => (false, s') | String _ s'' => string_end quote s'' end
      else if Ascii.eqb c quote then (true, s') else string_end quote s'
  end.
Definition readString (quote : ascii) : RM bool :=
  r ← get;
  let '(ok, s) := string_end quote (current_ r) in
  _ ← put (set_current s r); mret ok.

Definition readNumber (checkInf : bool) : RM bool :=
  r ← get;
  match current_ r with
  | String c s =>
      if checkInf && Ascii.eqb c "I"%char then _ ← put (set_current s r); mret false
      else _ ← put (set_current (number_end (current_ r)) r); mret true
  | EmptyString => mret true
  end.

(** *** Comments: a newline in it, and the text where the loop ends. *)
Fixpoint c_comment_end (s : string) (newline : bool) : bool * string :=
  match s with
  | String c s' =>
      match s' with
      | String d _ =>
          if Ascii.eqb c "*"%char && Ascii.eqb d "/"%char then (newline, s')
          else c_comment_end s' (newline || Ascii.eqb c NEWLINE)
      | EmptyString => (newline, s)
      end
  | EmptyString => (newline, s)
  end.
Definition readCStyleComment : RM (bool * bool) :=
  r ← get;
  let '(newline, s) := c_comment_end (current_ r) false in
  _ ← put (set_current s r);
  c ← getNextChar;
  mret (Ascii.eqb c "/"%char, newline).
Fixpoint cpp_comment_end (s : string) : string :=
  match s with
  | EmptyString => s
  | String c s' =>
      if Ascii.eqb c NEWLINE then s'
      else if Ascii.eqb c CR then skip_char (fun d => Ascii.eqb d NEWLINE) s'
      else cpp_comment_end s'
  end.
Definition readCppStyleComment : RM bool :=
  r ← get; _ ← put (set_current (cpp_comment_end (current_ r)) r); mret true.

Definition addComment (begin end_ : Location) (same_line : bool) : RM unit :=
  let normalized := normalizeEOL begin end_ in
  if same_line then lift (setComment normalized)
  else modify (fun r => set_commentsBefore (commentsBefore_ r +:+ normalized)%string r).

(** A comment after a value stays with the value when it is on its line. *)
Definition place_comment (commentBegin : Location) (one_line : bool) : RM unit :=
  r ← get;
  let same_line :=
    negb (lastValueHasAComment_ r) &&
    match lastValueEnd_ r with
    | Some e => negb (containsNewLine e commentBegin) && one_line
    | None => false
    end in
  _ ← when same_line (modify (set_lastValueHasAComment true));
  addComment commentBegin (current_ r) same_line.
Definition readComment (commentBegin : Location) : RM bool :=
  c ← getNextChar;
  let isCStyleComment := Ascii.eqb c "*"%char in
  let isCppStyleComment := Ascii.eqb c "/"%char in
  '(successful, newline) ←
    (if isCStyleComment then readCStyleComment
     else if isCppStyleComment then ok ← readCppStyleComment; mret (ok, false)
     else mret (false, false));
  if negb successful then mret false
  else
    _ ← when collectComments_ (place_comment commentBegin (isCppStyleComment || negb newline));
    mret true.

(** The token that starts with [c] at [start]. *)
Definition read_from (start : Location) (c : ascii) : RM (bool * TokenType) :=
  let is_ (d : ascii) := Ascii.eqb c d in
  let special (t : TokenType) (s : string) : RM (bool * TokenType) :=
    if allowSpecialFloats_ features_ then ok ← match_ s; mret (ok, t) else mret (false, t) in
  if is_ "{"%char then mret (true, tokenObjectBegin)
  else if is_ "}"%char then mret (true, tokenObjectEnd)
  else if is_ "["%char then mret (true, tokenArrayBegin)
  else if is_ "]"%char then mret (true, tokenArrayEnd)
  else if is_ DQUOTE then ok ← readString DQUOTE; mret (ok, tokenString)
  else if is_ SQUOTE && allowSingleQuotes_ features_ then ok ← readString SQUOTE; mret (ok, tokenString)
  else if is_ SQUOTE || is_ "/"%char then ok ← readComment start; mret (ok, tokenComment)
  else if (match digit_of c with Some _ => true | None => false end) then
    _ ← readNumber false; mret (true, tokenNumber)
  else if is_ "-"%char then
    number ← readNumber true;
    if (number : bool) then mret (true, tokenNumber) else special tokenNegInf "nfinity"%string
  else if is_ "+"%char then
    number ← readNumber true;
    if (number : bool) then mret (true, tokenNumber) else special tokenPosInf "nfinity"%string
  else if is_ "t"%char then ok ← match_ "rue"; mret (ok, tokenTrue)
  else if is_ "f"%char then ok ← match_ "alse"; mret (ok, tokenFalse)
  else if is_ "n"%char then ok ← match_ "ull"; mret (ok, tokenNull)
  else if is_ "N"%char then special tokenNaN "aN"%string
  else if is_ "I"%char then special tokenPosInf "nfinity"%string
  else if is_ ","%char then mret (true, tokenArraySeparator)
  else if is_ ":"%char then mret (true, tokenMemberSeparator)
  else if is_ NUL then mret (true, tokenEndOfStream)
  else mret (false, tokenError).
Definition readToken : RM (bool * Token) :=
  _ ← skipSpaces;
  r ← get;
  let start := current_ r in
  c ← getNextChar;
  '(ok, ty) ← read_from start c;
  r' ← get;
  mret (ok, mkToken (if (ok : bool) then ty else tokenError) start (current_ r')).

(** A loop that reads tokens while [again] holds of the last one. *)
Definition tokens_while (fuel : nat) (again : bool * Token -> bool) (first : bool * Token) : RM (bool * Token) :=
  loop fuel first (fun t => if again t then t' ← readToken; mret (inl t') else mret (inr t)).
Definition is_comment (t : Token) : bool := bool_decide (type_ t = tokenComment).
Definition skipCommentTokens (fuel : nat) : RM Token :=
  t ← readToken;
  if allowComments_ features_ then '(_, token) ← tokens_while fuel (fun t => is_comment t.2) t; mret token
  else mret t.2.

(** ** Errors: always [false] *)
Definition addError (message : string) (token : Token) (extra : option Location) : RM bool :=
  _ ← modify (fun r => set_errors (errors_ r ++ [mkError token message extra]) r); mret false.
Definition recoverFromError (fuel : nat) (skipUntilToken : TokenType) : RM bool :=
  r ← get;
  let errorCount := length (errors_ r) in
  t ← readToken;
  _ ← tokens_while fuel (fun t => negb (bool_decide (type_ t.2 = skipUntilToken))
                                  && negb (bool_decide (type_ t.2 = tokenEndOfStream))) t;
  _ ← modify (fun r => set_errors (take errorCount (errors_ r)) r);
  mret false.
Definition addErrorAndRecover (fuel : nat) (message : string) (token : Token) (skipUntilToken : TokenType) :
    RM bool :=
  _ ← addError message token None; recoverFromError fuel skipUntilToken.

(** ** Decoding *)
Definition hex_digit (c : ascii) : option Z :=
  let n := Z.of_nat (nat_of_ascii c) in
  (if (48 <=? n) && (n <=? 57) then Some (n - 48)
   else if (97 <=? n) && (n <=? 102) then Some (n - 97 + 10)
   else if (65 <=? n) && (n <=? 70) then Some (n - 65 + 10)
   else None)%Z.
(** The value of [n] hexadecimal digits, and where reading them stopped. *)
Fixpoint hex_digits (n : nat) (unicode : Z) (current : Location) : option Z * Location :=
  match n, current with
  | O, _ => (Some unicode, current)
  | S n', String c current' =>
      match hex_digit c with
      | Some d => hex_digits n' (unicode * 16 + d)%Z current'
      | None => (None, current')
      end
  | S _, EmptyString => (None, current)
  end.
(** [end - current] *)
Definition distance (current end_ : Location) : nat := String.length current - String.length end_.
Definition decodeUnicodeEscapeSequence (token : Token) (current end_ : Location) : RM (option (Z * Location)) :=
  if (distance current end_ <? 4)%nat then
    _ ← addError "Bad unicode escape sequence in string: four digits expected." token (Some current); mret None
  else
    match hex_digits 4 0 current with
    | (Some unicode, current) => mret (Some (unicode, current))
    | (None, current) =>
        _ ← addError "Bad unicode escape sequence in string: hexadecimal digit expected." token (Some current);
        mret None
    end.
(** The second half of a pair: what follows a backslash and [u]. *)
Definition surrogate_start (current : Location) : bool * Location :=
  match current with
  | String c current1 =>
      if Ascii.eqb c BACKSLASH then
        match current1 with
        | String d current2 => (Ascii.eqb d "u"%char, current2)
        | EmptyString => (false, current1)
        end
      else (false, current1)
  | EmptyString => (false, current)
  end.
Definition decodeUnicodeCodePoint (token : Token) (current end_ : Location) : RM (option (Z * Location)) :=
  o ← decodeUnicodeEscapeSequence token current end_;
  match o with
  | None => mret None
  | Some (unicode, current) =>
      if ((55296 <=? unicode) && (unicode <=? 56319))%Z then
        if (distance current end_ <? 6)%nat then
          _ ← addError "additional six characters expected to parse unicode surrogate pair." token (Some current);
          mret None
        else
          let '(ok, current) := surrogate_start current in
          if (ok : bool) then
            o ← decodeUnicodeEscapeSequence token current end_;
            match o with
            | None => mret None
            | Some (surrogatePair, current) =>
                mret (Some (65536 + Z.shiftl (Z.land unicode 1023) 10 + Z.land surrogatePair 1023, current)%Z)
            end
          else
            _ ← addError "expecting another \u token to begin the second half of a unicode surrogate pair"
                  token (Some current);
            mret None
      else mret (Some (unicode, current))
  end.

Definition simple_escape (c : ascii) : option ascii :=
  let is_ (d : ascii) := Ascii.eqb c d in
  if is_ DQUOTE then Some DQUOTE
  else if is_ "/"%char then Some "/"%char
  else if is_ BACKSLASH then Some BACKSLASH
  else if is_ "b"%char then Some "008"%char
  else if is_ "f"%char then Some "012"%char
  else if is_ "n"%char then Some NEWLINE
  else if is_ "r"%char then Some CR
  else if is_ "t"%char then Some TAB
  else None.
(** What follows a backslash. *)
Definition decode_escape (token : Token) (end_ : Location) (decoded : string) (current : Location) :
    RM (string * Location + bool * string) :=
  match current with
  | EmptyString => fail Undefined
  | String escape current =>
      match simple_escape escape with
      | Some c => mret (inl (decoded +:+ one c, current)%string)
      | None =>
          if Ascii.eqb escape "u"%char then
            o ← decodeUnicodeCodePoint token current end_;
            match o with
            | Some (unicode, current) => mret (inl (decoded +:+ codePointToUTF8 unicode, current)%string)
            | None => mret (inr (false, decoded))
            end
          else
            _ ← addError "Bad escape sequence in string" token (Some current);
            mret (inr (false, decoded))
      end
  end.
Definition decode_char (token : Token) (end_ : Location) (st : string * Location) :
    RM (string * Location + bool * string) :=
  let '(decoded, current) := st in
  if (distance current end_ =? 0)%nat then mret (inr (true, decoded))
  else
    match current with
    | EmptyString => fail Undefined
    | String c current =>
        if Ascii.eqb c DQUOTE then mret (inr (true, decoded))
        else if Ascii.eqb c BACKSLASH then
          if (distance current end_ =? 0)%nat then
            _ ← addError "Empty escape sequence in string" token (Some current);
            mret (inr (false, decoded))
          else decode_escape token end_ decoded current
        else mret (inl (decoded +:+ one c, current)%string)
    end.
(** [current] starts after the opening quote and stops before the closing one. *)
Definition decodeString (token : Token) : RM (bool * string) :=
  match start_ token with
  | EmptyString => fail Undefined
  | String _ current =>
      loop (S (String.length current)) (""%string, current) (decode_char token (one DQUOTE +:+ end_ token)%string)
  end.

Definition decodeDouble (token : Token) : RM (option Value) :=
  match read_double (token_text token) with
  | Some d => mret (Some (JReal d))
  | None => _ ← addError ("'" +:+ token_text token +:+ "' is not a number.")%string token None; mret None
  end.
Definition decodeNumber (token : Token) : RM (option Value) :=
  match decode_int (token_text token) with
  | Some z => mret (Some (JInt z))
  | None => decodeDouble token
  end.

(** ** Objects and arrays: [read_value] reads a nested value into the given one. *)
Section Nested.
Context (fuel : nat) (read_value : Value -> RM (bool * Value)).

Definition member_value (name : string) (members : list (string * Value)) : Value :=
  default JNull (om_find name members).

(** The key of a member; [None]: an error was reported and recovered from. *)
Definition read_name (tokenName : Token) : RM (option (option string)) :=
  if decide (type_ tokenName = tokenString) then
    '(ok, name) ← decodeString tokenName;
    if (ok : bool) then mret (Some (Some name))
    else _ ← recoverFromError fuel tokenObjectEnd; mret None
  else if decide (type_ tokenName = tokenNumber /\ allowNumericKeys_ features_ = true) then
    o ← decodeNumber tokenName;
    match o with
    | Some v => name ← lift (asString v); mret (Some (Some name))
    | None => _ ← recoverFromError fuel tokenObjectEnd; mret None
    end
  else mret (Some None).

(** From the colon to the end of the member: [inr] leaves [readObject]. *)
Definition read_member (tokenName : Token) (name : string) (members : list (string * Value)) :
    RM (string * list (string * Value) + bool * list (string * Value)) :=
  '(ok, colon) ← readToken;
  if negb ok || negb (bool_decide (type_ colon = tokenMemberSeparator)) then
    b ← addErrorAndRecover fuel "Missing ':' after object member name" colon tokenObjectEnd;
    mret (inr (b, members))
  else
    '(ok, value) ← read_value (member_value name members);
    let members := om_set name value members in
    if negb ok then b ← recoverFromError fuel tokenObjectEnd; mret (inr (b, members))
    else
      '(ok, comma) ← readToken;
      if negb ok || negb (bool_decide (type_ comma ∈ [tokenObjectEnd; tokenArraySeparator; tokenComment])) then
        b ← addErrorAndRecover fuel "Missing ',' or '}' in object declaration" comma tokenObjectEnd;
        mret (inr (b, members))
      else
        '(_, comma) ← tokens_while fuel (fun t => is_comment t.2 && t.1) (ok, comma);
        if decide (type_ comma = tokenObjectEnd) then mret (inr (true, members))
        else mret (inl (name, members)).

Definition missing_name (tokenName : Token) (members : list (string * Value)) :
    RM (string * list (string * Value) + bool * list (string * Value)) :=
  b ← addErrorAndRecover fuel "Missing '}' or object member name" tokenName tokenObjectEnd;
  mret (inr (b, members)).

Definition object_step (st : string * list (string * Value)) :
    RM (string * list (string * Value) + bool * list (string * Value)) :=
  let '(name, members) := st in
  '(ok, tokenName) ← readToken;
  if negb ok then missing_name tokenName members
  else
    '(initialTokenOk, tokenName) ← tokens_while fuel (fun t => is_comment t.2 && t.1) (ok, tokenName);
    if negb initialTokenOk then missing_name tokenName members
    else if bool_decide (type_ tokenName = tokenObjectEnd) &&
            (String.eqb name "" || allowTrailingCommas_ features_) then mret (inr (true, members))
    else
      o ← read_name tokenName;
      match o with
      | None => mret (inr (false, members))
      | Some None => missing_name tokenName members
      | Some (Some name) =>
          if (2 ^ 30 <=? Z.of_nat (String.length name))%Z then fail Uncaught
          else if rejectDupKeys_ features_ && match om_find name members with Some _ => true | None => false end then
            b ← addErrorAndRecover fuel ("Duplicate key: '" +:+ name +:+ "'")%string tokenName tokenObjectEnd;
            mret (inr (b, members))
          else read_member tokenName name members
      end.
Definition readObject : RM (bool * Value) :=
  '(ok, members) ← loop fuel (""%string, []) object_step; mret (ok, JObject members).

Definition at_array_end (elems : list Value) (current : Location) : bool :=
  match current with
  | String c _ => Ascii.eqb c "]"%char &&
      ((length elems =? 0)%nat ||
       (allowTrailingCommas_ features_ && negb (allowDroppedNullPlaceholders_ features_)))
  | EmptyString => false
  end.
Definition array_step (elems : list Value) : RM (list Value + bool * list Value) :=
  _ ← skipSpaces;
  r ← get;
  if at_array_end elems (current_ r) then _ ← readToken; mret (inr (true, elems))
  else
    '(ok, value) ← read_value JNull;
    let elems := elems ++ [value] in
    if negb ok then b ← recoverFromError fuel tokenArrayEnd; mret (inr (b, elems))
    else
      t ← readToken;
      '(ok, currentToken) ← tokens_while fuel (fun t => is_comment t.2 && t.1) t;
      if negb ok || negb (bool_decide (type_ currentToken ∈ [tokenArraySeparator; tokenArrayEnd])) then
        b ← addErrorAndRecover fuel "Missing ',' or ']' in array declaration" currentToken tokenArrayEnd;
        mret (inr (b, elems))
      else if decide (type_ currentToken = tokenArrayEnd) then mret (inr (true, elems))
      else mret (inl elems).
Definition readArray : RM (bool * Value) :=
  '(ok, elems) ← loop fuel [] array_step; mret (ok, JArray elems).
End Nested.

(** ** Values

    [nodes]: the size of the stack of values under construction; [current_value]
    is what the value was before. *)
Definition put_value (current_value : Value) (o : option Value) : bool * Value :=
  match o with Some v => (true, v) | None => (false, current_value) end.
Definition no_value (token : Token) (current_value : Value) : RM (option bool * Value) :=
  b ← addError "Syntax error: value, object or array expected." token None; mret (None, current_value).

(** The value that starts with [token]; [None]: [readValue] returns at once. *)
Definition value_of_token (fuel : nat) (read_value : Value -> RM (bool * Value)) (token : Token)
    (current_value : Value) : RM (option bool * Value) :=
  let done_ (p : bool * Value) := (Some p.1, p.2) in
  match type_ token with
  | tokenObjectBegin => p ← readObject fuel read_value; mret (done_ p)
  | tokenArrayBegin => p ← readArray fuel read_value; mret (done_ p)
  | tokenNumber => o ← decodeNumber token; mret (done_ (put_value current_value o))
  | tokenString =>
      '(ok, s) ← decodeString token;
      mret (done_ (put_value current_value (if (ok : bool) then Some (JString s) else None)))
  | tokenTrue => mret (Some true, JBool true)
  | tokenFalse => mret (Some true, JBool false)
  | tokenNull => mret (Some true, JNull)
  | tokenNaN => mret (Some true, JReal S754_nan)
  | tokenPosInf => mret (Some true, JReal (S754_infinity false))
  | tokenNegInf => mret (Some true, JReal (S754_infinity true))
  | tokenArraySeparator | tokenObjectEnd | tokenArrayEnd =>
      if allowDroppedNullPlaceholders_ features_ then
        _ ← modify (set_current (start_ token)); mret (Some true, JNull)
      else no_value token current_value
  | _ => no_value token current_value
  end.

Definition take_comments : RM unit :=
  r ← get;
  if collectComments_ && negb (String.eqb (commentsBefore_ r) "") then
    _ ← lift (setComment (commentsBefore_ r)); put (set_commentsBefore "" r)
  else mret tt.

Fixpoint readValue (fuel : nat) (nodes : nat) (current_value : Value) : RM (bool * Value) :=
  match fuel with
  | O => fail OutOfFuel
  | S fuel' =>
      if (stackLimit_ features_ <? nodes)%nat then fail Uncaught
      else
        token ← skipCommentTokens fuel;
        _ ← take_comments;
        '(successful, value) ← value_of_token fuel (readValue fuel' (S nodes)) token current_value;
        match successful with
        | None => mret (false, value)
        | Some successful =>
            _ ← when collectComments_
                  (modify (fun r => set_lastValueEnd (Some (current_ r)) (set_lastValueHasAComment false r)));
            mret (successful, value)
        end
  end.
End Reader.

(** ** Documents *)
Definition new_reader (doc : string) : Reader := mkReader doc [] "" None false.
Definition parse_fuel (doc : string) : nat := 2 + String.length doc.
Definition extra_error : string := "Extra non-whitespace after JSON value."%string.
Definition root_error : string := "A valid JSON document must be either an array or an object value."%string.
Definition is_compound (v : Value) : bool := match v with JArray _ | JObject _ => true | _ => false end.

Definition parse (features : OurFeatures) (collect : bool) (doc : string) (root : Value) : M Reader (bool * Value) :=
  let collect := collect && allowComments_ features in
  let fuel := parse_fuel doc in
  '(successful, root) ← readValue features collect fuel 1 root;
  token ← skipCommentTokens features collect fuel;
  if failIfExtra_ features && negb (bool_decide (type_ token = tokenEndOfStream)) then
    b ← addError extra_error token None; mret (b, root)
  else
    r ← get;
    _ ← when (collect && negb (String.eqb (commentsBefore_ r) "")) (lift (setComment (commentsBefore_ r)));
    if strictRoot_ features && negb (is_compound root) then
      b ← addError root_error (mkToken tokenError doc "") None; mret (b, root)
    else mret (successful, root).

(** *** [getFormattedErrorMessages]: lines and columns start at 1. *)
Fixpoint line_column (current location lastLineStart : Location) (line : Z) : Z * Z :=
  let here := (line + 1, Z.of_nat (String.length lastLineStart) - Z.of_nat (String.length location) + 1)%Z in
  match current with
  | EmptyString => here
  | String c s =>
      if (String.length current <=? String.length location)%nat then here
      else if Ascii.eqb c CR then
        match s with
        | String d s' =>
            if Ascii.eqb d NEWLINE then line_column s' location s' (line + 1)
            else line_column s location s (line + 1)
        | EmptyString => line_column s location s (line + 1)
        end
      else if Ascii.eqb c NEWLINE then line_column s location s (line + 1)
      else line_column s location lastLineStart line
  end.
Definition getLocationLineAndColumn (doc : string) (location : Location) : string :=
  let '(line, column) := line_column doc location doc 0 in
  ("Line " +:+ int_text line +:+ ", Column " +:+ int_text column)%string.
Definition formatted_error (doc : string) (error : ErrorInfo) : string :=
  ("* " +:+ getLocationLineAndColumn doc (start_ (token_ error)) +:+ one NEWLINE +:+
   "  " +:+ message_ error +:+ one NEWLINE +:+
   match extra_ error with
   | Some extra => "See " +:+ getLocationLineAndColumn doc extra +:+ " for detail." +:+ one NEWLINE
   | None => ""
   end)%string.
Definition getFormattedErrorMessages (doc : string) (errors : list ErrorInfo) : string :=
  foldr (fun e acc => formatted_error doc e +:+ acc)%string ""%string errors.

(** [OurCharReader::parse] and [parseFromStream] with the default settings: whether the text was
    parsed, the value and the error messages. *)
Definition char_reader_parse (features : OurFeatures) (collect : bool) (doc : string) (root : Value) :
    outcome (bool * Value * string) :=
  '(ok, root, r) ← parse features collect doc root (new_reader doc);
  mret (ok, root, getFormattedErrorMessages doc (errors_ r)).
Definition parseFromStream (doc : string) (root : Value) : outcome (bool * Value * string) :=
  char_reader_parse setDefaults true doc root.
(** What the program goes on with: the value of a text that parses. *)
Definition parse_document (doc : string) : outcome (option Value) :=
  '(ok, root, _) ← parseFromStream doc JNull; mret (if (ok : bool) then Some root else None).
