(* ===== verification/JsonReaderSafe.v ===== *)
(** * The JSON parser on arbitrary text: it ends, stays inside the document and
    reports an error exactly when it fails. *)
From Stdlib Require Import ZArith SpecFloat Ascii String Lia.
From S2P Require Import Prelude CppFloat CppStd Json JsonReader.

(** ** Runs that end, or throw *)
Definition safe {A} (m : M Reader A) (r : Reader) (Q : A -> Reader -> Prop) : Prop :=
  match m r with Done (a, r') => Q a r' | Stop e => e = Uncaught end.

Lemma safe_ret {A} (a : A) r (Q : A -> Reader -> Prop) : Q a r -> safe (mret a) r Q.
Proof. done. Qed.
Lemma safe_bind {A B} (m : M Reader A) (f : A -> M Reader B) r P Q :
  safe m r P -> (forall a r', P a r' -> safe (f a) r' Q) -> safe (m ≫= f) r Q.
Proof.
  unfold safe, mbind, M_bind. intros Hm Hf. destruct (m r) as [[a r']|e]; [by apply Hf|done].
Qed.
Lemma safe_mono {A} (m : M Reader A) r (P Q : A -> Reader -> Prop) :
  safe m r P -> (forall a r', P a r' -> Q a r') -> safe m r Q.
Proof. unfold safe. intros Hm HPQ. destruct (m r) as [[a r']|e]; [by apply HPQ|done]. Qed.
Lemma safe_get {B} (f : Reader -> M Reader B) r Q : safe (f r) r Q -> safe (get ≫= f) r Q.
Proof. done. Qed.

(** Moving forward without reporting anything. *)
Definition len (r : Reader) : nat := String.length (current_ r).
Definition forward_to (r r' : Reader) : Prop := (len r' <= len r)%nat /\ errors_ r' = errors_ r.
#[global] Instance forward_to_preorder : PreOrder forward_to.
Proof.
  split; [intros r; split; done|]. intros r1 r2 r3 [H1 E1] [H2 E2]. split; [lia|congruence].
Qed.
Definition calm {A} (m : M Reader A) : Prop := forall r, safe m r (fun _ => forward_to r).

Lemma calm_ret {A} (a : A) : calm (mret a).
Proof. intros r. apply safe_ret. reflexivity. Qed.
Lemma calm_bind {A B} (m : M Reader A) (f : A -> M Reader B) :
  calm m -> (forall a, calm (f a)) -> calm (m ≫= f).
Proof.
  intros Hm Hf r. eapply safe_bind; [apply Hm|]. intros a r1 H1. eapply safe_mono; [apply Hf|].
  intros b r2 H2. cbn in *. by transitivity r1.
Qed.
Lemma calm_get {B} (f : Reader -> M Reader B) :
  (forall r, safe (f r) r (fun _ => forward_to r)) -> calm (get ≫= f).
Proof. intros H r. apply H. Qed.
Lemma calm_lift_comment s : calm (lift (setComment s)).
Proof.
  intros r. unfold safe, setComment, lift. destruct (match last_char s with Some _ => _ | None => _ end); [done|].
  by destruct (_ || _).
Qed.
Lemma calm_modify f : (forall r, forward_to r (f r)) -> calm (modify f).
Proof. intros H r. apply H. Qed.
Lemma calm_when (b : bool) m : calm m -> calm (when b m).
Proof. intros H. destruct b; [done|apply calm_ret]. Qed.
(** Reading the position, moving it forward, and a result. *)
Lemma calm_move {A} (g : Reader -> string) (h : Reader -> A) :
  (forall r, String.length (g r) <= len r)%nat ->
  calm (r ← get; _ ← put (set_current (g r) r); mret (h r)).
Proof. intros H r. split; [apply H|done]. Qed.

(** ** Where the scanners stop *)
Lemma skip_digits_len s : (String.length (skip_digits s) <= String.length s)%nat.
Proof. induction s as [|c s IH]; cbn; [lia|]. destruct (digit_of c); cbn; lia. Qed.
Lemma skip_char_len p s : (String.length (skip_char p s) <= String.length s)%nat.
Proof. destruct s as [|c s]; cbn; [lia|]. destruct (p c); cbn; lia. Qed.
Lemma number_end_len s : (String.length (number_end s) <= String.length s)%nat.
Proof.
  assert (Hf : forall s, (String.length (skip_fraction s) <= String.length s)%nat).
  { intros [|c t]; cbn; [lia|]. destruct (Ascii.eqb c _); cbn; [|lia]. pose proof (skip_digits_len t). lia. }
  assert (He : forall s, (String.length (skip_exponent s) <= String.length s)%nat).
  { intros [|c t]; cbn; [lia|]. destruct (is_exp c); cbn; [|lia].
    pose proof (skip_digits_len (skip_char is_sign t)). pose proof (skip_char_len is_sign t). lia. }
  unfold number_end. pose proof (skip_digits_len s). pose proof (Hf (skip_digits s)).
  pose proof (He (skip_fraction (skip_digits s))). lia.
Qed.
Lemma skip_blanks_len s : (String.length (skip_blanks s) <= String.length s)%nat.
Proof. induction s as [|c s IH]; cbn; [lia|]. destruct (is_blank c); cbn; lia. Qed.
Lemma drop_prefix_len p : forall s s', drop_prefix p s = Some s' -> (String.length s' <= String.length s)%nat.
Proof.
  induction p as [|c p IH]; intros [|d s] s' H; cbn in *; try (injection H as <-; cbn; lia); [done|].
  destruct (Ascii.eqb c d); [|done]. specialize (IH _ _ H). lia.
Qed.
Lemma string_end_len q : forall n s, (String.length s <= n)%nat -> (String.length (string_end q s).2 <= String.length s)%nat.
Proof.
  induction n as [|n IH]; intros [|c s] Hn; cbn in *; try lia.
  destruct (Ascii.eqb c BACKSLASH).
  - destruct s as [|d s]; cbn in *; [lia|]. specialize (IH s). lia.
  - destruct (Ascii.eqb c q); cbn; [lia|]. specialize (IH s). lia.
Qed.
Lemma c_comment_len s : forall b, (String.length (c_comment_end s b).2 <= String.length s)%nat.
Proof.
  induction s as [|c s IH]; intros b; [cbn; lia|]. cbn [c_comment_end]. destruct s as [|d s]; [cbn; lia|].
  destruct (_ && _); [cbn; lia|]. etransitivity; [apply IH|cbn; lia].
Qed.
Lemma cpp_comment_len s : (String.length (cpp_comment_end s) <= String.length s)%nat.
Proof.
  induction s as [|c s IH]; cbn; [lia|]. destruct (Ascii.eqb c NEWLINE); [lia|].
  destruct (Ascii.eqb c CR); [|lia]. pose proof (skip_char_len (fun d => Ascii.eqb d NEWLINE) s). lia.
Qed.

(** ** Tokens *)
Lemma calm_getNextChar : calm getNextChar.
Proof.
  intros r. unfold safe, getNextChar, forward_to, len. mred. destruct (current_ r) eqn:E; cbn; rewrite ?E; cbn; auto.
Qed.
Lemma calm_match s : calm (match_ s).
Proof.
  intros r. unfold safe, match_. mred. destruct (drop_prefix s (current_ r)) eqn:E; [|reflexivity].
  split; [by eapply drop_prefix_len|done].
Qed.
Lemma calm_readString q : calm (readString q).
Proof.
  intros r. unfold safe, readString. mred. pose proof (string_end_len q _ _ (le_n (len r))) as H. unfold len in H.
  destruct (string_end q (current_ r)) as [ok s]. by split.
Qed.
Lemma calm_readNumber b : calm (readNumber b).
Proof.
  intros r. unfold safe, readNumber. mred. pose proof (number_end_len (current_ r)) as H.
  destruct (current_ r) as [|c s] eqn:E; [reflexivity|].
  destruct (b && _); mred; (split; [unfold len; rewrite E; cbn in *; lia|done]).
Qed.
Lemma calm_skipSpaces : calm skipSpaces.
Proof. apply calm_modify. intros r. split; [apply skip_blanks_len|done]. Qed.

Lemma calm_readComment collect start : calm (readComment collect start).
Proof.
  unfold readComment. apply calm_bind; [apply calm_getNextChar|]. intros c.
  apply calm_bind.
  - destruct (Ascii.eqb c "*"%char).
    + intros r. unfold readCStyleComment. apply safe_get.
      pose proof (c_comment_len (current_ r) false) as H. destruct (c_comment_end (current_ r) false) as [nl s].
      eapply safe_bind; [apply (safe_ret tt (set_current s r) (fun _ r' => r' = set_current s r)); done|].
      intros _ r' ->. eapply safe_bind; [apply calm_getNextChar|]. intros d r2 H2. apply safe_ret.
      etransitivity; [|exact H2]. by split.
    + destruct (Ascii.eqb c "/"%char); [|apply calm_ret]. apply calm_bind; [|intros; apply calm_ret].
      intros r. split; [apply cpp_comment_len|done].
  - intros [ok nl]. destruct (negb ok); [apply calm_ret|]. apply calm_bind; [|intros; apply calm_ret].
    apply calm_when. apply calm_get. intros r. unfold place_comment.
    eapply safe_bind; [apply calm_when, calm_modify; intros ?; by split|]. intros [] r1 H1. cbn in H1.
    eapply safe_mono; [|intros ? ? H2; etransitivity; [exact H1|exact H2]].
    unfold addComment. destruct (_ && _); [apply calm_lift_comment|]. apply calm_modify. intros ?; by split.
Qed.

Lemma calm_read_from features collect start c : calm (read_from features collect start c).
Proof.
  unfold read_from.
  assert (Hs : forall (t : TokenType) s, calm (if allowSpecialFloats_ features then ok ← match_ s; mret (ok, t)
    else mret (false, t))).
  { intros t s. destruct (allowSpecialFloats_ _); [|apply calm_ret].
    apply calm_bind; [apply calm_match|intros; apply calm_ret]. }
  repeat match goal with
  | |- calm (if ?b then _ else _) => destruct b
  | |- calm (mret _) => apply calm_ret
  | |- calm (match_ _ ≫= _) => apply calm_bind; [apply calm_match|intros]
  | |- calm (readString _ ≫= _) => apply calm_bind; [apply calm_readString|intros]
  | |- calm (readNumber _ ≫= _) => apply calm_bind; [apply calm_readNumber|intros]
  | |- calm (readComment _ _ ≫= _) => apply calm_bind; [apply calm_readComment|intros]
  | _ => apply Hs
  end.
Qed.

(** A token of the text: it starts inside it, a string starts with its quote. *)
Definition good_token (n : nat) (t : Token) : Prop :=
  (String.length (start_ t) <= n)%nat /\ (type_ t = tokenString -> start_ t <> ""%string).

Section Safe.
Context (features_ : OurFeatures) (collect_ : bool).
Abbreviation readToken := (readToken features_ collect_).

Lemma readToken_safe r :
  safe readToken r (fun t r' => forward_to r r' /\ good_token (len r) t.2 /\
    (type_ t.2 = tokenEndOfStream \/ (len r' < len r)%nat)).
Proof.
  unfold JsonReader.readToken. eapply safe_bind; [apply calm_skipSpaces|]. intros [] r1 H1. apply safe_get.
  destruct (current_ r1) as [|c s] eqn:E.
  - assert (Hn : getNextChar r1 = Done (NUL, r1)) by (unfold getNextChar; mred; by rewrite E).
    unfold safe. rewrite (bind_done _ _ _ _ _ Hn). split; [exact H1|]. split; [|by left].
    split; [cbn; lia|]. done.
  - assert (Hn : getNextChar r1 = Done (c, set_current s r1)) by (unfold getNextChar; mred; by rewrite E).
    unfold safe. rewrite (bind_done _ _ _ _ _ Hn).
    change (safe ('(ok, ty) ← read_from features_ collect_ (String c s) c; r' ← get;
      mret (ok, mkToken (if (ok : bool) then ty else tokenError) (String c s) (current_ r'))) (set_current s r1)
      (fun t r' => forward_to r r' /\ good_token (len r) t.2 /\ (type_ t.2 = tokenEndOfStream \/ (len r' < len r)%nat))).
    eapply safe_bind; [apply calm_read_from|]. intros [ok ty] r2 [H2 E2]. apply safe_get, safe_ret.
    destruct H1 as [L1 E1]. unfold len in *. rewrite E in L1. cbn in *.
    split; [split; [unfold len; lia|congruence]|]. split; [split; cbn; [lia|done]|right; lia].
Qed.

Lemma tokens_while_safe again n :
  (forall t : bool * Token, type_ t.2 = tokenEndOfStream -> again t = false) ->
  forall fuel t r, (len r + 2 <= fuel \/ (again t = false /\ 1 <= fuel))%nat -> good_token n t.2 -> (len r <= n)%nat ->
  safe (tokens_while features_ collect_ fuel again t) r (fun t' r' =>
    forward_to r r' /\ good_token n t'.2 /\ again t' = false /\
    ((t' = t /\ r' = r) \/ type_ t'.2 = tokenEndOfStream \/ (len r' < len r)%nat)).
Proof.
  intros Hend fuel. induction fuel as [|fuel IH]; intros t r Hf Ht Hn; [lia|].
  unfold tokens_while. cbn [loop]. destruct (again t) eqn:Ea.
  - eapply safe_bind with (P := fun o r' => exists t', o = inl t' /\ forward_to r r' /\ good_token n t'.2 /\
      (type_ t'.2 = tokenEndOfStream \/ (len r' < len r)%nat)).
    + eapply safe_bind; [apply readToken_safe|]. intros t' r' (H1 & [H2 H2'] & H3). apply safe_ret.
      exists t'. repeat split; try done; try apply H1. lia.
    + intros o r' (t' & -> & H1 & H2 & H3). destruct H1 as [H1 E1].
      eapply safe_mono; [apply (IH t' r')|].
      * destruct H3 as [H3|H3]; [right; split; [by apply Hend|lia]|left; lia].
      * done.
      * lia.
      * intros t2 r2 ([H4 E4] & H5 & H6 & H7). cbn in *.
        split; [split; [lia|congruence]|]. split; [done|]. split; [done|]. right.
        destruct H7 as [[-> ->]|[H7|H7]]; [|by left|right; lia]. destruct H3; [by left|by right].
  - apply safe_ret. split; [reflexivity|]. split; [done|]. split; [done|]. by left.
Qed.

Lemma skipCommentTokens_safe fuel r :
  (len r + 2 <= fuel)%nat ->
  safe (skipCommentTokens features_ collect_ fuel) r (fun t r' => forward_to r r' /\ good_token (len r) t /\
    (type_ t = tokenEndOfStream \/ (len r' < len r)%nat)).
Proof.
  intros Hf. unfold skipCommentTokens. eapply safe_bind; [apply readToken_safe|].
  intros t r1 ([H1 E1] & H2 & H3). destruct (allowComments_ features_); [|by apply safe_ret].
  eapply safe_bind; [eapply (tokens_while_safe _ (len r))|].
  - intros [b tk] Ht. cbn in *. unfold is_comment. by rewrite bool_decide_eq_false_2, ?Ht by (rewrite Ht; done).
  - left. lia.
  - done.
  - done.
  - intros [b tk] r2 ([H4 E4] & H5 & _ & H6). apply safe_ret. cbn in *.
    split; [split; [lia|congruence]|]. split; [done|].
    destruct H6 as [[Ht ->]|[H6|H6]]; [|by left|right; lia]. by rewrite <- Ht in H3.
Qed.

(** ** Errors *)
(** Something was reported; a result that says whether nothing was. *)
Definition reported (r r' : Reader) : Prop :=
  (len r' <= len r)%nat /\ exists e es, errors_ r' = errors_ r ++ e :: es.
Definition judged (ok : bool) (r r' : Reader) : Prop := if ok then forward_to r r' else reported r r'.

Lemma reported_forward r1 r2 r3 : reported r1 r2 -> forward_to r2 r3 -> reported r1 r3.
Proof. intros [H1 (e & es & E)] [H2 E2]. split; [lia|]. exists e, es. congruence. Qed.
Lemma forward_reported r1 r2 r3 : forward_to r1 r2 -> reported r2 r3 -> reported r1 r3.
Proof. intros [H1 E1] [H2 (e & es & E)]. split; [lia|]. exists e, es. congruence. Qed.
Lemma forward_judged ok r1 r2 r3 : forward_to r1 r2 -> judged ok r2 r3 -> judged ok r1 r3.
Proof. destruct ok; cbn; intros; [by transitivity r2|by eapply forward_reported]. Qed.

Lemma addError_safe m t x r :
  safe (addError m t x) r (fun b r' => b = false /\ reported r r' /\ current_ r' = current_ r).
Proof. split; [done|]. split; [|done]. split; [done|]. by eexists _, _. Qed.

Lemma recover_safe fuel ty r :
  (len r + 2 <= fuel)%nat ->
  safe (recoverFromError features_ collect_ fuel ty) r (fun b r' => b = false /\ forward_to r r').
Proof.
  intros Hf. unfold recoverFromError. apply safe_get. eapply safe_bind; [apply readToken_safe|].
  intros t r1 ([H1 E1] & H2 & _). eapply safe_bind; [eapply (tokens_while_safe _ (len r))|].
  - intros [b tk] Ht. cbn in *. rewrite Ht. by destruct ty.
  - left. lia.
  - done.
  - done.
  - intros t' r2 ([H3 E3] & _). split; [done|]. split; [unfold len in *; cbn in *; lia|].
    cbn. rewrite E3, E1. apply take_ge. lia.
Qed.
Lemma add_recover_safe fuel m t ty r :
  (len r + 2 <= fuel)%nat ->
  safe (addErrorAndRecover features_ collect_ fuel m t ty) r (fun b r' => b = false /\ reported r r').
Proof.
  intros Hf. unfold addErrorAndRecover. eapply safe_bind; [apply addError_safe|].
  intros b r1 (_ & H1 & Hc). eapply safe_mono; [apply recover_safe; unfold len in *; by rewrite Hc|].
  intros b2 r2 [-> H2]. split; [done|]. by eapply reported_forward.
Qed.

(** ** Decoding *)
Lemma hex_digits_len n : forall u s, (String.length (hex_digits n u s).2 <= String.length s)%nat.
Proof.
  induction n as [|n IH]; intros u s; [done|]. destruct s as [|c s]; cbn; [done|].
  destruct (hex_digit c); cbn; [|lia]. specialize (IH (u * 16 + z)%Z s). lia.
Qed.

Definition moved (current : string) (r : Reader) (o : option (Z * Location)) (r' : Reader) : Prop :=
  current_ r' = current_ r /\
  match o with
  | Some (_, current') => errors_ r' = errors_ r /\ (String.length current' <= String.length current)%nat
  | None => reported r r'
  end.
Lemma addError_moved m t x c r :
  safe (_ ← addError m t x; mret (@None (Z * Location))) r (moved c r).
Proof. eapply safe_bind; [apply addError_safe|]. intros _ r1 (_ & H & Hc). by split. Qed.

Lemma decodeUnicodeEscape_safe t current e r :
  safe (decodeUnicodeEscapeSequence t current e) r (moved current r).
Proof.
  unfold decodeUnicodeEscapeSequence. destruct (_ <? 4)%nat; [apply addError_moved|].
  pose proof (hex_digits_len 4 0 current) as H. destruct (hex_digits 4 0 current) as [[u|] c]; [|apply addError_moved].
  by apply safe_ret.
Qed.

Lemma decodeUnicodeCodePoint_safe t current e r :
  safe (decodeUnicodeCodePoint t current e) r (moved current r).
Proof.
  unfold decodeUnicodeCodePoint. eapply safe_bind; [apply decodeUnicodeEscape_safe|].
  intros [[u c]|] r1 [Hc H1]; [|by apply safe_ret]. destruct H1 as [E1 L1].
  assert (Hm : forall o r2, moved c r1 o r2 -> moved current r o r2).
  { intros o r2 [Hc2 H2]. split; [congruence|]. destruct o as [[u2 c2]|]; [destruct H2; split; [congruence|lia]|].
    eapply forward_reported; [|exact H2]. split; [unfold len; by rewrite Hc|done]. }
  destruct (_ && _)%Z; [|by (apply safe_ret; split; [done|split])].
  destruct (_ <? 6)%nat; [eapply safe_mono; [apply (addError_moved _ _ _ c)|apply Hm]|].
  assert (Hs : (String.length (surrogate_start c).2 <= String.length c)%nat).
  { destruct c as [|x c]; cbn; [lia|]. destruct (Ascii.eqb x _); [destruct c|]; cbn; lia. }
  destruct (surrogate_start c) as [[] c2]; [|eapply safe_mono; [apply (addError_moved _ _ _ c)|apply Hm]].
  eapply safe_bind; [apply decodeUnicodeEscape_safe|]. intros [[p c3]|] r2 [Hc2 H2]; apply safe_ret; apply Hm.
  - split; [done|]. destruct H2 as [E2 L2]. split; [done|]. cbn in Hs. lia.
  - by split.
Qed.

(** One character of a string: the position moves, or the loop ends. *)
Definition stepped (current : string) (r : Reader) (o : string * Location + bool * string) (r' : Reader) : Prop :=
  current_ r' = current_ r /\
  match o with
  | inl (_, current') => errors_ r' = errors_ r /\ (String.length current' < String.length current)%nat
  | inr (ok, _) => judged ok r r'
  end.
Lemma decode_char_safe t e decoded current r :
  safe (decode_char t e (decoded, current)) r (stepped current r).
Proof.
  unfold decode_char. destruct (_ =? 0)%nat eqn:E0.
  { apply safe_ret. by split. }
  destruct current as [|c current]; [done|]. destruct (Ascii.eqb c DQUOTE); [apply safe_ret; by split|].
  assert (Herr : forall m x, safe (_ ← addError m t x; mret (inr (false, decoded))) r (stepped (String c current) r)).
  { intros m x. eapply safe_bind; [apply addError_safe|]. intros _ r1 (_ & H & Hc). by split. }
  destruct (Ascii.eqb c BACKSLASH).
  - destruct (distance current e =? 0)%nat eqn:E1; [apply Herr|]. apply Nat.eqb_neq in E1.
    unfold decode_escape. destruct current as [|d current]; [done|].
    destruct (simple_escape d); [apply safe_ret; split; [done|]; split; [done|cbn; lia]|].
    destruct (Ascii.eqb d "u"%char); [|apply Herr].
    eapply safe_bind; [apply decodeUnicodeCodePoint_safe|]. intros [[u c2]|] r1 [Hc H]; apply safe_ret; split; try done.
    destruct H as [H1 H2]. split; [done|cbn; lia].
  - apply safe_ret. split; [done|]. split; [done|cbn; lia].
Qed.
Lemma decode_loop_safe t e : forall fuel decoded current r,
  (String.length current < fuel)%nat ->
  safe (loop fuel (decoded, current) (decode_char t e)) r (fun p r' => current_ r' = current_ r /\ judged p.1 r r').
Proof.
  induction fuel as [|fuel IH]; intros decoded current r Hf; [lia|]. cbn [loop].
  eapply safe_bind; [apply decode_char_safe|]. intros [[d2 c2]|[ok d2]] r1 [Hc H1]; [|by apply safe_ret].
  destruct H1 as [E1 L1]. eapply safe_mono; [apply IH; lia|]. intros p r2 [H2 J2]. split; [congruence|].
  eapply forward_judged; [|exact J2]. split; [unfold len; by rewrite Hc|done].
Qed.
Lemma decodeString_safe t r :
  start_ t <> ""%string ->
  safe (decodeString t) r (fun p r' => current_ r' = current_ r /\ judged p.1 r r').
Proof.
  intros H. unfold decodeString. destruct (start_ t) as [|c s]; [done|]. apply decode_loop_safe. lia.
Qed.

Lemma decodeNumber_safe t r :
  safe (decodeNumber t) r (fun o r' => current_ r' = current_ r /\ judged (match o with Some _ => true | None => false end) r r').
Proof.
  unfold decodeNumber, decodeDouble. destruct (decode_int _); [by apply safe_ret|].
  destruct (read_double _); [by apply safe_ret|]. eapply safe_bind; [apply addError_safe|].
  intros _ r1 (_ & H & Hc). by split.
Qed.

(** ** Objects and arrays *)
(** One turn of a loop: it has read something, or it ends. *)
Definition turn {X Y} (r : Reader) (o : X + bool * Y) (r' : Reader) : Prop :=
  match o with
  | inl _ => (len r' < len r)%nat /\ errors_ r' = errors_ r
  | inr (ok, _) => judged ok r r'
  end.
Lemma forward_turn {X Y} r1 r2 (o : X + bool * Y) r3 : forward_to r1 r2 -> turn r2 o r3 -> turn r1 o r3.
Proof.
  intros H1 H2. destruct o as [x|[ok y]]; cbn in *; [destruct H1, H2; split; [lia|congruence]|].
  by eapply forward_judged.
Qed.
Lemma loop_turns {X Y} (step : X -> M Reader (X + bool * Y)) n :
  (forall st r, (len r <= n)%nat -> safe (step st) r (turn r)) ->
  forall fuel st r, (len r < fuel)%nat -> (len r <= n)%nat ->
  safe (loop fuel st step) r (fun p r' => judged p.1 r r').
Proof.
  intros Hs fuel. induction fuel as [|fuel IH]; intros st r Hf Hn; [lia|]. cbn [loop].
  eapply safe_bind; [by apply Hs|]. intros [st'|[ok y]] r1 H1; [|by apply safe_ret]. destruct H1 as [L1 E1].
  eapply safe_mono; [apply IH; lia|]. intros p r2 H2. eapply forward_judged; [|exact H2]. split; [lia|done].
Qed.

(** An error that ends a loop. *)
Lemma ends_reported {X Y} (m : M Reader bool) (y : Y) r r0 :
  forward_to r0 r -> safe m r (fun b r' => b = false /\ reported r r') ->
  safe (b ← m; mret (@inr X (bool * Y) (b, y))) r (turn r0).
Proof.
  intros H0 H. eapply safe_bind; [exact H|]. intros b r1 [-> H1]. apply safe_ret. by eapply forward_reported.
Qed.
(** Recovery after an error that is reported already. *)
Lemma ends_recovered {X Y} fuel ty (y : Y) r r0 :
  (len r + 2 <= fuel)%nat -> reported r0 r ->
  safe (b ← recoverFromError features_ collect_ fuel ty; mret (@inr X (bool * Y) (b, y))) r (turn r0).
Proof.
  intros Hf H0. eapply safe_bind; [by apply recover_safe|]. intros b r1 [-> H1]. apply safe_ret.
  by eapply reported_forward.
Qed.

Lemma comments_skipped fuel n t r :
  (len r + 2 <= fuel)%nat -> good_token n t.2 -> (len r <= n)%nat ->
  safe (tokens_while features_ collect_ fuel (fun t => is_comment t.2 && t.1) t) r (fun t' r' =>
    forward_to r r' /\ good_token n t'.2 /\
    ((t' = t /\ r' = r) \/ type_ t'.2 = tokenEndOfStream \/ (len r' < len r)%nat)).
Proof.
  intros Hf Ht Hn. eapply safe_mono; [eapply (tokens_while_safe _ n)|].
  - intros [b tk] H. cbn in *. unfold is_comment. by rewrite H.
  - by left.
  - done.
  - done.
  - intros t' r' (H1 & H2 & _ & H3). done.
Qed.

Section Nested.
Context (fuel : nat) (read_value : Value -> M Reader (bool * Value)).
Context (Hrv : forall v r, (len r + 3 <= fuel)%nat -> safe (read_value v) r (fun p r' => judged p.1 r r')).

Lemma read_member_safe t name members r :
  (len r + 3 <= fuel)%nat ->
  safe (read_member features_ collect_ fuel read_value t name members) r (turn r).
Proof.
  intros Hf. unfold read_member. eapply safe_bind; [apply readToken_safe|].
  intros [ok colon] r1 (H1 & _ & H1'). pose proof H1 as [L1 _]. cbn [snd] in H1'.
  destruct (negb ok || _) eqn:Ec; [apply ends_reported; [done|apply add_recover_safe; lia]|].
  apply orb_false_iff in Ec as [_ Ec]. apply negb_false_iff, bool_decide_eq_true in Ec.
  assert (Hc : (len r1 < len r)%nat) by (destruct H1'; [congruence|done]).
  eapply safe_bind; [apply Hrv; lia|]. intros [ok2 v] r2 H2. cbn [fst] in H2.
  destruct ok2; cbn [negb judged] in *.
  2:{ apply ends_recovered; [destruct H2; lia|by eapply forward_reported]. }
  pose proof H2 as [L2 _]. assert (H02 : forward_to r r2) by by transitivity r1.
  eapply safe_bind; [apply readToken_safe|]. intros [ok3 comma] r3 (H3 & G3 & _). pose proof H3 as [L3 _].
  assert (H03 : forward_to r r3) by by transitivity r2.
  destruct (negb ok3 || _); [apply ends_reported; [done|apply add_recover_safe; lia]|].
  eapply safe_bind; [apply (comments_skipped _ (len r2)); [lia|done|lia]|].
  intros [ok4 comma'] r4 (H4 & _ & _). pose proof H4 as [L4 E4]. cbn [snd].
  destruct (decide _); apply safe_ret; [cbn; by transitivity r3|]. split; [lia|]. destruct H03. congruence.
Qed.

Lemma read_name_safe t n r :
  good_token n t -> (len r + 2 <= fuel)%nat ->
  safe (read_name features_ collect_ fuel t) r (fun o r' =>
    match o with Some _ => forward_to r r' | None => reported r r' end).
Proof.
  intros [_ Ht] Hf. unfold read_name. destruct (decide _) as [Hs|_].
  - eapply safe_bind; [by apply decodeString_safe, Ht|]. intros [[] s] r1 [Hc H1]; cbn in *; [by apply safe_ret|].
    eapply safe_bind; [apply recover_safe; destruct H1; lia|]. intros b r2 [_ H2]. apply safe_ret.
    by eapply reported_forward.
  - destruct (decide _); [|apply safe_ret; reflexivity].
    eapply safe_bind; [apply decodeNumber_safe|]. intros [v|] r1 [Hc H1]; cbn in H1.
    + eapply (safe_bind _ _ _ (fun _ => forward_to r)); [|intros; by apply safe_ret].
      unfold safe, lift. by destruct v as [| | | |[]| |].
    + eapply safe_bind; [apply recover_safe; destruct H1; lia|]. intros b r2 [_ H2]. apply safe_ret.
      by eapply reported_forward.
Qed.

Lemma object_step_safe st r :
  (len r + 2 <= fuel)%nat ->
  safe (object_step features_ collect_ fuel read_value st) r (turn r).
Proof.
  intros Hf. destruct st as [name members]. unfold object_step, missing_name.
  eapply safe_bind; [apply readToken_safe|]. intros [ok t1] r1 (H1 & G1 & D1). pose proof H1 as [L1 _].
  destruct (negb ok); [apply ends_reported; [done|apply add_recover_safe; lia]|].
  eapply safe_bind; [apply (comments_skipped _ (len r)); [lia|done|lia]|].
  intros [ok2 t2] r2 (H2 & G2 & D2). pose proof H2 as [L2 _]. cbn [snd fst] in *.
  assert (H02 : forward_to r r2) by by transitivity r1.
  destruct (negb ok2); [apply ends_reported; [done|apply add_recover_safe; lia]|].
  destruct (_ && _) eqn:Ee; [by apply safe_ret|].
  assert (D02 : type_ t2 = tokenEndOfStream \/ (len r2 < len r)%nat).
  { destruct D2 as [[[= <- <-] ->]|[D2|D2]]; [done|by left|right; lia]. }
  eapply safe_bind.
  { instantiate (1 := fun o r' => match o with
      | Some (Some _) => forward_to r2 r' /\ (len r2 < len r)%nat
      | Some None => forward_to r2 r' | None => reported r2 r' end).
    destruct D02 as [D02|D02].
    - unfold read_name. rewrite D02. cbn. apply safe_ret. reflexivity.
    - eapply safe_mono; [eapply read_name_safe; [done|lia]|]. by intros [[?|]|] r' H. }
  intros [[name'|]|] r3 H3.
  - destruct H3 as [[L3 E3] H3]. assert (H03 : forward_to r r3) by (transitivity r2; [done|by split]).
    destruct (2 ^ 30 <=? _)%Z; [done|]. destruct (rejectDupKeys_ features_ && match om_find name' members with Some _ => true | None => false end); [apply ends_reported; [done|apply add_recover_safe; lia]|].
    eapply safe_mono; [apply read_member_safe; lia|]. intros o r4 H4. by eapply forward_turn.
  - apply ends_reported; [by transitivity r2|]. apply add_recover_safe. destruct H3; lia.
  - apply safe_ret. by eapply forward_reported.
Qed.

Lemma array_step_safe elems r :
  (len r + 3 <= fuel)%nat ->
  safe (array_step features_ collect_ fuel read_value elems) r (turn r).
Proof.
  intros Hf. unfold array_step. eapply safe_bind; [apply calm_skipSpaces|]. intros [] r1 H1. cbn in H1.
  pose proof H1 as [L1 _]. apply safe_get. destruct (at_array_end _ _ _).
  { eapply safe_bind; [apply readToken_safe|]. intros t r2 (H2 & _). apply safe_ret. cbn. by transitivity r1. }
  eapply safe_bind; [apply Hrv; lia|]. intros [ok2 v] r2 H2. cbn [fst] in H2.
  destruct ok2; cbn [negb judged] in *.
  2:{ apply ends_recovered; [destruct H2; lia|by eapply forward_reported]. }
  pose proof H2 as [L2 _]. assert (H02 : forward_to r r2) by by transitivity r1.
  eapply safe_bind; [apply readToken_safe|]. intros t3 r3 (H3 & G3 & D3). pose proof H3 as [L3 _].
  eapply safe_bind; [apply (comments_skipped _ (len r2)); [lia|done|lia]|].
  intros [ok4 t4] r4 (H4 & _ & D4). pose proof H4 as [L4 _]. cbn [snd] in D4.
  assert (H04 : forward_to r r4) by (transitivity r2; [done|]; by transitivity r3).
  destruct (negb ok4 || _) eqn:Ee; [apply ends_reported; [done|apply add_recover_safe; lia]|].
  apply orb_false_iff in Ee as [_ Ee]. apply negb_false_iff, bool_decide_eq_true in Ee.
  destruct (decide _); apply safe_ret; [done|].
  assert (Hne : type_ t4 <> tokenEndOfStream) by (intros E; rewrite E in Ee; apply list_elem_of_In in Ee as [|[|[]]]; discriminate).
  destruct H04 as [_ E04]. split; [|done].
  destruct D4 as [[<- ->]|[D4|D4]]; [destruct D3 as [D3|D3]; [done|lia]|done|lia].
Qed.

Lemma readObject_safe r :
  (len r + 3 <= fuel)%nat -> safe (readObject features_ collect_ fuel read_value) r (fun p => judged p.1 r).
Proof.
  intros Hf. unfold readObject. eapply safe_bind.
  - apply (loop_turns _ (len r)); [|lia|done]. intros st r' Hr. apply object_step_safe. lia.
  - intros [ok members] r' H. by apply safe_ret.
Qed.
Lemma readArray_safe r :
  (len r + 3 <= fuel)%nat -> safe (readArray features_ collect_ fuel read_value) r (fun p => judged p.1 r).
Proof.
  intros Hf. unfold readArray. eapply safe_bind.
  - apply (loop_turns _ (len r)); [|lia|done]. intros st r' Hr. apply array_step_safe. lia.
  - intros [ok elems] r' H. by apply safe_ret.
Qed.

(** [r0] is the state before the token was read. *)
Lemma value_of_token_safe t v r0 r :
  forward_to r0 r -> good_token (len r0) t -> (type_ t = tokenEndOfStream \/ (len r < len r0)%nat) ->
  (len r0 + 2 <= fuel)%nat ->
  safe (value_of_token features_ collect_ fuel read_value t v) r (fun p => judged (default false p.1) r0).
Proof.
  intros H0 [Hl Ht] Hd Hf. unfold value_of_token, no_value.
  assert (Hn : safe (_ ← addError "Syntax error: value, object or array expected." t None; mret (@None bool, v)) r
    (fun p => judged (default false p.1) r0)).
  { eapply safe_bind; [apply addError_safe|]. intros b r1 (_ & H1 & _). by eapply forward_reported. }
  destruct (type_ t) eqn:Ety; try (by apply safe_ret); try exact Hn;
    try (destruct (allowDroppedNullPlaceholders_ _); [|exact Hn];
         eapply safe_bind with (P := fun _ => forward_to r0); [split; [exact Hl|apply H0]|intros; by apply safe_ret]);
    (assert (Hlt : (len r < len r0)%nat) by by destruct Hd).
  - eapply safe_bind; [apply readObject_safe; lia|]. intros [ok w] r1 H1. by eapply forward_judged.
  - eapply safe_bind; [apply readArray_safe; lia|]. intros [ok w] r1 H1. by eapply forward_judged.
  - eapply safe_bind; [by apply decodeString_safe, Ht|]. intros [ok s] r1 [_ H1]. apply safe_ret.
    eapply forward_judged; [exact H0|]. by destruct ok.
  - eapply safe_bind; [apply decodeNumber_safe|]. intros o r1 [_ H1]. apply safe_ret.
    eapply forward_judged; [exact H0|]. by destruct o.
Qed.
End Nested.

Lemma take_comments_calm : calm (take_comments collect_).
Proof.
  apply calm_get. intros r. destruct (_ && _); [|apply safe_ret; reflexivity].
  eapply safe_bind; [apply calm_lift_comment|]. intros [] r1 [H1 E1]. by split.
Qed.

Lemma readValue_safe : forall fuel nodes v r,
  (len r + 2 <= fuel)%nat -> safe (readValue features_ collect_ fuel nodes v) r (fun p => judged p.1 r).
Proof.
  induction fuel as [|fuel IH]; intros nodes v r Hf; [lia|]. cbn [readValue].
  destruct (_ <? nodes)%nat; [done|].
  eapply safe_bind; [by apply skipCommentTokens_safe|]. intros t r1 ([L1 E1] & G1 & D1).
  eapply safe_bind; [apply take_comments_calm|]. intros [] r2 [L2 E2]. cbn beta in *.
  eapply safe_bind.
  - apply (value_of_token_safe (S fuel) _ (fun v r H => IH (S nodes) v r ltac:(lia)) t v r r2); auto.
    + split; [lia|congruence].
    + destruct D1; [by left|right; lia].
  - intros [[ok|] w] r3 H3; cbn in H3; [|by apply safe_ret].
    destruct collect_; [|by apply safe_ret]. cbn. destruct ok; exact H3.
Qed.
End Safe.

(** ** Documents *)
(** C17: whatever the text of a configuration file is, the JSON parser ends with a
    value - or with an exception, for a nesting deeper than the limit and for a
    comment it cannot keep - without reading past the end of the text; and it fails
    exactly when it reports an error. *)
Theorem parse_reports features collect doc root :
  match parse features collect doc root (new_reader doc) with
  | Done ((ok, _), r) => ok = true <-> errors_ r = []
  | Stop e => e = Uncaught
  end.
Proof.
  assert (H : safe (parse features collect doc root) (new_reader doc) (fun p => judged p.1 (new_reader doc))).
  { unfold parse. set (c := collect && allowComments_ features). set (r0 := new_reader doc).
    assert (Hf : (len r0 + 2 <= parse_fuel doc)%nat) by (unfold parse_fuel, len; cbn; lia).
    eapply safe_bind; [by apply readValue_safe|]. intros [ok v] r1 H1. cbn [fst] in H1.
    assert (L1 : (len r1 <= len r0)%nat) by (destruct ok, H1; lia).
    eapply safe_bind; [apply skipCommentTokens_safe; lia|]. intros t r2 (H2 & _ & _).
    assert (Herr : forall m tk r, forward_to r1 r ->
      safe (b ← addError m tk None; mret (b, v)) r (fun p => judged p.1 r0)).
    { intros m tk r Hr. eapply safe_bind; [apply addError_safe|]. intros b r3 (-> & H3 & _). apply safe_ret. cbn.
      destruct ok; cbn in H1; [eapply forward_reported; [|exact H3]; by transitivity r1|].
      assert (H4 : reported r0 r) by by eapply reported_forward. destruct H4 as [L4 (e & es & E4)], H3 as [L3 (e' & es' & E3)].
      split; [lia|]. exists e, (es ++ e' :: es'). by rewrite E3, E4, <- app_assoc. }
    destruct (failIfExtra_ features && _); [by apply Herr|]. apply safe_get.
    eapply safe_bind; [apply calm_when, calm_lift_comment|]. intros [] r3 H3. cbn beta in H3.
    assert (H13 : forward_to r1 r3) by by transitivity r2.
    destruct (strictRoot_ features && _); [by apply Herr|]. apply safe_ret. cbn.
    destruct ok; cbn in *; [by transitivity r1|by eapply reported_forward]. }
  unfold safe in H. destruct (parse features collect doc root (new_reader doc)) as [[[ok v] r]|e]; [|done].
  destruct ok; cbn in H.
  - split; [|done]. intros _. by destruct H as [_ ->].
  - destruct H as [_ (e & es & ->)]. split; [done|]. cbn. done.
Qed.
