(* ===== verification/Setup.v ===== *)
(** * Set-up of the scheduler from its configuration files
    ([scheduler/scheduler_base.cpp], [scheduler/network_limit.cpp]).

    A configuration file is what [parseFromStream] makes of it: [None] when it
    cannot be parsed.  Profile files are looked up by their path. *)
From Stdlib Require Import ZArith SpecFloat String Sorted Lia.
From S2P Require Import Prelude CppFloat CppStd Json LatencyModel DevPerfModel SchedData SchedUtils SchedBase.

(** ** [BaseScheduler::setupScheduler] *)

(** [if (find(avail, part) == avail.end()) avail.push_back(part)] *)
Definition push_part (avail : list Z) (part : Z) : list Z :=
  if decide (part ∈ avail) then avail else avail ++ [part].

Definition add_gpu (gpu : Value) : SM unit :=
  type ← lift (v ← member gpu "Type"; asString v);
  num ← lift (v ← member gpu "Num"; asInt v);
  mod_sched (fun s => set_typeToNumofTypeTable (om_set type num (_typeToNumofTypeTable s)) s).

Definition read_incremental (root : Value) : SM unit :=
  _ ← mod_sched (set_useIncremental false);
  has_inc ← lift (isMember root "Incremental");
  when has_inc (
    b ← lift (v ← member root "Incremental"; asBool v);
    mod_sched (set_useIncremental b)).

Definition read_tuning (root : Value) : SM unit :=
  has_tuning ← lift (isMember root "Self Tuning");
  when has_tuning (
    b ← lift (v ← member root "Self Tuning"; asBool v);
    _ ← mod_sched (set_useSelfTuning b);
    mod_sched (set_useInterference false)).

Definition read_parts (avail : Value) : SM unit :=
  _ ← for_each (seq 0 (size avail)) (fun i =>
        part ← lift (e ← element avail i; asInt e);
        mod_sched (fun s => set_availParts (push_part (_availParts s) part) s));
  mod_sched (fun s => set_availParts (std_sort (fun a b => b <? a)%Z (_availParts s)) s).

Definition setupScheduler (config : option Value) : SM bool :=
  match config with
  | None => mret EXIT_FAILURE
  | Some root =>
      gpus ← lift (member root "GPUs");
      _ ← for_each (elements gpus) add_gpu;
      max_model ← lift (v ← member root "Max Model"; asInt v);
      _ ← mod_sched (set_numMaxModel max_model);
      use_part ← lift (v ← member root "Part"; asBool v);
      _ ← mod_sched (set_usePart use_part);
      ratio ← lift (v ← member root "Latency Ratio"; asFloat v);
      _ ← mod_sched (set_latencyRatio ratio);
      interference ← lift (v ← member root "Interference"; asBool v);
      _ ← mod_sched (set_useInterference interference);
      _ ← read_incremental root;
      _ ← read_tuning root;
      avail ← lift (member root "Avail_Parts");
      _ ← read_parts avail;
      s ← sched;
      _ ← massert (leb (i2f 1) (_latencyRatio s));
      mret EXIT_SUCCESS
  end.

(** ** [BaseScheduler::setupPerModelMemConfig] *)
Definition model_mem (models : Value) (i : nat) : SM unit :=
  model ← lift (element models i);
  model_name ← lift (v ← member model "name"; asString v);
  mem_size ← lift (v ← member model "mem"; asInt v);
  id ← getModelID model_name;
  mod_sched (fun s => set_mapModelIDtoMemSize (<[id := mem_size]> (_mapModelIDtoMemSize s)) s).

Definition setupPerModelMemConfig (config : option Value) : SM bool :=
  match config with
  | None => mret EXIT_FAILURE
  | Some root =>
      models ← lift (member root "models");
      _ ← for_each (seq 0 (size models)) (model_mem models);
      mret EXIT_SUCCESS
  end.

(** ** [BaseScheduler::setupDevicePerfModel] *)
Definition dev_spec (files : string -> list string) (res_dir : string) (spec : Value) : SM unit :=
  device ← lift (v ← member spec "type"; asString v);
  dev_mem ← lift (v ← member spec "mem_mb"; asInt v);
  lat ← lift (v ← member spec "latency_prof_file"; asString v);
  const ← lift (v ← member spec "interference_const_file"; asString v);
  util ← lift (v ← member spec "interference_util_file"; asString v);
  let path f := (res_dir +:+ "/" +:+ f)%string in
  perf device (dev_setup (files (path lat)) (files (path const)) (files (path util)) dev_mem).

Definition setupDevicePerfModel (files : string -> list string) (res_dir : string)
    (config : option Value) : SM bool :=
  match config with
  | None => mret EXIT_FAILURE
  | Some root =>
      specs ← lift (member root "device_specs");
      _ ← for_each (elements specs) (dev_spec files res_dir);
      mret EXIT_SUCCESS
  end.

(** ** [BaseScheduler::initializeScheduler] *)
Definition initializeScheduler (sim_config mem_config device_config : option Value)
    (files : string -> list string) (batch_files : string -> option string)
    (res_dir : string) (batch_filenames : list string) : SM bool :=
  failed ← setupScheduler sim_config;
  if (failed : bool) then mret false else
  failed ← setupDevicePerfModel files res_dir device_config;
  if (failed : bool) then mret false else
  failed ← setupPerModelMemConfig mem_config;
  if (failed : bool) then mret false else
  _ ← setupBatchLatencyTables (fun f => batch_files (res_dir +:+ "/" +:+ f)%string) batch_filenames;
  mret true.

(** ** [NetworkLimitChecker::setupPerTaskInputDimension]

    The table of the checker is the state. *)
Definition input_elements (dims : Value) : outcome Z :=
  zs ← int_elements dims; mret (foldl (fun size d => i32 (size * d)) 1%Z zs).

Definition type_bytes (input_type : string) : option Z :=
  if String.eqb input_type "FP32" then Some 4%Z
  else if String.eqb input_type "INT64" then Some 8%Z else None.

Definition task_bytes (models : Value) (i : nat) : M (gmap Z Z) (option bool) :=
  model ← lift (element models i);
  id ← lift (v ← member model "proxy_id"; asInt v);
  size ← lift (v ← member model "input_dim"; input_elements v);
  input_type ← lift (v ← member model "input_type"; asString v);
  match type_bytes input_type with
  | Some bytes => _ ← modify (<[id := i32 (size * bytes)]>); mret None
  | None => mret (Some EXIT_FAILURE)
  end.

Definition setupPerTaskInputDimension (config : option Value) : M (gmap Z Z) bool :=
  match config with
  | None => mret EXIT_FAILURE
  | Some root =>
      models ← lift (member root "Models");
      r ← for_ret (seq 0 (size models)) (task_bytes models);
      mret (match r with Some failed => failed | None => EXIT_SUCCESS end)
  end.
