(* ===== verification/LatencyQueries.v ===== *)
(** * Latency queries

    A query may insert table entries, yet no later query can tell: the answers
    of [getLatency] are a function of the profile, and on a completely profiled
    partition they always exist.  The batch searches and the interference
    adjustments are verified against such answers. *)
From Stdlib Require Import ZArith SpecFloat String Lia.
From S2P Require Import Prelude CppFloat CppStd LatencyModel DevPerfModel SchedData SchedUtils SchedBase.

(** ** Queries of a profiled device

    [respects] says that a query cannot tell two equal tables apart: the answer
    of a later query is the answer of the same query now. *)
Definition respects {S A} (R : S -> S -> Prop) (m : M S A) : Prop :=
  forall s t, R s t -> match m s, m t with
                       | Done (a, s'), Done (b, t') => a = b /\ R s' t'
                       | Stop e, Stop f => e = f
                       | _, _ => False
                       end.

Section Respects.
Context {S : Type} (R : S -> S -> Prop).
Lemma respects_ret {A} (a : A) : respects R (mret a).
Proof. intros s t H. done. Qed.
Lemma respects_fail {A} e : respects R (fail e : M S A).
Proof. intros s t H. done. Qed.
Lemma respects_lift {A} (o : outcome A) : respects R (lift o).
Proof. intros s t H. unfold lift. by destruct o. Qed.
Lemma respects_bind {A B} (m : M S A) (f : A -> M S B) :
  respects R m -> (forall a, respects R (f a)) -> respects R (m ≫= f).
Proof.
  intros Hm Hf s t H. unfold mbind, M_bind. specialize (Hm s t H).
  destruct (m s) as [[a s']|e], (m t) as [[b t']|e']; try done.
  destruct Hm as [-> Hm]. by apply Hf.
Qed.
Lemma respects_massert b : respects R (massert b).
Proof. destruct b; [apply respects_ret|apply respects_fail]. Qed.
End Respects.

Lemma read_lat_respects model key : respects lm_same (read_lat model key).
Proof.
  intros s t (Hl & Ht & Hb). pose proof (read_lat_spec model key s) as Hs.
  pose proof (read_lat_spec model key t) as Hs'. rewrite Ht in Hs'.
  destruct (_perModelLatnecyTable s !! model) as [tb|] eqn:E; [|by rewrite Hs, Hs'].
  destruct (tb !! key); rewrite Hs, Hs'; (split; [done|]); [done|].
  unfold lm_same, lat_at, bvec_of in *. cbn. split_and!; [done|done|exact Hb].
Qed.
Lemma read_bvec_respects model part : respects lm_same (read_bvec model part).
Proof.
  intros s t H. destruct (read_bvec_same model part s) as (s' & -> & Hs).
  destruct (read_bvec_same model part t) as (t' & -> & Ht).
  destruct H as (Hl & Htb & Hb). destruct Hs as (?&?&?), Ht as (?&?&?).
  split; [by rewrite Hb|]. unfold lm_same. split_and!; intros; congruence.
Qed.
Lemma getBatchInterpolatedLatency_respects model b p :
  respects lm_same (getBatchInterpolatedLatency model b p).
Proof.
  unfold getBatchInterpolatedLatency. destruct (_ || _); [apply read_lat_respects|].
  apply respects_bind; [apply read_bvec_respects|]. intros v.
  apply respects_bind; [apply respects_lift|]. intros [b1 b2].
  apply respects_bind; [apply read_lat_respects|]. intros l1.
  apply respects_bind; [apply read_lat_respects|]. intros l2.
  apply respects_bind; [apply respects_massert|]. intros _. apply respects_ret.
Qed.
Lemma getBatchPartInterpolatedLatency_respects model b p :
  respects lm_same (getBatchPartInterpolatedLatency model b p).
Proof.
  intros s t H. unfold getBatchPartInterpolatedLatency.
  rewrite (bind_done get _ s _ _ eq_refl), (bind_done get _ t _ _ eq_refl).
  rewrite (proj1 (proj2 H)).
  refine (respects_bind lm_same _ _ _ _ s t H); [apply respects_lift|]. intros tb. cbv zeta.
  apply respects_bind; [apply respects_massert|]. intros _.
  apply respects_bind; [apply respects_lift|]. intros front.
  apply respects_bind; [apply respects_lift|]. intros back.
  do 5 (apply respects_bind; [apply getBatchInterpolatedLatency_respects|]; intros ?).
  apply respects_ret.
Qed.
Lemma getLatency_respects model b p : respects lm_same (LatencyModel.getLatency model b p).
Proof.
  unfold LatencyModel.getLatency. apply respects_bind; [apply respects_massert|]. intros _.
  cbv zeta. intros s t H.
  rewrite (bind_done get _ s _ _ eq_refl), (bind_done get _ t _ _ eq_refl).
  rewrite (proj1 (proj2 H)).
  destruct (_ !! lenet_alias model) as [tb|]; [|done].
  destruct (tb !! makeKey b p);
    [by apply getBatchInterpolatedLatency_respects|by apply getBatchPartInterpolatedLatency_respects].
Qed.

(** ** [getLatency] on a profiled device *)

(** The caches of one device may differ in ways no query can see; everything
    else is equal. *)
Record same_to (device : string) (w w' : World) : Prop := {
  st_lat : lm_same (_latModel (perf_of (w_sched w) device)) (_latModel (perf_of (w_sched w') device));
  st_int : _intModel (perf_of (w_sched w') device) = _intModel (perf_of (w_sched w) device);
  st_sched : set_nametoDevPerfModelTable ∅ (w_sched w') = set_nametoDevPerfModelTable ∅ (w_sched w);
  st_tasks : w_tasks w' = w_tasks w;
  st_nodes : w_nodes w' = w_nodes w;
  st_gpus : w_gpus w' = w_gpus w }.

#[global] Instance same_to_preorder device : PreOrder (same_to device).
Proof.
  split; [by split|]. intros a b c [] []. split; [by etrans|congruence..].
Qed.

(** Everything [getLatency] needs to answer for one model on one partition. *)
Record profiled (device model : string) (model_num part : Z) (w : World) : Prop := {
  pr_dev : String.eqb device "" = false;
  pr_at : at_index (_IDtoModelName (w_sched w)) model_num = Done model;
  pr_table : table_ok (_latModel (perf_of (w_sched w) device)) (lenet_alias model);
  pr_part : complete (_latModel (perf_of (w_sched w) device)) (lenet_alias model) part;
  pr_overhead : _useBatchingOverhead (w_sched w) = true ->
    forall b, (1 <= b <= 32)%Z -> exists v, getBatchLatency model b w = Done (v, w) }.

(** The answer, as a function of the batch size. *)
Definition latency_of (w : World) (device : string) (model_num part b : Z) : spec_float :=
  match getLatency_part device model_num b part w with Done (v, _) => v | Stop _ => fzero end.

Lemma sched_proj {A} (f : Sched -> A) device w w' :
  same_to device w w' ->
  (forall s, f (set_nametoDevPerfModelTable ∅ s) = f s) -> f (w_sched w') = f (w_sched w).
Proof. intros Hs Hf. rewrite <- (Hf (w_sched w')), <- (Hf (w_sched w)). by rewrite (st_sched _ _ _ Hs). Qed.

Lemma getBatchLatency_same device model b w w' v :
  same_to device w w' -> getBatchLatency model b w = Done (v, w) ->
  getBatchLatency model b w' = Done (v, w').
Proof.
  intros Hs. unfold getBatchLatency, sched, massert, gets.
  pose proof (sched_proj _batch_latency_3_224_224 _ _ _ Hs (fun _ => eq_refl)) as H1.
  pose proof (sched_proj _batch_latency_3_300_300 _ _ _ Hs (fun _ => eq_refl)) as H2.
  unfold mbind, M_bind, mret, M_ret, fail. destruct (1 <=? b)%Z; [|done].
  destruct (is_lenet model); [|destruct (is_224 model); [|destruct (String.eqb _ _);
    [|destruct (String.eqb _ _); [|done]]]]; cbn; rewrite ?H1, ?H2;
    destruct (fneqb _ _); cbn; congruence.
Qed.

Lemma perf_of_insert s device d :
  perf_of (set_nametoDevPerfModelTable (<[device := d]> (_nametoDevPerfModelTable s)) s) device = d.
Proof. unfold perf_of. cbn. by rewrite lookup_insert_eq. Qed.

(** Two worlds that no query can tell apart give the same answer, which exists
    when the partition is profiled. *)
Lemma perf_latency_same device model b part w0 w :
  table_ok (_latModel (perf_of (w_sched w0) device)) (lenet_alias model) ->
  complete (_latModel (perf_of (w_sched w0) device)) (lenet_alias model) part ->
  (1 <= b <= 32)%Z -> same_to device w0 w ->
  exists v w0' w', perf device (dev_getLatency model b part) w0 = Done (v, w0') /\
    perf device (dev_getLatency model b part) w = Done (v, w') /\
    same_to device w0 w0' /\ same_to device w0 w'.
Proof.
  intros Ht Hc Hb Hs.
  destruct (getLatency_total _ _ _ _ Ht Hc Hb) as (v & lm & Hrun & Hsame).
  pose proof (getLatency_respects model b part _ _ (st_lat _ _ _ Hs)) as Hr.
  rewrite Hrun in Hr. unfold perf, zoom, dev_getLatency, zoom. rewrite Hrun.
  destruct (LatencyModel.getLatency model b part (_latModel (perf_of (w_sched w) device)))
    as [[v' lm']|] ; cbn in Hr; [|done].
  destruct Hr as [<- Hlm]. eexists v, _, _. split_and!; [done|done| |].
  - split; try done; cbn; by rewrite perf_of_insert.
  - destruct Hs. split; try done; cbn; rewrite perf_of_insert; [by etrans|done].
Qed.

Lemma getLatency_part_same device model model_num part b w0 w :
  profiled device model model_num part w0 -> (1 <= b <= 32)%Z -> same_to device w0 w ->
  exists w', getLatency_part device model_num b part w =
    Done (latency_of w0 device model_num part b, w') /\ same_to device w0 w'.
Proof.
  intros [Hd Hn Ht Hc Ho] Hb Hs.
  destruct (perf_latency_same device model b part w0 w Ht Hc Hb Hs) as (v & w0' & w' & H0 & Hw & Hs0 & Hs').
  assert (Hgen : forall u u', same_to device w0 u -> same_to device w0 u' ->
    perf device (dev_getLatency model b part) u = Done (v, u') ->
    getLatency_part device model_num b part u = Done (
      let l := if _useBatchingOverhead (w_sched w0)
               then fadd v (match getBatchLatency model b w0 with Done (o, _) => o | Stop _ => fzero end)
               else v in fmul l (_latencyRatio (w_sched w0)), u')).
  { intros u u' Hu Hu' Hrun. unfold getLatency_part.
    rewrite (bind_done _ _ _ tt u) by (unfold massert; by rewrite Hd).
    rewrite (bind_done _ _ _ tt u).
    2:{ unfold massert, _MAX_BATCH.
        by replace ((1 <=? b) && (b <=? 32))%Z with true by (symmetry; apply andb_true_intro; rewrite !Z.leb_le; lia). }
    rewrite (bind_done _ _ _ model u).
    2:{ unfold getModelName, sched. rewrite (bind_done (gets w_sched) _ u (w_sched u) u eq_refl).
        unfold lift. rewrite (sched_proj _IDtoModelName _ _ _ Hu (fun _ => eq_refl)). by rewrite Hn. }
    rewrite (bind_done _ _ _ _ _ Hrun).
    rewrite (bind_done sched _ u' (w_sched u') u' eq_refl).
    rewrite (sched_proj _useBatchingOverhead _ _ _ Hu' (fun _ => eq_refl)).
    rewrite (sched_proj _latencyRatio _ _ _ Hu' (fun _ => eq_refl)).
    destruct (_useBatchingOverhead (w_sched w0)); [|done].
    destruct (Ho eq_refl b Hb) as [o Hov]. rewrite Hov.
    pose proof (getBatchLatency_same _ _ _ _ _ _ Hu' Hov) as Hov'.
    unfold mbind, M_bind. rewrite Hov'. done. }
  exists w'. split; [|done].
  unfold latency_of. rewrite (Hgen w0 w0' ltac:(reflexivity) Hs0 H0). by apply Hgen.
Qed.

(** ** [getLatency] with interference *)
Section SameTo.
Context (device : string).
Abbreviation R := (same_to device).

Lemma respects_rd_node p : respects R (rd_node p).
Proof.
  intros s t H. unfold rd_node, mbind, M_bind, get. rewrite (st_nodes _ _ _ H).
  unfold lift, deref. by destruct (w_nodes s !! p).
Qed.
Lemma respects_rd_task p : respects R (rd_task p).
Proof.
  intros s t H. unfold rd_task, mbind, M_bind, get. rewrite (st_tasks _ _ _ H).
  unfold lift, deref. by destruct (w_tasks s !! p).
Qed.
Lemma respects_rd_gpu p : respects R (rd_gpu p).
Proof.
  intros s t H. unfold rd_gpu, mbind, M_bind, get. rewrite (st_gpus _ _ _ H).
  unfold lift, deref. by destruct (w_gpus s !! p).
Qed.
(** Code that reads the configuration only. *)
Lemma respects_sched {A} (f : Sched -> SM A) :
  (forall s s', set_nametoDevPerfModelTable ∅ s' = set_nametoDevPerfModelTable ∅ s -> f s' = f s) ->
  (forall s, respects R (f s)) -> respects R (sched ≫= f).
Proof.
  intros Hf Hr s t H. rewrite (bind_done sched f s (w_sched s) s eq_refl).
  rewrite (bind_done sched f t (w_sched t) t eq_refl).
  rewrite (Hf _ _ (st_sched _ _ _ H)). by apply Hr.
Qed.
Lemma respects_for_acc {A V} (l : list A) (v : V) (body : V -> A -> SM V) :
  (forall v x, respects R (body v x)) -> respects R (for_acc l v body).
Proof.
  intros Hb. revert v. induction l as [|x l IH]; intros v; cbn; [apply respects_ret|].
  apply respects_bind; auto.
Qed.
Lemma respects_perf_latency model b p : respects R (perf device (dev_getLatency model b p)).
Proof.
  intros s t H. pose proof (getLatency_respects model b p _ _ (st_lat _ _ _ H)) as Hr.
  unfold perf, dev_getLatency, zoom.
  destruct (LatencyModel.getLatency model b p (_latModel (perf_of (w_sched s) device))) as [[v l]|e],
    (LatencyModel.getLatency model b p (_latModel (perf_of (w_sched t) device))) as [[v' l']|e'];
    cbn in Hr; try done. destruct Hr as [<- Hl]. split; [done|].
  destruct H. split; try done; cbn; rewrite !perf_of_insert; done.
Qed.
Lemma respects_perf_interference a b c d e f :
  respects R (perf device (dev_getInterference a b c d e f)).
Proof.
  intros s t H. unfold perf, dev_getInterference, zoom, mbind, M_bind, get, lift.
  rewrite (st_int _ _ _ H). destruct (im_getInterference _ _ _ _ _ _ _); [|done].
  split; [done|]. destruct H. split; try done; cbn; rewrite !perf_of_insert; done.
Qed.
End SameTo.

(** [rsp] walks through a query. *)
Create HintDb rsp.
#[export] Hint Resolve respects_ret respects_fail respects_lift respects_massert respects_rd_node
  respects_rd_task respects_rd_gpu respects_perf_latency respects_perf_interference : rsp.
Ltac rsp_sched := intros s s' H;
  repeat match goal with
  | |- context [_useBatchingOverhead s'] => rewrite (f_equal _useBatchingOverhead H : _useBatchingOverhead s' = _useBatchingOverhead s)
  | |- context [_useInterference s'] => rewrite (f_equal _useInterference H : _useInterference s' = _useInterference s)
  | |- context [_latencyRatio s'] => rewrite (f_equal _latencyRatio H : _latencyRatio s' = _latencyRatio s)
  | |- context [_IDtoModelName s'] => rewrite (f_equal _IDtoModelName H : _IDtoModelName s' = _IDtoModelName s)
  | |- context [_batch_latency_3_224_224 s'] =>
      rewrite (f_equal _batch_latency_3_224_224 H : _batch_latency_3_224_224 s' = _batch_latency_3_224_224 s)
  | |- context [_batch_latency_3_300_300 s'] =>
      rewrite (f_equal _batch_latency_3_300_300 H : _batch_latency_3_300_300 s' = _batch_latency_3_300_300 s)
  end; reflexivity.
Ltac rsp :=
  repeat first
    [ solve [eauto with rsp nocore]
    | lazymatch goal with
      | |- respects _ (mbind _ sched) => apply respects_sched; [rsp_sched | intros ?]
      | |- respects _ (mbind _ _) => apply respects_bind; [ | intros ?]
      | |- respects _ (for_acc _ _ _) => apply respects_for_acc; intros ? ?
      | |- respects _ (if ?b then _ else _) => destruct b
      | |- respects _ (let _ := _ in _) => cbv zeta
      end ].

Lemma getModelName_respects d i : respects (same_to d) (getModelName i).
Proof. unfold getModelName. rsp. Qed.
#[export] Hint Resolve getModelName_respects : rsp.
Lemma getBatchLatency_respects d m b : respects (same_to d) (getBatchLatency m b).
Proof. unfold getBatchLatency. rsp. Qed.
#[export] Hint Resolve getBatchLatency_respects : rsp.
Lemma getInterference_respects d m b np l : respects (same_to d) (getInterference d m b np l).
Proof. unfold getInterference, getInterference_pair, isSameNode. rsp. Qed.
#[export] Hint Resolve getInterference_respects : rsp.
Lemma getLatency_respects_same d m b np sim : respects (same_to d) (getLatency d m b np sim).
Proof. unfold getLatency. rsp. Qed.
Lemma getLatency_part_respects d m b p : respects (same_to d) (getLatency_part d m b p).
Proof. unfold getLatency_part. rsp. Qed.

(** On a profiled partition, without interference, every query answers and
    changes nothing a query could see. *)
Definition node_latency_of (w : World) (device : string) (id : Z) (np : NodePtr) (sim : SimState)
    (b : Z) : spec_float :=
  match getLatency device id b np sim w with Done (v, _) => v | Stop _ => fzero end.

Lemma getLatency_node_same device model id np n sim b w :
  w_nodes w !! np = Some n -> _useInterference (w_sched w) = false ->
  profiled device model id (n_resource_pntg n) w -> (1 <= b <= 32)%Z ->
  exists w', getLatency device id b np sim w = Done (node_latency_of w device id np sim b, w') /\
    same_to device w w'.
Proof.
  intros Hn Hi [Hd Hm Ht Hc Ho] Hb.
  destruct (perf_latency_same device model b (n_resource_pntg n) w w Ht Hc Hb ltac:(reflexivity))
    as (v & w1 & _ & Hrun & _ & Hs & _).
  exists w1. split; [|done]. unfold node_latency_of.
  assert (Hgen : exists x, getLatency device id b np sim w = Done (x, w1)); [|by destruct Hgen as [x ->]].
  unfold getLatency. rewrite (bind_done _ _ _ tt w) by (unfold massert; by rewrite Hd).
  rewrite (bind_done _ _ _ tt w) by (unfold massert; by rewrite (proj2 (Z.leb_le _ _) (proj1 Hb))).
  rewrite (bind_done _ _ _ model w).
  2:{ unfold getModelName, sched. rewrite (bind_done (gets w_sched) _ w (w_sched w) w eq_refl).
      unfold lift. by rewrite Hm. }
  rewrite (bind_done _ _ _ _ _ (rd_node_ok _ _ _ Hn)).
  rewrite (bind_done _ _ _ _ _ Hrun).
  rewrite (bind_done sched _ w1 (w_sched w1) w1 eq_refl).
  rewrite (sched_proj _useBatchingOverhead _ _ _ Hs (fun _ => eq_refl)).
  rewrite (sched_proj _useInterference _ _ _ Hs (fun _ => eq_refl)), Hi. cbn [andb].
  destruct (_useBatchingOverhead (w_sched w)).
  - destruct (Ho eq_refl b Hb) as [o Hov].
    rewrite (bind_done _ _ _ _ _ (getBatchLatency_same _ _ _ _ _ _ Hs Hov)). by eexists.
  - by eexists.
Qed.
