(* ===== verification/BatchSearch.v ===== *)
(** * The search for the largest admissible batch size ([getMaxBatch])

    The binary search is verified against its specification for every latency
    function that can be queried, then instantiated with the profiled tables. *)
From Stdlib Require Import ZArith SpecFloat String Lia.
From S2P Require Import Prelude CppFloat CppStd LatencyModel DevPerfModel SchedData SchedUtils SchedBase LatencyQueries.

(** What the search promises about its result [r]: [r] is admissible unless it
    is 0, and the next size is not, unless it is the last one tried. *)
Record search_result (F : Z -> bool) (r : Z) : Prop := {
  sr_range : (0 <= r <= 31)%Z;
  sr_fits : (1 <= r)%Z -> F r = true;
  sr_next : (r < 31)%Z -> F (r + 1)%Z = false }.

(** Largest, when admissibility is downward closed. *)
Lemma search_result_max F r :
  search_result F r -> (forall a b, (1 <= a <= b)%Z -> (b <= 31)%Z -> F b = true -> F a = true) ->
  forall b, (1 <= b <= 31)%Z -> F b = true -> (b <= r)%Z.
Proof.
  intros [Hr _ Hn] Hmono b Hb HF. destruct (decide (r < b)%Z); [|lia].
  assert (F (r + 1)%Z = true) by (apply (Hmono _ b); [lia|lia|done]). rewrite Hn in *; [done|lia].
Qed.

(** States of the search: an interval of at least two steps, or the last check
    of batch size 1. *)
Definition search_inv (F : Z -> bool) (st : Z * Z * bool) : Prop :=
  let '(low, high, check_last) := st in
  check_last = false /\
  ((1 <= low /\ low + 2 <= high <= 32 /\ (1 < low -> F low = true) /\ (high < 32 -> F high = false))%Z
   \/ (low = 1 /\ high = 1 /\ F 2 = false)%Z).

(** One round, from an interval. *)
Lemma search_round_interval F low high n :
  (1 <= low)%Z -> (low + 2 <= high <= 32)%Z -> ((1 < low)%Z -> F low = true) ->
  ((high < 32)%Z -> F high = false) -> (high - low <= 2 ^ Z.of_nat (S n))%Z ->
  let mid := Z.quot (high + low) 2 in
  (1 <= mid <= 31)%Z /\
  match search_round (F mid) mid low high false with
  | inl (low', high', cl') => search_inv F (low', high', cl') /\ (high' - low' <= 2 ^ Z.of_nat n)%Z
  | inr r => search_result F r
  end.
Proof.
  intros Hl Hh Hfl Hfh Hn mid.
  rewrite Nat2Z.inj_succ, Z.pow_succ_r in Hn by lia.
  assert (Hpow : (1 <= 2 ^ Z.of_nat n)%Z) by (pose proof (Z.pow_pos_nonneg 2 (Z.of_nat n)); lia).
  set (P := (2 ^ Z.of_nat n)%Z) in *.
  assert (Hmid : (low < mid < high /\ mid - low <= P /\ high - mid <= P)%Z).
  { unfold mid. rewrite Z.quot_div_nonneg by lia.
    pose proof (Z.div_mod (high + low) 2 ltac:(lia)). pose proof (Z.mod_pos_bound (high + low) 2 ltac:(lia)).
    lia. }
  split; [lia|]. unfold search_round. rewrite andb_false_r.
  set (l' := if F mid then mid else low). set (h' := if F mid then high else mid).
  assert (Hst : (1 <= l' /\ l' < h' <= 32 /\ h' - l' <= P /\ (1 < l' -> F l' = true) /\
    (h' < 32 -> F h' = false) /\ (l' = 1 -> F mid = false /\ h' = mid))%Z).
  { unfold l', h'. destruct (F mid) eqn:E; split_and!; try lia; auto. }
  clearbody l' h'. destruct Hst as (H1 & H2 & H3 & H4 & H5 & H6).
  destruct (h' - l' <=? 1)%Z eqn:E1.
  - apply Z.leb_le in E1. assert (h' = l' + 1)%Z as -> by lia. rewrite Z.eqb_refl. cbn [andb].
    rewrite orb_false_r. destruct (l' =? 1)%Z eqn:E2; cbn [negb].
    + apply Z.eqb_eq in E2. subst l'. destruct (H6 eq_refl) as [E3 E4].
      split; [|lia]. split; [done|]. right. split_and!; [done|done|]. by rewrite <- E4 in E3.
    + apply Z.eqb_neq in E2. split; [lia|auto with lia|]. intros Hlt. apply H5. lia.
  - apply Z.leb_gt in E1. replace (h' =? l')%Z with false by (symmetry; apply Z.eqb_neq; lia).
    cbn [andb]. split; [|done]. split; [done|]. left. split_and!; auto with lia.
Qed.

(** The round that checks batch size 1. *)
Lemma search_round_last F :
  F 2%Z = false ->
  exists r, search_round (F 1%Z) 1 1 1 true = inr r /\ search_result F r.
Proof.
  intros H2. unfold search_round. destruct (F 1%Z) eqn:E; cbn; eexists; (split; [done|]).
  - split; [lia|done|done].
  - split; [lia|lia|done].
Qed.

Section Search.
Context (I : World -> Prop) (latency_at : Z -> SM spec_float) (lat : Z -> spec_float)
  (fits : Z -> spec_float -> bool).
Context (Hlat : forall b w, (1 <= b <= 31)%Z -> I w -> exists w', latency_at b w = Done (lat b, w') /\ I w').

Abbreviation F := (fun b => fits b (lat b)).

Definition round (st : Z * Z * bool) : SM ((Z * Z * bool) + Z) :=
  let '(low_batch, high_batch, check_last) := st in
  let check_last :=
    if ((low_batch =? 1) && (high_batch =? 1))%Z then true else check_last in
  let mid_batch := Z.quot (high_batch + low_batch) 2 in
  latency ← latency_at mid_batch;
  mret (search_round (fits mid_batch latency) mid_batch low_batch high_batch check_last).

Lemma round_run low high cl w w1 :
  let mid := Z.quot (high + low) 2 in
  latency_at mid w = Done (lat mid, w1) ->
  round (low, high, cl) w = Done (search_round (F mid) mid low high
    (if ((low =? 1) && (high =? 1))%Z then true else cl), w1).
Proof. intros mid H. unfold round. fold mid. by rewrite (bind_done _ _ _ _ _ H). Qed.

Lemma batch_search_loop n fuel st w :
  (n + 2 <= fuel)%nat -> search_inv F st -> (st.1.2 - st.1.1 <= 2 ^ Z.of_nat n)%Z -> I w ->
  exists r w', loop fuel st round w = Done (r, w') /\ I w' /\ search_result F r.
Proof.
  revert fuel st w. induction n as [|n IH]; intros fuel [[low high] cl] w Hf [-> Hst] Hsz Hw;
    (destruct fuel as [|fuel]; [lia|]); cbn [loop]; cbn in Hsz;
    destruct Hst as [(Hl & Hh & Hfl & Hfh)|(-> & -> & H2)].
  1: lia.
  1, 3: (destruct (Hlat 1 w ltac:(lia) Hw) as (w1 & Hq & Hw1);
    destruct (search_round_last F H2) as (r & Hr & Hres);
    exists r, w1; split; [|done];
    rewrite (bind_done _ _ _ _ _ (round_run 1 1 false w w1 Hq)); cbn - [search_round];
    change (Z.quot (1 + 1) 2) with 1%Z; by rewrite Hr).
  destruct (search_round_interval F low high n Hl Hh Hfl Hfh Hsz) as [Hmid Hround].
  destruct (Hlat _ w Hmid Hw) as (w1 & Hq & Hw1).
  rewrite (bind_done _ _ _ _ _ (round_run low high false w w1 Hq)).
  replace ((low =? 1) && (high =? 1))%Z with false
    by (symmetry; apply andb_false_iff; right; apply Z.eqb_neq; lia).
  destruct (search_round _ _ _ _ _) as [[[l' h'] c']|r].
  - apply IH; [lia|apply Hround|apply Hround|done].
  - exists r, w1. done.
Qed.

(** The search returns, within its fuel, a result that meets the promise. *)
Lemma batch_search_spec w :
  I w -> exists r w', batch_search latency_at fits w = Done (r, w') /\ I w' /\ search_result F r.
Proof.
  intros Hw. apply (batch_search_loop 5); [unfold SEARCH_FUEL; lia| |by vm_compute|done].
  split; [done|]. left. unfold _MAX_BATCH. split_and!; lia.
Qed.
End Search.

(** ** [getMaxBatch] *)

(** The latency query of a node: with the interference of the other node of its
    GPU, or of its partition alone. *)
Definition node_query (interference : bool) (n : Node) (id : Z) (np : NodePtr) (sim : SimState) (b : Z) : SM spec_float :=
  if interference then getLatency (n_type n) id b np sim
  else getLatency_part (n_type n) id b (n_resource_pntg n).
Lemma node_query_respects interference n id np sim b : respects (same_to (n_type n)) (node_query interference n id np sim b).
Proof. destruct interference; [apply getLatency_respects_same|apply getLatency_part_respects]. Qed.

(** A query that answers [v] in a world answers it in every world that differs in
    the cache of its device only. *)
Lemma query_stays d (q : SM spec_float) v w w' u : respects (same_to d) q ->
  q w = Done (v, w') -> same_to d w w' -> same_to d w u ->
  exists u', q u = Done (v, u') /\ same_to d w u'.
Proof.
  intros Hq Hrun Hw' Hu. pose proof (Hq _ _ Hu) as Hr. rewrite Hrun in Hr.
  destruct (q u) as [[v' u']|]; cbn in Hr; [|done]. destruct Hr as [<- Hu']. exists u'. split; [done|]. etrans; [exact Hw'|exact Hu'].
Qed.

(** The latencies [lat] the queries of the search answer. *)
Definition queries (interference : bool) (w : World) (n : Node) (id : Z) (np : NodePtr) (sim : SimState)
    (lat : Z -> spec_float) : Prop :=
  forall b, (1 <= b <= 31)%Z -> exists w', node_query interference n id np sim b w = Done (lat b, w') /\
    same_to (n_type n) w w'.
Lemma queries_profiled w n model id np sim : profiled (n_type n) model id (n_resource_pntg n) w ->
  queries false w n id np sim (latency_of w (n_type n) id (n_resource_pntg n)).
Proof. intros Hp b Hb. apply (getLatency_part_same _ model id _ b w w Hp); [lia|reflexivity]. Qed.

(** The search, then what is left of a residue. *)
Lemma getMaxBatch_spec task node n input req is_residue interference lat b1_latency w :
  w_nodes w !! node = Some n -> queries interference w n (t_id task) node input lat ->
  (is_residue = true -> exists w', getLatency (n_type n) (t_id task) 1 node input w = Done (b1_latency, w') /\
    same_to (n_type n) w w') ->
  exists r w', same_to (n_type n) w w' /\
    search_result (fun b => batch_fits is_residue (t_SLO task) req b (lat b)) r /\
    getMaxBatch task node input req is_residue interference w = Done (
      if ((r =? 0)%Z && is_residue) then
        if ltb (f2d b1_latency) (ddiv (dmul (i2d 1000) (i2d 1)) (i2d req)) && ltb b1_latency (i2f (t_SLO task))
        then (1%Z, f2i (fmul (fmul (i2f 1) (fdiv (i2f 1000) (fsub (i2f (t_SLO task)) b1_latency)))
                           (_latencyRatio (w_sched w))))
        else (0%Z, req)
      else (r, req), w').
Proof.
  intros Hn Hq H1.
  assert (Hnode : forall u, same_to (n_type n) w u -> rd_node node u = Done (n, u)).
  { intros u Hu. apply rd_node_ok. by rewrite (st_nodes _ _ _ Hu). }
  destruct (batch_search_spec (same_to (n_type n) w)
    (fun mid_batch => n ← rd_node node;
       if interference then getLatency (n_type n) (t_id task) mid_batch node input
       else getLatency_part (n_type n) (t_id task) mid_batch (n_resource_pntg n))
    lat (batch_fits is_residue (t_SLO task) req)) with (w := w) as (r & w' & Hrun & Hs & Hr).
  - intros b u Hb Hu. destruct (Hq b Hb) as (w' & Hb' & Hw').
    destruct (query_stays _ _ _ _ _ u (node_query_respects interference n (t_id task) node input b) Hb' Hw' Hu) as (u' & Hu' & Hs').
    exists u'. split; [|done]. by rewrite (bind_done _ _ _ _ _ (Hnode u Hu)).
  - reflexivity.
  - exists r. destruct ((r =? 0)%Z && is_residue) eqn:E.
    + apply andb_true_iff in E as [Hz ->]. destruct (H1 eq_refl) as (w1 & Hl & Hw1).
      destruct (query_stays _ _ _ _ _ w' (getLatency_respects_same (n_type n) (t_id task) 1 node input) Hl Hw1 Hs)
        as (u' & Hu' & Hs'). exists u'. split_and!; [done|done|]. unfold getMaxBatch.
      rewrite (bind_done _ _ _ _ _ Hrun), Hz. cbn [andb].
      rewrite (bind_done _ _ _ _ _ (Hnode w' Hs)), (bind_done _ _ _ _ _ Hu').
      rewrite (bind_done sched _ u' (w_sched u') u' eq_refl).
      rewrite (sched_proj _latencyRatio _ _ _ Hs' (fun _ => eq_refl)). by destruct (_ && _).
    + exists w'. split_and!; [done|done|]. unfold getMaxBatch. by rewrite (bind_done _ _ _ _ _ Hrun), E.
Qed.
