(* ===== verification/SchedFrame.v ===== *)
(** * What the scheduler's operations leave alone

    [keeps K N w0] is the invariant of code that started in [w0] and may
    rewrite tasks, memory bookkeeping and caches, and create nodes, but keeps
    the partitioning: the size, identity and type of the nodes in [K], the node
    lists of the GPUs and the configuration stay what they were in [w0], and
    the nodes created since have a size in [N]. *)
From Stdlib Require Import ZArith SpecFloat String Lia.
From S2P Require Import Prelude CppFloat CppStd LatencyModel DevPerfModel SchedData SchedUtils SchedBase.

(** The partitioning seen through a node and through a GPU. *)
Definition shape (n : Node) : Z * Z * Z * string :=
  (n_resource_pntg n, n_id n, n_dedup_num n, n_type n).
Definition shape_at (w : World) (p : NodePtr) : option (Z * Z * Z * string) :=
  shape <$> w_nodes w !! p.
Definition gshape (g : GPU) : Z * string * list NodePtr := (g_GPUID g, g_TYPE g, g_vNodeList g).
Definition gshape_at (w : World) (p : GPUPtr) : option (Z * string * list NodePtr) :=
  gshape <$> w_gpus w !! p.

Definition shape_part (s : Z * Z * Z * string) : Z := s.1.1.1.
Definition part_at (w : World) (p : NodePtr) : Z := default 0%Z (shape_part <$> shape_at w p).

(** The configuration: everything of the scheduler object but the tables that
    act as caches. *)
Definition cfg (s : Sched) : Sched :=
  set_nametoDevPerfModelTable ∅ (set_perModelSatTable ∅ s).

Record keeps (K : NodePtr -> Prop) (N : Z -> Prop) (w0 w : World) : Prop := {
  k_dom : forall p, K p -> (p < length (w_nodes w0))%nat;
  k_len : (length (w_nodes w0) <= length (w_nodes w))%nat;
  k_nodes : forall p, K p -> shape_at w p = shape_at w0 p;
  k_new : forall p n, (length (w_nodes w0) <= p)%nat -> w_nodes w !! p = Some n ->
    N (n_resource_pntg n);
  k_gpus : forall p, gshape_at w p = gshape_at w0 p;
  k_cfg : cfg (w_sched w) = cfg (w_sched w0);
  k_indet : w_indet w = w_indet w0 }.

Definition all_nodes (w : World) (p : NodePtr) : Prop := (p < length (w_nodes w))%nat.

Lemma keeps_refl K N w : (forall p, K p -> all_nodes w p) -> keeps K N w w.
Proof.
  intros HK. split; try done. intros p n Hp Hn. apply lookup_lt_Some in Hn. lia.
Qed.
#[export] Hint Resolve keeps_refl : core.

Lemma part_at_shape w p s : shape_at w p = Some s -> part_at w p = shape_part s.
Proof. unfold part_at. by intros ->. Qed.

Section Frame.
Context (K : NodePtr -> Prop) (N : Z -> Prop) (w0 : World).
Abbreviation KP := (keeps K N w0).

(** Created after [w0]. *)
Definition fresh (p : nat) : Prop := (length (w_nodes w0) <= p)%nat.

Lemma keep_sched : keeping KP sched (fun s => cfg s = cfg (w_sched w0)).
Proof. apply keeping_gets. intros s []. done. Qed.

Lemma keep_mod_sched f :
  (forall s, cfg (f s) = cfg s) -> keeping KP (mod_sched f) any.
Proof.
  intros Hf. apply keeping_modify. intros s []. split; try done. cbn. by rewrite Hf.
Qed.

Lemma keep_rd_task p : keeping KP (rd_task p) any.
Proof. unfold rd_task. keep. Qed.
Lemma keep_rd_gpu p :
  keeping KP (rd_gpu p) (fun g => gshape_at w0 p = Some (gshape g)).
Proof.
  intros s g s' Hs H. unfold rd_gpu in H. minv H. split; [done|].
  rewrite <- (k_gpus _ _ _ _ Hs). unfold gshape_at. by rewrite H.
Qed.
Lemma keep_rd_node p :
  keeping KP (rd_node p) (fun n => (K p -> shape_at w0 p = Some (shape n)) /\
    (fresh p -> N (n_resource_pntg n))).
Proof.
  intros s g s' Hs H. unfold rd_node in H. minv H. split; [done|]. split; intros Hp.
  - rewrite <- (k_nodes _ _ _ _ Hs) by done. unfold shape_at. by rewrite H.
  - eapply (k_new _ _ _ _ Hs); eauto.
Qed.

Lemma keep_wr_task p f : keeping KP (wr_task p f) any.
Proof.
  intros s g s' Hs H. unfold wr_task in H. minv H. split; [|done]. destruct Hs. by split.
Qed.

(** A write to a node either keeps its shape, or goes to an unprotected one. *)
Lemma keep_wr_node p f :
  (forall n, shape (f n) = shape n) -> keeping KP (wr_node p f) any.
Proof.
  intros Hf s g s' Hs H. unfold wr_node in H. minv H. split; [|done].
  rename E into Hp. destruct Hs as [Hd Hl Hn Hw Hg Hc].
  split; try done; cbn.
  - by rewrite length_insert.
  - intros q Hq. rewrite <- Hn by done. unfold shape_at. cbn.
    destruct (decide (p = q)) as [->|].
    + rewrite list_lookup_insert_eq by (by eapply lookup_lt_Some). rewrite Hp. cbn. by rewrite Hf.
    + by rewrite list_lookup_insert_ne.
  - intros q n Hq Hqn. destruct (decide (p = q)) as [->|].
    + rewrite list_lookup_insert_eq in Hqn by (by eapply lookup_lt_Some).
      injection Hqn as <-. specialize (Hw _ _ Hq Hp). specialize (Hf a).
      unfold shape in Hf. injection Hf as -> _ _ _. done.
    + rewrite list_lookup_insert_ne in Hqn by done. by eapply Hw.
Qed.

Lemma keep_wr_node_free p f :
  ~ K p -> (forall n, N (n_resource_pntg n) -> N (n_resource_pntg (f n))) ->
  keeping KP (wr_node p f) any.
Proof.
  intros HK Hf s g s' Hs H. unfold wr_node in H. minv H. split; [|done].
  rename E into Hp. destruct Hs as [Hd Hl Hn Hw Hg Hc].
  split; try done; cbn.
  - by rewrite length_insert.
  - intros q Hq. rewrite <- Hn by done. unfold shape_at. cbn.
    rewrite list_lookup_insert_ne; [done|]. by intros ->.
  - intros q n Hq Hqn. destruct (decide (p = q)) as [->|].
    + rewrite list_lookup_insert_eq in Hqn by (by eapply lookup_lt_Some).
      injection Hqn as <-. apply Hf. by eapply Hw.
    + rewrite list_lookup_insert_ne in Hqn by done. by eapply Hw.
Qed.

Lemma keep_wr_node_fresh p f :
  fresh p -> (forall n, N (n_resource_pntg n) -> N (n_resource_pntg (f n))) ->
  keeping KP (wr_node p f) any.
Proof.
  intros Hp Hf s a s' Hs. eapply keep_wr_node_free; [|done|done].
  intros HK%(k_dom _ _ _ _ Hs). unfold fresh in Hp. lia.
Qed.

Lemma keep_wr_gpu p f :
  (forall g, gshape (f g) = gshape g) -> keeping KP (wr_gpu p f) any.
Proof.
  intros Hf s g s' Hs H. unfold wr_gpu in H. minv H. split; [|done].
  rename E into Hp. destruct Hs as [Hd Hl Hn Hw Hg Hc].
  split; try done; cbn. intros q. rewrite <- Hg. unfold gshape_at. cbn.
  destruct (decide (p = q)) as [->|]; [|by rewrite list_lookup_insert_ne].
  rewrite list_lookup_insert_eq by (by eapply lookup_lt_Some). rewrite Hp. cbn. by rewrite Hf.
Qed.

Lemma keep_new_task t : keeping KP (new_task t) any.
Proof.
  intros s g s' Hs H. unfold new_task in H. minv H. split; [|done]. destruct Hs. by split.
Qed.

Lemma keep_new_node n :
  N (n_resource_pntg n) -> keeping KP (new_node n) fresh.
Proof.
  intros HN s p s' Hs H. unfold new_node in H. minv H.
  destruct Hs as [Hd Hl Hn Hw Hg Hc]. split; [|done].
  split; try done; cbn.
  - rewrite length_app. cbn. lia.
  - intros q Hq. rewrite <- Hn by done. unfold shape_at. cbn.
    rewrite lookup_app_l; [done|]. specialize (Hd _ Hq). lia.
  - intros q m Hq [Hm|[Hle Hm]]%lookup_app_Some; [by eapply Hw|].
    apply list_lookup_singleton_Some in Hm as [_ <-]. done.
Qed.

End Frame.
#[export] Hint Resolve keep_sched keep_rd_task keep_rd_gpu keep_rd_node keep_wr_task
  keep_new_task keep_new_node : keeps.
#[export] Hint Resolve keeping_any : keeps.
#[export] Hint Extern 4 (keeping _ (wr_node _ _) any) => apply keep_wr_node; intros; reflexivity : keeps.
#[export] Hint Extern 5 (keeping _ (wr_node _ _) any) =>
  apply keep_wr_node_fresh; [eassumption | intros; cbn; eauto] : keeps.
#[export] Hint Extern 4 (keeping _ (wr_gpu _ _) any) => apply keep_wr_gpu; intros; reflexivity : keeps.
#[export] Hint Extern 4 (keeping _ (mod_sched _) any) => apply keep_mod_sched; intros; reflexivity : keeps.

(** ** Operations of [SchedUtils] and [SchedBase]

    None of them changes the partitioning; the ones that create no node do so
    whatever [N] is. *)
Section FrameBase.
Context (K : NodePtr -> Prop) (N : Z -> Prop) (w0 : World).
Abbreviation KP := (keeps K N w0).

Lemma keep_createNewTaskPtr a b c d e : keeping KP (createNewTaskPtr a b c d e) any.
Proof. unfold createNewTaskPtr, createNewTaskPtr_full, createNewTaskPtr_copy. keep. Qed.
Lemma keep_makeEmptyNode i p t : N p -> keeping KP (makeEmptyNode i p t) (fresh w0).
Proof. intros Hp. unfold makeEmptyNode. keep. Qed.
Lemma keep_getMaxPartSize sim : keeping KP (getMaxPartSize sim) any.
Proof. unfold getMaxPartSize. keep. Qed.
Lemma keep_getRequiredBandwidth g : keeping KP (getRequiredBandwidth g) any.
Proof. unfold getRequiredBandwidth. keep. Qed.
Hint Resolve keep_getRequiredBandwidth : keeps.
Lemma keep_isBandwidthOK_gpu g : keeping KP (isBandwidthOK_gpu g) any.
Proof. unfold isBandwidthOK_gpu. keep. Qed.
Lemma keep_adjustBatchSizetoNetBW t g : keeping KP (adjustBatchSizetoNetBW t g) any.
Proof. unfold adjustBatchSizetoNetBW. keep. Qed.

Lemma keep_getUseParts : keeping KP getUseParts any.
Proof. unfold getUseParts. keep. Qed.
Lemma keep_getModelName i : keeping KP (getModelName i) any.
Proof. unfold getModelName. keep. Qed.
Lemma keep_isSameNode a b : keeping KP (isSameNode a b) any.
Proof. unfold isSameNode. keep. Qed.
Hint Resolve keep_getModelName keep_isSameNode : keeps.
Lemma keep_getOtherNode n sim : keeping KP (getOtherNode n sim) any.
Proof. unfold getOtherNode. keep. Qed.
Lemma keep_getBatchLatency m b : keeping KP (getBatchLatency m b) any.
Proof. unfold getBatchLatency. keep. Qed.
Lemma keep_perf {A} d (m : M DevPerfModel A) : keeping KP (perf d m) any.
Proof.
  intros s a s' Hs H. split; [|done]. unfold perf, zoom in H.
  destruct (m _) as [[b t]|]; [|done]. injection H as <- <-. destruct Hs. by split.
Qed.
Hint Resolve keep_getBatchLatency keep_perf : keeps.
Lemma keep_getLatency_part d m b p : keeping KP (getLatency_part d m b p) any.
Proof. unfold getLatency_part. keep. Qed.
Lemma keep_getInterference_pair d a b x y p q : keeping KP (getInterference_pair d a b x y p q) any.
Proof. unfold getInterference_pair. keep. Qed.
Hint Resolve keep_getInterference_pair : keeps.
Lemma keep_getInterference d m b np l : keeping KP (getInterference d m b np l) any.
Proof. unfold getInterference. keep. Qed.
Hint Resolve keep_getInterference : keeps.
Lemma keep_getLatency d m b np sim : keeping KP (getLatency d m b np sim) any.
Proof. unfold getLatency. keep. Qed.
Hint Resolve keep_getLatency keep_getLatency_part : keeps.
Lemma keep_isPartLoaded g n : keeping KP (isPartLoaded g n) any.
Proof. unfold isPartLoaded. keep. Qed.
Hint Resolve keep_isPartLoaded : keeps.
Lemma keep_isModelLoaded g n m : keeping KP (isModelLoaded g n m) any.
Proof. unfold isModelLoaded. keep. Qed.

Lemma keep_res_shrink ty t np sim a b c : keeping KP (res_shrink ty t np sim a b c) any.
Proof. unfold res_shrink. keep. Qed.
Lemma keep_sum_latency np sim : keeping KP (sum_latency np sim) any.
Proof. unfold sum_latency. keep. Qed.
Hint Resolve keep_res_shrink keep_sum_latency : keeps.
Lemma keep_adjustResNode np sim : keeping KP (adjustResNode np sim) any.
Proof. unfold adjustResNode. keep. Qed.
Hint Resolve keep_adjustResNode : keeps.
Lemma keep_postAdjustInterference sim : keeping KP (postAdjustInterference sim) any.
Proof. unfold postAdjustInterference. keep. Qed.
Lemma keep_sat_shrink ty t np sim a b : keeping KP (sat_shrink ty t np sim a b) any.
Proof. unfold sat_shrink. keep. Qed.
Hint Resolve keep_sat_shrink : keeps.
Lemma keep_adjustSatNode_task np sim t : keeping KP (adjustSatNode_task np sim t) any.
Proof. unfold adjustSatNode_task, add_rate. keep. Qed.
Hint Resolve keep_adjustSatNode_task : keeps.
Lemma keep_adjustSatNode np sim : keeping KP (adjustSatNode np sim) any.
Proof. unfold adjustSatNode. keep. Qed.

Lemma keep_batch_search lat fits :
  (forall b, keeping KP (lat b) any) -> keeping KP (batch_search lat fits) any.
Proof. intros Hl. unfold batch_search. keep. Qed.
Lemma keep_getMaxBatch t np sim req r i : keeping KP (getMaxBatch t np sim req r i) any.
Proof.
  unfold getMaxBatch. eapply keeping_bind.
  - apply keep_batch_search. intros b. keep.
  - intros r' _. keep.
Qed.
End FrameBase.
#[export] Hint Resolve keep_createNewTaskPtr keep_makeEmptyNode keep_getMaxPartSize
  keep_getRequiredBandwidth keep_isBandwidthOK_gpu keep_adjustBatchSizetoNetBW keep_getUseParts
  keep_getModelName keep_isSameNode keep_getOtherNode keep_getBatchLatency keep_perf
  keep_getLatency_part keep_getInterference keep_getLatency keep_isPartLoaded keep_isModelLoaded
  keep_sum_latency keep_adjustResNode keep_postAdjustInterference keep_adjustSatNode_task
  keep_adjustSatNode keep_getMaxBatch : keeps.
