(* ===== verification/IncrEstimate.v ===== *)
(** * [IncrementalScheduler], part 1 ([scheduler/scheduler_incremental.cpp]):
    saturated throughput tables, partition estimates and memory bookkeeping. *)
From Stdlib Require Import ZArith SpecFloat String Lia.
From S2P Require Import Prelude CppFloat CppStd LatencyModel DevPerfModel SchedData SchedUtils SchedBase.

Definition TRP_SLACK : Z := 15.
Definition DEFAULT_PYTORCH_MEM_USAGE : Z := 1230.
Definition MEM_ROOM : spec_float := d2f (dlit 9 10).

(** ** Comparators *)
Definition cmp_task_dsc (a b : Task) : bool :=
  let ka := i32 (t_request_rate a * t_SLO a) in
  let kb := i32 (t_request_rate b * t_SLO b) in
  ((ka <? kb) || ((ka =? kb) && (t_id b <? t_id a)))%Z.

(** [std::sort] on node pointers with a comparison of the nodes. *)
Definition sort_nodes (comp : Node -> Node -> bool) (l : list NodePtr) : SM (list NodePtr) :=
  ns ← for_acc l [] (fun acc np => n ← rd_node np; mret (acc ++ [(np, n)]));
  mret (map fst (std_sort (fun a b => comp a.2 b.2) ns)).

Definition cmp_nodeptr_occu_dsc (a b : Node) : bool := gtb (n_occupancy a) (n_occupancy b).
Definition cmp_nodeptr_dsc (a b : Node) : bool := (n_resource_pntg b <? n_resource_pntg a)%Z.
Definition cmp_nodeptr_asc (a b : Node) : bool := (n_resource_pntg a <? n_resource_pntg b)%Z.

Definition checkContain (model_num : Z) (node_ptr : NodePtr) : SM bool :=
  n ← rd_node node_ptr;
  r ← for_ret (n_vTaskList n) (fun tp =>
    t ← rd_task tp; mret (if (model_num =? t_id t)%Z then Some true else None));
  mret (default false r).

Definition isModelScheduled (task : TaskPtr) (decision : SimState) : SM bool :=
  t0 ← rd_task task;
  for_acc (vGPUList decision) false (fun (ret_val : bool) gp =>
    g ← rd_gpu gp;
    for_acc (g_vNodeList g) ret_val (fun (ret_val : bool) np =>
      n ← rd_node np;
      for_acc (n_vTaskList n) ret_val (fun (ret_val : bool) tp =>
        t ← rd_task tp; mret (if (t_id t0 =? t_id t)%Z then true else ret_val)))).

(** ** Saturated throughput tables *)

(** [initSaturateTrp]: the [return] of an impossible entry leaves no table. *)
Definition sat_entry (task : Task) (temp_node_ptr : NodePtr) (type : string) (part : Z) :
    SM (option SatTrpEntry) :=
  _ ← wr_node temp_node_ptr (fun n => set_n_type type (set_n_resource_pntg part n));
  '(batch_size, _) ← getMaxBatch task temp_node_ptr (mkSimState [] [] 0) (t_request_rate task)
                       false false;
  o ← (if (batch_size =? 0)%Z then
         latency ← getLatency_part type (t_id task) 1 part;
         mret (if gtb (fmul (i2f 2) latency) (i2f (t_SLO task)) then Some 1%Z else None)
       else mret (Some batch_size));
  match o with
  | None => mret None
  | Some batch_size =>
      latency ← getLatency_part type (t_id task) batch_size part;
      mret (Some (mkSatTrpEntry part batch_size
        (d2f (ddiv (dmul (i2d batch_size) (i2d 1000)) (f2d latency))) type))
  end.

Definition initSaturateTrp (task : Task) : SM unit :=
  i ← gets w_indet;
  temp_node_ptr ← new_node (raw_node i);
  s ← sched;
  r ← for_acc_ret (_typeToNumofTypeTable s) [] (fun table type =>
        for_acc_ret (_availParts s) table (fun table part =>
          o ← sat_entry task temp_node_ptr type.1 part;
          mret (match o with Some e => inl (table ++ [e]) | None => inr tt end)));
  match r with
  | inl new_table => mod_sched (fun s =>
      set_perModelSatTable (<[t_id task := new_table]> (_perModelSatTable s)) s)
  | inr _ => mret tt
  end.

(** The last entry of the table for this partition and type. *)
Definition find_sat (table : list SatTrpEntry) (resource_pntg : Z) (type : string) :
    option SatTrpEntry :=
  foldl (fun r e => if ((resource_pntg =? s_part e)%Z && String.eqb type (s_type e))
                    then Some e else r) None table.

(** Throughput and batch size; an absent table is a null pointer, an absent
    entry fails the assertion. *)
Definition getMaxSaturateTrp (task_id resource_pntg : Z) (type : string) : SM (spec_float * Z) :=
  s ← sched;
  table ← lift (deref (_perModelSatTable s !! task_id));
  match find_sat table resource_pntg type with
  | Some e => mret (s_sat_trp e, s_max_batch e)
  | None => fail AssertionFailed
  end.

(** ** The partition with the best marginal throughput *)
Definition MIN_THRESHOLD : spec_float := d2f (dlit 105 100).

(** One round of [for(i = len-1; i > 1; i--)]. *)
Definition return_step (trp : Z -> spec_float) (low_part high_part : Z)
    (st : spec_float * Z) : spec_float * Z :=
  let '(max_ret, max_part) := st in
  let low_trp := trp low_part in
  let high_trp := trp high_part in
  if ltb (fdiv high_trp low_trp) MIN_THRESHOLD then st
  else
    let r := fdiv (fsub high_trp low_trp) (i2f (i32 (high_part - low_part))) in
    if gtb r max_ret then (r, high_part) else st.

Definition best_return (trp : Z -> spec_float) (parts : list Z) (len : nat) : outcome Z :=
  max_part ← deref (parts !! (len - 1)%nat);
  st ← foldl (fun (acc : outcome (spec_float * Z)) i =>
         st ← acc;
         low_part ← deref (parts !! i);
         high_part ← deref (parts !! (i - 1)%nat);
         mret (return_step trp low_part high_part st))
       (Done (fzero, max_part)) (rev (seq 2 (len - 2)));
  mret st.2.

Definition getMaxReturnPart (task_id : Z) (device : string) : SM Z :=
  s ← sched;
  _ ← massert (negb (bool_decide (_availParts s = [])));
  match _availParts s with
  | [p] => mret p
  | _ =>
      per_part_trp ← for_acc (_availParts s) [] (fun m part =>
        '(trp, _) ← getMaxSaturateTrp task_id part device;
        mret (om_set part trp m));
      lift (best_return (fun part => default fzero (om_find part per_part_trp))
              (_availParts s) (length (_availParts s)))
  end.

(** ** The smallest partition for a residue rate *)

(** The scan over [_availParts]: [inl] goes on with [prev_part], [inr] is the
    [break]. *)
Definition min_part_scan (device : string) (task : Task) (max_batch residue_rate local_max_part : Z)
    (parts : list Z) : SM (Z + Z) :=
  s ← sched;
  for_acc_ret parts local_max_part (fun prev_part part =>
    if (local_max_part <? part)%Z then mret (inl prev_part)
    else
      latency ← getLatency_part device (t_id task) max_batch part;
      let duty_cycle :=
        d2f (ddiv (dmul (i2d max_batch) (i2d 1000)) (i2d residue_rate)) in
      if ltb duty_cycle latency then
        mret (inr (if decide (Some part = head (_availParts s)) then part else prev_part))
      else if ltb (i2f (t_SLO task)) (fadd latency duty_cycle) then mret (inr prev_part)
      else mret (inl part)).

(** Returns [(part, residue_rate, result_batch)]; batch 0 stands for the
    untouched [result_batch] of the early [return 0].  A null [node_ptr] is
    dereferenced for its type. *)
Definition getMinPart (device : string) (task : Task) (node_ptr : NodePtr) (residue_rate : Z) :
    SM (Z * Z * option Z) :=
  n ← rd_node node_ptr;
  s ← sched;
  front ← lift (deref (head (_availParts s)));
  let local_max_part := f2i (let a := i2f front in let b := i2f (n_resource_pntg n) in
                             if leb a b then a else b) in
  i ← gets w_indet;
  temp_node_ptr ← new_node (set_n_type (n_type n) (set_n_resource_pntg local_max_part
                              (set_n_id (n_id n) (raw_node i))));
  '(max_batch, residue_rate) ← getMaxBatch task temp_node_ptr (mkSimState [] [] 0) residue_rate
                                 true false;
  if (max_batch =? 0)%Z then mret (0%Z, residue_rate, None)
  else
    _ ← massert ((_MIN_BATCH <=? max_batch) && (max_batch <=? _MAX_BATCH))%Z;
    r ← min_part_scan device task max_batch residue_rate local_max_part (_availParts s);
    let max_part := match r with inl p => p | inr p => p end in
    mret (max_part, residue_rate, Some max_batch).

(** ** Estimates *)

(** The self-tuning variant: the first partition that exceeds the rate, or the
    largest one. *)
Definition pick_part (task_id rate : Z) (device : string) (parts : list Z) (i : Z) :
    SM (Z * Z * Z) :=
  r ← for_acc_ret parts (0%Z, 0%Z, i) (fun _ part =>
    '(trp, max_batch) ← getMaxSaturateTrp task_id part device;
    let max_trp := f2i trp in
    mret (if (rate <? max_trp)%Z then inr (part, max_trp, max_batch)
          else inl (part, max_trp, max_batch)));
  mret (match r with inl x => x | inr x => x end).

Definition getEstimateTrpST (device : string) (task : Task) (rate : Z) (output_vec : list NodePtr)
    (fuel : nat) : SM (list NodePtr) :=
  s ← sched;
  i ← gets w_indet;
  let parts := std_sort Z.ltb (_availParts s) in
  loop fuel (rate, output_vec) (fun '(_rate, output_vec) =>
    if (0 <? _rate)%Z then
      '(max_part, max_trp, max_batch) ← pick_part (t_id task) _rate device parts (indet_int i);
      _ ← massert (negb (max_trp =? 0)%Z && negb (max_part =? 0)%Z);
      temp_node_ptr ← makeEmptyNode (Z.of_nat (length output_vec)) max_part device;
      latency ← getLatency_part device (t_id task) max_batch max_part;
      let duty_cycle :=
        d2f (dmul (i2d max_batch) (ddiv (i2d 1000) (i2d _rate))) in
      temp_task_ptr ← new_task (set_t_throughput (i2f max_trp) (set_t_SLO (t_SLO task)
        (set_t_batch_size max_batch (set_t_request_rate _rate (set_t_id (t_id task) (raw_task i))))));
      _ ← wr_node temp_node_ptr (fun n => set_n_vTaskList (n_vTaskList n ++ [temp_task_ptr])
            (set_n_occupancy (fdiv latency duty_cycle) (set_n_duty_cycle duty_cycle n)));
      mret (inl (i32 (_rate - max_trp), output_vec ++ [temp_node_ptr]))
    else mret (inr output_vec)).

(** A node saturated by the task. *)
Definition saturate_node (device : string) (task : Task) (rate sat_part sat_batch : Z)
    (sat_trp : spec_float) (count : nat) : SM NodePtr :=
  temp_node_ptr ← makeEmptyNode (Z.of_nat count) sat_part device;
  temp_task_ptr ← createNewTaskPtr (t_id task) rate (t_SLO task) sat_batch sat_trp;
  _ ← wr_node temp_node_ptr (fun n => set_n_vTaskList (n_vTaskList n ++ [temp_task_ptr])
        (set_n_type device (set_n_occupancy (i2f 1) n)));
  duty_cycle ← getLatency_part device (t_id task) sat_batch sat_part;
  _ ← wr_node temp_node_ptr (set_n_duty_cycle duty_cycle);
  mret temp_node_ptr.

(** The last, residue node.  [max_batch] is left uninitialised by a [getMinPart]
    that returns 0. *)
Definition residue_node (device : string) (task : Task) (rate max_part : Z) (count : nat) :
    SM NodePtr :=
  i ← gets w_indet;
  temp_node_ptr ← makeEmptyNode (Z.of_nat count) max_part device;
  '(min_part, rate, o_batch) ← getMinPart device task temp_node_ptr rate;
  let max_batch := default (indet_int i) o_batch in
  _ ← wr_node temp_node_ptr (set_n_resource_pntg min_part);
  latency ← getLatency_part device (t_id task) max_batch min_part;
  let duty_cycle := fmax (fmul (i2f max_batch) (fdiv (i2f 1000) (i2f rate))) latency in
  let trp := d2f (ddiv (dmul (i2d max_batch) (i2d 1000)) (f2d duty_cycle)) in
  temp_task_ptr ← createNewTaskPtr (t_id task) rate (t_SLO task) max_batch trp;
  _ ← wr_node temp_node_ptr (fun n => set_n_vTaskList (n_vTaskList n ++ [temp_task_ptr])
        (set_n_occupancy (fdiv latency duty_cycle) (set_n_type device (set_n_duty_cycle duty_cycle n))));
  mret temp_node_ptr.

(** The recursion of [estimateTrp] on the remaining rate. *)
Fixpoint estimateTrp (fuel : nat) (device : string) (task : Task) (rate : Z)
    (output_vec : list NodePtr) : SM (list NodePtr) :=
  match fuel with
  | O => fail OutOfFuel
  | S fuel' =>
      if (rate <=? TRP_SLACK)%Z then mret output_vec
      else
        s ← sched;
        if _useSelfTuning s then getEstimateTrpST device task rate output_vec fuel'
        else
          max_part ← getMaxReturnPart (t_id task) device;
          '(limit, _) ← getMaxSaturateTrp (t_id task) max_part device;
          if ltb limit (i2f rate) then
            '(sat_trp, sat_batch) ← getMaxSaturateTrp (t_id task) max_part device;
            temp_node_ptr ← saturate_node device task rate max_part sat_batch sat_trp
                              (length output_vec);
            estimateTrp fuel' device task (f2i (fsub (i2f rate) sat_trp))
              (output_vec ++ [temp_node_ptr])
          else
            temp_node_ptr ← residue_node device task rate max_part (length output_vec);
            mret (output_vec ++ [temp_node_ptr])
  end.
