(* ===== verification/IncrFit.v ===== *)
(** * [IncrementalScheduler], part 2 ([scheduler/scheduler_incremental.cpp]):
    GPU memory bookkeeping and greedy fitting of an estimate. *)
From Stdlib Require Import ZArith SpecFloat String Lia.
From S2P Require Import Prelude CppFloat CppStd LatencyModel DevPerfModel SchedData SchedUtils SchedBase IncrEstimate.

(** The build defines [SCHED_DEBUG]; its only effect on the modelled state is
    the read of [candidate_nodes[0]] in [checkFit]. *)
Definition SCHED_DEBUG : bool := true.

(** ** Memory bookkeeping ([CHECK_MEM]) *)
Definition mem_size (s : Sched) (model_id : Z) : Z := default 0%Z (_mapModelIDtoMemSize s !! model_id).

Definition fits_memory (total used need : Z) : bool :=
  gtb (fsub (fmul (i2f total) MEM_ROOM) (i2f used)) (i2f need).

Definition doesFitMemLimit (gpu_ptr : GPUPtr) (model_id : Z) (node_ptr : NodePtr) : SM bool :=
  s ← sched;
  g ← rd_gpu gpu_ptr;
  _ ← massert (negb (mem_size s model_id =? 0)%Z);
  _ ← massert (negb (g_TOTAL_MEMORY g =? 0)%Z);
  model_loaded ← isModelLoaded gpu_ptr node_ptr model_id;
  if (model_loaded : bool) then mret true
  else
    part_loaded ← isPartLoaded gpu_ptr node_ptr;
    let additional_memory := if (part_loaded : bool) then 0%Z else DEFAULT_PYTORCH_MEM_USAGE in
    mret (fits_memory (g_TOTAL_MEMORY g) (g_used_memory g)
            (i32 (mem_size s model_id + additional_memory))).

Definition addGPUMemUsage (gpu_ptr : GPUPtr) (model_id : Z) (node_ptr : NodePtr) : SM bool :=
  model_loaded ← isModelLoaded gpu_ptr node_ptr model_id;
  if (model_loaded : bool) then mret EXIT_SUCCESS
  else
    part_loaded ← isPartLoaded gpu_ptr node_ptr;
    let additional_mem := if (part_loaded : bool) then 0%Z else DEFAULT_PYTORCH_MEM_USAGE in
    fits ← doesFitMemLimit gpu_ptr model_id node_ptr;
    if (fits : bool) then
      s ← sched;
      n ← rd_node node_ptr;
      _ ← wr_gpu gpu_ptr (fun g =>
            set_g_vLoadedParts (g_vLoadedParts g ++ [mkMemNode (n_resource_pntg n) (n_dedup_num n)])
              (set_g_used_memory (i32 (g_used_memory g + i32 (mem_size s model_id + additional_mem))) g));
      mret EXIT_SUCCESS
    else mret EXIT_FAILURE.

Definition subtractGPUMemUsage (gpu_ptr : GPUPtr) (model_id : Z) (node_ptr : NodePtr) : SM bool :=
  part_loaded ← isPartLoaded gpu_ptr node_ptr;
  _ ← massert part_loaded;
  model_loaded ← isModelLoaded gpu_ptr node_ptr model_id;
  if negb (model_loaded : bool) then mret EXIT_SUCCESS
  else
    s ← sched;
    g ← rd_gpu gpu_ptr;
    if (i32 (g_used_memory g - mem_size s model_id) <? 0)%Z then mret EXIT_FAILURE
    else
      _ ← wr_gpu gpu_ptr (fun g =>
            set_g_used_memory (i32 (g_used_memory g - mem_size s model_id)) g);
      mret EXIT_SUCCESS.

(** ** Interference with the neighbour

    The temporary GPU holds the neighbour only: the node built for the task is
    never put on it. *)
Definition checkForInterference (device : string) (the_node the_real_node : NodePtr)
    (sim : SimState) : SM bool :=
  real ← rd_node the_real_node;
  if (n_resource_pntg real =? 100)%Z then mret false
  else
    o ← getOtherNode the_real_node sim;
    match o with
    | None => mret false
    | Some neighbor_node =>
        nb ← rd_node neighbor_node;
        r ← for_ret (n_vTaskList nb) (fun tp =>
          t ← rd_task tp;
          model ← getModelName (t_id t);
          pure_latency ← perf device (dev_getLatency model (t_batch_size t) (n_resource_pntg nb));
          temp_node_ptr ← makeEmptyNode (n_id nb) (n_resource_pntg real) (n_type real);
          the ← rd_node the_node;
          _ ← wr_node temp_node_ptr (set_n_vTaskList (n_vTaskList the));
          interference ← getInterference device (t_id t) (t_batch_size t) neighbor_node
                           [neighbor_node];
          let duty_cycle := n_duty_cycle nb in
          overhead ← getBatchLatency model (t_batch_size t);
          let latency :=
            d2f (dadd (dadd (dmul (f2d pure_latency) (dsub (f2d interference) (i2d 1)))
                   (f2d overhead)) (f2d duty_cycle)) in
          mret (if gtb (fadd latency duty_cycle) (i2f (t_SLO t)) then Some true else None));
        mret (default false r)
    end.

(** ** The best fitting empty node *)

(** May the node take the (single) task of [input]? *)
Definition node_admits (input_sim : SimState) (gpu_ptr : GPUPtr) (input node_ptr : NodePtr) :
    SM bool :=
  inp ← rd_node input;
  _ ← massert (Z.of_nat (length (n_vTaskList inp)) =? 1)%Z;
  task_ptr ← lift (deref (head (n_vTaskList inp)));
  t ← rd_task task_ptr;
  fits ← doesFitMemLimit gpu_ptr (t_id t) node_ptr;
  latency ← getLatency (n_type inp) (t_id t) (t_batch_size t) node_ptr input_sim;
  let skip := negb (fits : bool) || gtb (fadd latency (n_duty_cycle inp)) (i2f (t_SLO t)) in
  if skip then mret false
  else
    interferes ← checkForInterference (n_type inp) input node_ptr input_sim;
    mret (negb (interferes : bool)).

(** The update of [(min_diff, min_ptr)] for an admissible node. *)
Definition best_update (use_parts : bool) (node_pntg input_pntg : Z) (node_ptr : NodePtr)
    (st : Z * option NodePtr) : Z * option NodePtr :=
  let '(min_diff, min_ptr) :=
    if ((node_pntg =? 100)%Z && use_parts) then (0%Z, Some node_ptr) else st in
  if (i32 (node_pntg - input_pntg) <=? min_diff)%Z
  then (i32 (node_pntg - input_pntg), Some node_ptr) else (min_diff, min_ptr).

Definition fit_step (input_sim : SimState) (gpu_ptr : GPUPtr) (input : NodePtr)
    (exclude_vec : list NodePtr) (st : Z * option NodePtr) (node_ptr : NodePtr) :
    SM (Z * option NodePtr) :=
  n ← rd_node node_ptr;
  inp ← rd_node input;
  if ((n_resource_pntg n <? n_resource_pntg inp)%Z || negb (bool_decide (n_vTaskList n = [])))
  then mret st
  else if decide (node_ptr ∈ exclude_vec) then mret st
  else
    admits ← node_admits input_sim gpu_ptr input node_ptr;
    if negb (admits : bool) then mret st
    else
      use_parts ← getUseParts;
      mret (best_update use_parts (n_resource_pntg n) (n_resource_pntg inp) node_ptr st).

(** [None] is [EXIT_FAILURE]; [Some p] assigns [p] to [output]. *)
Definition findBestFit (input_sim : SimState) (input : NodePtr) (exclude_vec : list NodePtr) :
    SM (option NodePtr) :=
  inp ← rd_node input;
  st ← for_acc (vGPUList input_sim) (200%Z, None) (fun st gpu_ptr =>
    g ← rd_gpu gpu_ptr;
    if negb (String.eqb (g_TYPE g) (n_type inp)) then mret st
    else for_acc (g_vNodeList g) st (fit_step input_sim gpu_ptr input exclude_vec));
  if (st.1 =? 200)%Z then mret None else mret st.2.

(** ** [checkFit]: is there room for every node of the estimate? *)

(** [while(true)]: look for a node with enough percentage left. *)
Definition fit_search (fuel : nat) (decision : SimState) (input_ptr : NodePtr)
    (flagged : list NodePtr) (remain : gmap nat Z) :
    SM (option (NodePtr * list NodePtr * gmap nat Z)) :=
  loop fuel (flagged, remain) (fun '(flagged, remain) =>
    o ← findBestFit decision input_ptr flagged;
    match o with
    | None => mret (inr None)
    | Some result =>
        r ← rd_node result;
        inp ← rd_node input_ptr;
        let remain := match remain !! result with
                      | Some _ => remain
                      | None => <[result := n_resource_pntg r]> remain
                      end in
        if (default 0 (remain !! result) <? n_resource_pntg inp)%Z
        then mret (inl (flagged ++ [result], remain))
        else mret (inr (Some (result, flagged, remain)))
    end).

Definition checkFit (candidate_nodes : list NodePtr) (decision : SimState) : SM bool :=
  _ ← (if SCHED_DEBUG then _ ← lift (deref (head candidate_nodes)); mret tt else mret tt);
  r ← for_acc_ret candidate_nodes ([], ∅) (fun '(flagged, remain) input_ptr =>
    fuel ← gets (fun w => S (length (w_nodes w)));
    o ← fit_search fuel decision input_ptr flagged remain;
    match o with
    | None => mret (inr tt)
    | Some (result, flagged, remain) =>
        s ← sched;
        inp ← rd_node input_ptr;
        let left := default 0%Z (remain !! result) in
        let left := if (_useRepartition s && (left =? 100)%Z)
                    then i32 (left - n_resource_pntg inp) else 0%Z in
        mret (inl (if (left =? 0)%Z then flagged ++ [result] else flagged,
                   <[result := left]> remain))
    end);
  mret (match r with inl _ => EXIT_SUCCESS | inr _ => EXIT_FAILURE end).

(** ** [allocateFit] *)
Definition copyToNode (org_node dst_node : NodePtr) (enable_repart : bool) : SM unit :=
  o ← rd_node org_node;
  wr_node dst_node (fun d =>
    let d := set_n_occupancy (n_occupancy o) d in
    let d := if enable_repart then set_n_resource_pntg (n_resource_pntg o) d else d in
    set_n_vTaskList (n_vTaskList o) (set_n_reserved (n_reserved o) (set_n_duty_cycle (n_duty_cycle o) d))).

(** The node of the estimate is adapted to a larger partition; [true] is the
    [return EXIT_FAILURE] on batch size 0. *)
Definition grow_estimate (input_ptr : NodePtr) (best_pntg : Z) (isresidue : bool)
    (decision : SimState) : SM bool :=
  _ ← wr_node input_ptr (set_n_resource_pntg best_pntg);
  inp ← rd_node input_ptr;
  _ ← massert (Z.of_nat (length (n_vTaskList inp)) =? 1)%Z;
  temp ← lift (deref (head (n_vTaskList inp)));
  t ← rd_task temp;
  '(batch, req) ← getMaxBatch t input_ptr decision (t_request_rate t) isresidue true;
  _ ← wr_task temp (fun t => set_t_batch_size batch (set_t_request_rate req t));
  if (batch =? 0)%Z then mret EXIT_FAILURE
  else
    latency ← getLatency (n_type inp) (t_id t) batch input_ptr decision;
    let duty_cycle :=
      if isresidue then fmax (fdiv (fmul (i2f batch) (i2f 1000)) (i2f req)) latency
      else latency in
    _ ← wr_node input_ptr (set_n_duty_cycle duty_cycle);
    _ ← wr_task temp (set_t_throughput
          (d2f (ddiv (dmul (i2d batch) (i2d 1000)) (f2d duty_cycle))));
    _ ← wr_node input_ptr (set_n_occupancy (fdiv latency duty_cycle));
    mret EXIT_SUCCESS.

(** A whole GPU is split into the wanted partition and the rest. *)
Definition split_node (node_ptr : NodePtr) (pntg : Z) (decision : SimState) : SM NodePtr :=
  _ ← wr_node node_ptr (set_n_resource_pntg pntg);
  n ← rd_node node_ptr;
  new_node_ptr ← makeEmptyNode (n_id n) (i32 (100 - pntg)) (n_type n);
  _ ← when (pntg =? 50)%Z (wr_node new_node_ptr (set_n_dedup_num 1));
  gpu_ptr ← lift (at_index (vGPUList decision) (n_id n));
  _ ← wr_gpu gpu_ptr (fun g => set_g_vNodeList (g_vNodeList g ++ [new_node_ptr]) g);
  mret new_node_ptr.

(** The nodes of the GPU are re-checked for interference; [true] is failure. *)
Definition adjust_gpu_nodes (gpu_ptr : GPUPtr) (task : TaskPtr) (decision : SimState) : SM bool :=
  g ← rd_gpu gpu_ptr;
  r ← for_ret (g_vNodeList g) (fun node_ptr =>
    n ← rd_node node_ptr;
    if feqb (n_occupancy n) (i2f 1) then
      failed ← adjustSatNode_task node_ptr decision task;
      mret (if (failed : bool) then Some tt else None)
    else
      _ ← adjustResNode node_ptr decision;
      mret None);
  mret (match r with Some _ => EXIT_FAILURE | None => EXIT_SUCCESS end).

(** One node of the estimate; [true] leaves [allocateFit] with failure. *)
Definition allocate_one (task : TaskPtr) (decision : SimState) (input_ptr : NodePtr) : SM bool :=
  inp ← rd_node input_ptr;
  let isresidue := negb (feqb (n_occupancy inp) (i2f 1)) in
  o ← findBestFit decision input_ptr [];
  match o with
  | None => mret EXIT_FAILURE
  | Some best_fit_ptr =>
      best ← rd_node best_fit_ptr;
      let best_pntg := n_resource_pntg best in
      let input_pntg := n_resource_pntg inp in
      s ← sched;
      failed ← (if (negb (best_pntg =? 100) && (input_pntg <? best_pntg))%Z
                then grow_estimate input_ptr best_pntg isresidue decision
                else mret EXIT_SUCCESS);
      if (failed : bool) then mret EXIT_FAILURE
      else
        _ ← when ((best_pntg =? 100) && (input_pntg <? 100) && _useRepartition s)%Z
              (_ ← split_node best_fit_ptr input_pntg decision; mret tt);
        _ ← copyToNode input_ptr best_fit_ptr (_useRepartition s);
        b ← rd_node best_fit_ptr;
        gpu_ptr ← lift (at_index (vGPUList decision) (n_id b));
        t ← rd_task task;
        _ ← addGPUMemUsage gpu_ptr (t_id t) best_fit_ptr;
        failed ← (if _useInterference s then adjust_gpu_nodes gpu_ptr task decision
                  else mret EXIT_SUCCESS);
        if (failed : bool) then mret EXIT_FAILURE
        else
          b ← rd_node best_fit_ptr;
          _ ← massert (Z.of_nat (length (n_vTaskList b)) =? 1)%Z;
          tp ← lift (deref (head (n_vTaskList b)));
          bt ← rd_task tp;
          _ ← wr_task task (fun t =>
                set_t_request_rate (f2i (fsub (i2f (t_request_rate t)) (t_throughput bt))) t);
          mret EXIT_SUCCESS
  end.

Definition allocateFit (estimate : list NodePtr) (task : TaskPtr) (decision : SimState) : SM bool :=
  r ← for_ret estimate (fun input_ptr =>
    failed ← allocate_one task decision input_ptr;
    mret (if (failed : bool) then Some EXIT_FAILURE else None));
  match r with
  | Some e => mret e
  | None =>
      t ← rd_task task;
      if (TRP_SLACK <? i32 (t_request_rate t + t_additional_rate t))%Z then mret EXIT_FAILURE
      else
        _ ← wr_task task (set_t_request_rate 0);
        mret EXIT_SUCCESS
  end.
