(* ===== verification/IncrReadjust.v ===== *)
(** * [IncrementalScheduler], part 3 ([scheduler/scheduler_incremental.cpp]):
    readjusting partitions, merging residues and time sharing. *)
From Stdlib Require Import ZArith SpecFloat String Lia.
From S2P Require Import Prelude CppFloat CppStd LatencyModel DevPerfModel SchedData SchedUtils SchedBase IncrEstimate IncrFit.

(** Fuel of [estimateTrp] for a rate: every round lowers the rate. *)
Definition rate_fuel (rate : Z) : nat := S (S (Z.to_nat rate)).

(** ** Choosing a GPU type *)

(** Minimum over the types; [same_min] is set when a later type ties with the
    minimum so far, and stays set. *)
Definition min_type (sums : list (string * Z)) : Z * string * bool :=
  foldl (fun '(min_parts, output, same_min) '(type, sum) =>
    let same_min := if (min_parts =? sum)%Z then true else same_min in
    if (sum <? min_parts)%Z then (sum, type, same_min) else (min_parts, output, same_min))
    (100000%Z, ""%string, false) sums.

Definition getMinPartSum (task : Task) : SM string :=
  s ← sched;
  sums ← for_acc (_typeToNumofTypeTable s) [] (fun sums type =>
    output_vec ← estimateTrp (rate_fuel (t_request_rate task)) type.1 task (t_request_rate task) [];
    sum_of_parts ← for_acc output_vec 0%Z (fun sum np =>
      n ← rd_node np; mret (i32 (sum + n_resource_pntg n)));
    mret (om_set type.1 sum_of_parts sums));
  let '(min_parts, output, same_min) := min_type sums in
  if same_min then
    r ← for_acc sums (i2f 10, output) (fun '(fit_utilization, output) '(type, sum) =>
      if negb (sum =? min_parts)%Z then mret (fit_utilization, output)
      else
        ideal_part ← getMaxReturnPart (t_id task) type;
        let other_part := i32 (100 - ideal_part) in
        '(trp1, _) ← getMaxSaturateTrp (t_id task) ideal_part type;
        '(trp2, _) ← getMaxSaturateTrp (t_id task) other_part type;
        let utilization := fdiv (i2f (t_request_rate task)) (fadd trp1 trp2) in
        mret (if gtb fit_utilization utilization then (utilization, type)
              else (fit_utilization, output)));
    mret r.2
  else mret output.

(** [None] unless a type has priority. *)
Definition checkTypePriority : SM (option string) :=
  s ← sched; mret (if _priorityCheck s then Some (_priorityType s) else None).

Definition getNodewithPriorityType (task : Task) (type : string) (given_vector : list NodePtr) :
    SM (option NodePtr) :=
  _ ← massert (negb (bool_decide (given_vector = [])));
  _ ← getMaxReturnPart (t_id task) type;
  for_ret given_vector (fun np =>
    n ← rd_node np; mret (if String.eqb (n_type n) type then Some np else None)).

(** The node [readjust] works on next: the first of the wanted type, or the
    front. *)
Definition pick_node (task : TaskPtr) (given : list NodePtr) (decision : SimState) : SM NodePtr :=
  priority ← checkTypePriority;
  t ← rd_task task;
  type_to_prioritize ← (match priority with
                        | Some type => mret type
                        | None => _ ← getMaxPartSize decision; getMinPartSum t
                        end);
  o ← getNodewithPriorityType t type_to_prioritize given;
  match o with Some np => mret np | None => lift (deref (head given)) end.

(** ** Splitting a whole GPU inside [readjust]

    Returns the batch size of the estimate's first node and the new [given]. *)
Definition readjust_split (task : TaskPtr) (temp_node_ptr : NodePtr) (given : list NodePtr)
    (decision : SimState) : SM (Z * list NodePtr) :=
  n ← rd_node temp_node_ptr;
  _ ← getMaxPartSize decision;
  t ← rd_task task;
  candidates ← estimateTrp (rate_fuel (t_request_rate t)) (n_type n) t (t_request_rate t) [];
  c0 ← lift (match candidates with [] => Stop AssertionFailed | c :: _ => Done c end);
  cn ← rd_node c0;
  let max_part := n_resource_pntg cn in
  _ ← massert (Z.of_nat (length (n_vTaskList cn)) =? 1)%Z;
  ctp ← lift (deref (head (n_vTaskList cn)));
  ct ← rd_task ctp;
  if (max_part <? 100)%Z then
    new_node_ptr ← split_node temp_node_ptr max_part decision;
    let given := given ++ [new_node_ptr] in
    rest ← sort_nodes cmp_nodeptr_dsc (tail given);
    mret (t_batch_size ct, match given with [] => rest | g :: _ => g :: rest end)
  else mret (t_batch_size ct, given).

(** [vec.erase(find(vec.begin(), vec.end(), p))] *)
Fixpoint erase_first (p : NodePtr) (l : list NodePtr) : outcome (list NodePtr) :=
  match l with
  | [] => Stop Undefined
  | q :: l' => if decide (p = q) then Done l' else l' ← erase_first p l'; mret (q :: l')
  end.

(** ** Checking and undoing a placement *)
Definition revertNode (node_ptr : NodePtr) : SM unit :=
  n ← rd_node node_ptr;
  _ ← massert (Z.of_nat (length (n_vTaskList n)) <=? 1)%Z;
  wr_node node_ptr (fun n => set_n_duty_cycle fzero (set_n_vTaskList [] (set_n_occupancy fzero n))).

Definition checkNeedtoRevert (new_node_ptr : NodePtr) (task : TaskPtr) (input : SimState) : SM bool :=
  s ← sched;
  nn ← rd_node new_node_ptr;
  gpu_ptr ← lift (at_index (vGPUList input) (n_id nn));
  revert ← (if _isNLCInitated s then ok ← isBandwidthOK_gpu gpu_ptr; mret (negb ok)
            else mret false);
  if _useInterference s then
    g ← rd_gpu gpu_ptr;
    r ← for_acc_ret (g_vNodeList g) revert (fun revert node_ptr =>
      n ← rd_node node_ptr;
      nn ← rd_node new_node_ptr;
      if ((n_dedup_num n =? n_dedup_num nn) && (n_resource_pntg n =? n_resource_pntg nn))%Z
      then mret (inl revert)
      else if geb (n_occupancy n) (i2f 1) then
        failed ← adjustSatNode node_ptr input;
        mret (if (failed : bool) then inr tt else inl revert)
      else
        failed ← adjustResNode node_ptr input;
        mret (inl (if (failed : bool) then true else revert)));
    let revert := match r with inl b => b | inr _ => true end in
    _ ← when (negb revert) (wr_task task (fun t => set_t_additional_rate 0
          (set_t_request_rate (i32 (t_request_rate t + t_additional_rate t)) t)));
    mret revert
  else mret revert.

(** ** [readjust]: saturated nodes

    [while] body; the loop's outcomes are: failure of the function
    ([inr None]), the end of the loop with [proceed_to_residue]
    ([inr (Some (proceed, given))]), or another round with a smaller [given]. *)
Definition readjust_sat_round (task : TaskPtr) (decision : SimState) (given : list NodePtr) :
    SM (list NodePtr + option (bool * list NodePtr)) :=
  t ← rd_task task;
  if negb (TRP_SLACK <? i32 (t_request_rate t + t_additional_rate t))%Z
  then mret (inr (Some (false, given)))
  else if decide (given = []) then mret (inr (Some (false, given)))
  else
    temp_node_ptr ← pick_node task given decision;
    n ← rd_node temp_node_ptr;
    s ← sched;
    '(max_batch, given) ←
      (if ((n_resource_pntg n =? 100)%Z && _usePart s && _useRepartition s) then
         readjust_split task temp_node_ptr given decision
       else
         '(temp_batch, _) ← getMaxBatch t temp_node_ptr decision (t_request_rate t) false true;
         mret (if (temp_batch =? 0)%Z then 1%Z else temp_batch, given));
    latency ← getLatency (n_type n) (t_id t) max_batch temp_node_ptr decision;
    let local_max_trp := d2f (dmul (i2d max_batch) (ddiv (i2d 1000) (f2d latency))) in
    if gtb local_max_trp (i2f (t_request_rate t)) then mret (inr (Some (true, given)))
    else
      temp_task_ptr ← createNewTaskPtr (t_id t) (t_request_rate t) (t_SLO t) max_batch local_max_trp;
      gpu_ptr ← lift (at_index (vGPUList decision) (n_id n));
      failed ← adjustBatchSizetoNetBW temp_task_ptr gpu_ptr;
      if (failed : bool) then mret (inr None)
      else
        fits ← doesFitMemLimit gpu_ptr (t_id t) temp_node_ptr;
        _ ← when fits
          (_ ← wr_node temp_node_ptr (fun n =>
                 set_n_vTaskList (n_vTaskList n ++ [temp_task_ptr]) (set_n_occupancy (i2f 1) n));
           duty_cycle ← getLatency (n_type n) (t_id t) max_batch temp_node_ptr decision;
           _ ← wr_node temp_node_ptr (set_n_duty_cycle duty_cycle);
           revert ← checkNeedtoRevert temp_node_ptr task decision;
           if (revert : bool) then revertNode temp_node_ptr
           else
             tt' ← rd_task temp_task_ptr;
             _ ← wr_task task (fun t => set_t_request_rate
                   (f2i (fsub (i2f (t_request_rate t)) (t_throughput tt'))) t);
             _ ← addGPUMemUsage gpu_ptr (t_id t) temp_node_ptr;
             mret tt);
        given ← lift (erase_first temp_node_ptr given);
        mret (inl given).

(** ** [readjust]: residue nodes *)
Definition readjust_res_round (task : TaskPtr) (decision : SimState) (given : list NodePtr) :
    SM (list NodePtr + bool) :=
  t ← rd_task task;
  if negb (TRP_SLACK <? t_request_rate t)%Z then mret (inr EXIT_SUCCESS)
  else if decide (given = []) then mret (inr EXIT_SUCCESS)
  else
    temp_node_ptr ← pick_node task given decision;
    n ← rd_node temp_node_ptr;
    s ← sched;
    '(_, given) ←
      (if ((n_resource_pntg n =? 100)%Z && _usePart s && _useRepartition s) then
         readjust_split task temp_node_ptr given decision
       else mret (0%Z, given));
    '(max_batch, req) ← getMaxBatch t temp_node_ptr decision (t_request_rate t) true true;
    _ ← wr_task task (set_t_request_rate req);
    if (max_batch =? 0)%Z then mret (inr EXIT_FAILURE)
    else
      let duty_cycle := d2f (dmul (i2d max_batch) (ddiv (i2d 1000) (i2d req))) in
      _ ← wr_node temp_node_ptr (set_n_duty_cycle duty_cycle);
      let local_max_trp := d2f (ddiv (dmul (i2d 1000) (i2d max_batch)) (f2d duty_cycle)) in
      temp_task_ptr ← createNewTaskPtr (t_id t) req (t_SLO t) max_batch local_max_trp;
      gpu_ptr ← lift (at_index (vGPUList decision) (n_id n));
      failed ← adjustBatchSizetoNetBW temp_task_ptr gpu_ptr;
      if (failed : bool) then mret (inr EXIT_FAILURE)
      else
        tt' ← rd_task temp_task_ptr;
        latency ← getLatency (n_type n) (t_id t) (t_batch_size tt') temp_node_ptr decision;
        _ ← wr_node temp_node_ptr (set_n_occupancy (fdiv latency duty_cycle));
        fits ← doesFitMemLimit gpu_ptr (t_id t) temp_node_ptr;
        _ ← when fits
          (_ ← wr_node temp_node_ptr (fun n => set_n_vTaskList (n_vTaskList n ++ [temp_task_ptr]) n);
           revert ← checkNeedtoRevert temp_node_ptr task decision;
           if (revert : bool) then revertNode temp_node_ptr
           else
             tt' ← rd_task temp_task_ptr;
             _ ← wr_task task (fun t => set_t_request_rate
                   (if geb (i2f (t_request_rate t)) (t_throughput tt')
                    then f2i (fsub (i2f (t_request_rate t)) (t_throughput tt')) else 0%Z) t);
             _ ← addGPUMemUsage gpu_ptr (t_id t) temp_node_ptr;
             mret tt);
        given ← lift (erase_first temp_node_ptr given);
        mret (inl given).

(** Every round removes one node and adds at most the rest of a split GPU,
    which is smaller than 100. *)
Definition readjust_fuel (given : list NodePtr) : nat := S (S (2 * length given)).

Definition readjust (task : TaskPtr) (given : list NodePtr) (decision : SimState) : SM bool :=
  given ← sort_nodes cmp_nodeptr_dsc given;
  s ← sched;
  _ ← when (_useInterference s) (wr_task task (fun t => set_t_additional_rate 0
        (set_t_request_rate (i32 (t_request_rate t + t_additional_rate t)) t)));
  o ← loop (readjust_fuel given) given (readjust_sat_round task decision);
  match o with
  | None => mret EXIT_FAILURE
  | Some (proceed_to_residue, given) =>
      failed ← (if (proceed_to_residue : bool) then
                  loop (readjust_fuel given) given (readjust_res_round task decision)
                else mret EXIT_SUCCESS);
      if (failed : bool) then mret EXIT_FAILURE
      else
        t ← rd_task task;
        mret (if (TRP_SLACK <? t_request_rate t)%Z then EXIT_FAILURE else EXIT_SUCCESS)
  end.

(** ** [mergeResidue] *)
Definition FLT_MAX : spec_float := SFmax_float fprec femax.

(** A node with one task, not saturated, that runs model [id]. *)
Definition is_residue_of (id : Z) (node_ptr : NodePtr) : SM (option Task) :=
  n ← rd_node node_ptr;
  if ltb (f2d (n_occupancy n)) (i2d 1) then
    match n_vTaskList n with
    | [tp] => t ← rd_task tp; mret (if (t_id t =? id)%Z then Some t else None)
    | _ => mret None
    end
  else mret None.

(** Collected over all nodes: number of residues, total rate, and the smallest
    saturated throughput with its type and partition. *)
Definition Residues : Type := Z * Z * spec_float * (string * Z).

Definition collect_residue (task : Task) (st : Residues) (node_ptr : NodePtr) : SM Residues :=
  let '(cnt, rate, min_sat_trp, type_part) := st in
  o ← is_residue_of (t_id task) node_ptr;
  match o with
  | None => mret st
  | Some rt =>
      let rate := f2i (fadd (i2f rate) (t_throughput rt)) in
      n ← rd_node node_ptr;
      '(sat_trp, _) ← getMaxSaturateTrp (t_id task) (n_resource_pntg n) (n_type n);
      mret (if ltb sat_trp min_sat_trp
            then (cnt + 1, rate, sat_trp, (n_type n, n_resource_pntg n))%Z
            else (cnt + 1, rate, min_sat_trp, type_part)%Z)
  end.

Definition collect_residues (task : Task) (input_sim : SimState) : SM Residues :=
  for_acc (vGPUList input_sim) (0%Z, t_request_rate task, FLT_MAX, (""%string, 0%Z))
    (fun st gp => g ← rd_gpu gp; for_acc (g_vNodeList g) st (collect_residue task)).

Definition clear_residues (id : Z) (input_sim : SimState) : SM unit :=
  for_each (vGPUList input_sim) (fun gp =>
    g ← rd_gpu gp;
    for_each (g_vNodeList g) (fun np =>
      o ← is_residue_of id np;
      match o with
      | None => mret tt
      | Some _ =>
          _ ← subtractGPUMemUsage gp id np;
          wr_node np (fun n => set_n_duty_cycle fzero (set_n_occupancy fzero (set_n_vTaskList [] n)))
      end)).

(** The merged residue is placed on the first empty node of the remembered type
    and partition; [Some tt] when one took it.  The memory taken off in
    [clear_residues] is not charged again. *)
Definition place_residue (task : TaskPtr) (type_part : string * Z)
    (input_sim : SimState) (gp : GPUPtr) (request_rate : Z) (np : NodePtr) : SM (Z + unit) :=
  t ← rd_task task;
  fits ← doesFitMemLimit gp (t_id t) np;
  if negb (fits : bool) then mret (inl request_rate)
  else
    n ← rd_node np;
    if bool_decide (n_vTaskList n = []) && String.eqb (n_type n) type_part.1
       && (n_resource_pntg n =? type_part.2)%Z
    then
      i ← gets w_indet;
      '(batch_size, request_rate) ← getMaxBatch t np input_sim request_rate true true;
      temp_task_ptr ← new_task (set_t_batch_size batch_size
                        (set_t_SLO (t_SLO t) (set_t_id (t_id t) (raw_task i))));
      if (batch_size =? 0)%Z then mret (inl request_rate)
      else
        let duty_cycle := d2f (ddiv (dmul (i2d batch_size) (i2d 1000)) (i2d request_rate)) in
        _ ← wr_node np (set_n_duty_cycle duty_cycle);
        latency ← getLatency (n_type n) (t_id t) batch_size np input_sim;
        _ ← wr_node np (set_n_occupancy (fdiv latency duty_cycle));
        let throughput := d2f (ddiv (dmul (i2d batch_size) (i2d 1000)) (f2d duty_cycle)) in
        _ ← wr_task temp_task_ptr (fun t => set_t_request_rate (f2i throughput)
              (set_t_throughput throughput t));
        _ ← wr_node np (fun n => set_n_vTaskList (n_vTaskList n ++ [temp_task_ptr]) n);
        _ ← wr_task task (set_t_request_rate
              (if gtb (i2f request_rate) throughput
               then f2i (fsub (i2f request_rate) throughput) else 0%Z));
        mret (inr tt)
    else mret (inl request_rate).

(** Empty GPUs get their whole percentage back. *)
Definition merge_empty_gpu (gp : GPUPtr) : SM unit :=
  g ← rd_gpu gp;
  match g_vNodeList g with
  | first :: _ :: _ =>
      task_cnt ← for_acc (g_vNodeList g) 0%Z (fun cnt np =>
        n ← rd_node np; mret (cnt + Z.of_nat (length (n_vTaskList n)))%Z);
      s ← sched;
      when ((task_cnt =? 0)%Z && _useRepartition s)
        (_ ← wr_gpu gp (set_g_vNodeList [first]);
         wr_node first (fun n => set_n_resource_pntg 100 (set_n_dedup_num 0 n)))
  | _ => mret tt
  end.

Definition mergeResidue (task : TaskPtr) (input_sim : SimState) : SM bool :=
  t ← rd_task task;
  '(residue_cnt, request_rate, min_sat_trp, type_part_pair) ← collect_residues t input_sim;
  if ((residue_cnt =? 0) || ((residue_cnt =? 1) && (request_rate <? TRP_SLACK)))%Z
     || ltb min_sat_trp (i2f request_rate)
  then mret (if (TRP_SLACK <? t_request_rate t)%Z then EXIT_FAILURE else EXIT_SUCCESS)
  else
    _ ← clear_residues (t_id t) input_sim;
    _ ← for_acc_ret (vGPUList input_sim) request_rate (fun rate gp =>
          g ← rd_gpu gp;
          for_acc_ret (g_vNodeList g) rate
            (place_residue task type_part_pair input_sim gp));
    t ← rd_task task;
    if (TRP_SLACK <? t_request_rate t)%Z then mret EXIT_FAILURE
    else
      _ ← for_each (vGPUList input_sim) merge_empty_gpu;
      mret EXIT_SUCCESS.
