(* ===== verification/IncrSchedule.v ===== *)
(** * [IncrementalScheduler], part 4 ([scheduler/scheduler_incremental.cpp]):
    time sharing, scheduling one model, and the scheduling loop. *)
From Stdlib Require Import ZArith SpecFloat String Lia.
From S2P Require Import Prelude CppFloat CppStd LatencyModel DevPerfModel SchedData SchedUtils SchedBase Json Setup IncrEstimate IncrFit IncrReadjust.

(** ** [allocateTimeShare] *)

(** [size < _numMaxModel] compares unsigned. *)
Definition below_max_model (size : nat) (numMaxModel : Z) : bool :=
  ((numMaxModel <? 0) || (Z.of_nat size <? numMaxModel))%Z.

Definition same_slot (a b : Node) : bool :=
  ((n_id a =? n_id b) && (n_dedup_num a =? n_dedup_num b)
   && (n_resource_pntg a =? n_resource_pntg b))%Z.

Definition ts_candidate (id : Z) (ts_node_list : list NodePtr) (gp : GPUPtr) (np : NodePtr) : SM bool :=
  fits ← doesFitMemLimit gp id np;
  if negb (fits : bool) then mret false
  else
    n ← rd_node np;
    s ← sched;
    if decide (ts_node_list = []) then
      mret (ltb (n_occupancy n) (i2f 1) && below_max_model (length (n_vTaskList n)) (_numMaxModel s))
    else
      r ← for_ret ts_node_list (fun np2 =>
        n2 ← rd_node np2; mret (if same_slot n n2 then Some tt else None));
      mret (match r with Some _ => true | None => false end).

Definition ts_candidates (id : Z) (ts_node_list : list NodePtr) (sim : SimState) : SM (list NodePtr) :=
  for_acc (vGPUList sim) [] (fun acc gp =>
    g ← rd_gpu gp;
    for_acc (g_vNodeList g) acc (fun acc np =>
      ok ← ts_candidate id ts_node_list gp np;
      mret (if (ok : bool) then acc ++ [np] else acc))).

(** [int(duty_cycle / (1000.0 / request_rate))] *)
Definition share_batch (duty_cycle : spec_float) (request_rate : Z) : Z :=
  f2i (ddiv duty_cycle (ddiv (i2d 1000) (i2d request_rate))).

(** [for(b = max_batch; b > 0; --b)] until the batch fits next to the others:
    batch size, duty cycle and latency when the loop ends. *)
Fixpoint ts_batch (n : nat) (local_batch_size duty_cycle : Z) (latency : spec_float)
    (task : Task) (node : Node) (node_ptr : NodePtr) (sim : SimState) : SM (Z * Z * spec_float) :=
  match n with
  | O => mret (local_batch_size, duty_cycle, latency)
  | S n' =>
      let duty_cycle := f2i (ddiv (dmul (i2d local_batch_size) (i2d 1000)) (i2d (t_request_rate task))) in
      latency ← getLatency (n_type node) (t_id task) local_batch_size node_ptr sim;
      if ltb (fadd (i2f duty_cycle) latency) (i2f (t_SLO task))
         && ltb (f2d (fdiv latency (i2f duty_cycle))) (dsub (i2d 1) (f2d (n_occupancy node)))
      then mret (local_batch_size, duty_cycle, latency)
      else ts_batch n' (local_batch_size - 1) duty_cycle latency task node node_ptr sim
  end.

(** Sum of the latencies on the node with the new task, and the SLOs. *)
Definition ts_latency_sum (task : Task) (node : Node) (node_ptr : NodePtr) (sim : SimState)
    (duty_cycle : Z) (latency : spec_float) : SM (spec_float * list Z) :=
  for_acc (n_vTaskList node) (fadd fzero latency, [t_SLO task]) (fun '(sum, slos) tp =>
    t ← rd_task tp;
    let batch_size := share_batch (i2d duty_cycle) (t_request_rate t) in
    let batch_size := if (batch_size =? 0)%Z then 1%Z else batch_size in
    l ← getLatency (n_type node) (t_id t) batch_size node_ptr sim;
    mret (fadd sum l, slos ++ [t_SLO t])).

(** The node with the new task: every other task gets the batch size of the new
    duty cycle, capped to [1, 32]. *)
Definition ts_update (id : Z) (node_ptr : NodePtr) (sim : SimState) (duty_cycle : Z) : SM unit :=
  n ← rd_node node_ptr;
  new_occupancy ← for_acc (n_vTaskList n) fzero (fun occ tp =>
    t ← rd_task tp;
    _ ← when (negb (t_id t =? id)%Z)
      (let b := share_batch (i2d duty_cycle) (t_request_rate t) in
       let b := if (b =? 0)%Z then 1%Z else b in
       let b := if (_MAX_BATCH <? b)%Z then _MAX_BATCH else b in
       wr_task tp (fun t => set_t_throughput
         (d2f (ddiv (dmul (i2d b) (i2d 1000)) (i2d duty_cycle))) (set_t_batch_size b t)));
    t ← rd_task tp;
    l ← getLatency (n_type n) (t_id t) (t_batch_size t) node_ptr sim;
    mret (fadd occ (fdiv l (i2f duty_cycle))));
  wr_node node_ptr (fun n => set_n_occupancy new_occupancy (set_n_duty_cycle (i2f duty_cycle) n)).

(** One candidate: [Some tt] when the task was placed ([found]). *)
Definition ts_try (task : TaskPtr) (sim : SimState) (node_ptr : NodePtr) : SM (option unit) :=
  t ← rd_task task;
  contained ← checkContain (t_id t) node_ptr;
  n ← rd_node node_ptr;
  if (contained : bool) then mret None
  else if geb (f2d (n_occupancy n)) (i2d 1) then mret None
  else
    i ← gets w_indet;
    let max_batch := f2i (dmul (f2d (n_duty_cycle n)) (ddiv (i2d (t_request_rate t)) (i2d 1000))) in
    if (max_batch =? 0)%Z then mret None
    else
      let max_batch := if (_MAX_BATCH <? max_batch)%Z then _MAX_BATCH else max_batch in
      '(local_batch_size, duty_cycle, latency) ←
        ts_batch (Z.to_nat max_batch) max_batch (indet_int i) (indet_float i) t n node_ptr sim;
      if gtb (i2f duty_cycle) (n_duty_cycle n) then mret None
      else if (local_batch_size =? 0)%Z then mret None
      else
        '(latency_sum, SLOs) ← ts_latency_sum t n node_ptr sim duty_cycle latency;
        if gtb (f2d (fdiv latency_sum (i2f duty_cycle))) (i2d 1) then mret None
        else
          let latency_sum := fadd latency_sum (i2f duty_cycle) in
          if existsb (fun slo => gtb latency_sum (i2f slo)) SLOs then mret None
          else
            let local_throughput :=
              d2f (dmul (i2d local_batch_size) (ddiv (i2d 1000) (i2d duty_cycle))) in
            new_task_ptr ← createNewTaskPtr (t_id t) (t_request_rate t) (t_SLO t) local_batch_size
                             local_throughput;
            _ ← wr_node node_ptr (fun n => set_n_vTaskList (n_vTaskList n ++ [new_task_ptr]) n);
            let left := fsub (i2f (t_request_rate t)) local_throughput in
            _ ← wr_task task (set_t_request_rate (if gtb left (i2f 0) then f2i left else 0%Z));
            gpu_ptr ← lift (at_index (vGPUList sim) (n_id n));
            _ ← addGPUMemUsage gpu_ptr (t_id t) node_ptr;
            _ ← ts_update (t_id t) node_ptr sim duty_cycle;
            mret (Some tt).

Definition allocateTimeShare (task : TaskPtr) (sim : SimState) (ts_node_list : list NodePtr) :
    SM bool :=
  t ← rd_task task;
  candidates ← ts_candidates (t_id t) ts_node_list sim;
  candidates ← sort_nodes cmp_nodeptr_occu_dsc candidates;
  loop (S (S (length candidates))) tt (fun _ =>
    t ← rd_task task;
    if negb (TRP_SLACK <? i32 (t_request_rate t + t_additional_rate t))%Z
    then mret (inr EXIT_SUCCESS)
    else
      found ← for_ret candidates (ts_try task sim);
      mret (match found with Some _ => inl tt | None => inr EXIT_FAILURE end)).

(** ** Scheduling one model *)
Definition getEstimate (task : TaskPtr) : SM (list NodePtr) :=
  t ← rd_task task;
  type ← getMinPartSum t;
  estimateTrp (rate_fuel (t_request_rate t)) type t (t_request_rate t) [].

Definition empty_nodes (decision : SimState) : SM (list NodePtr) :=
  for_acc (vGPUList decision) [] (fun acc gp =>
    g ← rd_gpu gp;
    for_acc (g_vNodeList g) acc (fun acc np =>
      n ← rd_node np;
      mret (if decide (n_vTaskList n = []) then acc ++ [np] else acc))).

(** The first occurrence of model [id] is erased. *)
Fixpoint erase_model (id : Z) (l : list TaskPtr) : SM (option (list TaskPtr)) :=
  match l with
  | [] => mret None
  | tp :: l' =>
      t ← rd_task tp;
      if (t_id t =? id)%Z then mret (Some l')
      else
        o ← erase_model id l';
        mret (match o with Some l'' => Some (tp :: l'') | None => None end)
  end.

(** Takes the task off one node: [target_nodes] gets the nodes that are empty,
    [ts_target_nodes] the nodes that held the task. *)
Definition retrieve_node (task : TaskPtr) (decision : SimState)
    (st : list NodePtr * list NodePtr) (np : NodePtr) : SM (list NodePtr * list NodePtr) :=
  let '(target_nodes, ts_target_nodes) := st in
  n ← rd_node np;
  if decide (n_vTaskList n = []) then mret (target_nodes ++ [np], ts_target_nodes)
  else
    t ← rd_task task;
    o ← erase_model (t_id t) (n_vTaskList n);
    ts_target_nodes ← (match o with
                       | Some l => _ ← wr_node np (set_n_vTaskList l);
                                   mret (ts_target_nodes ++ [np])
                       | None => mret ts_target_nodes
                       end);
    latency_sum ← sum_latency np decision;
    _ ← wr_node np (fun n => set_n_occupancy (fdiv latency_sum (n_duty_cycle n)) n);
    n ← rd_node np;
    mret (if decide (n_vTaskList n = []) then target_nodes ++ [np] else target_nodes,
          ts_target_nodes).

Definition retrieve_nodes (task : TaskPtr) (decision : SimState) :
    SM (list NodePtr * list NodePtr) :=
  for_acc (vGPUList decision) ([], []) (fun st gp =>
    g ← rd_gpu gp; for_acc (g_vNodeList g) st (retrieve_node task decision)).

(** Readjust, merge the residues, and time-share as the last resort. *)
Definition adjust_or_share (task : TaskPtr) (decision : SimState) (nodes ts_nodes : list NodePtr) :
    SM bool :=
  _ ← readjust task nodes decision;
  failed ← mergeResidue task decision;
  if negb (failed : bool) then mret EXIT_SUCCESS
  else
    s ← sched;
    if _useSelfTuning s then mret EXIT_FAILURE
    else
      failed ← allocateTimeShare task decision ts_nodes;
      mret (if (failed : bool) then EXIT_FAILURE else EXIT_SUCCESS).

Definition addModeltoSchedule (task : TaskPtr) (decision : SimState) : SM bool :=
  _ ← wr_task task (set_t_additional_rate 0);
  scheduled ← isModelScheduled task decision;
  if negb (scheduled : bool) then
    _ ← getMaxPartSize decision;
    estimate_result ← getEstimate task;
    estimate_result ← sort_nodes cmp_nodeptr_dsc estimate_result;
    nofit ← checkFit estimate_result decision;
    goto_adjust ← (if (nofit : bool) then mret true
                   else allocateFit estimate_result task decision);
    if (goto_adjust : bool) then
      nodes ← empty_nodes decision;
      nodes ← sort_nodes cmp_nodeptr_dsc nodes;
      adjust_or_share task decision nodes []
    else mret EXIT_SUCCESS
  else
    '(target_nodes, ts_target_nodes) ← retrieve_nodes task decision;
    target_nodes ← sort_nodes cmp_nodeptr_dsc target_nodes;
    adjust_or_share task decision target_nodes ts_target_nodes.

(** ** The scheduling loop *)

(** [elasticPartitioning] ends without a [return]: its value is indeterminate
    when every model could be added.  The session is left sorted. *)
Definition elasticPartitioning (session : list Task) (decision : SimState) : SM (bool * list Task) :=
  let session := std_sort cmp_task_dsc session in
  r ← for_ret session (fun task =>
    s ← sched;
    _ ← (match _perModelSatTable s !! t_id task with
         | Some _ => mret tt
         | None => initSaturateTrp task
         end);
    task_ptr ← new_task task;
    failed ← addModeltoSchedule task_ptr decision;
    mret (if (failed : bool) then Some EXIT_FAILURE else None));
  i ← gets w_indet;
  mret (match r with Some e => e | None => indet_bool i end, session).

Definition INTF_THRESHOLD : spec_float := d2f (dlit 85 100).

(** Throughput of every model over the whole schedule. *)
Definition total_throughput (decision : SimState) : SM (list (Z * spec_float)) :=
  for_acc (vGPUList decision) [] (fun m gp =>
    g ← rd_gpu gp;
    for_acc (g_vNodeList g) m (fun m np =>
      n ← rd_node np;
      for_acc (n_vTaskList n) m (fun m tp =>
        t ← rd_task tp;
        mret (om_set (t_id t) (fadd (default fzero (om_find (t_id t) m)) (t_throughput t)) m)))).

(** The tasks whose throughput fell below 85% of their rate; [None] when one of
    them was retried already. *)
Definition retry_session (i : Indet) (session : list Task) (trpt : list (Z * spec_float))
    (org_rate : Z -> spec_float) (retried : gset Z) : option (list Task * gset Z) :=
  foldl (fun acc task =>
    match acc with
    | None => None
    | Some (new_session, retried) =>
        let id := t_id task in
        if ltb (default fzero (om_find id trpt)) (fmul (org_rate id) INTF_THRESHOLD) then
          if decide (id ∈ retried) then None
          else Some (new_session ++
                 [set_t_request_rate (f2i (org_rate id)) (set_t_SLO (t_SLO task)
                    (set_t_id id (raw_task i)))],
               {[id]} ∪ retried)
        else Some (new_session, retried)
    end) (Some ([], retried)) session.

Definition org_rate_of (session : list Task) (id : Z) : spec_float :=
  default fzero (om_find id (foldl (fun m t => om_set (t_id t) (i2f (t_request_rate t)) m) [] session)).

(** One round: the session is scheduled and, with interference, the tasks that
    miss their rate are retried ([inl]). *)
Definition sched_round (decision : SimState) (st : list Task * gset Z) :
    SM ((list Task * gset Z) + (bool * list Task)) :=
  let '(session, retried) := st in
  let org_rate := org_rate_of session in
  '(failed, session) ← elasticPartitioning session decision;
  if (failed : bool) then mret (inr (EXIT_FAILURE, session))
  else
    s ← sched;
    if _useInterference s then
      trpt ← total_throughput decision;
      i ← gets w_indet;
      mret (match retry_session i session trpt org_rate retried with
            | None => inr (EXIT_FAILURE, session)
            | Some ([], _) => inr (EXIT_SUCCESS, [])
            | Some (new_session, retried) => inl (new_session, retried)
            end)
    else mret (inr (EXIT_SUCCESS, session)).

(** A task is retried once at most: a second failure of a retried session
    returns, so two rounds are all there is. *)
Definition SCHED_ROUNDS : nat := 2.

Definition incrementalScehduling (session : list Task) (decision : SimState) :
    SM (bool * list Task * SimState) :=
  s ← sched;
  decision ← (if decide (vGPUList decision = []) then initiateDevs decision (_numMaxGPU s)
              else mret decision);
  '(r, session) ← loop SCHED_ROUNDS (session, ∅) (sched_round decision);
  mret (r, session, decision).

(** The schedule found is copied to [new_output]. *)
Definition runScheduling (task_list : list Task) (prev_output new_output : SimState)
    (allow_repart : bool) : SM (bool * list Task * SimState * SimState) :=
  _ ← mod_sched (set_useRepartition allow_repart);
  '(failed, task_list, prev_output) ← incrementalScehduling task_list prev_output;
  if (failed : bool) then mret (EXIT_FAILURE, task_list, prev_output, new_output)
  else
    new_output ← copyToOutput prev_output new_output;
    mret (EXIT_SUCCESS, task_list, prev_output, new_output).

Definition setupNetworkChecker (config : option Value) : SM unit :=
  failed ← zoom (fun w => _NLC (w_sched w)) (fun t w => set_w_sched (set_NLC t (w_sched w)) w)
             (setupPerTaskInputDimension config);
  mod_sched (set_isNLCInitated (negb failed)).

Definition inspectNetworkBW (input : SimState) : SM bool := isBandwidthOK input.
