(* ===== verification/Demo.v ===== *)
(** * A concrete cluster

    Two GPUs of one type with a measured profile for one model, used by the
    witnesses: the definitions are run on it. *)
From Stdlib Require Import ZArith SpecFloat String Lia.
From S2P Require Import Prelude CppFloat CppStd LatencyModel DevPerfModel SchedData SchedUtils SchedBase IncrEstimate IncrFit IncrReadjust IncrSchedule.

Definition demo_rows : list string :=
  ["resnet50,100,1,4.0"; "resnet50,100,8,12.0"; "resnet50,100,32,40.0";
   "resnet50,80,1,4.5"; "resnet50,80,8,13.0"; "resnet50,80,32,46.0";
   "resnet50,50,1,5.5"; "resnet50,50,8,18.0"; "resnet50,50,32,66.0";
   "resnet50,20,1,9.0"; "resnet50,20,8,40.0"; "resnet50,20,32,150.0"]%string.

Definition demo_lat : LatencyModel :=
  match setupTable demo_rows empty_latency_model with
  | Done (_, lm) => lm | Stop _ => empty_latency_model end.

Definition demo_perf : DevPerfModel :=
  {| _latModel := demo_lat; _intModel := empty_interference_model; _devMem := 16000 |}.

(** The batching overhead of batch size [b] is [b/4] ms. *)
Definition demo_overhead : gmap Z spec_float :=
  list_to_map (map (fun n => (Z.of_nat n, fdiv (i2f (Z.of_nat n)) (i2f 4))) (seq 1 32)).

Definition demo_sched : Sched :=
  mkSched false 2 4 true (i2f 1) false true false true [100; 80; 50; 20]%Z ∅ demo_overhead ∅
    {[7%Z := 1000%Z]} {["A"%string := demo_perf]} [("A"%string, 2%Z)]
    ["lenet1"; "lenet2"; "lenet3"; "lenet4"; "lenet5"; "lenet6"; "googlenet"; "resnet50"]%string
    false "" ∅ ∅ false.

Definition demo_indet : Indet := mkIndet 77 fzero false.
Definition demo_task (rate : Z) : Task := mkTask 7 rate rate 0 100 0 fzero.

(** The devices are created and their memory is initialised. *)
Definition demo_boot : SM SimState :=
  sim ← initiateDevs (mkSimState [] [100]%Z 0) 2; _ ← initDevMems sim; mret sim.
Definition start : SimState * World :=
  match demo_boot (mkWorld demo_sched [] [] [] demo_indet) with
  | Done r => r | Stop _ => (mkSimState [] [] 0, mkWorld demo_sched [] [] [] demo_indet) end.
Definition demo_sim : SimState := start.1.
Definition demo_world : World := start.2.

(** The nodes of a schedule: size, GPU, tasks as (model, batch). *)
Definition show (sim : SimState) (w : World) : list (list (Z * list (Z * Z))) :=
  map (fun gp => match w_gpus w !! gp with
    | None => []
    | Some g => map (fun np => match w_nodes w !! np with
        | None => (-1, [])%Z
        | Some n => (n_resource_pntg n, omap (fun tp =>
            t ← w_tasks w !! tp; Some (t_id t, t_batch_size t)) (n_vTaskList n)) end)
        (g_vNodeList g) end) (vGPUList sim).

(** A node estimated for the model, with its task; the two GPUs are empty. *)
Definition demo_estimate : SM NodePtr :=
  tp ← new_task (mkTask 7 100 0 0 100 8 (i2f 400));
  new_node (mkNode [tp] (i2f 20) (i2f 1) 50 0 false 0 "A").
Definition fit_start : NodePtr * World :=
  match demo_estimate demo_world with Done r => r | Stop _ => (0%nat, demo_world) end.
