(* ===== verification/IncrFrame.v ===== *)
(** * What the incremental scheduler's operations leave alone

    Estimates only create nodes; fitting checks, interference adjustment,
    residue merging and time sharing keep the partitioning.  The operations that
    do repartition GPUs are the subject of [SchedInv]. *)
From Stdlib Require Import ZArith SpecFloat String Lia.
From S2P Require Import Prelude CppFloat CppStd LatencyModel DevPerfModel SchedData SchedUtils SchedBase SchedFrame IncrEstimate IncrFit IncrReadjust IncrSchedule.

(** The sizes an estimate may give to a node. *)
Record sizes_ok (N : Z -> Prop) (s : Sched) : Prop := {
  so_zero : N 0%Z;
  so_avail : forall p, p ∈ _availParts s -> N p;
  so_min : forall a b, N a -> N b ->
    N (f2i (if leb (i2f a) (i2f b) then i2f a else i2f b)) }.

Lemma cfg_availParts s s' : cfg s = cfg s' -> _availParts s = _availParts s'.
Proof. intros H. exact (f_equal _availParts H). Qed.
Lemma cfg_useRepartition s s' : cfg s = cfg s' -> _useRepartition s = _useRepartition s'.
Proof. intros H. exact (f_equal _useRepartition H). Qed.
Lemma cfg_types s s' : cfg s = cfg s' -> _typeToNumofTypeTable s = _typeToNumofTypeTable s'.
Proof. intros H. exact (f_equal _typeToNumofTypeTable H). Qed.

Lemma best_return_in trp parts len p :
  best_return trp parts len = Done p -> p ∈ parts.
Proof.
  unfold best_return. intros (m & Hm & H)%obind_inv. apply deref_inv in Hm.
  apply obind_inv in H as (st & Hst & [= <-]).
  assert (Hgen : forall l acc st, match acc with Done st => st.2 ∈ parts | Stop _ => True end ->
    foldl (fun (acc : outcome (spec_float * Z)) i =>
         st ← acc;
         low_part ← deref (parts !! i);
         high_part ← deref (parts !! (i - 1)%nat);
         mret (return_step trp low_part high_part st)) acc l = Done st -> st.2 ∈ parts).
  { clear. intros l. induction l as [|i l IH]; intros acc st Hacc H; cbn in H; [by subst|].
    eapply IH; [|done]. destruct acc as [[r q]|]; cbn; [|done].
    unfold deref at 1, mbind, outcome_bind. destruct (parts !! i); [|done].
    unfold deref. destruct (parts !! (i - 1)%nat) eqn:E; [|done]. cbn.
    destruct (ltb _ _); [done|]. destruct (gtb _ _); [|done].
    by eapply list_elem_of_lookup_2. }
  eapply Hgen; [|exact Hst]. cbn. by eapply list_elem_of_lookup_2.
Qed.

Section Estimates.
Context (K : NodePtr -> Prop) (N : Z -> Prop) (w0 : World).
Abbreviation KP := (keeps K N w0).

Lemma keep_sort_nodes cmp l : keeping KP (sort_nodes cmp l) (fun l' => forall p, p ∈ l' -> p ∈ l).
Proof.
  unfold sort_nodes.
  apply keeping_bind with (Q1 := fun ns : list (NodePtr * Node) => forall x, x ∈ ns -> x.1 ∈ l).
  - apply keeping_for_acc; [by intros x ?%elem_of_nil|]. intros acc p Hp Hacc.
    eapply keeping_bind; [apply keep_rd_node|]. intros n _. apply keeping_ret.
    intros x [Hx| ->%list_elem_of_singleton]%elem_of_app; [by apply Hacc|done].
  - intros ns Hns. apply keeping_ret. intros p Hp. apply list_elem_of_fmap in Hp as (x & -> & Hx).
    apply Hns. by rewrite std_sort_in in Hx.
Qed.
Lemma keep_checkContain m n : keeping KP (checkContain m n) any.
Proof. unfold checkContain. keep. Qed.
Lemma keep_isModelScheduled t d : keeping KP (isModelScheduled t d) any.
Proof. unfold isModelScheduled. keep. Qed.
Lemma keep_getMaxSaturateTrp t p ty : keeping KP (getMaxSaturateTrp t p ty) any.
Proof. unfold getMaxSaturateTrp. keep. Qed.
Hint Resolve keep_getMaxSaturateTrp : keeps.

Lemma keep_getMaxReturnPart t d :
  keeping KP (getMaxReturnPart t d) (fun p => p ∈ _availParts (w_sched w0)).
Proof.
  unfold getMaxReturnPart. eapply keeping_bind; [apply keep_sched|]. intros s Hs.
  rewrite <- (cfg_availParts _ _ Hs). eapply keeping_bind; [apply keeping_massert|]. intros _ _.
  destruct (_availParts s) as [|p [|q l]] eqn:E.
  - apply keeping_bind with (Q1 := any); [keep|]. intros m _. apply keeping_lift.
    intros a. apply best_return_in.
  - apply keeping_ret. by left.
  - apply keeping_bind with (Q1 := any); [keep|]. intros m _. apply keeping_lift.
    intros a. apply best_return_in.
Qed.

Context (HN : sizes_ok N (w_sched w0)).

Lemma avail_ok s p : cfg s = cfg (w_sched w0) -> p ∈ _availParts s -> N p.
Proof. intros Hs Hp. rewrite (cfg_availParts _ _ Hs) in Hp. by apply (so_avail _ _ HN). Qed.

Lemma keep_min_part_scan d t mb r lmp parts :
  N lmp -> (forall p, p ∈ parts -> N p) ->
  keeping KP (min_part_scan d t mb r lmp parts) (sum_post N N).
Proof.
  intros Hl Hp. unfold min_part_scan. eapply keeping_bind; [apply keep_sched|]. intros s Hs.
  apply keeping_for_acc_ret; [done|]. intros v x Hx Hv. specialize (Hp x Hx).
  case_match; [by apply keeping_ret|].
  eapply keeping_bind; [apply keep_getLatency_part|]. intros lat _. cbv zeta.
  repeat case_match; by apply keeping_ret.
Qed.

Lemma keep_getMinPart d t np rr :
  fresh w0 np -> keeping KP (getMinPart d t np rr) (fun r => N r.1.1).
Proof.
  intros Hnp. unfold getMinPart.
  eapply keeping_bind; [apply keep_rd_node|]. intros n [_ Hn].
  eapply keeping_bind; [apply keep_sched|]. intros s Hs.
  apply keeping_bind with (Q1 := N).
  { apply keeping_lift. intros p Hp. apply deref_inv in Hp. apply (avail_ok s); [done|].
    apply head_Some in Hp as [l ->]. by left. }
  intros front Hf. cbv zeta.
  set (lmp := f2i _). assert (Hlmp : N lmp) by (apply (so_min _ _ HN); auto).
  apply keeping_bind with (Q1 := any); [keep|]. intros i _.
  eapply keeping_bind; [by apply keep_new_node|]. intros tmp _.
  eapply keeping_bind; [apply keep_getMaxBatch|]. intros [mb rr'] _.
  case_match; [apply keeping_ret, (so_zero _ _ HN)|].
  eapply keeping_bind; [apply keeping_massert|]. intros _ _.
  eapply keeping_bind.
  { apply keep_min_part_scan; [done|]. intros p Hp. by apply (avail_ok s). }
  intros [p|p] Hp; by apply keeping_ret.
Qed.

Lemma keep_pick_part t r d parts i :
  (forall p, p ∈ parts -> N p) -> keeping KP (pick_part t r d parts i) (fun x => N x.1.1).
Proof.
  intros Hp. unfold pick_part.
  eapply keeping_bind.
  { apply keeping_for_acc_ret with (QV := fun x : Z * Z * Z => N x.1.1)
      (QR := fun x : Z * Z * Z => N x.1.1); [apply (so_zero _ _ HN)|].
    intros v x Hx _. specialize (Hp x Hx).
    eapply keeping_bind; [apply keep_getMaxSaturateTrp|]. intros [trp mb] _. cbv zeta.
    case_match; by apply keeping_ret. }
  intros [x|x] Hx; by apply keeping_ret.
Qed.

(** An estimate lists nodes created for it. *)
Definition fresh_list (l : list nat) : Prop := forall p, p ∈ l -> fresh w0 p.
Lemma fresh_nil : fresh_list [].
Proof. by intros p ?%elem_of_nil. Qed.
Lemma fresh_snoc l p : fresh_list l -> fresh w0 p -> fresh_list (l ++ [p]).
Proof. intros Hl Hp q [Hq| ->%list_elem_of_singleton]%elem_of_app; auto. Qed.
Hint Resolve fresh_nil fresh_snoc : core.

Lemma keep_getEstimateTrpST d t r out fuel :
  fresh_list out -> keeping KP (getEstimateTrpST d t r out fuel) fresh_list.
Proof.
  intros Hout. unfold getEstimateTrpST.
  eapply keeping_bind; [apply keep_sched|]. intros s Hs.
  apply keeping_bind with (Q1 := any); [keep|]. intros i _. cbv zeta.
  apply keeping_loop with (QV := fun v : Z * list NodePtr => fresh_list v.2); [done|].
  intros [rate o] Ho. case_match; [|by apply keeping_ret].
  eapply keeping_bind.
  { apply keep_pick_part. intros p Hp. rewrite std_sort_in in Hp. by apply (avail_ok s). }
  intros [[mp mt] mb] Hmp.
  eapply keeping_bind; [apply keeping_massert|]. intros _ _.
  eapply keeping_bind; [by apply keep_makeEmptyNode|]. intros np Hnp.
  eapply keeping_bind; [apply keep_getLatency_part|]. intros lat _. cbv zeta.
  eapply keeping_bind; [apply keep_new_task|]. intros tp _.
  eapply keeping_bind; [apply keep_wr_node; done|]. intros _ _.
  apply keeping_ret. cbn. auto.
Qed.

Lemma keep_saturate_node d t r sp sb st c :
  N sp -> keeping KP (saturate_node d t r sp sb st c) (fresh w0).
Proof.
  intros Hsp. unfold saturate_node.
  eapply keeping_bind; [by apply keep_makeEmptyNode|]. intros np Hnp.
  eapply keeping_bind; [apply keep_createNewTaskPtr|]. intros tp _.
  eapply keeping_bind; [by apply keep_wr_node_fresh|]. intros _ _.
  eapply keeping_bind; [apply keep_getLatency_part|]. intros lat _.
  eapply keeping_bind; [by apply keep_wr_node|]. intros _ _. by apply keeping_ret.
Qed.

Lemma keep_residue_node d t r mp c :
  N mp -> keeping KP (residue_node d t r mp c) (fresh w0).
Proof.
  intros Hsp. unfold residue_node.
  apply keeping_bind with (Q1 := any); [keep|]. intros i _.
  eapply keeping_bind; [by apply keep_makeEmptyNode|]. intros np Hnp.
  eapply keeping_bind; [by apply keep_getMinPart|]. intros [[mn rate] ob] Hmn. cbv zeta.
  eapply keeping_bind; [by apply keep_wr_node_fresh|]. intros _ _.
  eapply keeping_bind; [apply keep_getLatency_part|]. intros lat _. cbv zeta.
  eapply keeping_bind; [apply keep_createNewTaskPtr|]. intros tp _.
  eapply keeping_bind; [by apply keep_wr_node_fresh|]. intros _ _. by apply keeping_ret.
Qed.

Lemma keep_estimateTrp fuel d t r out :
  fresh_list out -> keeping KP (estimateTrp fuel d t r out) fresh_list.
Proof.
  revert r out. induction fuel as [|fuel IH]; intros r out Hout; cbn; [apply keeping_fail|].
  case_match; [by apply keeping_ret|].
  eapply keeping_bind; [apply keep_sched|]. intros s Hs.
  case_match; [by apply keep_getEstimateTrpST|].
  eapply keeping_bind; [apply keep_getMaxReturnPart|]. intros mp Hmp%(so_avail _ _ HN).
  eapply keeping_bind; [apply keep_getMaxSaturateTrp|]. intros [lim b] _. case_match.
  - eapply keeping_bind; [apply keep_getMaxSaturateTrp|]. intros [trp b'] _.
    eapply keeping_bind; [by apply keep_saturate_node|]. intros np Hnp. auto.
  - eapply keeping_bind; [by apply keep_residue_node|]. intros np Hnp. apply keeping_ret. auto.
Qed.

Lemma keep_getMinPartSum t : keeping KP (getMinPartSum t) any.
Proof.
  unfold getMinPartSum.
  eapply keeping_bind; [apply keep_sched|]. intros s Hs.
  apply keeping_bind with (Q1 := any).
  { apply keeping_for_acc; [done|]. intros v x _ _.
    eapply keeping_bind; [apply keep_estimateTrp, fresh_nil|]. intros out Hout. keep. }
  intros sums _. destruct (min_type sums) as [[mp o] sm]. destruct sm; [|by apply keeping_ret].
  apply keeping_bind with (Q1 := any); [|intros; by apply keeping_ret].
  apply keeping_for_acc; [done|]. intros [fu o'] [ty sm] _ _.
  case_match; [by apply keeping_ret|].
  eapply keeping_bind; [apply keep_getMaxReturnPart|]. intros mp' _. cbv zeta. keep.
Qed.

Lemma keep_getEstimate t : keeping KP (getEstimate t) fresh_list.
Proof.
  unfold getEstimate. eapply keeping_bind; [apply keep_rd_task|]. intros t' _.
  eapply keeping_bind; [apply keep_getMinPartSum|]. intros ty _.
  apply keep_estimateTrp, fresh_nil.
Qed.
End Estimates.
#[export] Hint Resolve keep_checkContain keep_isModelScheduled keep_getMaxSaturateTrp : keeps.

(** ** Fitting, adjusting, merging and sharing *)

(** A node of the schedule. *)
Definition in_sim (w : World) (sim : SimState) (p : NodePtr) : Prop :=
  exists gp g, gp ∈ vGPUList sim /\ gshape_at w gp = Some g /\ p ∈ g.2.

Section Fitting.
Context (K : NodePtr -> Prop) (w0 : World).
Abbreviation KP := (keeps K any w0).

Lemma keep_sat_entry t np ty p : fresh w0 np -> keeping KP (sat_entry t np ty p) any.
Proof.
  intros Hnp. unfold sat_entry. eapply keeping_bind; [by apply keep_wr_node_fresh|]. intros _ _.
  keep.
Qed.
Lemma keep_initSaturateTrp t : keeping KP (initSaturateTrp t) any.
Proof.
  unfold initSaturateTrp. apply keeping_bind with (Q1 := any); [keep|]. intros i _.
  eapply keeping_bind; [by apply keep_new_node|]. intros np Hnp.
  eapply keeping_bind; [apply keep_sched|]. intros s Hs.
  apply keeping_bind with (Q1 := any); [|intros [?|?] _; keep].
  pose proof (keep_sat_entry t np) as He. keep.
Qed.

Lemma keep_doesFitMemLimit g m n : keeping KP (doesFitMemLimit g m n) any.
Proof. unfold doesFitMemLimit. keep. Qed.
Hint Resolve keep_doesFitMemLimit : keeps.
Lemma keep_addGPUMemUsage g m n : keeping KP (addGPUMemUsage g m n) any.
Proof. unfold addGPUMemUsage. keep. Qed.
Lemma keep_subtractGPUMemUsage g m n : keeping KP (subtractGPUMemUsage g m n) any.
Proof. unfold subtractGPUMemUsage. keep. Qed.
Lemma keep_checkForInterference d a b sim : keeping KP (checkForInterference d a b sim) any.
Proof. unfold checkForInterference. keep. Qed.
Hint Resolve keep_checkForInterference : keeps.
Lemma keep_node_admits sim g i n : keeping KP (node_admits sim g i n) any.
Proof. unfold node_admits. keep. Qed.
Hint Resolve keep_node_admits : keeps.

Lemma in_sim_intro sim gp g p :
  gp ∈ vGPUList sim -> gshape_at w0 gp = Some (gshape g) -> p ∈ g_vNodeList g -> in_sim w0 sim p.
Proof. intros. exists gp, (gshape g). done. Qed.

Lemma best_update_ptr up a b np st p :
  snd (best_update up a b np st) = Some p -> p = np \/ st.2 = Some p.
Proof.
  unfold best_update. destruct st as [d o]. destruct (_ && up); destruct (_ <=? _)%Z; cbn;
    intros H; simplify_eq; auto.
Qed.

(** What [findBestFit] may return. *)
Definition fit_target (sim : SimState) (input : NodePtr) (excl : list NodePtr) (p : NodePtr) : Prop :=
  in_sim w0 sim p /\ (p ∉ excl) /\ (K input -> K p -> (part_at w0 input <= part_at w0 p)%Z).

Lemma keep_findBestFit sim input excl :
  keeping KP (findBestFit sim input excl)
    (fun o => match o with Some p => fit_target sim input excl p | None => True end).
Proof.
  unfold findBestFit. eapply keeping_bind; [apply keep_rd_node|]. intros inp _.
  set (QV := fun st : Z * option NodePtr =>
    match st.2 with Some p => fit_target sim input excl p | None => True end).
  apply keeping_bind with (Q1 := QV).
  - apply keeping_for_acc; [done|]. intros st gp Hgp Hst.
    eapply keeping_bind; [apply keep_rd_gpu|]. intros g Hg.
    case_match; [by apply keeping_ret|].
    apply keeping_for_acc; [done|]. clear st Hst. intros st np Hnp Hst. unfold fit_step.
    eapply keeping_bind; [apply keep_rd_node|]. intros n [Hn _].
    eapply keeping_bind; [apply keep_rd_node|]. intros inp' [Hi _].
    case_match eqn:Hcond; [by apply keeping_ret|]. case_decide; [by apply keeping_ret|].
    apply keeping_bind with (Q1 := any); [keep|]. intros adm _.
    case_match; [by apply keeping_ret|].
    eapply keeping_bind; [apply keep_getUseParts|]. intros up _. apply keeping_ret.
    unfold QV. destruct (snd (best_update _ _ _ _ _)) as [p|] eqn:E; [|done].
    apply best_update_ptr in E as [->|E].
    + split_and!; [exact (in_sim_intro _ _ _ _ Hgp Hg Hnp)|done|]. intros Ki Kn.
      rewrite (part_at_shape _ _ _ (Hi Ki)), (part_at_shape _ _ _ (Hn Kn)).
      apply orb_false_elim in Hcond as [Hc _]. apply Z.ltb_ge in Hc. exact Hc.
    + unfold QV in Hst. by rewrite E in Hst.
  - intros st Hst. case_match; by apply keeping_ret.
Qed.

Lemma keep_checkFit cs sim : keeping KP (checkFit cs sim) any.
Proof.
  unfold checkFit, fit_search.
  assert (Hf : forall i l, keeping KP (findBestFit sim i l) any)
    by (intros; eapply keeping_any, keep_findBestFit).
  keep.
Qed.

Lemma keep_grow_estimate input pntg r sim :
  ~ K input -> keeping KP (grow_estimate input pntg r sim) any.
Proof.
  intros Hi. unfold grow_estimate. eapply keeping_bind; [by apply keep_wr_node_free|]. intros _ _.
  keep.
Qed.
Lemma keep_adjust_gpu_nodes g t sim : keeping KP (adjust_gpu_nodes g t sim) any.
Proof. unfold adjust_gpu_nodes. keep. Qed.

Lemma keep_revertNode n : keeping KP (revertNode n) any.
Proof. unfold revertNode. keep. Qed.
Lemma keep_checkNeedtoRevert n t sim : keeping KP (checkNeedtoRevert n t sim) any.
Proof. unfold checkNeedtoRevert. keep. Qed.
Lemma keep_getNodewithPriorityType t ty l :
  keeping KP (getNodewithPriorityType t ty l)
    (fun o => match o with Some p => p ∈ l | None => True end).
Proof.
  unfold getNodewithPriorityType. eapply keeping_bind; [apply keeping_massert|]. intros _ _.
  eapply keeping_bind; [apply keep_getMaxReturnPart|]. intros _ _.
  apply keeping_for_ret; [done|]. intros np Hnp.
  eapply keeping_bind; [apply keep_rd_node|]. intros n _. apply keeping_ret. by destruct (String.eqb _ _).
Qed.

Lemma sizes_ok_any s : sizes_ok any s.
Proof. done. Qed.

Lemma keep_pick_node t l sim : keeping KP (pick_node t l sim) (fun p => p ∈ l).
Proof.
  unfold pick_node, checkTypePriority.
  apply keeping_bind with (Q1 := any); [keep|]. intros pr _.
  eapply keeping_bind; [apply keep_rd_task|]. intros t' _.
  apply keeping_bind with (Q1 := any).
  { destruct pr; [keep|]. eapply keeping_bind; [apply keep_getMaxPartSize|]. intros _ _.
    apply keep_getMinPartSum, sizes_ok_any. }
  intros ty _. eapply keeping_bind; [apply keep_getNodewithPriorityType|]. intros [p|] Hp.
  - by apply keeping_ret.
  - apply keeping_lift. intros a Ha. apply deref_inv in Ha.
    apply head_Some in Ha as [l' ->]. by left.
Qed.

Lemma keep_is_residue_of m n : keeping KP (is_residue_of m n) any.
Proof. unfold is_residue_of. keep. Qed.
Hint Resolve keep_is_residue_of keep_subtractGPUMemUsage keep_addGPUMemUsage : keeps.
Lemma keep_collect_residues t sim : keeping KP (collect_residues t sim) any.
Proof. unfold collect_residues, collect_residue. keep. Qed.
Lemma keep_clear_residues m sim : keeping KP (clear_residues m sim) any.
Proof. unfold clear_residues. keep. Qed.
Lemma keep_place_residue t tp sim gp r np : keeping KP (place_residue t tp sim gp r np) any.
Proof. unfold place_residue. keep. Qed.

Lemma keep_ts_candidates i l sim : keeping KP (ts_candidates i l sim) any.
Proof. unfold ts_candidates, ts_candidate. keep. Qed.
Lemma keep_ts_batch n a b c t nd np sim : keeping KP (ts_batch n a b c t nd np sim) any.
Proof.
  revert a b c. induction n as [|n IH]; intros a b c; cbn; [by apply keeping_ret|]. keep.
Qed.
Hint Resolve keep_ts_candidates keep_ts_batch : keeps.
Lemma keep_ts_try t sim n : keeping KP (ts_try t sim n) any.
Proof. unfold ts_try, ts_latency_sum, ts_update. keep. Qed.
Hint Resolve keep_ts_try : keeps.
Lemma keep_allocateTimeShare t sim l : keeping KP (allocateTimeShare t sim l) any.
Proof.
  unfold allocateTimeShare.
  assert (Hs : forall c l, keeping KP (sort_nodes c l) any)
    by (intros; eapply keeping_any, keep_sort_nodes).
  keep.
Qed.

Definition sim_list (sim : SimState) (l : list nat) : Prop := forall p, p ∈ l -> in_sim w0 sim p.
Lemma sim_list_snoc sim l p : sim_list sim l -> in_sim w0 sim p -> sim_list sim (l ++ [p]).
Proof. intros Hl Hp q [Hq| ->%list_elem_of_singleton]%elem_of_app; auto. Qed.
Hint Resolve sim_list_snoc : core.

Lemma keep_empty_nodes sim : keeping KP (empty_nodes sim) (sim_list sim).
Proof.
  unfold empty_nodes. apply keeping_for_acc; [by intros p ?%elem_of_nil|].
  intros acc gp Hgp Hacc. eapply keeping_bind; [apply keep_rd_gpu|]. intros g Hg.
  apply keeping_for_acc; [done|]. clear acc Hacc. intros acc np Hnp Hacc.
  eapply keeping_bind; [apply keep_rd_node|]. intros n _. apply keeping_ret.
  case_decide; [|done]. apply sim_list_snoc; [done|]. exact (in_sim_intro _ _ _ _ Hgp Hg Hnp).
Qed.

Lemma keep_erase_model i l : keeping KP (erase_model i l) any.
Proof. induction l as [|tp l IH]; cbn; [by apply keeping_ret|]. keep. Qed.
Hint Resolve keep_erase_model : keeps.

Lemma keep_retrieve_nodes t sim :
  keeping KP (retrieve_nodes t sim) (fun st => sim_list sim st.1 /\ sim_list sim st.2).
Proof.
  unfold retrieve_nodes. apply keeping_for_acc; [by split; intros p ?%elem_of_nil|].
  intros acc gp Hgp Hacc. eapply keeping_bind; [apply keep_rd_gpu|]. intros g Hg.
  apply keeping_for_acc; [done|]. clear acc Hacc. intros [l ts] np Hnp [Hl Hts]. cbn in Hl, Hts.
  assert (Hin : in_sim w0 sim np) by (exact (in_sim_intro _ _ _ _ Hgp Hg Hnp)).
  unfold retrieve_node.
  eapply keeping_bind; [apply keep_rd_node|]. intros n _.
  case_decide; [apply keeping_ret; cbn; auto|].
  eapply keeping_bind; [apply keep_rd_task|]. intros t' _.
  eapply keeping_bind; [apply keep_erase_model|]. intros o _.
  apply keeping_bind with (Q1 := sim_list sim).
  { destruct o; [|by apply keeping_ret].
    eapply keeping_bind; [by apply keep_wr_node|]. intros _ _. apply keeping_ret. auto. }
  intros ts' Hts'. eapply keeping_bind; [apply keep_sum_latency|]. intros ls _.
  eapply keeping_bind; [by apply keep_wr_node|]. intros _ _.
  eapply keeping_bind; [apply keep_rd_node|]. intros n' _.
  apply keeping_ret. cbn. split; [case_decide; auto|done].
Qed.

Lemma keep_total_throughput sim : keeping KP (total_throughput sim) any.
Proof. unfold total_throughput. keep. Qed.
End Fitting.
