(* ===== verification/SchedInv.v ===== *)
(** * Well-formed schedules

    A schedule is well formed when the GPUs are numbered by their position,
    every node belongs to one GPU, carries its number and type, has a size that
    is not negative, and the sizes of every GPU add up to 100 percent.  Every
    operation of the scheduler that repartitions GPUs preserves this. *)
From Stdlib Require Import ZArith SpecFloat String Lia.
From S2P Require Import Prelude CppFloat CppStd LatencyModel DevPerfModel SchedData SchedUtils SchedBase SchedFrame IncrEstimate IncrFit IncrReadjust IncrSchedule IncrFrame.

Definition parts_sum (w : World) (l : list NodePtr) : Z := foldr (fun p s => (part_at w p + s)%Z) 0%Z l.

Record wf_gpu (w : World) (i : Z) (g : Z * string * list NodePtr) : Prop := {
  wg_id : g.1.1 = i;
  wg_nodup : NoDup g.2;
  wg_sum : parts_sum w g.2 = 100%Z;
  wg_node : forall p, p ∈ g.2 -> exists pntg d,
    shape_at w p = Some (pntg, i, d, g.1.2) /\ (0 <= pntg)%Z }.

Record wf_sim (w : World) (sim : SimState) : Prop := {
  wf_nodup : NoDup (vGPUList sim);
  wf_at : forall i gp, vGPUList sim !! i = Some gp ->
    exists g, gshape_at w gp = Some g /\ wf_gpu w (Z.of_nat i) g }.

(** ** Reading a well-formed schedule *)
Lemma parts_sum_cons w p l : parts_sum w (p :: l) = (part_at w p + parts_sum w l)%Z.
Proof. done. Qed.
Lemma parts_sum_nil w : parts_sum w [] = 0%Z.
Proof. done. Qed.
#[global] Opaque parts_sum.

Lemma parts_sum_nonneg w l :
  (forall q, q ∈ l -> (0 <= part_at w q)%Z) -> (0 <= parts_sum w l)%Z.
Proof.
  induction l as [|q l IH]; intros H; [by rewrite parts_sum_nil|]. rewrite parts_sum_cons.
  pose proof (H q ltac:(by left)). assert (0 <= parts_sum w l)%Z; [|lia].
  apply IH. intros r Hr. apply H. by right.
Qed.

Lemma parts_sum_ext w w' l :
  (forall p, p ∈ l -> part_at w' p = part_at w p) -> parts_sum w' l = parts_sum w l.
Proof.
  induction l as [|p l IH]; intros H; [by rewrite !parts_sum_nil|].
  rewrite !parts_sum_cons. rewrite H by (by left). rewrite IH; [done|]. intros q Hq. apply H. by right.
Qed.

Lemma parts_sum_app w l l' : parts_sum w (l ++ l') = (parts_sum w l + parts_sum w l')%Z.
Proof.
  induction l as [|p l IH]; [by rewrite parts_sum_nil|]. cbn [app].
  rewrite !parts_sum_cons, IH. lia.
Qed.

Lemma parts_sum_ge w l p :
  (forall q, q ∈ l -> (0 <= part_at w q)%Z) -> p ∈ l -> (part_at w p <= parts_sum w l)%Z.
Proof.
  intros Hq. induction l as [|q l IH]; [by intros ?%elem_of_nil|]. rewrite parts_sum_cons.
  assert (Hl : forall r, r ∈ l -> (0 <= part_at w r)%Z) by (intros r Hr; apply Hq; by right).
  pose proof (parts_sum_nonneg w l Hl). pose proof (Hq q ltac:(by left)).
  intros [->|Hp]%elem_of_cons; [lia|]. specialize (IH Hl Hp). lia.
Qed.

(** Replacing the size of one node of the list. *)
Lemma parts_sum_change w w' l p :
  NoDup l -> p ∈ l -> (forall q, q ∈ l -> q <> p -> part_at w' q = part_at w q) ->
  parts_sum w' l = (parts_sum w l - part_at w p + part_at w' p)%Z.
Proof.
  induction l as [|q l IH]; [by intros _ ?%elem_of_nil|].
  intros [Hq Hl]%NoDup_cons Hp Hs. rewrite !parts_sum_cons. apply elem_of_cons in Hp as [->|Hp].
  - rewrite (parts_sum_ext w w'); [lia|]. intros r Hr. apply Hs; [by right|]. by intros ->.
  - rewrite IH; [|done|done|]; [|intros r Hr; apply Hs; by right].
    rewrite (Hs q); [lia|by left|]. by intros ->.
Qed.

Section Read.
Context (w : World) (sim : SimState) (Hwf : wf_sim w sim).

Lemma wf_in_sim p :
  in_sim w sim p -> exists i gp ty nodes pntg d,
    vGPUList sim !! i = Some gp /\ gshape_at w gp = Some (Z.of_nat i, ty, nodes) /\ p ∈ nodes /\
    wf_gpu w (Z.of_nat i) (Z.of_nat i, ty, nodes) /\
    shape_at w p = Some (pntg, Z.of_nat i, d, ty) /\ (0 <= pntg <= 100)%Z.
Proof.
  intros (gp & g & Hgp & Hg & Hp). apply list_elem_of_lookup in Hgp as [i Hi].
  destruct (wf_at _ _ Hwf i gp Hi) as (g' & Hg' & Hw). assert (g' = g) as -> by congruence.
  destruct (wg_node _ _ _ Hw p Hp) as (pntg & d & Hs & Hnn).
  pose proof (wg_id _ _ _ Hw) as Hid. destruct g as [[id ty] nodes]. cbn in *. subst id.
  exists i, gp, ty, nodes, pntg, d. split_and!; try done.
  pose proof (wg_sum _ _ _ Hw) as Hsum. cbn in Hsum.
  rewrite <- Hsum. pose proof (part_at_shape _ _ _ Hs) as Hpa. unfold shape_part in Hpa. cbn in Hpa.
  rewrite <- Hpa. apply parts_sum_ge; [|done]. intros q Hq.
  destruct (wg_node _ _ _ Hw q Hq) as (pq & dq & Hsq & Hqq).
  by rewrite (part_at_shape _ _ _ Hsq).
Qed.

Lemma wf_in_sim_lt p : in_sim w sim p -> all_nodes w p.
Proof.
  intros (i & gp & ty & nodes & pntg & d & _ & _ & _ & _ & Hs & _)%wf_in_sim.
  unfold shape_at in Hs. destruct (w_nodes w !! p) eqn:E; [|done]. by eapply lookup_lt_Some.
Qed.

Lemma wf_part_range p : in_sim w sim p -> (0 <= part_at w p <= 100)%Z.
Proof.
  intros (i & gp & ty & nodes & pntg & d & _ & _ & _ & _ & Hs & Hr)%wf_in_sim.
  by rewrite (part_at_shape _ _ _ Hs).
Qed.
End Read.

(** ** Steps that keep the partitioning *)
Lemma keeps_part K N w0 w p : keeps K N w0 w -> K p -> part_at w p = part_at w0 p.
Proof. intros Hk Hp. unfold part_at. by rewrite (k_nodes _ _ _ _ Hk). Qed.

Lemma keeps_in_sim K N w0 w sim p : keeps K N w0 w -> in_sim w sim p <-> in_sim w0 sim p.
Proof. intros Hk. unfold in_sim. setoid_rewrite (k_gpus _ _ _ _ Hk). done. Qed.

Lemma keeps_wf K N w0 w sim :
  keeps K N w0 w -> (forall p, in_sim w0 sim p -> K p) -> wf_sim w0 sim -> wf_sim w sim.
Proof.
  intros Hk HK [Hnd Hat]. split; [done|]. intros i gp Hi.
  destruct (Hat i gp Hi) as (g & Hg & [Hid Hn Hs Hnode]).
  exists g. rewrite (k_gpus _ _ _ _ Hk). split; [done|].
  assert (HKg : forall p, p ∈ g.2 -> K p).
  { intros p Hp. apply HK. exists gp, g. split_and!; [|done|done]. by eapply list_elem_of_lookup_2. }
  split; try done.
  - rewrite (parts_sum_ext w0); [done|]. intros p Hp. eapply keeps_part; eauto.
  - intros p Hp. rewrite (k_nodes _ _ _ _ Hk) by auto. auto.
Qed.

(** Code that keeps the partitioning of every node it starts with. *)
Definition calm (w w' : World) : Prop := keeps (all_nodes w) any w w'.

Lemma keeping_calm {A} (m : SM A) (Q : World -> A -> Prop) w a w' :
  (forall K w0, keeping (keeps K any w0) m (Q w0)) -> m w = Done (a, w') -> calm w w' /\ Q w a.
Proof. intros Hm H. eapply Hm; [|exact H]. by apply keeps_refl. Qed.

(** From a run [E] of code that keeps the partitioning. *)
Ltac calm_from E Hc :=
  match type of E with
  | ?m ?w = Done (?a, ?w') =>
      assert (Hc : calm w w')
        by (eapply (keeping_calm m (fun _ => any)); [intros ? ?; keep | exact E])
  end.

Lemma calm_wf w w' sim : calm w w' -> wf_sim w sim -> wf_sim w' sim.
Proof.
  intros Hc Hwf. eapply keeps_wf; [exact Hc| |done]. intros p Hp. by eapply wf_in_sim_lt.
Qed.
Lemma calm_part w w' p : calm w w' -> all_nodes w p -> part_at w' p = part_at w p.
Proof. intros Hc Hp. by eapply keeps_part. Qed.
Lemma calm_in_sim w w' sim p : calm w w' -> in_sim w' sim p <-> in_sim w sim p.
Proof. apply keeps_in_sim. Qed.
Lemma calm_lt w w' p : calm w w' -> all_nodes w p -> all_nodes w' p.
Proof. intros Hc Hp. pose proof (k_len _ _ _ _ Hc). unfold all_nodes in *. lia. Qed.
#[global] Instance calm_preorder : PreOrder calm.
Proof.
  split; [intros w; by apply keeps_refl|]. intros a b c H1 H2.
  pose proof (k_len _ _ _ _ H1). pose proof (k_len _ _ _ _ H2). split.
  - done.
  - lia.
  - intros p Hp. rewrite (k_nodes _ _ _ _ H2) by (by eapply calm_lt).
    by apply (k_nodes _ _ _ _ H1).
  - done.
  - intros p. by rewrite (k_gpus _ _ _ _ H2), (k_gpus _ _ _ _ H1).
  - by rewrite (k_cfg _ _ _ _ H2), (k_cfg _ _ _ _ H1).
  - by rewrite (k_indet _ _ _ _ H2), (k_indet _ _ _ _ H1).
Qed.

(** ** Views after a write *)
Lemma wr_node_inv p f w u w' :
  wr_node p f w = Done (u, w') ->
  exists n, w_nodes w !! p = Some n /\ w' = set_w_nodes (<[p := f n]> (w_nodes w)) w.
Proof. intros H. unfold wr_node in H. minv H. eauto. Qed.
Lemma wr_gpu_inv p f w u w' :
  wr_gpu p f w = Done (u, w') ->
  exists g, w_gpus w !! p = Some g /\ w' = set_w_gpus (<[p := f g]> (w_gpus w)) w.
Proof. intros H. unfold wr_gpu in H. minv H. eauto. Qed.
Lemma rd_node_inv p w n w' : rd_node p w = Done (n, w') -> w_nodes w !! p = Some n /\ w' = w.
Proof. intros H. unfold rd_node in H. by minv H. Qed.
Lemma rd_gpu_inv p w g w' : rd_gpu p w = Done (g, w') -> w_gpus w !! p = Some g /\ w' = w.
Proof. intros H. unfold rd_gpu in H. by minv H. Qed.
Lemma rd_task_inv p w t w' : rd_task p w = Done (t, w') -> w_tasks w !! p = Some t /\ w' = w.
Proof. intros H. unfold rd_task in H. by minv H. Qed.
Lemma new_node_inv n w p w' :
  new_node n w = Done (p, w') -> p = length (w_nodes w) /\ w' = set_w_nodes (w_nodes w ++ [n]) w.
Proof. intros H. unfold new_node in H. by minv H. Qed.

Lemma shape_at_insert w p n q :
  all_nodes w p ->
  shape_at (set_w_nodes (<[p := n]> (w_nodes w)) w) q =
  if decide (q = p) then Some (shape n) else shape_at w q.
Proof.
  intros Hp. unfold shape_at. cbn. case_decide as Hq.
  - subst q. by rewrite list_lookup_insert_eq.
  - by rewrite list_lookup_insert_ne.
Qed.
Lemma shape_at_new w n q :
  shape_at (set_w_nodes (w_nodes w ++ [n]) w) q =
  if decide (q = length (w_nodes w)) then Some (shape n) else shape_at w q.
Proof.
  unfold shape_at. cbn. case_decide as Hq.
  - subst q. by rewrite lookup_app_r, Nat.sub_diag.
  - destruct (decide (q < length (w_nodes w))%nat); [by rewrite lookup_app_l|].
    rewrite !lookup_ge_None_2; [done|lia|]. rewrite length_app. cbn. lia.
Qed.
Lemma gshape_at_insert w p g q :
  (p < length (w_gpus w))%nat ->
  gshape_at (set_w_gpus (<[p := g]> (w_gpus w)) w) q =
  if decide (q = p) then Some (gshape g) else gshape_at w q.
Proof.
  intros Hp. unfold gshape_at. cbn. case_decide as Hq.
  - subst q. by rewrite list_lookup_insert_eq.
  - by rewrite list_lookup_insert_ne.
Qed.

(** ** Splitting a whole GPU *)

(** What [split_node] changes. *)
Record split_effect (w w' : World) (np : NodePtr) (pntg : Z) (sim : SimState) (r : NodePtr) : Prop := {
  se_node : exists i d ty gp gi gt l d', shape_at w np = Some (part_at w np, i, d, ty) /\
    at_index (vGPUList sim) i = Done gp /\ gshape_at w gp = Some (gi, gt, l) /\
    shape_at w' np = Some (pntg, i, d, ty) /\
    shape_at w' r = Some (i32 (100 - pntg), i, d', ty) /\
    gshape_at w' gp = Some (gi, gt, l ++ [r]) /\
    (forall q, q <> gp -> gshape_at w' q = gshape_at w q);
  se_fresh : r = length (w_nodes w);
  se_len : length (w_nodes w') = S (length (w_nodes w));
  se_other : forall q, q <> np -> q <> r -> shape_at w' q = shape_at w q;
  se_cfg : cfg (w_sched w') = cfg (w_sched w) }.

Lemma split_node_effect np pntg sim w r w' :
  split_node np pntg sim w = Done (r, w') -> split_effect w w' np pntg sim r.
Proof.
  intros H. unfold split_node, makeEmptyNode in H. minv H.
  apply wr_node_inv in E as (n & Hn & ->). apply rd_node_inv in E0 as [Hn1 ->].
  cbn in Hn1. rewrite list_lookup_insert_eq in Hn1 by (by eapply lookup_lt_Some).
  injection Hn1 as <-. apply new_node_inv in E1 as [-> ->].
  cbn in *. rewrite length_insert in *.
  set (np' := length (w_nodes w)) in *.
  assert (Hlt : all_nodes w np) by (by eapply lookup_lt_Some).
  assert (Hne : np <> np') by (unfold np', all_nodes in *; lia).
  apply wr_gpu_inv in E4 as (g & Hg & ->).
  set (n0 := mkNode _ _ _ _ _ _ _ _) in E2.
  assert (exists d', s2 = set_w_nodes (<[np := set_n_resource_pntg pntg n]> (w_nodes w) ++ [set_n_dedup_num d' n0]) w)
    as [d' ->].
  { unfold when in E2. case_match.
    - apply wr_node_inv in E2 as (m & Hm & ->). exists 1%Z. cbn in *.
      assert (Hl : length (<[np:=set_n_resource_pntg pntg n]> (w_nodes w)) = np')
        by (by rewrite length_insert).
      rewrite lookup_app_r in Hm by lia. rewrite Hl, Nat.sub_diag in Hm. injection Hm as <-.
      rewrite insert_app_r_alt by lia. rewrite Hl, Nat.sub_diag. done.
    - apply ret_inv in E2 as [_ ->]. by exists 0%Z. }
  cbn in *. set (wn := set_w_nodes _ w).
  assert (Hsh : forall q, shape_at wn q =
    if decide (q = np') then Some (shape (set_n_dedup_num d' n0))
    else if decide (q = np) then Some (shape (set_n_resource_pntg pntg n)) else shape_at w q).
  { intros q. pose proof (shape_at_new (set_w_nodes (<[np := set_n_resource_pntg pntg n]> (w_nodes w)) w)
      (set_n_dedup_num d' n0) q) as Hx. cbn in Hx. rewrite length_insert in Hx.
    rewrite shape_at_insert in Hx by done. exact Hx. }
  split.
  - exists (n_id n), (n_dedup_num n), (n_type n), a3, (g_GPUID g), (g_TYPE g), (g_vNodeList g), d'.
    split_and!.
    + unfold part_at, shape_at. by rewrite Hn.
    + done.
    + unfold gshape_at. by rewrite Hg.
    + change (shape_at wn np = Some (shape (set_n_resource_pntg pntg n))).
      rewrite Hsh. rewrite decide_False by done. by rewrite decide_True.
    + change (shape_at wn np' = Some (shape (set_n_dedup_num d' n0))).
      rewrite Hsh. by rewrite decide_True.
    + change (gshape_at (set_w_gpus (<[a3 := set_g_vNodeList (g_vNodeList g ++ [np']) g]> (w_gpus wn)) wn) a3
        = Some (gshape (set_g_vNodeList (g_vNodeList g ++ [np']) g))).
      rewrite gshape_at_insert by (by eapply lookup_lt_Some). by rewrite decide_True.
    + intros q Hq.
      change (gshape_at (set_w_gpus (<[a3 := set_g_vNodeList (g_vNodeList g ++ [np']) g]> (w_gpus wn)) wn) q
        = gshape_at wn q).
      rewrite gshape_at_insert by (by eapply lookup_lt_Some). by rewrite decide_False.
  - done.
  - cbn. rewrite length_app, length_insert. cbn. lia.
  - intros q Hq Hq'. change (shape_at wn q = shape_at w q). rewrite Hsh. by rewrite !decide_False.
  - done.
Qed.

Lemma at_index_nat {A} (l : list A) i a :
  at_index l (Z.of_nat i) = Done a <-> l !! i = Some a.
Proof.
  unfold at_index. rewrite Nat2Z.id. destruct (Z.ltb_spec (Z.of_nat i) 0); [lia|].
  unfold deref. destruct (l !! i); split; congruence.
Qed.

Lemma i32_compl p : (0 <= p <= 100)%Z -> i32 (100 - p) = (100 - p)%Z.
Proof. intros H. apply i32_id. unfold in_i32, INT_MIN, INT_MAX. lia. Qed.

Lemma shape_at_lt w p s : shape_at w p = Some s -> all_nodes w p.
Proof. unfold shape_at. destruct (w_nodes w !! p) eqn:E; [|done]. intros _. by eapply lookup_lt_Some. Qed.

(** The GPUs of a changed world, one of them [gp] at index [i] with the nodes
    [l'] instead: the rule by which a repartitioning step keeps a schedule well
    formed. *)
Lemma wf_update w w' sim i gp ty l l' :
  wf_sim w sim -> vGPUList sim !! i = Some gp -> gshape_at w gp = Some (Z.of_nat i, ty, l) ->
  gshape_at w' gp = Some (Z.of_nat i, ty, l') ->
  (forall q, q <> gp -> gshape_at w' q = gshape_at w q) ->
  (forall p s, p ∉ l -> shape_at w p = Some s -> shape_at w' p = Some s) ->
  NoDup l' -> parts_sum w' l' = 100%Z ->
  (forall p, p ∈ l' -> exists pntg d, shape_at w' p = Some (pntg, Z.of_nat i, d, ty) /\ (0 <= pntg)%Z) ->
  wf_sim w' sim.
Proof.
  intros Hwf Hi Hg Hg' Hoth Hsh Hnd Hsum Hnode. split; [apply Hwf|].
  intros j q Hj. destruct (decide (j = i)) as [->|Hji].
  - assert (q = gp) as -> by congruence. eexists. split; [done|]. by split.
  - assert (Hq : q <> gp).
    { intros ->. apply Hji. eapply NoDup_lookup; [apply Hwf|done|done]. }
    destruct (wf_at _ _ Hwf j q Hj) as (g & Hgj & [Hid Hn Hs Hno]).
    exists g. rewrite Hoth by done. split; [done|].
    destruct (wf_at _ _ Hwf i gp Hi) as (g2 & Hg2 & Hw2).
    assert (g2 = (Z.of_nat i, ty, l)) as -> by congruence.
    assert (Hstay : forall p, p ∈ g.2 -> exists s, shape_at w p = Some s /\ shape_at w' p = Some s).
    { intros p Hp. destruct (Hno p Hp) as (a & d & Ha & _). exists (a, Z.of_nat j, d, g.1.2).
      split; [done|]. apply Hsh; [|done]. intros Hpl.
      destruct (wg_node _ _ _ Hw2 p Hpl) as (a' & d' & Ha' & _). rewrite Ha in Ha'.
      injection Ha' as _ Hji' _ _. lia. }
    split; [done|done| |].
    + rewrite (parts_sum_ext w); [done|]. intros p Hp. destruct (Hstay p Hp) as (s & H1 & H2).
      by rewrite (part_at_shape _ _ _ H1), (part_at_shape _ _ _ H2).
    + intros p Hp. destruct (Hstay p Hp) as (s & H1 & H2). rewrite H2, <- H1. by apply Hno.
Qed.

Lemma split_wf w w' np pntg sim r :
  wf_sim w sim -> in_sim w sim np -> part_at w np = 100%Z -> (0 <= pntg <= 100)%Z ->
  split_effect w w' np pntg sim r ->
  wf_sim w' sim /\ (forall q, in_sim w' sim q <-> in_sim w sim q \/ q = r).
Proof.
  intros Hwf Hin Hp100 Hr [(i & d & ty & gp & gi & gt & l & d' & Hnp & Hgp & Hg & Hnp' & Hr' & Hg' & Hoth)
    Hfresh Hlen Hsh Hcfg].
  destruct (wf_in_sim _ _ Hwf np Hin) as (k & gp0 & ty0 & nodes & pt & d0 & Hk & Hg0 & Hmem & Hwg & Hs0 & Hrange).
  assert (i = Z.of_nat k /\ d = d0 /\ ty = ty0 /\ pt = 100%Z) as (-> & -> & -> & ->).
  { rewrite Hs0 in Hnp. rewrite Hp100 in Hnp. by injection Hnp as -> -> -> ->. }
  apply at_index_nat in Hgp. assert (gp0 = gp) as -> by congruence.
  rewrite Hg in Hg0. injection Hg0 as -> -> ->.
  destruct Hwg as [_ Hnd Hsum Hnode]. cbn in Hnd, Hsum, Hnode.
  assert (Hrn : forall q, q ∈ nodes -> q <> r).
  { intros q Hq ->. destruct (Hnode _ Hq) as (a & b & Hs & _).
    apply shape_at_lt in Hs. unfold all_nodes in Hs. lia. }
  split.
  - eapply (wf_update w w' sim k gp ty0 nodes (nodes ++ [r])); try done.
    + intros p s Hpn Hs. rewrite Hsh; [done| |].
      * intros ->. done.
      * intros ->. apply shape_at_lt in Hs. unfold all_nodes in Hs. lia.
    + apply NoDup_app. split_and!; [done| |apply NoDup_singleton].
      intros q Hq ->%list_elem_of_singleton. by eapply Hrn.
    + rewrite parts_sum_app, parts_sum_cons, parts_sum_nil.
      rewrite (parts_sum_change w w' nodes np); [|done|done|].
      * rewrite Hsum, Hp100, (part_at_shape _ _ _ Hnp'), (part_at_shape _ _ _ Hr').
        unfold shape_part. cbn. rewrite i32_compl by done. lia.
      * intros q Hq Hqn. unfold part_at. rewrite Hsh; auto.
    + intros p [Hp| ->%list_elem_of_singleton]%elem_of_app.
      * destruct (decide (p = np)) as [->|Hpn]; [exists pntg, d0; split; [done|lia]|].
        rewrite Hsh by auto. by apply Hnode.
      * exists (i32 (100 - pntg)), d'. split; [done|]. rewrite i32_compl by done. lia.
  - intros q. split.
    + intros (gq & g & Hgq & Hg2 & Hq). destruct (decide (gq = gp)) as [->|Hne].
      * rewrite Hg' in Hg2. injection Hg2 as <-. cbn in Hq.
        apply elem_of_app in Hq as [Hq|Hq%list_elem_of_singleton]; [left|by right].
        exists gp, (Z.of_nat k, ty0, nodes). split_and!; try done.
      * left. exists gq, g. rewrite Hoth in Hg2 by done. done.
    + intros [(gq & g & Hgq & Hg2 & Hq)| ->].
      * destruct (decide (gq = gp)) as [->|Hne].
        -- rewrite Hg in Hg2. injection Hg2 as <-. eexists gp, _. split_and!; [done|done|].
           cbn. apply elem_of_app. by left.
        -- exists gq, g. rewrite Hoth by done. done.
      * eexists gp, _. split_and!; [by eapply list_elem_of_lookup_2|done|].
        cbn. apply elem_of_app. right. by left.
Qed.

(** ** Giving an empty GPU its whole size back *)
Lemma write_calm w p f n :
  w_nodes w !! p = Some n -> shape (f n) = shape n ->
  calm w (set_w_nodes (<[p := f n]> (w_nodes w)) w).
Proof.
  intros Hn Hf. assert (Hp : all_nodes w p) by (by eapply lookup_lt_Some).
  split; try done; cbn.
  - by rewrite length_insert.
  - intros q Hq. rewrite shape_at_insert by done. case_decide; [|done]. subst q.
    unfold shape_at. rewrite Hn. cbn. by rewrite Hf.
Qed.

(** Copying an estimate over a node of the same size, or without its size. *)
Lemma copyToNode_calm org dst rep w u w' :
  copyToNode org dst rep w = Done (u, w') ->
  (rep = true -> part_at w org = part_at w dst) -> calm w w'.
Proof.
  intros H Hrep. unfold copyToNode in H. minv H. apply rd_node_inv in E as [Ho ->].
  apply wr_node_inv in H as (d & Hd & ->). apply (write_calm w dst (fun d => _) d Hd).
  destruct rep; [|done]. specialize (Hrep eq_refl). unfold part_at, shape_at in Hrep.
  rewrite Ho, Hd in Hrep. cbn in Hrep. unfold shape_part in Hrep. cbn in Hrep.
  unfold shape. cbn. by rewrite Hrep.
Qed.

Lemma merge_empty_gpu_wf gp sim w u w' :
  gp ∈ vGPUList sim -> merge_empty_gpu gp w = Done (u, w') -> wf_sim w sim -> wf_sim w' sim.
Proof.
  intros Hgp H Hwf. unfold merge_empty_gpu in H. minv H. apply rd_gpu_inv in E as [Hg ->].
  destruct (g_vNodeList a) as [|first [|second rest]] eqn:El; minv H; [by subst|by subst|].
  calm_from E Hc. clear E. pose proof (calm_wf _ _ _ Hc Hwf) as Hwf1.
  unfold sched in E0. minv E0. unfold when in H. case_match; [|by apply ret_inv in H as [_ ->]].
  minv H. apply wr_gpu_inv in E as (g & Hg1 & ->). apply wr_node_inv in H as (n & Hn & ->).
  cbn in Hn. apply list_elem_of_lookup in Hgp as [i Hi].
  assert (Hgs : gshape_at s gp = Some (gshape g)) by (unfold gshape_at; by rewrite Hg1).
  destruct (wf_at _ _ Hwf1 i gp Hi) as (g2 & Hg2 & Hw2).
  assert (g2 = gshape g) as -> by congruence.
  assert (Hl : g_vNodeList g = first :: second :: rest).
  { pose proof (k_gpus _ _ _ _ Hc gp) as Hk. rewrite Hgs in Hk. unfold gshape_at in Hk.
    rewrite Hg in Hk. cbn in Hk. injection Hk as _ _ ->. done. }
  destruct Hw2 as [Hid Hnd Hsum Hnode]. cbn in Hid, Hnd, Hsum, Hnode.
  assert (Hf : first ∈ g_vNodeList g) by (rewrite Hl; by left).
  destruct (Hnode first Hf) as (pt & d & Hsf & Hpt).
  set (s2 := set_w_gpus _ s).
  assert (Hlt : all_nodes s2 first) by exact (lookup_lt_Some _ _ _ Hn).
  assert (Hshn : shape n = (pt, Z.of_nat i, d, g_TYPE g)).
  { unfold shape_at in Hsf. rewrite Hn in Hsf. cbn in Hsf. congruence. }
  eapply (wf_update s _ sim i gp (g_TYPE g) (g_vNodeList g) [first]); try done.
  - rewrite Hgs. unfold gshape. by rewrite Hid.
  - change (gshape_at s2 gp = Some (Z.of_nat i, g_TYPE g, [first])). unfold s2.
    rewrite gshape_at_insert by (by eapply lookup_lt_Some). rewrite decide_True by done.
    unfold gshape. cbn. by rewrite Hid.
  - intros q Hq. change (gshape_at s2 q = gshape_at s q). unfold s2.
    rewrite gshape_at_insert by (by eapply lookup_lt_Some). by rewrite decide_False.
  - intros p sp Hp Hsp. rewrite shape_at_insert by done. rewrite decide_False; [done|]. by intros ->.
  - apply NoDup_singleton.
  - rewrite parts_sum_cons, parts_sum_nil. unfold part_at.
    rewrite shape_at_insert by done. by rewrite decide_True.
  - intros p ->%list_elem_of_singleton. rewrite shape_at_insert by done. rewrite decide_True by done.
    exists 100%Z, 0%Z. split; [|lia]. unfold shape in *. cbn. congruence.
Qed.

(** ** A schedule next to an estimate

    The nodes of an estimate are not part of the schedule and have sizes between
    0 and 100. *)
Record apart (est : list NodePtr) (sim : SimState) (w : World) : Prop := {
  ap_wf : wf_sim w sim;
  ap_est : forall p, p ∈ est -> ~ in_sim w sim p /\ all_nodes w p /\ (0 <= part_at w p <= 100)%Z }.

Lemma calm_apart w w' est sim : calm w w' -> apart est sim w -> apart est sim w'.
Proof.
  intros Hc [Hwf He]. split; [by eapply calm_wf|]. intros p Hp.
  destruct (He p Hp) as (H1 & H2 & H3). rewrite (calm_in_sim _ _ _ _ Hc).
  rewrite (calm_part _ _ _ Hc H2). split_and!; [done|by eapply calm_lt|lia|lia].
Qed.

(** Resizing a node that is not part of the schedule. *)
Lemma resize_apart w w' est sim p pn u :
  apart est sim w -> p ∈ est -> (0 <= pn <= 100)%Z ->
  wr_node p (set_n_resource_pntg pn) w = Done (u, w') ->
  apart est sim w' /\ part_at w' p = pn /\ (forall q, q <> p -> part_at w' q = part_at w q) /\
  (forall q, in_sim w' sim q <-> in_sim w sim q) /\
  length (w_nodes w') = length (w_nodes w) /\ cfg (w_sched w') = cfg (w_sched w).
Proof.
  intros [Hwf He] Hp Hpn H. pose proof H as Hrun.
  destruct (He p Hp) as (Hnin & Hlt & _).
  set (K := fun q => all_nodes w q /\ q <> p).
  assert (Hk : keeps K any w w').
  { eapply (keep_wr_node_free K any w); [|done|apply keeps_refl|exact Hrun]; [by intros []|by intros q []]. }
  apply wr_node_inv in H as (n & Hn & ->).
  assert (Hpart : forall q, part_at (set_w_nodes (<[p:=set_n_resource_pntg pn n]> (w_nodes w)) w) q
    = if decide (q = p) then pn else part_at w q).
  { intros q. unfold part_at. rewrite shape_at_insert by done. by case_decide. }
  assert (Hsim : forall q, in_sim (set_w_nodes (<[p:=set_n_resource_pntg pn n]> (w_nodes w)) w) sim q
    <-> in_sim w sim q) by (intros q; by eapply keeps_in_sim).
  split_and!; [split| | | | |].
  - eapply keeps_wf; [exact Hk| |done]. intros q Hq. split; [by eapply wf_in_sim_lt|]. by intros ->.
  - intros q Hq. rewrite Hsim, Hpart. destruct (He q Hq) as (H1 & H2 & H3).
    unfold all_nodes in *. cbn. rewrite length_insert. case_decide; auto.
  - rewrite Hpart. by rewrite decide_True.
  - intros q Hq. rewrite Hpart. by rewrite decide_False.
  - done.
  - cbn. by rewrite length_insert.
  - done.
Qed.

Lemma split_apart w w' np pntg est sim r :
  apart est sim w -> in_sim w sim np -> part_at w np = 100%Z -> (0 <= pntg <= 100)%Z ->
  split_effect w w' np pntg sim r ->
  apart est sim w' /\ part_at w' np = pntg /\ (forall q, q ∈ est -> part_at w' q = part_at w q).
Proof.
  intros [Hwf He] Hin H100 Hr Hs. destruct (split_wf _ _ _ _ _ _ Hwf Hin H100 Hr Hs) as [Hwf' Hin'].
  pose proof (se_fresh _ _ _ _ _ _ Hs) as Hf. pose proof (se_len _ _ _ _ _ _ Hs) as Hl.
  assert (Hpart : forall q, q ∈ est -> part_at w' q = part_at w q).
  { intros q Hq. destruct (He q Hq) as (H1 & H2 & _). unfold part_at.
    rewrite (se_other _ _ _ _ _ _ Hs); [done|by intros ->|].
    intros ->. unfold all_nodes in H2. lia. }
  split_and!; [|by destruct (se_node _ _ _ _ _ _ Hs) as (?&?&?&?&?&?&?&?&_&_&_&->%part_at_shape&_)|done].
  split; [done|]. intros q Hq. rewrite Hpart by done. destruct (He q Hq) as (H1 & H2 & H3).
  unfold all_nodes in *. rewrite Hl. split_and!; [|lia|lia|lia].
  rewrite Hin'. intros [|Heq]; [done|]. lia.
Qed.

(** ** [allocateFit] *)
#[local] Hint Resolve keep_doesFitMemLimit keep_addGPUMemUsage keep_subtractGPUMemUsage
  keep_adjust_gpu_nodes keep_sat_entry keep_initSaturateTrp keep_checkFit keep_revertNode
  keep_checkNeedtoRevert keep_is_residue_of keep_collect_residues keep_clear_residues
  keep_place_residue keep_allocateTimeShare keep_total_throughput : keeps.

Lemma grow_estimate_apart input pn r est sim w b w' :
  apart est sim w -> input ∈ est -> (0 <= pn <= 100)%Z ->
  grow_estimate input pn r sim w = Done (b, w') ->
  apart est sim w' /\ part_at w' input = pn /\
  (forall q, in_sim w sim q -> part_at w' q = part_at w q) /\
  (forall q, in_sim w' sim q <-> in_sim w sim q) /\ cfg (w_sched w') = cfg (w_sched w).
Proof.
  intros Ha Hin Hpn H. unfold grow_estimate in H. apply bind_inv in H as (u & w1 & E & H).
  destruct (resize_apart _ _ _ _ _ _ _ Ha Hin Hpn E) as (Ha1 & Hp1 & Hoth & Hs1 & Hl1 & Hc1).
  calm_from H Hc. split_and!.
  - by eapply calm_apart.
  - rewrite (calm_part _ _ _ Hc); [done|]. by apply (ap_est _ _ _ Ha1 input Hin).
  - intros q Hq. assert (q <> input) by (intros ->; destruct (ap_est _ _ _ Ha input Hin) as [? _]; done).
    rewrite (calm_part _ _ _ Hc); [by apply Hoth|].
    pose proof (wf_in_sim_lt _ _ (ap_wf _ _ _ Ha) q Hq). unfold all_nodes in *. lia.
  - intros q. rewrite (calm_in_sim _ _ _ _ Hc). apply Hs1.
  - rewrite (k_cfg _ _ _ _ Hc). exact Hc1.
Qed.

Lemma rd_part p w n w' : rd_node p w = Done (n, w') -> n_resource_pntg n = part_at w p /\ w' = w.
Proof.
  intros [Hn ->]%rd_node_inv. split; [|done]. unfold part_at, shape_at. by rewrite Hn.
Qed.

(** The node found and the estimate agree on the size when the estimate is
    copied. *)
Lemma allocate_one_apart task sim input est w b w' :
  apart est sim w -> input ∈ est ->
  allocate_one task sim input w = Done (b, w') ->
  apart est sim w' /\ cfg (w_sched w') = cfg (w_sched w).
Proof.
  intros Ha Hin H. unfold allocate_one in H.
  apply bind_inv in H as (inp & s & E & H). apply rd_part in E as [Hinp ->].
  apply bind_inv in H as (o & s1 & E & H).
  destruct (keep_findBestFit (all_nodes w) w sim input [] w o s1 (keeps_refl _ _ _ (fun _ H => H)) E)
    as [Hc1 Ho]. change (calm w s1) in Hc1.
  pose proof (calm_apart _ _ _ _ Hc1 Ha) as Ha1. pose proof (k_cfg _ _ _ _ Hc1) as Hcfg1.
  destruct o as [best|]; [|by apply ret_inv in H as [_ ->]].
  destruct Ho as (Hbest & _ & Hle). rewrite <- (calm_in_sim _ _ _ _ Hc1) in Hbest.
  pose proof (ap_wf _ _ _ Ha1) as Hwf1.
  destruct (ap_est _ _ _ Ha input Hin) as (Hni & Hlt & Hrange).
  pose proof (wf_part_range _ _ Hwf1 _ Hbest) as Hbr.
  assert (Hle1 : (part_at w input <= part_at s1 best)%Z).
  { rewrite (calm_part _ _ _ Hc1).
    - apply Hle; [done|]. eapply wf_in_sim_lt; [apply Ha|]. by rewrite <- (calm_in_sim _ _ _ _ Hc1).
    - eapply wf_in_sim_lt; [apply Ha|]. by rewrite <- (calm_in_sim _ _ _ _ Hc1). }
  assert (Hi1 : part_at s1 input = part_at w input) by (by apply calm_part).
  apply bind_inv in H as (bn & s' & E1 & H). apply rd_part in E1 as [Hbn ->]. cbv zeta in H.
  rewrite Hbn, Hinp in H.
  apply bind_inv in H as (sc & s' & E2 & H). apply gets_inv in E2 as [-> ->].
  apply bind_inv in H as (failed & s2 & E3 & H).
  assert (H2 : apart est sim s2 /\ (forall q, in_sim s2 sim q <-> in_sim s1 sim q) /\
    part_at s2 best = part_at s1 best /\ cfg (w_sched s2) = cfg (w_sched s1) /\
    (part_at s1 best <> 100%Z -> part_at s2 input = part_at s1 best) /\
    (part_at s1 best = 100%Z -> part_at s2 input = part_at w input)).
  { destruct (_ && _)%Z eqn:Hcond in E3.
    - destruct (grow_estimate_apart _ _ _ est _ _ _ _ Ha1 Hin Hbr E3) as (?&?&Hq&?&?).
      apply andb_prop in Hcond as [Hc%negb_true_iff%Z.eqb_neq _]. split_and!; auto. done.
    - apply ret_inv in E3 as [_ ->]. split_and!; try done.
      intros Hne. apply andb_false_iff in Hcond as [Hc%negb_false_iff%Z.eqb_eq|Hc%Z.ltb_ge]; lia. }
  clear E3. destruct H2 as (Ha2 & Hs2 & Hb2 & Hcfg2 & Hi2 & Hi2').
  destruct failed; [apply ret_inv in H as [_ ->]; split; [done|congruence]|].
  apply bind_inv in H as (u & s3 & E4 & H).
  assert (H3 : apart est sim s3 /\ cfg (w_sched s3) = cfg (w_sched s2) /\
    (_useRepartition (w_sched s1) = true -> part_at s3 input = part_at s3 best)).
  { destruct (_ && _)%Z eqn:Hcond in E4; cbn [when] in E4.
    - apply andb_prop in Hcond as [[Hc1' Hc2']%andb_prop _].
      apply Z.eqb_eq in Hc1'. apply Z.ltb_lt in Hc2'.
      apply bind_inv in E4 as (r & s' & E4 & [_ ->]%ret_inv). apply split_node_effect in E4.
      destruct (split_apart s2 s' best (part_at w input) est sim r) as (Ha3 & Hb3 & He3); try done.
      { by rewrite Hs2. } { by rewrite Hb2. }
      split_and!; [done|apply (se_cfg _ _ _ _ _ _ E4)|]. intros _. rewrite He3, Hb3 by done.
      by rewrite Hi2'.
    - apply ret_inv in E4 as [_ ->]. split_and!; [done|done|]. intros Hrep. rewrite Hrep in Hcond.
      rewrite andb_true_r in Hcond. rewrite Hb2. destruct (decide (part_at s1 best = 100%Z)) as [H100|Hne]; [|by apply Hi2].
      rewrite Hi2' by done. apply andb_false_iff in Hcond as [Hc%Z.eqb_neq|Hc%Z.ltb_ge]; lia. }
  clear E4. destruct H3 as (Ha3 & Hcfg3 & Heq).
  apply bind_inv in H as (u' & s4 & E5 & H). pose proof (copyToNode_calm _ _ _ _ _ _ E5 Heq) as Hc4.
  assert (Hc5 : calm s4 w') by (calm_from H Hx; exact Hx).
  pose proof (k_cfg _ _ _ _ Hc4). pose proof (k_cfg _ _ _ _ Hc5).
  split; [|congruence]. eapply calm_apart; [exact Hc5|]. by eapply calm_apart.
Qed.

Lemma allocateFit_apart est task sim w b w' :
  apart est sim w -> allocateFit est task sim w = Done (b, w') ->
  apart est sim w' /\ cfg (w_sched w') = cfg (w_sched w).
Proof.
  intros Ha H. unfold allocateFit in H. apply bind_inv in H as (r & w1 & E & H).
  assert (Hl : keeping (fun v => apart est sim v /\ cfg (w_sched v) = cfg (w_sched w))
    (for_ret est (fun input_ptr => failed ← allocate_one task sim input_ptr;
       mret (if (failed : bool) then Some EXIT_FAILURE else None))) any).
  { apply keeping_for_ret; [done|]. intros p Hp.
    apply keeping_bind with (Q1 := any); [|intros f _; apply keeping_ret; by destruct f].
    intros v f v' [Hv Hcv] Hrun. destruct (allocate_one_apart _ _ _ _ _ _ _ Hv Hp Hrun) as [? ->].
    done. }
  destruct (Hl w r w1 (conj Ha eq_refl) E) as [[Ha1 Hc1] _].
  assert (Hc : calm w1 w') by (calm_from H Hx; exact Hx).
  split; [by eapply calm_apart|]. by rewrite (k_cfg _ _ _ _ Hc).
Qed.

(** ** Sizes of estimates *)
Definition pct (p : Z) : Prop := (0 <= p <= 100)%Z.
Definition avail_pct (s : Sched) : Prop := forall p, p ∈ _availParts s -> pct p.

Lemma f2i_i2f_pct p : pct p -> f2i (i2f p) = p.
Proof.
  intros Hp.
  assert (Hall : forallb (fun n => f2i (i2f (Z.of_nat n)) =? Z.of_nat n)%Z (seq 0 101) = true)
    by (vm_compute; reflexivity).
  rewrite forallb_forall in Hall. specialize (Hall (Z.to_nat p)).
  unfold pct in Hp. rewrite Z2Nat.id in Hall by lia. apply Z.eqb_eq, Hall. apply in_seq. lia.
Qed.

Lemma sizes_ok_pct s : avail_pct s -> sizes_ok pct s.
Proof.
  intros Ha. split; [unfold pct; lia|done|]. intros a b Hpa Hpb.
  by destruct (leb _ _); rewrite f2i_i2f_pct.
Qed.

(** ** [readjust] *)
Record sound (sim : SimState) (w : World) : Prop := {
  sd_wf : wf_sim w sim; sd_avail : avail_pct (w_sched w) }.
Definition of_sim (sim : SimState) (w : World) (l : list NodePtr) : Prop :=
  forall p, p ∈ l -> in_sim w sim p.

Lemma avail_pct_cfg s s' : cfg s' = cfg s -> avail_pct s -> avail_pct s'.
Proof. intros Hc Ha p. rewrite (cfg_availParts _ _ Hc). apply Ha. Qed.
Lemma calm_sound sim w w' : calm w w' -> sound sim w -> sound sim w'.
Proof.
  intros Hc [Hwf Ha]. split; [by eapply calm_wf|]. eapply avail_pct_cfg; [|done].
  apply (k_cfg _ _ _ _ Hc).
Qed.
Lemma calm_of_sim sim w w' l : calm w w' -> of_sim sim w l -> of_sim sim w' l.
Proof. intros Hc Hl p Hp. rewrite (calm_in_sim _ _ _ _ Hc). auto. Qed.

Lemma split_sound sim w np pntg r w' l :
  sound sim w -> of_sim sim w l -> in_sim w sim np -> part_at w np = 100%Z -> pct pntg ->
  split_node np pntg sim w = Done (r, w') -> sound sim w' /\ of_sim sim w' (l ++ [r]).
Proof.
  intros [Hwf Ha] Hl Hin H100 Hp H. apply split_node_effect in H.
  destruct (split_wf _ _ _ _ _ _ Hwf Hin H100 Hp H) as [Hwf' Hs].
  split; [split; [done|]|].
  - eapply avail_pct_cfg; [|done]. apply (se_cfg _ _ _ _ _ _ H).
  - intros p [Hp'| ->%list_elem_of_singleton]%elem_of_app; rewrite Hs; auto.
Qed.

Lemma readjust_split_sound task temp given sim w b given' w' :
  sound sim w -> of_sim sim w given -> in_sim w sim temp -> part_at w temp = 100%Z ->
  readjust_split task temp given sim w = Done ((b, given'), w') ->
  sound sim w' /\ of_sim sim w' given'.
Proof.
  intros Hs Hg Hin H100 H. unfold readjust_split in H.
  apply bind_inv in H as (n & s & E & H). apply rd_node_inv in E as [Hn ->].
  apply bind_inv in H as (mp & s1 & E1 & H).
  apply bind_inv in H as (t & s' & E2 & H). apply rd_task_inv in E2 as [Ht ->].
  apply bind_inv in H as (cs & s2 & E3 & H).
  assert (Hc1 : calm w s1) by (calm_from E1 Hx; exact Hx).
  assert (Hs1 : sound sim s1) by (by eapply calm_sound).
  pose proof (sizes_ok_pct _ (sd_avail _ _ Hs1)) as Hsz.
  destruct (keep_estimateTrp (all_nodes s1) pct s1 Hsz _ _ _ _ [] (fresh_nil s1) s1 cs s2
              (keeps_refl _ _ _ (fun _ H => H)) E3) as [Hk Hfresh].
  assert (Hc2 : calm s1 s2) by (destruct Hk; by split).
  apply bind_inv in H as (c0 & s' & E4 & H). apply lift_inv in E4 as [Hc0 ->].
  destruct cs as [|c cs]; [done|]. injection Hc0 as ->.
  apply bind_inv in H as (cn & s' & E5 & H). apply rd_node_inv in E5 as [Hcn ->]. cbv zeta in H.
  assert (Hpct : pct (n_resource_pntg cn)).
  { eapply (k_new _ _ _ _ Hk); [|done]. apply Hfresh. by left. }
  apply bind_inv in H as (u & s' & E6 & H). apply massert_inv in E6 as [_ ->].
  apply bind_inv in H as (ctp & s' & E6 & H). apply lift_inv in E6 as [_ ->].
  apply bind_inv in H as (ct & s' & E6 & H). apply rd_task_inv in E6 as [_ ->].
  assert (Hc : calm w s2) by (by transitivity s1).
  pose proof (calm_sound _ _ _ Hc Hs) as Hs2. pose proof (calm_of_sim _ _ _ _ Hc Hg) as Hg2.
  destruct (_ <? _)%Z; [|by apply ret_inv in H as [[= -> ->] ->]].
  apply bind_inv in H as (r & s3 & E6 & H). cbv zeta in H.
  assert (Hin2 : in_sim s2 sim temp) by (by rewrite (calm_in_sim _ _ _ _ Hc)).
  assert (H2 : part_at s2 temp = 100%Z).
  { rewrite (calm_part _ _ _ Hc); [done|]. eapply wf_in_sim_lt; [apply Hs|done]. }
  destruct (split_sound _ _ _ _ _ _ given Hs2 Hg2 Hin2 H2 Hpct E6) as [Hs3 Hg3].
  apply bind_inv in H as (rest & s4 & E7 & H). apply ret_inv in H as [[= -> ->] ->].
  destruct (keep_sort_nodes (all_nodes s3) any s3 _ _ s3 rest s4
              (keeps_refl _ _ _ (fun _ H => H)) E7) as [Hk4 Hrest]. change (calm s3 s4) in Hk4.
  split; [by eapply calm_sound|]. eapply calm_of_sim; [exact Hk4|].
  intros p Hp. apply Hg3. destruct (given ++ [r]) as [|g l].
  - apply Hrest in Hp. by apply elem_of_nil in Hp.
  - apply elem_of_cons in Hp as [->|Hp]; [by left|right; by apply Hrest].
Qed.

Lemma erase_first_sub p l l' : erase_first p l = Done l' -> forall q, q ∈ l' -> q ∈ l.
Proof.
  revert l'. induction l as [|x l IH]; intros l' H; cbn in H; [done|].
  case_decide; [injection H as <-; intros q Hq; by right|].
  apply obind_inv in H as (l2 & H2 & [= <-]). intros q [->|Hq]%elem_of_cons; [by left|].
  right. by eapply IH.
Qed.

Ltac kbind x := apply keeping_bind with (Q1 := any); [solve [keep] | intros x _].

Ltac kif := lazymatch goal with |- keeping _ (if ?b then _ else _) _ => destruct b end.

(** The node a round works on is one of the given ones. *)
Lemma pick_node_sound task given sim w np w' :
  sound sim w -> of_sim sim w given -> pick_node task given sim w = Done (np, w') ->
  calm w w' /\ in_sim w' sim np.
Proof.
  intros Hs Hg H.
  destruct (keep_pick_node (all_nodes w) w task given sim w np w' (keeps_refl _ _ _ (fun _ H => H)) H)
    as [Hc Hin]. change (calm w w') in Hc. split; [done|].
  rewrite (calm_in_sim _ _ _ _ Hc). auto.
Qed.

Definition sub_given (given : list NodePtr) (o : list NodePtr + option (bool * list NodePtr)) : Prop :=
  match o with
  | inl l | inr (Some (_, l)) => forall p, p ∈ l -> p ∈ given
  | inr None => True
  end.

Lemma readjust_sat_round_sound task sim given w o w' :
  sound sim w -> of_sim sim w given ->
  readjust_sat_round task sim given w = Done (o, w') ->
  sound sim w' /\ match o with
                  | inl l | inr (Some (_, l)) => of_sim sim w' l
                  | inr None => True
                  end.
Proof.
  intros Hs Hg H. unfold readjust_sat_round in H.
  apply bind_inv in H as (t & s & E & H). apply rd_task_inv in E as [_ ->].
  destruct (negb _); [by apply ret_inv in H as [-> ->]|].
  case_decide; [by apply ret_inv in H as [-> ->]|].
  apply bind_inv in H as (np & s & E & H). destruct (pick_node_sound _ _ _ _ _ _ Hs Hg E) as [Hc Hin].
  pose proof (calm_sound _ _ _ Hc Hs) as Hs1. pose proof (calm_of_sim _ _ _ _ Hc Hg) as Hg1.
  apply bind_inv in H as (n & s' & E1 & H). apply rd_part in E1 as [Hn ->].
  apply bind_inv in H as (sc & s' & E1 & H). apply gets_inv in E1 as [-> ->].
  apply bind_inv in H as ([mb given1] & s2 & E1 & H).
  assert (H2 : sound sim s2 /\ of_sim sim s2 given1).
  { destruct (_ && _)%Z eqn:Hcond in E1.
    - apply andb_prop in Hcond as [[H100%Z.eqb_eq _]%andb_prop _]. rewrite Hn in H100.
      by eapply (readjust_split_sound _ _ _ _ s).
    - apply bind_inv in E1 as ([tb rq] & s3 & E1 & E2). apply ret_inv in E2 as [[= -> ->] ->].
      assert (Hc2 : calm s s3) by (calm_from E1 Hx; exact Hx).
      split; [by eapply calm_sound|by eapply calm_of_sim]. }
  destruct H2 as [Hs2 Hg2].
  match type of H with ?m s2 = _ =>
    assert (Hk : keeping (keeps (all_nodes s2) any s2) m (sub_given given1)) end.
  { kbind lat. cbv zeta. kif; [apply keeping_ret; cbn; auto|].
    kbind tp. kbind gp. kbind failed. kif; [apply keeping_ret; cbn; auto|].
    kbind fits. kbind u.
    apply keeping_bind with (Q1 := fun l => forall p, p ∈ l -> p ∈ given1).
    { apply keeping_lift. intros l Hl. by eapply erase_first_sub. }
    intros l Hl. apply keeping_ret. exact Hl. }
  destruct (Hk s2 o w' (keeps_refl _ _ _ (fun _ H => H)) H) as [Hc3 Ho]. change (calm s2 w') in Hc3.
  split; [by eapply calm_sound|]. pose proof (calm_of_sim _ _ _ _ Hc3 Hg2) as Hg3.
  destruct o as [l|[[b l]|]]; [| |done]; intros p Hp; by apply Hg3, Ho.
Qed.

Lemma readjust_res_round_sound task sim given w o w' :
  sound sim w -> of_sim sim w given ->
  readjust_res_round task sim given w = Done (o, w') ->
  sound sim w' /\ match o with inl l => of_sim sim w' l | inr _ => True end.
Proof.
  intros Hs Hg H. unfold readjust_res_round in H.
  apply bind_inv in H as (t & s & E & H). apply rd_task_inv in E as [_ ->].
  destruct (negb _); [by apply ret_inv in H as [-> ->]|].
  case_decide; [by apply ret_inv in H as [-> ->]|].
  apply bind_inv in H as (np & s & E & H). destruct (pick_node_sound _ _ _ _ _ _ Hs Hg E) as [Hc Hin].
  pose proof (calm_sound _ _ _ Hc Hs) as Hs1. pose proof (calm_of_sim _ _ _ _ Hc Hg) as Hg1.
  apply bind_inv in H as (n & s' & E1 & H). apply rd_part in E1 as [Hn ->].
  apply bind_inv in H as (sc & s' & E1 & H). apply gets_inv in E1 as [-> ->].
  apply bind_inv in H as ([mb given1] & s2 & E1 & H).
  assert (H2 : sound sim s2 /\ of_sim sim s2 given1).
  { destruct (_ && _)%Z eqn:Hcond in E1.
    - apply andb_prop in Hcond as [[H100%Z.eqb_eq _]%andb_prop _]. rewrite Hn in H100.
      by eapply (readjust_split_sound _ _ _ _ s).
    - by apply ret_inv in E1 as [[= -> ->] ->]. }
  destruct H2 as [Hs2 Hg2].
  match type of H with ?m s2 = _ =>
    assert (Hk : keeping (keeps (all_nodes s2) any s2) m
      (sum_post (fun l => forall p, p ∈ l -> p ∈ given1) any)) end.
  { apply keeping_bind with (Q1 := any); [keep|]. intros [mb' req] _.
    kbind u. kif; [by apply keeping_ret|]. cbv zeta.
    kbind u1. kbind tp. kbind gp. kbind failed. kif; [by apply keeping_ret|].
    kbind tt'. kbind lat. kbind u2. kbind fits. kbind u3.
    apply keeping_bind with (Q1 := fun l => forall p, p ∈ l -> p ∈ given1).
    { apply keeping_lift. intros l Hl. by eapply erase_first_sub. }
    intros l Hl. apply keeping_ret. exact Hl. }
  destruct (Hk s2 o w' (keeps_refl _ _ _ (fun _ H => H)) H) as [Hc3 Ho]. change (calm s2 w') in Hc3.
  split; [by eapply calm_sound|]. pose proof (calm_of_sim _ _ _ _ Hc3 Hg2) as Hg3.
  destruct o as [l|]; [|done]. intros p Hp. by apply Hg3, Ho.
Qed.

Lemma readjust_sound task sim given w b w' :
  sound sim w -> of_sim sim w given -> readjust task given sim w = Done (b, w') -> sound sim w'.
Proof.
  intros Hs Hg H. unfold readjust in H.
  apply bind_inv in H as (given1 & s1 & E & H).
  destruct (keep_sort_nodes (all_nodes w) any w _ _ w given1 s1
              (keeps_refl _ _ _ (fun _ H => H)) E) as [Hc1 Hsub]. change (calm w s1) in Hc1.
  apply bind_inv in H as (sc & s' & E1 & H). apply gets_inv in E1 as [-> ->].
  apply bind_inv in H as (u & s2 & E2 & H).
  assert (Hc2 : calm s1 s2) by (calm_from E2 Hx; exact Hx).
  assert (Hc : calm w s2) by (by transitivity s1).
  pose proof (calm_sound _ _ _ Hc Hs) as Hs2.
  assert (Hg2 : of_sim sim s2 given1) by (eapply calm_of_sim; [exact Hc|]; intros p Hp; auto).
  apply bind_inv in H as (o & s3 & E3 & H).
  assert (H3 : sound sim s3 /\ match o with Some (_, l) => of_sim sim s3 l | None => True end).
  { revert E3. apply (loop_inv (fun l s => sound sim s /\ of_sim sim s l)
      (fun o s => sound sim s /\ match o with Some (_, l) => of_sim sim s l | None => True end)); [|done].
    intros v s r s' [H1 H2] Hr. destruct (readjust_sat_round_sound _ _ _ _ _ _ H1 H2 Hr).
    by destruct r as [|[[]|]]. }
  destruct H3 as [Hs3 Ho]. destruct o as [[proceed l]|]; [|by apply ret_inv in H as [_ ->]].
  apply bind_inv in H as (failed & s4 & E4 & H).
  assert (Hs4 : sound sim s4).
  { destruct proceed; [|by apply ret_inv in E4 as [_ ->]].
    revert E4. apply (loop_inv (fun l s => sound sim s /\ of_sim sim s l) (fun _ s => sound sim s)); [|done].
    intros v s r s' [H1 H2] Hr. destruct (readjust_res_round_sound _ _ _ _ _ _ H1 H2 Hr).
    by destruct r. }
  assert (Hc4 : calm s4 w') by (calm_from H Hx; exact Hx). by eapply calm_sound.
Qed.

(** ** Merging, sharing, and a model's whole turn *)
Lemma merge_empty_gpu_sound gp sim w u w' :
  gp ∈ vGPUList sim -> merge_empty_gpu gp w = Done (u, w') -> sound sim w -> sound sim w'.
Proof.
  intros Hgp H [Hwf Ha]. split; [by eapply merge_empty_gpu_wf|].
  eapply avail_pct_cfg; [|done]. clear Hwf Ha Hgp. unfold merge_empty_gpu in H.
  apply bind_inv in H as (g & s & E & H). apply rd_gpu_inv in E as [_ ->].
  destruct (g_vNodeList g) as [|first [|second rest]]; [by apply ret_inv in H as [_ ->]..|].
  apply bind_inv in H as (cnt & s & E & H). calm_from E Hc.
  apply bind_inv in H as (sc & s' & E1 & H). apply gets_inv in E1 as [-> ->].
  rewrite <- (k_cfg _ _ _ _ Hc). unfold when in H. destruct (_ && _); [|by apply ret_inv in H as [_ ->]].
  apply bind_inv in H as (u' & s1 & E1 & H).
  apply wr_gpu_inv in E1 as (g' & _ & ->). by apply wr_node_inv in H as (n' & _ & ->).
Qed.

Lemma mergeResidue_sound task sim w b w' :
  sound sim w -> mergeResidue task sim w = Done (b, w') -> sound sim w'.
Proof.
  intros Hs H. unfold mergeResidue in H.
  apply bind_inv in H as (t & s & E & H). apply rd_task_inv in E as [_ ->].
  apply bind_inv in H as ([[[cnt rate] trp] tp] & s1 & E & H).
  assert (Hc1 : calm w s1) by (calm_from E Hx; exact Hx).
  pose proof (calm_sound _ _ _ Hc1 Hs) as Hs1. destruct (_ || _); [by apply ret_inv in H as [_ ->]|].
  apply bind_inv in H as (u & s2 & E2 & H).
  assert (Hc2 : calm s1 s2) by (calm_from E2 Hx; exact Hx).
  pose proof (calm_sound _ _ _ Hc2 Hs1) as Hs2.
  apply bind_inv in H as (r & s3 & E3 & H).
  assert (Hc3 : calm s2 s3) by (calm_from E3 Hx; exact Hx).
  pose proof (calm_sound _ _ _ Hc3 Hs2) as Hs3.
  apply bind_inv in H as (t' & s' & E4 & H). apply rd_task_inv in E4 as [_ ->].
  destruct (_ <? _)%Z; [by apply ret_inv in H as [_ ->]|].
  apply bind_inv in H as (u' & s4 & E5 & H). apply ret_inv in H as [_ ->].
  eapply (keeping_for_each (sound sim)); [|exact Hs3|exact E5].
  intros gp Hgp s v s' Hsd Hrun. split; [|done]. by eapply merge_empty_gpu_sound.
Qed.

Lemma adjust_or_share_sound task sim nodes ts w b w' :
  sound sim w -> of_sim sim w nodes -> adjust_or_share task sim nodes ts w = Done (b, w') ->
  sound sim w'.
Proof.
  intros Hs Hn H. unfold adjust_or_share in H.
  apply bind_inv in H as (r & s1 & E & H). pose proof (readjust_sound _ _ _ _ _ _ Hs Hn E) as Hs1.
  apply bind_inv in H as (f & s2 & E2 & H). pose proof (mergeResidue_sound _ _ _ _ _ Hs1 E2) as Hs2.
  assert (Hc : calm s2 w') by (calm_from H Hx; exact Hx). by eapply calm_sound.
Qed.

Lemma sorted_of_sim cmp sim w l l' w' :
  of_sim sim w l -> sort_nodes cmp l w = Done (l', w') -> calm w w' /\ of_sim sim w' l'.
Proof.
  intros Hl H. destruct (keep_sort_nodes (all_nodes w) any w _ _ w l' w'
    (keeps_refl _ _ _ (fun _ H => H)) H) as [Hc Hsub]. change (calm w w') in Hc.
  split; [done|]. eapply calm_of_sim; [exact Hc|]. intros p Hp. auto.
Qed.

(** Sorting reads every node, so they exist. *)
Lemma sort_nodes_valid cmp l w l' w' :
  sort_nodes cmp l w = Done (l', w') -> w' = w /\ forall p, p ∈ l' -> p ∈ l /\ all_nodes w p.
Proof.
  intros H. assert (Hk : keeping (fun s => s = w) (sort_nodes cmp l)
    (fun l' => forall p, p ∈ l' -> p ∈ l /\ all_nodes w p)); [|by destruct (Hk w l' w' eq_refl H)].
  unfold sort_nodes.
  apply keeping_bind with (Q1 := fun ns : list (NodePtr * Node) =>
    forall x, x ∈ ns -> x.1 ∈ l /\ all_nodes w x.1).
  - apply keeping_for_acc; [by intros x ?%elem_of_nil|]. intros acc p Hp Hacc.
    apply keeping_bind with (Q1 := fun _ => all_nodes w p).
    { intros s n s' -> [Hn ->]%rd_node_inv. split; [done|]. by eapply lookup_lt_Some. }
    intros n Hlt. apply keeping_ret.
    intros x [Hx| ->%list_elem_of_singleton]%elem_of_app; [by apply Hacc|done].
  - intros ns Hns. apply keeping_ret. intros p Hp. apply list_elem_of_fmap in Hp as (x & -> & Hx).
    apply Hns. by rewrite std_sort_in in Hx.
Qed.

(** A fresh estimate, once sorted, stands apart from the schedule. *)
Lemma estimate_apart sim w w' est cmp est' w'' :
  sound sim w -> keeps (all_nodes w) pct w w' -> fresh_list w est ->
  sort_nodes cmp est w' = Done (est', w'') -> w'' = w' /\ apart est' sim w'.
Proof.
  intros Hs Hk Hf H. apply sort_nodes_valid in H as [-> Hl]. split; [done|].
  assert (Hc : calm w w') by (destruct Hk; by split).
  split; [by apply (calm_sound _ _ _ Hc Hs)|]. intros p Hp. destruct (Hl p Hp) as [Hin Hlt].
  specialize (Hf p Hin). split_and!; [|done| |].
  - rewrite (calm_in_sim _ _ _ _ Hc). intros Hsim.
    pose proof (wf_in_sim_lt _ _ (sd_wf _ _ Hs) p Hsim). unfold all_nodes, fresh in *. lia.
  - destruct (lookup_lt_is_Some_2 _ _ Hlt) as [n Hn]. pose proof (k_new _ _ _ _ Hk p n Hf Hn) as Hp'.
    unfold part_at, shape_at. rewrite Hn. apply Hp'.
  - destruct (lookup_lt_is_Some_2 _ _ Hlt) as [n Hn]. pose proof (k_new _ _ _ _ Hk p n Hf Hn) as Hp'.
    unfold part_at, shape_at. rewrite Hn. apply Hp'.
Qed.

Lemma addModeltoSchedule_sound task sim w b w' :
  sound sim w -> addModeltoSchedule task sim w = Done (b, w') -> sound sim w'.
Proof.
  intros Hs H. unfold addModeltoSchedule in H.
  apply bind_inv in H as (u & s1 & E & H).
  assert (Hc1 : calm w s1) by (calm_from E Hx; exact Hx).
  apply bind_inv in H as (scheduled & s2 & E2 & H).
  assert (Hc2 : calm s1 s2) by (calm_from E2 Hx; exact Hx).
  pose proof (calm_sound _ _ _ Hc2 (calm_sound _ _ _ Hc1 Hs)) as Hs2.
  destruct scheduled; cbn [negb] in H.
  - apply bind_inv in H as ([tn ts] & s3 & E3 & H).
    destruct (keep_retrieve_nodes (all_nodes s2) s2 _ _ s2 _ s3
      (keeps_refl _ _ _ (fun _ H => H)) E3) as [Hc3 [Htn _]]. change (calm s2 s3) in Hc3.
    apply bind_inv in H as (tn' & s4 & E4 & H).
    destruct (sorted_of_sim _ sim _ _ _ _ (calm_of_sim _ _ _ _ Hc3 Htn) E4) as [Hc4 Hn4].
    eapply adjust_or_share_sound; [|exact Hn4|exact H].
    by eapply calm_sound, calm_sound.
  - apply bind_inv in H as (mp & s3 & E3 & H).
    assert (Hc3 : calm s2 s3) by (calm_from E3 Hx; exact Hx).
    pose proof (calm_sound _ _ _ Hc3 Hs2) as Hs3.
    apply bind_inv in H as (est & s4 & E4 & H).
    pose proof (sizes_ok_pct _ (sd_avail _ _ Hs3)) as Hsz.
    destruct (keep_getEstimate (all_nodes s3) pct s3 Hsz task s3 est s4
      (keeps_refl _ _ _ (fun _ H => H)) E4) as [Hk4 Hfresh].
    assert (Hc4 : calm s3 s4) by (destruct Hk4; by split).
    pose proof (calm_sound _ _ _ Hc4 Hs3) as Hs4.
    apply bind_inv in H as (est' & s5 & E5 & H).
    destruct (estimate_apart sim _ _ _ _ _ _ Hs3 Hk4 Hfresh E5) as [-> Ha4].
    apply bind_inv in H as (nofit & s5 & E6 & H).
    assert (Hc5 : calm s4 s5) by (calm_from E6 Hx; exact Hx).
    pose proof (calm_apart _ _ _ _ Hc5 Ha4) as Ha5. pose proof (calm_sound _ _ _ Hc5 Hs4) as Hs5.
    apply bind_inv in H as (goto & s6 & E7 & H).
    assert (Hs6 : sound sim s6).
    { destruct nofit; [by apply ret_inv in E7 as [_ ->]|].
      destruct (allocateFit_apart _ _ _ _ _ _ Ha5 E7) as [Ha6 Hc6]. split; [apply Ha6|].
      eapply avail_pct_cfg; [exact Hc6|apply Hs5]. }
    destruct goto; [|by apply ret_inv in H as [_ ->]].
    apply bind_inv in H as (nodes & s7 & E8 & H).
    destruct (keep_empty_nodes (all_nodes s6) s6 sim s6 nodes s7
      (keeps_refl _ _ _ (fun _ H => H)) E8) as [Hc7 Hn7]. change (calm s6 s7) in Hc7.
    apply bind_inv in H as (nodes' & s8 & E9 & H).
    destruct (sorted_of_sim _ sim _ _ _ _ (calm_of_sim _ _ _ _ Hc7 Hn7) E9) as [Hc8 Hn8].
    eapply adjust_or_share_sound; [|exact Hn8|exact H].
    by eapply calm_sound, calm_sound.
Qed.

(** ** The whole schedule *)
Lemma elasticPartitioning_sound session sim w r w' :
  sound sim w -> elasticPartitioning session sim w = Done (r, w') -> sound sim w'.
Proof.
  intros Hs H. unfold elasticPartitioning in H. cbv zeta in H.
  apply bind_inv in H as (o & s1 & E & H).
  assert (Hs1 : sound sim s1).
  { eapply (keeping_for_ret (sound sim) _ _ any); [done| |exact Hs|exact E].
    intros task _. eapply keeping_weaken with (Q := any); [|by intros []].
    intros s a s' Hsd Hrun. split; [|done].
    apply bind_inv in Hrun as (sc & s2 & E2 & Hrun). apply gets_inv in E2 as [-> ->].
    apply bind_inv in Hrun as (u & s3 & E3 & Hrun).
    assert (Hc3 : calm s s3) by (calm_from E3 Hx; exact Hx).
    apply bind_inv in Hrun as (tp & s4 & E4 & Hrun).
    assert (Hc4 : calm s3 s4) by (calm_from E4 Hx; exact Hx).
    apply bind_inv in Hrun as (f & s5 & E5 & Hrun). apply ret_inv in Hrun as [_ ->].
    eapply addModeltoSchedule_sound; [|exact E5]. by eapply calm_sound, calm_sound. }
  assert (Hc : calm s1 w') by (calm_from H Hx; exact Hx). by eapply calm_sound.
Qed.

(** ** [initiateDevs] *)
Lemma new_gpu_inv g w p w' :
  new_gpu g w = Done (p, w') -> p = length (w_gpus w) /\ w' = set_w_gpus (w_gpus w ++ [g]) w.
Proof. intros H. unfold new_gpu in H. by minv H. Qed.

(** One GPU more, with one node of 100 percent. *)
Lemma wf_add_gpu w sim g n :
  wf_sim w sim -> g_GPUID g = Z.of_nat (length (vGPUList sim)) ->
  g_vNodeList g = [length (w_nodes w)] -> n_resource_pntg n = 100%Z -> n_id n = g_GPUID g ->
  n_type n = g_TYPE g ->
  (forall gp, gp ∈ vGPUList sim -> (gp < length (w_gpus w))%nat) ->
  wf_sim (mkWorld (w_sched w) (w_tasks w) (w_nodes w ++ [n]) (w_gpus w ++ [g]) (w_indet w))
    (mkSimState (vGPUList sim ++ [length (w_gpus w)]) (parts sim) (next_dummy_id sim)).
Proof.
  intros Hwf Hid Hl Hp Hnid Hty Hlt.
  set (w2 := mkWorld _ _ _ _ _). 
  assert (Hsh : forall q, shape_at w2 q = if decide (q = length (w_nodes w)) then Some (shape n) else shape_at w q)
    by (intros q; apply shape_at_new).
  assert (Hgs : forall q, (q < length (w_gpus w))%nat -> gshape_at w2 q = gshape_at w q).
  { intros q Hq. unfold gshape_at. cbn. by rewrite lookup_app_l. }
  assert (Hg : gshape_at w2 (length (w_gpus w)) = Some (gshape g)).
  { unfold gshape_at. cbn. by rewrite lookup_app_r, Nat.sub_diag. }
  split; cbn.
  - apply NoDup_app. split_and!; [apply Hwf| |apply NoDup_singleton].
    intros q Hq ->%list_elem_of_singleton. apply Hlt in Hq. lia.
  - intros i gp [Hi|[Hle Hi]]%lookup_app_Some.
    + destruct (wf_at _ _ Hwf i gp Hi) as (g' & Hg' & [H1 H2 H3 H4]).
      exists g'. rewrite Hgs by (apply Hlt; by eapply list_elem_of_lookup_2). split; [done|].
      assert (Hstay : forall p, p ∈ g'.2 -> shape_at w2 p = shape_at w p).
      { intros p Hpp. rewrite Hsh. rewrite decide_False; [done|]. intros ->.
        destruct (H4 _ Hpp) as (a & b & Hs & _). apply shape_at_lt in Hs. unfold all_nodes in Hs. lia. }
      split; [done|done| |].
      * rewrite (parts_sum_ext w); [done|]. intros p Hpp. unfold part_at. by rewrite Hstay.
      * intros p Hpp. rewrite Hstay by done. auto.
    + apply list_lookup_singleton_Some in Hi as [Hz <-].
      exists (gshape g). split; [done|].
      assert (Hs : shape_at w2 (length (w_nodes w)) = Some (shape n)) by (rewrite Hsh; by rewrite decide_True).
      split; unfold gshape; cbn; rewrite ?Hl.
      * rewrite Hid. lia.
      * apply NoDup_singleton.
      * rewrite parts_sum_cons, parts_sum_nil, (part_at_shape _ _ _ Hs). unfold shape_part. cbn. lia.
      * intros p ->%list_elem_of_singleton. rewrite Hs. exists 100%Z, (n_dedup_num n).
        split; [|lia]. unfold shape. rewrite Hp, Hnid, Hty, Hid. do 4 f_equal. lia.
Qed.

Definition gpus_state (gpus : list GPUPtr) : SimState := mkSimState gpus [] 0.
Lemma wf_sim_gpus w sim sim' : vGPUList sim = vGPUList sim' -> wf_sim w sim -> wf_sim w sim'.
Proof. intros Hv [H1 H2]. split; by rewrite <- Hv. Qed.

Definition devs_ok (st : list GPUPtr * Z) (w : World) : Prop :=
  wf_sim w (gpus_state st.1) /\ st.2 = Z.of_nat (length st.1) /\
  (forall gp, gp ∈ st.1 -> (gp < length (w_gpus w))%nat).

Lemma initiate_type_inv n ty nd st w o w' :
  devs_ok st w -> initiate_type n ty nd st w = Done (o, w') ->
  match o with inl st' => devs_ok st' w' | inr gpus => devs_ok (gpus, Z.of_nat (length gpus)) w' end.
Proof.
  revert st w. induction n as [|n IH]; intros st w Hst H; cbn in H; [by apply ret_inv in H as [-> ->]|].
  destruct st as [gpus idx]. destruct Hst as (Hwf & Hidx & Hlt). cbn in Hwf, Hidx, Hlt.
  apply bind_inv in H as (i & s & E & H). apply gets_inv in E as [-> ->].
  apply bind_inv in H as (gp & s & E & H). apply new_gpu_inv in E as [-> ->].
  apply bind_inv in H as (np & s & E & H). unfold makeEmptyNode in E.
  apply bind_inv in E as (i & s' & E & E'). apply gets_inv in E as [-> ->].
  apply new_node_inv in E' as [-> ->]. cbn in H.
  apply bind_inv in H as (u & s & E & H). apply wr_gpu_inv in E as (g & Hg & ->). cbn in Hg, H.
  rewrite lookup_app_r, Nat.sub_diag in Hg by lia. injection Hg as <-.
  rewrite insert_app_r_alt, Nat.sub_diag in H by lia. cbn in H.
  set (w2 := set_w_gpus _ _) in H.
  assert (Hok : devs_ok (gpus ++ [length (w_gpus w)], (idx + 1)%Z) w2).
  { split_and!; cbn.
    - eapply (wf_sim_gpus _ (mkSimState (vGPUList (gpus_state gpus) ++ [length (w_gpus w)]) [] 0)); [done|].
      eapply (wf_add_gpu w (gpus_state gpus)); try done.
    - rewrite length_app. cbn. lia.
    - intros gp [Hgp| ->%list_elem_of_singleton]%elem_of_app; rewrite length_app; cbn; [|lia].
      apply Hlt in Hgp. lia. }
  destruct (nd <=? idx + 1)%Z; [|exact (IH _ _ Hok H)].
  apply ret_inv in H as [-> ->]. destruct Hok as (? & ? & ?). by split_and!.
Qed.

Lemma initiateDevs_wf input n w sim w' : initiateDevs input n w = Done (sim, w') -> wf_sim w' sim.
Proof.
  intros H. unfold initiateDevs in H.
  apply bind_inv in H as (sc & s & E & H). apply gets_inv in E as [-> ->].
  apply bind_inv in H as (r & s & E & H). apply ret_inv in H as [-> ->].
  assert (H0 : devs_ok ([], 0%Z) w).
  { split_and!; [|done|by intros ? ?%elem_of_nil]. split; [apply NoDup_nil_2|done]. }
  assert (Hr : match r with
    | inl st' => devs_ok st' s | inr gpus => devs_ok (gpus, Z.of_nat (length gpus)) s end).
  { revert E. apply (for_acc_ret_inv devs_ok (fun gpus => devs_ok (gpus, Z.of_nat (length gpus)))); [|done].
    intros v x s1 o s2 Hv Hrun. eapply initiate_type_inv; [exact Hv|exact Hrun]. }
  destruct r as [st|gpus]; destruct Hr as [Hwf _]; by eapply wf_sim_gpus; [|exact Hwf].
Qed.
