(* ===== verification/BaseProps.v ===== *)
(** * Properties of [BaseScheduler] and its helpers *)
From Stdlib Require Import ZArith SpecFloat String Sorted Lia.
From S2P Require Import Prelude CppFloat CppStd LatencyModel DevPerfModel SchedData SchedUtils SchedBase LatencyQueries BatchSearch SchedFrame IncrEstimate IncrFit IncrReadjust IncrSchedule Demo IncrFrame SchedInv.

(** ** Shrinking a batch until the SLO is met *)

(** The answers of the latency queries for batch sizes up to [top]. *)
Definition answers (w : World) (device : string) (id : Z) (np : NodePtr) (sim : SimState)
    (top : Z) (lat : Z -> spec_float) : Prop :=
  forall b, (1 <= b <= top)%Z -> exists w',
    SchedBase.getLatency device id b np sim w = Done (lat b, w') /\ same_to device w w'.

Lemma answers_at w d id np sim top lat b u :
  answers w d id np sim top lat -> (1 <= b <= top)%Z -> same_to d w u ->
  exists u', SchedBase.getLatency d id b np sim u = Done (lat b, u') /\ same_to d w u'.
Proof.
  intros Ha Hb Hu. destruct (Ha b Hb) as (w' & Hrun & Hw').
  pose proof (getLatency_respects_same d id b np sim _ _ Hu) as Hr. rewrite Hrun in Hr.
  destruct (SchedBase.getLatency d id b np sim u) as [[v u']|]; cbn in Hr; [|done].
  destruct Hr as [<- Hu']. exists u'. split; [done|]. by etrans.
Qed.

Lemma same_to_sym d w w' : same_to d w w' -> same_to d w' w.
Proof.
  intros [(H1 & H2 & H3) ?????]. by split.
Qed.
Lemma answers_same w u d id np sim top lat :
  answers w d id np sim top lat -> same_to d w u -> answers u d id np sim top lat.
Proof.
  intros Ha Hu b Hb. destruct (answers_at _ _ _ _ _ _ _ b u Ha Hb Hu) as (u' & Hrun & Hu').
  exists u'. split; [done|]. etrans; [by apply same_to_sym|done].
Qed.

(** The largest batch size of [1..top] that is not bad. *)
Definition largest_ok (bad : Z -> bool) (top : Z) (o : option Z) : Prop :=
  match o with
  | Some b => (1 <= b <= top)%Z /\ bad b = false /\ forall b', (b < b' <= top)%Z -> bad b' = true
  | None => forall b', (1 <= b' <= top)%Z -> bad b' = true
  end.

Definition misses_slo (SLO : Z) (lat : spec_float) : bool := ltb (i2f SLO) (fmul (i2f 2) lat).

Lemma sat_shrink_spec ty t np sim lat duty0 w :
  (1 <= t_batch_size t)%Z -> answers w ty (t_id t) np sim (t_batch_size t) lat ->
  exists o w', sat_shrink ty t np sim (lat (t_batch_size t)) duty0 w = Done (o, w') /\
    same_to ty w w' /\
    largest_ok (fun b => misses_slo (t_SLO t) (lat b)) (t_batch_size t) (fst <$> o) /\
    match o with
    | Some (b, d) => d = if (b =? t_batch_size t)%Z then duty0 else lat b
    | None => True
    end.
Proof.
  intros Hb Ha. set (top := t_batch_size t) in *. unfold sat_shrink. fold top.
  assert (Hgen : forall n b d u, Z.of_nat n = b -> (1 <= b <= top)%Z ->
    d = (if (b =? top)%Z then duty0 else lat b) ->
    (forall b', (b < b' <= top)%Z -> misses_slo (t_SLO t) (lat b') = true) -> same_to ty w u ->
    exists o w', loop (S n) (b, lat b, d) (fun '(new_batch_size, latency, new_duty_cycle) =>
      if ltb (i2f (t_SLO t)) (fmul (i2f 2) latency) then
        let new_batch_size := (new_batch_size - 1)%Z in
        if (new_batch_size =? 0)%Z then mret (inr None)
        else
          latency ← SchedBase.getLatency ty (t_id t) new_batch_size np sim;
          mret (inl (new_batch_size, latency, latency))
      else mret (inr (Some (new_batch_size, new_duty_cycle)))) u = Done (o, w') /\ same_to ty w w' /\
      largest_ok (fun b => misses_slo (t_SLO t) (lat b)) top (fst <$> o) /\
      match o with Some (b, d) => d = if (b =? top)%Z then duty0 else lat b | None => True end).
  { induction n as [|n IH]; intros b d u Hn Hbr Hd Hbad Hu; [lia|].
    change (ltb (i2f (t_SLO t))) with (fun x => ltb (i2f (t_SLO t)) x). cbn [loop].
    destruct (ltb (i2f (t_SLO t)) (fmul (i2f 2) (lat b))) eqn:E.
    - cbv zeta. destruct (b - 1 =? 0)%Z eqn:E0.
      + apply Z.eqb_eq in E0. exists None, u. split_and!; [done|done| |done].
        intros b' Hb'. destruct (decide (b' = b)) as [->|]; [done|apply Hbad; lia].
      + apply Z.eqb_neq in E0.
        destruct (answers_at _ _ _ _ _ _ _ (b - 1)%Z u Ha ltac:(lia) Hu) as (u' & Hrun & Hu').
        rewrite (bind_done _ _ u (inl (b - 1, lat (b - 1), lat (b - 1))%Z) u')
          by (by rewrite (bind_done _ _ _ _ _ Hrun)).
        apply IH; [lia|lia| | |done].
        * destruct (Z.eqb_spec (b - 1) top); [lia|done].
        * intros b' Hb'. destruct (decide (b' = b)) as [->|]; [done|apply Hbad; lia].
    - exists (Some (b, d)), u. split_and!; try done; lia. }
  apply (Hgen (Z.to_nat top) top duty0 w); [lia|lia| |lia|reflexivity].
  by rewrite Z.eqb_refl.
Qed.

(** ** Adjusting a saturated node *)
Lemma misses_slo_of_meets SLO lat : ltb (fmul (i2f 2) lat) (i2f SLO) = true -> misses_slo SLO lat = false.
Proof. apply ltb_asym. Qed.

(** What a success leaves behind in the task: the chosen batch size. *)
Definition batch_at (w : World) (tp : TaskPtr) : Z :=
  match w_tasks w !! tp with Some t => t_batch_size t | None => 0%Z end.

Lemma batch_at_insert w p t q :
  (p < length (w_tasks w))%nat ->
  batch_at (set_w_tasks (<[p := t]> (w_tasks w)) w) q =
  if decide (q = p) then t_batch_size t else batch_at w q.
Proof.
  intros Hp. unfold batch_at. cbn. case_decide as Hq.
  - subst. by rewrite list_lookup_insert_eq.
  - by rewrite list_lookup_insert_ne.
Qed.

(** Writing the batch size, the duty cycle, the throughput and the lost rate. *)
Lemma sat_writes_run np tp n t b d x (r : bool) (add : Z) w :
  w_nodes w !! np = Some n -> w_tasks w !! tp = Some t -> fneqb d fzero = true -> b <> 0%Z ->
  returns (_ ← massert (fneqb d fzero); _ ← massert (negb (b =? 0)%Z);
           _ ← wr_task tp (set_t_batch_size b); _ ← wr_node np (set_n_duty_cycle d);
           _ ← wr_task tp (set_t_throughput x); _ ← add_rate tp add; mret r) w
    (fun r' w' => r' = r /\ batch_at w' tp = b).
Proof.
  intros Hn Ht Hd Hb. assert (Hlt : (tp < length (w_tasks w))%nat) by (by eapply lookup_lt_Some).
  rewrite Hd. eapply returns_read; [done|]. rewrite (proj2 (Z.eqb_neq _ _) Hb).
  eapply returns_read; [done|]. eapply returns_read; [by apply wr_task_ok|].
  eapply returns_read; [by apply wr_node_ok|].
  eapply returns_read; [apply wr_task_ok; by apply list_lookup_insert_eq|].
  eapply returns_read; [apply wr_task_ok; apply list_lookup_insert_eq; cbn; by rewrite length_insert|].
  eapply returns_intro; [done|]. split; [done|].
  rewrite batch_at_insert by (cbn; by rewrite !length_insert). by rewrite decide_True.
Qed.

Section SatNode.
Context (np : NodePtr) (sim : SimState) (w : World) (n : Node) (tp : TaskPtr) (t : Task)
  (lat : Z -> spec_float).
Context (Hn : w_nodes w !! np = Some n) (Hts : n_vTaskList n = [tp]) (Ht : w_tasks w !! tp = Some t)
  (Hocc : geb (n_occupancy n) (i2f 1) = true) (Hb : (1 <= t_batch_size t)%Z)
  (Hlat : answers w (n_type n) (t_id t) np sim (t_batch_size t) lat)
  (Hnz : forall b, (1 <= b <= t_batch_size t)%Z -> fneqb (lat b) fzero = true)
  (Hduty : fneqb (n_duty_cycle n) fzero = true)
  (Htop : (t_batch_size t <= 32)%Z)
  (Hpart : exists model, profiled (n_type n) model (t_id t) (n_resource_pntg n) w).

Definition chosen (r : bool) (w' : World) : Prop :=
  largest_ok (fun b => misses_slo (t_SLO t) (lat b)) (t_batch_size t)
    (if r then None else Some (batch_at w' tp)).

Lemma adjustSatNode_run : returns (adjustSatNode np sim) w chosen.
Proof.
  unfold adjustSatNode, adjustSatNode_task. eapply returns_read; [by apply rd_node_ok|].
  rewrite Hts. eapply returns_read; [done|]. eapply returns_read; [by apply rd_node_ok|].
  rewrite Hocc, Hts. eapply returns_read; [done|]. eapply returns_read; [done|].
  eapply returns_read; [by apply rd_task_ok|].
  destruct (Hlat (t_batch_size t) ltac:(lia)) as (w1 & Hrun & Hs1).
  eapply returns_read; [exact Hrun|].
  assert (Ht1 : w_tasks w1 !! tp = Some t) by (by rewrite (st_tasks _ _ _ Hs1)).
  assert (Hlt1 : (tp < length (w_tasks w1))%nat) by (by eapply lookup_lt_Some).
  destruct (ltb _ _) eqn:E.
  - eapply returns_read; [by apply wr_task_ok|]. unfold add_rate.
    eapply returns_read; [apply wr_task_ok; by apply list_lookup_insert_eq|].
    eapply returns_intro; [done|]. unfold chosen, EXIT_SUCCESS.
    rewrite batch_at_insert by (cbn; by rewrite length_insert). rewrite decide_True by done. cbn.
    split_and!; [lia|lia|by apply misses_slo_of_meets|lia].
  - destruct Hpart as (model & Hp).
    destruct (getLatency_part_same _ _ _ _ (t_batch_size t) _ _ Hp ltac:(lia) Hs1) as (w2 & Ep & Hs2).
    eapply returns_read; [exact Ep|].
    destruct (sat_shrink_spec (n_type n) t np sim lat (n_duty_cycle n) w2 Hb (answers_same _ _ _ _ _ _ _ _ Hlat Hs2))
      as (o & w3 & Eo & Hs3 & Hlarge & Hd).
    eapply returns_read; [exact Eo|]. destruct o as [[b d]|]; [|by eapply returns_intro].
    destruct Hlarge as (Hbr & Hmiss & Hmax). cbn [fst] in Hbr.
    eapply returns_weaken.
    + apply (sat_writes_run np tp n t b d); [by rewrite (st_nodes _ _ _ Hs3), (st_nodes _ _ _ Hs2)|
        by rewrite (st_tasks _ _ _ Hs3), (st_tasks _ _ _ Hs2)| |lia].
      rewrite Hd. case_match; [done|]. apply Hnz. lia.
    + intros r' w' [-> Hb']. unfold chosen, EXIT_SUCCESS. by rewrite Hb'.
Qed.
End SatNode.

(** ** Other lemmas *)

(** *** Interference with oneself *)
Lemma same_node_refl n : same_node n n = true.
Proof. unfold same_node. by rewrite !Z.eqb_refl. Qed.
Lemma isSameNode_refl w p n : w_nodes w !! p = Some n -> isSameNode p p w = Done (true, w).
Proof.
  intros H. unfold isSameNode. rewrite !(bind_done _ _ _ _ _ (rd_node_ok _ _ _ H)).
  by rewrite same_node_refl.
Qed.

(** *** The interference factor *)
Lemma at_least_one_ge x : leb (i2f 1) (at_least_one x) = true.
Proof.
  unfold at_least_one, gtb. destruct (SFltb (i2f 1) x) eqn:E; [|done].
  unfold leb, SFleb, SFltb in *. by destruct (SFcompare (i2f 1) x) as [[]|].
Qed.

Lemma getInterference_pair_ge d a b x y p q w v w' :
  getInterference_pair d a b x y p q w = Done (v, w') -> leb (i2f 1) v = true.
Proof.
  unfold getInterference_pair. intros H. minv H. apply at_least_one_ge.
Qed.

(** *** The profile of the demo cluster *)
Lemma demo_profiled (w : World) part :
  w_sched w = w_sched demo_world -> part ∈ [100; 80; 50; 20]%Z -> profiled "A" "resnet50" 7 part w.
Proof.
  intros Hw Hp.
  assert (Hall : (table_okb (_latModel (perf_of (w_sched demo_world) "A")) "resnet50" &&
    forallb (completeb (_latModel (perf_of (w_sched demo_world) "A")) "resnet50") [100; 80; 50; 20]%Z)
    = true) by (vm_compute; reflexivity).
  apply andb_prop in Hall as [Ht Hc]. rewrite forallb_forall in Hc.
  split; [done|by rewrite Hw|rewrite Hw; by apply table_okb_sound| |].
  - rewrite Hw. apply completeb_sound, Hc. by apply list_elem_of_In.
  - rewrite Hw. intros H. vm_compute in H. discriminate H.
Qed.

(** *** Partition sizes *)
Lemma add_part_in avail p q :
  pct p -> q ∈ add_part avail p <-> q ∈ avail \/ (q <> 0%Z /\ (q = p \/ q = 100 - p)%Z).
Proof.
  unfold add_part, pct. intros Hp. cbv zeta. rewrite i32_id by (unfold in_i32, INT_MIN, INT_MAX; lia).
  destruct (Z.eqb_spec (100 - p) 0) as [H1|H1], (Z.eqb_spec p 0) as [H0|H0];
    try case_decide as Hd; rewrite ?elem_of_app, ?list_elem_of_singleton in *;
    (split; [intros H|intros [H|[H [-> | ->]]]]); try (exfalso; lia); auto with lia.
  all: repeat match goal with H : _ \/ _ |- _ => destruct H end; subst; auto with lia.
Qed.

Lemma parts_of_in inputs avail q :
  Forall pct inputs -> q ∈ foldl add_part avail inputs <->
  q ∈ avail \/ (q <> 0%Z /\ exists p, p ∈ inputs /\ (q = p \/ q = 100 - p)%Z).
Proof.
  intros H. revert avail. induction H as [|p inputs Hp _ IH]; intros avail; cbn.
  - split; [by left|]. intros [?|(_ & p & Hp & _)]; [done|by apply elem_of_nil in Hp].
  - rewrite IH, add_part_in by done. split.
    + intros [[?|[? ?]]|(? & r & Hr & ?)]; [by left| |]; right; (split; [done|]).
      * exists p. split; [by left|done].
      * exists r. split; [by right|done].
    + intros [?|(Hq & r & [->|Hr]%elem_of_cons & Hqr)]; [by left; left|by left; right|].
      right. split; [done|]. by exists r.
Qed.

Lemma gt_sorted l :
  StronglySorted (fun a b => b <= a)%Z (std_sort (fun a b => b <? a)%Z l).
Proof.
  assert (H : StronglySorted (le_comp (fun a b => b <? a)%Z) (std_sort (fun a b => b <? a)%Z l)).
  { apply std_sort_sorted; intros x y; [|intros z]; rewrite ?Z.ltb_ge, ?Z.ltb_lt; lia. }
  induction H as [|x l' _ IH Hx]; constructor; [done|].
  eapply Forall_impl; [exact Hx|]. unfold le_comp. cbn. intros y. rewrite Z.ltb_ge. done.
Qed.

(** *** Creating the devices *)
Definition total_devs (table : list (string * Z)) : nat :=
  foldr (fun p n => Z.to_nat p.2 + n)%nat 0%nat table.

Lemma initiate_type_run n ty nd gpus idx w :
  idx = Z.of_nat (length gpus) -> (length gpus < Z.to_nat (Z.max 1 nd))%nat ->
  returns (initiate_type n ty nd (gpus, idx)) w (fun o _ =>
    match o with
    | inl (gpus', idx') => idx' = Z.of_nat (length gpus') /\ length gpus' = (length gpus + n)%nat /\
        (length gpus' < Z.to_nat (Z.max 1 nd))%nat
    | inr gpus' => length gpus' = Z.to_nat (Z.max 1 nd) /\ (length gpus' <= length gpus + n)%nat
    end).
Proof.
  revert gpus idx w. induction n as [|n IH]; intros gpus idx w Hi Hlt; cbn [initiate_type].
  { eapply returns_intro; [done|]. cbn. split_and!; [done|lia|done]. }
  unfold makeEmptyNode, new_gpu, new_node. eapply returns_read; [done|]. eapply returns_read; [done|].
  eapply returns_read; [done|]. eapply returns_read.
  { apply wr_gpu_ok. cbn. rewrite lookup_app_r, Nat.sub_diag by done. done. }
  destruct (Z.leb_spec nd (idx + 1)) as [Hle|Hle].
  - eapply returns_intro; [done|]. cbn. rewrite length_app. cbn. lia.
  - eapply returns_weaken; [apply IH; rewrite ?length_app; cbn; lia|].
    intros [[gpus' idx']|gpus'] s' H; rewrite length_app in H; cbn in *; lia.
Qed.

Lemma initiate_types_run table nd gpus idx w :
  idx = Z.of_nat (length gpus) -> (length gpus < Z.to_nat (Z.max 1 nd))%nat ->
  returns (for_acc_ret table (gpus, idx) (fun st type =>
    initiate_type (Z.to_nat type.2) type.1 nd st)) w (fun r _ =>
    length (match r with inl st => st.1 | inr gpus => gpus end) =
    Nat.min (Z.to_nat (Z.max 1 nd)) (length gpus + total_devs table)).
Proof.
  revert gpus idx w. induction table as [|[ty c] table IH]; intros gpus idx w Hi Hlt; cbn [for_acc_ret].
  { eapply returns_intro; [done|]. cbn. lia. }
  eapply returns_bind; [by apply initiate_type_run|].
  intros [[gpus' idx']|gpus'] w' Ho; cbn in Ho.
  - destruct Ho as (-> & Hl & Hlt'). eapply returns_weaken; [by apply IH|].
    intros r s' ->. change (total_devs ((ty, c) :: table)) with (Z.to_nat c + total_devs table)%nat. lia.
  - destruct Ho as [Hl Hle]. eapply returns_intro; [done|].
    change (total_devs ((ty, c) :: table)) with (Z.to_nat c + total_devs table)%nat. lia.
Qed.

(** *** Model names *)
Lemma model_id_loop_spec names name id :
  match list_find (fun x => x = name) names with
  | Some (i, _) => model_id_loop names name id = (id + 1 + Z.of_nat i)%Z
  | None => model_id_loop names name id = (id + Z.of_nat (length names))%Z
  end.
Proof.
  revert id. induction names as [|x names IH]; intros id; cbn; [lia|].
  destruct (String.eqb_spec x name) as [->|Hne].
  - rewrite decide_True by done. lia.
  - rewrite decide_False by done. specialize (IH (id + 1)%Z).
    destruct (list_find _ names) as [[i y]|]; cbn; rewrite IH; lia.
Qed.

(** ** Properties *)

(** C29: [getMaxBatch] finds the largest admissible batch size.  For all its
    callers - a saturated session or a residue, with the interference of the other
    node of the GPU or without - and for whatever latencies [lat] the queries
    answer, the binary search ends with a size [r] of [0..31] that is admissible
    (unless it is 0) while the next one is not; if admissibility is downward
    closed, no admissible size of [1..31] is larger.  Admissible is: the latency
    of a residue and the time to gather the batch at its rate are within the SLO
    together; twice the latency of a saturated session is.  Batch size 32 is
    never returned, whether it is admissible or not.  The rate is unchanged,
    except for a residue without an admissible size whose latency at batch size 1
    is below the SLO and below the time between two requests: it is given batch
    size 1 and the rate at which one request takes what the SLO leaves. *)
Theorem getMaxBatch_largest task node n input req is_residue interference lat b1_latency w :
  w_nodes w !! node = Some n -> queries interference w n (t_id task) node input lat ->
  (is_residue = true -> exists w',
    SchedBase.getLatency (n_type n) (t_id task) 1 node input w = Done (b1_latency, w') /\ same_to (n_type n) w w') ->
  let SLO := i2f (t_SLO task) in
  let fits b :=
    if is_residue then leb (fadd (lat b) (fdiv (fmul (i2f 1000) (i2f b)) (i2f req))) SLO
    else leb (fmul (i2f 2) (lat b)) SLO in
  exists r w', same_to (n_type n) w w' /\ search_result fits r /\
    ((forall a b, (1 <= a <= b)%Z -> (b <= 31)%Z -> fits b = true -> fits a = true) ->
     forall b, (1 <= b <= 31)%Z -> fits b = true -> (b <= r)%Z) /\
    ((1 <= r)%Z \/ is_residue = false ->
     getMaxBatch task node input req is_residue interference w = Done ((r, req), w')) /\
    (r = 0%Z -> is_residue = true ->
     getMaxBatch task node input req is_residue interference w = Done (
       if ltb (f2d b1_latency) (ddiv (i2d 1000) (i2d req)) && ltb b1_latency SLO
       then (1%Z, f2i (fmul (fmul (i2f 1) (fdiv (i2f 1000) (fsub SLO b1_latency))) (_latencyRatio (w_sched w))))
       else (0%Z, req), w')).
Proof.
  intros Hn Hq H1 SLO fits.
  destruct (getMaxBatch_spec task node n input req is_residue interference lat b1_latency w Hn Hq H1)
    as (r & w' & Hs & Hr & Hrun).
  exists r, w'. split_and!; [done|exact Hr|intros Hmono; by apply search_result_max| |].
  - intros Hcase. rewrite Hrun. replace ((r =? 0)%Z && is_residue) with false; [done|]. symmetry. apply andb_false_iff.
    destruct Hcase as [H| ->]; [left; apply Z.eqb_neq; lia|by right].
  - intros -> ->. rewrite Hrun. done.
Qed.

Definition sat_world (SLO : Z) : World :=
  set_w_nodes [mkNode [0%nat] (i2f 18) (i2f 1) 50 0 false 0 "A"]
    (set_w_tasks [mkTask 7 100 0 0 SLO 8 (i2f 444)] demo_world).
Lemma sat_queries SLO : queries true (sat_world SLO) (mkNode [0%nat] (i2f 18) (i2f 1) 50 0 false 0 "A") 7 0 demo_sim
  (node_latency_of (sat_world SLO) "A" 7 0 demo_sim).
Proof.
  intros b Hb. eapply getLatency_node_same; [reflexivity|reflexivity| |lia].
  apply demo_profiled; [reflexivity|]. by right; right; left.
Qed.

(** A saturated session without interference; and a residue of 2 requests per
    second with it, which no batch size serves within 30 ms, so that it gets
    batch size 1 and a higher rate. *)
Lemma getMaxBatch_largest_witness :
  (exists r w', same_to "A" (sat_world 60) w' /\
    getMaxBatch (mkTask 7 100 0 0 60 8 (i2f 444)) 0 demo_sim 100 false false (sat_world 60) =
      Done ((r, 100%Z), w') /\ r = 13%Z) /\
  (exists rate w', same_to "A" (sat_world 30) w' /\
    getMaxBatch (mkTask 7 2 0 0 30 8 (i2f 444)) 0 demo_sim 2 true true (sat_world 30) =
      Done ((1%Z, rate), w') /\ (2 < rate)%Z).
Proof.
  set (n := mkNode [0%nat] (i2f 18) (i2f 1) 50 0 false 0 "A").
  assert (Hp : forall SLO, profiled "A" "resnet50" 7 50 (sat_world SLO)).
  { intros SLO. apply demo_profiled; [reflexivity|]. by right; right; left. }
  split.
  - destruct (getMaxBatch_largest (mkTask 7 100 0 0 60 8 (i2f 444)) 0 n demo_sim 100 false false
      (latency_of (sat_world 60) "A" 7 50) fzero (sat_world 60)) as (r & w' & Hs & _ & _ & Hrun & _).
    + reflexivity.
    + apply (queries_profiled _ n "resnet50" 7 0 demo_sim), Hp.
    + discriminate.
    + exists r, w'. specialize (Hrun (or_intror eq_refl)). split; [exact Hs|]. split; [exact Hrun|].
      vm_compute in Hrun. injection Hrun as <- _. reflexivity.
  - pose proof (getMaxBatch_largest (mkTask 7 2 0 0 30 8 (i2f 444)) 0 n demo_sim 2 true true
      (node_latency_of (sat_world 30) "A" 7 0 demo_sim) (node_latency_of (sat_world 30) "A" 7 0 demo_sim 1) (sat_world 30)
      eq_refl (sat_queries 30) (fun _ => sat_queries 30 1%Z ltac:(lia))) as H. cbv zeta in H.
    destruct H as (r & w' & Hs & Hr & _ & _ & H0).
    assert (Hz : r = 0%Z).
    { destruct (decide (1 <= r)%Z) as [H1|H1]; [|pose proof (sr_range _ _ Hr); lia]. exfalso.
      pose proof (sr_fits _ _ Hr H1) as Hf. pose proof (sr_range _ _ Hr) as Hb.
      assert (Hall : forallb (fun b => negb (leb (fadd (node_latency_of (sat_world 30) "A" 7 0 demo_sim b)
        (fdiv (fmul (i2f 1000) (i2f b)) (i2f 2))) (i2f 30))) (map Z.of_nat (seq 1 31)) = true) by (vm_compute; reflexivity).
      rewrite forallb_forall in Hall. specialize (Hall r). cbn [t_SLO] in Hf. rewrite Hf in Hall.
      discriminate Hall. apply in_map_iff. exists (Z.to_nat r). rewrite in_seq. lia. }
    specialize (H0 Hz eq_refl). eexists _, w'. split; [exact Hs|]. split; [rewrite H0; vm_compute; reflexivity|].
    vm_compute. reflexivity.
Defined.

(** C30: [adjustSatNode] keeps the SLO of a saturated node: with the latencies
    [lat] (interference included) that the queries answer, it always returns,
    and on success the batch size of the task is the largest one, from the
    current one down, with [2 * lat <= SLO]; it fails only if every size misses
    the SLO. *)
Theorem adjustSatNode_largest np sim w n tp t lat model :
  w_nodes w !! np = Some n -> n_vTaskList n = [tp] -> w_tasks w !! tp = Some t ->
  geb (n_occupancy n) (i2f 1) = true -> (1 <= t_batch_size t <= 32)%Z ->
  answers w (n_type n) (t_id t) np sim (t_batch_size t) lat ->
  (forall b, (1 <= b <= t_batch_size t)%Z -> fneqb (lat b) fzero = true) ->
  fneqb (n_duty_cycle n) fzero = true ->
  profiled (n_type n) model (t_id t) (n_resource_pntg n) w ->
  returns (adjustSatNode np sim) w (fun failed w' =>
    largest_ok (fun b => misses_slo (t_SLO t) (lat b)) (t_batch_size t)
      (if failed then None else Some (batch_at w' tp))).
Proof.
  intros Hn Hts Ht Ho Hb Ha Hnz Hd Hp. eapply adjustSatNode_run; eauto; lia.
Qed.

Lemma adjustSatNode_largest_witness :
  match adjustSatNode 0 demo_sim (sat_world 30) with
  | Done (failed, w') => failed = false /\ batch_at w' 0 = 6%Z /\
      largest_ok (fun b => misses_slo 30 (node_latency_of (sat_world 30) "A" 7 0 demo_sim b)) 8
        (Some (batch_at w' 0))
  | Stop _ => False
  end.
Proof.
  assert (H := adjustSatNode_largest 0 demo_sim (sat_world 30)
    (mkNode [0%nat] (i2f 18) (i2f 1) 50 0 false 0 "A") 0 (mkTask 7 100 0 0 30 8 (i2f 444))
    (node_latency_of (sat_world 30) "A" 7 0 demo_sim) "resnet50").
  assert (Hp : profiled "A" "resnet50" 7 50 (sat_world 30)).
  { apply demo_profiled; [reflexivity|]. by right; right; left. }
  specialize (H eq_refl eq_refl eq_refl ltac:(vm_compute; reflexivity) ltac:(cbn; lia)).
  specialize (H ltac:(intros b Hb; eapply getLatency_node_same;
    [reflexivity|reflexivity|exact Hp|cbn in Hb; lia])).
  assert (Hnz : forallb (fun b => fneqb (node_latency_of (sat_world 30) "A" 7 0 demo_sim b) fzero)
    (map Z.of_nat (seq 1 8)) = true) by (vm_compute; reflexivity).
  rewrite forallb_forall in Hnz.
  specialize (H ltac:(intros b Hb; cbn in Hb; apply Hnz, in_map_iff; exists (Z.to_nat b);
    rewrite in_seq; lia)).
  specialize (H ltac:(vm_compute; reflexivity) Hp). unfold returns in H.
  destruct (adjustSatNode 0 demo_sim (sat_world 30)) as [[failed w']|f] eqn:E; [|exact H].
  assert (Hf : failed = false /\ batch_at w' 0 = 6%Z).
  { vm_compute in E. injection E as <- <-. split; vm_compute; reflexivity. }
  destruct Hf as [Hf Hb]. rewrite Hf in H. split; [exact Hf|]. split; [exact Hb|exact H].
Defined.

(** C26: [setupAvailParts] offers exactly the given partition sizes and their
    complements to a whole GPU (0 excepted), in descending order; so whatever
    is split off a GPU leaves a size that is available too, and all sizes are
    percentages. *)
Lemma setupAvailParts_complement inputs w :
  inputs <> [] -> Forall pct inputs ->
  returns (setupAvailParts inputs) w (fun _ w' =>
    let avail := _availParts (w_sched w') in
    StronglySorted (fun a b => b <= a)%Z avail /\
    (forall q, q ∈ avail <-> q <> 0%Z /\ exists p, p ∈ inputs /\ (q = p \/ q = 100 - p)%Z) /\
    (forall q, q ∈ avail -> q <> 100%Z -> (100 - q)%Z ∈ avail) /\
    avail_pct (w_sched w')).
Proof.
  intros Hne Hp. unfold setupAvailParts. rewrite bool_decide_false by done.
  eapply returns_read; [done|]. eapply returns_intro; [done|].
  set (avail := std_sort _ _).
  assert (Hin : forall q, q ∈ avail <-> q <> 0%Z /\ exists p, p ∈ inputs /\ (q = p \/ q = 100 - p)%Z).
  { intros q. unfold avail. rewrite std_sort_in, parts_of_in by done. split; [|by right].
    intros [H|H]; [by apply elem_of_nil in H|done]. }
  change (_availParts _) with avail. split; [apply gt_sorted|]. split; [exact Hin|]. split.
  - intros q (H0 & p & Hpi & Hq)%Hin H100. apply Hin. split; [lia|]. exists p. split; [done|lia].
  - intros q (_ & p & Hpi & Hq)%Hin. rewrite Forall_forall in Hp. specialize (Hp _ Hpi).
    unfold pct in *. lia.
Qed.

Lemma setupAvailParts_complement_witness :
  returns (setupAvailParts [80; 50; 100]%Z) demo_world (fun _ w' =>
    _availParts (w_sched w') = [100; 80; 50; 20]%Z /\ avail_pct (w_sched w')).
Proof.
  assert (H := setupAvailParts_complement [80; 50; 100]%Z demo_world ltac:(discriminate)
    ltac:(repeat constructor; unfold pct; lia)).
  unfold returns in *. destruct (setupAvailParts _ _) as [[u w']|] eqn:E; [|exact H].
  split; [|apply H]. vm_compute in E. injection E as _ <-. vm_compute. reflexivity.
Defined.

(** C28: [initiateDevs] always returns and sets up a well-formed cluster: as many
    GPUs as the types provide, up to [nDevs] (but one even if none is wanted),
    numbered by position, each with a single node of 100 percent. *)
Lemma initiateDevs_spec input nDevs w :
  returns (initiateDevs input nDevs) w (fun sim w' =>
    wf_sim w' sim /\
    length (vGPUList sim) =
      Nat.min (Z.to_nat (Z.max 1 nDevs)) (total_devs (_typeToNumofTypeTable (w_sched w)))).
Proof.
  assert (H : returns (initiateDevs input nDevs) w (fun sim w' => length (vGPUList sim) =
      Nat.min (Z.to_nat (Z.max 1 nDevs)) (total_devs (_typeToNumofTypeTable (w_sched w))))).
  { unfold initiateDevs. eapply returns_read; [done|].
    eapply returns_bind; [apply (initiate_types_run _ nDevs [] 0%Z w); [done|cbn; lia]|].
    intros r w' Hr. by eapply returns_intro. }
  unfold returns in *. destruct (initiateDevs input nDevs w) as [[sim w']|] eqn:E; [|done].
  split; [by eapply initiateDevs_wf|done].
Qed.

(** C37: [getModelID] inverts [getModelName] on the known names and gives every
    unknown name the identifier of the last model. *)
Lemma getModelID_spec name w :
  _IDtoModelName (w_sched w) <> [] ->
  exists id, getModelID name w = Done (id, w) /\
    (name ∈ _IDtoModelName (w_sched w) -> getModelName id w = Done (name, w)) /\
    (name ∉ _IDtoModelName (w_sched w) -> id = (Z.of_nat (length (_IDtoModelName (w_sched w))) - 1)%Z).
Proof.
  set (names := _IDtoModelName (w_sched w)). intros Hne.
  assert (Hlen : (0 < length names)%nat) by (destruct names; [done|cbn; lia]).
  pose proof (model_id_loop_spec names name (-1)) as Hl.
  exists (model_id_loop names name (-1)). unfold getModelID, getModelName, sched.
  rewrite !(bind_done (gets w_sched) _ w (w_sched w) w eq_refl). cbv zeta. fold names.
  assert (Hm1 : model_id_loop names name (-1) <> (-1)%Z).
  { destruct (list_find _ names) as [[i y]|]; lia. }
  split; [unfold massert; by rewrite (proj2 (Z.eqb_neq _ _) Hm1)|].
  destruct (list_find _ names) as [[i y]|] eqn:E; rewrite Hl.
  - apply list_find_Some in E as (Hi & -> & _). split.
    + intros _. unfold lift. replace (-1 + 1 + Z.of_nat i)%Z with (Z.of_nat i) by lia.
      by rewrite (proj2 (at_index_nat names i name) Hi).
    + intros Hno. destruct Hno. by eapply list_elem_of_lookup_2.
  - split; [|lia]. intros Hin. apply list_find_None in E. rewrite Forall_forall in E.
    by destruct (E name Hin).
Qed.

Lemma getModelID_spec_witness :
  getModelID "resnet50" demo_world = Done (7%Z, demo_world) /\
  getModelID "squeezenet" demo_world = Done (7%Z, demo_world) /\
  exists id, getModelID "lenet2" demo_world = Done (id, demo_world) /\
    ("lenet2"%string ∈ _IDtoModelName (w_sched demo_world) ->
     getModelName id demo_world = Done ("lenet2"%string, demo_world)).
Proof.
  split; [vm_compute; reflexivity|]. split; [vm_compute; reflexivity|].
  destruct (getModelID_spec "lenet2" demo_world ltac:(vm_compute; discriminate)) as (id & H1 & H2 & _).
  exists id. split; [exact H1|exact H2].
Defined.

(** A node alone suffers no interference from itself: asked about a node
    among just that node, [getInterference] answers 1.  This is what
    [checkForInterference] asks, with the neighbour in both places, so the task
    it is about to place never counts. *)
Lemma getInterference_self device id batch np n w :
  device <> ""%string -> w_nodes w !! np = Some n ->
  SchedBase.getInterference device id batch np [np] w = Done (i2f 1, w).
Proof.
  intros Hd Hn. unfold SchedBase.getInterference. apply String.eqb_neq in Hd. rewrite Hd.
  rewrite (bind_done _ _ w tt w) by done. cbn [for_acc].
  by rewrite !(bind_done _ _ _ _ _ (bind_done _ _ _ _ _ (isSameNode_refl _ _ _ Hn))).
Qed.

Lemma getInterference_self_witness :
  SchedBase.getInterference "A" 7 8 0 [0%nat] (sat_world 30) = Done (i2f 1, sat_world 30).
Proof.
  exact (getInterference_self "A" 7 8 0 (mkNode [0%nat] (i2f 18) (i2f 1) 50 0 false 0 "A")
    (sat_world 30) ltac:(discriminate) eq_refl).
Defined.

(** C39: [adjustBatchSizetoNetBW] fits a task into the bandwidth left on a GPU.
    It returns for every task with a batch size and a throughput; on success
    the new batch size is the largest one, from the current one down, whose
    scaled bandwidth fits; on failure nothing is left or no size fits, and
    nothing changes. *)
Theorem adjustBatchSizetoNetBW_largest tp gp t bw w :
  w_tasks w !! tp = Some t -> getRequiredBandwidth gp w = Done (bw, w) ->
  (1 <= t_batch_size t)%Z -> fneqb (t_throughput t) fzero = true ->
  let remain := fmax (dsub LIMIT_GBITS bw) (i2d 0) in
  let fits b := leb (scaled_gbits b (t_batch_size t) (t_throughput t) (required_bytes (w_sched w) (t_id t))) remain in
  returns (adjustBatchSizetoNetBW tp gp) w (fun failed w' =>
    if failed then w' = w /\
      (feqb remain (i2d 0) = true \/ forall b, (1 <= b <= t_batch_size t)%Z -> fits b = false)
    else w_nodes w' = w_nodes w /\ w_gpus w' = w_gpus w /\ w_sched w' = w_sched w /\
      (1 <= batch_at w' tp <= t_batch_size t)%Z /\ fits (batch_at w' tp) = true /\
      forall b, (batch_at w' tp < b <= t_batch_size t)%Z -> fits b = false).
Proof.
  intros Ht Hbw Hb Hth remain fits. unfold adjustBatchSizetoNetBW.
  eapply returns_read; [exact Hbw|]. fold remain. cbv zeta. destruct (feqb remain (i2d 0)) eqn:E0.
  { eapply returns_intro; [done|]. cbn. split; [done|by left]. }
  eapply returns_read; [by apply rd_task_ok|]. eapply returns_read; [done|].
  rewrite Hth, (proj2 (Z.eqb_neq _ _)) by lia. eapply returns_read; [done|].
  pose proof (fit_batch_spec (Z.to_nat (t_batch_size t)) (t_batch_size t) (t_batch_size t)
    (t_throughput t) (required_bytes (w_sched w) (t_id t)) remain) as Hs. rewrite Z2Nat.id in Hs by lia.
  destruct (fit_batch _ _ _ _ _ _) as [b|].
  - eapply returns_read; [by apply wr_task_ok|]. eapply returns_intro; [done|]. unfold EXIT_SUCCESS.
    rewrite batch_at_insert by (by eapply lookup_lt_Some). rewrite decide_True by done. cbn.
    destruct Hs as (? & ? & ?). split_and!; try done; lia.
  - eapply returns_intro; [done|]. cbn. split; [done|]. right. intros b Hbr. apply Hs. lia.
Qed.

Definition net_world : World :=
  set_w_sched (set_NLC {[7%Z := 1000000%Z]} (w_sched demo_world)) (set_w_gpus [mkGPU 0 16000 0 "A" [] []]
    (sat_world 60)).

Lemma adjustBatchSizetoNetBW_largest_witness :
  returns (adjustBatchSizetoNetBW 0 0) net_world (fun failed w' => failed = false /\
    batch_at w' 0 = 7%Z /\ w_nodes w' = w_nodes net_world).
Proof.
  assert (H := adjustBatchSizetoNetBW_largest 0 0 (mkTask 7 100 0 0 60 8 (i2f 444)) (i2d 0) net_world
    eq_refl ltac:(vm_compute; reflexivity) ltac:(cbn; lia) ltac:(vm_compute; reflexivity)).
  unfold returns in *. destruct (adjustBatchSizetoNetBW 0 0 net_world) as [[failed w']|] eqn:E; [|exact H].
  assert (Hf : failed = false /\ batch_at w' 0 = 7%Z).
  { vm_compute in E. injection E as <- <-. split; vm_compute; reflexivity. }
  destruct Hf as [Hf Hb]. rewrite Hf in H. split; [exact Hf|]. split; [exact Hb|]. apply H.
Defined.

(** The interference factor of a node is never below 1, so interference can
    only lengthen the latency of [getLatency]: whatever tasks run on the other
    nodes of the GPU and whatever the model predicts for them, negative or NaN
    values included. *)
Lemma getInterference_at_least_one device id batch np nodes w v w' :
  SchedBase.getInterference device id batch np nodes w = Done (v, w') -> leb (i2f 1) v = true.
Proof.
  intros H. unfold SchedBase.getInterference in H. apply bind_inv in H as (u & s1 & _ & H). revert H.
  apply (for_acc_inv (fun v _ => leb (i2f 1) v = true)); [|done].
  intros m p s m' s' _ Hm H. apply bind_inv in H as (same & s2 & _ & H).
  destruct same; [by apply ret_inv in H as [-> _]|].
  apply bind_inv in H as (n & s3 & _ & H). revert H.
  apply (for_acc_inv (fun v _ => leb (i2f 1) v = true)); [|done].
  intros m1 tp s4 m2 s5 _ Hm1 H. minv H. apply getInterference_pair_ge in E2. by destruct (ltb m1 _).
Qed.

(** Two models side by side on a GPU, with a loaded interference model. *)
Definition demo_int : InterferenceModel :=
  {| _intModelConsts := [i2d 1; i2d 1; i2d 1; i2d 1; i2d 1];
     _utilInfo := list_to_map (map (fun b => (("resnet50"%string, b), [i2d 0; i2d 0; ddiv (i2d 1) (i2d 2); ddiv (i2d 1) (i2d 4)]))
       [1; 2; 4; 8; 16; 32]%Z) |}.
Definition int_world : World :=
  let d := perf_of (w_sched demo_world) "A" in
  set_w_sched (set_nametoDevPerfModelTable {["A"%string :=
    {| _latModel := _latModel d; _intModel := demo_int; _devMem := _devMem d |}]} (w_sched demo_world))
    (set_w_nodes [mkNode [0%nat] (i2f 18) (i2f 1) 50 0 false 0 "A"; mkNode [0%nat] (i2f 18) (i2f 1) 50 0 false 1 "A"]
       (sat_world 30)).

Lemma getInterference_at_least_one_witness :
  match SchedBase.getInterference "A" 7 8 0 [0%nat; 1%nat] int_world with
  | Done (v, w') => leb (i2f 1) v = true /\ v = fdiv (i2f 7) (i2f 4)
  | Stop _ => False
  end.
Proof.
  apply run_returns; [vm_compute; reflexivity|]. intros [v w'] H. split.
  - exact (getInterference_at_least_one _ _ _ _ _ _ _ _ H).
  - vm_compute in H. injection H as <- _. vm_compute. reflexivity.
Defined.

(** With the five constants loaded and utilisation rows for the powers of
    two around both batch sizes, the interference of two tasks is always
    defined, at least 1, and asking for it changes nothing. *)
Lemma getInterference_pair_answers device a_id b_id a_batch b_batch pa pb model_a model_b w :
  device <> ""%string ->
  at_index (_IDtoModelName (w_sched w)) a_id = Done model_a ->
  at_index (_IDtoModelName (w_sched w)) b_id = Done model_b ->
  let im := _intModel (perf_of (w_sched w) device) in
  length (_intModelConsts im) = 5%nat ->
  util_covers im (lenet_family model_a) a_batch -> util_covers im (lenet_family model_b) b_batch ->
  exists v w', getInterference_pair device a_id b_id a_batch b_batch pa pb w = Done (v, w') /\
    leb (i2f 1) v = true /\ same_to device w w'.
Proof.
  intros Hd Ha Hb im Hc H1 H2.
  destruct (im_getInterference_total im model_a a_batch pa model_b b_batch pb Hc H1 H2) as [x Hx].
  unfold getInterference_pair. apply String.eqb_neq in Hd. rewrite Hd.
  rewrite (bind_done _ _ w tt w) by done. unfold getModelName, sched.
  rewrite (bind_done _ _ w model_a w).
  2:{ rewrite (bind_done (gets w_sched) _ w (w_sched w) w eq_refl). unfold lift. by rewrite Ha. }
  rewrite (bind_done _ _ w model_b w).
  2:{ rewrite (bind_done (gets w_sched) _ w (w_sched w) w eq_refl). unfold lift. by rewrite Hb. }
  unfold perf, dev_getInterference, zoom, mbind, M_bind, get, lift. fold im. rewrite Hx.
  eexists _, _. split; [done|]. split; [apply at_least_one_ge|].
  split; try done; cbn; rewrite ?perf_of_insert; done.
Qed.

Lemma getInterference_pair_answers_witness :
  exists v w', getInterference_pair "A" 7 7 8 20 50 50 int_world = Done (v, w') /\
    leb (i2f 1) v = true /\ same_to "A" int_world w'.
Proof.
  assert (Hcov : forall b, (b = 8 \/ b = 20)%Z ->
    util_covers (_intModel (perf_of (w_sched int_world) "A")) "resnet50" b).
  { intros b [-> | ->] b' [-> | ->]; eexists; (split; [vm_compute; reflexivity|cbn; lia]). }
  apply (getInterference_pair_answers "A" 7 7 8 20 50 50 "resnet50" "resnet50" int_world).
  - discriminate.
  - vm_compute. reflexivity.
  - vm_compute. reflexivity.
  - vm_compute. reflexivity.
  - apply Hcov. by left.
  - apply Hcov. by right.
Defined.
