(* ===== verification/IncrProps.v ===== *)
(** * Properties of the scheduling loop ([IncrementalScheduler]) *)
From Stdlib Require Import ZArith SpecFloat String Permutation Sorted Lia.
From S2P Require Import Prelude CppFloat CppStd LatencyModel DevPerfModel SchedData SchedUtils SchedBase LatencyQueries BatchSearch SchedFrame IncrEstimate IncrFit IncrReadjust IncrSchedule Demo IncrFrame SchedInv.

(** ** The demo cluster *)

(** Code that leaves the scheduler object alone. *)
Definition same_sched (w w' : World) : Prop := w_sched w' = w_sched w.
#[global] Instance same_sched_preorder : PreOrder same_sched.
Proof. split; [by intros ?|]. intros a b c H1 H2. unfold same_sched in *. congruence. Qed.

Lemma new_gpu_same_sched g : preserves same_sched (new_gpu g).
Proof. by intros w p w' [_ ->]%new_gpu_inv. Qed.
Lemma new_node_same_sched n : preserves same_sched (new_node n).
Proof. by intros w p w' [_ ->]%new_node_inv. Qed.
Lemma wr_gpu_same_sched p f : preserves same_sched (wr_gpu p f).
Proof. by intros w u w' (g & _ & ->)%wr_gpu_inv. Qed.
#[local] Hint Resolve new_gpu_same_sched new_node_same_sched wr_gpu_same_sched : frame.

Lemma initiate_type_same_sched n ty nd st : preserves same_sched (initiate_type n ty nd st).
Proof.
  revert st. induction n as [|n IH]; intros st; cbn; [apply preserves_ret, _|].
  destruct st as [gpus idx]. unfold makeEmptyNode. preserve.
Qed.
#[local] Hint Resolve initiate_type_same_sched : frame.
Lemma initiateDevs_same_sched input n : preserves same_sched (initiateDevs input n).
Proof. unfold initiateDevs, sched. preserve. Qed.

Lemma keep_init_mems_type K N w0 n ty gpus idx :
  keeping (keeps K N w0) (init_mems_type n ty gpus idx) any.
Proof.
  revert idx. induction n as [|n IH]; intros idx; cbn; [by apply keeping_ret|].
  unfold initDevMem. keep.
Qed.
#[local] Hint Resolve keep_init_mems_type : keeps.
Lemma keep_initDevMems K N w0 sim : keeping (keeps K N w0) (initDevMems sim) any.
Proof. unfold initDevMems. keep. Qed.

Lemma demo_boot_wf w sim w' : demo_boot w = Done (sim, w') -> wf_sim w' sim.
Proof.
  intros H. unfold demo_boot in H. minv H. eapply calm_wf; [|by eapply initiateDevs_wf].
  by eapply (keep_initDevMems (all_nodes s) any s); [apply keeps_refl|].
Qed.

Lemma demo_wf : wf_sim demo_world demo_sim.
Proof.
  unfold demo_world, demo_sim, start.
  destruct (demo_boot _) as [[sim w']|f] eqn:E; [exact (demo_boot_wf _ _ _ E)|].
  exfalso. revert E. by vm_compute.
Qed.
Lemma demo_avail : avail_pct (w_sched demo_world).
Proof.
  intros p Hp. assert (Hall : forallb (fun p => (0 <=? p) && (p <=? 100))%Z
    (_availParts (w_sched demo_world)) = true) by (vm_compute; reflexivity).
  rewrite forallb_forall in Hall. apply list_elem_of_In, Hall in Hp. unfold pct. lia.
Qed.

(** ** The scheduling loop *)
#[local] Hint Resolve keep_total_throughput : keeps.
Lemma sched_round_sound sim st w o w' :
  sound sim w -> sched_round sim st w = Done (o, w') -> sound sim w'.
Proof.
  intros Hs H. destruct st as [session retried]. unfold sched_round in H. cbv zeta in H.
  apply bind_inv in H as ([failed session'] & s1 & E & H).
  eapply elasticPartitioning_sound in E; [|exact Hs].
  assert (Hc : calm s1 w').
  { destruct failed; [by apply ret_inv in H as [_ ->]|].
    (calm_from H Hx; exact Hx). }
  by eapply calm_sound.
Qed.

Lemma scheduling_sound session decision w r w' :
  wf_sim w decision -> avail_pct (w_sched w) ->
  incrementalScehduling session decision w = Done (r, w') -> sound r.2 w'.
Proof.
  intros Hwf Ha H. unfold incrementalScehduling in H.
  apply bind_inv in H as (sc & s1 & E & H). apply gets_inv in E as [-> ->].
  apply bind_inv in H as (d & s2 & E & H).
  assert (Hs : sound d s2).
  { case_decide as Hd.
    - split; [by eapply initiateDevs_wf|]. apply initiateDevs_same_sched in E. by rewrite E.
    - apply ret_inv in E as [-> ->]. by split. }
  apply bind_inv in H as ([b session'] & s3 & E3 & H). apply ret_inv in H as [-> ->]. cbn.
  revert E3. apply (loop_inv (fun _ => sound d) (fun _ => sound d)); [|done].
  intros v s o s' Hv Hrun. pose proof (sched_round_sound _ _ _ _ _ Hv Hrun). by destruct o.
Qed.

(** *** Retries *)
Definition ids_in (l : list Task) (s : gset Z) : Prop := forall t, t ∈ l -> t_id t ∈ s.

Lemma retry_session_ids i session trpt org retried l r :
  retry_session i session trpt org retried = Some (l, r) -> ids_in l r.
Proof.
  unfold retry_session.
  match goal with |- foldl ?f _ _ = _ -> _ => set (step := f) end.
  assert (Hgen : forall session acc, match acc with Some (l, r) => ids_in l r | None => True end ->
    match foldl step acc session with Some (l, r) => ids_in l r | None => True end).
  { clear. induction session as [|t session IH]; intros acc Hacc; [done|]. cbn. apply IH.
    destruct acc as [[l r]|]; cbn; [|done]. destruct (ltb _ _); [|done]. case_decide; [done|].
    intros t' [Ht'|Ht']%elem_of_app; [specialize (Hacc t' Ht'); set_solver|].
    apply list_elem_of_singleton in Ht' as ->. cbn. set_solver. }
  intros H. specialize (Hgen session (Some ([], retried))). rewrite H in Hgen. apply Hgen.
  by intros t ?%elem_of_nil.
Qed.

Lemma retry_session_again i session trpt org retried :
  ids_in session retried ->
  retry_session i session trpt org retried = None \/
  retry_session i session trpt org retried = Some ([], retried).
Proof.
  unfold retry_session.
  match goal with |- _ -> foldl ?f _ _ = _ \/ _ => set (step := f) end.
  assert (Hnone : forall l, foldl step None l = None) by (induction l as [|? ? IHl]; [done|exact IHl]).
  induction session as [|t session IH]; intros Hin; [by right|]. cbn.
  destruct (ltb _ _).
  - rewrite decide_True by (apply Hin; by left). left. apply Hnone.
  - apply IH. intros t' Ht'. apply Hin. by right.
Qed.

Lemma elasticPartitioning_perm session sim w b session' w' :
  elasticPartitioning session sim w = Done ((b, session'), w') ->
  session' = std_sort cmp_task_dsc session.
Proof.
  intros H. unfold elasticPartitioning in H. cbv zeta in H.
  apply bind_inv in H as (o & s1 & _ & H). apply bind_inv in H as (i & s2 & _ & H).
  apply ret_inv in H as [[= -> ->] _]. done.
Qed.

Lemma sched_round_inl sim session retried w session' retried' w' :
  sched_round sim (session, retried) w = Done (inl (session', retried'), w') ->
  ids_in session' retried'.
Proof.
  intros H. unfold sched_round in H. cbv zeta in H.
  apply bind_inv in H as ([failed s] & s1 & _ & H). destruct failed; [by apply ret_inv in H as [? _]|].
  apply bind_inv in H as (sc & s2 & _ & H). destruct (_useInterference sc);
    [|by apply ret_inv in H as [? _]].
  apply bind_inv in H as (trpt & s3 & _ & H). apply bind_inv in H as (i & s4 & _ & H).
  apply ret_inv in H as [H _]. destruct (retry_session _ _ _ _ _) as [[[|t l] r]|] eqn:E; try done.
  injection H as -> ->. by eapply retry_session_ids.
Qed.

Lemma sched_round_retried sim session retried w o w' :
  ids_in session retried -> sched_round sim (session, retried) w = Done (o, w') ->
  exists r, o = inr r.
Proof.
  intros Hin H. unfold sched_round in H. cbv zeta in H.
  apply bind_inv in H as ([failed s] & s1 & E & H). apply elasticPartitioning_perm in E as ->.
  destruct failed; [apply ret_inv in H as [-> _]; eauto|].
  apply bind_inv in H as (sc & s2 & _ & H). destruct (_useInterference sc);
    [|apply ret_inv in H as [-> _]; eauto].
  apply bind_inv in H as (trpt & s3 & _ & H). apply bind_inv in H as (i & s4 & _ & H).
  apply ret_inv in H as [-> _].
  destruct (retry_session_again i (std_sort cmp_task_dsc session) trpt (org_rate_of session) retried)
    as [-> | ->]; [|eauto..].
  intros t Ht. apply Hin. by rewrite std_sort_in in Ht.
Qed.

(** *** The order of a session *)
Definition load_of (t : Task) : Z := i32 (t_request_rate t * t_SLO t).
Definition before (a b : Task) : Prop :=
  (load_of a < load_of b \/ (load_of a = load_of b /\ t_id b <= t_id a))%Z.

Lemma cmp_task_dsc_false a b : cmp_task_dsc b a = false <-> before a b.
Proof.
  unfold cmp_task_dsc, before, load_of. cbv zeta.
  rewrite orb_false_iff, andb_false_iff, !Z.ltb_ge, Z.eqb_neq. lia.
Qed.
Lemma cmp_task_dsc_true a b : cmp_task_dsc a b = true -> before a b.
Proof.
  unfold cmp_task_dsc, before, load_of. cbv zeta.
  rewrite orb_true_iff, andb_true_iff, !Z.ltb_lt, Z.eqb_eq. lia.
Qed.

Lemma sorted_session session : StronglySorted before (std_sort cmp_task_dsc session).
Proof.
  pose proof (std_sort_sorted cmp_task_dsc) as Hs.
  assert (H : StronglySorted (le_comp cmp_task_dsc) (std_sort cmp_task_dsc session)).
  { apply Hs.
    - intros x y Hxy. apply cmp_task_dsc_false. by apply cmp_task_dsc_true.
    - intros x y z. rewrite !cmp_task_dsc_false. unfold before. lia. }
  clear Hs. induction H as [|x l _ IH Hx]; constructor; [done|].
  eapply Forall_impl; [exact Hx|]. intros y. apply cmp_task_dsc_false.
Qed.

(** *** Models whose rate is within the slack *)

(** Code that only reads. *)
Lemma wr_task_inv p f w u w' :
  wr_task p f w = Done (u, w') ->
  exists t, w_tasks w !! p = Some t /\ w' = set_w_tasks (<[p := f t]> (w_tasks w)) w.
Proof. intros H. unfold wr_task in H. minv H. eauto. Qed.
Lemma rd_node_reads p : preserves eq (rd_node p).
Proof. by intros w a w' [_ ->]%rd_node_inv. Qed.
Lemma rd_task_reads p : preserves eq (rd_task p).
Proof. by intros w a w' [_ ->]%rd_task_inv. Qed.
Lemma rd_gpu_reads p : preserves eq (rd_gpu p).
Proof. by intros w a w' [_ ->]%rd_gpu_inv. Qed.
#[local] Hint Resolve rd_node_reads rd_task_reads rd_gpu_reads : frame.
Lemma getMaxPartSize_reads sim : preserves eq (getMaxPartSize sim).
Proof. unfold getMaxPartSize. preserve. Qed.
Lemma isModelScheduled_reads task sim : preserves eq (isModelScheduled task sim).
Proof. unfold isModelScheduled. preserve. Qed.

(** No task of the schedule runs model [id]. *)
Definition unscheduled (id : Z) (sim : SimState) (w : World) : Prop :=
  forall gp g np n tp t, gp ∈ vGPUList sim -> w_gpus w !! gp = Some g -> np ∈ g_vNodeList g ->
    w_nodes w !! np = Some n -> tp ∈ n_vTaskList n -> w_tasks w !! tp = Some t -> t_id t <> id.

Lemma isModelScheduled_false task sim w t b w' :
  w_tasks w !! task = Some t -> unscheduled (t_id t) sim w ->
  isModelScheduled task sim w = Done (b, w') -> b = false.
Proof.
  intros Ht Hun H. unfold isModelScheduled in H.
  apply bind_inv in H as (t0 & s1 & E & H). apply rd_task_inv in E as [E ->].
  assert (t0 = t) as -> by congruence.
  cut (b = false /\ w' = w); [by intros []|]. revert H.
  apply (for_acc_inv (fun (b : bool) s => b = false /\ s = w)); [|done].
  intros b1 gp s1 b2 s2 Hgp [-> ->] H. apply bind_inv in H as (g & s3 & E3 & H).
  apply rd_gpu_inv in E3 as [Hg ->]. revert H.
  apply (for_acc_inv (fun (b : bool) s => b = false /\ s = w)); [|done].
  intros b3 np s4 b4 s5 Hnp [-> ->] H. apply bind_inv in H as (n & s6 & E6 & H).
  apply rd_node_inv in E6 as [Hn ->]. revert H.
  apply (for_acc_inv (fun (b : bool) s => b = false /\ s = w)); [|done].
  intros b5 tp s7 b6 s8 Htp [-> ->] H. apply bind_inv in H as (t' & s9 & E9 & H).
  apply rd_task_inv in E9 as [Ht' ->]. apply ret_inv in H as [-> ->].
  destruct (Z.eqb_spec (t_id t) (t_id t')) as [He|]; [|done].
  by destruct (Hun gp g np n tp t').
Qed.

Lemma getEstimate_small task w t r w' :
  w_tasks w !! task = Some t -> (t_request_rate t <= TRP_SLACK)%Z ->
  getEstimate task w = Done (r, w') -> r = [].
Proof.
  intros Ht Hr H. unfold getEstimate in H.
  apply bind_inv in H as (t' & s1 & E & H). apply rd_task_inv in E as [E ->].
  assert (t' = t) as -> by congruence.
  apply bind_inv in H as (ty & s1 & _ & H). cbn [rate_fuel estimateTrp] in H.
  apply Z.leb_le in Hr. rewrite Hr in H. by apply ret_inv in H as [-> _].
Qed.

Lemma stops_intro {S A} (m : M S A) s :
  (forall a s', m s = Done (a, s') -> False) -> exists f, m s = Stop f.
Proof. intros H. destruct (m s) as [[a s']|f] eqn:E; [by destruct (H a s')|eauto]. Qed.

(** ** Properties *)

(** C1: scheduling a session keeps the partitioning of the cluster well formed:
    whatever the session, when [incrementalScehduling] returns - with success
    or with failure - every GPU of the decision still has distinct nodes that
    carry its number and type, with sizes between 0 and 100 adding up to
    exactly 100 percent. *)
Theorem incrementalScehduling_wf session decision w r w' :
  wf_sim w decision -> avail_pct (w_sched w) ->
  incrementalScehduling session decision w = Done (r, w') -> wf_sim w' r.2.
Proof. intros Hwf Ha H. by destruct (scheduling_sound _ _ _ _ _ Hwf Ha H). Qed.

Lemma incrementalScehduling_wf_witness :
  match incrementalScehduling [demo_task 1500] demo_sim demo_world with
  | Done (r, w') => wf_sim w' r.2 /\ show r.2 w' =
      [[(50, [(7, 23)]); (50, [(7, 23)])]; [(50, [(7, 23)]); (50, [(7, 5)])]]%Z
  | Stop _ => False
  end.
Proof.
  apply run_returns; [vm_compute; reflexivity|]. intros [r w'] H. split.
  - exact (incrementalScehduling_wf _ _ _ _ _ demo_wf demo_avail H).
  - vm_compute in H. injection H as <- <-. vm_compute. reflexivity.
Defined.

(** C37: a task is retried at most once, so two rounds of scheduling always
    suffice: the loop gives the same answer with any larger bound, and the
    second round never asks for a third one. *)
Theorem sched_rounds_enough n session decision w :
  loop (SCHED_ROUNDS + n) (session, ∅) (sched_round decision) w =
  loop SCHED_ROUNDS (session, ∅) (sched_round decision) w /\
  match sched_round decision (session, ∅) w with
  | Done (inl st, w1) =>
      match sched_round decision st w1 with Done (inl _, _) => False | _ => True end
  | _ => True
  end.
Proof.
  assert (Hlast : forall st w1, ids_in st.1 st.2 ->
    match sched_round decision st w1 with Done (inl _, _) => False | _ => True end).
  { intros [l r] w1 Hin. destruct (sched_round _ _ _) as [[o w2]|] eqn:E; [|done].
    by destruct (sched_round_retried _ _ _ _ _ _ Hin E) as [r' ->]. }
  cbn [loop SCHED_ROUNDS plus]. unfold mbind, M_bind.
  destruct (sched_round decision (session, ∅) w) as [[[[l r]|x] w1]|] eqn:E; [|done|done].
  specialize (Hlast (l, r) w1 (sched_round_inl _ _ _ _ _ _ _ E)). split; [|done].
  by destruct (sched_round decision (l, r) w1) as [[[st|y] w2]|].
Qed.

(** A session is worked through in ascending order of rate times SLO (ties:
    descending model number): [elasticPartitioning] hands back the session as a
    permutation of the given one in that order. *)
Lemma elasticPartitioning_order session sim w b session' w' :
  elasticPartitioning session sim w = Done ((b, session'), w') ->
  Permutation session' session /\ StronglySorted before session'.
Proof.
  intros ->%elasticPartitioning_perm. split; [apply std_sort_perm|apply sorted_session].
Qed.

Lemma elasticPartitioning_order_witness :
  match elasticPartitioning [demo_task 600; demo_task 100] demo_sim demo_world with
  | Done (r, w') => map t_request_rate r.2 = [100; 600]%Z /\
      Permutation r.2 [demo_task 600; demo_task 100] /\ StronglySorted before r.2
  | Stop _ => False
  end.
Proof.
  apply run_returns; [vm_compute; reflexivity|]. intros [[b l] w'] H. split.
  - vm_compute in H. injection H as _ <- _. vm_compute. reflexivity.
  - exact (elasticPartitioning_order _ _ _ _ _ _ H).
Defined.

(** A model that is not scheduled yet and asks for at most [TRP_SLACK]
    requests per second is never added: its estimate is empty and the first
    element of the empty estimate is read ([SCHED_DEBUG] is defined by the
    build). *)
Lemma addModeltoSchedule_small_rate task t decision w :
  w_tasks w !! task = Some t -> (t_request_rate t <= TRP_SLACK)%Z ->
  unscheduled (t_id t) decision w ->
  exists f, addModeltoSchedule task decision w = Stop f.
Proof.
  intros Ht Hr Hun. apply stops_intro. intros b w' H. unfold addModeltoSchedule in H.
  apply bind_inv in H as (u & s1 & E & H). apply wr_task_inv in E as (t0 & E & ->).
  assert (t0 = t) as -> by congruence. clear E.
  set (t1 := set_t_additional_rate 0 t) in *. set (w1 := set_w_tasks _ w) in *.
  assert (Ht1 : w_tasks w1 !! task = Some t1).
  { unfold w1. cbn. apply list_lookup_insert_eq. by eapply lookup_lt_Some. }
  assert (Hun1 : unscheduled (t_id t1) decision w1).
  { intros gp g np n tp t' Hgp Hg Hnp Hn Htp Ht'. unfold w1 in *. cbn in *.
    destruct (decide (tp = task)) as [->|Hne].
    - rewrite Ht1 in Ht'. injection Ht' as <-. exact (Hun gp g np n task t Hgp Hg Hnp Hn Htp Ht).
    - rewrite list_lookup_insert_ne in Ht' by done. by apply (Hun gp g np n tp t'). }
  apply bind_inv in H as (sch & s2 & E2 & H).
  pose proof (isModelScheduled_false _ _ _ _ _ _ Ht1 Hun1 E2) as ->.
  apply isModelScheduled_reads in E2 as <-. cbn [negb] in H.
  apply bind_inv in H as (mp & s3 & E3 & H). apply getMaxPartSize_reads in E3 as <-.
  apply bind_inv in H as (est & s4 & E4 & H).
  apply (getEstimate_small _ _ _ _ _ Ht1) in E4 as ->; [|done].
  apply bind_inv in H as (est & s5 & E5 & H). apply ret_inv in E5 as [-> ->].
  by apply bind_inv in H as (nofit & s5 & E5 & H).
Qed.

Lemma addModeltoSchedule_small_rate_witness :
  let w := set_w_tasks [demo_task 10] demo_world in
  unscheduled 7 demo_sim w /\ (exists f, addModeltoSchedule 0 demo_sim w = Stop f) /\
  addModeltoSchedule 0 demo_sim w = Stop Undefined.
Proof.
  intros w. assert (Hun : unscheduled 7 demo_sim w).
  { intros gp g np n tp t Hgp Hg Hnp Hn Htp. exfalso.
    assert (Hall : Forall (fun n => n_vTaskList n = []) (w_nodes w))
      by (vm_compute; repeat constructor).
    rewrite Forall_forall in Hall. rewrite (Hall n) in Htp; [by apply elem_of_nil in Htp|].
    by eapply list_elem_of_lookup_2. }
  split; [exact Hun|]. split; [|vm_compute; reflexivity].
  apply (addModeltoSchedule_small_rate 0 (demo_task 10)); [reflexivity|done|exact Hun].
Defined.
