(* ===== verification/IncrFitProps.v ===== *)
(** * Fitting and memory: what [findBestFit] finds, and what the memory
    bookkeeping charges *)
From Stdlib Require Import ZArith SpecFloat String Lia.
From S2P Require Import Prelude CppFloat CppStd LatencyModel DevPerfModel SchedData SchedUtils SchedBase LatencyQueries SchedFrame IncrEstimate IncrFit IncrReadjust IncrSchedule Demo IncrFrame SchedInv IncrProps.

(** ** Code that looks at the schedule without changing it

    It may create temporary nodes and fill caches. *)
Record quiet (w0 w : World) : Prop := {
  q_nodes : w_nodes w0 `prefix_of` w_nodes w;
  q_tasks : w_tasks w = w_tasks w0;
  q_gpus : w_gpus w = w_gpus w0;
  q_cfg : cfg (w_sched w) = cfg (w_sched w0) }.

#[global] Instance quiet_preorder : PreOrder quiet.
Proof.
  split; [by split|]. intros a b c [] []. split; [by etrans|congruence..].
Qed.

Lemma quiet_node w0 w p n : quiet w0 w -> w_nodes w0 !! p = Some n -> w_nodes w !! p = Some n.
Proof. intros Hq Hn. eapply prefix_lookup_Some; [exact Hn|apply Hq]. Qed.
Lemma quiet_node_inv w0 w p n m :
  quiet w0 w -> w_nodes w0 !! p = Some n -> w_nodes w !! p = Some m -> m = n.
Proof. intros Hq Hn Hm. apply (quiet_node _ _ _ _ Hq) in Hn. congruence. Qed.

Section Quiet.
Context (w0 : World).
Abbreviation Q := (quiet w0).

Lemma quiet_reads {A} (m : SM A) : preserves eq m -> keeping Q m any.
Proof. intros Hm s a s' Hs H. apply Hm in H as <-. done. Qed.
Lemma quiet_rd_node p : keeping Q (rd_node p) any.
Proof. apply quiet_reads, rd_node_reads. Qed.
Lemma quiet_rd_task p : keeping Q (rd_task p) any.
Proof. apply quiet_reads, rd_task_reads. Qed.
Lemma quiet_rd_gpu p : keeping Q (rd_gpu p) (fun g => w_gpus w0 !! p = Some g).
Proof. intros s g s' Hs [Hg ->]%rd_gpu_inv. split; [done|]. by rewrite <- (q_gpus _ _ Hs). Qed.
Lemma quiet_new_node n : keeping Q (new_node n) (fresh w0).
Proof.
  intros s p s' [Hn Ht Hg Hc] [-> ->]%new_node_inv. split.
  - split; try done. cbn. etrans; [exact Hn|]. by eexists.
  - unfold fresh. by apply prefix_length.
Qed.
Lemma quiet_wr_node p f : fresh w0 p -> keeping Q (wr_node p f) any.
Proof.
  intros Hp s u s' [Hn Ht Hg Hc] (n & _ & ->)%wr_node_inv. split; [|done]. split; try done. cbn.
  destruct Hn as [l ->]. unfold fresh in Hp. exists (<[p - length (w_nodes w0) := f n]> l)%nat.
  by rewrite insert_app_r_alt.
Qed.
Lemma quiet_perf {A} d (m : M DevPerfModel A) : keeping Q (perf d m) any.
Proof.
  intros s a s' [Hn Ht Hg Hc] H. split; [|done]. unfold perf, zoom in H.
  destruct (m _) as [[b t]|]; [|done]. injection H as <- <-. by split.
Qed.
Hint Resolve quiet_rd_node quiet_rd_task quiet_rd_gpu quiet_new_node quiet_wr_node quiet_perf : keeps.

Lemma quiet_makeEmptyNode i p t : keeping Q (makeEmptyNode i p t) (fresh w0).
Proof. unfold makeEmptyNode. keep. Qed.
Lemma quiet_getModelName i : keeping Q (getModelName i) any.
Proof. unfold getModelName, sched. keep. Qed.
Lemma quiet_isSameNode a b : keeping Q (isSameNode a b) any.
Proof. unfold isSameNode. keep. Qed.
Lemma quiet_getBatchLatency m b : keeping Q (getBatchLatency m b) any.
Proof. unfold getBatchLatency, sched. keep. Qed.
Hint Resolve quiet_makeEmptyNode quiet_getModelName quiet_isSameNode quiet_getBatchLatency : keeps.
Lemma quiet_getInterference d m b np l : keeping Q (getInterference d m b np l) any.
Proof. unfold getInterference, getInterference_pair. keep. Qed.
Hint Resolve quiet_getInterference : keeps.
Lemma quiet_getLatency d m b np sim : keeping Q (getLatency d m b np sim) any.
Proof. unfold getLatency, sched. keep. Qed.
Lemma quiet_getOtherNode n sim : keeping Q (getOtherNode n sim) any.
Proof. unfold getOtherNode. keep. Qed.
Lemma quiet_isPartLoaded g n : keeping Q (isPartLoaded g n) any.
Proof. unfold isPartLoaded. keep. Qed.
Lemma quiet_isModelLoaded g n m : keeping Q (isModelLoaded g n m) any.
Proof. unfold isModelLoaded, isPartLoaded. keep. Qed.
Hint Resolve quiet_getLatency quiet_getOtherNode quiet_isPartLoaded quiet_isModelLoaded : keeps.
Lemma quiet_doesFitMemLimit g m n : keeping Q (doesFitMemLimit g m n) any.
Proof. unfold doesFitMemLimit, sched. keep. Qed.
Hint Resolve quiet_doesFitMemLimit : keeps.
Lemma quiet_checkForInterference d a b sim : keeping Q (checkForInterference d a b sim) any.
Proof. unfold checkForInterference. keep. Qed.
Hint Resolve quiet_checkForInterference : keeps.
Lemma quiet_node_admits sim g i n : keeping Q (node_admits sim g i n) any.
Proof. unfold node_admits. keep. Qed.
End Quiet.

(** ** The search for a fitting node *)

(** An empty node of the right type that is large enough and not excluded. *)
Record candidate (w : World) (sim : SimState) (inp : Node) (excl : list NodePtr)
    (gp : GPUPtr) (p : NodePtr) (n : Node) : Prop := {
  cd_gpu : exists g, gp ∈ vGPUList sim /\ w_gpus w !! gp = Some g /\
    g_TYPE g = n_type inp /\ p ∈ g_vNodeList g;
  cd_node : w_nodes w !! p = Some n;
  cd_empty : n_vTaskList n = [];
  cd_size : (n_resource_pntg inp <= n_resource_pntg n)%Z;
  cd_excl : p ∉ excl }.

(** The admission test - memory, SLO and interference - answered [b] for the
    node, in a state that differs from [w] in caches and temporaries. *)
Definition tested (w : World) (sim : SimState) (input : NodePtr) (gp : GPUPtr) (p : NodePtr)
    (b : bool) : Prop :=
  exists s s', quiet w s /\ node_admits sim gp input p s = Done (b, s').

Lemma best_update_some up a b np st :
  pct a -> pct b -> (b <= a)%Z ->
  let st' := best_update up a b np st in
  st'.1 <> 200%Z /\ (st'.2 = Some np \/ (st'.2 = st.2 /\ st.1 <> 200)%Z).
Proof.
  unfold best_update, pct. intros Ha Hb Hle. destruct st as [d o]. cbv zeta.
  rewrite i32_id by (unfold in_i32, INT_MIN, INT_MAX; lia).
  destruct ((a =? 100)%Z && up); cbn.
  - destruct (Z.leb_spec (a - b) 0); cbn; (split; [lia|by left]).
  - destruct (Z.leb_spec (a - b) d); cbn; [split; [lia|by left]|]. split; [lia|]. right. split; [done|lia].
Qed.

Section Search.
Context (w : World) (sim : SimState) (input : NodePtr) (inp : Node) (excl : list NodePtr).
Context (Hinp : w_nodes w !! input = Some inp) (Hpct : pct (n_resource_pntg inp))
  (Hwf : wf_sim w sim).

Lemma sim_node gp g p :
  gp ∈ vGPUList sim -> w_gpus w !! gp = Some g -> p ∈ g_vNodeList g ->
  exists n, w_nodes w !! p = Some n /\ pct (n_resource_pntg n).
Proof.
  intros Hgp Hg Hp.
  assert (Hin : in_sim w sim p).
  { exists gp, (gshape g). unfold gshape_at. by rewrite Hg. }
  pose proof (wf_part_range _ _ Hwf _ Hin) as Hr. pose proof (wf_in_sim_lt _ _ Hwf _ Hin) as Hlt.
  apply lookup_lt_is_Some_2 in Hlt as [n Hn]. exists n. split; [done|].
  unfold part_at, shape_at in Hr. by rewrite Hn in Hr.
Qed.

(** The running minimum: the node found was admitted, and as long as there is
    none, every candidate in [seen] was refused. *)
Definition best_inv (seen : GPUPtr -> NodePtr -> Prop) (st : Z * option NodePtr) (s : World) : Prop :=
  quiet w s /\
  match st.2 with
  | Some p => st.1 <> 200%Z /\ exists gp n, candidate w sim inp excl gp p n /\ tested w sim input gp p true
  | None => st.1 = 200%Z /\ forall gp p n, seen gp p -> candidate w sim inp excl gp p n ->
      tested w sim input gp p false
  end.

Lemma best_inv_seen (A B : GPUPtr -> NodePtr -> Prop) st s :
  (forall gp p n, B gp p -> candidate w sim inp excl gp p n -> A gp p) ->
  best_inv A st s -> best_inv B st s.
Proof.
  intros HAB [Hq H]. split; [done|]. destruct st.2; [done|]. destruct H as [He Hall].
  split; [done|]. intros gp p n HB Hc. by eapply Hall; [eapply HAB|].
Qed.

Lemma fit_step_inv A gp g p st s st' s' :
  gp ∈ vGPUList sim -> w_gpus w !! gp = Some g -> g_TYPE g = n_type inp -> p ∈ g_vNodeList g ->
  best_inv A st s -> fit_step sim gp input excl st p s = Done (st', s') ->
  best_inv (fun gp' p' => A gp' p' \/ (gp' = gp /\ p' = p)) st' s'.
Proof.
  intros Hgp Hg Hty Hp Hinv H. pose proof Hinv as [Hq _]. unfold fit_step in H.
  apply bind_inv in H as (n & s1 & E & H). apply rd_node_inv in E as [Hn ->].
  apply bind_inv in H as (inp' & s1 & E & H). apply rd_node_inv in E as [Hi ->].
  pose proof (quiet_node_inv _ _ _ _ _ Hq Hinp Hi) as ->.
  assert (Hskip : (forall m, ~ candidate w sim inp excl gp p m) -> best_inv (fun gp' p' => A gp' p' \/ (gp' = gp /\ p' = p)) st s).
  { intros Hno. eapply best_inv_seen; [|exact Hinv].
    intros gp' p' m [HA|[-> ->]] Hc; [done|]. by destruct (Hno m). }
  assert (Hsame : forall m, w_nodes w !! p = Some m -> m = n).
  { intros m Hm. symmetry. by eapply quiet_node_inv. }
  destruct (_ || _) eqn:Ec.
  { apply ret_inv in H as [-> ->]. apply Hskip. intros m [_ Hm He Hs _].
    pose proof (Hsame m Hm) as ->. rewrite He in Ec.
    rewrite bool_decide_true in Ec by done. rewrite orb_false_r in Ec. apply Z.ltb_lt in Ec. lia. }
  apply orb_false_elim in Ec as [Es Ee]. apply Z.ltb_ge in Es.
  apply negb_false_iff, bool_decide_eq_true in Ee.
  case_decide as Hex.
  { apply ret_inv in H as [-> ->]. apply Hskip. by intros m []. }
  apply bind_inv in H as (b & s1 & E & H).
  destruct (quiet_node_admits w sim gp input p s b s1 Hq E) as [Hq1 _].
  destruct b; cbn [negb] in H.
  2:{ apply ret_inv in H as [-> ->]. destruct Hinv as [_ Hinv]. split; [done|].
      destruct st.2; [done|]. destruct Hinv as [He Hall]. split; [done|].
      intros gp' p' m [HA|[-> ->]] Hc; [by eapply Hall|by exists s, s1]. }
  apply bind_inv in H as (up & s2 & E2 & H). apply gets_inv in E2 as [-> ->].
  apply ret_inv in H as [-> ->]. split; [done|].
  destruct (sim_node _ _ _ Hgp Hg Hp) as (m & Hm & Hpm).
  pose proof (Hsame m Hm) as ->.
  destruct (best_update_some (_usePart (w_sched s1)) (n_resource_pntg n) (n_resource_pntg inp) p st
    Hpm Hpct Es) as [H200 [-> | [-> Hst]]].
  - split; [done|]. exists gp, n. split; [|by exists s, s1]. split; try done. by exists g.
  - destruct Hinv as [_ Hinv]. destruct st.2; [by split; [|apply Hinv]|]. by destruct Hinv.
Qed.

(** The loop over the GPUs. *)
Lemma gpu_step_inv pre gp st s st' s' :
  gp ∈ vGPUList sim ->
  best_inv (fun gp' _ => gp' ∈ pre) st s ->
  (g ← rd_gpu gp;
   if negb (String.eqb (g_TYPE g) (n_type inp)) then mret st
   else for_acc (g_vNodeList g) st (fit_step sim gp input excl)) s = Done (st', s') ->
  best_inv (fun gp' _ => gp' ∈ pre ++ [gp]) st' s'.
Proof.
  intros Hgp Hinv H. pose proof Hinv as [Hq _].
  apply bind_inv in H as (g & s1 & E & H). apply rd_gpu_inv in E as [Hg ->].
  rewrite (q_gpus _ _ Hq) in Hg. destruct (String.eqb_spec (g_TYPE g) (n_type inp)) as [Hty|Hty];
    cbn [negb] in H.
  - eapply best_inv_seen; [|].
    2:{ revert H. apply (for_acc_prefix (fun done => best_inv (fun gp' p' => gp' ∈ pre \/ (gp' = gp /\ p' ∈ done)))).
        - intros done p v s1 v' s2 Hp Hv Hrun.
          eapply best_inv_seen; [|eapply fit_step_inv; [exact Hgp|exact Hg|exact Hty|exact Hp|exact Hv|exact Hrun]].
          cbn. intros gp' p' n. set_solver.
        - eapply best_inv_seen; [|exact Hinv]. intros gp' p' n [H|[_ H]]; [done|by apply elem_of_nil in H]. }
    cbn. intros gp' p' n [H'|H']%elem_of_app Hc; [by left|]. apply list_elem_of_singleton in H' as ->.
    right. split; [done|]. destruct (cd_gpu _ _ _ _ _ _ _ Hc) as (g' & _ & Hg' & _ & Hp').
    congruence.
  - apply ret_inv in H as [-> ->]. eapply best_inv_seen; [|exact Hinv].
    intros gp' p' n [H'|H']%elem_of_app Hc; [done|]. apply list_elem_of_singleton in H' as ->.
    destruct (cd_gpu _ _ _ _ _ _ _ Hc) as (g' & _ & Hg' & Ht' & _). congruence.
Qed.

Lemma findBestFit_inv o w' :
  findBestFit sim input excl w = Done (o, w') ->
  quiet w w' /\
  match o with
  | Some p => exists gp n, candidate w sim inp excl gp p n /\ tested w sim input gp p true
  | None => forall gp p n, candidate w sim inp excl gp p n -> tested w sim input gp p false
  end.
Proof.
  intros H. unfold findBestFit in H.
  apply bind_inv in H as (i & s1 & E & H). apply rd_node_inv in E as [Hi ->].
  assert (i = inp) as -> by congruence.
  apply bind_inv in H as (st & s1 & E & H).
  assert (Hst : best_inv (fun gp _ => gp ∈ vGPUList sim) st s1).
  { revert E. apply (for_acc_prefix (fun done => best_inv (fun gp _ => gp ∈ done))).
    - intros done gp v s v' s' Hgp Hv Hrun. by eapply gpu_step_inv.
    - split; [done|]. cbn. split; [done|]. by intros gp p n ?%elem_of_nil. }
  destruct Hst as [Hq Hst]. destruct (Z.eqb_spec st.1 200) as [E2|E2];
    apply ret_inv in H as [-> ->]; (split; [done|]).
  - destruct st.2; [by destruct Hst|]. destruct Hst as [_ Hall]. intros gp p n Hc.
    apply (Hall gp p n); [|done]. by destruct (cd_gpu _ _ _ _ _ _ _ Hc) as (g & Hgp & _).
  - destruct st.2; [apply Hst|by destruct Hst].
Qed.
End Search.

(** ** Memory *)

(** Every node of the GPU and every task on them exists. *)
Definition valid_gpu (w : World) (g : GPU) : Prop :=
  forall np, np ∈ g_vNodeList g -> exists n, w_nodes w !! np = Some n /\
    forall tp, tp ∈ n_vTaskList n -> is_Some (w_tasks w !! tp).

(** Does a node of the GPU with the size and number of [n] run model [id]? *)
Definition task_is (w : World) (id : Z) (tp : TaskPtr) : bool :=
  match w_tasks w !! tp with Some t => (t_id t =? id)%Z | None => false end.
Definition hosts (w : World) (n : Node) (id : Z) (np : NodePtr) : bool :=
  match w_nodes w !! np with
  | Some n' => ((n_resource_pntg n' =? n_resource_pntg n) && (n_dedup_num n' =? n_dedup_num n))%Z
               && existsb (task_is w id) (n_vTaskList n')
  | None => false
  end.
Definition model_on (w : World) (g : GPU) (n : Node) (id : Z) : bool :=
  existsb (hosts w n id) (g_vNodeList g).

Lemma foldl_orb {A} (f : A -> bool) (l : list A) (b : bool) :
  foldl (fun b x => f x || b) b l = existsb f l || b.
Proof.
  revert b. induction l as [|x l IH]; intros b; [done|]. cbn. rewrite IH. by destruct (f x), (existsb f l), b.
Qed.

Section Memory.
Context (w : World) (gp : GPUPtr) (g : GPU) (np : NodePtr) (n : Node).
Context (Hg : w_gpus w !! gp = Some g) (Hn : w_nodes w !! np = Some n) (Hv : valid_gpu w g).

Lemma isPartLoaded_eval : isPartLoaded gp np w = Done (loaded (g_vLoadedParts g) n, w).
Proof.
  unfold isPartLoaded. rewrite (bind_done _ _ _ _ _ (rd_gpu_ok _ _ _ Hg)).
  by rewrite (bind_done _ _ _ _ _ (rd_node_ok _ _ _ Hn)).
Qed.

Lemma isModelLoaded_eval id :
  isModelLoaded gp np id w = Done (loaded (g_vLoadedParts g) n && model_on w g n id, w).
Proof.
  unfold isModelLoaded. rewrite (bind_done _ _ _ _ _ isPartLoaded_eval).
  destruct (loaded _ _); [|done]. cbn [negb andb].
  rewrite (bind_done _ _ _ _ _ (rd_gpu_ok _ _ _ Hg)).
  rewrite (for_acc_pure (fun b p => hosts w n id p || b)).
  - rewrite foldl_orb. by rewrite orb_false_r.
  - intros b p Hp. destruct (Hv p Hp) as (m & Hm & Ht).
    rewrite (bind_done _ _ _ _ _ (rd_node_ok _ _ _ Hm)).
    rewrite (bind_done _ _ _ _ _ (rd_node_ok _ _ _ Hn)). unfold hosts. rewrite Hm.
    destruct (_ && _)%Z; [|done]. cbn [andb].
    rewrite (for_acc_pure (fun b tp => task_is w id tp || b)); [by rewrite foldl_orb|].
    intros b' tp Htp. destruct (Ht tp Htp) as [t Et].
    rewrite (bind_done _ _ _ _ _ (rd_task_ok _ _ _ Et)). unfold task_is. rewrite Et.
    by destruct (_ =? _)%Z.
Qed.

(** What loading the model on the node costs. *)
Definition charge (id : Z) : Z :=
  i32 (mem_size (w_sched w) id + (if loaded (g_vLoadedParts g) n then 0 else DEFAULT_PYTORCH_MEM_USAGE)).
Definition charged (id : Z) : World :=
  set_w_gpus (<[gp := set_g_vLoadedParts (g_vLoadedParts g ++ [mkMemNode (n_resource_pntg n) (n_dedup_num n)])
    (set_g_used_memory (i32 (g_used_memory g + charge id)) g)]> (w_gpus w)) w.

Lemma doesFitMemLimit_eval id :
  mem_size (w_sched w) id <> 0%Z -> g_TOTAL_MEMORY g <> 0%Z ->
  doesFitMemLimit gp id np w =
  Done ((loaded (g_vLoadedParts g) n && model_on w g n id)
        || fits_memory (g_TOTAL_MEMORY g) (g_used_memory g) (charge id), w).
Proof.
  intros Hm Ht. unfold doesFitMemLimit.
  rewrite (bind_done sched _ w (w_sched w) w eq_refl).
  rewrite (bind_done _ _ _ _ _ (rd_gpu_ok _ _ _ Hg)).
  rewrite (bind_done _ _ w tt w) by (unfold massert; by rewrite (proj2 (Z.eqb_neq _ _) Hm)).
  rewrite (bind_done _ _ w tt w) by (unfold massert; by rewrite (proj2 (Z.eqb_neq _ _) Ht)).
  rewrite (bind_done _ _ _ _ _ (isModelLoaded_eval id)).
  destruct (_ && _); [done|]. rewrite (bind_done _ _ _ _ _ isPartLoaded_eval).
  cbn [orb]. done.
Qed.

Lemma addGPUMemUsage_eval id :
  mem_size (w_sched w) id <> 0%Z -> g_TOTAL_MEMORY g <> 0%Z ->
  addGPUMemUsage gp id np w =
    if loaded (g_vLoadedParts g) n && model_on w g n id then Done (EXIT_SUCCESS, w)
    else if fits_memory (g_TOTAL_MEMORY g) (g_used_memory g) (charge id)
         then Done (EXIT_SUCCESS, charged id) else Done (EXIT_FAILURE, w).
Proof.
  intros Hm Ht. unfold addGPUMemUsage. rewrite (bind_done _ _ _ _ _ (isModelLoaded_eval id)).
  destruct (loaded _ _ && model_on _ _ _ _) eqn:El; [done|].
  rewrite (bind_done _ _ _ _ _ isPartLoaded_eval).
  rewrite (bind_done _ _ _ _ _ (doesFitMemLimit_eval id Hm Ht)). rewrite El. cbn [orb].
  destruct (fits_memory _ _ _); [|done].
  rewrite (bind_done sched _ w (w_sched w) w eq_refl).
  rewrite (bind_done _ _ _ _ _ (rd_node_ok _ _ _ Hn)).
  unfold wr_gpu, mbind, M_bind, get, lift, deref, put. rewrite Hg. done.
Qed.

Lemma subtractGPUMemUsage_eval id :
  loaded (g_vLoadedParts g) n = true -> model_on w g n id = true ->
  (0 < mem_size (w_sched w) id <= 100000)%Z ->
  (mem_size (w_sched w) id <= g_used_memory g <= 300000)%Z ->
  subtractGPUMemUsage gp id np w = Done (EXIT_SUCCESS,
    set_w_gpus (<[gp := set_g_used_memory (g_used_memory g - mem_size (w_sched w) id) g]> (w_gpus w)) w).
Proof.
  intros Hl Hon Hm Hu.
  assert (Hi : i32 (g_used_memory g - mem_size (w_sched w) id) = (g_used_memory g - mem_size (w_sched w) id)%Z)
    by (apply i32_id; unfold in_i32, INT_MIN, INT_MAX; lia).
  unfold subtractGPUMemUsage. rewrite (bind_done _ _ _ _ _ isPartLoaded_eval), Hl.
  rewrite (bind_done _ _ w tt w) by done.
  rewrite (bind_done _ _ _ _ _ (isModelLoaded_eval id)), Hl, Hon. cbn [andb negb].
  rewrite (bind_done sched _ w (w_sched w) w eq_refl).
  rewrite (bind_done _ _ _ _ _ (rd_gpu_ok _ _ _ Hg)), Hi.
  replace (_ <? 0)%Z with false by (symmetry; apply Z.ltb_ge; lia).
  unfold wr_gpu, mbind, M_bind, get, lift, deref, put. by rewrite Hg, Hi.
Qed.

(** The node with the task that was just put on it. *)
Lemma pushed_model_on tp t id :
  np ∈ g_vNodeList g -> tp ∈ n_vTaskList n -> w_tasks w !! tp = Some t -> t_id t = id ->
  model_on w g n id = true.
Proof.
  intros Hnp Htp Ht Hid. unfold model_on. apply existsb_exists. exists np.
  split; [by apply list_elem_of_In|]. unfold hosts. rewrite Hn, !Z.eqb_refl.
  apply existsb_exists. exists tp. split; [by apply list_elem_of_In|].
  unfold task_is. by rewrite Ht, Hid, Z.eqb_refl.
Qed.
End Memory.

Lemma loaded_snoc l n : loaded (l ++ [mkMemNode (n_resource_pntg n) (n_dedup_num n)]) n = true.
Proof. unfold loaded. rewrite existsb_app. cbn. rewrite !Z.eqb_refl. by rewrite orb_true_r. Qed.

Lemma valid_gpu_push w g g' np n tp t :
  valid_gpu w g -> g_vNodeList g' = g_vNodeList g -> w_nodes w !! np = Some n ->
  w_tasks w !! tp = Some t ->
  valid_gpu (set_w_nodes (<[np := set_n_vTaskList [tp] n]> (w_nodes w)) w) g'.
Proof.
  intros Hv Hl Hn Ht q. rewrite Hl. intros Hq. cbn. destruct (decide (q = np)) as [->|Hne].
  - rewrite list_lookup_insert_eq by (by eapply lookup_lt_Some). eexists. split; [done|].
    intros tp' Htp'. apply list_elem_of_singleton in Htp' as ->. by exists t.
  - rewrite list_lookup_insert_ne by done. auto.
Qed.

(** ** Properties *)

(** C20: [findBestFit] is right about where a node of an estimate can go.  A node
    it returns lies on a GPU of the schedule of the wanted type, is empty, large
    enough and not excluded, and passed the admission test (memory limit, SLO,
    interference with its neighbour); when it reports failure, every such node
    was refused by that test.  Only caches and temporaries change. *)
Theorem findBestFit_correct sim input inp excl w o w' :
  wf_sim w sim -> w_nodes w !! input = Some inp -> pct (n_resource_pntg inp) ->
  findBestFit sim input excl w = Done (o, w') ->
  quiet w w' /\
  match o with
  | Some p => exists gp n, candidate w sim inp excl gp p n /\ tested w sim input gp p true
  | None => forall gp p n, candidate w sim inp excl gp p n -> tested w sim input gp p false
  end.
Proof. intros Hwf Hi Hp. by apply findBestFit_inv. Qed.

Lemma demo_estimate_calm p w' : demo_estimate demo_world = Done (p, w') -> calm demo_world w'.
Proof. intros H. unfold demo_estimate in H. calm_from H Hc. exact Hc. Qed.

Lemma findBestFit_correct_witness :
  match findBestFit demo_sim fit_start.1 [] fit_start.2 with
  | Done (o, w') => o = Some 1%nat /\
      exists gp n, candidate fit_start.2 demo_sim (default (raw_node demo_indet)
        (w_nodes fit_start.2 !! fit_start.1)) [] gp 1%nat n /\
        tested fit_start.2 demo_sim fit_start.1 gp 1%nat true
  | Stop _ => False
  end.
Proof.
  apply run_returns; [vm_compute; reflexivity|]. intros [o w'] H.
  assert (Ho : o = Some 1%nat) by (vm_compute in H; by injection H as <- _).
  split; [exact Ho|].
  assert (Hwf : wf_sim fit_start.2 demo_sim).
  { unfold fit_start. destruct (demo_estimate demo_world) as [[p w1]|] eqn:E; [|exact demo_wf].
    eapply calm_wf; [by eapply demo_estimate_calm|exact demo_wf]. }
  destruct (findBestFit_correct demo_sim fit_start.1
    (default (raw_node demo_indet) (w_nodes fit_start.2 !! fit_start.1)) [] fit_start.2 o w') as [_ Hr];
    [exact Hwf|vm_compute; reflexivity|vm_compute; split; discriminate|exact H|].
  rewrite Ho in Hr. exact Hr.
Defined.

(** Memory accounting, on every branch.  A model that already runs on the
    (loaded) partition costs nothing; otherwise the model's memory and, for a
    partition that is not loaded yet, 1230 MB of context are charged to this
    GPU alone and the partition is recorded - provided that this fits into the
    memory limit; if not, the call fails and nothing changes. *)
Lemma addGPUMemUsage_spec w gp g np n id r w' :
  w_gpus w !! gp = Some g -> w_nodes w !! np = Some n -> valid_gpu w g ->
  mem_size (w_sched w) id <> 0%Z -> g_TOTAL_MEMORY g <> 0%Z ->
  addGPUMemUsage gp id np w = Done (r, w') ->
  let present := loaded (g_vLoadedParts g) n && model_on w g n id in
  let fits := fits_memory (g_TOTAL_MEMORY g) (g_used_memory g) (charge w g n id) in
  (r = EXIT_FAILURE <-> present = false /\ fits = false) /\
  w_nodes w' = w_nodes w /\ w_tasks w' = w_tasks w /\ w_sched w' = w_sched w /\
  (forall q, q <> gp -> w_gpus w' !! q = w_gpus w !! q) /\
  exists g', w_gpus w' !! gp = Some g' /\ gshape g' = gshape g /\
    g_TOTAL_MEMORY g' = g_TOTAL_MEMORY g /\
    g_used_memory g' = (if negb present && fits then i32 (g_used_memory g + charge w g n id)
                        else g_used_memory g) /\
    (present = false -> fits = true -> loaded (g_vLoadedParts g') n = true).
Proof.
  intros Hg Hn Hv Hm Ht H present fits.
  rewrite (addGPUMemUsage_eval _ _ _ _ _ Hg Hn Hv _ Hm Ht) in H. fold present fits in H.
  assert (Hlt : (gp < length (w_gpus w))%nat) by (by eapply lookup_lt_Some).
  destruct present; [|destruct fits]; injection H as <- <-; cbn.
  - split; [by split; [|intros []]|]. split_and!; try done. by exists g.
  - split; [by split; [|intros []]|]. split_and!; try done.
    + intros q Hq. by rewrite list_lookup_insert_ne.
    + rewrite list_lookup_insert_eq by done. eexists. split; [done|]. split_and!; try done. intros _ _. apply loaded_snoc.
  - split; [done|]. split_and!; try done. by exists g.
Qed.

Definition mem_demo (parts : list MemNode) : World :=
  set_w_gpus [mkGPU 0 16000 2000 "A" parts [0%nat]]
    (set_w_nodes [mkNode [0%nat] fzero fzero 50 0 false 0 "A"]
      (set_w_tasks [demo_task 100] demo_world)).

Lemma mem_demo_valid parts : valid_gpu (mem_demo parts) (mkGPU 0 16000 2000 "A" parts [0%nat]).
Proof.
  intros np Hnp. cbn in Hnp. apply list_elem_of_singleton in Hnp as ->. eexists. split; [reflexivity|].
  intros tp Htp. cbn in Htp. apply list_elem_of_singleton in Htp as ->. by eexists.
Qed.

Lemma addGPUMemUsage_spec_witness :
  match addGPUMemUsage 0 7 0 (mem_demo []) with
  | Done (r, w') => r = EXIT_SUCCESS /\
      exists g', w_gpus w' !! 0%nat = Some g' /\ g_used_memory g' = 4230%Z
  | Stop _ => False
  end.
Proof.
  apply run_returns; [vm_compute; reflexivity|]. intros [r w'] H.
  destruct (addGPUMemUsage_spec (mem_demo []) 0 (mkGPU 0 16000 2000 "A" [] [0%nat]) 0
    (mkNode [0%nat] fzero fzero 50 0 false 0 "A") 7 r w') as (Hr & _ & _ & _ & _ & g' & Hg' & _ & _ & Hu & _);
    [reflexivity|reflexivity|apply mem_demo_valid|vm_compute; discriminate|discriminate|exact H|].
  split.
  - destruct r; [|reflexivity]. destruct (proj1 Hr eq_refl) as [_ Hf]. vm_compute in Hf. discriminate Hf.
  - exists g'. split; [exact Hg'|]. rewrite Hu. vm_compute. reflexivity.
Defined.

(** A model that is put on a partition another model has already loaded is
    never charged.  All callers push the task before [addGPUMemUsage] asks
    whether the model is loaded there, so it always is: the call succeeds
    without changing anything, however full the GPU is. *)
Lemma addGPUMemUsage_shared_free w gp g np n tp t :
  w_gpus w !! gp = Some g -> np ∈ g_vNodeList g -> w_nodes w !! np = Some n -> valid_gpu w g ->
  loaded (g_vLoadedParts g) n = true -> tp ∈ n_vTaskList n -> w_tasks w !! tp = Some t ->
  addGPUMemUsage gp (t_id t) np w = Done (EXIT_SUCCESS, w).
Proof.
  intros Hg Hnp Hn Hv Hl Htp Ht. unfold addGPUMemUsage.
  rewrite (bind_done _ _ _ _ _ (isModelLoaded_eval _ _ _ _ _ Hg Hn Hv (t_id t))), Hl.
  by rewrite (pushed_model_on _ _ _ _ Hn tp t (t_id t)).
Qed.

Lemma addGPUMemUsage_shared_free_witness :
  addGPUMemUsage 0 7 0 (mem_demo [mkMemNode 50 0]) = Done (EXIT_SUCCESS, mem_demo [mkMemNode 50 0]).
Proof.
  apply (addGPUMemUsage_shared_free (mem_demo [mkMemNode 50 0]) 0
    (mkGPU 0 16000 2000 "A" [mkMemNode 50 0] [0%nat]) 0 (mkNode [0%nat] fzero fzero 50 0 false 0 "A") 0
    (demo_task 100)); try reflexivity; [by left|apply mem_demo_valid|by left].
Defined.

(** Taking a model off again gives back its own memory only: the context
    of the partition stays charged and the partition stays recorded, so a
    placement that is undone costs 1230 MB for good. *)
Lemma subtract_keeps_context w gp g np n id w1 :
  w_gpus w !! gp = Some g -> w_nodes w !! np = Some n -> np ∈ g_vNodeList g -> valid_gpu w g ->
  loaded (g_vLoadedParts g) n = false -> n_vTaskList n = [] ->
  (0 < mem_size (w_sched w) id <= 100000)%Z -> (0 <= g_used_memory g <= 100000)%Z ->
  g_TOTAL_MEMORY g <> 0%Z ->
  addGPUMemUsage gp id np w = Done (EXIT_SUCCESS, w1) ->
  forall tp t, w_tasks w !! tp = Some t -> t_id t = id ->
  exists w2 g2,
    (_ ← wr_node np (set_n_vTaskList [tp]); subtractGPUMemUsage gp id np) w1 = Done (EXIT_SUCCESS, w2) /\
    w_gpus w2 !! gp = Some g2 /\
    g_used_memory g2 = (g_used_memory g + DEFAULT_PYTORCH_MEM_USAGE)%Z /\
    loaded (g_vLoadedParts g2) n = true.
Proof.
  intros Hg Hn Hnp Hv Hl He Hm Hu Ht H tp t Htp Hid.
  rewrite (addGPUMemUsage_eval _ _ _ _ _ Hg Hn Hv) in H by lia. rewrite Hl in H. cbn [andb] in H.
  destruct (fits_memory _ _ _); [|done]. injection H as <-.
  assert (Hused : i32 (g_used_memory g + charge w g n id) = (g_used_memory g + mem_size (w_sched w) id + 1230)%Z).
  { unfold charge, DEFAULT_PYTORCH_MEM_USAGE. rewrite Hl.
    rewrite (i32_id (_ + 1230)); rewrite ?i32_id; unfold in_i32, INT_MIN, INT_MAX; lia. }
  unfold charged. rewrite Hused.
  set (g1 := set_g_vLoadedParts _ _). set (w1 := set_w_gpus _ w). set (n1 := set_n_vTaskList [tp] n).
  assert (Hwr : wr_node np (set_n_vTaskList [tp]) w1 =
    Done (tt, set_w_nodes (<[np := n1]> (w_nodes w1)) w1)).
  { unfold wr_node, mbind, M_bind, get, lift, deref, put. change (w_nodes w1) with (w_nodes w). by rewrite Hn. }
  rewrite (bind_done _ _ _ _ _ Hwr). set (w1' := set_w_nodes _ w1).
  assert (Hlt : (gp < length (w_gpus w))%nat) by (by eapply lookup_lt_Some).
  assert (Hg1 : w_gpus w1' !! gp = Some g1) by (by apply list_lookup_insert_eq).
  assert (Hn1 : w_nodes w1' !! np = Some n1) by (apply list_lookup_insert_eq; by eapply lookup_lt_Some).
  assert (Hl1 : loaded (g_vLoadedParts g1) n1 = true) by apply (loaded_snoc _ n).
  rewrite (subtractGPUMemUsage_eval _ _ _ _ _ Hg1 Hn1 (valid_gpu_push w1 g g1 np n tp t Hv eq_refl Hn Htp) id Hl1);
    [|by eapply (pushed_model_on w1' g1 np n1 Hn1 tp t); [|by left|..]|done|cbn; lia].
  eexists _, _. split; [done|]. split; [cbn; apply list_lookup_insert_eq; by rewrite length_insert|].
  split; [cbn; unfold DEFAULT_PYTORCH_MEM_USAGE; lia|exact Hl1].
Qed.

Definition mem_empty : World :=
  set_w_nodes [mkNode [] fzero fzero 50 0 false 0 "A"] (mem_demo []).

Lemma subtract_keeps_context_witness :
  match addGPUMemUsage 0 7 0 mem_empty with
  | Done (r, w1) => r = EXIT_SUCCESS /\ exists w2 g2,
      (_ ← wr_node 0 (set_n_vTaskList [0%nat]); subtractGPUMemUsage 0 7 0) w1 = Done (EXIT_SUCCESS, w2) /\
      w_gpus w2 !! 0%nat = Some g2 /\ g_used_memory g2 = (2000 + DEFAULT_PYTORCH_MEM_USAGE)%Z /\
      loaded (g_vLoadedParts g2) (mkNode [] fzero fzero 50 0 false 0 "A") = true
  | Stop _ => False
  end.
Proof.
  apply run_returns; [vm_compute; reflexivity|]. intros [r w1] H.
  assert (Hr : r = EXIT_SUCCESS) by (vm_compute in H; by injection H as <- _). split; [exact Hr|].
  rewrite Hr in H.
  apply (subtract_keeps_context mem_empty 0 (mkGPU 0 16000 2000 "A" [] [0%nat]) 0
    (mkNode [] fzero fzero 50 0 false 0 "A") 7 w1) with (t := demo_task 100); try reflexivity.
  - by left.
  - intros np Hnp. cbn in Hnp. apply list_elem_of_singleton in Hnp as ->. eexists. split; [reflexivity|].
    intros tp Htp. by apply elem_of_nil in Htp.
  - vm_compute. split; [reflexivity|discriminate].
  - vm_compute. split; discriminate.
  - discriminate.
  - exact H.
Defined.
