(* ===== verification/SchedCopy.v ===== *)
(** * [copyToOutput]: the copy of a schedule

    The copy of a valid schedule is a new schedule with the same content that
    shares no object with the original, whose nodes and tasks are untouched;
    what changes in the original is the list of loaded partitions of its
    GPUs. *)
From Stdlib Require Import ZArith SpecFloat String Lia.
From S2P Require Import Prelude CppFloat CppStd LatencyModel DevPerfModel SchedData SchedUtils SchedBase SchedFrame IncrEstimate IncrFit IncrReadjust IncrSchedule Demo IncrFrame SchedInv IncrProps IncrFitProps.

(** Copying starts from [w0]: tasks, nodes and GPUs are only added, and the GPUs
    of [w0] keep everything but their list of loaded partitions. *)
Record extends (w0 w : World) : Prop := {
  ex_tasks : w_tasks w0 `prefix_of` w_tasks w;
  ex_nodes : w_nodes w0 `prefix_of` w_nodes w;
  ex_gpus : forall gp g, w_gpus w0 !! gp = Some g -> exists l,
    w_gpus w !! gp = Some (set_g_vLoadedParts l g);
  ex_indet : w_indet w = w_indet w0;
  ex_sched : w_sched w = w_sched w0 }.

Lemma set_loaded_self g : set_g_vLoadedParts (g_vLoadedParts g) g = g.
Proof. by destruct g. Qed.

#[global] Instance extends_preorder : PreOrder extends.
Proof.
  split.
  - intros w. split; try done. intros gp g Hg. exists (g_vLoadedParts g). by rewrite set_loaded_self.
  - intros a b c [] []. split; [by etrans|by etrans| |congruence|congruence].
    intros gp g Hg. destruct (ex_gpus0 _ _ Hg) as [l Hl]. destruct (ex_gpus1 _ _ Hl) as [l' Hl'].
    by exists l'.
Qed.

(** ** Copies of tasks, nodes and GPUs *)
Definition task_copy (w0 w : World) (tp tp' : TaskPtr) : Prop :=
  exists t, w_tasks w0 !! tp = Some t /\
    w_tasks w !! tp' = Some (copy_task_fields (w_indet w0) t) /\ (length (w_tasks w0) <= tp')%nat.

Definition node_copy (w0 w : World) (np np' : NodePtr) : Prop :=
  exists n l, w_nodes w0 !! np = Some n /\
    w_nodes w !! np' = Some (set_n_vTaskList l (copy_node_fields n)) /\
    Forall2 (task_copy w0 w) (n_vTaskList n) l /\ (length (w_nodes w0) <= np')%nat.

Definition gpu_copy (w0 w : World) (gp gp' : GPUPtr) : Prop :=
  exists g g', w_gpus w0 !! gp = Some g /\ w_gpus w !! gp' = Some g' /\
    g_GPUID g' = g_GPUID g /\ g_TYPE g' = g_TYPE g /\
    Forall2 (node_copy w0 w) (g_vNodeList g) (g_vNodeList g') /\ NoDup (g_vNodeList g') /\
    (length (w_gpus w0) <= gp')%nat.

Lemma task_copy_mono w0 w w' tp tp' :
  w_tasks w `prefix_of` w_tasks w' -> task_copy w0 w tp tp' -> task_copy w0 w' tp tp'.
Proof.
  intros Hp (t & Ht & Ht' & Hlt). exists t. split_and!; [done| |done]. by eapply prefix_lookup_Some.
Qed.
Lemma node_copy_mono w0 w w' np np' :
  w_tasks w `prefix_of` w_tasks w' -> w_nodes w `prefix_of` w_nodes w' ->
  node_copy w0 w np np' -> node_copy w0 w' np np'.
Proof.
  intros Hp Hq (n & l & Hn & Hn' & Hl & Hlt). exists n, l. split_and!; [done| | |done].
  - by eapply prefix_lookup_Some.
  - eapply Forall2_impl; [exact Hl|]. intros tp tp'. by apply task_copy_mono.
Qed.

Lemma nodes_copy_mono w0 w w' l l' :
  w_tasks w `prefix_of` w_tasks w' -> w_nodes w `prefix_of` w_nodes w' ->
  Forall2 (node_copy w0 w) l l' -> Forall2 (node_copy w0 w') l l'.
Proof. intros Hp Hq Hl. eapply Forall2_impl; [exact Hl|]. intros np np'. by apply node_copy_mono. Qed.

(** A valid schedule: every pointer reachable from it exists. *)
Definition valid_sim (w : World) (sim : SimState) : Prop :=
  forall gp, gp ∈ vGPUList sim -> exists g, w_gpus w !! gp = Some g /\ valid_gpu w g.

(** ** One node *)
Section CopyNode.
Context (w0 : World).

(** The loop over the tasks of a node: [s] is the state in which the new node
    was created, [c] the new node. *)
Record copying_tasks (s : World) (c : Node) (gpus : list GPU) (pre : list TaskPtr) (st : World) : Prop := {
  ct_ext : extends w0 st;
  ct_tasks : w_tasks s `prefix_of` w_tasks st;
  ct_gpus : w_gpus st = gpus;
  ct_nodes : exists l, w_nodes st = w_nodes s ++ [set_n_vTaskList l c] /\ Forall2 (task_copy w0 st) pre l }.

Lemma copy_task_step s c gpus pre tp t st :
  extends w0 s -> w_tasks w0 !! tp = Some t -> copying_tasks s c gpus pre st ->
  returns (t ← rd_task tp; i ← gets w_indet; new_task_ptr ← new_task (copy_task_fields i t);
           wr_node (length (w_nodes s)) (fun nn => set_n_vTaskList (n_vTaskList nn ++ [new_task_ptr]) nn))
    st (fun _ => copying_tasks s c gpus (pre ++ [tp])).
Proof.
  intros Hs Ht [He Hts Hg (l & Hn & Hl)].
  assert (Ht' : w_tasks st !! tp = Some t) by (eapply prefix_lookup_Some; [exact Ht|apply He]).
  eapply returns_read; [by apply rd_task_ok|]. eapply returns_read; [done|].
  set (st1 := set_w_tasks (w_tasks st ++ [copy_task_fields (w_indet st) t]) st).
  eapply returns_bind; [by apply (returns_intro _ _ (length (w_tasks st)) st1 (fun a s' =>
    a = length (w_tasks st) /\ s' = st1))|]. intros p s' [-> ->].
  assert (Hlen : w_nodes st1 !! length (w_nodes s) = Some (set_n_vTaskList l c)).
  { change (w_nodes st1) with (w_nodes st). rewrite Hn, lookup_app_r, Nat.sub_diag by done. done. }
  eapply returns_intro; [by apply wr_node_ok|]. cbn.
  assert (Hpre : w_tasks st `prefix_of` w_tasks st1) by (by eexists).
  rewrite Hn, insert_app_r_alt, Nat.sub_diag by done. cbn. split.
  - destruct He as [H1 H2 H3 H4 H5]. split; try done; cbn; [by etrans|]. etrans; [apply Hs|by eexists].
  - cbn. by etrans.
  - done.
  - exists (l ++ [length (w_tasks st)]). split; [done|]. apply Forall2_app.
    + eapply Forall2_impl; [exact Hl|]. intros a b. by apply task_copy_mono.
    + constructor; [|done]. exists t. split_and!; [done| |].
      * cbn. rewrite lookup_app_r, Nat.sub_diag by done. cbn. by rewrite (ex_indet _ _ He).
      * apply prefix_length, He.
Qed.

(** The effect of copying [np] of the GPU [gp] to the new GPU [ngp]. *)
Record node_copied (s s' : World) (gp ngp : GPUPtr) (np : NodePtr) : Prop := {
  nc_ext : extends w0 s';
  nc_tasks : w_tasks s `prefix_of` w_tasks s';
  nc_nodes : w_nodes s `prefix_of` w_nodes s';
  nc_len : length (w_nodes s') = S (length (w_nodes s));
  nc_copy : node_copy w0 s' np (length (w_nodes s));
  nc_gpus : forall q, q <> gp -> w_gpus s' !! q =
    (if decide (q = ngp) then (fun g => set_g_vNodeList (g_vNodeList g ++ [length (w_nodes s)]) g) <$> w_gpus s !! q
     else w_gpus s !! q);
  nc_num : length (w_gpus s') = length (w_gpus s) }.

(** The partition is recorded on the GPU of the original. *)
Lemma record_part gp s (n : Node) (b : bool) g0 :
  extends w0 s -> w_gpus w0 !! gp = Some g0 ->
  returns (when b (wr_gpu gp (fun g => set_g_vLoadedParts
    (g_vLoadedParts g ++ [mkMemNode (n_resource_pntg n) (n_dedup_num n)]) g))) s
    (fun _ s' => extends w0 s' /\ w_tasks s' = w_tasks s /\ w_nodes s' = w_nodes s /\
       (forall q, q <> gp -> w_gpus s' !! q = w_gpus s !! q) /\ length (w_gpus s') = length (w_gpus s)).
Proof.
  intros He Hg. destruct b; [|done]. destruct (ex_gpus _ _ He _ _ Hg) as [l Hl].
  eapply returns_intro; [by apply wr_gpu_ok|]. cbn. split_and!; try done.
  - destruct He as [H1 H2 H3 H4 H5]. split; try done; cbn. intros q g Hq.
    destruct (decide (q = gp)) as [->|Hne].
    + rewrite list_lookup_insert_eq by (by eapply lookup_lt_Some).
      assert (g = g0) as -> by congruence. by eexists.
    + rewrite list_lookup_insert_ne by done. auto.
  - intros q Hq. by rewrite list_lookup_insert_ne.
  - by rewrite length_insert.
Qed.

Lemma copy_node_step s gp ngp np n g0 ng :
  extends w0 s -> w_gpus w0 !! gp = Some g0 -> w_gpus s !! ngp = Some ng ->
  (length (w_gpus w0) <= ngp)%nat -> w_nodes w0 !! np = Some n ->
  (forall tp, tp ∈ n_vTaskList n -> is_Some (w_tasks w0 !! tp)) ->
  returns (copy_node gp ngp np) s (fun _ s' => node_copied s s' gp ngp np).
Proof.
  intros He Hg Hng Hlt Hn Ht. unfold copy_node.
  assert (Hgp : (gp < length (w_gpus w0))%nat) by (by eapply lookup_lt_Some).
  eapply returns_read; [apply rd_node_ok; eapply prefix_lookup_Some; [exact Hn|apply He]|].
  set (c := copy_node_fields n). set (s1 := set_w_nodes (w_nodes s ++ [c]) s).
  eapply returns_bind; [by apply (returns_intro _ _ (length (w_nodes s)) s1 (fun a s' =>
    a = length (w_nodes s) /\ s' = s1))|]. intros p s' [-> ->].
  assert (He1 : extends w0 s1).
  { destruct He as [H1 H2 H3 H4 H5]. split; try done; cbn. etrans; [exact H2|by eexists]. }
  eapply returns_bind; [by apply (record_part gp s1 n _ g0)|].
  intros u2 s2 (He2 & Ht2 & Hn2 & Hg2 & Hl2). cbn in *.
  eapply returns_bind.
  { apply (returns_for_each (copying_tasks s c (w_gpus s2))).
    - intros pre tp st Htp Hst. destruct (Ht tp Htp) as [t Et]. by eapply copy_task_step.
    - split; [done|by rewrite Ht2|done|]. exists []. split; [|done]. by rewrite Hn2. }
  intros u3 s3 [He3 Ht3 Hg3 (l & Hn3 & Hl3)].
  assert (Hng3 : w_gpus s3 !! ngp = Some ng) by (rewrite Hg3, Hg2; [done|lia]).
  eapply returns_intro; [by apply wr_gpu_ok|].
  split; cbn; rewrite ?length_insert, ?Hg3; try done.
  - destruct He3 as [H1 H2 H3 H4 H5]. split; try done; cbn. intros q g Hq.
    rewrite list_lookup_insert_ne; [by rewrite <- Hg3; auto|]. apply lookup_lt_Some in Hq. lia.
  - rewrite Hn3. by eexists.
  - rewrite Hn3, length_app. cbn. lia.
  - exists n, l. cbn. split_and!; [done| |done|apply prefix_length, He].
    rewrite Hn3, lookup_app_r, Nat.sub_diag by done. done.
  - intros q Hq. rewrite <- Hg3. case_decide as Hd.
    + subst q. rewrite list_lookup_insert_eq by (by eapply lookup_lt_Some). by rewrite Hng.
    + rewrite list_lookup_insert_ne by done. rewrite Hg3. auto.
Qed.
End CopyNode.

(** ** One GPU, and the whole schedule *)
Section CopyGpu.
Context (w0 : World).

Lemma gpu_copy_mono w w' gp gp' :
  w_tasks w `prefix_of` w_tasks w' -> w_nodes w `prefix_of` w_nodes w' ->
  w_gpus w' !! gp' = w_gpus w !! gp' -> gpu_copy w0 w gp gp' -> gpu_copy w0 w' gp gp'.
Proof.
  intros Hp Hq Hg (g & g' & H1 & H2 & H3 & H4 & H5 & H6 & H7). exists g, g'.
  split_and!; try done; [by rewrite Hg|by eapply nodes_copy_mono].
Qed.

(** The loop over the nodes of [gp]; [s] is the state before the new GPU. *)
Record copying_nodes (s : World) (gp : GPUPtr) (g : GPU) (pre : list NodePtr) (st : World) : Prop := {
  cn_ext : extends w0 st;
  cn_tasks : w_tasks s `prefix_of` w_tasks st;
  cn_nodes : w_nodes s `prefix_of` w_nodes st;
  cn_num : length (w_gpus st) = S (length (w_gpus s));
  cn_gpus : forall q, q <> gp -> q <> length (w_gpus s) -> w_gpus st !! q = w_gpus s !! q;
  cn_new : exists g', w_gpus st !! length (w_gpus s) = Some g' /\
    g_GPUID g' = g_GPUID g /\ g_TYPE g' = g_TYPE g /\
    Forall2 (node_copy w0 st) pre (g_vNodeList g') /\ NoDup (g_vNodeList g') /\
    Forall (fun p => p < length (w_nodes st))%nat (g_vNodeList g') }.

Lemma copy_gpu_step s gp g :
  extends w0 s -> (length (w_gpus w0) <= length (w_gpus s))%nat ->
  w_gpus w0 !! gp = Some g -> valid_gpu w0 g ->
  returns (copy_gpu gp) s (fun ngp st => ngp = length (w_gpus s) /\
    copying_nodes s gp g (g_vNodeList g) st).
Proof.
  intros He Hlen Hg Hv. unfold copy_gpu. destruct (ex_gpus _ _ He _ _ Hg) as [l Hl].
  eapply returns_read; [by apply rd_gpu_ok|]. eapply returns_read; [done|]. cbn [g_vNodeList set_g_vLoadedParts].
  set (ng := copy_gpu_fields _ _). set (s1 := set_w_gpus (w_gpus s ++ [ng]) s).
  assert (Hgp : (gp < length (w_gpus w0))%nat) by (by eapply lookup_lt_Some).
  eapply returns_bind; [by apply (returns_intro _ _ (length (w_gpus s)) s1 (fun a s' =>
    a = length (w_gpus s) /\ s' = s1))|]. intros ngp s' [-> ->].
  eapply returns_bind with (Q1 := fun _ => copying_nodes s gp g (g_vNodeList g)).
  2:{ intros u st Hst. by apply (returns_intro _ _ (length (w_gpus s)) st). }
  apply (returns_for_each (copying_nodes s gp g)).
  - intros pre np st Hnp Hst. destruct (Hv np Hnp) as (n & Hn & Ht).
    destruct Hst as [He2 Ht2 Hn2 Hl2 Hg2 (g' & Hg' & Hid & Hty & Hnodes & Hnd & Hlt)].
    eapply returns_weaken; [by eapply (copy_node_step w0 st gp (length (w_gpus s)) np n g g')|].
    intros u s' [E1 E2 E3 E4 E5 E6 E7]. split; [done|by etrans|by etrans|congruence| |].
    + intros q Hq Hq'. rewrite E6, decide_False by done. auto.
    + rewrite E6, decide_True, Hg' by (done || lia). eexists. split; [done|]. cbn. split_and!; try done.
      * apply Forall2_app; [by eapply nodes_copy_mono|]. by constructor.
      * apply NoDup_app. split_and!; [done| |apply NoDup_singleton].
        intros p Hp Hp'. apply list_elem_of_singleton in Hp' as ->.
        rewrite Forall_forall in Hlt. specialize (Hlt _ Hp). lia.
      * rewrite E4. apply Forall_app. split; [|by constructor; [lia|]].
        eapply Forall_impl; [exact Hlt|]. cbn. lia.
  - split; cbn; try done.
    + destruct He as [H1 H2 H3 H4 H5]. split; try done; cbn. intros q g' Hq.
      rewrite lookup_app_l; [auto|]. apply lookup_lt_Some in Hq. lia.
    + rewrite length_app. cbn. lia.
    + intros q Hq Hq'. rewrite lookup_app. destruct (w_gpus s !! q) eqn:E; [done|].
      apply lookup_ge_None in E. apply lookup_ge_None. cbn. lia.
    + rewrite lookup_app_r, Nat.sub_diag by done. eexists. split; [done|]. split_and!; try done.
      by apply NoDup_nil.
Qed.

Lemma gpu_copies_fresh st pre acc :
  Forall2 (gpu_copy w0 st) pre acc -> forall q, q ∈ acc -> (length (w_gpus w0) <= q)%nat.
Proof.
  induction 1 as [|p q pre acc Hpq _ IH]; intros r Hr; [by apply elem_of_nil in Hr|].
  apply elem_of_cons in Hr as [->|Hr]; [|by apply IH].
  by destruct Hpq as (? & ? & _ & _ & _ & _ & _ & _ & ?).
Qed.

Record copying_gpus (pre acc : list GPUPtr) (st : World) : Prop := {
  cg_ext : extends w0 st;
  cg_len : (length (w_gpus w0) <= length (w_gpus st))%nat;
  cg_copy : Forall2 (gpu_copy w0 st) pre acc;
  cg_nodup : NoDup acc;
  cg_lt : Forall (fun p => p < length (w_gpus st))%nat acc }.

Lemma copy_gpus_run l :
  (forall gp, gp ∈ l -> exists g, w_gpus w0 !! gp = Some g /\ valid_gpu w0 g) ->
  returns (for_acc l [] (fun acc gp => new_gpu_ptr ← copy_gpu gp; mret (acc ++ [new_gpu_ptr]))) w0
    (copying_gpus l).
Proof.
  intros Hl. apply (returns_for_acc copying_gpus).
  - intros pre gp acc st Hgp [He Hlen Hcopy Hnd Hlt]. destruct (Hl gp Hgp) as (g & Hg & Hv).
    eapply returns_bind; [by eapply copy_gpu_step|].
    intros ngp s' [-> [E1 E2 E3 E4 E5 (g' & Hg' & Hid & Hty & Hnodes & Hnd' & Hlt')]].
    eapply returns_intro; [done|]. split; [done|lia| | |].
    + apply Forall2_app.
      * assert (Hacc : forall q, q ∈ acc -> w_gpus s' !! q = w_gpus st !! q).
        { intros q Hq. rewrite Forall_forall in Hlt. specialize (Hlt _ Hq). apply E5; [|lia].
          apply lookup_lt_Some in Hg. pose proof (gpu_copies_fresh _ _ _ Hcopy q Hq). lia. }
        clear Hnd Hlt Hl. induction Hcopy as [|p q pre acc Hpq _ IH]; constructor.
        -- eapply gpu_copy_mono; [exact E2|exact E3|apply Hacc; by left|done].
        -- apply IH. intros r Hr. apply Hacc. by right.
      * constructor; [|done]. exists g, g'. split_and!; try done.
    + apply NoDup_app. split_and!; [done| |apply NoDup_singleton].
      intros p Hp Hp'. apply list_elem_of_singleton in Hp' as ->.
      rewrite Forall_forall in Hlt. specialize (Hlt _ Hp). lia.
    + rewrite E4. apply Forall_app. split; [|by constructor; [lia|]].
      eapply Forall_impl; [exact Hlt|]. cbn. lia.
  - split; try done. by apply NoDup_nil.
Qed.
End CopyGpu.

(** ** Properties *)

(** C32: [copyToOutput] makes a deep copy.  For a valid schedule it returns, and
    the GPUs, nodes and tasks of the result are all new objects (distinct
    where they have to be) with the same contents, in the same order; the
    original's nodes and tasks are not touched, and of its GPUs only the list
    of loaded partitions changes. *)
Theorem copyToOutput_deep input output w :
  valid_sim w input ->
  returns (copyToOutput input output) w (fun out w' =>
    extends w w' /\ Forall2 (gpu_copy w w') (vGPUList input) (vGPUList out) /\
    NoDup (vGPUList out) /\ (forall gp, gp ∈ vGPUList out -> (length (w_gpus w) <= gp)%nat) /\
    parts out = parts input).
Proof.
  intros Hv. unfold copyToOutput. eapply returns_bind; [by apply copy_gpus_run|].
  intros acc w' [He _ Hc Hnd _]. eapply returns_intro; [done|]. cbn.
  split_and!; try done. by eapply gpu_copies_fresh.
Qed.

Lemma copyToOutput_deep_witness :
  let w := fit_start.2 in
  valid_sim w demo_sim /\
  returns (copyToOutput demo_sim (mkSimState [] [] 5)) w (fun out w' =>
    extends w w' /\ Forall2 (gpu_copy w w') (vGPUList demo_sim) (vGPUList out) /\
    NoDup (vGPUList out) /\ (forall gp, gp ∈ vGPUList out -> (length (w_gpus w) <= gp)%nat) /\
    parts out = parts demo_sim).
Proof.
  intros w. assert (Hv : valid_sim w demo_sim).
  { assert (Hall : Forall (fun gp => match w_gpus w !! gp with
      | Some g => Forall (fun np => match w_nodes w !! np with
          | Some n => n_vTaskList n = [] | None => False end) (g_vNodeList g)
      | None => False end) (vGPUList demo_sim)) by (vm_compute; repeat constructor).
    intros gp Hgp. rewrite Forall_forall in Hall. specialize (Hall gp Hgp).
    destruct (w_gpus w !! gp) as [g|]; [|done]. exists g. split; [done|]. intros np Hnp.
    rewrite Forall_forall in Hall. specialize (Hall np Hnp). destruct (w_nodes w !! np) as [n|]; [|done].
    exists n. split; [done|]. intros tp Htp. rewrite Hall in Htp. by apply elem_of_nil in Htp. }
  split; [exact Hv|]. exact (copyToOutput_deep demo_sim (mkSimState [] [] 5) w Hv).
Defined.
