(* ===== verification/SetupProps.v ===== *)
(** * Properties of the set-up: what the configuration files become. *)
From Stdlib Require Import ZArith SpecFloat String Sorted Lia.
From S2P Require Import Prelude CppFloat CppStd Json LatencyModel DevPerfModel SchedData SchedUtils SchedBase Setup IncrSchedule Demo SchedInv BaseProps.

(** ** The byte table of the network checker *)
Record TaskSpec : Type := mkTaskSpec { ts_id : Z; ts_dims : list Z; ts_type : string }.

Definition task_json (t : TaskSpec) : Value :=
  JObject [("input_dim", JArray (map JInt (ts_dims t))); ("input_type", JString (ts_type t));
           ("proxy_id", JInt (ts_id t))]%string.
Definition models_json (ts : list TaskSpec) : Value :=
  JObject [("Models"%string, JArray (map task_json ts))].

Definition zprod (zs : list Z) : Z := foldr Z.mul 1%Z zs.

(** The reference: the sizes in bytes, up to the first unknown type. *)
Fixpoint load_sizes (ts : list TaskSpec) (table : gmap Z Z) : bool * gmap Z Z :=
  match ts with
  | [] => (EXIT_SUCCESS, table)
  | t :: ts' =>
      match type_bytes (ts_type t) with
      | None => (EXIT_FAILURE, table)
      | Some bytes => load_sizes ts' (<[ts_id t := (zprod (ts_dims t) * bytes)%Z]> table)
      end
  end.

(** Identifiers are [int]s, dimensions are positive and no size overflows. *)
Definition spec_fits (t : TaskSpec) : Prop :=
  in_i32 (ts_id t) /\ Forall (fun d => 1 <= d)%Z (ts_dims t) /\
  (zprod (ts_dims t) * 8 <= INT_MAX)%Z.

Lemma zprod_pos ds : Forall (fun d => 1 <= d)%Z ds -> (1 <= zprod ds)%Z.
Proof. induction 1; cbn; [done|]. unfold zprod in IHForall. nia. Qed.

(** Positive factors of a product that fits fit, and so do the partial
    products. *)
Lemma size_loop ds : Forall (fun d => 1 <= d)%Z ds -> forall acc, (1 <= acc)%Z ->
  (acc * zprod ds <= INT_MAX)%Z ->
  Forall in_i32 ds /\ foldl (fun size d => i32 (size * d)) acc ds = (acc * zprod ds)%Z.
Proof.
  induction 1 as [|d ds Hd Hds IH]; intros acc Hacc Hmax; cbn; [split; [done|lia]|].
  change (foldr Z.mul 1%Z ds) with (zprod ds). cbn in Hmax. change (foldr Z.mul 1%Z ds) with (zprod ds) in Hmax.
  pose proof (zprod_pos ds Hds) as Hp.
  assert (acc * d <= acc * d * zprod ds)%Z by nia. assert (d <= acc * d)%Z by nia.
  assert (Hi : forall z, (1 <= z <= INT_MAX)%Z -> in_i32 z) by (unfold in_i32, INT_MIN, INT_MAX; lia).
  rewrite i32_id by (apply Hi; lia).
  destruct (IH (acc * d)%Z) as [H1 H2]; [nia|nia|]. split; [constructor; [apply Hi; lia|done]|].
  rewrite H2. ring.
Qed.

Lemma input_elements_prod ds :
  Forall (fun d => 1 <= d)%Z ds -> (zprod ds * 8 <= INT_MAX)%Z ->
  input_elements (JArray (map JInt ds)) = Done (zprod ds).
Proof.
  intros Hd Hm. pose proof (zprod_pos ds Hd) as Hp.
  destruct (size_loop ds Hd 1%Z) as [H1 H2]; [lia|lia|].
  unfold input_elements. rewrite int_elements_ints by done. cbn. rewrite H2. by rewrite Z.mul_1_l.
Qed.

Lemma asInt_i32 z : in_i32 z -> asInt (JInt z) = Done z.
Proof. intros H. cbn. unfold in_i32, minInt, maxInt in *. by rewrite !(proj2 (Z.leb_le _ _)) by lia. Qed.

Lemma lift_member {T A} v key x (f : Value -> outcome A) a (s : T) :
  member v key = Done x -> f x = Done a -> lift (v ← member v key; f v) s = Done (a, s).
Proof. intros H1 H2. unfold lift, mbind, outcome_bind. by rewrite H1, H2. Qed.

Lemma type_bytes_cases ty b : type_bytes ty = Some b -> b = 4%Z \/ b = 8%Z.
Proof. unfold type_bytes. repeat case_match; intros [= <-]; auto. Qed.

Lemma task_bytes_step pre t ts table :
  spec_fits t ->
  task_bytes (JArray (map task_json (pre ++ t :: ts))) (length pre) table =
  match type_bytes (ts_type t) with
  | None => Done (Some EXIT_FAILURE, table)
  | Some bytes => Done (None, <[ts_id t := (zprod (ts_dims t) * bytes)%Z]> table)
  end.
Proof.
  intros (Hid & Hd & Hm). unfold task_bytes.
  rewrite (bind_done _ _ table (task_json t) table).
  2:{ unfold element. rewrite List.map_app, List.map_cons, list_lookup_middle by (by rewrite length_map). done. }
  rewrite (bind_done _ _ table (ts_id t) table).
  2:{ apply (lift_member (task_json t) _ (JInt (ts_id t))); [done|by apply asInt_i32]. }
  rewrite (bind_done _ _ table (zprod (ts_dims t)) table).
  2:{ apply (lift_member (task_json t) _ (JArray (map JInt (ts_dims t)))); [done|by apply input_elements_prod]. }
  rewrite (bind_done _ _ table (ts_type t) table) by done.
  destruct (type_bytes (ts_type t)) as [b|] eqn:E; [|done]. mred.
  pose proof (zprod_pos _ Hd). rewrite i32_id; [done|].
  apply type_bytes_cases in E. unfold in_i32, INT_MIN, INT_MAX in *. lia.
Qed.

Lemma task_bytes_loop ts pre table :
  Forall spec_fits ts ->
  (r ← for_ret (seq (length pre) (length ts)) (task_bytes (JArray (map task_json (pre ++ ts))));
   mret (match r with Some failed => failed | None => EXIT_SUCCESS end)) table =
  Done (load_sizes ts table).
Proof.
  intros H. revert pre table. induction H as [|t ts Ht Hts IH]; intros pre table; [done|].
  cbn [length seq for_ret load_sizes].
  pose proof (task_bytes_step pre t ts table Ht) as Hs.
  destruct (type_bytes (ts_type t)) as [b|].
  - unfold mbind at 1, M_bind at 1. rewrite (bind_done _ _ _ _ _ Hs).
    specialize (IH (pre ++ [t]) (<[ts_id t := (zprod (ts_dims t) * b)%Z]> table)).
    replace (length (pre ++ [t])) with (Datatypes.S (length pre)) in IH by (rewrite length_app; cbn; lia).
    rewrite <- app_assoc in IH. exact IH.
  - unfold mbind at 1, M_bind at 1. by rewrite (bind_done _ _ _ _ _ Hs).
Qed.

(** Loading the input dimensions of the tasks computes, for every task of
    the file, the exact number of bytes of one request: the product of the
    dimensions times 4 (FP32) or 8 (INT64).  A type it does not know ends the
    set-up with EXIT_FAILURE, and the entries before it stay in the table. *)
Lemma setupPerTaskInputDimension_sizes ts table :
  Forall spec_fits ts ->
  setupPerTaskInputDimension (Some (models_json ts)) table = Done (load_sizes ts table).
Proof.
  intros H. unfold setupPerTaskInputDimension.
  rewrite (bind_done _ _ table (JArray (map task_json ts)) table) by done.
  cbn [size]. rewrite length_map. exact (task_bytes_loop ts [] table H).
Qed.

Definition demo_tasks : list TaskSpec :=
  [mkTaskSpec 1 [1; 28; 28] "FP32"; mkTaskSpec 5 [1; 14] "INT64"; mkTaskSpec 7 [3; 224; 224] "FP16"]%Z.

Lemma setupPerTaskInputDimension_sizes_witness :
  Forall spec_fits demo_tasks /\
  setupPerTaskInputDimension (Some (models_json demo_tasks)) ∅ =
    Done (EXIT_FAILURE, <[5%Z := 112%Z]> (<[1%Z := 3136%Z]> ∅)).
Proof.
  assert (H : Forall spec_fits demo_tasks).
  { repeat constructor; unfold in_i32, INT_MIN, INT_MAX; vm_compute; discriminate. }
  split; [exact H|]. exact (setupPerTaskInputDimension_sizes demo_tasks ∅ H).
Defined.

(** ** [setupScheduler] *)
Definition listed_parts (root : Value) : outcome (list Z) :=
  v ← member root "Avail_Parts"; int_elements v.

Lemma push_parts_in parts avail p :
  p ∈ foldl push_part avail parts <-> p ∈ avail \/ p ∈ parts.
Proof.
  revert avail. induction parts as [|x parts IH]; intros avail; cbn; [set_solver|].
  rewrite IH. unfold push_part. case_decide; set_solver.
Qed.
Lemma push_parts_nodup parts avail : NoDup avail -> NoDup (foldl push_part avail parts).
Proof.
  revert avail. induction parts as [|x parts IH]; intros avail H; cbn; [done|].
  apply IH. unfold push_part. case_decide; [done|]. apply NoDup_app. split; [done|].
  split; [set_solver|apply NoDup_singleton].
Qed.

Lemma push_loop avail_json ks w u w' :
  for_each ks (fun i =>
    part ← lift (e ← element avail_json i; asInt e);
    mod_sched (fun s => set_availParts (push_part (_availParts s) part) s)) w = Done (u, w') ->
  exists zs,
    foldr (fun i acc => e ← element avail_json i; z ← asInt e; zs ← acc; mret (z :: zs)) (mret []) ks = Done zs /\
    w' = set_w_sched (set_availParts (foldl push_part (_availParts (w_sched w)) zs) (w_sched w)) w.
Proof.
  revert w. induction ks as [|k ks IH]; intros w H; cbn in H.
  { apply ret_inv in H as [_ ->]. exists []. split; [done|]. by destruct w as [[] ? ? ? ?]. }
  apply bind_inv in H as ([] & w1 & E & H). apply bind_inv in E as (z & w2 & E1 & E2).
  apply lift_inv in E1 as [E1 ->]. apply modify_inv in E2 as ->.
  apply IH in H as (zs & Hf & ->). exists (z :: zs). split.
  - cbn. apply obind_inv in E1 as (e & E1 & E2). unfold mbind, outcome_bind in *.
    by rewrite E1, E2, Hf.
  - done.
Qed.

(** Distinct parts sorted with [std::greater] are strictly decreasing. *)
Lemma sort_greater_strict l : NoDup l ->
  StronglySorted (fun x y => y < x)%Z (std_sort (fun a b => b <? a)%Z l).
Proof.
  intros Hn. set (gt := fun a b => (b <? a)%Z).
  assert (Hs : StronglySorted (le_comp gt) (std_sort gt l)).
  { apply std_sort_sorted; unfold gt; intros *; rewrite ?Z.ltb_lt, ?Z.ltb_ge; lia. }
  assert (Hd : NoDup (std_sort gt l)) by (by rewrite std_sort_perm).
  revert Hd. induction Hs as [|x r Hs IH Hx]; intros Hd; [constructor|].
  apply NoDup_cons in Hd as [Hxr Hd]. constructor; [by apply IH|].
  rewrite List.Forall_forall in Hx |- *. intros y Hy. specialize (Hx y Hy).
  unfold le_comp, gt in Hx. apply Z.ltb_ge in Hx.
  assert (x <> y) by (intros ->; apply Hxr; by apply list_elem_of_In). lia.
Qed.

(** The objects of the store are not touched. *)
Definition same_heap (w w' : World) : Prop :=
  w_tasks w' = w_tasks w /\ w_nodes w' = w_nodes w /\ w_gpus w' = w_gpus w.
#[global] Instance same_heap_preorder : PreOrder same_heap.
Proof.
  split; [intros w; done|]. intros a b c (? & ? & ?) (? & ? & ?). split_and!; congruence.
Qed.
Lemma mod_sched_heap f : preserves same_heap (mod_sched f).
Proof. by apply preserves_modify. Qed.
#[export] Hint Resolve mod_sched_heap : frame.

Lemma setupScheduler_heap config : preserves same_heap (setupScheduler config).
Proof. unfold setupScheduler, add_gpu, read_incremental, read_tuning, read_parts, sched. preserve. Qed.

Definition same_parts (w w' : World) : Prop := _availParts (w_sched w') = _availParts (w_sched w).
#[global] Instance same_parts_preorder : PreOrder same_parts.
Proof. split; [done|]. intros a b c H1 H2. unfold same_parts in *. congruence. Qed.
Lemma add_gpus_parts l w u w' : for_each l add_gpu w = Done (u, w') -> same_parts w w'.
Proof.
  apply (preserves_for_each same_parts). intros gpu. unfold add_gpu, mod_sched. preserve.
  by apply preserves_modify.
Qed.

Lemma read_incremental_parts root : preserves same_parts (read_incremental root).
Proof. unfold read_incremental, mod_sched. preserve; by apply preserves_modify. Qed.

Lemma read_tuning_spec root w u w' :
  read_tuning root w = Done (u, w') -> same_parts w w' /\
  (isMember root "Self Tuning" = Done true -> _useInterference (w_sched w') = false).
Proof.
  intros H. apply bind_inv in H as (b & w1 & E & H). apply lift_inv in E as [-> ->].
  destruct b; cbn [when] in H; [|by apply ret_inv in H as [_ ->]].
  unfold mod_sched in H. minv H. done.
Qed.

Lemma read_parts_spec avail w u w' :
  read_parts avail w = Done (u, w') -> exists zs, int_elements avail = Done zs /\
  w' = set_w_sched (set_availParts
         (std_sort (fun a b => b <? a)%Z (foldl push_part (_availParts (w_sched w)) zs)) (w_sched w)) w.
Proof.
  intros H. apply bind_inv in H as (u1 & w1 & E & H). apply push_loop in E as (zs & Hz & ->).
  apply modify_inv in H as ->. by exists zs.
Qed.

(** C38: a successful [setupScheduler] leaves the partition sizes strictly
    decreasing and without duplicates, exactly those available before and those
    listed in the file; the latency ratio is at least 1; naming self tuning in
    the file turns the interference model off; no task, node or GPU is touched. *)
Theorem setupScheduler_spec root w w' :
  NoDup (_availParts (w_sched w)) ->
  setupScheduler (Some root) w = Done (EXIT_SUCCESS, w') ->
  StronglySorted (fun x y => y < x)%Z (_availParts (w_sched w')) /\
  (exists zs, listed_parts root = Done zs /\
     forall p, p ∈ _availParts (w_sched w') <-> p ∈ _availParts (w_sched w) \/ p ∈ zs) /\
  leb (i2f 1) (_latencyRatio (w_sched w')) = true /\
  (isMember root "Self Tuning" = Done true -> _useInterference (w_sched w') = false) /\
  same_heap w w'.
Proof.
  intros Hn H. pose proof (setupScheduler_heap _ _ _ _ H) as Hh.
  cbn [setupScheduler] in H.
  apply bind_inv in H as (gpus & w1 & E1 & H). apply lift_inv in E1 as [_ ->].
  apply bind_inv in H as (u1 & w1 & E1 & H). apply add_gpus_parts in E1 as Hp1.
  unfold mod_sched, sched in H. minv H.
  lazymatch goal with
  | Hi : read_incremental _ _ = Done (_, ?s1), Ht : read_tuning _ _ = Done (_, ?s2),
    Hm : member root "Avail_Parts" = Done _, Hr : read_parts _ _ = Done (_, ?s3) |- _ =>
      apply read_incremental_parts in Hi; apply read_tuning_spec in Ht as [Ht Hu];
      apply read_parts_spec in Hr as (zs & Hz & ->)
  end.
  assert (Hparts : forall s1 s2, same_parts s1 s2 -> _availParts (w_sched s2) = _availParts (w_sched s1)) by done.
  repeat match goal with Hs : same_parts _ _ |- _ => apply Hparts in Hs; cbn in Hs end.
  clear Hparts. subst w'. cbn [w_sched set_w_sched] in *. set (all := foldl push_part (_availParts (w_sched s0)) zs) in *.
  assert (Hall : NoDup all) by (apply push_parts_nodup; congruence).
  split_and!; try done.
  - by apply sort_greater_strict.
  - exists zs. split.
    + unfold listed_parts. lazymatch goal with Hm : member root "Avail_Parts" = _ |- _ => rewrite Hm end. done.
    + intros p. cbn. rewrite std_sort_in. unfold all. rewrite push_parts_in. by replace (_availParts (w_sched w)) with (_availParts (w_sched s0)) by congruence.
Qed.

Definition demo_config : Value :=
  JObject [("Avail_Parts", JArray (map JInt [20; 80; 50; 50; 20]));
           ("GPUs", JArray [JObject [("Num", JInt 2); ("Type", JString "A")]]);
           ("Interference", JBool true); ("Latency Ratio", JReal (dlit 11 10)); ("Max Model", JInt 4);
           ("Part", JBool true); ("Self Tuning", JBool false)]%string%Z.

(** The key alone turns the model off, even when its value is [false]. *)
Lemma setupScheduler_spec_witness :
  match setupScheduler (Some demo_config) demo_world with
  | Done (failed, w') => failed = EXIT_SUCCESS /\ _availParts (w_sched w') = [100; 80; 50; 20]%Z /\
      _useSelfTuning (w_sched w') = false /\ _useInterference (w_sched w') = false /\
      leb (i2f 1) (_latencyRatio (w_sched w')) = true
  | Stop _ => False
  end.
Proof.
  apply run_returns; [vm_compute; reflexivity|]. intros [failed w'] H.
  assert (Hf : failed = EXIT_SUCCESS) by (vm_compute in H; by injection H as <- _).
  rewrite Hf in H |- *. split; [reflexivity|].
  assert (Hn : NoDup (_availParts (w_sched demo_world))) by (vm_compute; apply (bool_decide_unpack _); reflexivity).
  pose proof (setupScheduler_spec demo_config demo_world w' Hn H) as (_ & _ & Hl & Hu & _).
  specialize (Hu eq_refl). split; [|split; [|split; [exact Hu|exact Hl]]];
    vm_compute in H; injection H as <-; reflexivity.
Defined.

(** ** [setupPerModelMemConfig] *)
Definition mem_json (p : string * Z) : Value :=
  JObject [("mem", JInt p.2); ("name", JString p.1)]%string.
Definition mems_json (l : list (string * Z)) : Value :=
  JObject [("models"%string, JArray (map mem_json l))].

Definition model_id (w : World) (name : string) : Z :=
  model_id_loop (_IDtoModelName (w_sched w)) name (-1).

(** A name of the table is found, at a position that holds it. *)
Lemma model_id_known w name :
  name ∈ _IDtoModelName (w_sched w) ->
  (0 <= model_id w name)%Z /\ getModelName (model_id w name) w = Done (name, w).
Proof.
  intros Hin. unfold model_id, getModelName, sched.
  set (names := _IDtoModelName (w_sched w)) in *.
  pose proof (model_id_loop_spec names name (-1)) as Hl.
  destruct (list_find (fun x => x = name) names) as [[i y]|] eqn:E.
  - apply list_find_Some in E as (Hi & -> & _). rewrite Hl. split; [lia|].
    rewrite (bind_done (gets w_sched) _ w (w_sched w) w eq_refl). unfold lift. fold names.
    replace (-1 + 1 + Z.of_nat i)%Z with (Z.of_nat i) by lia.
    by rewrite (proj2 (at_index_nat names i name) Hi).
  - apply list_find_None in E. rewrite Forall_forall in E. by destruct (E name Hin).
Qed.
Lemma getModelID_known w name :
  name ∈ _IDtoModelName (w_sched w) -> getModelID name w = Done (model_id w name, w).
Proof.
  intros Hin. destruct (model_id_known w name Hin) as [Hp _]. unfold getModelID, sched.
  rewrite (bind_done (gets w_sched) _ w (w_sched w) w eq_refl). cbv zeta.
  unfold model_id in *. rewrite (proj2 (Z.eqb_neq _ _)) by lia. done.
Qed.

Lemma model_ids_nodup w l :
  (forall p : string * Z, p ∈ l -> p.1 ∈ _IDtoModelName (w_sched w)) -> NoDup (map fst l) ->
  NoDup (map (fun p => model_id w p.1) l).
Proof.
  induction l as [|p l IH]; intros Hk Hn; cbn in *; [constructor|]. apply NoDup_cons in Hn as [Hp Hn].
  constructor; [|apply IH; [|done]; intros; apply Hk; by right].
  intros (q & He & Hq)%list_elem_of_fmap_1. apply Hp.
  destruct (model_id_known w p.1 (Hk p ltac:(left))) as [_ H1].
  destruct (model_id_known w q.1 (Hk q ltac:(by right))) as [_ H2].
  rewrite He, H2 in H1. injection H1 as <-. by apply list_elem_of_fmap_2.
Qed.

(** Inserting a list of bindings with distinct keys. *)
Lemma fold_insert_other {A} (f : A -> Z) (g : A -> Z) (l : list A) (m : gmap Z Z) k :
  (forall p, p ∈ l -> f p <> k) -> foldl (fun m p => <[f p := g p]> m) m l !! k = m !! k.
Proof.
  revert m. induction l as [|p l IH]; intros m Hk; cbn; [done|].
  rewrite IH by (intros q Hq; apply Hk; by right). apply lookup_insert_ne. apply Hk. by left.
Qed.
Lemma fold_insert_in {A} (f : A -> Z) (g : A -> Z) (l : list A) (m : gmap Z Z) p :
  NoDup (map f l) -> p ∈ l -> foldl (fun m p => <[f p := g p]> m) m l !! f p = Some (g p).
Proof.
  revert m. induction l as [|q l IH]; intros m Hn Hp; [set_solver|].
  cbn in Hn. apply NoDup_cons in Hn as [Hq Hn]. cbn. apply elem_of_cons in Hp as [->|Hp]; [|by apply IH].
  rewrite fold_insert_other; [by rewrite lookup_insert_eq|].
  intros r Hr He. apply Hq. rewrite <- He. by apply list_elem_of_fmap_2.
Qed.

Definition store_mem (w : World) (p : string * Z) : World :=
  set_w_sched (set_mapModelIDtoMemSize
    (<[model_id w p.1 := p.2]> (_mapModelIDtoMemSize (w_sched w))) (w_sched w)) w.

Lemma model_mem_step pre p l w :
  in_i32 p.2 -> p.1 ∈ _IDtoModelName (w_sched w) ->
  model_mem (JArray (map mem_json (pre ++ p :: l))) (length pre) w = Done (tt, store_mem w p).
Proof.
  intros Hm Hin. unfold model_mem. rewrite (bind_done _ _ w (mem_json p) w).
  2:{ unfold element. rewrite List.map_app, List.map_cons, list_lookup_middle by (by rewrite length_map). done. }
  rewrite (bind_done _ _ w p.1 w) by done.
  rewrite (bind_done _ _ w p.2 w).
  2:{ apply (lift_member (mem_json p) _ (JInt p.2)); [done|by apply asInt_i32]. }
  by rewrite (bind_done _ _ _ _ _ (getModelID_known w p.1 Hin)).
Qed.

Lemma model_mem_loop l : forall pre w,
  Forall (fun p => in_i32 p.2) l -> Forall (fun p => p.1 ∈ _IDtoModelName (w_sched w)) l ->
  for_each (seq (length pre) (length l)) (model_mem (JArray (map mem_json (pre ++ l)))) w =
  Done (tt, foldl store_mem w l).
Proof.
  induction l as [|p l IH]; intros pre w Hm Hk; [done|].
  apply Forall_cons in Hm as [Hp Hm]. apply Forall_cons in Hk as [Hpk Hk]. cbn [length seq for_each foldl].
  rewrite (bind_done _ _ _ _ _ (model_mem_step pre p l w Hp Hpk)).
  replace (Datatypes.S (length pre)) with (length (pre ++ [p])) by (rewrite length_app; cbn; lia).
  replace (pre ++ p :: l) with ((pre ++ [p]) ++ l) by (by rewrite <- app_assoc). by apply IH.
Qed.

Lemma store_mems l w :
  foldl store_mem w l = set_w_sched (set_mapModelIDtoMemSize
    (foldl (fun m p => <[model_id w p.1 := p.2]> m) (_mapModelIDtoMemSize (w_sched w)) l) (w_sched w)) w.
Proof.
  revert w. induction l as [|p l IH]; intros w; [by destruct w as [[] ? ? ? ?]|]. cbn. by rewrite IH.
Qed.

(** The memory configuration gives every listed model its size, under the
    identifier that stands for its name, and changes the size of no model that
    is not listed.  The names have to be known to the scheduler: an unknown one
    is stored under the last identifier. *)
Lemma setupPerModelMemConfig_sizes l w :
  Forall (fun p => in_i32 p.2) l ->
  Forall (fun p => p.1 ∈ _IDtoModelName (w_sched w)) l -> NoDup (map fst l) ->
  exists w', setupPerModelMemConfig (Some (mems_json l)) w = Done (EXIT_SUCCESS, w') /\
    same_heap w w' /\
    (forall name mem, (name, mem) ∈ l -> exists id, getModelName id w = Done (name, w) /\
       _mapModelIDtoMemSize (w_sched w') !! id = Some mem) /\
    (forall id name, getModelName id w = Done (name, w) -> name ∉ map fst l ->
       _mapModelIDtoMemSize (w_sched w') !! id = _mapModelIDtoMemSize (w_sched w) !! id).
Proof.
  intros Hm Hk Hn. exists (foldl store_mem w l). unfold setupPerModelMemConfig.
  rewrite (bind_done _ _ w (JArray (map mem_json l)) w) by done. cbn [size]. rewrite length_map.
  pose proof (model_mem_loop l [] w Hm Hk) as Hl. cbn [length app] in Hl.
  rewrite (bind_done _ _ _ _ _ Hl), store_mems. rewrite Forall_forall in Hk. split_and!; try done; cbn.
  - intros name mem Hin. exists (model_id w name). destruct (model_id_known w name (Hk _ Hin)) as [_ Hname].
    split; [done|]. apply (fold_insert_in (fun p => model_id w p.1) snd l _ (name, mem)); [|done].
    by apply model_ids_nodup.
  - intros id name Hname Hno. apply fold_insert_other. intros p Hp He. apply Hno.
    destruct (model_id_known w p.1 (Hk _ Hp)) as [_ Hp1]. rewrite He, Hname in Hp1.
    injection Hp1 as ->. by apply list_elem_of_fmap_2.
Qed.

Lemma setupPerModelMemConfig_sizes_witness :
  exists w', setupPerModelMemConfig (Some (mems_json [("resnet50", 1500); ("lenet1", 300)]%string%Z)) demo_world
    = Done (EXIT_SUCCESS, w') /\ exists id, getModelName id demo_world = Done ("lenet1"%string, demo_world) /\
      _mapModelIDtoMemSize (w_sched w') !! id = Some 300%Z.
Proof.
  destruct (setupPerModelMemConfig_sizes [("resnet50", 1500); ("lenet1", 300)]%string%Z demo_world) as (w' & H & _ & Hl & _).
  - repeat constructor; vm_compute; discriminate.
  - repeat constructor; apply (bool_decide_unpack _); vm_compute; reflexivity.
  - apply (bool_decide_unpack _). vm_compute. reflexivity.
  - exists w'. split; [exact H|]. apply Hl. right. left.
Defined.
