(* ===== verification/LoadBalancer.v ===== *)
(** * The load balancer ([service/load_balancer.h], [service/load_balancer.cpp]).

    Every public operation holds [_mtx], so it is one atomic step on the
    tables. *)
From Stdlib Require Import ZArith SpecFloat String Lia.
From S2P Require Import Prelude CppFloat CppStd LatencyModel DevPerfModel SchedData.

Inductive load_balancer_type : Type := NO | WRR.

#[global] Instance load_balancer_type_eq_dec : EqDecision load_balancer_type.
Proof. solve_decision. Defined.

(** The members of [proxy_info] the balancer reads. *)
Record proxy_info : Type := mkProxy { dev_id : Z; cap : Z; dedup_num : Z }.

Record LoadBalancer : Type := mkLB {
  _type : load_balancer_type;
  _TaskIDtoKeysMapping : gmap Z (list Z);
  _keyToCreditMapping : gmap Z spec_float;
  _keyToCurrCreditMapping : gmap Z spec_float;
  _TaskIDToMinCreditMapping : gmap Z spec_float }.

Definition new_balancer : LoadBalancer := mkLB NO ∅ ∅ ∅ ∅.

Definition clearTables (lb : LoadBalancer) : LoadBalancer := mkLB (_type lb) ∅ ∅ ∅ ∅.

Definition setType (balancer_type : string) (lb : LoadBalancer) : outcome LoadBalancer :=
  let set t := Done (mkLB t (_TaskIDtoKeysMapping lb) (_keyToCreditMapping lb)
                       (_keyToCurrCreditMapping lb) (_TaskIDToMinCreditMapping lb)) in
  if String.eqb balancer_type "no" then set NO
  else if String.eqb balancer_type "wrr" then set WRR
  else Stop (Exited 1).

(** ** Keys *)
Definition MODEL_ID_SHIFT : Z := 10000000.
Definition PART_SHIFT : Z := 1000.
Definition GPU_ID_SHIFT : Z := 10.

Definition getKey (model_id gpu_id part dedup_num : Z) : Z :=
  i32 (i32 (i32 (i32 (MODEL_ID_SHIFT * model_id) + i32 (PART_SHIFT * part))
            + i32 (GPU_ID_SHIFT * gpu_id)) + dedup_num).

Definition getKey_proxy (model_id : Z) (p : proxy_info) : Z :=
  getKey model_id (dev_id p) (cap p) (dedup_num p).

Definition containModelID (key model_id : Z) : bool := (model_id =? Z.quot key MODEL_ID_SHIFT)%Z.

(** ** Filling the tables *)
Definition renewTable (model_id key : Z) (trpt : spec_float) (lb : LoadBalancer) : LoadBalancer :=
  mkLB (_type lb)
    (<[model_id := default [] (_TaskIDtoKeysMapping lb !! model_id) ++ [key]]> (_TaskIDtoKeysMapping lb))
    (<[key := ddiv (i2d 1) trpt]> (_keyToCreditMapping lb))
    (<[key := i2d 0]> (_keyToCurrCreditMapping lb))
    (<[model_id := i2d 10]> (_TaskIDToMinCreditMapping lb)).

(** The tasks of a schedule in the order of the three nested loops: model,
    GPU, partition, [dedup_num] and throughput. *)
Definition sched_rows (sched_results : SimState) : SM (list (Z * Z * Z * Z * spec_float)) :=
  for_acc (vGPUList sched_results) [] (fun acc gp =>
    g ← rd_gpu gp;
    for_acc (g_vNodeList g) acc (fun acc np =>
      n ← rd_node np;
      for_acc (n_vTaskList n) acc (fun acc tp =>
        t ← rd_task tp;
        mret (acc ++ [(t_id t, g_GPUID g, n_resource_pntg n, n_dedup_num n, t_throughput t)])))).

Definition renew_row (lb : LoadBalancer) (row : Z * Z * Z * Z * spec_float) : LoadBalancer :=
  let '(id, gpuid, pntg, dedup, throughput) := row in
  renewTable id (getKey id gpuid pntg dedup) (f2d throughput) lb.

Definition updateWRR (rows : list (Z * Z * Z * Z * spec_float)) (lb : LoadBalancer) : LoadBalancer :=
  foldl renew_row (clearTables lb) rows.

(** [updateTable(SimState&)] on the rows of the schedule; the result is
    [EXIT_SUCCESS]. *)
Definition updateTable (rows : list (Z * Z * Z * Z * spec_float)) (lb : LoadBalancer) : LoadBalancer :=
  match _type lb with
  | NO => lb
  | WRR => updateWRR rows lb
  end.

(** [updateTable] on given throughputs per proxy, in the order of the map. *)
Definition updateTable_proxies (trps : list (proxy_info * list (Z * spec_float)))
    (lb : LoadBalancer) : LoadBalancer :=
  match _type lb with
  | NO => lb
  | WRR =>
      foldl (fun lb '(p, items) =>
        foldl (fun lb '(id, trp) => renewTable id (getKey_proxy id p) trp lb) lb items)
        (clearTables lb) trps
  end.

(** ** Serving *)
Definition curr_of (lb : LoadBalancer) (key : Z) : spec_float :=
  default fzero (_keyToCurrCreditMapping lb !! key).
Definition min_of (lb : LoadBalancer) (model_id : Z) : spec_float :=
  default fzero (_TaskIDToMinCreditMapping lb !! model_id).

Definition checkMinCredit (model_id key : Z) (lb : LoadBalancer) : bool :=
  leb (curr_of lb key) (min_of lb model_id).

(** The answer for an unknown key is [EXIT_FAILURE], returned as a [bool]. *)
Definition checkWRR (model_id : Z) (p : proxy_info) (lb : LoadBalancer) : bool * LoadBalancer :=
  let key := getKey_proxy model_id p in
  match _keyToCurrCreditMapping lb !! key with
  | None => (EXIT_FAILURE, lb)
  | Some _ =>
      if checkMinCredit model_id key lb then
        let curr := dadd (curr_of lb key) (default fzero (_keyToCreditMapping lb !! key)) in
        (true, mkLB (_type lb) (_TaskIDtoKeysMapping lb) (_keyToCreditMapping lb)
                 (<[key := curr]> (_keyToCurrCreditMapping lb))
                 (<[model_id := curr]> (_TaskIDToMinCreditMapping lb)))
      else (false, lb)
  end.

Definition checkLoad (model_id : Z) (p : proxy_info) (lb : LoadBalancer) : bool * LoadBalancer :=
  match _type lb with
  | NO => (true, lb)
  | WRR => checkWRR model_id p lb
  end.

(** [choseProxy] asserts that a null pointer is not null. *)
Definition choseProxy (model_id : Z) : outcome proxy_info := Stop AssertionFailed.

(** ** Keys are unambiguous in the documented ranges *)
Definition key_range (m g p d : Z) : Prop :=
  (0 <= m <= 213)%Z /\ (0 <= g <= 20)%Z /\ (0 <= p <= 100)%Z /\ (0 <= d <= 5)%Z.

Lemma getKey_eq m g p d : key_range m g p d ->
  getKey m g p d = (10000000 * m + 1000 * p + 10 * g + d)%Z.
Proof.
  intros (?&?&?&?). unfold getKey, MODEL_ID_SHIFT, PART_SHIFT, GPU_ID_SHIFT.
  rewrite !i32_id; unfold in_i32, INT_MIN, INT_MAX;
    repeat (rewrite i32_id; unfold in_i32, INT_MIN, INT_MAX); lia.
Qed.

Lemma getKey_inj m g p d m' g' p' d' :
  key_range m g p d -> key_range m' g' p' d' -> getKey m g p d = getKey m' g' p' d' ->
  m = m' /\ g = g' /\ p = p' /\ d = d'.
Proof.
  intros H H'. rewrite !getKey_eq by done. destruct H as (?&?&?&?), H' as (?&?&?&?). lia.
Qed.

(** ** The invariant of the weighted round robin *)
Definition keys_of (lb : LoadBalancer) (m : Z) : list Z :=
  default [] (_TaskIDtoKeysMapping lb !! m).

(** Every known key is a documented key of the one model that lists it. *)
Definition keys_ok (lb : LoadBalancer) : Prop :=
  (forall key, is_Some (_keyToCurrCreditMapping lb !! key) -> exists m, key ∈ keys_of lb m) /\
  (forall m key, key ∈ keys_of lb m ->
     is_Some (_keyToCurrCreditMapping lb !! key) /\
     exists g p d, key_range m g p d /\ key = getKey m g p d).

Lemma keys_ok_owner lb m m' key : keys_ok lb ->
  key ∈ keys_of lb m -> key ∈ keys_of lb m' -> m = m'.
Proof.
  intros [_ Hk] H1 H2. destruct (Hk _ _ H1) as (_&g&p&d&Hr&->).
  destruct (Hk _ _ H2) as (_&g'&p'&d'&Hr'&He). by destruct (getKey_inj _ _ _ _ _ _ _ _ Hr Hr' He).
Qed.

(** Credits are numbers, and every model has a proxy it would serve from. *)
Definition credits_ok (lb : LoadBalancer) : Prop :=
  (forall key, nonneg (curr_of lb key) = true /\
     nonneg (default fzero (_keyToCreditMapping lb !! key)) = true) /\
  (forall m, keys_of lb m <> [] -> exists key, key ∈ keys_of lb m /\ checkMinCredit m key lb = true).

(** The state right after the tables were filled. *)
Definition fresh_ok (lb : LoadBalancer) : Prop :=
  keys_ok lb /\
  (forall key, curr_of lb key = fzero /\
     nonneg (default fzero (_keyToCreditMapping lb !! key)) = true) /\
  (forall m, keys_of lb m <> [] -> min_of lb m = i2d 10).

Definition positive_trp (x : spec_float) : bool := nonneg x && fneqb x fzero && is_finite x.
Definition row_ok (row : Z * Z * Z * Z * spec_float) : Prop :=
  let '(m, g, p, d, trp) := row in key_range m g p d /\ positive_trp (f2d trp) = true.

Lemma fresh_credits lb : fresh_ok lb -> credits_ok lb.
Proof.
  intros (_ & Hc & Hm). split.
  - intros key. destruct (Hc key) as [-> ?]. done.
  - intros m Hne. destruct (keys_of lb m) as [|key l] eqn:E; [done|].
    exists key. split; [by left|]. unfold checkMinCredit.
    rewrite (proj1 (Hc key)), Hm by (by rewrite E). done.
Qed.

Lemma clear_fresh lb : fresh_ok (clearTables lb).
Proof.
  split_and!.
  - split; [intros key [v Hv]; done|]. intros m key Hk. by apply not_elem_of_nil in Hk.
  - done.
  - done.
Qed.

Lemma positive_credit trp : positive_trp trp = true -> nonneg (ddiv (i2d 1) trp) = true.
Proof.
  unfold positive_trp. intros [[H1 H2]%andb_prop H3]%andb_prop. by apply nonneg_SFdiv.
Qed.

Lemma keys_of_renew lb m key trp m' :
  keys_of (renewTable m key trp lb) m' =
  if decide (m = m') then keys_of lb m ++ [key] else keys_of lb m'.
Proof.
  unfold keys_of. cbn. rewrite lookup_insert. case_decide; [by subst|done].
Qed.

Lemma curr_of_renew lb m key trp key' :
  curr_of (renewTable m key trp lb) key' = if decide (key = key') then fzero else curr_of lb key'.
Proof. unfold curr_of. cbn. rewrite lookup_insert. by case_decide. Qed.

Lemma min_of_renew lb m key trp m' :
  min_of (renewTable m key trp lb) m' = if decide (m = m') then i2d 10 else min_of lb m'.
Proof. unfold min_of. cbn. rewrite lookup_insert. by case_decide. Qed.

Lemma renew_keys_ok lb m g p d trp :
  keys_ok lb -> key_range m g p d -> keys_ok (renewTable m (getKey m g p d) trp lb).
Proof.
  intros [H1 H2] Hr. split.
  - intros key [v Hv]. cbn in Hv. rewrite lookup_insert in Hv. case_decide as Hk.
    + exists m. rewrite keys_of_renew, decide_True by done. subst. set_solver.
    + destruct (H1 key) as [m' Hm']; [by exists v|]. exists m'. rewrite keys_of_renew.
      case_decide; subst; set_solver.
  - intros m' key. rewrite keys_of_renew. cbn. rewrite lookup_insert. intros Hk.
    case_decide as Hm.
    + subst m'. apply elem_of_app in Hk as [Hk|Hk].
      * destruct (H2 _ _ Hk). split; [case_decide; eauto|done].
      * apply list_elem_of_singleton in Hk as ->. rewrite decide_True by done. eauto 10.
    + destruct (H2 _ _ Hk). split; [case_decide; eauto|done].
Qed.

Lemma renew_fresh lb row : fresh_ok lb -> row_ok row -> fresh_ok (renew_row lb row).
Proof.
  destruct row as [[[[m g] p] d] trp]. intros (H1 & H2 & H3) [Hr Hp]. split_and!.
  - by apply renew_keys_ok.
  - intros key. cbn [renew_row]. rewrite curr_of_renew. destruct (H2 key) as [Hc Hn].
    split; [by case_decide|]. cbn. rewrite lookup_insert. case_decide; [|done].
    by apply positive_credit.
  - intros m'. cbn [renew_row]. rewrite keys_of_renew, min_of_renew. case_decide; auto.
Qed.

Lemma updateWRR_fresh rows lb : Forall row_ok rows -> fresh_ok (updateWRR rows lb).
Proof.
  intros Hrows. unfold updateWRR. pose proof (clear_fresh lb) as Hf.
  revert Hf. generalize (clearTables lb). induction Hrows as [|row rows Hr _ IH]; intros lb0 Hf;
    [done|]. cbn. apply IH. by apply renew_fresh.
Qed.

(** A request of model [m] by a documented proxy. *)
Definition request_ok (r : Z * proxy_info) : Prop :=
  key_range r.1 (dev_id r.2) (cap r.2) (dedup_num r.2).

Lemma checkWRR_invariant m p lb :
  request_ok (m, p) -> keys_ok lb -> credits_ok lb ->
  keys_ok (checkWRR m p lb).2 /\ credits_ok (checkWRR m p lb).2.
Proof.
  intros Hreq Hk [Hn Hp]. unfold checkWRR. set (key := getKey_proxy m p).
  destruct (_keyToCurrCreditMapping lb !! key) as [v|] eqn:Ev; [|done].
  destruct (checkMinCredit m key lb) eqn:Emin; [|done]. cbn [snd].
  assert (Hown : forall m', key ∈ keys_of lb m' -> m' = m).
  { intros m' Hm'. destruct (proj2 Hk _ _ Hm') as (_ & g & q & d & Hr & He).
    by destruct (getKey_inj _ _ _ _ _ _ _ _ Hreq Hr He). }
  assert (Hmem : key ∈ keys_of lb m).
  { destruct (proj1 Hk key) as [m' Hm']; [by exists v|]. by rewrite <- (Hown m' Hm'). }
  set (curr := dadd _ _).
  assert (Hc : nonneg curr = true) by (apply nonneg_dadd; apply Hn).
  split; [|split].
  - destruct Hk as [Hk1 Hk2]. split; unfold keys_of in *; cbn.
    + intros key' Hs. rewrite lookup_insert in Hs. case_decide; [subst; eauto|by apply Hk1].
    + intros m' key' Hk'. destruct (Hk2 _ _ Hk'). split; [|done].
      rewrite lookup_insert. case_decide; eauto.
  - intros key'. unfold curr_of. cbn. split; [|apply Hn].
    rewrite lookup_insert. case_decide; [done|apply Hn].
  - intros m' Hne. unfold keys_of in Hne. cbn in Hne. fold (keys_of lb m') in Hne.
    destruct (decide (m = m')) as [<-|Hm].
    + exists key. split; [done|]. unfold checkMinCredit, curr_of, min_of. cbn.
      rewrite !lookup_insert_eq. cbn. apply leb_refl_nn. by apply nonneg_not_nan.
    + destruct (Hp m' Hne) as (k' & Hk' & Hle). exists k'. split; [done|].
      unfold checkMinCredit, curr_of, min_of in *. cbn.
      rewrite !lookup_insert_ne; [done|done|]. intros <-. by destruct Hm; symmetry; apply Hown.
Qed.

(** Serving a sequence of requests. *)
Definition serve (lb : LoadBalancer) (reqs : list (Z * proxy_info)) : LoadBalancer :=
  foldl (fun lb r => (checkLoad r.1 r.2 lb).2) lb reqs.

Lemma serve_invariant reqs lb :
  Forall request_ok reqs -> keys_ok lb -> credits_ok lb ->
  keys_ok (serve lb reqs) /\ credits_ok (serve lb reqs).
Proof.
  intros Hr. revert lb. induction Hr as [|[m p] reqs Hq _ IH]; intros lb Hk Hc; [done|].
  cbn. apply IH; unfold checkLoad; destruct (_type lb); try done;
    by apply checkWRR_invariant.
Qed.

Lemma serve_type reqs lb : _type (serve lb reqs) = _type lb.
Proof.
  revert lb. induction reqs as [|[m p] reqs IH]; intros lb; [done|]. cbn. rewrite IH.
  unfold checkLoad. destruct (_type lb) eqn:E; [done|]. unfold checkWRR.
  destruct (_ !! _); [|done]. by destruct (checkMinCredit _ _ _).
Qed.
Lemma serve_keys reqs lb m : keys_of (serve lb reqs) m = keys_of lb m.
Proof.
  revert lb. induction reqs as [|[m' p] reqs IH]; intros lb; [done|]. cbn. rewrite IH.
  unfold checkLoad. destruct (_type lb) eqn:E; [done|]. unfold checkWRR.
  destruct (_ !! _); [|done]. by destruct (checkMinCredit _ _ _).
Qed.

(** ** Filling and serving together *)
Definition row_model (row : Z * Z * Z * Z * spec_float) : Z := row.1.1.1.1.
Definition row_key (row : Z * Z * Z * Z * spec_float) : Z :=
  let '(id, gpuid, pntg, dedup, _) := row in getKey id gpuid pntg dedup.

Lemma keys_of_rows rows lb m :
  keys_of (foldl renew_row lb rows) m =
  keys_of lb m ++ map row_key (filter (fun row => row_model row = m) rows).
Proof.
  revert lb. induction rows as [|[[[[id g] p] d] trp] rows IH]; intros lb; [cbn; by rewrite app_nil_r|].
  cbn [foldl]. rewrite IH, filter_cons. cbn [renew_row]. rewrite keys_of_renew.
  change (row_model (id, g, p, d, trp)) with id. destruct (decide (id = m)) as [->|Hne]; [|done].
  cbn. by rewrite <- app_assoc.
Qed.

Lemma updateWRR_type rows lb : _type (updateWRR rows lb) = _type lb.
Proof.
  unfold updateWRR. assert (H : forall l lb0, _type (foldl renew_row lb0 l) = _type lb0); [|by rewrite H].
  clear. induction l as [|[[[[id g] p] d] trp] l IH]; intros lb0; [done|]. cbn. by rewrite IH.
Qed.

Lemma checkLoad_accepts m g p d lb :
  _type lb = WRR -> checkMinCredit m (getKey m g p d) lb = true ->
  (checkLoad m (mkProxy g p d) lb).1 = true.
Proof.
  intros Ht Hc. unfold checkLoad. rewrite Ht. unfold checkWRR, getKey_proxy. cbn.
  destruct (_ !! _); [|done]. by rewrite Hc.
Qed.

(** ** Properties *)

(** C21: the weighted round robin never starves a model.  After the tables were
    filled from a schedule (documented key ranges, positive throughputs) and
    after any sequence of requests, every model of the schedule still has a
    proxy, one of those the schedule gave it, that is accepted right away. *)
Theorem wrr_never_starves rows reqs lb row :
  _type lb = WRR -> Forall row_ok rows -> Forall request_ok reqs -> row ∈ rows ->
  let lb' := serve (updateTable rows lb) reqs in
  exists r, r ∈ rows /\ row_model r = row_model row /\
    let '(m, g, p, d, _) := r in (checkLoad m (mkProxy g p d) lb').1 = true.
Proof.
  intros Ht Hrows Hreqs Hrow lb'. unfold lb', updateTable. rewrite Ht.
  pose proof (updateWRR_fresh rows lb Hrows) as Hf. set (lb1 := updateWRR rows lb) in *.
  destruct (serve_invariant reqs lb1 Hreqs (proj1 Hf) (fresh_credits _ Hf)) as [_ [_ Hp]].
  assert (Hkeys : forall m, keys_of (serve lb1 reqs) m = map row_key (filter (fun r => row_model r = m) rows)).
  { intros m. rewrite serve_keys. unfold lb1, updateWRR. by rewrite keys_of_rows. }
  destruct (Hp (row_model row)) as (key & Hk & Hc).
  { rewrite Hkeys. intros H%map_eq_nil. assert (Hin : row ∈ filter (fun r => row_model r = row_model row) rows)
      by (by apply list_elem_of_filter). rewrite H in Hin. by apply elem_of_nil in Hin. }
  rewrite Hkeys in Hk. apply list_elem_of_fmap in Hk as (r & -> & [Hm Hr]%list_elem_of_filter).
  exists r. split_and!; [done|done|]. destruct r as [[[[m g] p] d] trp]. cbn in Hm. subst m.
  apply checkLoad_accepts; [|done]. rewrite serve_type. unfold lb1. by rewrite updateWRR_type.
Qed.

Definition wrr_lb : LoadBalancer := mkLB WRR ∅ ∅ ∅ ∅.
Definition wrr_rows : list (Z * Z * Z * Z * spec_float) :=
  [(7, 0, 50, 0, i2f 300); (7, 1, 80, 0, i2f 500); (2, 1, 20, 0, i2f 40)]%Z.

Lemma wrr_never_starves_witness :
  let lb' := serve (updateTable wrr_rows wrr_lb) [(7, mkProxy 0 50 0); (7, mkProxy 0 50 0)]%Z in
  exists r, r ∈ wrr_rows /\ row_model r = 7%Z /\
    let '(m, g, p, d, _) := r in (checkLoad m (mkProxy g p d) lb').1 = true.
Proof.
  apply (wrr_never_starves wrr_rows [(7, mkProxy 0 50 0); (7, mkProxy 0 50 0)]%Z wrr_lb
    (7, 0, 50, 0, i2f 300)%Z).
  - reflexivity.
  - repeat constructor; cbn; lia.
  - repeat constructor; cbn; lia.
  - by left.
Defined.

(** Within the documented ranges a key names exactly one (model, GPU,
    partition, number) - no two proxies of a model share their credits - and
    [containModelID] tells the model of a key. *)
Lemma getKey_unique m g p d m' g' p' d' :
  key_range m g p d -> key_range m' g' p' d' ->
  (getKey m g p d = getKey m' g' p' d' -> m = m' /\ g = g' /\ p = p' /\ d = d') /\
  containModelID (getKey m g p d) m' = (m' =? m)%Z.
Proof.
  intros H H'. split; [by apply getKey_inj|]. unfold containModelID. f_equal.
  rewrite getKey_eq by done. destruct H as (?&?&?&?). unfold MODEL_ID_SHIFT.
  rewrite Z.quot_div_nonneg by lia. symmetry. apply (Z.div_unique_pos _ _ _ (1000 * p + 10 * g + d)); lia.
Qed.

Lemma getKey_unique_witness :
  containModelID (getKey 7 1 80 0) 2 = false /\ getKey 7 1 80 0 <> getKey 7 0 80 1.
Proof.
  split; [apply (getKey_unique 7 1 80 0 2 0 0 0); unfold key_range; lia|]. intros H.
  destruct (getKey_unique 7 1 80 0 7 0 80 1 ltac:(unfold key_range; lia) ltac:(unfold key_range; lia)) as [Hu _].
  destruct (Hu H) as (_ & Hg & _). discriminate Hg.
Defined.

(** A request for a proxy that the balancer does not know is accepted: the
    [EXIT_FAILURE] meant as "no" is returned as [true]. *)
Lemma checkLoad_unknown_accepted m p lb :
  _keyToCurrCreditMapping lb !! getKey_proxy m p = None -> checkLoad m p lb = (true, lb).
Proof. intros H. unfold checkLoad. destruct (_type lb); [done|]. unfold checkWRR. by rewrite H. Qed.

Lemma checkLoad_unknown_accepted_witness : checkLoad 7 (mkProxy 3 50 0) wrr_lb = (true, wrr_lb).
Proof. exact (checkLoad_unknown_accepted 7 (mkProxy 3 50 0) wrr_lb eq_refl). Defined.
