(* ===== verification/SelfTuning.v ===== *)
(** * Self tuning ([common/self_tuning.h], [common/self_tuning.cpp]) and the
    moving average of request rates ([service/EWMA.h], [service/EWMA.cpp]). *)
From Stdlib Require Import ZArith SpecFloat String Permutation Lia.
From S2P Require Import Prelude CppFloat CppStd.

(** ** [EWMA] *)
Module EWMA.
Record EWMA : Type := mkEWMA { _rate : spec_float; _alpha : spec_float; _interval_ms : Z }.

Definition alpha_ok (a : spec_float) : bool := leb (i2f 0) a && leb a (i2f 1).

Definition make (monitor_interval_ms query_interval_ms : Z) : outcome EWMA :=
  let N := fmax (fdiv (i2f query_interval_ms) (i2f monitor_interval_ms)) (i2f 1) in
  let alpha := fdiv (i2f 2) (fadd N (i2f 1)) in
  if alpha_ok alpha then Done (mkEWMA (i2f 0) alpha monitor_interval_ms)
  else Stop AssertionFailed.

(** [_alpha * v + (1.0 - _alpha) * _rate]: the second product and the sum are
    [double]. *)
Definition blend (alpha v old : spec_float) : spec_float :=
  d2f (dadd (f2d (fmul alpha v)) (dmul (dsub (i2d 1) (f2d alpha)) (f2d old))).

(** The two updates are declared [bool] and return nothing. *)
Definition UpdateRate (cnt : Z) (e : EWMA) : EWMA :=
  let rate := fdiv (fmul (i2f cnt) (i2f 1000)) (i2f (_interval_ms e)) in
  mkEWMA (blend (_alpha e) rate (_rate e)) (_alpha e) (_interval_ms e).
Definition UpdateValue (value : spec_float) (e : EWMA) : EWMA :=
  mkEWMA (blend (_alpha e) value (_rate e)) (_alpha e) (_interval_ms e).

Definition SetupAlpha (alpha : spec_float) (e : EWMA) : outcome EWMA :=
  if alpha_ok alpha then Done (mkEWMA (_rate e) alpha (_interval_ms e))
  else Stop AssertionFailed.
Definition GetAlpha (e : EWMA) : spec_float := _alpha e.
Definition GetRate (e : EWMA) : spec_float := _rate e.
Definition InitRate (rate : spec_float) (e : EWMA) : EWMA :=
  mkEWMA rate (_alpha e) (_interval_ms e).

(** The operations of a monitor thread, and the state they lead to. *)
Inductive op : Type :=
| OpRate (cnt : Z) | OpValue (value : spec_float) | OpAlpha (alpha : spec_float)
| OpInit (rate : spec_float).
Definition step (e : EWMA) (o : op) : outcome EWMA :=
  match o with
  | OpRate cnt => Done (UpdateRate cnt e)
  | OpValue v => Done (UpdateValue v e)
  | OpAlpha a => SetupAlpha a e
  | OpInit r => Done (InitRate r e)
  end.
Fixpoint run (e : EWMA) (ops : list op) : outcome EWMA :=
  match ops with
  | [] => Done e
  | o :: ops' => e' ← step e o; run e' ops'
  end.

Lemma make_alpha m q e : make m q = Done e -> alpha_ok (_alpha e) = true.
Proof. unfold make. case_match eqn:E; [|done]. by intros [= <-]. Qed.

Lemma run_alpha e ops e' :
  alpha_ok (_alpha e) = true -> run e ops = Done e' -> alpha_ok (_alpha e') = true.
Proof.
  revert e. induction ops as [|o ops IH]; intros e He Hrun; [by injection Hrun as <-|].
  apply obind_inv in Hrun as (e1 & Hs & Hrun). apply (IH e1); [|done].
  destruct o as [cnt|v|a|r]; cbn in Hs; [by injection Hs as <-..| |by injection Hs as <-].
  unfold SetupAlpha in Hs. case_match eqn:E; [|done]. by injection Hs as <-.
Qed.

(** The smoothing factor of a moving average stays in [0,1]: it is there
    after construction, and no sequence of updates, accepted factor changes and
    re-initialisations gets it out. *)
Lemma alpha_stays_legal monitor_ms query_ms ops e e' :
  make monitor_ms query_ms = Done e -> run e ops = Done e' ->
  leb (i2f 0) (GetAlpha e') = true /\ leb (GetAlpha e') (i2f 1) = true.
Proof. intros Hm Hr. apply andb_prop. exact (run_alpha _ _ _ (make_alpha _ _ _ Hm) Hr). Qed.

Lemma alpha_stays_legal_witness :
  match make 1000 3000 with
  | Done e => GetAlpha e = fdiv (i2f 1) (i2f 2) /\
      match run e [OpRate 50; OpAlpha (i2f 1); OpValue (i2f 7)] with
      | Done e' => leb (i2f 0) (GetAlpha e') = true /\ leb (GetAlpha e') (i2f 1) = true
      | Stop _ => False
      end
  | Stop _ => False
  end.
Proof.
  apply run_returns; [vm_compute; reflexivity|]. intros e He. split.
  - vm_compute in He. injection He as <-. vm_compute. reflexivity.
  - apply run_returns; [vm_compute in He; injection He as <-; vm_compute; reflexivity|]. intros e' Hr.
    exact (alpha_stays_legal _ _ _ _ _ He Hr).
Defined.
End EWMA.

(** ** [SelfTuning] *)
Module SelfTuning.
Record SelfTuning : Type := mkST {
  _PerModelAdjustFlag : gmap Z bool; _PerModelGPUPart : gmap Z Z; _NUM_OF_GPU : Z }.

Definition _THRESHOLD : Z := 5.
Definition _MAX_BATCH : Z := 32.

Definition make (model_id_vec : list Z) (ngpu : Z) : outcome SelfTuning :=
  if negb (0 <? ngpu)%Z || bool_decide (model_id_vec = []) then Stop AssertionFailed
  else Done (mkST (foldl (fun m id => <[id := false]> m) ∅ model_id_vec)
                  (foldl (fun m id => <[id := 0%Z]> m) ∅ model_id_vec) ngpu).

Definition abs_float (x : spec_float) : spec_float := if geb x (i2f 0) then x else fneg x.

(** [indet] is the uninitialised [new_gpu_part]. *)
Definition GetNewGPUPart (indet : Z) (curr_gpu_part : Z) (rate : spec_float) (slo : Z)
    (avg_trpt avg_latency : spec_float) : Z :=
  let res_lat := fsub (i2f slo) avg_latency in
  let res_trpt := fsub avg_trpt rate in
  let diff_lat := fmul (fdiv res_lat (i2f slo)) (i2f 100) in
  let diff_trpt := fmul (fdiv res_trpt rate) (i2f 100) in
  if (gtb diff_lat (i2f 0) && ltb diff_lat (i2f _THRESHOLD))
     && (gtb diff_trpt (i2f 0) && ltb diff_trpt (i2f _THRESHOLD)) then curr_gpu_part
  else
    let change_factor := fdiv (fmax (abs_float diff_lat) (abs_float diff_trpt)) (i2f 100) in
    let change_gpu_part := f2i (fmul change_factor (i2f curr_gpu_part)) in
    let new_gpu_part :=
      if leb res_lat (i2f 0) || leb res_trpt (i2f 0)
      then i32 (curr_gpu_part + change_gpu_part) else indet in
    if gtb res_lat (i2f 0) && gtb res_trpt (i2f 0)
    then i32 (curr_gpu_part - change_gpu_part) else new_gpu_part.

Definition GetNextBatchSize (curr_batch SLO : Z) (avg_latency rate : spec_float) : Z :=
  if feqb avg_latency (i2f 0) then curr_batch
  else
    let res_lat := fdiv (fsub (i2f SLO) avg_latency) (i2f SLO) in
    let res_lat := fmax res_lat (i2f (-1)) in
    let new_batch := f2i (fadd (i2f curr_batch) (fmul res_lat (i2f curr_batch))) in
    let new_batch := Z.min _MAX_BATCH new_batch in
    Z.max 1 new_batch.

Definition GetNeedAdjust (model_id : Z) (st : SelfTuning) : outcome bool :=
  match _PerModelAdjustFlag st !! model_id with
  | Some b => Done b | None => Stop AssertionFailed end.
Definition SetNeedAdjust (model_id : Z) (flag : bool) (st : SelfTuning) : outcome SelfTuning :=
  match _PerModelAdjustFlag st !! model_id with
  | Some _ => Done (mkST (<[model_id := flag]> (_PerModelAdjustFlag st)) (_PerModelGPUPart st)
                      (_NUM_OF_GPU st))
  | None => Stop AssertionFailed
  end.

(** Not a strict weak order ([<=]), which [std::sort] requires. *)
Definition cmp_pair (a b : Z * Z) : bool := (a.2 <=? b.2)%Z.

Definition getNextLargestPart (part : Z) (avail_parts : list Z) : outcome Z :=
  match List.find (fun avail_part => part <=? avail_part)%Z avail_parts with
  | Some p => Done p
  | None => deref (last avail_parts)
  end.

(** The [front()] of the index-0 case is evaluated and dropped, so index -1 is
    read. *)
Fixpoint index_of (part : Z) (avail_parts : list Z) (idx : Z) : Z :=
  match avail_parts with
  | [] => idx
  | a :: l => if (part <=? a)%Z then idx else index_of part l (idx + 1)
  end.
Definition getSecondLargestPart (part : Z) (avail_parts : list Z) : outcome Z :=
  let idx := index_of part avail_parts 0 in
  if (idx - 1 <? 0)%Z then Stop Undefined else deref (avail_parts !! Z.to_nat (idx - 1)).

(** [while(original_part > 0)] *)
Fixpoint allocate_parts (fuel : nat) (original_part : Z) (avail_parts : list Z) :
    outcome (list Z) :=
  match fuel with
  | O => Stop OutOfFuel
  | S fuel' =>
      if (0 <? original_part)%Z then
        new_part ← getNextLargestPart original_part avail_parts;
        rest ← allocate_parts fuel' (original_part - new_part) avail_parts;
        mret (new_part :: rest)
      else mret []
  end.

Definition sum_parts (l : list Z) : Z := foldl Z.add 0%Z l.

(** The loop over the sorted requests; locals are the parts and tasks left and
    the average. *)
Fixpoint fair_loop (temp_vec : list (Z * Z)) (avail_sum num_remaining avg_part : Z)
    (avail_parts : list Z) : outcome (list (Z * list Z)) :=
  match temp_vec with
  | [] => mret []
  | (id, requested) :: temp_vec' =>
      let original_part := if (avg_part <? requested)%Z then avg_part else requested in
      parts ← allocate_parts (S (Z.to_nat original_part)) original_part avail_parts;
      let new_sum := sum_parts parts in
      let avail_sum := (avail_sum - new_sum)%Z in
      let num_remaining := (num_remaining - 1)%Z in
      let avg_part := if (num_remaining =? 0)%Z then avg_part
                      else Z.quot avail_sum num_remaining in
      rest ← fair_loop temp_vec' avail_sum num_remaining avg_part avail_parts;
      mret ((id, parts) :: rest)
  end.

(** [per_model_new_parts] in its iteration order; the result in the order of
    allocation, each model once. *)
Definition AllocateMinMaxFair (st : SelfTuning) (per_model_new_parts : list (Z * Z))
    (avail_parts : list Z) : outcome (list (Z * list Z)) :=
  let temp_vec := std_sort cmp_pair per_model_new_parts in
  let avail_parts := std_sort Z.ltb avail_parts in
  let avail_sum := i32 (_NUM_OF_GPU st * 100) in
  let num := Z.of_nat (length per_model_new_parts) in
  if (num =? 0)%Z then Stop Undefined
  else fair_loop temp_vec avail_sum num (Z.quot avail_sum num) avail_parts.

(** *** What one model gets *)
Lemma sum_parts_acc l a : foldl Z.add a l = (a + sum_parts l)%Z.
Proof.
  unfold sum_parts. revert a. induction l as [|x l IH]; intros a; [cbn; lia|].
  change (foldl Z.add (a + x) l = a + foldl Z.add (0 + x) l)%Z.
  rewrite (IH (a + x)%Z), (IH (0 + x)%Z). lia.
Qed.
Lemma sum_parts_cons x l : sum_parts (x :: l) = (x + sum_parts l)%Z.
Proof.
  change (foldl Z.add (0 + x) l = x + sum_parts l)%Z. rewrite sum_parts_acc. lia.
Qed.

Lemma getNextLargestPart_in part avail p :
  getNextLargestPart part avail = Done p -> p ∈ avail.
Proof.
  unfold getNextLargestPart. destruct (List.find _ _) as [q|] eqn:E.
  - intros [= <-]. apply List.find_some in E as [E _]. by apply list_elem_of_In.
  - intros H%deref_inv. apply last_Some in H as [l' ->]. set_solver.
Qed.

Lemma getNextLargestPart_total part avail :
  avail <> [] -> exists p, getNextLargestPart part avail = Done p.
Proof.
  intros Hne. unfold getNextLargestPart. destruct (List.find _ _); [eauto|].
  destruct (last avail) eqn:E; [by eexists|]. by apply last_None in E.
Qed.

Lemma allocate_parts_spec fuel original avail :
  avail <> [] -> Forall (fun p => 0 < p)%Z avail -> (Z.to_nat original < fuel)%nat ->
  exists parts, allocate_parts fuel original avail = Done parts /\
    Forall (fun p => p ∈ avail) parts /\ (original <= sum_parts parts)%Z /\
    (forall m, Forall (fun p => p <= m)%Z avail -> (0 < original)%Z ->
       (sum_parts parts < original + m)%Z).
Proof.
  intros Hne Hpos. revert original. induction fuel as [|fuel IH]; intros original Hf; [lia|].
  cbn [allocate_parts]. destruct (0 <? original)%Z eqn:E.
  - apply Z.ltb_lt in E. destruct (getNextLargestPart_total original avail Hne) as [p Hp].
    rewrite Hp. pose proof (getNextLargestPart_in _ _ _ Hp) as Hin.
    assert (Hp0 : (0 < p)%Z) by (rewrite Forall_forall in Hpos; auto).
    destruct (IH (original - p)%Z) as (rest & Hr & Hall & Hlo & Hhi); [lia|].
    exists (p :: rest). rewrite sum_parts_cons. unfold mbind, outcome_bind. rewrite Hr.
    split_and!; [done|by constructor|lia|].
    intros m Hm Ho. assert (p <= m)%Z by (rewrite Forall_forall in Hm; auto).
    destruct (decide (0 < original - p)%Z); [specialize (Hhi m Hm); lia|].
    assert (rest = []) as ->; [|cbn; lia].
    destruct fuel; [done|]. cbn in Hr.
    replace (0 <? original - p)%Z with false in Hr by (symmetry; apply Z.ltb_ge; lia).
    by injection Hr as <-.
  - apply Z.ltb_ge in E. exists []. cbn. split_and!; [done|done|lia|lia].
Qed.

(** *** What all models get *)
Lemma fair_loop_run temp_vec avail_sum num avg avail :
  avail <> [] -> Forall (fun p => 0 < p)%Z avail ->
  exists res, fair_loop temp_vec avail_sum num avg avail = Done res /\
    map fst res = map fst temp_vec /\ Forall (fun r => Forall (fun p => p ∈ avail) r.2) res /\
    match temp_vec, res with
    | (_, requested) :: _, (_, parts) :: _ => (Z.min requested avg <= sum_parts parts)%Z
    | _, _ => True
    end.
Proof.
  intros Hne Hpos. revert avail_sum num avg. induction temp_vec as [|[id requested] temp IH];
    intros avail_sum num avg; [by exists []|].
  cbn [fair_loop]. set (original := if (avg <? requested)%Z then avg else requested).
  destruct (allocate_parts_spec (S (Z.to_nat original)) original avail Hne Hpos ltac:(lia))
    as (parts & Hp & Hin & Hsum & _).
  set (avail_sum' := (avail_sum - sum_parts parts)%Z).
  destruct (IH avail_sum' (num - 1)%Z (if (num - 1 =? 0)%Z then avg else Z.quot avail_sum' (num - 1)))
    as (rest & Hr & Hids & Hall & _).
  exists ((id, parts) :: rest). unfold mbind, outcome_bind. rewrite Hp. fold avail_sum'. rewrite Hr.
  split_and!; [done|cbn; by rewrite Hids|by constructor|].
  revert Hsum. unfold original. destruct (Z.ltb_spec avg requested); lia.
Qed.

(** ** Properties *)

(** Splitting a share into partitions: as long as there are positive
    partition sizes, [allocate_parts] ends (its fuel, the share, is enough),
    uses available sizes only, covers the share, and overshoots it by less
    than the largest size. *)
Lemma allocate_parts_covers original avail :
  avail <> [] -> Forall (fun p => 0 < p)%Z avail ->
  exists parts, allocate_parts (S (Z.to_nat original)) original avail = Done parts /\
    Forall (fun p => p ∈ avail) parts /\ (original <= sum_parts parts)%Z /\
    (forall m, Forall (fun p => p <= m)%Z avail -> (0 < original)%Z ->
       (sum_parts parts < original + m)%Z).
Proof. intros Hne Hpos. apply allocate_parts_spec; [done|done|lia]. Qed.

Lemma allocate_parts_covers_witness :
  exists parts, allocate_parts 131 130 [20; 50; 80]%Z = Done parts /\ parts = [80; 50]%Z /\
    (130 <= sum_parts parts)%Z.
Proof.
  destruct (allocate_parts_covers 130 [20; 50; 80]%Z ltac:(discriminate) ltac:(repeat constructor))
    as (parts & Hrun & _ & Hsum & _).
  exists parts. split; [exact Hrun|]. split; [|exact Hsum].
  vm_compute in Hrun. injection Hrun as <-. reflexivity.
Defined.

(** C40: [AllocateMinMaxFair] always answers when there is a model and a
    positive partition size: every model gets a list of available sizes, and
    the first one served gets at least the smaller of its request and the
    average share. *)
Lemma AllocateMinMaxFair_answers st reqs avail :
  reqs <> [] -> avail <> [] -> Forall (fun p => 0 < p)%Z avail ->
  exists res, AllocateMinMaxFair st reqs avail = Done res /\
    Permutation (map fst res) (map fst reqs) /\
    Forall (fun r => Forall (fun p => p ∈ avail) r.2) res /\
    match std_sort cmp_pair reqs, res with
    | (_, requested) :: _, (_, parts) :: _ =>
        (Z.min requested (Z.quot (i32 (_NUM_OF_GPU st * 100)) (Z.of_nat (length reqs))) <= sum_parts parts)%Z
    | _, _ => True
    end.
Proof.
  intros Hr Ha Hp. unfold AllocateMinMaxFair.
  replace (Z.of_nat (length reqs) =? 0)%Z with false by (destruct reqs; [done|reflexivity]).
  assert (Ha' : std_sort Z.ltb avail <> []) by (by intros ?%std_sort_nil).
  assert (Hp' : Forall (fun p => 0 < p)%Z (std_sort Z.ltb avail)).
  { eapply Permutation_Forall; [symmetry; apply std_sort_perm|done]. }
  destruct (fair_loop_run (std_sort cmp_pair reqs) (i32 (_NUM_OF_GPU st * 100)) (Z.of_nat (length reqs))
    (Z.quot (i32 (_NUM_OF_GPU st * 100)) (Z.of_nat (length reqs))) _ Ha' Hp') as (res & Hrun & Hids & Hall & Hmin).
  exists res. split_and!; [done| | |done].
  - rewrite Hids. apply Permutation_map, std_sort_perm.
  - eapply Forall_impl; [exact Hall|]. intros r Hr'. eapply Forall_impl; [exact Hr'|].
    intros p. by rewrite std_sort_in.
Qed.

Lemma AllocateMinMaxFair_answers_witness :
  exists res, AllocateMinMaxFair (mkST ∅ ∅ 2) [(1, 120); (4, 60)]%Z [80; 50; 20]%Z = Done res /\
    res = [(4, [80]); (1, [80; 50])]%Z /\ Permutation (map fst res) [1; 4]%Z.
Proof.
  destruct (AllocateMinMaxFair_answers (mkST ∅ ∅ 2) [(1, 120); (4, 60)]%Z [80; 50; 20]%Z
    ltac:(discriminate) ltac:(discriminate) ltac:(repeat constructor)) as (res & Hrun & Hperm & _).
  exists res. split; [exact Hrun|]. split; [|exact Hperm].
  vm_compute in Hrun. injection Hrun as <-. reflexivity.
Defined.

(** The next batch size of self tuning is a legal one, between 1 and 32,
    whatever the measured latency (zero, infinite and NaN included), as long
    as the current one is. *)
Lemma GetNextBatchSize_legal curr SLO avg_latency rate :
  (1 <= curr <= _MAX_BATCH)%Z -> (1 <= GetNextBatchSize curr SLO avg_latency rate <= _MAX_BATCH)%Z.
Proof.
  intros Hc. unfold GetNextBatchSize. destruct (feqb _ _); [done|]. unfold _MAX_BATCH. lia.
Qed.

Lemma GetNextBatchSize_legal_witness :
  GetNextBatchSize 8 50 (i2f 75) (i2f 100) = 4%Z /\
  (1 <= GetNextBatchSize 8 50 S754_nan (i2f 100) <= _MAX_BATCH)%Z.
Proof.
  split; [vm_compute; reflexivity|]. apply (GetNextBatchSize_legal 8 50 S754_nan (i2f 100)).
  unfold _MAX_BATCH. lia.
Defined.
End SelfTuning.
