(* ===== verification/AppModel.v ===== *)
(** * Applications and requests ([service/app_spec.cpp], [service/app_instance.cpp],
    [service/request.cpp], [service/batched_request.cpp]).

    Tensors belong to libtorch: the class [Torch] lists the operations the code
    calls.  An application instance is shared by all its requests, and a request
    by the queue and the batch that hold it, so instances and requests live in a
    store ([Service]) and a [shared_ptr] is an index of it. *)
From Stdlib Require Import ZArith SpecFloat String Lia.
From S2P Require Import Prelude CppFloat CppStd Json SchedData.

(** ** libtorch

    An operation can throw ([Stop Uncaught]). *)
Class Torch (Tensor : Type) : Type := {
  t_undefined : Tensor;
  t_plus : Tensor -> Tensor -> outcome Tensor;
  t_div : Tensor -> Z -> outcome Tensor;
  (** [torch::cat({a, b}, 0)] *)
  t_cat : Tensor -> Tensor -> outcome Tensor;
  (** [tensor.split(1, 0)] *)
  t_split : Tensor -> outcome (list Tensor);
  (** [tensor.size(0)] *)
  t_size0 : Tensor -> outcome Z;
  (** [torch::ones(1)] *)
  t_ones : Tensor }.

(** ** [AppSpec]: the computation graph of an application *)
Inductive TensorDataOption : Type := KFLOAT32 | KINT64.

Record CompDep : Type := mkCompDep {
  cd_type : string; cd_name : string; cd_id : Z; cd_SLO : Z; cd_predecessor : Z;
  cd_input : list Z; cd_output : list Z }.

Record TensorSpec : Type := mkTensorSpec {
  ts_dim : list Z; ts_output : list Z; ts_id : Z; ts_dataType : TensorDataOption }.

Record AppSpec : Type := mkAppSpec {
  as_name : string;
  _outputComp : string;
  inputTensors : list TensorSpec;
  _ModelTable : list CompDep;
  _perNodeLatency : gmap Z spec_float;
  _globalVecId : Z }.

Definition new_AppSpec (name : string) (i : Indet) : AppSpec :=
  mkAppSpec name "" [] [] ∅ (indet_int i).

Definition set_inputTensors (x : list TensorSpec) (a : AppSpec) : AppSpec :=
  mkAppSpec (as_name a) (_outputComp a) x (_ModelTable a) (_perNodeLatency a) (_globalVecId a).
Definition set_ModelTable (x : list CompDep) (a : AppSpec) : AppSpec :=
  mkAppSpec (as_name a) (_outputComp a) (inputTensors a) x (_perNodeLatency a) (_globalVecId a).
Definition setGlobalVecID (id : Z) (a : AppSpec) : AppSpec :=
  mkAppSpec (as_name a) (_outputComp a) (inputTensors a) (_ModelTable a) (_perNodeLatency a) id.
Definition setOutputComp (c : string) (a : AppSpec) : AppSpec :=
  mkAppSpec (as_name a) c (inputTensors a) (_ModelTable a) (_perNodeLatency a) (_globalVecId a).
Definition addInputSpec (t : TensorSpec) (a : AppSpec) : AppSpec :=
  set_inputTensors (inputTensors a ++ [t]) a.

Definition push_comp (c : CompDep) : M AppSpec unit :=
  modify (fun a => set_ModelTable (_ModelTable a ++ [c]) a).

(** [new CompDep()] value-initialises [SLO] and [predecessor]. *)
Definition input_comp (t : TensorSpec) : CompDep :=
  mkCompDep "Input" "Input" (ts_id t) 0 0 [] (ts_output t).

Definition read_model (models : Value) (i : nat) : outcome CompDep :=
  m ← element models i;
  name ← (v ← member m "model"; asString v);
  id ← (v ← member m "ID"; asInt v);
  input ← (v ← member m "input"; int_elements v);
  output ← (v ← member m "output"; int_elements v);
  mret (mkCompDep "Model" name id 0 0 input output).

Definition read_output (outputs : Value) (i : nat) : outcome CompDep :=
  o ← element outputs i;
  name ← (v ← member o "Comp"; asString v);
  id ← (v ← member o "ID"; asInt v);
  input ← (v ← member o "input"; int_elements v);
  mret (mkCompDep "Output" name id 0 0 input []).

Definition setupModelDependency (config : option Value) : M AppSpec bool :=
  match config with
  | None => mret EXIT_FAILURE
  | Some root =>
      a ← get;
      _ ← for_each (inputTensors a) (fun t => push_comp (input_comp t));
      models ← lift (member root "Models");
      _ ← for_each (seq 0 (size models)) (fun i => c ← lift (read_model models i); push_comp c);
      outputs ← lift (member root "Output");
      _ ← for_each (seq 0 (size outputs)) (fun i => c ← lift (read_output outputs i); push_comp c);
      mret EXIT_SUCCESS
  end.

(** [_ModelTable[id]] *)
Definition comp_at (a : AppSpec) (id : Z) : outcome CompDep := at_index (_ModelTable a) id.
Definition getNextDsts (curr_id : Z) (a : AppSpec) : outcome (list Z) :=
  c ← comp_at a curr_id; mret (cd_output c).
Definition getModelName (id : Z) (a : AppSpec) : outcome string :=
  c ← comp_at a id; mret (cd_name c).
Definition isOutput (id : Z) (a : AppSpec) : outcome bool :=
  c ← comp_at a id; mret (String.eqb (cd_type c) "Output").
Definition getInputforOutput (a : AppSpec) : list Z :=
  concat (map (fun c => if String.eqb (cd_type c) "Output" then cd_input c else []) (_ModelTable a)).
Definition getTotalNumofNodes (a : AppSpec) : nat := length (_ModelTable a).
(** The per-node latency, which nothing ever fills in. *)
Definition getNodeSLO (id : Z) (a : AppSpec) : spec_float :=
  default fzero (_perNodeLatency a !! id).

(** *** Reading an application file ([service/input.cpp]) *)
Definition read_input_type (s : string) : option TensorDataOption :=
  if String.eqb s "FP32" then Some KFLOAT32
  else if String.eqb s "INT64" then Some KINT64 else None.

Definition read_input (inputs : Value) (i : nat) : M AppSpec (option bool) :=
  v ← lift (element inputs i);
  dim ← lift (x ← member v "InputDim"; int_elements x);
  id ← lift (x ← member v "ID"; asInt x);
  type ← lift (x ← member v "InputType"; asString x);
  match read_input_type type with
  | None => mret (Some EXIT_FAILURE)
  | Some dataType =>
      output ← lift (x ← member v "output"; int_elements x);
      _ ← modify (addInputSpec (mkTensorSpec dim output id dataType));
      mret None
  end.

(** The file is opened twice: by [readAppJSONFile] and by
    [setupModelDependency]. *)
Definition readAppJSONFile (config : option Value) : M AppSpec bool :=
  match config with
  | None => mret EXIT_FAILURE
  | Some root =>
      inputs ← lift (member root "Input");
      r ← for_ret (seq 0 (size inputs)) (read_input inputs);
      match r with
      | Some failed => mret failed
      | None =>
          failed ← setupModelDependency (Some root);
          mret (if (failed : bool) then EXIT_FAILURE else EXIT_SUCCESS)
      end
  end.

(** One entry of [App_specs]: a failed application is skipped.  [None] is a file
    that cannot be opened. *)
Definition config_app (apps : Value) (files : string -> option (option Value)) (ind : Indet)
    (res_dir : string) (i : nat) : M (list AppSpec) unit :=
  app ← lift (element apps i);
  name ← lift (v ← member app "name"; asString v);
  file ← lift (v ← member app "file"; asCString v);
  match files (res_dir +:+ "/" +:+ file)%string with
  | None => fail (Exited 1)
  | Some config =>
      '(failed, spec) ← lift (readAppJSONFile config (new_AppSpec name ind));
      if (failed : bool) then mret tt
      else modify (fun v => v ++ [setGlobalVecID (Z.of_nat (length v)) spec])
  end.

Definition configAppSpec (config : option (option Value)) (files : string -> option (option Value))
    (ind : Indet) (res_dir : string) : M (list AppSpec) bool :=
  match config with
  | None => fail (Exited 1)
  | Some None => mret EXIT_FAILURE
  | Some (Some root) =>
      apps ← lift (member root "App_specs");
      _ ← for_each (seq 0 (size apps)) (config_app apps files ind res_dir);
      mret EXIT_SUCCESS
  end.

Section Apps.
Context {Tensor : Type} `{!Torch Tensor}.

(** The sum starts from an undefined tensor, and the quotient of the average is
    thrown away. *)
Definition sum_inputs (inputs : list Tensor) : outcome Tensor :=
  foldl (fun acc t => output ← acc; t_plus output t) (Done t_undefined) inputs.
Definition aggregateOutput (CompType : string) (inputs : list Tensor) : outcome Tensor :=
  if String.eqb CompType "Average" || String.eqb CompType "Avg" then
    output ← sum_inputs inputs;
    _ ← t_div output (i32 (Z.of_nat (length inputs)));
    mret output
  else if String.eqb CompType "Sum" || String.eqb CompType "Add" then sum_inputs inputs
  else if String.eqb CompType "None" then deref (inputs !! 0%nat)
  else mret t_undefined.

(** ** [AppInstance] *)
Record AppInstance : Type := mkAppInstance {
  ai_name : string;
  ai_taskID : Z;
  ai_fd : Z;
  ai_start : Z;
  ai_startExec : Z;
  ai_endExec : Z;
  _reported : bool;
  _dropped : bool;
  _input : gmap Z Tensor;
  outputCheck : list Z;
  scoreBoard : gmap Z bool;
  _pAppSpec : nat }.

Definition set_taskID (id : Z) (a : AppInstance) : AppInstance :=
  mkAppInstance (ai_name a) id (ai_fd a) (ai_start a) (ai_startExec a) (ai_endExec a) (_reported a)
    (_dropped a) (_input a) (outputCheck a) (scoreBoard a) (_pAppSpec a).
Definition setSocketFD (fd : Z) (a : AppInstance) : AppInstance :=
  mkAppInstance (ai_name a) (ai_taskID a) fd (ai_start a) (ai_startExec a) (ai_endExec a) (_reported a)
    (_dropped a) (_input a) (outputCheck a) (scoreBoard a) (_pAppSpec a).
Definition set_start (time : Z) (a : AppInstance) : AppInstance :=
  mkAppInstance (ai_name a) (ai_taskID a) (ai_fd a) time (ai_startExec a) (ai_endExec a) (_reported a)
    (_dropped a) (_input a) (outputCheck a) (scoreBoard a) (_pAppSpec a).
Definition setStartExec (time : Z) (a : AppInstance) : AppInstance :=
  mkAppInstance (ai_name a) (ai_taskID a) (ai_fd a) (ai_start a) time (ai_endExec a) (_reported a)
    (_dropped a) (_input a) (outputCheck a) (scoreBoard a) (_pAppSpec a).
Definition setEndExec (time : Z) (a : AppInstance) : AppInstance :=
  mkAppInstance (ai_name a) (ai_taskID a) (ai_fd a) (ai_start a) (ai_startExec a) time (_reported a)
    (_dropped a) (_input a) (outputCheck a) (scoreBoard a) (_pAppSpec a).
Definition set_reported (b : bool) (a : AppInstance) : AppInstance :=
  mkAppInstance (ai_name a) (ai_taskID a) (ai_fd a) (ai_start a) (ai_startExec a) (ai_endExec a) b
    (_dropped a) (_input a) (outputCheck a) (scoreBoard a) (_pAppSpec a).
Definition setDropped (b : bool) (a : AppInstance) : AppInstance :=
  mkAppInstance (ai_name a) (ai_taskID a) (ai_fd a) (ai_start a) (ai_startExec a) (ai_endExec a) (_reported a)
    b (_input a) (outputCheck a) (scoreBoard a) (_pAppSpec a).
Definition makeInputTensor (t : Tensor) (id : Z) (a : AppInstance) : AppInstance :=
  mkAppInstance (ai_name a) (ai_taskID a) (ai_fd a) (ai_start a) (ai_startExec a) (ai_endExec a) (_reported a)
    (_dropped a) (<[id := t]> (_input a)) (outputCheck a) (scoreBoard a) (_pAppSpec a).
Definition set_scoreBoard (sb : gmap Z bool) (a : AppInstance) : AppInstance :=
  mkAppInstance (ai_name a) (ai_taskID a) (ai_fd a) (ai_start a) (ai_startExec a) (ai_endExec a) (_reported a)
    (_dropped a) (_input a) (outputCheck a) sb (_pAppSpec a).

(** [setupScoreBoard]: every node unmarked, and the inputs of the outputs. *)
Definition fresh_board (n : nat) : gmap Z bool :=
  foldl (fun m i => <[Z.of_nat i := false]> m) ∅ (seq 0 n).
Definition new_AppInstance (name : string) (spec_ptr : nat) (spec : AppSpec) (i : Indet) : AppInstance :=
  mkAppInstance name (indet_int i) (indet_int i) (indet_int i) (indet_int i) (indet_int i) false false
    ∅ (getInputforOutput spec) (fresh_board (getTotalNumofNodes spec)) spec_ptr.

Definition markFinished (id : Z) (a : AppInstance) : AppInstance :=
  set_scoreBoard (<[id := true]> (scoreBoard a)) a.
(** [scoreBoard[id]]; a missing node reads [false]. *)
Definition marked (a : AppInstance) (id : Z) : bool := default false (scoreBoard a !! id).
Definition all_marked (a : AppInstance) : bool := forallb (marked a) (outputCheck a).

(** [isFinished] holds [finishMtx] throughout, as [markFinished] does. *)
Definition isFinished : M AppInstance bool :=
  a ← get;
  if _reported a then mret false
  else if all_marked a then _ ← modify (set_reported true); mret true
  else mret false.

(** [getOutputTensor]: a missing input reads an undefined tensor. *)
Definition getOutputTensor (id : Z) (a : AppInstance) : Tensor := default t_undefined (_input a !! id).
Definition getSizeofInputs (a : AppInstance) : nat := base.size (_input a).

(** ** [request] *)
Inductive Stamp : Type :=
| Start | StartBatch | EndBatch | StartExec | EndExec | EndSend | EndReq | EndCmpq.
#[global] Instance Stamp_eq_dec : EqDecision Stamp.
Proof. solve_decision. Defined.

Definition MAX_REQ_SIZE : Z := 20.

(** [r_times] are the time stamps [start] to [endCmpq]. *)
Record request : Type := mkRequest {
  mTaskID : Z;
  mReqID : Z;
  mBatchID : Z;
  _cgid : Z;
  mClientFD : Z;
  mBatchNum : Z;
  mDeviceID : Z;
  mReqName : string;
  _task : option nat;
  _drop : bool;
  r_times : Stamp -> Z;
  _inputTensors : list Tensor }.

Definition new_request (rid fd bnum : Z) (i : Indet) : request :=
  mkRequest (indet_int i) rid (indet_int i) (indet_int i) fd (u32 bnum) (indet_int i) "" None false
    (fun _ => indet_int i) [].

Definition set_mTaskID (x : Z) (r : request) : request :=
  mkRequest x (mReqID r) (mBatchID r) (_cgid r) (mClientFD r) (mBatchNum r) (mDeviceID r) (mReqName r)
    (_task r) (_drop r) (r_times r) (_inputTensors r).
Definition set_mReqID (x : Z) (r : request) : request :=
  mkRequest (mTaskID r) x (mBatchID r) (_cgid r) (mClientFD r) (mBatchNum r) (mDeviceID r) (mReqName r)
    (_task r) (_drop r) (r_times r) (_inputTensors r).
Definition setBatchID (x : Z) (r : request) : request :=
  mkRequest (mTaskID r) (mReqID r) x (_cgid r) (mClientFD r) (mBatchNum r) (mDeviceID r) (mReqName r)
    (_task r) (_drop r) (r_times r) (_inputTensors r).
Definition setCGID (x : Z) (r : request) : request :=
  mkRequest (mTaskID r) (mReqID r) (mBatchID r) x (mClientFD r) (mBatchNum r) (mDeviceID r) (mReqName r)
    (_task r) (_drop r) (r_times r) (_inputTensors r).
Definition setDeviceID (x : Z) (r : request) : request :=
  mkRequest (mTaskID r) (mReqID r) (mBatchID r) (_cgid r) (mClientFD r) (mBatchNum r) x (mReqName r)
    (_task r) (_drop r) (r_times r) (_inputTensors r).
Definition set_mReqName (x : string) (r : request) : request :=
  mkRequest (mTaskID r) (mReqID r) (mBatchID r) (_cgid r) (mClientFD r) (mBatchNum r) (mDeviceID r) x
    (_task r) (_drop r) (r_times r) (_inputTensors r).
Definition setupAppInstance (task : nat) (r : request) : request :=
  mkRequest (mTaskID r) (mReqID r) (mBatchID r) (_cgid r) (mClientFD r) (mBatchNum r) (mDeviceID r) (mReqName r)
    (Some task) (_drop r) (r_times r) (_inputTensors r).
Definition set_drop (b : bool) (r : request) : request :=
  mkRequest (mTaskID r) (mReqID r) (mBatchID r) (_cgid r) (mClientFD r) (mBatchNum r) (mDeviceID r) (mReqName r)
    (_task r) b (r_times r) (_inputTensors r).
Definition set_time (s : Stamp) (time : Z) (r : request) : request :=
  mkRequest (mTaskID r) (mReqID r) (mBatchID r) (_cgid r) (mClientFD r) (mBatchNum r) (mDeviceID r) (mReqName r)
    (_task r) (_drop r) (fun s' => if decide (s' = s) then time else r_times r s') (_inputTensors r).
Definition pushInputData (input : Tensor) (r : request) : request :=
  mkRequest (mTaskID r) (mReqID r) (mBatchID r) (_cgid r) (mClientFD r) (mBatchNum r) (mDeviceID r) (mReqName r)
    (_task r) (_drop r) (r_times r) (_inputTensors r ++ [input]).

(** [strcpy] into [char mReqName[MAX_REQ_SIZE]], which has to hold the
    terminating zero too. *)
Definition setReqName (net_name : string) (r : request) : outcome request :=
  if (Z.of_nat (String.length net_name) <? MAX_REQ_SIZE)%Z then Done (set_mReqName net_name r)
  else Stop Undefined.

(** [double(to - from)] in nanoseconds, unsigned. *)
Definition elapsed (r : request) (from to : Stamp) : spec_float :=
  i2d (u64 (r_times r to - r_times r from)).
Definition ns_to_ms (x : spec_float) : spec_float := ddiv x (i2d 1000000).

Definition r_getLatency (r : request) : spec_float :=
  let reqTime := elapsed r Start EndReq in
  let execTime := elapsed r StartExec EndExec in
  let batchTime := elapsed r EndReq EndBatch in
  let prepTime := elapsed r EndBatch StartExec in
  ns_to_ms (dadd (dadd (dadd reqTime execTime) batchTime) prepTime).

(** The line [writeToLog] prints: name, batch, request, device, then the
    queueing, waiting, batching, execution, completion and sending times. *)
Definition log_line : Type := string * Z * Z * Z * list spec_float.
Definition r_writeToLog (r : request) : request * log_line :=
  let r := if _drop r then set_mReqID (-1) (set_mTaskID (-1) r) else r in
  (r, (mReqName r, mBatchID r, mReqID r, mDeviceID r,
       map ns_to_ms [elapsed r Start EndReq; elapsed r EndBatch StartExec; elapsed r EndReq EndBatch;
                     elapsed r StartExec EndExec; elapsed r EndExec EndCmpq; elapsed r EndCmpq EndSend])).

(** ** [batched_request] *)
Record batched_request : Type := mkBatched {
  b_BatchNum : Z;
  b_GPUID : Z;
  _StrReqName : string;
  _max_batch : Z;
  b_BatchID : Z;
  batched_tensor : Tensor;
  taskRequests : list nat }.

Definition new_batched (i : Indet) : batched_request :=
  mkBatched 0 (-1) "" (u32 (indet_int i)) (indet_int i) t_undefined [].
Definition setStrName (name : string) (b : batched_request) : batched_request :=
  mkBatched (b_BatchNum b) (b_GPUID b) name (_max_batch b) (b_BatchID b) (batched_tensor b) (taskRequests b).
Definition setMaxBatch (size : Z) (b : batched_request) : batched_request :=
  mkBatched (b_BatchNum b) (b_GPUID b) (_StrReqName b) (u32 size) (b_BatchID b) (batched_tensor b) (taskRequests b).
Definition b_setBatchID (id : Z) (b : batched_request) : batched_request :=
  mkBatched (b_BatchNum b) (b_GPUID b) (_StrReqName b) (_max_batch b) id (batched_tensor b) (taskRequests b).
Definition getNTask (b : batched_request) : nat := length (taskRequests b).

(** The request [t] with its contents [r]. *)
Definition addRequestInfo (t : nat) (r : request) (b : batched_request) : outcome batched_request :=
  if (_max_batch b <? Z.of_nat (length (taskRequests b)))%Z then Stop (Exited 1)
  else
    let num := u32 (b_BatchNum b + mBatchNum r) in
    input ← deref (_inputTensors r !! 0%nat);
    tensor ← (if (num =? 1)%Z then mret input else t_cat (batched_tensor b) input);
    mret (mkBatched num (b_GPUID b) (_StrReqName b) (_max_batch b) (b_BatchID b) tensor
            (taskRequests b ++ [t])).
End Apps.
#[global] Arguments AppInstance : clear implicits.
#[global] Arguments request : clear implicits.
#[global] Arguments batched_request : clear implicits.
