(* ===== verification/AppProps.v ===== *)
(** * Properties of applications and requests: reporting an application once,
    forming a batch, and reading an application graph. *)
From Stdlib Require Import ZArith SpecFloat String Lia.
From S2P Require Import Prelude CppFloat CppStd Json SchedData AppModel.

(** ** Reporting

    The threads that work on an application mark nodes and ask whether it is
    finished; each of the two operations holds [finishMtx], so an execution is
    some sequence of them. *)
Section Reporting.
Context {Tensor : Type} `{!Torch Tensor}.

Inductive app_op : Type := Mark (id : Z) | Ask.
#[local] Instance app_op_eq_dec : EqDecision app_op.
Proof. solve_decision. Defined.
Definition app_step (a : AppInstance Tensor) (o : app_op) : AppInstance Tensor :=
  match o with
  | Mark id => markFinished id a
  | Ask => match isFinished a with Done (_, a') => a' | Stop _ => a end
  end.
Definition app_run (a : AppInstance Tensor) (ops : list app_op) : AppInstance Tensor := foldl app_step a ops.
(** The answer to a question asked after [ops]. *)
Definition answer (a : AppInstance Tensor) (ops : list app_op) : outcome bool :=
  '(r, _) ← isFinished (app_run a ops); mret r.

Definition finished_by (needed : list Z) (ops : list app_op) : Prop :=
  forall id, id ∈ needed -> Mark id ∈ ops.
Definition asked_when_finished (needed : list Z) (ops : list app_op) : Prop :=
  exists p q, ops = p ++ Ask :: q /\ finished_by needed p.

Lemma app_run_snoc (a : AppInstance Tensor) ops o : app_run a (ops ++ [o]) = app_step (app_run a ops) o.
Proof. unfold app_run. by rewrite foldl_app. Qed.

Lemma isFinished_run (a : AppInstance Tensor) :
  isFinished a = Done (negb (_reported a) && all_marked a,
                       if negb (_reported a) && all_marked a then set_reported true a else a).
Proof. unfold isFinished, mbind, M_bind, get, mret, M_ret, modify. by destruct (_reported a), (all_marked a). Qed.

Lemma app_run_check (a : AppInstance Tensor) ops : outputCheck (app_run a ops) = outputCheck a.
Proof.
  induction ops as [|o ops IH] using rev_ind; [done|]. rewrite app_run_snoc, <- IH.
  destruct o; cbn; [done|]. rewrite isFinished_run. by destruct (_ && _).
Qed.

Lemma marked_step (a : AppInstance Tensor) o id : marked (app_step a o) id = bool_decide (o = Mark id) || marked a id.
Proof.
  destruct o as [j|]; cbn.
  - unfold marked, markFinished, set_scoreBoard. cbn. destruct (decide (j = id)) as [->|Hne].
    + rewrite lookup_insert_eq. by rewrite bool_decide_true.
    + rewrite lookup_insert_ne by done. rewrite bool_decide_false by congruence. done.
  - rewrite bool_decide_false by done. rewrite isFinished_run. by destruct (_ && _).
Qed.

Lemma marked_run (a : AppInstance Tensor) ops id : marked a id = false ->
  marked (app_run a ops) id = bool_decide (Mark id ∈ ops).
Proof.
  intros H0. induction ops as [|o ops IH] using rev_ind; [by rewrite bool_decide_false by set_solver|].
  rewrite app_run_snoc, marked_step, IH.
  destruct (decide (o = Mark id)) as [->|Ho].
  - rewrite (bool_decide_true (Mark id = Mark id)) by done. symmetry. apply bool_decide_eq_true. set_solver.
  - rewrite (bool_decide_false (o = Mark id)) by done. cbn. apply bool_decide_ext. set_solver.
Qed.

Lemma all_marked_run (a : AppInstance Tensor) ops : (forall id, marked a id = false) ->
  all_marked (app_run a ops) = true <-> finished_by (outputCheck a) ops.
Proof.
  intros H0. unfold all_marked. rewrite app_run_check, forallb_forall.
  split; intros H id Hid.
  - specialize (H id (proj1 (list_elem_of_In _ _) Hid)). rewrite marked_run in H by done.
    by apply bool_decide_eq_true in H.
  - rewrite marked_run by done. apply bool_decide_eq_true. apply H. by apply list_elem_of_In.
Qed.

Lemma asked_snoc needed ops o :
  asked_when_finished needed (ops ++ [o]) <->
  asked_when_finished needed ops \/ (o = Ask /\ finished_by needed ops).
Proof.
  split.
  - intros (p & q & He & Hf). destruct q as [|x q _] using rev_ind.
    + apply app_inj_tail in He as [-> ->]. by right.
    + left. exists p, q. split; [|done].
      replace (p ++ Ask :: q ++ [x]) with ((p ++ Ask :: q) ++ [x]) in He by (by rewrite <- app_assoc).
      by apply app_inj_tail in He as [-> _].
  - intros [(p & q & -> & Hf)|[-> Hf]]; [|by exists ops, []].
    exists p, (q ++ [o]). split; [by rewrite <- app_assoc|done].
Qed.

Lemma reported_run (a : AppInstance Tensor) ops : (forall id, marked a id = false) -> _reported a = false ->
  _reported (app_run a ops) = true <-> asked_when_finished (outputCheck a) ops.
Proof.
  intros H0 Hr. induction ops as [|o ops IH] using rev_ind.
  { cbn. rewrite Hr. split; [done|]. intros (p & q & He & _). by destruct p. }
  rewrite app_run_snoc, asked_snoc, <- IH, <- (all_marked_run a ops H0). destruct o; cbn.
  - split; [by left|]. intros [H|[H _]]; done.
  - rewrite isFinished_run. destruct (_reported (app_run a ops)) eqn:E1, (all_marked (app_run a ops)) eqn:E2;
      cbn; rewrite ?E1; intuition congruence.
Qed.

Lemma fresh_board_unmarked n id : default false (fresh_board n !! id) = false.
Proof.
  unfold fresh_board. generalize (seq 0 n). intros l.
  assert (H : forall (m : gmap Z bool) l, default false (m !! id) = false ->
    default false (foldl (fun m i => <[Z.of_nat i := false]> m) m l !! id) = false).
  { intros m l'. revert m. induction l' as [|x l' IH]; intros m Hm; [done|]. cbn. apply IH.
    destruct (decide (Z.of_nat x = id)) as [->|]; [by rewrite lookup_insert_eq|by rewrite lookup_insert_ne]. }
  by apply H.
Qed.

(** An application is reported finished exactly once, and only when it is.
    Over any interleaving of the threads' operations, the answer of isFinished
    is true if and only if every input of the outputs of the application was
    marked before the question, and no earlier question came after that. *)
Lemma isFinished_reports_once name ptr spec ind ops :
  let needed := getInputforOutput spec in
  exists r, answer (new_AppInstance name ptr spec ind : AppInstance Tensor) ops = Done r /\
    (r = true <-> finished_by needed ops /\ ~ asked_when_finished needed ops).
Proof.
  intros needed. set (a := new_AppInstance name ptr spec ind : AppInstance Tensor).
  assert (H0 : forall id, marked a id = false) by (intros id; apply fresh_board_unmarked).
  pose proof (all_marked_run a ops H0) as Ha. pose proof (reported_run a ops H0 eq_refl) as Hr.
  unfold answer. rewrite isFinished_run. cbn. eexists. split; [done|].
  change (outputCheck a) with needed in *.
  destruct (_reported (app_run a ops)), (all_marked (app_run a ops)); cbn; intuition congruence.
Qed.
End Reporting.

(** ** Batches *)
Section Batches.
Context {Tensor : Type} `{!Torch Tensor}.

(** The requests [rs] are added in order to a batch. *)
Fixpoint add_all (rs : list (nat * request Tensor)) (b : batched_request Tensor) :
    outcome (batched_request Tensor) :=
  match rs with
  | [] => Done b
  | (t, r) :: rs' => b' ← addRequestInfo t r b; add_all rs' b'
  end.

(** The requests of the program carry one tensor and count one. *)
Definition single (r : request Tensor) (x : Tensor) : Prop :=
  mBatchNum r = 1%Z /\ _inputTensors r = [x].

(** The first tensor, then one concatenation per further request. *)
Definition cat_all (xs : list Tensor) : outcome Tensor :=
  match xs with
  | [] => Done t_undefined
  | x :: xs => foldl (fun acc y => a ← acc; t_cat a y) (Done x) xs
  end.

Lemma cat_all_snoc xs x y : cat_all xs = Done x -> xs <> [] -> cat_all (xs ++ [y]) = t_cat x y.
Proof.
  destruct xs as [|z xs]; [done|]. cbn [cat_all app]. intros H _. rewrite foldl_app, H. done.
Qed.

(** What a batch built from [done] looks like. *)
Definition batch_of (rs : list (nat * request Tensor)) (xs : list Tensor) (m : Z) (b : batched_request Tensor) : Prop :=
  taskRequests b = map fst rs /\ b_BatchNum b = Z.of_nat (length rs) /\ _max_batch b = m /\
  cat_all xs = Done (batched_tensor b).

Lemma add_one rs xs m b t r x :
  (0 <= m < 4294967294)%Z -> batch_of rs xs m b -> length xs = length rs -> single r x ->
  if (m <? Z.of_nat (length rs))%Z then addRequestInfo t r b = Stop (Exited 1)
  else match cat_all (xs ++ [x]) with
       | Done c => exists b', addRequestInfo t r b = Done b' /\ batch_of (rs ++ [(t, r)]) (xs ++ [x]) m b'
       | Stop e => addRequestInfo t r b = Stop e
       end.
Proof.
  intros Hm (Ht & Hn & Hmax & Hc) Hlen [Hb Hi]. unfold addRequestInfo.
  rewrite Hmax, Ht, length_map. destruct (m <? Z.of_nat (length rs))%Z eqn:E; [done|].
  apply Z.ltb_ge in E. rewrite Hn, Hb, Hi.
  assert (Hu : u32 (Z.of_nat (length rs) + 1) = (Z.of_nat (length rs) + 1)%Z)
    by (unfold u32; apply Z.mod_small; lia).
  rewrite Hu. cbn [lookup list_lookup deref mbind outcome_bind].
  destruct rs as [|q rs].
  - destruct xs; [|done]. cbn. eexists. by split; [|unfold batch_of].
  - rewrite (proj2 (Z.eqb_neq _ _)) by (cbn; lia).
    rewrite (cat_all_snoc xs _ x Hc) by (destruct xs; [done|congruence]).
    destruct (t_cat (batched_tensor b) x) as [c|e] eqn:Ec; [|done]. cbn. eexists. split; [done|].
    unfold batch_of. cbn [taskRequests b_BatchNum _max_batch batched_tensor].
    rewrite (cat_all_snoc xs _ x Hc) by (destruct xs; [done|congruence]).
    split_and!; try done; [symmetry; apply (List.map_app fst (q :: rs) [(t, r)])|].
    cbn. rewrite length_app. cbn. lia.
Qed.

(** Adding the rest [todo], with tensors [ys], to a batch made of [rs]. *)
Lemma add_all_spec todo : forall rs xs ys m b,
  (0 <= m < 4294967294)%Z -> batch_of rs xs m b -> length xs = length rs ->
  Forall2 (fun p y => single p.2 y) todo ys ->
  (forall k, is_Some (match cat_all (take k (xs ++ ys)) with Done c => Some c | Stop _ => None end)) ->
  if (m + 1 <? Z.of_nat (length rs + length todo))%Z
  then (Z.of_nat (length rs) <= m + 1)%Z -> add_all todo b = Stop (Exited 1)
  else exists b', add_all todo b = Done b' /\ batch_of (rs ++ todo) (xs ++ ys) m b'.
Proof.
  induction todo as [|[t r] todo IH]; intros rs xs ys m b Hm Hb Hlen Hys Hcat.
  - apply Forall2_nil_inv_l in Hys as ->. rewrite Nat.add_0_r, !app_nil_r.
    destruct (m + 1 <? Z.of_nat (length rs))%Z eqn:E; [apply Z.ltb_lt in E; lia|]. by exists b.
  - apply Forall2_cons_inv_l in Hys as (y & ys' & Hr & Hys & ->). cbn [snd] in Hr.
    pose proof (add_one rs xs m b t r y Hm Hb Hlen Hr) as H1.
    assert (Hc1 : exists c, cat_all (xs ++ [y]) = Done c).
    { destruct (Hcat (length xs + 1)%nat) as [c Hc].
      replace (take (length xs + 1) (xs ++ y :: ys')) with (xs ++ [y]) in Hc.
      - destruct (cat_all (xs ++ [y])); [by eexists|done].
      - rewrite take_app_add. done. }
    destruct Hc1 as [c Hc1]. rewrite Hc1 in H1. cbn [add_all].
    destruct (m <? Z.of_nat (length rs))%Z eqn:E1.
    + rewrite H1. apply Z.ltb_lt in E1.
      destruct (m + 1 <? _)%Z eqn:E2; [done|]. apply Z.ltb_ge in E2. cbn in E2. lia.
    + destruct H1 as (b' & -> & Hb'). apply Z.ltb_ge in E1.
      specialize (IH (rs ++ [(t, r)]) (xs ++ [y]) ys' m b' Hm Hb').
      rewrite <- !app_assoc, !length_app in IH. cbn [app length] in IH.
      specialize (IH ltac:(lia) Hys Hcat).
      replace (length rs + 1 + length todo)%nat with (length rs + length ((t, r) :: todo))%nat in IH by (cbn; lia).
      cbn [mbind outcome_bind]. destruct (m + 1 <? _)%Z; [|exact IH]. intros _. apply IH. lia.
Qed.

(** Forming a batch.  From an empty batch with limit [m], requests of one
    tensor each are accepted in order as long as there are no more than [m + 1]
    of them: the batch then lists them, counts them, and its tensor is the
    concatenation of theirs in the same order.  One more ends the process with
    exit(1): the test lets the batch grow one past its limit. *)
Lemma addRequestInfo_limit rs xs m ind :
  (0 <= m < 4294967294)%Z -> Forall2 (fun p x => single p.2 x) rs xs ->
  (forall k, exists c, cat_all (take k xs) = Done c) ->
  let b0 := setMaxBatch m (new_batched ind) : batched_request Tensor in
  if (m + 1 <? Z.of_nat (length rs))%Z then add_all rs b0 = Stop (Exited 1)
  else exists b, add_all rs b0 = Done b /\ taskRequests b = map fst rs /\
    b_BatchNum b = Z.of_nat (length rs) /\ cat_all xs = Done (batched_tensor b).
Proof.
  intros Hm Hrs Hcat b0.
  assert (H0 : batch_of [] [] m b0).
  { unfold batch_of, b0. cbn. unfold u32. rewrite Z.mod_small by lia. done. }
  pose proof (add_all_spec rs [] [] xs m b0 Hm H0 eq_refl Hrs) as H. cbn [app length] in H.
  specialize (H ltac:(intros k; destruct (Hcat k) as [c ->]; by eexists)). rewrite Nat.add_0_l in H.
  destruct (m + 1 <? Z.of_nat (length rs))%Z; [apply H; lia|].
  destruct H as (b & H1 & H2 & H3 & _ & H4). by exists b.
Qed.
End Batches.

(** Tensors as lists of rows. *)
#[local] Instance rows_torch : Torch (list Z) := {
  t_undefined := []; t_plus a b := if decide (a = []) then Stop Uncaught else Done (zip_with Z.add a b);
  t_div a n := Done (map (fun x => Z.quot x n) a); t_cat a b := Done (a ++ b);
  t_split a := Done (map (fun x => [x]) a); t_size0 a := Done (Z.of_nat (length a)); t_ones := [1%Z] }.

Definition demo_request (x : Z) : request (list Z) :=
  pushInputData [x] (new_request x 0 1 (mkIndet 0 fzero false)).

Lemma addRequestInfo_limit_witness :
  exists b, add_all [(4%nat, demo_request 7); (9%nat, demo_request 8)]
      (setMaxBatch 1 (new_batched (mkIndet 0 fzero false))) = Done b /\
    taskRequests b = [4; 9]%nat /\ batched_tensor b = [7; 8]%Z.
Proof.
  destruct (addRequestInfo_limit [(4%nat, demo_request 7); (9%nat, demo_request 8)] [[7]; [8]]%Z 1
    (mkIndet 0 fzero false)) as (b & H1 & H2 & _ & H4).
  - lia.
  - repeat constructor.
  - intros [|[|[|k]]]; eexists; reflexivity.
  - exists b. split; [exact H1|]. split; [exact H2|]. vm_compute in H4. by injection H4.
Defined.

(** ** Application graphs *)
Definition ints_json (zs : list Z) : Value := JArray (map JInt zs).
Definition type_text (t : TensorDataOption) : string :=
  match t with KFLOAT32 => "FP32" | KINT64 => "INT64" end.
Definition input_json (t : TensorSpec) : Value :=
  JObject [("ID", JInt (ts_id t)); ("InputDim", ints_json (ts_dim t));
           ("InputType", JString (type_text (ts_dataType t))); ("output", ints_json (ts_output t))]%string.
Definition model_json (c : CompDep) : Value :=
  JObject [("ID", JInt (cd_id c)); ("input", ints_json (cd_input c));
           ("model", JString (cd_name c)); ("output", ints_json (cd_output c))]%string.
Definition output_json (c : CompDep) : Value :=
  JObject [("Comp", JString (cd_name c)); ("ID", JInt (cd_id c)); ("input", ints_json (cd_input c))]%string.
Definition app_json (inputs : list TensorSpec) (models outputs : list CompDep) : Value :=
  JObject [("Input", JArray (map input_json inputs)); ("Models", JArray (map model_json models));
           ("Output", JArray (map output_json outputs))]%string.

Definition input_ok (t : TensorSpec) : Prop :=
  in_i32 (ts_id t) /\ Forall in_i32 (ts_dim t) /\ Forall in_i32 (ts_output t).
Definition model_ok (c : CompDep) : Prop :=
  cd_type c = "Model"%string /\ cd_SLO c = 0%Z /\ cd_predecessor c = 0%Z /\
  in_i32 (cd_id c) /\ Forall in_i32 (cd_input c) /\ Forall in_i32 (cd_output c).
Definition output_ok (c : CompDep) : Prop :=
  cd_type c = "Output"%string /\ cd_SLO c = 0%Z /\ cd_predecessor c = 0%Z /\ cd_output c = [] /\
  in_i32 (cd_id c) /\ Forall in_i32 (cd_input c).

Lemma asInt_in_i32 z : in_i32 z -> asInt (JInt z) = Done z.
Proof. intros H. cbn. unfold in_i32, minInt, maxInt in *. by rewrite !(proj2 (Z.leb_le _ _)) by lia. Qed.

(** The accesses [v["key"]] on an object that has the key. *)
Lemma member_then {A} v key x (f : Value -> outcome A) a :
  member v key = Done x -> f x = Done a -> (y ← member v key; f y) = Done a.
Proof. intros H1 H2. unfold mbind, outcome_bind. by rewrite H1. Qed.
Lemma ints_member v key zs :
  member v key = Done (ints_json zs) -> Forall in_i32 zs -> (y ← member v key; int_elements y) = Done zs.
Proof. intros H1 H2. eapply member_then; [exact H1|by apply int_elements_ints]. Qed.
Lemma int_member v key z :
  member v key = Done (JInt z) -> in_i32 z -> (y ← member v key; asInt y) = Done z.
Proof. intros H1 H2. eapply member_then; [exact H1|by apply asInt_in_i32]. Qed.

Lemma element_middle {A} (f : A -> Value) pre x l :
  element (JArray (map f (pre ++ x :: l))) (length pre) = Done (f x).
Proof. cbn. rewrite List.map_app, List.map_cons, list_lookup_middle by (by rewrite length_map). done. Qed.

Lemma read_model_json pre c l : model_ok c ->
  read_model (JArray (map model_json (pre ++ c :: l))) (length pre) = Done c.
Proof.
  intros (Ht & Hs & Hp & Hid & Hin & Hout). unfold read_model.
  rewrite (obind_done _ _ _ (element_middle _ _ _ _)).
  rewrite (obind_done _ _ (cd_name c)) by done.
  rewrite (obind_done _ _ _ (int_member (model_json c) "ID" _ eq_refl Hid)).
  rewrite (obind_done _ _ _ (ints_member (model_json c) "input" _ eq_refl Hin)).
  rewrite (obind_done _ _ _ (ints_member (model_json c) "output" _ eq_refl Hout)).
  destruct c; cbn in *; by subst.
Qed.

Lemma read_output_json pre c l : output_ok c ->
  read_output (JArray (map output_json (pre ++ c :: l))) (length pre) = Done c.
Proof.
  intros (Ht & Hs & Hp & Ho & Hid & Hin). unfold read_output.
  rewrite (obind_done _ _ _ (element_middle _ _ _ _)).
  rewrite (obind_done _ _ (cd_name c)) by done.
  rewrite (obind_done _ _ _ (int_member (output_json c) "ID" _ eq_refl Hid)).
  rewrite (obind_done _ _ _ (ints_member (output_json c) "input" _ eq_refl Hin)).
  destruct c; cbn in *; by subst.
Qed.

Lemma read_input_json pre t l a : input_ok t ->
  read_input (JArray (map input_json (pre ++ t :: l))) (length pre) a = Done (None, addInputSpec t a).
Proof.
  intros (Hid & Hd & Ho). unfold read_input.
  rewrite (lift_done _ _ _ _ (element_middle _ _ _ _)).
  rewrite (lift_done _ _ _ _ (ints_member (input_json t) "InputDim" _ eq_refl Hd)).
  rewrite (lift_done _ _ _ _ (int_member (input_json t) "ID" _ eq_refl Hid)).
  rewrite (lift_done _ _ (type_text (ts_dataType t))) by done.
  replace (read_input_type (type_text (ts_dataType t))) with (Some (ts_dataType t)) by (by destruct (ts_dataType t)).
  rewrite (lift_done _ _ _ _ (ints_member (input_json t) "output" _ eq_refl Ho)). by destruct t.
Qed.

(** Reading a whole array. *)
Lemma push_read {X} (enc : X -> Value) (rd : Value -> nat -> outcome CompDep) (out : X -> CompDep) l :
  forall pre a,
  (forall pre' x l', pre' ++ x :: l' = pre ++ l -> rd (JArray (map enc (pre' ++ x :: l'))) (length pre') = Done (out x)) ->
  for_each (seq (length pre) (length l))
    (fun i => c ← lift (rd (JArray (map enc (pre ++ l))) i); push_comp c) a =
  Done (tt, set_ModelTable (_ModelTable a ++ map out l) a).
Proof.
  induction l as [|x l IH]; intros pre a Hrd; cbn.
  - rewrite app_nil_r. by destruct a.
  - rewrite (bind_done _ _ a tt (set_ModelTable (_ModelTable a ++ [out x]) a)).
    2:{ by rewrite (lift_done _ _ _ _ (Hrd pre x l eq_refl)). }
    specialize (IH (pre ++ [x]) (set_ModelTable (_ModelTable a ++ [out x]) a)).
    rewrite <- app_assoc, length_app, Nat.add_1_r in IH. cbn [app] in IH.
    rewrite IH by done. cbn. by rewrite <- app_assoc.
Qed.

Lemma read_inputs_json l : Forall input_ok l -> forall pre a,
  for_ret (seq (length pre) (length l)) (read_input (JArray (map input_json (pre ++ l)))) a =
  Done (None, set_inputTensors (inputTensors a ++ l) a).
Proof.
  induction 1 as [|t l Ht Hl IH]; intros pre a; cbn.
  - rewrite app_nil_r. by destruct a.
  - rewrite (bind_done _ _ _ _ _ (read_input_json pre t l a Ht)).
    specialize (IH (pre ++ [t]) (addInputSpec t a)).
    rewrite <- app_assoc, length_app, Nat.add_1_r in IH. cbn [app] in IH.
    rewrite IH. cbn. by rewrite <- app_assoc.
Qed.

Lemma push_each {X} (f : X -> CompDep) (l : list X) : forall a,
  for_each l (fun x => push_comp (f x)) a = Done (tt, set_ModelTable (_ModelTable a ++ map f l) a).
Proof.
  induction l as [|x l IH]; intros a; cbn.
  - rewrite app_nil_r. by destruct a.
  - rewrite (bind_done _ _ a tt (set_ModelTable (_ModelTable a ++ [f x]) a)) by done.
    rewrite IH. cbn. by rewrite <- app_assoc.
Qed.

Lemma setupModelDependency_json inputs models outputs a :
  Forall model_ok models -> Forall output_ok outputs ->
  setupModelDependency (Some (app_json inputs models outputs)) a =
  Done (EXIT_SUCCESS, set_ModelTable (_ModelTable a ++ map input_comp (inputTensors a) ++ models ++ outputs) a).
Proof.
  intros Hm Ho. unfold setupModelDependency. rewrite (bind_done get _ a a a) by done.
  set (a1 := set_ModelTable (_ModelTable a ++ map input_comp (inputTensors a)) a).
  rewrite (bind_done _ _ a tt a1) by apply push_each.
  rewrite (lift_done (member _ "Models") _ (JArray (map model_json models))) by done.
  cbn [size]. rewrite length_map.
  pose proof (push_read model_json read_model id models [] a1) as H1. cbn [length app] in H1.
  rewrite (bind_done _ _ _ _ _ (H1 ltac:(intros pre x l He; apply read_model_json;
    rewrite Forall_forall in Hm; apply Hm; rewrite <- He; set_solver))). clear H1.
  set (a2 := set_ModelTable _ a1).
  rewrite (lift_done (member _ "Output") _ (JArray (map output_json outputs))) by done.
  cbn [size]. rewrite length_map.
  pose proof (push_read output_json read_output id outputs [] a2) as H2. cbn [length app] in H2.
  rewrite (bind_done _ _ _ _ _ (H2 ltac:(intros pre x l He; apply read_output_json;
    rewrite Forall_forall in Ho; apply Ho; rewrite <- He; set_solver))).
  unfold a2, a1. cbn. by rewrite !list_fmap_id, <- !app_assoc.
Qed.

Lemma concat_nils (l : list CompDep) :
  Forall (fun c => (if String.eqb (cd_type c) "Output" then cd_input c else []) = []) l ->
  concat (map (fun c => if String.eqb (cd_type c) "Output" then cd_input c else []) l) = [].
Proof. induction 1 as [|c l Hc _ IH]; [done|]. cbn. by rewrite Hc, IH. Qed.

(** C35: an application file is read back as the graph it describes.  Reading
    the parsed JSON value of a graph gives the application exactly its input
    tensors, and a node table that lists, in the order of the file, one node per
    input with its number and its outgoing edges, then the models and the outputs
    with their names, numbers and edges; the tensors needed to finish the
    application are the inputs of the outputs. *)
Theorem readAppJSONFile_roundtrip name ind inputs models outputs :
  Forall input_ok inputs -> Forall model_ok models -> Forall output_ok outputs ->
  exists a, readAppJSONFile (Some (app_json inputs models outputs)) (new_AppSpec name ind) = Done (EXIT_SUCCESS, a) /\
    as_name a = name /\ inputTensors a = inputs /\
    _ModelTable a =
      map (fun t => {| cd_type := "Input"; cd_name := "Input"; cd_id := ts_id t; cd_SLO := 0; cd_predecessor := 0;
                       cd_input := []; cd_output := ts_output t |}) inputs ++ models ++ outputs /\
    getInputforOutput a = concat (map cd_input outputs).
Proof.
  intros Hi Hm Ho. unfold readAppJSONFile. set (a0 := new_AppSpec name ind).
  rewrite (lift_done (member _ "Input") _ (JArray (map input_json inputs))) by done.
  cbn [size]. rewrite length_map.
  pose proof (read_inputs_json inputs Hi [] a0) as H1. cbn [length app] in H1.
  rewrite (bind_done _ _ _ _ _ H1).
  rewrite (bind_done _ _ _ _ _ (setupModelDependency_json inputs models outputs _ Hm Ho)).
  eexists. split; [done|]. cbn. split_and!; [done|done|done|].
  unfold getInputforOutput. cbn [_ModelTable set_ModelTable set_inputTensors inputTensors a0 new_AppSpec app].
  rewrite !List.map_app, !concat_app, (concat_nils (map input_comp inputs)), (concat_nils models).
  - cbn. f_equal. apply map_ext_Forall. eapply Forall_impl; [exact Ho|]. intros c (Hc & _). cbn. by rewrite Hc.
  - eapply Forall_impl; [exact Hm|]. intros c (Hc & _). cbn. by rewrite Hc.
  - apply Forall_fmap, Forall_true. done.
Qed.

Definition demo_graph : list TensorSpec * list CompDep * list CompDep :=
  ([mkTensorSpec [1; 28; 28] [1] 0 KFLOAT32],
   [mkCompDep "Model" "lenet1" 1 0 0 [0] [2]],
   [mkCompDep "Output" "None" 2 0 0 [1] []])%Z%string.

Lemma readAppJSONFile_roundtrip_witness :
  exists a, readAppJSONFile (Some (app_json demo_graph.1.1 demo_graph.1.2 demo_graph.2))
      (new_AppSpec "game" (mkIndet 0 fzero false)) = Done (EXIT_SUCCESS, a) /\
    map (fun c => (cd_type c, cd_id c, cd_output c)) (_ModelTable a) =
      [("Input", 0, [1]); ("Model", 1, [2]); ("Output", 2, [])]%Z%string /\
    getInputforOutput a = [1]%Z.
Proof.
  destruct (readAppJSONFile_roundtrip "game" (mkIndet 0 fzero false) demo_graph.1.1 demo_graph.1.2 demo_graph.2)
    as (a & H1 & _ & _ & Ht & H2).
  - repeat first [apply Forall_cons; split | apply Forall_nil | split]; cbn; unfold in_i32; try lia; done.
  - repeat first [apply Forall_cons; split | apply Forall_nil | split]; cbn; unfold in_i32; try lia; done.
  - repeat first [apply Forall_cons; split | apply Forall_nil | split]; cbn; unfold in_i32; try lia; done.
  - exists a. split; [exact H1|]. rewrite Ht, H2. split; reflexivity.
Defined.
