(* ===== verification/SysState.v ===== *)
(** * The state the frontend's threads share ([service/sys_monitor.h],
    [service/sys_monitor.cpp]) and the record of a GPU partition
    ([common/gpu_proxy.h]).

    A [proxy_info *] is an index of the store [f_proxies].  Mutexes and condition
    variables have no contents; the file descriptors of a proxy are not
    modelled. *)
From Stdlib Require Import ZArith SpecFloat String Lia.
From S2P Require Import Prelude CppFloat CppStd SchedData LoadBalancer AppModel.

Abbreviation ProxyPtr := nat (only parsing).

(** ** [proxy_info] *)
Record ProxyInfo : Type := mkProxyInfo {
  p_node_id : Z;
  p_dev_id : Z;
  p_cap : Z;
  p_dedup_num : Z;
  isBooted : bool;
  isConnected : bool;
  isConnectedtoBackend : bool;
  isSetup : bool;
  isSchedulable : bool;
  isLoading : bool;
  isUnloading : bool;
  p_duty_cycle : spec_float;
  isReserved : bool;
  partition_num : Z;
  p_type : string;
  isTaskBatching : gmap string Z;
  isTaskExec : gmap string Z;
  PerTaskLatencyVec : gmap string (list spec_float);
  PerTaskSkipCnt : gmap string Z;
  PerTaskTrp : gmap string spec_float;
  LoadedModels : list string }.

(** The members the load balancer reads. *)
Definition lb_proxy (p : ProxyInfo) : LoadBalancer.proxy_info :=
  LoadBalancer.mkProxy (p_dev_id p) (p_cap p) (p_dedup_num p).

(** The constructor; the members it leaves alone hold arbitrary values, even
    [node_id]: its [int node_id=0] declares a local. *)
Definition new_proxy_info (i : Indet) : ProxyInfo :=
  mkProxyInfo (indet_int i) (indet_int i) (indet_int i) (indet_int i) (indet_bool i) false
    false (indet_bool i) false false false (indet_float i) false (indet_int i) "" ∅ ∅ ∅ ∅ ∅ [].

Definition set_p_node_id (x : Z) (p : ProxyInfo) : ProxyInfo :=
  mkProxyInfo x (p_dev_id p) (p_cap p) (p_dedup_num p) (isBooted p) (isConnected p)
    (isConnectedtoBackend p) (isSetup p) (isSchedulable p) (isLoading p) (isUnloading p)
    (p_duty_cycle p) (isReserved p) (partition_num p) (p_type p) (isTaskBatching p) (isTaskExec p)
    (PerTaskLatencyVec p) (PerTaskSkipCnt p) (PerTaskTrp p) (LoadedModels p).
Definition set_p_dev_id (x : Z) (p : ProxyInfo) : ProxyInfo :=
  mkProxyInfo (p_node_id p) x (p_cap p) (p_dedup_num p) (isBooted p) (isConnected p)
    (isConnectedtoBackend p) (isSetup p) (isSchedulable p) (isLoading p) (isUnloading p)
    (p_duty_cycle p) (isReserved p) (partition_num p) (p_type p) (isTaskBatching p) (isTaskExec p)
    (PerTaskLatencyVec p) (PerTaskSkipCnt p) (PerTaskTrp p) (LoadedModels p).
Definition set_p_cap (x : Z) (p : ProxyInfo) : ProxyInfo :=
  mkProxyInfo (p_node_id p) (p_dev_id p) x (p_dedup_num p) (isBooted p) (isConnected p)
    (isConnectedtoBackend p) (isSetup p) (isSchedulable p) (isLoading p) (isUnloading p)
    (p_duty_cycle p) (isReserved p) (partition_num p) (p_type p) (isTaskBatching p) (isTaskExec p)
    (PerTaskLatencyVec p) (PerTaskSkipCnt p) (PerTaskTrp p) (LoadedModels p).
Definition set_p_dedup_num (x : Z) (p : ProxyInfo) : ProxyInfo :=
  mkProxyInfo (p_node_id p) (p_dev_id p) (p_cap p) x (isBooted p) (isConnected p)
    (isConnectedtoBackend p) (isSetup p) (isSchedulable p) (isLoading p) (isUnloading p)
    (p_duty_cycle p) (isReserved p) (partition_num p) (p_type p) (isTaskBatching p) (isTaskExec p)
    (PerTaskLatencyVec p) (PerTaskSkipCnt p) (PerTaskTrp p) (LoadedModels p).
Definition set_isBooted (x : bool) (p : ProxyInfo) : ProxyInfo :=
  mkProxyInfo (p_node_id p) (p_dev_id p) (p_cap p) (p_dedup_num p) x (isConnected p)
    (isConnectedtoBackend p) (isSetup p) (isSchedulable p) (isLoading p) (isUnloading p)
    (p_duty_cycle p) (isReserved p) (partition_num p) (p_type p) (isTaskBatching p) (isTaskExec p)
    (PerTaskLatencyVec p) (PerTaskSkipCnt p) (PerTaskTrp p) (LoadedModels p).
Definition set_isConnected (x : bool) (p : ProxyInfo) : ProxyInfo :=
  mkProxyInfo (p_node_id p) (p_dev_id p) (p_cap p) (p_dedup_num p) (isBooted p) x
    (isConnectedtoBackend p) (isSetup p) (isSchedulable p) (isLoading p) (isUnloading p)
    (p_duty_cycle p) (isReserved p) (partition_num p) (p_type p) (isTaskBatching p) (isTaskExec p)
    (PerTaskLatencyVec p) (PerTaskSkipCnt p) (PerTaskTrp p) (LoadedModels p).
Definition set_isConnectedtoBackend (x : bool) (p : ProxyInfo) : ProxyInfo :=
  mkProxyInfo (p_node_id p) (p_dev_id p) (p_cap p) (p_dedup_num p) (isBooted p) (isConnected p) x
    (isSetup p) (isSchedulable p) (isLoading p) (isUnloading p) (p_duty_cycle p) (isReserved p)
    (partition_num p) (p_type p) (isTaskBatching p) (isTaskExec p) (PerTaskLatencyVec p)
    (PerTaskSkipCnt p) (PerTaskTrp p) (LoadedModels p).
Definition set_isSetup (x : bool) (p : ProxyInfo) : ProxyInfo :=
  mkProxyInfo (p_node_id p) (p_dev_id p) (p_cap p) (p_dedup_num p) (isBooted p) (isConnected p)
    (isConnectedtoBackend p) x (isSchedulable p) (isLoading p) (isUnloading p) (p_duty_cycle p)
    (isReserved p) (partition_num p) (p_type p) (isTaskBatching p) (isTaskExec p)
    (PerTaskLatencyVec p) (PerTaskSkipCnt p) (PerTaskTrp p) (LoadedModels p).
Definition set_isSchedulable (x : bool) (p : ProxyInfo) : ProxyInfo :=
  mkProxyInfo (p_node_id p) (p_dev_id p) (p_cap p) (p_dedup_num p) (isBooted p) (isConnected p)
    (isConnectedtoBackend p) (isSetup p) x (isLoading p) (isUnloading p) (p_duty_cycle p)
    (isReserved p) (partition_num p) (p_type p) (isTaskBatching p) (isTaskExec p)
    (PerTaskLatencyVec p) (PerTaskSkipCnt p) (PerTaskTrp p) (LoadedModels p).
Definition set_isLoading (x : bool) (p : ProxyInfo) : ProxyInfo :=
  mkProxyInfo (p_node_id p) (p_dev_id p) (p_cap p) (p_dedup_num p) (isBooted p) (isConnected p)
    (isConnectedtoBackend p) (isSetup p) (isSchedulable p) x (isUnloading p) (p_duty_cycle p)
    (isReserved p) (partition_num p) (p_type p) (isTaskBatching p) (isTaskExec p)
    (PerTaskLatencyVec p) (PerTaskSkipCnt p) (PerTaskTrp p) (LoadedModels p).
Definition set_isUnloading (x : bool) (p : ProxyInfo) : ProxyInfo :=
  mkProxyInfo (p_node_id p) (p_dev_id p) (p_cap p) (p_dedup_num p) (isBooted p) (isConnected p)
    (isConnectedtoBackend p) (isSetup p) (isSchedulable p) (isLoading p) x (p_duty_cycle p)
    (isReserved p) (partition_num p) (p_type p) (isTaskBatching p) (isTaskExec p)
    (PerTaskLatencyVec p) (PerTaskSkipCnt p) (PerTaskTrp p) (LoadedModels p).
Definition set_p_duty_cycle (x : spec_float) (p : ProxyInfo) : ProxyInfo :=
  mkProxyInfo (p_node_id p) (p_dev_id p) (p_cap p) (p_dedup_num p) (isBooted p) (isConnected p)
    (isConnectedtoBackend p) (isSetup p) (isSchedulable p) (isLoading p) (isUnloading p) x
    (isReserved p) (partition_num p) (p_type p) (isTaskBatching p) (isTaskExec p)
    (PerTaskLatencyVec p) (PerTaskSkipCnt p) (PerTaskTrp p) (LoadedModels p).
Definition set_isReserved (x : bool) (p : ProxyInfo) : ProxyInfo :=
  mkProxyInfo (p_node_id p) (p_dev_id p) (p_cap p) (p_dedup_num p) (isBooted p) (isConnected p)
    (isConnectedtoBackend p) (isSetup p) (isSchedulable p) (isLoading p) (isUnloading p)
    (p_duty_cycle p) x (partition_num p) (p_type p) (isTaskBatching p) (isTaskExec p)
    (PerTaskLatencyVec p) (PerTaskSkipCnt p) (PerTaskTrp p) (LoadedModels p).
Definition set_partition_num (x : Z) (p : ProxyInfo) : ProxyInfo :=
  mkProxyInfo (p_node_id p) (p_dev_id p) (p_cap p) (p_dedup_num p) (isBooted p) (isConnected p)
    (isConnectedtoBackend p) (isSetup p) (isSchedulable p) (isLoading p) (isUnloading p)
    (p_duty_cycle p) (isReserved p) x (p_type p) (isTaskBatching p) (isTaskExec p)
    (PerTaskLatencyVec p) (PerTaskSkipCnt p) (PerTaskTrp p) (LoadedModels p).
Definition set_p_type (x : string) (p : ProxyInfo) : ProxyInfo :=
  mkProxyInfo (p_node_id p) (p_dev_id p) (p_cap p) (p_dedup_num p) (isBooted p) (isConnected p)
    (isConnectedtoBackend p) (isSetup p) (isSchedulable p) (isLoading p) (isUnloading p)
    (p_duty_cycle p) (isReserved p) (partition_num p) x (isTaskBatching p) (isTaskExec p)
    (PerTaskLatencyVec p) (PerTaskSkipCnt p) (PerTaskTrp p) (LoadedModels p).
Definition set_isTaskBatching (x : gmap string Z) (p : ProxyInfo) : ProxyInfo :=
  mkProxyInfo (p_node_id p) (p_dev_id p) (p_cap p) (p_dedup_num p) (isBooted p) (isConnected p)
    (isConnectedtoBackend p) (isSetup p) (isSchedulable p) (isLoading p) (isUnloading p)
    (p_duty_cycle p) (isReserved p) (partition_num p) (p_type p) x (isTaskExec p)
    (PerTaskLatencyVec p) (PerTaskSkipCnt p) (PerTaskTrp p) (LoadedModels p).
Definition set_isTaskExec (x : gmap string Z) (p : ProxyInfo) : ProxyInfo :=
  mkProxyInfo (p_node_id p) (p_dev_id p) (p_cap p) (p_dedup_num p) (isBooted p) (isConnected p)
    (isConnectedtoBackend p) (isSetup p) (isSchedulable p) (isLoading p) (isUnloading p)
    (p_duty_cycle p) (isReserved p) (partition_num p) (p_type p) (isTaskBatching p) x
    (PerTaskLatencyVec p) (PerTaskSkipCnt p) (PerTaskTrp p) (LoadedModels p).
Definition set_PerTaskLatencyVec (x : gmap string (list spec_float)) (p : ProxyInfo) : ProxyInfo :=
  mkProxyInfo (p_node_id p) (p_dev_id p) (p_cap p) (p_dedup_num p) (isBooted p) (isConnected p)
    (isConnectedtoBackend p) (isSetup p) (isSchedulable p) (isLoading p) (isUnloading p)
    (p_duty_cycle p) (isReserved p) (partition_num p) (p_type p) (isTaskBatching p) (isTaskExec p)
    x (PerTaskSkipCnt p) (PerTaskTrp p) (LoadedModels p).
Definition set_PerTaskSkipCnt (x : gmap string Z) (p : ProxyInfo) : ProxyInfo :=
  mkProxyInfo (p_node_id p) (p_dev_id p) (p_cap p) (p_dedup_num p) (isBooted p) (isConnected p)
    (isConnectedtoBackend p) (isSetup p) (isSchedulable p) (isLoading p) (isUnloading p)
    (p_duty_cycle p) (isReserved p) (partition_num p) (p_type p) (isTaskBatching p) (isTaskExec p)
    (PerTaskLatencyVec p) x (PerTaskTrp p) (LoadedModels p).
Definition set_PerTaskTrp (x : gmap string spec_float) (p : ProxyInfo) : ProxyInfo :=
  mkProxyInfo (p_node_id p) (p_dev_id p) (p_cap p) (p_dedup_num p) (isBooted p) (isConnected p)
    (isConnectedtoBackend p) (isSetup p) (isSchedulable p) (isLoading p) (isUnloading p)
    (p_duty_cycle p) (isReserved p) (partition_num p) (p_type p) (isTaskBatching p) (isTaskExec p)
    (PerTaskLatencyVec p) (PerTaskSkipCnt p) x (LoadedModels p).
Definition set_LoadedModels (x : list string) (p : ProxyInfo) : ProxyInfo :=
  mkProxyInfo (p_node_id p) (p_dev_id p) (p_cap p) (p_dedup_num p) (isBooted p) (isConnected p)
    (isConnectedtoBackend p) (isSetup p) (isSchedulable p) (isLoading p) (isUnloading p)
    (p_duty_cycle p) (isReserved p) (partition_num p) (p_type p) (isTaskBatching p) (isTaskExec p)
    (PerTaskLatencyVec p) (PerTaskSkipCnt p) (PerTaskTrp p) x.

(** A scheduled batch ([TaskSpec]); [dedup_num] and [CapSize] are never set. *)
Record TaskSpec : Type := mkTaskSpec {
  device_id : Z; ReqName : string; BatchSize : Z; tsk_proxy : ProxyPtr }.

(** ** [SysMonitor] *)
Record SysMonitor : Type := mkSysMonitor {
  ReqListHashTable : list (string * list nat);
  _netNames : list string;
  cmpQ : list nat;
  PerProxyBatchList : gmap nat (list TaskSpec);
  PerProxyNetList : gmap nat (list (string * Z));
  PerDevMPSInfo : gmap Z (list nat);
  PerModeltoIDMapping : gmap string Z;
  PerModelCnt : gmap string Z;
  PerModelFinCnt : gmap string Z;
  FrontDevIDToHostDevID : gmap Z Z;
  nGPUs : Z;
  nProxyPerGPU : Z;
  AppSpecVec : list AppSpec;
  _TRACK_INTERVAL : bool;
  _TRACK_TRPT : bool;
  _SYS_FLUSH : bool }.

Definition set_ReqListHashTable (x : list (string * list nat)) (s : SysMonitor) : SysMonitor :=
  mkSysMonitor x (_netNames s) (cmpQ s) (PerProxyBatchList s) (PerProxyNetList s) (PerDevMPSInfo
    s) (PerModeltoIDMapping s) (PerModelCnt s) (PerModelFinCnt s) (FrontDevIDToHostDevID s) (nGPUs
    s) (nProxyPerGPU s) (AppSpecVec s) (_TRACK_INTERVAL s) (_TRACK_TRPT s) (_SYS_FLUSH s).
Definition set_netNames (x : list string) (s : SysMonitor) : SysMonitor :=
  mkSysMonitor (ReqListHashTable s) x (cmpQ s) (PerProxyBatchList s) (PerProxyNetList s)
    (PerDevMPSInfo s) (PerModeltoIDMapping s) (PerModelCnt s) (PerModelFinCnt s)
    (FrontDevIDToHostDevID s) (nGPUs s) (nProxyPerGPU s) (AppSpecVec s) (_TRACK_INTERVAL s)
    (_TRACK_TRPT s) (_SYS_FLUSH s).
Definition set_cmpQ (x : list nat) (s : SysMonitor) : SysMonitor :=
  mkSysMonitor (ReqListHashTable s) (_netNames s) x (PerProxyBatchList s) (PerProxyNetList s)
    (PerDevMPSInfo s) (PerModeltoIDMapping s) (PerModelCnt s) (PerModelFinCnt s)
    (FrontDevIDToHostDevID s) (nGPUs s) (nProxyPerGPU s) (AppSpecVec s) (_TRACK_INTERVAL s)
    (_TRACK_TRPT s) (_SYS_FLUSH s).
Definition set_PerProxyBatchList (x : gmap nat (list TaskSpec)) (s : SysMonitor) : SysMonitor :=
  mkSysMonitor (ReqListHashTable s) (_netNames s) (cmpQ s) x (PerProxyNetList s) (PerDevMPSInfo s)
    (PerModeltoIDMapping s) (PerModelCnt s) (PerModelFinCnt s) (FrontDevIDToHostDevID s) (nGPUs s)
    (nProxyPerGPU s) (AppSpecVec s) (_TRACK_INTERVAL s) (_TRACK_TRPT s) (_SYS_FLUSH s).
Definition set_PerProxyNetList (x : gmap nat (list (string * Z))) (s : SysMonitor) : SysMonitor :=
  mkSysMonitor (ReqListHashTable s) (_netNames s) (cmpQ s) (PerProxyBatchList s) x (PerDevMPSInfo
    s) (PerModeltoIDMapping s) (PerModelCnt s) (PerModelFinCnt s) (FrontDevIDToHostDevID s) (nGPUs
    s) (nProxyPerGPU s) (AppSpecVec s) (_TRACK_INTERVAL s) (_TRACK_TRPT s) (_SYS_FLUSH s).
Definition set_PerDevMPSInfo (x : gmap Z (list nat)) (s : SysMonitor) : SysMonitor :=
  mkSysMonitor (ReqListHashTable s) (_netNames s) (cmpQ s) (PerProxyBatchList s) (PerProxyNetList
    s) x (PerModeltoIDMapping s) (PerModelCnt s) (PerModelFinCnt s) (FrontDevIDToHostDevID s)
    (nGPUs s) (nProxyPerGPU s) (AppSpecVec s) (_TRACK_INTERVAL s) (_TRACK_TRPT s) (_SYS_FLUSH s).
Definition set_PerModeltoIDMapping (x : gmap string Z) (s : SysMonitor) : SysMonitor :=
  mkSysMonitor (ReqListHashTable s) (_netNames s) (cmpQ s) (PerProxyBatchList s) (PerProxyNetList
    s) (PerDevMPSInfo s) x (PerModelCnt s) (PerModelFinCnt s) (FrontDevIDToHostDevID s) (nGPUs s)
    (nProxyPerGPU s) (AppSpecVec s) (_TRACK_INTERVAL s) (_TRACK_TRPT s) (_SYS_FLUSH s).
Definition set_PerModelCnt (x : gmap string Z) (s : SysMonitor) : SysMonitor :=
  mkSysMonitor (ReqListHashTable s) (_netNames s) (cmpQ s) (PerProxyBatchList s) (PerProxyNetList
    s) (PerDevMPSInfo s) (PerModeltoIDMapping s) x (PerModelFinCnt s) (FrontDevIDToHostDevID s)
    (nGPUs s) (nProxyPerGPU s) (AppSpecVec s) (_TRACK_INTERVAL s) (_TRACK_TRPT s) (_SYS_FLUSH s).
Definition set_PerModelFinCnt (x : gmap string Z) (s : SysMonitor) : SysMonitor :=
  mkSysMonitor (ReqListHashTable s) (_netNames s) (cmpQ s) (PerProxyBatchList s) (PerProxyNetList
    s) (PerDevMPSInfo s) (PerModeltoIDMapping s) (PerModelCnt s) x (FrontDevIDToHostDevID s)
    (nGPUs s) (nProxyPerGPU s) (AppSpecVec s) (_TRACK_INTERVAL s) (_TRACK_TRPT s) (_SYS_FLUSH s).
Definition set_FrontDevIDToHostDevID (x : gmap Z Z) (s : SysMonitor) : SysMonitor :=
  mkSysMonitor (ReqListHashTable s) (_netNames s) (cmpQ s) (PerProxyBatchList s) (PerProxyNetList
    s) (PerDevMPSInfo s) (PerModeltoIDMapping s) (PerModelCnt s) (PerModelFinCnt s) x (nGPUs s)
    (nProxyPerGPU s) (AppSpecVec s) (_TRACK_INTERVAL s) (_TRACK_TRPT s) (_SYS_FLUSH s).
Definition set_nGPUs (x : Z) (s : SysMonitor) : SysMonitor :=
  mkSysMonitor (ReqListHashTable s) (_netNames s) (cmpQ s) (PerProxyBatchList s) (PerProxyNetList
    s) (PerDevMPSInfo s) (PerModeltoIDMapping s) (PerModelCnt s) (PerModelFinCnt s)
    (FrontDevIDToHostDevID s) x (nProxyPerGPU s) (AppSpecVec s) (_TRACK_INTERVAL s) (_TRACK_TRPT
    s) (_SYS_FLUSH s).
Definition set_nProxyPerGPU (x : Z) (s : SysMonitor) : SysMonitor :=
  mkSysMonitor (ReqListHashTable s) (_netNames s) (cmpQ s) (PerProxyBatchList s) (PerProxyNetList
    s) (PerDevMPSInfo s) (PerModeltoIDMapping s) (PerModelCnt s) (PerModelFinCnt s)
    (FrontDevIDToHostDevID s) (nGPUs s) x (AppSpecVec s) (_TRACK_INTERVAL s) (_TRACK_TRPT s)
    (_SYS_FLUSH s).
Definition set_AppSpecVec (x : list AppSpec) (s : SysMonitor) : SysMonitor :=
  mkSysMonitor (ReqListHashTable s) (_netNames s) (cmpQ s) (PerProxyBatchList s) (PerProxyNetList
    s) (PerDevMPSInfo s) (PerModeltoIDMapping s) (PerModelCnt s) (PerModelFinCnt s)
    (FrontDevIDToHostDevID s) (nGPUs s) (nProxyPerGPU s) x (_TRACK_INTERVAL s) (_TRACK_TRPT s)
    (_SYS_FLUSH s).
Definition set_TRACK_INTERVAL (x : bool) (s : SysMonitor) : SysMonitor :=
  mkSysMonitor (ReqListHashTable s) (_netNames s) (cmpQ s) (PerProxyBatchList s) (PerProxyNetList
    s) (PerDevMPSInfo s) (PerModeltoIDMapping s) (PerModelCnt s) (PerModelFinCnt s)
    (FrontDevIDToHostDevID s) (nGPUs s) (nProxyPerGPU s) (AppSpecVec s) x (_TRACK_TRPT s)
    (_SYS_FLUSH s).
Definition set_TRACK_TRPT (x : bool) (s : SysMonitor) : SysMonitor :=
  mkSysMonitor (ReqListHashTable s) (_netNames s) (cmpQ s) (PerProxyBatchList s) (PerProxyNetList
    s) (PerDevMPSInfo s) (PerModeltoIDMapping s) (PerModelCnt s) (PerModelFinCnt s)
    (FrontDevIDToHostDevID s) (nGPUs s) (nProxyPerGPU s) (AppSpecVec s) (_TRACK_INTERVAL s) x
    (_SYS_FLUSH s).
Definition set_SYS_FLUSH (x : bool) (s : SysMonitor) : SysMonitor :=
  mkSysMonitor (ReqListHashTable s) (_netNames s) (cmpQ s) (PerProxyBatchList s) (PerProxyNetList
    s) (PerDevMPSInfo s) (PerModeltoIDMapping s) (PerModelCnt s) (PerModelFinCnt s)
    (FrontDevIDToHostDevID s) (nGPUs s) (nProxyPerGPU s) (AppSpecVec s) (_TRACK_INTERVAL s)
    (_TRACK_TRPT s) x.

Definition new_SysMonitor (i : Indet) : SysMonitor :=
  mkSysMonitor [] [] [] ∅ ∅ ∅ ∅ ∅ ∅ ∅ (indet_int i) (indet_int i) [] true false (indet_bool i).

(** [PerProxyBatchList[p]] is a null pointer before [setupProxy]. *)
Definition setupProxy (p : ProxyPtr) (s : SysMonitor) : SysMonitor :=
  set_PerProxyBatchList (<[p := []]> (PerProxyBatchList s)) s.
Definition getBatchQueueofProxy (p : ProxyPtr) (s : SysMonitor) : outcome (list TaskSpec) :=
  deref (PerProxyBatchList s !! p).
Definition insertToBatchQueueofProxy (p : ProxyPtr) (t : TaskSpec) : M SysMonitor unit :=
  s ← get;
  q ← lift (getBatchQueueofProxy p s);
  put (set_PerProxyBatchList (<[p := q ++ [t]]> (PerProxyBatchList s)) s).
Definition getSizeofBatchQueueofProxy (p : ProxyPtr) (s : SysMonitor) : outcome nat :=
  q ← getBatchQueueofProxy p s; mret (length q).

(** Queues of requests, by model; [std::map], so in the order of the names. *)
Definition getRequestQueueofNet (name : string) (s : SysMonitor) : list nat :=
  default [] (om_find name (ReqListHashTable s)).
Definition set_request_queue (name : string) (q : list nat) (s : SysMonitor) : SysMonitor :=
  set_ReqListHashTable (om_set name q (ReqListHashTable s)) s.
Definition isQueueforNet (name : string) (s : SysMonitor) : bool :=
  match om_find name (ReqListHashTable s) with Some _ => true | None => false end.
Definition addNewQueueforNet (name : string) (s : SysMonitor) : SysMonitor :=
  let s := if isQueueforNet name s then s else set_request_queue name [] s in
  set_netNames (_netNames s ++ [name]) s.
Definition getLenofReqQueue (name : string) (s : SysMonitor) : nat :=
  if isQueueforNet name s then length (getRequestQueueofNet name s) else 0.

Definition setNGPUs (ngpu : Z) : M SysMonitor unit :=
  _ ← massert (0 <=? ngpu)%Z; modify (set_nGPUs ngpu).

(** Models of a proxy with their batch sizes. *)
Definition getProxyNetList (p : ProxyPtr) (s : SysMonitor) : list (string * Z) :=
  default [] (PerProxyNetList s !! p).
Definition insertNetToProxyNetList (p : ProxyPtr) (pair : string * Z) (s : SysMonitor) : SysMonitor :=
  set_PerProxyNetList (<[p := getProxyNetList p s ++ [pair]]> (PerProxyNetList s)) s.
Definition isProxyNetListEmpty (p : ProxyPtr) (s : SysMonitor) : bool :=
  bool_decide (getProxyNetList p s = []).

(** Proxies of a device. *)
Definition getDevMPSInfo (dev_id : Z) (s : SysMonitor) : list ProxyPtr :=
  default [] (PerDevMPSInfo s !! dev_id).
Definition insertMPSInfoToDev (dev_id : Z) (p : ProxyPtr) (s : SysMonitor) : SysMonitor :=
  set_PerDevMPSInfo (<[dev_id := getDevMPSInfo dev_id s ++ [p]]> (PerDevMPSInfo s)) s.

Definition getIDfromModel (net : string) (s : SysMonitor) : Z :=
  default 0%Z (PerModeltoIDMapping s !! net).
Definition setIDforModel (net : string) (id : Z) (s : SysMonitor) : SysMonitor :=
  set_PerModeltoIDMapping (<[net := id]> (PerModeltoIDMapping s)) s.

(** Counters: [uint64_t] for arrivals, read back as an [int]. *)
Definition getPerModelCnt (model : string) (s : SysMonitor) : Z :=
  i32 (default 0%Z (PerModelCnt s !! model)).
Definition setPerModelCnt (model : string) (cnt : Z) (s : SysMonitor) : SysMonitor :=
  set_PerModelCnt (<[model := u64 cnt]> (PerModelCnt s)) s.
Definition incPerModelCnt (model : string) (s : SysMonitor) : SysMonitor :=
  set_PerModelCnt (<[model := u64 (default 0%Z (PerModelCnt s !! model) + 1)]> (PerModelCnt s)) s.
Definition getPerModelFinCnt (model : string) (s : SysMonitor) : Z :=
  default 0%Z (PerModelFinCnt s !! model).
Definition setPerModelFinCnt (model : string) (cnt : Z) (s : SysMonitor) : SysMonitor :=
  set_PerModelFinCnt (<[model := cnt]> (PerModelFinCnt s)) s.
Definition incPerModelFinCnt (model : string) (s : SysMonitor) : SysMonitor :=
  set_PerModelFinCnt (<[model := i32 (getPerModelFinCnt model s + 1)]> (PerModelFinCnt s)) s.

(** ** The store of proxies next to the monitor *)
Record Front : Type := mkFront { f_sys : SysMonitor; f_proxies : list ProxyInfo }.
Definition set_f_sys (s : SysMonitor) (f : Front) : Front := mkFront s (f_proxies f).
Definition set_f_proxies (l : list ProxyInfo) (f : Front) : Front := mkFront (f_sys f) l.

Definition rd_proxy (p : ProxyPtr) : M Front ProxyInfo := f ← get; lift (deref (f_proxies f !! p)).
Definition wr_proxy (p : ProxyPtr) (g : ProxyInfo -> ProxyInfo) : M Front unit :=
  f ← get;
  x ← lift (deref (f_proxies f !! p));
  put (set_f_proxies (<[p := g x]> (f_proxies f)) f).
Definition new_proxy (x : ProxyInfo) : M Front ProxyPtr :=
  f ← get; _ ← put (set_f_proxies (f_proxies f ++ [x]) f); mret (length (f_proxies f)).
Definition sys {A} (m : M SysMonitor A) : M Front A := zoom f_sys set_f_sys m.
Definition mod_sys (g : SysMonitor -> SysMonitor) : M Front unit :=
  modify (fun f => set_f_sys (g (f_sys f)) f).

(** [findProxy], twice: the first proxy of the device that fits.  The device
    number is checked against the number of GPUs, shifted by the first entry of
    the conversion table when there is one ([FrontDevIDToHostDevID[0]], which
    enters zero when the key 0 is missing). *)
Definition check_device (dev_id : Z) : M SysMonitor unit :=
  s ← get;
  if decide (FrontDevIDToHostDevID s = ∅) then massert (dev_id <? nGPUs s)%Z
  else
    let first_idx := default 0%Z (FrontDevIDToHostDevID s !! 0%Z) in
    _ ← put (set_FrontDevIDToHostDevID (<[0%Z := first_idx]> (FrontDevIDToHostDevID s)) s);
    massert (i32 (dev_id - first_idx) <? nGPUs s)%Z.

Definition find_proxy (fits : ProxyInfo -> bool) (dev_id : Z) : M Front ProxyPtr :=
  _ ← sys (check_device dev_id);
  f ← get;
  r ← for_ret (getDevMPSInfo dev_id (f_sys f)) (fun p =>
        x ← rd_proxy p; mret (if fits x then Some p else None));
  match r with Some p => mret p | None => fail AssertionFailed end.

Definition findProxy_index (dev_id partition : Z) : M Front ProxyPtr :=
  find_proxy (fun x => partition_num x =? partition)%Z dev_id.
Definition findProxy (dev_id resource_pntg dedup : Z) : M Front ProxyPtr :=
  find_proxy (fun x => (p_dev_id x =? dev_id) && (p_cap x =? resource_pntg)
                       && (p_dedup_num x =? dedup))%Z dev_id.
