(* ===== verification/Printf.v ===== *)
(** * Text output: [%d] and [%lf] of [fprintf], [std::to_string], and the lines of
    a text file, with the laws that the readers of [CppStd] undo them. *)
From Stdlib Require Import ZArith SpecFloat Ascii String Lia.
From S2P Require Import Prelude CppFloat CppStd.

(** ** Decimal digits *)
Definition digit_char (d : Z) : ascii := ascii_of_nat (48 + Z.to_nat d).

(** The [w] last digits of [n] in front of [acc]. *)
Fixpoint digits_w (w : nat) (n : Z) (acc : string) : string :=
  match w with
  | O => acc
  | S w' => digits_w w' (n / 10) (String (digit_char (n mod 10)) acc)
  end.
(** The number of digits of a number that is not negative. *)
Fixpoint ndigits (fuel : nat) (n : Z) : nat :=
  match fuel with
  | O => 1
  | S f => if (n <? 10)%Z then 1 else S (ndigits f (n / 10))
  end.
Definition print_nat (n : Z) : string := digits_w (ndigits (Z.to_nat (Z.log2 n)) n) n "".
(** [%d] *)
Definition print_int (z : Z) : string :=
  if (z <? 0)%Z then String "-"%char (print_nat (- z)) else print_nat z.

(** ** [%lf]: six digits after the point, of the exact value rounded half to even *)
Definition round_quot (n d : Z) : Z :=
  let q := (n / d)%Z in
  let r := (n mod d)%Z in
  match (2 * r ?= d)%Z with
  | Lt => q
  | Gt => (q + 1)%Z
  | Eq => if Z.even q then q else (q + 1)%Z
  end.
(** The magnitude of a finite value in millionths. *)
Definition micro (x : spec_float) : Z :=
  match x with
  | S754_finite _ m e =>
      if (0 <=? e)%Z then (Zpos m * 2 ^ e * 1000000)%Z
      else round_quot (Zpos m * 1000000) (2 ^ (- e))
  | _ => 0%Z
  end.
Definition sign_of (x : spec_float) : bool :=
  match x with
  | S754_zero s | S754_infinity s | S754_finite s _ _ => s
  | S754_nan => false
  end.
Definition print_lf (x : spec_float) : string :=
  let sign := if sign_of x then "-"%string else ""%string in
  match x with
  | S754_nan => "nan"
  | S754_infinity _ => sign +:+ "inf"
  | _ => sign +:+ print_nat (micro x / 1000000) +:+ "." +:+ digits_w 6 (micro x) ""
  end%string.

(** ** The lines [getline] reads from a file with this text *)
Fixpoint file_lines (text : string) : list string :=
  match text with
  | EmptyString => []
  | String c t =>
      if Ascii.eqb c NEWLINE then ""%string :: file_lines t
      else match file_lines t with
           | [] => [String c ""]
           | l :: ls => String c l :: ls
           end
  end.

Example print_ex : (print_int (-305), print_lf (dlit 1 3), print_lf (i2d 12)) = ("-305", "0.333333", "12.000000")%string.
Proof. reflexivity. Qed.
Example file_lines_ex : file_lines (String.concat "" ["a,1"; String NEWLINE ""; "b"; String NEWLINE ""])%string = ["a,1"; "b"]%string.
Proof. reflexivity. Qed.

Lemma append_cons c s t : (String c s +:+ t = String c (s +:+ t))%string.
Proof. done. Qed.
Lemma append_assoc s t u : ((s +:+ t) +:+ u = s +:+ (t +:+ u))%string.
Proof. induction s as [|c s IH]; [done|]. by rewrite !append_cons, IH. Qed.
Lemma append_empty_r s : (s +:+ "" = s)%string.
Proof. induction s as [|c s IH]; [done|]. by rewrite !append_cons, IH. Qed.
Lemma append_length s t : String.length (s +:+ t)%string = (String.length s + String.length t)%nat.
Proof. induction s as [|c s IH]; [done|]. rewrite append_cons. cbn. by rewrite IH. Qed.

(** ** Characters a text does not have *)
Fixpoint lacks (d : ascii) (s : string) : bool :=
  match s with EmptyString => true | String c s' => negb (Ascii.eqb c d) && lacks d s' end.
Lemma lacks_app d s t : lacks d (s +:+ t)%string = lacks d s && lacks d t.
Proof. induction s as [|c s IH]; [done|]. rewrite append_cons. cbn. by rewrite IH, andb_assoc. Qed.

Lemma span_lacks d f : lacks d f = true -> span_delim d f = (f, None).
Proof.
  induction f as [|c f IH]; cbn; [done|]. intros [Hc Hf]%andb_true_iff.
  destruct (Ascii.eqb c d); [done|]. by rewrite IH.
Qed.
Lemma span_field d f rest : lacks d f = true -> span_delim d (f +:+ String d rest)%string = (f, Some rest).
Proof.
  induction f as [|c f IH]; intros H.
  - change ((if Ascii.eqb d d then (""%string, Some rest) else let '(f, r) := span_delim d rest in (String d f, r)) =
            (""%string, Some rest)). by rewrite Ascii.eqb_refl.
  - cbn in H. apply andb_true_iff in H as [Hc Hf]. rewrite append_cons. cbn.
    destruct (Ascii.eqb c d); [done|]. by rewrite IH.
Qed.
Lemma file_lines_line l rest : lacks NEWLINE l = true ->
  file_lines (l +:+ String NEWLINE rest)%string = l :: file_lines rest.
Proof.
  induction l as [|c l IH]; intros H; [done|].
  cbn in H. apply andb_true_iff in H as [Hc Hl]. rewrite append_cons. cbn [file_lines].
  destruct (Ascii.eqb c NEWLINE); [done|]. by rewrite IH.
Qed.
(** A file written line by line. *)
Definition write_lines (ls : list string) : string :=
  foldr (fun l text => l +:+ String NEWLINE text)%string ""%string ls.
Lemma file_lines_write ls : Forall (fun l => lacks NEWLINE l = true) ls -> file_lines (write_lines ls) = ls.
Proof. induction 1 as [|l ls Hl _ IH]; [done|]. cbn [write_lines foldr]. rewrite file_lines_line by done. f_equal. exact IH. Qed.

(** ** Reading digits back *)
Lemma digit_char_digit d : (0 <= d < 10)%Z -> digit_of (digit_char d) = Some d.
Proof.
  intros Hd. assert (H : (d = 0 \/ d = 1 \/ d = 2 \/ d = 3 \/ d = 4 \/ d = 5 \/ d = 6 \/ d = 7 \/ d = 8 \/ d = 9)%Z) by lia.
  decompose [or] H; subst; reflexivity.
Qed.
Lemma read_digits_w w n acc a k : (0 <= n)%Z ->
  read_digits (digits_w w n acc) a k =
  read_digits acc (a * 10 ^ Z.of_nat w + n mod 10 ^ Z.of_nat w) (k + Z.of_nat w).
Proof.
  revert n acc a k. induction w as [|w IH]; intros n acc a k Hn; cbn [digits_w].
  - rewrite Z.mod_1_r. f_equal; lia.
  - rewrite IH by (apply Z.div_pos; lia). cbn [read_digits].
    rewrite digit_char_digit by (apply Z.mod_pos_bound; lia).
    rewrite Nat2Z.inj_succ, Z.pow_succ_r by lia. f_equal; [|lia].
    rewrite (Z.rem_mul_r n 10) by (try apply Z.pow_nonzero; lia). lia.
Qed.

Definition starts_digit (s : string) : bool :=
  match s with String c _ => bool_decide (digit_of c <> None) | EmptyString => false end.
Lemma read_digits_stop s a k : starts_digit s = false -> read_digits s a k = (a, k, s).
Proof. destruct s as [|c s]; cbn; [done|]. by destruct (digit_of c). Qed.

Lemma ndigits_enough fuel n : (0 <= n)%Z -> (n < 10 ^ Z.of_nat (S fuel))%Z ->
  (n < 10 ^ Z.of_nat (ndigits fuel n))%Z /\ (1 <= ndigits fuel n)%nat.
Proof.
  revert n. induction fuel as [|f IH]; intros n Hn Hlt; cbn [ndigits].
  - split; [exact Hlt|lia].
  - destruct (n <? 10)%Z eqn:E; [apply Z.ltb_lt in E; split; [exact E|lia]|].
    destruct (IH (n / 10)%Z) as [IH1 IH2].
    + apply Z.div_pos; lia.
    + apply Z.div_lt_upper_bound; [lia|]. rewrite <- Z.pow_succ_r, <- Nat2Z.inj_succ by lia. exact Hlt.
    + split; [|lia]. rewrite Nat2Z.inj_succ, Z.pow_succ_r by lia.
      pose proof (Z.div_mod n 10 ltac:(lia)). pose proof (Z.mod_pos_bound n 10 ltac:(lia)). lia.
Qed.
Lemma log2_digits n : (0 <= n)%Z -> (n < 10 ^ Z.of_nat (S (Z.to_nat (Z.log2 n))))%Z.
Proof.
  intros Hn. rewrite Nat2Z.inj_succ, Z2Nat.id by apply Z.log2_nonneg.
  destruct (decide (n = 0)%Z) as [->|Hne]; [done|].
  pose proof (Z.log2_spec n ltac:(lia)) as [_ H]. pose proof (Z.log2_nonneg n).
  eapply Z.lt_le_trans; [exact H|]. apply Z.pow_le_mono_l. lia.
Qed.

Lemma digits_w_app w n acc : digits_w w n acc = (digits_w w n "" +:+ acc)%string.
Proof.
  revert n acc. induction w as [|w IH]; intros n acc; cbn [digits_w]; [done|].
  rewrite IH. rewrite (IH _ (String _ "")). by rewrite append_assoc.
Qed.
Lemma digits_w_starts w n acc : exists c s, digits_w (S w) n acc = String c s /\ digit_of c <> None.
Proof.
  revert n acc. induction w as [|w IH]; intros n acc; [|apply IH].
  cbn. do 2 eexists. split; [reflexivity|]. by rewrite digit_char_digit by (apply Z.mod_pos_bound; lia).
Qed.
Lemma print_nat_digits n rest : (0 <= n)%Z -> exists w, (n < 10 ^ Z.of_nat (S w))%Z /\
  (print_nat n +:+ rest)%string = digits_w (S w) n rest.
Proof.
  intros Hn. unfold print_nat. rewrite <- digits_w_app.
  destruct (ndigits_enough (Z.to_nat (Z.log2 n)) n Hn (log2_digits n Hn)) as [H1 H2].
  destruct (ndigits _ n) as [|w]; [lia|]. by exists w.
Qed.
Lemma read_print_nat n rest : (0 <= n)%Z -> starts_digit rest = false ->
  exists k, (1 <= k)%Z /\ read_digits (print_nat n +:+ rest)%string 0 0 = (n, k, rest).
Proof.
  intros Hn Hr. destruct (print_nat_digits n rest Hn) as (w & Hlt & ->).
  rewrite read_digits_w, read_digits_stop, Z.mod_small by done. exists (0 + Z.of_nat (S w))%Z. split; [lia|done].
Qed.

(** A text that starts with a digit has neither space nor sign in front. *)
Lemma digit_plain c : digit_of c <> None ->
  is_space c = false /\ Ascii.eqb c "-" = false /\ Ascii.eqb c "+" = false.
Proof.
  intros H. unfold digit_of, is_space in *. set (n := Z.of_nat (nat_of_ascii c)) in *.
  destruct ((48 <=? n) && (n <=? 57))%Z eqn:E; [|done]. apply andb_true_iff in E as [E1%Z.leb_le E2%Z.leb_le].
  split; [|split].
  - apply orb_false_iff. split; [apply Z.eqb_neq; lia|]. apply andb_false_iff. right. apply Z.leb_gt. lia.
  - apply Ascii.eqb_neq. intros ->. cbv in n. lia.
  - apply Ascii.eqb_neq. intros ->. cbv in n. lia.
Qed.
Lemma print_nat_front n rest : (0 <= n)%Z ->
  skip_space (print_nat n +:+ rest)%string = (print_nat n +:+ rest)%string /\
  read_sign (print_nat n +:+ rest)%string = (false, print_nat n +:+ rest)%string.
Proof.
  intros Hn. destruct (print_nat_digits n rest Hn) as (w & _ & ->).
  destruct (digits_w_starts w n rest) as (c & s & -> & Hc). apply digit_plain in Hc as (Hs & Hm & Hp).
  cbn. by rewrite Hs, Hm, Hp.
Qed.

(** [stoi] reads back what [%d] printed. *)
Lemma stoi_print z : in_i32 z -> stoi (print_int z) = Done z.
Proof.
  unfold in_i32. intros Hz. unfold stoi, print_int. destruct (z <? 0)%Z eqn:E.
  - apply Z.ltb_lt in E. 
    change (skip_space (String "-" (print_nat (- z)))) with (String "-" (print_nat (- z))).
    change (read_sign (String "-" (print_nat (- z)))) with (true, print_nat (- z)).
    destruct (read_print_nat (- z) "" ltac:(lia) eq_refl) as (k & Hk & Hr).
    rewrite append_empty_r in Hr. rewrite Hr. rewrite (proj2 (Z.eqb_neq k 0)) by lia.
    rewrite Z.opp_involutive, (proj2 (Z.leb_le _ _)), (proj2 (Z.leb_le _ _)) by lia. done.
  - apply Z.ltb_ge in E. destruct (print_nat_front z "" E) as [Hs Hsg].
    destruct (read_print_nat z "" E eq_refl) as (k & Hk & Hr).
    rewrite append_empty_r in Hs, Hsg, Hr. rewrite Hs, Hsg, Hr. rewrite (proj2 (Z.eqb_neq k 0)) by lia.
    rewrite (proj2 (Z.leb_le _ _)), (proj2 (Z.leb_le _ _)) by lia. done.
Qed.

(** A character that is neither a digit nor a sign or point is not printed. *)
Lemma lacks_digits d w n acc : digit_of d = None -> lacks d (digits_w w n acc) = lacks d acc.
Proof.
  intros Hd. revert n acc. induction w as [|w IH]; intros n acc; [done|]. cbn [digits_w]. rewrite IH. cbn [lacks].
  assert (E : Ascii.eqb (digit_char (n mod 10)) d = false).
  { apply Ascii.eqb_neq. intros <-. by rewrite digit_char_digit in Hd by (apply Z.mod_pos_bound; lia). }
  by rewrite E.
Qed.
Lemma lacks_print_int d z : digit_of d = None -> Ascii.eqb "-" d = false -> lacks d (print_int z) = true.
Proof.
  intros Hd Hm. unfold print_int, print_nat. destruct (z <? 0)%Z; cbn [lacks]; rewrite ?Hm, lacks_digits by done; done.
Qed.

(** [stof] reads what [%lf] printed as the nearest [float] of the six digits; it
    raises only where that overflows, or is zero for digits that are not. *)
Definition read_back (x : spec_float) : spec_float := decimal fprec femax (sign_of x) (micro x) 6.
Lemma round_quot_nonneg n d : (0 <= n)%Z -> (0 < d)%Z -> (0 <= round_quot n d)%Z.
Proof.
  intros Hn Hd. unfold round_quot. pose proof (Z.div_pos n d Hn Hd).
  destruct (_ ?= _)%Z; [destruct (Z.even _)| |]; lia.
Qed.
Lemma micro_nonneg x : (0 <= micro x)%Z.
Proof.
  destruct x as [| | |s m e]; cbn [micro]; try lia. destruct (0 <=? e)%Z eqn:E.
  - apply Z.leb_le in E. pose proof (Z.pow_nonneg 2 e). lia.
  - apply Z.leb_gt in E. apply round_quot_nonneg; [lia|]. apply Z.pow_pos_nonneg; lia.
Qed.
Lemma stof_print x : is_finite x = true ->
  (match read_back x with S754_infinity _ => false | S754_zero _ => (micro x =? 0)%Z | _ => true end) = true ->
  stof (print_lf x) = Done (read_back x).
Proof.
  intros Hfin Hok. pose proof (micro_nonneg x) as Hm.
  set (body := (print_nat (micro x / 1000000) +:+ "." +:+ digits_w 6 (micro x) "")%string).
  assert (Hprint : print_lf x = ((if sign_of x then "-" else "") +:+ body)%string) by (destruct x; done).
  assert (Hdiv : (0 <= micro x / 1000000)%Z) by (apply Z.div_pos; lia).
  assert (Hbody : exists k, (1 <= k)%Z /\ read_digits body 0 0 =
      ((micro x / 1000000)%Z, k, ("." +:+ digits_w 6 (micro x) "")%string)) by (by apply read_print_nat).
  destruct Hbody as (k & Hk & Hbody).
  destruct (print_nat_front (micro x / 1000000) ("." +:+ digits_w 6 (micro x) "")%string Hdiv) as [Hs Hsg]. fold body in Hs, Hsg.
  assert (Hfront : read_sign (skip_space (print_lf x)) = (sign_of x, body)).
  { rewrite Hprint. destruct (sign_of x); [|change ("" +:+ body)%string with body; by rewrite Hs].
    by change (skip_space ("-" +:+ body)%string) with (String "-" body). }
  unfold stof, parse_float. rewrite Hfront, Hbody.
  change ("." +:+ digits_w 6 (micro x) "")%string with (String "." (digits_w 6 (micro x) "")).
  change (Ascii.eqb "." ".") with true. cbv iota.
  rewrite read_digits_w by done. cbn [read_digits].
  assert (E : (micro x / 1000000 * 10 ^ Z.of_nat 6 + micro x mod 10 ^ Z.of_nat 6 = micro x)%Z).
  { change (10 ^ Z.of_nat 6)%Z with 1000000%Z. pose proof (Z.div_mod (micro x) 1000000). lia. }
  rewrite E, ?Ascii.eqb_refl. cbv beta iota. rewrite (proj2 (Z.eqb_neq (k + (0 + Z.of_nat 6)) 0)) by lia.
  change (0 + Z.of_nat 6 - read_exponent "")%Z with 6%Z. fold (read_back x).
  destruct (read_back x) eqn:Er; try done. by rewrite Hok.
Qed.
Lemma lacks_print_lf d x : is_finite x = true -> digit_of d = None -> Ascii.eqb "-" d = false ->
  Ascii.eqb "." d = false -> lacks d (print_lf x) = true.
Proof.
  intros Hf Hd Hm Hp.
  assert (Hb : lacks d ((if sign_of x then "-" else "") +:+ print_nat (micro x / 1000000) +:+ "." +:+ digits_w 6 (micro x) "")%string = true).
  { rewrite !lacks_app. unfold print_nat. rewrite !lacks_digits by done. destruct (sign_of x); cbn [lacks]; by rewrite ?Hm, ?Hp. }
  by destruct x.
Qed.
