(* ===== verification/Endpoints.v ===== *)
(** * Where connections go: the command that boots a proxy ([service/proxy_ctrl.cpp])
    with its script ([resource/proxy/startProxy.sh]) and options ([proxy.cpp]), the
    sockets the proxy listens on ([proxy.cpp]) and the backend connects to
    ([common/gpu_proxy.cpp]), and the addresses of the backends
    ([service/backend_delegate.cpp], [common/socket.cpp]).

    [shell] gives the words of a command, [lexical_int] is boost's conversion of an
    option, [binds] and [up] tell on which paths one can listen and on which somebody
    does, [Net] is the network. *)
From Stdlib Require Import ZArith Ascii String Lia.
From S2P Require Import Prelude CppFloat CppStd SysState Printf.
Local Open Scope string_scope.

(** ** The command *)
Definition MODEL_LIST : string := "../ModelList.txt".
Definition bootProxy_cmd (devid cap dedup_num part_index ngpu nparts : Z) (PROXY_DIR PROXY_SH : string) : string :=
  PROXY_DIR +:+ "/" +:+ PROXY_SH +:+ " " +:+ print_int devid +:+ " " +:+ print_int cap +:+ " " +:+ print_int dedup_num
  +:+ " " +:+ MODEL_LIST +:+ " " +:+ print_int part_index +:+ " " +:+ print_int ngpu +:+ " " +:+ print_int nparts.

(** The script: [args] are [$1] to [$7]; [mps] tells whether the MPS server is up.
    The result is the options of the proxy program; the CPU cores are left out. *)
Definition startProxy_sh (pwd : string) (mps : bool) (args : list string) : option (list (string * string)) :=
  device ← args !! 0%nat;
  let cap := default "100" (args !! 1%nat) in
  let dedup := default "0" (args !! 2%nat) in
  let model_list := default "../ModelList.txt" (args !! 3%nat) in
  part_flag ← args !! 4%nat;
  ngpu ← args !! 5%nat;
  nparts ← args !! 6%nat;
  if mps then
    Some [("common", pwd +:+ "/../"); ("devid", device); ("threadcap", cap); ("dedup", dedup); ("model_list", model_list);
          ("partition", part_flag); ("ngpu", ngpu); ("npart", nparts)]
  else None.

(** ** The options of the proxy *)
Record ProxyOptions : Type := mkProxyOptions {
  g_devID : Z; g_threadCap : Z; g_dedup : Z; g_partIdx : Z; g_commonDir : string }.
Section Options.
Context (shell : string -> list string) (lexical_int : string -> outcome Z).
Fixpoint option_text (opts : list (string * string)) (name : string) : option string :=
  match opts with
  | [] => None
  | (n, t) :: opts' => if String.eqb n name then Some t else option_text opts' name
  end.
Definition option_int (opts : list (string * string)) (name : string) (dflt : Z) : outcome Z :=
  match option_text opts name with Some t => lexical_int t | None => Done dflt end.
(** A text that is no number raises. *)
Definition parseOpts (opts : list (string * string)) : outcome ProxyOptions :=
  devid ← option_int opts "devid" (-1);
  threadcap ← option_int opts "threadcap" 100;
  dedup ← option_int opts "dedup" 0;
  partition ← option_int opts "partition" 0;
  _ ← option_int opts "ngpu" 2;
  _ ← option_int opts "npart" 7;
  Done (mkProxyOptions devid threadcap dedup partition
          (default "../../pytorch-common/" (option_text opts "common") +:+ "models/")).
(** The proxy that a backend boots: [None] when there is no process. *)
Definition booted_proxy (pwd PROXY_DIR PROXY_SH : string) (mps : bool) (x : ProxyInfo) (ngpu nparts : Z) :
    option (outcome ProxyOptions) :=
  opts ← startProxy_sh pwd mps (tail (shell (bootProxy_cmd (p_dev_id x) (p_cap x) (p_dedup_num x) (partition_num x)
                                       ngpu nparts PROXY_DIR PROXY_SH)));
  Some (parseOpts opts).
End Options.

(** ** The sockets of a proxy *)
(** [strcpy] and [strcat] into an array of [size] characters. *)
Definition c_strcpy (size : nat) (text : string) : outcome string :=
  if (String.length text <? size)%nat then Done text else Stop Undefined.
Definition c_strcat (size : nat) (buffer text : string) : outcome string :=
  if (String.length buffer + String.length text <? size)%nat then Done (buffer +:+ text) else Stop Undefined.
(** [snprintf]: what fits. *)
Definition c_snprintf (size : nat) (text : string) : string := substring 0 (size - 1) text.
Definition id_text (gpuid threadcap dedup : Z) : string :=
  print_int gpuid +:+ "_" +:+ print_int threadcap +:+ "_" +:+ print_int dedup.

(** Listening: [recvInput] and [send_output] up to [listen]. *)
Definition listen_on (binds : string -> bool) (sockname : string) : outcome string :=
  sun_path ← c_strcpy 108 sockname;
  if binds sun_path then Done sun_path else Stop (Exited 1).
Definition recvInput_socket (binds : string -> bool) (o : ProxyOptions) : outcome string :=
  listen_on binds ("/tmp/gpusock_input_" +:+ id_text (g_devID o) (g_threadCap o) (g_dedup o)).
Definition send_output_socket (binds : string -> bool) (o : ProxyOptions) : outcome string :=
  listen_on binds ("/tmp/gpusock_output_" +:+ id_text (g_devID o) (g_threadCap o) (g_dedup o)).

(** Connecting. *)
Definition connect_to (up : string -> bool) (prefix : string) (gpuid threadcap dedup : Z) : outcome string :=
  buffer ← c_strcpy 50 prefix;
  let idbuffer := c_snprintf 20 (id_text gpuid threadcap dedup) in
  buffer ← c_strcat 50 buffer idbuffer;
  sun_path ← c_strcpy 108 buffer;
  if up sun_path then Done sun_path else Stop (Exited 1).
Definition connectGPUProxyIn (up : string -> bool) : Z -> Z -> Z -> outcome string := connect_to up "/tmp/gpusock_input_".
Definition connectGPUProxyOut (up : string -> bool) : Z -> Z -> Z -> outcome string := connect_to up "/tmp/gpusock_output_".

(** ** The addresses of the backends *)
Record Net : Type := mkNet {
  net_socket : Z; net_host : string -> option string; net_connect : string -> Z -> bool; net_bind : Z -> bool }.
Definition htons (portno : Z) : Z := (portno mod 65536)%Z.
Section Addresses.
Context (net : Net).
Definition client_init (hostname : string) (portno : Z) : outcome Z :=
  if (net_socket net <? 0)%Z then Stop (Exited 0)
  else match net_host net hostname with
       | None => Stop (Exited 0)
       | Some server => if net_connect net server (htons portno) then Done (net_socket net) else Done (-1)%Z
       end.
Definition server_init (portno : Z) : outcome Z :=
  if (net_socket net <? 0)%Z then Stop (Exited 0)
  else if net_bind net (htons portno) then Done (net_socket net) else Stop (Exited 0).
(** [while(temp_s.good())]: an empty field after a delimiter at the end counts. *)
Fixpoint addr_fields (fuel : nat) (temp_s : option string) : list string :=
  match fuel, temp_s with
  | S fuel', Some s => let '(substr, rest) := span_delim ":"%char s in substr :: addr_fields fuel' rest
  | _, _ => []
  end.
Definition connectChannel (backend_addr : string) : outcome Z :=
  match addr_fields (S (String.length backend_addr)) (Some backend_addr) with
  | [addr; port] =>
      portno ← stoi port;
      socketfd ← client_init addr portno;
      if (socketfd <? 0)%Z then Done (-1)%Z else Done socketfd
  | _ => Stop AssertionFailed
  end.
(** The descriptor stored, and the value returned. *)
Definition connectCtrlChannel (backend_addr : string) : outcome (Z * Z) :=
  fd ← connectChannel backend_addr; Done (fd, if (fd =? -1)%Z then (-1)%Z else fd).
Definition connectNewDataChannel (_backend_data_addr : string) : outcome Z := connectChannel _backend_data_addr.
End Addresses.

Example fields_ex : map (fun s => addr_fields (S (String.length s)) (Some s)) ["a:b"; "a:b:"; "a"; ""] = [["a"; "b"]; ["a"; "b"; ""]; ["a"]; [""]].
Proof. reflexivity. Qed.
