(* ===== verification/Control.v ===== *)
(** * Control of the proxies: shared memory states ([common/shmem_ctrl.cpp]), the
    control of local proxies ([service/proxy_ctrl.cpp]), the messages the
    frontend sends to the backends ([service/backend_proxy_ctrl.cpp],
    [service/backend_delegate.cpp]) and their execution in a backend
    ([service/backend_control.cpp]).

    A control socket carries [int]s in order, one message at a time ([_mtx]).
    What other processes do is a parameter: [env] is what they do to the shared
    memory while a backend sleeps, [reply] is the answer of a backend to a
    message, which may depend on all messages sent before. *)
From Stdlib Require Import ZArith SpecFloat String Lia.
From S2P Require Import Prelude CppFloat CppStd SchedData LoadBalancer AppModel SysState Printf Endpoints.

Inductive proxy_state : Type := COLD | BOOTING | RUNNING | LOADING | EXITING | FLUSHED.
#[global] Instance proxy_state_eq_dec : EqDecision proxy_state.
Proof. solve_decision. Defined.

Definition state_code (s : proxy_state) : Z :=
  match s with COLD => 0 | BOOTING => 1 | RUNNING => 2 | LOADING => 3 | EXITING => 4 | FLUSHED => 5 end.
Definition state_of_code (z : Z) : option proxy_state :=
  if (z =? 0)%Z then Some COLD else if (z =? 1)%Z then Some BOOTING else if (z =? 4)%Z then Some EXITING
  else if (z =? 2)%Z then Some RUNNING else if (z =? 5)%Z then Some FLUSHED
  else if (z =? 3)%Z then Some LOADING else None.

(** ** Shared memory *)
Definition _MAX_GPU : Z := 4.
Definition _MAX_PROXY_PER_GPU : Z := 7.
Abbreviation ShMem := (list Z) (only parsing).

(** Attaching an existing segment keeps its contents unless it is cleared. *)
Definition initShMem (clear_state : bool) (segment : ShMem) : ShMem :=
  if clear_state then replicate (Z.to_nat (_MAX_GPU * _MAX_PROXY_PER_GPU)) 0%Z else segment.

(** Both asserts bound the index from above only. *)
Definition shmem_index (devid part_idx : Z) : outcome Z :=
  if negb (part_idx <? _MAX_PROXY_PER_GPU)%Z then Stop AssertionFailed
  else
    let shmem_index := i32 (devid * _MAX_PROXY_PER_GPU + part_idx) in
    if negb (shmem_index <? _MAX_PROXY_PER_GPU * _MAX_GPU)%Z then Stop AssertionFailed
    else Done shmem_index.
Definition setShMem (value devid part_idx : Z) : M ShMem unit :=
  i ← lift (shmem_index devid part_idx);
  m ← get;
  _ ← lift (at_index m i);
  put (<[Z.to_nat i := value]> m).
Definition getShMem (devid part_idx : Z) : M ShMem Z :=
  i ← lift (shmem_index devid part_idx); m ← get; lift (at_index m i).
Definition setProxyState (state : proxy_state) (devid part_idx : Z) : M ShMem unit :=
  setShMem (state_code state) devid part_idx.
(** [None] is [EXIT_FAILURE]: an unknown code, the output is left alone. *)
Definition shm_getProxyState (devid part_idx : Z) : M ShMem (option proxy_state) :=
  v ← getShMem devid part_idx; mret (state_of_code v).

(** ** [ProxyCtrl], in a backend *)

(** Messages on the input socket of a proxy process. *)
Inductive ProxyMsg : Type := MsgClose | MsgLoad (model_id batch_size : Z) | MsgUnload (model_id : Z).
(** What they ask for: model [id] is wanted after [l] if the last message that names
    it is to load it. *)
Definition wanted (l : list ProxyMsg) (id : Z) : bool :=
  foldl (fun b m =>
    match m with
    | MsgLoad id' _ => if decide (id' = id) then true else b
    | MsgUnload id' => if decide (id' = id) then false else b
    | MsgClose => b
    end) false l.

(** What a backend holds: its monitor and proxies, the shared memory, the
    messages sent to the proxy processes, the processes it started, and the
    number of times it slept. *)
Record Backend : Type := mkBackend {
  bk_front : Front; bk_shm : ShMem; bk_sent : list (ProxyPtr * ProxyMsg);
  bk_booted : list (ProxyPtr * Z * Z); bk_ticks : nat }.

Definition set_bk_front (f : Front) (b : Backend) : Backend :=
  mkBackend f (bk_shm b) (bk_sent b) (bk_booted b) (bk_ticks b).
Definition set_bk_shm (m : ShMem) (b : Backend) : Backend :=
  mkBackend (bk_front b) m (bk_sent b) (bk_booted b) (bk_ticks b).
Definition send_msg (p : ProxyPtr) (msg : ProxyMsg) : M Backend unit :=
  modify (fun b => mkBackend (bk_front b) (bk_shm b) (bk_sent b ++ [(p, msg)]) (bk_booted b) (bk_ticks b)).
Definition boot_process (p : ProxyPtr) (ngpus nparts : Z) : M Backend unit :=
  modify (fun b => mkBackend (bk_front b) (bk_shm b) (bk_sent b) (bk_booted b ++ [(p, ngpus, nparts)]) (bk_ticks b)).

Definition on_front {A} (m : M Front A) : M Backend A := zoom bk_front set_bk_front m.
Definition on_shm {A} (m : M ShMem A) : M Backend A := zoom bk_shm set_bk_shm m.

Section ProxyCtrl.
(** What the other processes do to the shared memory during the [n]-th sleep,
    and the value of an uninitialised state variable. *)
Context (env : nat -> ShMem -> ShMem) (junk : proxy_state).
(** Whether somebody listens on a path. *)
Context (up : Backend -> string -> bool).

Definition sleep : M Backend unit :=
  modify (fun b => mkBackend (bk_front b) (env (bk_ticks b) (bk_shm b)) (bk_sent b) (bk_booted b)
                     (S (bk_ticks b))).

Definition markProxy (p : ProxyPtr) (state : proxy_state) : M Backend unit :=
  x ← on_front (rd_proxy p); on_shm (setProxyState state (p_dev_id x) (partition_num x)).
(** An unknown code reads as [COLD]. *)
Definition getProxyState (p : ProxyPtr) : M Backend proxy_state :=
  x ← on_front (rd_proxy p);
  s ← on_shm (shm_getProxyState (p_dev_id x) (partition_num x));
  mret (default COLD s).
(** The polling loops read the memory directly: an unknown code leaves the
    last known state. *)
Definition poll (p : ProxyPtr) (curr : proxy_state) : M Backend proxy_state :=
  x ← on_front (rd_proxy p);
  s ← on_shm (shm_getProxyState (p_dev_id x) (partition_num x));
  mret (default curr s).
Fixpoint wait_loop (fuel : nat) (p : ProxyPtr) (state curr : proxy_state) : M Backend unit :=
  if decide (curr = state) then mret tt
  else match fuel with
       | O => fail OutOfFuel
       | S fuel' => _ ← sleep; curr ← poll p curr; wait_loop fuel' p state curr
       end.
Definition waitProxy (fuel : nat) (p : ProxyPtr) (state : proxy_state) : M Backend unit :=
  curr ← poll p junk;
  wait_loop fuel p state curr.

(** A proxy that is booting is left alone; otherwise its process is started
    once the previous one is gone, and the call ends when it is booting. *)
Definition startProxy (fuel : nat) (p : ProxyPtr) (ngpus nparts : Z) : M Backend unit :=
  curr ← poll p junk;
  if decide (curr = BOOTING) then mret tt
  else
    _ ← wait_loop fuel p COLD curr;
    _ ← boot_process p ngpus nparts;
    waitProxy fuel p BOOTING.
Definition endProxy (p : ProxyPtr) : M Backend unit :=
  _ ← markProxy p EXITING; on_front (wr_proxy p (set_isBooted false)).
(** The two connections end the program when nobody listens. *)
Definition connectProxy (p : ProxyPtr) : M Backend unit :=
  x ← on_front (rd_proxy p);
  if isConnected x then mret tt
  else
    b ← get;
    _ ← lift (connectGPUProxyIn (up b) (p_dev_id x) (p_cap x) (p_dedup_num x));
    _ ← lift (connectGPUProxyOut (up b) (p_dev_id x) (p_cap x) (p_dedup_num x));
    on_front (wr_proxy p (set_isConnected true)).
Definition disconnectProxy (p : ProxyPtr) : M Backend unit :=
  _ ← send_msg p MsgClose; on_front (wr_proxy p (set_isConnected false)).
Definition makeProxyLoadModel (p : ProxyPtr) (model_id batch_size : Z) : M Backend unit :=
  _ ← markProxy p LOADING; send_msg p (MsgLoad model_id batch_size).
Definition makeProxyUnloadModel (p : ProxyPtr) (model_id : Z) : M Backend unit :=
  _ ← markProxy p LOADING; send_msg p (MsgUnload model_id).

(** ** [BackendControl]

    [used_memory] is what the driver reports for a GPU. *)
Context (used_memory : Z -> Z).

Inductive BACKEND_CONTROL_CMD : Type :=
| BACKEND_GET_STATE | BACKEND_SET_STATE | BACKEND_LOAD_MODEL | BACKEND_UNLOAD_MODEL
| BACKEND_START_PROXY | BACKEND_END_PROXY | BACKEND_DISCONNECT_PROXY | BACKEND_CONNECT_PROXY
| BACKEND_GET_MEM | BACKEND_GET_NGPUS.
Definition cmd_code (c : BACKEND_CONTROL_CMD) : Z :=
  match c with
  | BACKEND_GET_STATE => 0 | BACKEND_SET_STATE => 1 | BACKEND_LOAD_MODEL => 2
  | BACKEND_UNLOAD_MODEL => 3 | BACKEND_START_PROXY => 4 | BACKEND_END_PROXY => 5
  | BACKEND_DISCONNECT_PROXY => 6 | BACKEND_CONNECT_PROXY => 7 | BACKEND_GET_MEM => 8
  | BACKEND_GET_NGPUS => 9 end.
Definition cmds : list BACKEND_CONTROL_CMD :=
  [BACKEND_GET_STATE; BACKEND_SET_STATE; BACKEND_LOAD_MODEL; BACKEND_UNLOAD_MODEL;
   BACKEND_START_PROXY; BACKEND_END_PROXY; BACKEND_DISCONNECT_PROXY; BACKEND_CONNECT_PROXY;
   BACKEND_GET_MEM; BACKEND_GET_NGPUS].
Definition cmd_of_code (z : Z) : option BACKEND_CONTROL_CMD :=
  if (z <? 0)%Z then None else cmds !! Z.to_nat z.

(** One message of the socket: its length, the command, the device number of
    the frontend, the partition and the other parameters.  The device number is
    translated with [at], which throws when there is no entry; a socket that is
    at its end reads zero. *)
Fixpoint take_ints (n : nat) (stream : list Z) : list Z * list Z :=
  match n with
  | O => ([], stream)
  | S n' =>
      let '(x, stream) := match stream with [] => (0%Z, []) | x :: s => (x, s) end in
      let '(xs, stream) := take_ints n' stream in (x :: xs, stream)
  end.
Definition receiveControl (stream : list Z) : M Backend (option (list Z) * list Z) :=
  let '(rdsize, stream) := match stream with [] => (0%Z, []) | x :: s => (x, s) end in
  if (rdsize =? 0)%Z then mret (None, stream)
  else
    _ ← massert (3 <=? rdsize)%Z;
    let '(params, stream) := take_ints (Z.to_nat rdsize) stream in
    b ← get;
    match params with
    | cmd :: dev :: rest =>
        match FrontDevIDToHostDevID (f_sys (bk_front b)) !! dev with
        | Some host => mret (Some (cmd :: host :: rest), stream)
        | None => fail Uncaught
        end
    | _ => mret (None, stream)
    end.

(** The last local number that stands for the device. *)
Definition original_index (dev_id : Z) (s : SysMonitor) : Z :=
  foldl (fun idx '(local, host) => if (host =? dev_id)%Z then local else idx) (-1)%Z
    (std_sort (fun a b => a.1 <? b.1)%Z (map_to_list (FrontDevIDToHostDevID s))).

(** The answer sent back ([None]: nothing is sent).  The state that
    [BACKEND_SET_STATE] sets is the local variable [state], which is 3, and not
    the parameter of the message. *)
Definition executeControl (fuel : nat) (params : list Z) : M Backend (option Z) :=
  _ ← massert (3 <=? length params)%nat;
  cmd ← lift (deref (params !! 0%nat));
  dev_id ← lift (deref (params !! 1%nat));
  part_num ← lift (deref (params !! 2%nat));
  p ← on_front (findProxy_index dev_id part_num);
  b ← get;
  let s := f_sys (bk_front b) in
  let original_idx := original_index dev_id s in
  let state := LOADING in
  match cmd_of_code cmd with
  | Some BACKEND_GET_STATE => st ← getProxyState p; mret (Some (state_code st))
  | Some BACKEND_SET_STATE => _ ← markProxy p state; mret (Some (state_code state))
  | Some BACKEND_CONNECT_PROXY => _ ← connectProxy p; mret (Some (state_code state))
  | Some BACKEND_DISCONNECT_PROXY => _ ← disconnectProxy p; mret (Some (state_code state))
  | Some BACKEND_LOAD_MODEL =>
      model ← lift (deref (params !! 3%nat));
      batch ← lift (deref (params !! 4%nat));
      _ ← makeProxyLoadModel p model batch; mret (Some 0%Z)
  | Some BACKEND_UNLOAD_MODEL =>
      model ← lift (deref (params !! 3%nat));
      _ ← makeProxyUnloadModel p model; mret (Some 0%Z)
  | Some BACKEND_START_PROXY => _ ← startProxy fuel p (nGPUs s) (nProxyPerGPU s); mret (Some 0%Z)
  | Some BACKEND_END_PROXY => _ ← endProxy p; mret (Some 0%Z)
  | Some BACKEND_GET_MEM =>
      _ ← massert (negb (original_idx =? -1)%Z);
      mret (Some (used_memory original_idx))
  | Some BACKEND_GET_NGPUS => mret (Some (nGPUs s))
  | None => mret None
  end.
End ProxyCtrl.

(** ** [BackendProxyCtrl] and [BackendDelegate], in the frontend *)
Record BackendDelegate : Type := mkDelegate {
  bd_nGPUs : Z; bd_total_mem : Z; bd_type : string; bd_sizes : list Z }.
Definition set_bd_nGPUs (n : Z) (d : BackendDelegate) : BackendDelegate :=
  mkDelegate n (bd_total_mem d) (bd_type d) (bd_sizes d).

(** The two tables, every control message sent with the node it went to, and
    the messages on the data channels opened. *)
Record BackendProxyCtrl : Type := mkCtrl {
  mMapBackendDelegate : gmap Z BackendDelegate;
  mPerBackendNodeDevNum : gmap Z Z;
  c_log : list (Z * list Z);
  c_data : list (Z * list Z) }.
Definition new_BackendProxyCtrl : BackendProxyCtrl := mkCtrl ∅ ∅ [] [].

Definition addBackendDelegate (node_id : Z) (d : BackendDelegate) : M BackendProxyCtrl bool :=
  c ← get;
  match mMapBackendDelegate c !! node_id with
  | Some _ => mret EXIT_FAILURE
  | None =>
      _ ← put (mkCtrl (<[node_id := d]> (mMapBackendDelegate c))
                 (<[node_id := bd_nGPUs d]> (mPerBackendNodeDevNum c)) (c_log c) (c_data c));
      mret EXIT_SUCCESS
  end.

(** The number of the device in its node: minus the devices of the nodes before
    it. *)
Definition lookupFrontDevIDtoBackDevID (x : ProxyInfo) (c : BackendProxyCtrl) : Z :=
  let sum_of_dev := foldl (fun sum i => i32 (sum + default 0%Z (mPerBackendNodeDevNum c !! Z.of_nat i)))
                      0%Z (seq 0 (Z.to_nat (p_node_id x))) in
  i32 (p_dev_id x - sum_of_dev).

(** A message [PARAM_NUM, cmd, dev, part, ...]. *)
Definition control_msg (c : BACKEND_CONTROL_CMD) (dev part : Z) (more : list Z) : list Z :=
  let params := cmd_code c :: dev :: part :: more in Z.of_nat (length params) :: params.

(** The frontend: monitor and proxies, the control object, and the number of
    times one of its threads slept. *)
Record Frontend : Type := mkFrontend {
  fe_front : Front; fe_ctrl : BackendProxyCtrl; fe_ticks : nat }.
Definition set_fe_front (f : Front) (s : Frontend) : Frontend := mkFrontend f (fe_ctrl s) (fe_ticks s).
Definition set_fe_ctrl (c : BackendProxyCtrl) (s : Frontend) : Frontend := mkFrontend (fe_front s) c (fe_ticks s).
Definition fe_on_front {A} (m : M Front A) : M Frontend A := zoom fe_front set_fe_front m.
Definition fe_rd (p : ProxyPtr) : M Frontend ProxyInfo := fe_on_front (rd_proxy p).
Definition fe_wr (p : ProxyPtr) (g : ProxyInfo -> ProxyInfo) : M Frontend unit := fe_on_front (wr_proxy p g).

Section BackendProxyCtrl.
(** The answer of a backend to the last message of a log, and what the other
    threads of the frontend do during a sleep. *)
Context (reply : list (Z * list Z) -> Z) (threads : nat -> Frontend -> Frontend).

Definition fe_sleep : M Frontend unit :=
  modify (fun s => let s' := threads (fe_ticks s) s in mkFrontend (fe_front s') (fe_ctrl s') (S (fe_ticks s))).

(** One message on the control socket of the node of the proxy, and its
    answer. *)
Definition call (p : ProxyPtr) (cmd : BACKEND_CONTROL_CMD) (part : ProxyInfo -> Z) (more : list Z) :
    M Frontend Z :=
  x ← fe_rd p;
  s ← get;
  let c := fe_ctrl s in
  _ ← lift (deref (mMapBackendDelegate c !! p_node_id x));
  let dev_id := lookupFrontDevIDtoBackDevID x c in
  let log := c_log c ++ [(p_node_id x, control_msg cmd dev_id (part x) more)] in
  _ ← put (set_fe_ctrl (mkCtrl (mMapBackendDelegate c) (mPerBackendNodeDevNum c) log (c_data c)) s);
  mret (reply log).

(** A data channel: its first message names the proxy and the direction. *)
Definition open_channel (p : ProxyPtr) (direction : Z) : M Frontend unit :=
  x ← fe_rd p;
  s ← get;
  let c := fe_ctrl s in
  let dev_id := lookupFrontDevIDtoBackDevID x c in
  put (set_fe_ctrl (mkCtrl (mMapBackendDelegate c) (mPerBackendNodeDevNum c) (c_log c)
         (c_data c ++ [(p_node_id x, [dev_id; partition_num x; direction])])) s).

Definition c_startProxy (p : ProxyPtr) : M Frontend unit :=
  _ ← call p BACKEND_START_PROXY partition_num []; mret tt.
Definition c_endProxy (p : ProxyPtr) : M Frontend unit :=
  _ ← call p BACKEND_END_PROXY partition_num []; fe_wr p (set_isBooted false).
Definition c_connectProxy (p : ProxyPtr) : M Frontend unit :=
  x ← fe_rd p;
  if isConnected x then mret tt
  else
    _ ← call p BACKEND_CONNECT_PROXY partition_num [];
    _ ← when (negb (isConnectedtoBackend x))
          (_ ← open_channel p 0; _ ← open_channel p 1; fe_wr p (set_isConnectedtoBackend true));
    fe_wr p (set_isConnected true).
Definition c_disconnectProxy (p : ProxyPtr) : M Frontend unit :=
  _ ← call p BACKEND_DISCONNECT_PROXY partition_num []; fe_wr p (set_isConnected false).
Definition c_makeProxyLoadModel (p : ProxyPtr) (model_id batch_size : Z) : M Frontend unit :=
  _ ← call p BACKEND_LOAD_MODEL partition_num [model_id; batch_size]; mret tt.
Definition c_makeProxyUnloadModel (p : ProxyPtr) (model_id : Z) : M Frontend unit :=
  _ ← call p BACKEND_UNLOAD_MODEL partition_num [model_id]; mret tt.
Definition c_markProxy (p : ProxyPtr) (state : proxy_state) : M Frontend unit :=
  _ ← call p BACKEND_SET_STATE partition_num [state_code state]; mret tt.
(** [static_cast<proxy_state>]: the code itself. *)
Definition c_getProxyState (p : ProxyPtr) : M Frontend Z := call p BACKEND_GET_STATE partition_num [].
Definition c_getUsedMem (p : ProxyPtr) : M Frontend Z := call p BACKEND_GET_MEM (fun _ => 0%Z) [].
Definition c_getTotalMem (delegates : list (Z * BackendDelegate)) (p : ProxyPtr) : M Frontend Z :=
  x ← fe_rd p;
  d ← lift (deref (om_find (p_node_id x) delegates));
  mret (bd_total_mem d).

Fixpoint c_wait_loop (fuel : nat) (p : ProxyPtr) (state : proxy_state) (curr : Z) : M Frontend unit :=
  if (curr =? state_code state)%Z then mret tt
  else match fuel with
       | O => fail OutOfFuel
       | S fuel' => _ ← fe_sleep; curr ← c_getProxyState p; c_wait_loop fuel' p state curr
       end.
Definition c_waitProxy (fuel : nat) (p : ProxyPtr) (state : proxy_state) : M Frontend unit :=
  curr ← c_getProxyState p; c_wait_loop fuel p state curr.
End BackendProxyCtrl.

(** [updateNGPUS] sends a message of its own, for device 0 and partition 0. *)
Definition setNGPUs_delegate (ngpu : Z) : M BackendDelegate unit :=
  _ ← massert (0 <=? ngpu)%Z; modify (set_bd_nGPUs ngpu).
Definition updateNGPUS (answer : list Z -> Z) : M BackendDelegate bool :=
  _ ← modify (set_bd_nGPUs (answer (control_msg BACKEND_GET_NGPUS 0 0 []))); mret EXIT_SUCCESS.
