(* ===== verification/ControlProps.v ===== *)
(** * Properties of the control path: the shared state table, and what a message
    of the frontend does in the backend. *)
From Stdlib Require Import ZArith SpecFloat String Lia.
From S2P Require Import Prelude CppFloat CppStd SchedData LoadBalancer AppModel SysState Control.

(** ** The shared state table *)
Definition slot (devid part : Z) : Prop := (0 <= devid < _MAX_GPU)%Z /\ (0 <= part < _MAX_PROXY_PER_GPU)%Z.
Definition slot_index (devid part : Z) : nat := Z.to_nat (devid * _MAX_PROXY_PER_GPU + part).
Definition shm_size : nat := Z.to_nat (_MAX_GPU * _MAX_PROXY_PER_GPU).

Lemma shmem_index_slot d p : slot d p ->
  shmem_index d p = Done (d * _MAX_PROXY_PER_GPU + p)%Z /\ (slot_index d p < shm_size)%nat.
Proof.
  unfold slot, shmem_index, slot_index, shm_size, _MAX_GPU, _MAX_PROXY_PER_GPU. intros [Hd Hp].
  rewrite (proj2 (Z.ltb_lt p 7)) by lia. cbn [negb].
  rewrite i32_id by (unfold in_i32, INT_MIN, INT_MAX; lia).
  rewrite (proj2 (Z.ltb_lt _ (7 * 4))) by lia. split; [done|lia].
Qed.

Lemma state_of_state_code s : state_of_code (state_code s) = Some s.
Proof. by destruct s. Qed.

Lemma at_slot d p (m : list Z) : slot d p -> length m = shm_size ->
  exists v, m !! slot_index d p = Some v /\ at_index m (d * _MAX_PROXY_PER_GPU + p) = Done v.
Proof.
  intros Hs Hm. destruct (shmem_index_slot d p Hs) as [_ Hi]. rewrite <- Hm in Hi.
  apply lookup_lt_is_Some_2 in Hi as [v Hv]. exists v. split; [done|]. unfold at_index.
  destruct Hs as [Hd Hp]. unfold _MAX_PROXY_PER_GPU in *. rewrite (proj2 (Z.ltb_ge _ _)) by lia.
  unfold slot_index, _MAX_PROXY_PER_GPU in Hv. by rewrite Hv.
Qed.

Lemma setProxyState_slot st d p m : slot d p -> length m = shm_size ->
  setProxyState st d p m = Done (tt, <[slot_index d p := state_code st]> m).
Proof.
  intros Hs Hm. destruct (shmem_index_slot d p Hs) as [Hi _].
  destruct (at_slot d p m Hs Hm) as (v & _ & Hv). unfold setProxyState, setShMem.
  rewrite Hi, (bind_done _ _ m (d * _MAX_PROXY_PER_GPU + p)%Z m) by done.
  rewrite (bind_done get _ m m m) by done. by rewrite Hv.
Qed.

(** The state table keeps one state per proxy: for the devices 0..3 and
    partitions 0..6 a state that is set is read back, every other proxy keeps
    the state it had, and no proxy is out of the table. *)
Lemma proxy_state_roundtrip st d p m : slot d p -> length m = shm_size ->
  exists m', setProxyState st d p m = Done (tt, m') /\ length m' = shm_size /\
    shm_getProxyState d p m' = Done (Some st, m') /\
    forall d' p', slot d' p' -> (d', p') <> (d, p) ->
      match shm_getProxyState d' p' m with
      | Done (v, _) => shm_getProxyState d' p' m' = Done (v, m')
      | Stop _ => False
      end.
Proof.
  intros Hs Hm. eexists. split; [by apply setProxyState_slot|]. set (m' := <[_ := _]> m).
  assert (Hm' : length m' = shm_size) by (unfold m'; by rewrite length_insert). split; [done|].
  assert (Hread : forall d' p' l, slot d' p' -> length l = shm_size -> exists v,
    l !! slot_index d' p' = Some v /\ shm_getProxyState d' p' l = Done (state_of_code v, l)).
  { intros d' p' l Hs' Hl. destruct (shmem_index_slot d' p' Hs') as [Hi _].
    destruct (at_slot d' p' l Hs' Hl) as (v & Hl' & Hv). exists v. split; [done|].
    unfold shm_getProxyState, getShMem, mbind, M_bind, lift, get. by rewrite Hi, Hv. }
  destruct (shmem_index_slot d p Hs) as [_ Hlt]. split.
  - destruct (Hread d p m' Hs Hm') as (v & Hv & ->). unfold m' in Hv.
    rewrite list_lookup_insert_eq in Hv by lia. injection Hv as <-. by rewrite state_of_state_code.
  - intros d' p' Hs' Hne. destruct (Hread d' p' m Hs' Hm) as (v & Hv & ->).
    destruct (Hread d' p' m' Hs' Hm') as (v' & Hv' & ->). unfold m' in Hv'.
    rewrite list_lookup_insert_ne in Hv'; [congruence|].
    unfold slot_index, slot, _MAX_GPU, _MAX_PROXY_PER_GPU in *. intros He. apply Hne.
    assert (d' = d /\ p' = p) as [-> ->] by lia. done.
Qed.

Lemma proxy_state_roundtrip_witness :
  exists m', setProxyState RUNNING 3 6 (initShMem true []) = Done (tt, m') /\
    shm_getProxyState 3 6 m' = Done (Some RUNNING, m') /\ shm_getProxyState 3 5 m' = Done (Some COLD, m').
Proof.
  destruct (proxy_state_roundtrip RUNNING 3 6 (initShMem true [])) as (m' & H1 & _ & H2 & H3).
  - split; vm_compute; split; congruence.
  - vm_compute. reflexivity.
  - exists m'. split; [exact H1|]. split; [exact H2|].
    assert (Hs : slot 3 5) by (split; vm_compute; split; congruence).
    specialize (H3 3%Z 5%Z Hs ltac:(congruence)). vm_compute in H3. exact H3.
Defined.

(** ** Messages *)
Lemma take_ints_app xs rest : take_ints (length xs) (xs ++ rest) = (xs, rest).
Proof. induction xs as [|x xs IH]; cbn; [done|]. by rewrite IH. Qed.

Lemma cmd_of_cmd_code c : cmd_of_code (cmd_code c) = Some c.
Proof. by destruct c. Qed.

Lemma receiveControl_msg c dev part more rest host b :
  FrontDevIDToHostDevID (f_sys (bk_front b)) !! dev = Some host ->
  receiveControl (control_msg c dev part more ++ rest) b =
  Done ((Some (cmd_code c :: host :: part :: more), rest), b).
Proof.
  intros Hh. unfold receiveControl, control_msg. cbn [app].
  set (ps := cmd_code c :: dev :: part :: more).
  rewrite (proj2 (Z.eqb_neq (Z.of_nat (length ps)) 0)) by (cbn; lia).
  rewrite (bind_done _ _ b tt b).
  2:{ unfold massert. rewrite (proj2 (Z.leb_le _ _)) by (cbn; lia). done. }
  rewrite Nat2Z.id. change (cmd_code c :: dev :: part :: more ++ rest) with (ps ++ rest).
  rewrite (take_ints_app ps rest). rewrite (bind_done get _ b b b) by done. cbn [ps]. by rewrite Hh.
Qed.

(** What each command asks for. *)
Definition perform (env : nat -> list Z -> list Z) (junk : proxy_state) (up : Backend -> string -> bool) (used_memory : Z -> Z)
    (fuel : nat) (c : BACKEND_CONTROL_CMD) (more : list Z) (host : Z) (p : ProxyPtr) : M Backend (option Z) :=
  b ← get;
  let s := f_sys (bk_front b) in
  match c, more with
  | BACKEND_GET_STATE, _ => st ← getProxyState p; mret (Some (state_code st))
  | BACKEND_SET_STATE, _ => _ ← markProxy p LOADING; mret (Some 3%Z)
  | BACKEND_LOAD_MODEL, model :: batch :: _ => _ ← makeProxyLoadModel p model batch; mret (Some 0%Z)
  | BACKEND_UNLOAD_MODEL, model :: _ => _ ← makeProxyUnloadModel p model; mret (Some 0%Z)
  | BACKEND_START_PROXY, _ => _ ← startProxy env junk fuel p (nGPUs s) (nProxyPerGPU s); mret (Some 0%Z)
  | BACKEND_END_PROXY, _ => _ ← endProxy p; mret (Some 0%Z)
  | BACKEND_CONNECT_PROXY, _ => _ ← connectProxy up p; mret (Some 3%Z)
  | BACKEND_DISCONNECT_PROXY, _ => _ ← disconnectProxy p; mret (Some 3%Z)
  | BACKEND_GET_MEM, _ =>
      _ ← massert (negb (original_index host s =? -1)%Z); mret (Some (used_memory (original_index host s)))
  | BACKEND_GET_NGPUS, _ => mret (Some (nGPUs s))
  | _, _ => fail Undefined
  end.

Lemma execute_performs env junk up used fuel c part more host p b :
  findProxy_index host part (bk_front b) = Done (p, bk_front b) ->
  executeControl env junk up used fuel (cmd_code c :: host :: part :: more) b =
  perform env junk up used fuel c more host p b.
Proof.
  intros Hp. unfold executeControl.
  rewrite (bind_done _ _ b tt b) by done. rewrite !(bind_done (lift _) _ b _ b) by done.
  rewrite (bind_done _ _ b p b).
  2:{ unfold on_front, zoom. rewrite Hp. by destruct b. }
  rewrite (bind_done get _ b b b) by done. cbv zeta. rewrite cmd_of_cmd_code.
  unfold perform. rewrite (bind_done get _ b b b) by done.
  destruct c; try done; destruct more as [|m1 [|m2 more]]; done.
Qed.

(** A control message of the frontend reaches the proxy it is about.  With
    the translation table of the backend filled in, the backend reads back
    exactly the message, leaves the rest of the stream alone, and performs the
    command on the proxy with the translated device and the partition of the
    message; only the state of BACKEND_SET_STATE is lost: whatever it is, the
    proxy is marked LOADING. *)
Lemma control_message_performed env junk up used fuel x ctl c part more rest host p b :
  FrontDevIDToHostDevID (f_sys (bk_front b)) !! lookupFrontDevIDtoBackDevID x ctl = Some host ->
  findProxy_index host part (bk_front b) = Done (p, bk_front b) ->
  let msg := control_msg c (lookupFrontDevIDtoBackDevID x ctl) part more in
  exists params, receiveControl (msg ++ rest) b = Done ((Some params, rest), b) /\
    executeControl env junk up used fuel params b = perform env junk up used fuel c more host p b.
Proof. intros Hh Hp msg. eexists. split; [by apply receiveControl_msg|by apply execute_performs]. Qed.

(** A backend with one GPU, number 2 of its host, and one proxy on it. *)
Definition demo_proxy (node dev part : Z) : ProxyInfo :=
  set_p_node_id node (set_p_dev_id dev (set_partition_num part
    (set_p_cap 50 (set_p_dedup_num 0 (new_proxy_info (mkIndet 0 fzero false)))))).
Definition demo_backend : Backend :=
  mkBackend (mkFront (set_PerDevMPSInfo {[2%Z := [0%nat]]} (set_nGPUs 1 (set_FrontDevIDToHostDevID
      {[0%Z := 2%Z]} (new_SysMonitor (mkIndet 0 fzero false))))) [demo_proxy 0 2 1])
    (initShMem true []) [] [] 0.
Definition demo_ctrl : BackendProxyCtrl := mkCtrl ∅ {[0%Z := 4%Z]} [] [].

(** Device 4 of the frontend is the first one of node 1; asked to mark the proxy
    RUNNING, the backend marks it LOADING. *)
Lemma control_message_performed_witness :
  exists params, receiveControl (control_msg BACKEND_SET_STATE
      (lookupFrontDevIDtoBackDevID (demo_proxy 1 4 1) demo_ctrl) 1 [state_code RUNNING] ++ [9%Z]) demo_backend
    = Done ((Some params, [9%Z]), demo_backend) /\
  match executeControl (fun _ m => m) COLD (fun _ _ => true) (fun _ => 0%Z) 0 params demo_backend with
  | Done (r, b') => r = Some 3%Z /\ shm_getProxyState 2 1 (bk_shm b') = Done (Some LOADING, bk_shm b')
  | Stop _ => False
  end.
Proof.
  destruct (control_message_performed (fun _ m => m) COLD (fun _ _ => true) (fun _ => 0%Z) 0 (demo_proxy 1 4 1) demo_ctrl
    BACKEND_SET_STATE 1 [state_code RUNNING] [9%Z] 2 0%nat demo_backend) as (params & H1 & H2).
  - vm_compute. reflexivity.
  - vm_compute. reflexivity.
  - exists params. split; [exact H1|]. rewrite H2.
    apply run_returns; [vm_compute; reflexivity|]. intros [r b'] H.
    vm_compute in H. injection H as <- <-. split; vm_compute; reflexivity.
Defined.
