(* ===== verification/GlobalState.v ===== *)
(** * The global scheduler, part 1 ([service/global_scheduler.h],
    [service/global_scheduler.cpp]): its tables and the operations on them.

    [Server] is the state the frontend's scheduling works on: the tables of
    [GlobalScheduler], the scheduler object [SBPScheduler] with its store, the
    frontend ([Control.Frontend]), the backends of [NodeIDtoBackendDelegate], and
    the threads that were started ([std::thread ... detach]), in order. *)
From Stdlib Require Import ZArith SpecFloat String Lia.
From S2P Require Import Prelude CppFloat CppStd LatencyModel DevPerfModel SchedData SchedUtils SchedBase Json Setup IncrEstimate IncrSchedule LoadBalancer SelfTuning AppModel SysState Control.

Inductive scheduler : Type := MPS_STATIC | ORACLE.
#[global] Instance scheduler_eq_dec : EqDecision scheduler.
Proof. solve_decision. Defined.

(** [mSchedulerMode] is uninitialised ([None]) before [setSchedulingMode].  The
    mutex tables have an entry exactly where the table they protect has one.
    [last_epoch] is the static variable of [OracleScheduler]. *)
Record GlobalScheduler : Type := mkGS {
  mSchedulerMode : option scheduler;
  mLoadBalancer : LoadBalancer.LoadBalancer;
  mNetNames : list string;
  mMaxBatchTable : gmap (string * string) Z;
  mMaxDelayTable : gmap (string * string) Z;
  mPerTaskEWMARate : gmap string EWMA.EWMA;
  mPerTaskEWMALat : gmap string EWMA.EWMA;
  mPerTaskEWMATrpt : gmap string EWMA.EWMA;
  mPerTaskRateHist : list (string * list spec_float);
  mPerTaskTgtRate : list (string * spec_float);
  mLatencyModel : LatencyModel.LatencyModel;
  mPerModelSLO : gmap string Z;
  mCurrState : SimState;
  mNextState : SimState;
  mPrevState : SimState;
  mNeedUpdate : bool;
  BEACON_INTERVAL : Z;
  EPOCH_INTERVAL : Z;
  HIST_LEN : spec_float;
  ALLOW_REPART : bool;
  last_epoch : Z }.

Definition set_mSchedulerMode (x : option scheduler) (g : GlobalScheduler) : GlobalScheduler :=
  mkGS x (mLoadBalancer g) (mNetNames g) (mMaxBatchTable g) (mMaxDelayTable g) (mPerTaskEWMARate
    g) (mPerTaskEWMALat g) (mPerTaskEWMATrpt g) (mPerTaskRateHist g) (mPerTaskTgtRate g)
    (mLatencyModel g) (mPerModelSLO g) (mCurrState g) (mNextState g) (mPrevState g) (mNeedUpdate
    g) (BEACON_INTERVAL g) (EPOCH_INTERVAL g) (HIST_LEN g) (ALLOW_REPART g) (last_epoch g).
Definition set_mLoadBalancer (x : LoadBalancer.LoadBalancer) (g : GlobalScheduler) : GlobalScheduler :=
  mkGS (mSchedulerMode g) x (mNetNames g) (mMaxBatchTable g) (mMaxDelayTable g) (mPerTaskEWMARate
    g) (mPerTaskEWMALat g) (mPerTaskEWMATrpt g) (mPerTaskRateHist g) (mPerTaskTgtRate g)
    (mLatencyModel g) (mPerModelSLO g) (mCurrState g) (mNextState g) (mPrevState g) (mNeedUpdate
    g) (BEACON_INTERVAL g) (EPOCH_INTERVAL g) (HIST_LEN g) (ALLOW_REPART g) (last_epoch g).
Definition set_mNetNames (x : list string) (g : GlobalScheduler) : GlobalScheduler :=
  mkGS (mSchedulerMode g) (mLoadBalancer g) x (mMaxBatchTable g) (mMaxDelayTable g)
    (mPerTaskEWMARate g) (mPerTaskEWMALat g) (mPerTaskEWMATrpt g) (mPerTaskRateHist g)
    (mPerTaskTgtRate g) (mLatencyModel g) (mPerModelSLO g) (mCurrState g) (mNextState g)
    (mPrevState g) (mNeedUpdate g) (BEACON_INTERVAL g) (EPOCH_INTERVAL g) (HIST_LEN g)
    (ALLOW_REPART g) (last_epoch g).
Definition set_mMaxBatchTable (x : gmap (string * string) Z) (g : GlobalScheduler) : GlobalScheduler :=
  mkGS (mSchedulerMode g) (mLoadBalancer g) (mNetNames g) x (mMaxDelayTable g) (mPerTaskEWMARate
    g) (mPerTaskEWMALat g) (mPerTaskEWMATrpt g) (mPerTaskRateHist g) (mPerTaskTgtRate g)
    (mLatencyModel g) (mPerModelSLO g) (mCurrState g) (mNextState g) (mPrevState g) (mNeedUpdate
    g) (BEACON_INTERVAL g) (EPOCH_INTERVAL g) (HIST_LEN g) (ALLOW_REPART g) (last_epoch g).
Definition set_mMaxDelayTable (x : gmap (string * string) Z) (g : GlobalScheduler) : GlobalScheduler :=
  mkGS (mSchedulerMode g) (mLoadBalancer g) (mNetNames g) (mMaxBatchTable g) x (mPerTaskEWMARate
    g) (mPerTaskEWMALat g) (mPerTaskEWMATrpt g) (mPerTaskRateHist g) (mPerTaskTgtRate g)
    (mLatencyModel g) (mPerModelSLO g) (mCurrState g) (mNextState g) (mPrevState g) (mNeedUpdate
    g) (BEACON_INTERVAL g) (EPOCH_INTERVAL g) (HIST_LEN g) (ALLOW_REPART g) (last_epoch g).
Definition set_mPerTaskEWMARate (x : gmap string EWMA.EWMA) (g : GlobalScheduler) : GlobalScheduler :=
  mkGS (mSchedulerMode g) (mLoadBalancer g) (mNetNames g) (mMaxBatchTable g) (mMaxDelayTable g) x
    (mPerTaskEWMALat g) (mPerTaskEWMATrpt g) (mPerTaskRateHist g) (mPerTaskTgtRate g)
    (mLatencyModel g) (mPerModelSLO g) (mCurrState g) (mNextState g) (mPrevState g) (mNeedUpdate
    g) (BEACON_INTERVAL g) (EPOCH_INTERVAL g) (HIST_LEN g) (ALLOW_REPART g) (last_epoch g).
Definition set_mPerTaskEWMALat (x : gmap string EWMA.EWMA) (g : GlobalScheduler) : GlobalScheduler :=
  mkGS (mSchedulerMode g) (mLoadBalancer g) (mNetNames g) (mMaxBatchTable g) (mMaxDelayTable g)
    (mPerTaskEWMARate g) x (mPerTaskEWMATrpt g) (mPerTaskRateHist g) (mPerTaskTgtRate g)
    (mLatencyModel g) (mPerModelSLO g) (mCurrState g) (mNextState g) (mPrevState g) (mNeedUpdate
    g) (BEACON_INTERVAL g) (EPOCH_INTERVAL g) (HIST_LEN g) (ALLOW_REPART g) (last_epoch g).
Definition set_mPerTaskEWMATrpt (x : gmap string EWMA.EWMA) (g : GlobalScheduler) : GlobalScheduler :=
  mkGS (mSchedulerMode g) (mLoadBalancer g) (mNetNames g) (mMaxBatchTable g) (mMaxDelayTable g)
    (mPerTaskEWMARate g) (mPerTaskEWMALat g) x (mPerTaskRateHist g) (mPerTaskTgtRate g)
    (mLatencyModel g) (mPerModelSLO g) (mCurrState g) (mNextState g) (mPrevState g) (mNeedUpdate
    g) (BEACON_INTERVAL g) (EPOCH_INTERVAL g) (HIST_LEN g) (ALLOW_REPART g) (last_epoch g).
Definition set_mPerTaskRateHist (x : list (string * list spec_float)) (g : GlobalScheduler) : GlobalScheduler :=
  mkGS (mSchedulerMode g) (mLoadBalancer g) (mNetNames g) (mMaxBatchTable g) (mMaxDelayTable g)
    (mPerTaskEWMARate g) (mPerTaskEWMALat g) (mPerTaskEWMATrpt g) x (mPerTaskTgtRate g)
    (mLatencyModel g) (mPerModelSLO g) (mCurrState g) (mNextState g) (mPrevState g) (mNeedUpdate
    g) (BEACON_INTERVAL g) (EPOCH_INTERVAL g) (HIST_LEN g) (ALLOW_REPART g) (last_epoch g).
Definition set_mPerTaskTgtRate (x : list (string * spec_float)) (g : GlobalScheduler) : GlobalScheduler :=
  mkGS (mSchedulerMode g) (mLoadBalancer g) (mNetNames g) (mMaxBatchTable g) (mMaxDelayTable g)
    (mPerTaskEWMARate g) (mPerTaskEWMALat g) (mPerTaskEWMATrpt g) (mPerTaskRateHist g) x
    (mLatencyModel g) (mPerModelSLO g) (mCurrState g) (mNextState g) (mPrevState g) (mNeedUpdate
    g) (BEACON_INTERVAL g) (EPOCH_INTERVAL g) (HIST_LEN g) (ALLOW_REPART g) (last_epoch g).
Definition set_mLatencyModel (x : LatencyModel.LatencyModel) (g : GlobalScheduler) : GlobalScheduler :=
  mkGS (mSchedulerMode g) (mLoadBalancer g) (mNetNames g) (mMaxBatchTable g) (mMaxDelayTable g)
    (mPerTaskEWMARate g) (mPerTaskEWMALat g) (mPerTaskEWMATrpt g) (mPerTaskRateHist g)
    (mPerTaskTgtRate g) x (mPerModelSLO g) (mCurrState g) (mNextState g) (mPrevState g)
    (mNeedUpdate g) (BEACON_INTERVAL g) (EPOCH_INTERVAL g) (HIST_LEN g) (ALLOW_REPART g)
    (last_epoch g).
Definition set_mPerModelSLO (x : gmap string Z) (g : GlobalScheduler) : GlobalScheduler :=
  mkGS (mSchedulerMode g) (mLoadBalancer g) (mNetNames g) (mMaxBatchTable g) (mMaxDelayTable g)
    (mPerTaskEWMARate g) (mPerTaskEWMALat g) (mPerTaskEWMATrpt g) (mPerTaskRateHist g)
    (mPerTaskTgtRate g) (mLatencyModel g) x (mCurrState g) (mNextState g) (mPrevState g)
    (mNeedUpdate g) (BEACON_INTERVAL g) (EPOCH_INTERVAL g) (HIST_LEN g) (ALLOW_REPART g)
    (last_epoch g).
Definition set_mCurrState (x : SimState) (g : GlobalScheduler) : GlobalScheduler :=
  mkGS (mSchedulerMode g) (mLoadBalancer g) (mNetNames g) (mMaxBatchTable g) (mMaxDelayTable g)
    (mPerTaskEWMARate g) (mPerTaskEWMALat g) (mPerTaskEWMATrpt g) (mPerTaskRateHist g)
    (mPerTaskTgtRate g) (mLatencyModel g) (mPerModelSLO g) x (mNextState g) (mPrevState g)
    (mNeedUpdate g) (BEACON_INTERVAL g) (EPOCH_INTERVAL g) (HIST_LEN g) (ALLOW_REPART g)
    (last_epoch g).
Definition set_mNextState (x : SimState) (g : GlobalScheduler) : GlobalScheduler :=
  mkGS (mSchedulerMode g) (mLoadBalancer g) (mNetNames g) (mMaxBatchTable g) (mMaxDelayTable g)
    (mPerTaskEWMARate g) (mPerTaskEWMALat g) (mPerTaskEWMATrpt g) (mPerTaskRateHist g)
    (mPerTaskTgtRate g) (mLatencyModel g) (mPerModelSLO g) (mCurrState g) x (mPrevState g)
    (mNeedUpdate g) (BEACON_INTERVAL g) (EPOCH_INTERVAL g) (HIST_LEN g) (ALLOW_REPART g)
    (last_epoch g).
Definition set_mPrevState (x : SimState) (g : GlobalScheduler) : GlobalScheduler :=
  mkGS (mSchedulerMode g) (mLoadBalancer g) (mNetNames g) (mMaxBatchTable g) (mMaxDelayTable g)
    (mPerTaskEWMARate g) (mPerTaskEWMALat g) (mPerTaskEWMATrpt g) (mPerTaskRateHist g)
    (mPerTaskTgtRate g) (mLatencyModel g) (mPerModelSLO g) (mCurrState g) (mNextState g) x
    (mNeedUpdate g) (BEACON_INTERVAL g) (EPOCH_INTERVAL g) (HIST_LEN g) (ALLOW_REPART g)
    (last_epoch g).
Definition set_mNeedUpdate (x : bool) (g : GlobalScheduler) : GlobalScheduler :=
  mkGS (mSchedulerMode g) (mLoadBalancer g) (mNetNames g) (mMaxBatchTable g) (mMaxDelayTable g)
    (mPerTaskEWMARate g) (mPerTaskEWMALat g) (mPerTaskEWMATrpt g) (mPerTaskRateHist g)
    (mPerTaskTgtRate g) (mLatencyModel g) (mPerModelSLO g) (mCurrState g) (mNextState g)
    (mPrevState g) x (BEACON_INTERVAL g) (EPOCH_INTERVAL g) (HIST_LEN g) (ALLOW_REPART g)
    (last_epoch g).
Definition set_BEACON_INTERVAL (x : Z) (g : GlobalScheduler) : GlobalScheduler :=
  mkGS (mSchedulerMode g) (mLoadBalancer g) (mNetNames g) (mMaxBatchTable g) (mMaxDelayTable g)
    (mPerTaskEWMARate g) (mPerTaskEWMALat g) (mPerTaskEWMATrpt g) (mPerTaskRateHist g)
    (mPerTaskTgtRate g) (mLatencyModel g) (mPerModelSLO g) (mCurrState g) (mNextState g)
    (mPrevState g) (mNeedUpdate g) x (EPOCH_INTERVAL g) (HIST_LEN g) (ALLOW_REPART g) (last_epoch
    g).
Definition set_EPOCH_INTERVAL (x : Z) (g : GlobalScheduler) : GlobalScheduler :=
  mkGS (mSchedulerMode g) (mLoadBalancer g) (mNetNames g) (mMaxBatchTable g) (mMaxDelayTable g)
    (mPerTaskEWMARate g) (mPerTaskEWMALat g) (mPerTaskEWMATrpt g) (mPerTaskRateHist g)
    (mPerTaskTgtRate g) (mLatencyModel g) (mPerModelSLO g) (mCurrState g) (mNextState g)
    (mPrevState g) (mNeedUpdate g) (BEACON_INTERVAL g) x (HIST_LEN g) (ALLOW_REPART g) (last_epoch
    g).
Definition set_HIST_LEN (x : spec_float) (g : GlobalScheduler) : GlobalScheduler :=
  mkGS (mSchedulerMode g) (mLoadBalancer g) (mNetNames g) (mMaxBatchTable g) (mMaxDelayTable g)
    (mPerTaskEWMARate g) (mPerTaskEWMALat g) (mPerTaskEWMATrpt g) (mPerTaskRateHist g)
    (mPerTaskTgtRate g) (mLatencyModel g) (mPerModelSLO g) (mCurrState g) (mNextState g)
    (mPrevState g) (mNeedUpdate g) (BEACON_INTERVAL g) (EPOCH_INTERVAL g) x (ALLOW_REPART g)
    (last_epoch g).
Definition set_ALLOW_REPART (x : bool) (g : GlobalScheduler) : GlobalScheduler :=
  mkGS (mSchedulerMode g) (mLoadBalancer g) (mNetNames g) (mMaxBatchTable g) (mMaxDelayTable g)
    (mPerTaskEWMARate g) (mPerTaskEWMALat g) (mPerTaskEWMATrpt g) (mPerTaskRateHist g)
    (mPerTaskTgtRate g) (mLatencyModel g) (mPerModelSLO g) (mCurrState g) (mNextState g)
    (mPrevState g) (mNeedUpdate g) (BEACON_INTERVAL g) (EPOCH_INTERVAL g) (HIST_LEN g) x
    (last_epoch g).
Definition set_last_epoch (x : Z) (g : GlobalScheduler) : GlobalScheduler :=
  mkGS (mSchedulerMode g) (mLoadBalancer g) (mNetNames g) (mMaxBatchTable g) (mMaxDelayTable g)
    (mPerTaskEWMARate g) (mPerTaskEWMALat g) (mPerTaskEWMATrpt g) (mPerTaskRateHist g)
    (mPerTaskTgtRate g) (mLatencyModel g) (mPerModelSLO g) (mCurrState g) (mNextState g)
    (mPrevState g) (mNeedUpdate g) (BEACON_INTERVAL g) (EPOCH_INTERVAL g) (HIST_LEN g)
    (ALLOW_REPART g) x.

(** Threads that load or unload models: the proxy and the (model, batch)
    pairs of [load_args]. *)
Inductive Job : Type :=
| LoadJob (p : ProxyPtr) (model_ids_batches : list (Z * Z))
| UnloadJob (p : ProxyPtr) (model_ids_batches : list (Z * Z)).

Record Server : Type := mkServer {
  sv_gs : GlobalScheduler;
  sv_world : World;
  sv_fe : Frontend;
  sv_delegates : list (Z * BackendDelegate);
  sv_jobs : list Job;
  sv_reads : nat }.
Definition set_sv_gs (x : GlobalScheduler) (s : Server) : Server :=
  mkServer x (sv_world s) (sv_fe s) (sv_delegates s) (sv_jobs s) (sv_reads s).
Definition set_sv_world (x : World) (s : Server) : Server :=
  mkServer (sv_gs s) x (sv_fe s) (sv_delegates s) (sv_jobs s) (sv_reads s).
Definition set_sv_fe (x : Frontend) (s : Server) : Server :=
  mkServer (sv_gs s) (sv_world s) x (sv_delegates s) (sv_jobs s) (sv_reads s).
Definition set_sv_delegates (x : list (Z * BackendDelegate)) (s : Server) : Server :=
  mkServer (sv_gs s) (sv_world s) (sv_fe s) x (sv_jobs s) (sv_reads s).
Definition set_sv_jobs (x : list Job) (s : Server) : Server :=
  mkServer (sv_gs s) (sv_world s) (sv_fe s) (sv_delegates s) x (sv_reads s).
Definition set_sv_reads (x : nat) (s : Server) : Server :=
  mkServer (sv_gs s) (sv_world s) (sv_fe s) (sv_delegates s) (sv_jobs s) x.

Abbreviation GM := (M Server) (only parsing).
Definition on_sched {A} (m : SM A) : GM A := zoom sv_world set_sv_world m.
Definition on_fe {A} (m : M Frontend A) : GM A := zoom sv_fe set_sv_fe m.
Definition on_front_fe {A} (m : M Front A) : GM A := on_fe (fe_on_front m).
Definition gs : GM GlobalScheduler := gets sv_gs.
Definition mod_gs (f : GlobalScheduler -> GlobalScheduler) : GM unit :=
  modify (fun s => set_sv_gs (f (sv_gs s)) s).
Definition monitor : GM SysMonitor := gets (fun s => f_sys (fe_front (sv_fe s))).
Definition mod_monitor (f : SysMonitor -> SysMonitor) : GM unit := on_front_fe (mod_sys f).
Definition start_thread (j : Job) : GM unit := modify (fun s => set_sv_jobs (sv_jobs s ++ [j]) s).

(** [getCurNs], its [n]-th call. *)
Definition getCurNs (clock : nat -> Z) : GM Z :=
  s ← get; _ ← put (set_sv_reads (S (sv_reads s)) s); mret (clock (sv_reads s)).

(** The devices [0 .. ngpus - 1] and their proxies. *)
Definition dev_range (n : Z) : list Z := map Z.of_nat (seq 0 (Z.to_nat n)).
Definition all_proxies (s : SysMonitor) : list ProxyPtr :=
  concat (map (fun i => getDevMPSInfo i s) (dev_range (nGPUs s))).

(** ** Names and limits *)
Definition addtoNetNames (name : string) (g : GlobalScheduler) : GlobalScheduler :=
  if decide (name ∈ mNetNames g) then g else set_mNetNames (mNetNames g ++ [name]) g.
Definition getNetNames (g : GlobalScheduler) : list string := mNetNames g.
Definition getSLO (name : string) (g : GlobalScheduler) : Z := default 0%Z (mPerModelSLO g !! name).
Definition setupModelSLO (name : string) (SLO : Z) (g : GlobalScheduler) : GlobalScheduler :=
  set_mPerModelSLO (<[name := SLO]> (mPerModelSLO g)) g.
Definition setMaxBatch (name type : string) (max_batch : Z) (g : GlobalScheduler) : GlobalScheduler :=
  set_mMaxBatchTable (<[(name, type) := max_batch]> (mMaxBatchTable g)) g.
Definition setMaxDelay (name type : string) (max_delay : Z) (g : GlobalScheduler) : GlobalScheduler :=
  set_mMaxDelayTable (<[(name, type) := max_delay]> (mMaxDelayTable g)) g.
Definition getMaxDelay (p : ProxyPtr) : GM spec_float := x ← on_front_fe (rd_proxy p); mret (p_duty_cycle x).
(** [float] of an unsigned 64-bit interval. *)
Definition getBeaconInterval (g : GlobalScheduler) : spec_float := i2f (BEACON_INTERVAL g).
Definition getEstLatency (task : string) (batch cap : Z) (type : string) : SM spec_float :=
  id ← getModelID task; getLatency_part type id batch cap.

(** ** Rates *)
(** [mPerTaskTgtRate[name]] *)
Definition getTaskTgtRate (name : string) : GM spec_float :=
  g ← gs;
  let '(r, m) := om_get fzero name (mPerTaskTgtRate g) in
  _ ← mod_gs (set_mPerTaskTgtRate m); mret r.
Definition set_tgt (name : string) (rate : spec_float) : GM unit :=
  mod_gs (fun g => set_mPerTaskTgtRate (om_set name rate (mPerTaskTgtRate g)) g).
(** [mPerTaskTgtRate.find(name) == end()] *)
Definition no_tgt (name : string) : GM bool :=
  g ← gs; mret (match om_find name (mPerTaskTgtRate g) with Some _ => false | None => true end).

Definition initReqRate (ReqName : string) (monitor_interval_ms query_interval_ms : Z)
    (init_rate : spec_float) : GM unit :=
  g ← gs;
  match mPerTaskEWMARate g !! ReqName with
  | Some _ => mret tt
  | None =>
      e ← lift (EWMA.make monitor_interval_ms query_interval_ms);
      mod_gs (set_mPerTaskEWMARate (<[ReqName := EWMA.InitRate init_rate e]> (mPerTaskEWMARate g)))
  end.
Definition updateAvgReqRate (ReqName : string) (timestamp : Z) : GM unit :=
  g ← gs;
  e ← lift (deref (mPerTaskEWMARate g !! ReqName));
  mod_gs (set_mPerTaskEWMARate (<[ReqName := EWMA.UpdateRate timestamp e]> (mPerTaskEWMARate g))).
Definition getTaskArivRate (ReqName : string) : GM spec_float :=
  g ← gs; e ← lift (deref (mPerTaskEWMARate g !! ReqName)); mret (EWMA.GetRate e).

(** Nothing creates the entries of [mPerTaskEWMALat]. *)
Definition getAvgLatency_model (modelname : string) : GM spec_float :=
  g ← gs; e ← lift (deref (mPerTaskEWMALat g !! modelname)); mret (EWMA.GetRate e).
Definition clearPerModelLatency_model (model : string) : GM unit :=
  g ← gs; e ← lift (deref (mPerTaskEWMALat g !! model));
  mod_gs (set_mPerTaskEWMALat
    (<[model := EWMA.UpdateValue fzero (EWMA.InitRate fzero e)]> (mPerTaskEWMALat g))).
Definition addLatency_model (modelname : string) (latency : spec_float) : GM unit :=
  g ← gs; e ← lift (deref (mPerTaskEWMALat g !! modelname));
  mod_gs (set_mPerTaskEWMALat (<[modelname := EWMA.UpdateValue latency e]> (mPerTaskEWMALat g))).
Definition getAvgTrpt (modelname : string) : GM spec_float :=
  g ← gs; e ← lift (deref (mPerTaskEWMATrpt g !! modelname)); mret (EWMA.GetRate e).
Definition clearPerModelTrpt (model : string) : GM unit :=
  g ← gs; e ← lift (deref (mPerTaskEWMATrpt g !! model));
  mod_gs (set_mPerTaskEWMATrpt (<[model := EWMA.UpdateRate 0 e]> (mPerTaskEWMATrpt g))).
Definition addTrpt (modelname : string) (latency : spec_float) : GM unit :=
  g ← gs; e ← lift (deref (mPerTaskEWMATrpt g !! modelname));
  mod_gs (set_mPerTaskEWMATrpt (<[modelname := EWMA.UpdateValue latency e]> (mPerTaskEWMATrpt g))).

(** [std::max_element]: the first of the largest. *)
Fixpoint max_element (largest : spec_float) (l : list spec_float) : spec_float :=
  match l with
  | [] => largest
  | x :: l' => max_element (if ltb largest x then x else largest) l'
  end.
Definition max_of (l : list spec_float) : outcome spec_float :=
  match l with [] => Stop Undefined | x :: l' => Done (max_element x l') end.

Definition rate_hist (name : string) (g : GlobalScheduler) : list spec_float :=
  default [] (om_find name (mPerTaskRateHist g)).
(** The newest rate is put in front, the oldest one leaves when the length,
    as a [float], is above [HIST_LEN]. *)
Definition push_hist (hist_len : spec_float) (rate : spec_float) (h : list spec_float) : list spec_float :=
  let h := rate :: h in
  if gtb (i2f (Z.of_nat (length h))) hist_len then removelast h else h.
Definition updateAndReturnMaxHistRate (model_name : string) (rate : spec_float) : GM spec_float :=
  g ← gs;
  let h := push_hist (HIST_LEN g) rate (rate_hist model_name g) in
  _ ← mod_gs (set_mPerTaskRateHist (om_set model_name h (mPerTaskRateHist g)));
  lift (max_of h).

(** The maximum, and everything equal to it, leaves every history of two or
    more. *)
Definition without_max (h : list spec_float) : list spec_float :=
  match h with
  | [] | [_] => h
  | x :: l => let max_val := max_element x l in filter (fun y => feqb y max_val = false) h
  end.
Definition removeMaxRates : GM unit :=
  mod_gs (fun g => set_mPerTaskRateHist (map (fun e => (e.1, without_max e.2)) (mPerTaskRateHist g)) g).

(** The monitor thread ([service/monitor_thread.cpp]): its start and one round
    of its loop. *)
Definition RATE_INTERVAL : Z := 500.
Definition initPerModelTrptEWMA (monitor_interval_ms query_interval_ms : Z) : GM unit :=
  g ← gs;
  for_each (mNetNames g) (fun modelname =>
    _ ← mod_monitor (setPerModelFinCnt modelname 0);
    e ← lift (EWMA.make monitor_interval_ms query_interval_ms);
    mod_gs (fun g => set_mPerTaskEWMATrpt (<[modelname := e]> (mPerTaskEWMATrpt g)) g)).
Definition initMonitor_setup : GM unit :=
  m ← monitor;
  g ← gs;
  let query := f2i (getBeaconInterval g) in
  _ ← when (_TRACK_TRPT m) (initPerModelTrptEWMA RATE_INTERVAL query);
  for_each (mNetNames g) (fun name =>
    when (_TRACK_INTERVAL m)
      (_ ← mod_monitor (setPerModelCnt name 0);
       rate ← getTaskTgtRate name;
       initReqRate name RATE_INTERVAL query rate)).
Definition monitor_round : GM unit :=
  g ← gs;
  for_each (mNetNames g) (fun name =>
    m ← monitor;
    _ ← when (_TRACK_INTERVAL m)
          (_ ← updateAvgReqRate name (getPerModelCnt name m); mod_monitor (setPerModelCnt name 0));
    when (_TRACK_TRPT m)
      (let trpt := fdiv (i2f (getPerModelFinCnt name m)) (fdiv (i2f RATE_INTERVAL) (i2f 1000)) in
       _ ← addTrpt name trpt; mod_monitor (setPerModelFinCnt name 0))).

(** ** Latency windows of a proxy *)
Definition MA_WINDOW : Z := 10.
Definition window (modelname : string) (x : ProxyInfo) : outcome (list spec_float) :=
  deref (PerTaskLatencyVec x !! modelname).
Definition getTailLatency (modelname : string) (x : ProxyInfo) : outcome spec_float :=
  w ← window modelname x;
  if decide (w = []) then mret fzero
  else mret (foldl (fun tail l => if ltb tail l then l else tail) fzero w).
Definition getAvgLatency (modelname : string) (x : ProxyInfo) : outcome spec_float :=
  w ← window modelname x;
  if decide (w = []) then mret fzero
  else mret (fdiv (foldl fadd fzero w) (i2f (Z.of_nat (length w)))).
Definition clearPerModelLatency (model : string) (p : ProxyPtr) : M Front unit :=
  x ← rd_proxy p;
  _ ← lift (window model x);
  wr_proxy p (set_PerTaskLatencyVec (<[model := []]> (PerTaskLatencyVec x))).
(** Half of a full window leaves from the front; the first [PerTaskSkipCnt]
    latencies are skipped. *)
Definition addLatency (modelname : string) (latency : spec_float) (p : ProxyPtr) : M Front unit :=
  x ← rd_proxy p;
  w ← lift (window modelname x);
  let w := if (MA_WINDOW <? Z.of_nat (length w))%Z then drop (length w / 2) w else w in
  let skip := default 0%Z (PerTaskSkipCnt x !! modelname) in
  if (skip <=? 0)%Z then
    wr_proxy p (set_PerTaskLatencyVec (<[modelname := w ++ [latency]]> (PerTaskLatencyVec x)))
  else
    wr_proxy p (fun x => set_PerTaskSkipCnt (<[modelname := i32 (skip - 1)]> (PerTaskSkipCnt x))
                           (set_PerTaskLatencyVec (<[modelname := w]> (PerTaskLatencyVec x)) x)).

(** ** Backup of the target rates *)
Definition BackupTgtRates (org backup : list (string * spec_float)) : list (string * spec_float) :=
  foldl (fun b pair_info => om_set pair_info.1 pair_info.2 b) backup org.
Definition RecoverTgtRates (org backup : list (string * spec_float)) : list (string * spec_float) :=
  foldl (fun o pair_info => om_set pair_info.1 pair_info.2 o) org backup.
(** The loop that resets the rates works on a copy of every entry. *)
Definition RevertTgtRates (backup : SimState) : GM unit :=
  for_each (vGPUList backup) (fun gp =>
    g ← on_sched (rd_gpu gp);
    for_each (g_vNodeList g) (fun np =>
      n ← on_sched (rd_node np);
      for_each (n_vTaskList n) (fun tp =>
        t ← on_sched (rd_task tp);
        name ← on_sched (SchedBase.getModelName (t_id t));
        rate ← getTaskTgtRate name;
        set_tgt name (fadd rate (t_throughput t))))).

(** ** Tasks to schedule *)
Definition gs_task (i : Indet) (id : Z) (rate : spec_float) (slo : Z) : Task :=
  set_t_throughput fzero (set_t_batch_size 0 (set_t_SLO slo (set_t_request_rate (f2i rate)
    (set_t_id id (raw_task i))))).
Definition make_task (model_name : string) : GM Task :=
  id ← on_sched (SchedBase.getModelID model_name);
  rate ← getTaskTgtRate model_name;
  g ← gs;
  i ← gets (fun s => w_indet (sv_world s));
  mret (gs_task i id rate (getSLO model_name g)).
Definition make_tasks (names : list string) (output_vec : list Task) : GM (list Task) :=
  for_acc names output_vec (fun v name => t ← make_task name; mret (v ++ [t])).

Definition setupAllTasks (output_vec : list Task) : GM (list Task) :=
  m ← monitor;
  tasks ← for_acc (_netNames m) [] (fun tasks name =>
    curr_rate ← getTaskArivRate name;
    none ← no_tgt name;
    if feqb curr_rate fzero && none then mret tasks
    else
      tgt ← getTaskTgtRate name;
      mret (if feqb tgt fzero then tasks else tasks ++ [name]));
  make_tasks tasks (if decide (tasks = []) then output_vec else []).

Definition UP_THRESHOLD : spec_float := i2f 5.
Definition UP_THRESHOLD_RATE : spec_float := i2f 10.
Definition DOWN_THRESHOLD : spec_float := i2f 10.
Definition RATE_ROOM : spec_float := d2f (dlit 12 10).
Definition AGGRESIVE_RATE_ROOM : spec_float := d2f (dlit 15 10).

(** The model with a rate, its new target: [tasks] grows once or twice. *)
Definition adjust_target (include_downsize : bool) (name : string) (tgt_rate : spec_float)
    (tasks : list string) : GM (list string) :=
  none ← no_tgt name;
  if (none : bool) then _ ← set_tgt name tgt_rate; mret (tasks ++ [name])
  else
    old ← getTaskTgtRate name;
    let diff_rate := fsub tgt_rate old in
    let diff_pntg := fmul (fdiv diff_rate old) (i2f 100) in
    tasks ← (if gtb diff_pntg UP_THRESHOLD || gtb diff_rate UP_THRESHOLD_RATE
             then _ ← set_tgt name tgt_rate; mret (tasks ++ [name]) else mret tasks);
    if include_downsize && ltb diff_pntg (fneg DOWN_THRESHOLD) then
      _ ← mod_monitor (set_SYS_FLUSH true);
      _ ← set_tgt name tgt_rate; mret (tasks ++ [name])
    else mret tasks.

Definition check_model (include_downsize : bool) (tasks : list string) (name : string) : GM (list string) :=
  curr_rate ← getTaskArivRate name;
  none ← no_tgt name;
  if feqb curr_rate fzero && none then mret tasks
  else
    org_rate ← updateAndReturnMaxHistRate name curr_rate;
    let tgt_rate := if ltb org_rate (i2f 125) then fmul org_rate AGGRESIVE_RATE_ROOM
                    else fmul org_rate RATE_ROOM in
    flush ← (if ltb curr_rate (i2f 1) then tgt ← getTaskTgtRate name; mret (gtb tgt (i2f 1))
             else mret false);
    if (flush : bool) then
      _ ← mod_monitor (set_SYS_FLUSH true); _ ← set_tgt name fzero; mret tasks
    else
      tgt ← getTaskTgtRate name;
      if feqb tgt fzero then mret tasks else adjust_target include_downsize name tgt_rate tasks.

Definition setupTasks (include_downsize : bool) (output_vec : list Task) : GM (list Task) :=
  m ← monitor;
  tasks ← for_acc (_netNames m) [] (check_model include_downsize);
  make_tasks tasks output_vec.

Definition refillTaskList (task_list : list Task) : GM (list Task) :=
  m ← monitor;
  for_acc (_netNames m) task_list (fun task_list name =>
    curr_rate ← getTaskArivRate name;
    if feqb curr_rate fzero then mret task_list
    else
      g ← gs;
      tgt_rate ← lift (max_of (rate_hist name g));
      old ← getTaskTgtRate name;
      _ ← set_tgt name (fmax old tgt_rate);
      t ← make_task name; mret (task_list ++ [t])).

Definition containID (task_vec : list Task) (id_to_find : Z) : bool :=
  existsb (fun t => t_id t =? id_to_find)%Z task_vec.
(** A task that is there already stays as it is: its rate is added to a
    copy. *)
Definition extractTasksFromProxys (proxy_vec : list ProxyInfo) (output : SimState)
    (output_task_vec : list Task) : SM (list Task) :=
  for_acc proxy_vec output_task_vec (fun v x =>
    for_acc (vGPUList output) v (fun v gp =>
      g ← rd_gpu gp;
      for_acc (g_vNodeList g) v (fun v np =>
        n ← rd_node np;
        if negb ((p_dev_id x =? n_id n) && (p_cap x =? n_resource_pntg n)
                 && (p_dedup_num x =? n_dedup_num n))%Z then mret v
        else for_acc (n_vTaskList n) v (fun v tp =>
          t ← rd_task tp;
          i ← gets w_indet;
          mret (if containID v (t_id t) then v
                else v ++ [set_t_SLO (t_SLO t) (set_t_request_rate (t_request_rate t)
                             (set_t_id (t_id t) (raw_task i)))]))))).

(** ** The static scheduler *)
Definition getTasksNeedScheduling (s : SysMonitor) : gmap string bool :=
  foldl (fun m net_name => <[net_name := negb (getLenofReqQueue net_name s =? 0)%nat]> m) ∅ (_netNames s).

(** The proxy has room for the model and requests are waiting for it. *)
Definition assignable (need : gmap string bool) (x : ProxyInfo) (model : string) : bool :=
  let batching := default 0%Z (isTaskBatching x !! model) in
  (i32 (batching + default 0%Z (isTaskExec x !! model)) <? 2)%Z && (batching =? 0)%Z
  && default false (need !! model).
Definition proxy_specs (need : gmap string bool) (j : Z) (p : ProxyPtr) (nets : list (string * Z)) :
    list TaskSpec :=
  map (fun pair => mkTaskSpec j pair.1 pair.2 p)
    (filter (fun pair => default false (need !! pair.1) = true) nets).
Definition static_proxy (need : gmap string bool) (j : Z) (decision : list TaskSpec) (p : ProxyPtr) :
    M Front (list TaskSpec) :=
  x ← rd_proxy p;
  if bool_decide (LoadedModels x = []) || negb (isSchedulable x) then mret decision
  else
    f ← get;
    size ← lift (getSizeofBatchQueueofProxy p (f_sys f));
    if (size =? 0)%nat then
      let nets := getProxyNetList p (f_sys f) in
      mret (if existsb (fun pair => assignable need x pair.1) nets
            then decision ++ proxy_specs need j p nets else decision)
    else mret decision.
Definition staticMPSScheduler : M Front (list TaskSpec) :=
  f ← get;
  let need := getTasksNeedScheduling (f_sys f) in
  for_acc (dev_range (nGPUs (f_sys f))) [] (fun decision j =>
    for_acc (getDevMPSInfo j (f_sys f)) decision (static_proxy need j)).

(** The loop changes a copy of every entry. *)
Definition UpdateBatchSize (model_name : string) (new_batch_size : Z) : M Front unit :=
  f ← get;
  for_each (dev_range (nGPUs (f_sys f))) (fun i =>
    for_each (getDevMPSInfo i (f_sys f)) (fun p =>
      for_each (getProxyNetList p (f_sys f)) (fun task_info =>
        let task_info := if String.eqb task_info.1 model_name then (task_info.1, new_batch_size)
                         else task_info in
        mret tt))).
