(* ===== verification/GlobalSched.v ===== *)
(** * The global scheduler, part 2: the control of the proxies
    ([service/global_scheduler_proxy.cpp]) and the schedulers
    ([service/global_scheduler.cpp]).

    [reply], [threads] and [clock] are the parameters of [Control] and the
    clock; [fuel] bounds every polling loop.  The threads that load and unload
    models are recorded when they are started ([start_thread]); what a thread
    does is [run_job]. *)
From Stdlib Require Import ZArith SpecFloat String Lia.
From S2P Require Import Prelude CppFloat CppStd LatencyModel DevPerfModel SchedData SchedUtils SchedBase Json Setup IncrEstimate IncrSchedule LoadBalancer SelfTuning AppModel SysState Control GlobalState.

(** ** Finding a proxy *)
Definition getJobID (model_name : string) (s : SysMonitor) : Z := getIDfromModel model_name s.

Definition getProxyInfo (dev_id cap dedup_num : Z) : M Front ProxyPtr :=
  f ← get;
  _ ← massert (dev_id <? nGPUs (f_sys f))%Z;
  r ← for_ret (getDevMPSInfo dev_id (f_sys f)) (fun p =>
        x ← rd_proxy p;
        mret (if ((p_cap x =? cap) && (p_dedup_num x =? dedup_num))%Z then Some p else None));
  match r with Some p => mret p | None => fail AssertionFailed end.

Definition checkIfLoaded (x : ProxyInfo) (model_name : string) : bool :=
  bool_decide (model_name ∈ LoadedModels x).

Definition push_loaded (model_name : string) (x : ProxyInfo) : ProxyInfo :=
  set_LoadedModels (LoadedModels x ++ [model_name]) x.

(** [LoadedModels.erase(it)] at index [i]. *)
Definition erase_loaded (i : nat) (x : ProxyInfo) : ProxyInfo :=
  set_LoadedModels (take i (LoadedModels x) ++ drop (S i) (LoadedModels x)) x.

Section Proxies.
Context (reply : list (Z * list Z) -> Z) (threads : nat -> Frontend -> Frontend) (fuel : nat).

Definition rd (p : ProxyPtr) : GM ProxyInfo := on_fe (fe_rd p).
Definition wr (p : ProxyPtr) (g : ProxyInfo -> ProxyInfo) : GM unit := on_fe (fe_wr p g).
Definition wait (p : ProxyPtr) (st : proxy_state) : GM unit := on_fe (c_waitProxy reply threads fuel p st).

(** [while(flag) usleep]: the flag of the proxy is cleared by another thread. *)
Fixpoint spin (n : nat) (flag : ProxyInfo -> bool) (p : ProxyPtr) : M Frontend unit :=
  x ← fe_rd p;
  if flag x then
    match n with
    | O => fail OutOfFuel
    | S n' => _ ← fe_sleep threads; spin n' flag p
    end
  else mret tt.

Definition loadModelstoProxy (p : ProxyPtr) : GM unit :=
  m ← monitor;
  for_each (getProxyNetList p m) (fun pair_info =>
    m ← monitor;
    _ ← on_fe (c_makeProxyLoadModel reply p (getJobID pair_info.1 m) pair_info.2);
    wr p (fun x => if checkIfLoaded x pair_info.1 then x else push_loaded pair_info.1 x)).

Definition unloadModelsfromProxy (p : ProxyPtr) : GM unit :=
  x ← rd p;
  _ ← for_each (LoadedModels x) (fun model_name =>
        m ← monitor; on_fe (c_makeProxyUnloadModel reply p (getJobID model_name m)));
  _ ← wait p RUNNING;
  wr p (set_LoadedModels []).

Definition bootProxy_sync (p : ProxyPtr) : GM unit :=
  x ← rd p;
  _ ← massert (negb (isConnected x));
  _ ← on_fe (c_startProxy reply p);
  _ ← wait p RUNNING;
  _ ← wr p (set_isBooted true);
  _ ← on_fe (c_connectProxy reply p);
  wr p (set_isConnected true).

Definition shutdownProxy_sync (p : ProxyPtr) : GM unit :=
  x ← rd p;
  _ ← massert (bool_decide (LoadedModels x = []));
  _ ← massert (isConnected x);
  _ ← massert (isBooted x);
  _ ← wr p (set_isSchedulable false);
  _ ← on_fe (c_endProxy reply p);
  _ ← wait p FLUSHED;
  _ ← on_fe (c_disconnectProxy reply p);
  _ ← wait p COLD;
  _ ← wr p (set_isBooted false);
  wr p (set_isConnected false).

(** With [EPOCH_DEBUG], which the build defines, a thread that finds the proxy
    unloading sleeps once before it polls. *)
Definition load_one (p : ProxyPtr) (id_batch_pair : Z * Z) : GM unit :=
  name ← on_sched (SchedBase.getModelName id_batch_pair.1);
  x ← rd p;
  if checkIfLoaded x name then mret tt
  else
    _ ← on_fe (c_markProxy reply p LOADING);
    _ ← on_fe (c_makeProxyLoadModel reply p id_batch_pair.1 id_batch_pair.2);
    wr p (push_loaded name).
Definition loadModel_sync (p : ProxyPtr) (model_ids_batches : list (Z * Z)) : GM unit :=
  _ ← wr p (set_isLoading true);
  x ← rd p;
  _ ← when (isUnloading x) (on_fe (fe_sleep threads));
  _ ← on_fe (spin fuel isUnloading p);
  state ← on_fe (c_getProxyState reply p);
  g ← gs;
  _ ← when ((state =? state_code COLD)%Z && ALLOW_REPART g) (bootProxy_sync p);
  _ ← for_each model_ids_batches (load_one p);
  _ ← wait p RUNNING;
  wr p (set_isLoading false).

(** The batch queue of the proxy is empty and the model neither batches nor
    executes. *)
Fixpoint wait_cleared (n : nat) (p : ProxyPtr) (model_name : string) : M Frontend unit :=
  x ← fe_rd p;
  s ← get;
  size ← lift (getSizeofBatchQueueofProxy p (f_sys (fe_front s)));
  let cleared := (size =? 0)%nat && (default 0%Z (isTaskBatching x !! model_name) =? 0)%Z
                 && (default 0%Z (isTaskExec x !! model_name) =? 0)%Z in
  if cleared then mret tt
  else match n with
       | O => fail OutOfFuel
       | S n' => _ ← fe_sleep threads; wait_cleared n' p model_name
       end.

Definition unload_step (p : ProxyPtr) (exempting_ids : list Z) (it : nat) : GM (nat + unit) :=
  x ← rd p;
  match LoadedModels x !! it with
  | None => if (it =? length (LoadedModels x))%nat then mret (inr tt) else fail Undefined
  | Some model_name =>
      model_id ← on_sched (SchedBase.getModelID model_name);
      if bool_decide (model_id ∈ exempting_ids) then mret (inl (S it))
      else
        _ ← on_fe (wait_cleared fuel p model_name);
        _ ← on_fe (c_markProxy reply p LOADING);
        _ ← on_fe (c_makeProxyUnloadModel reply p model_id);
        _ ← wr p (erase_loaded it);
        mret (inl it)
  end.
Definition unloadModel_async (p : ProxyPtr) (model_ids_batches : list (Z * Z)) : GM unit :=
  _ ← loop fuel 0%nat (unload_step p (map fst model_ids_batches));
  _ ← wait p RUNNING;
  x ← rd p;
  g ← gs;
  _ ← when (bool_decide (LoadedModels x = []) && ALLOW_REPART g)
        (_ ← shutdownProxy_sync p; _ ← wr p (set_isReserved false); wr p (set_isSchedulable false));
  wr p (set_isUnloading false).

Definition run_job (j : Job) : GM unit :=
  match j with
  | LoadJob p l => loadModel_sync p l
  | UnloadJob p l => unloadModel_async p l
  end.

(** ** Routing *)
(** One proxy: its routes are dropped, loading is waited for. *)
Definition flush_route (p : ProxyPtr) : GM unit :=
  _ ← mod_monitor (fun s => set_PerProxyNetList (<[p := []]> (PerProxyNetList s)) s);
  _ ← on_fe (spin fuel isLoading p);
  wr p (set_isSchedulable false).

(** One node of the schedule: its models become the routes of its proxy. *)
Definition route_task (p : ProxyPtr) (tp : TaskPtr) : GM unit :=
  t ← on_sched (rd_task tp);
  name ← on_sched (SchedBase.getModelName (t_id t));
  mod_monitor (insertNetToProxyNetList p (name, t_batch_size t)).
Definition route_node (np : NodePtr) : GM unit :=
  n ← on_sched (rd_node np);
  p ← on_front_fe (getProxyInfo (n_id n) (n_resource_pntg n) (n_dedup_num n));
  if decide (n_vTaskList n = []) then mret tt
  else
    _ ← for_each (n_vTaskList n) (route_task p);
    _ ← wr p (set_isSchedulable true);
    wr p (set_p_duty_cycle (n_duty_cycle n)).

Definition applyRouting_sync (output : SimState) : GM unit :=
  m ← monitor;
  _ ← for_each (dev_range (nGPUs m)) (fun i =>
        m ← monitor; for_each (getDevMPSInfo i m) flush_route);
  _ ← for_each (vGPUList output) (fun gp =>
        g ← on_sched (rd_gpu gp); for_each (g_vNodeList g) route_node);
  rows ← on_sched (sched_rows output);
  mod_gs (fun g => set_mLoadBalancer (updateTable rows (mLoadBalancer g)) g).

(** ** Loading and unloading along a schedule *)
Definition needToLoad (np : NodePtr) (x : ProxyInfo) : SM bool :=
  n ← rd_node np;
  r ← for_ret (n_vTaskList n) (fun tp =>
        t ← rd_task tp;
        name ← SchedBase.getModelName (t_id t);
        mret (if checkIfLoaded x name then None else Some true));
  mret (default false r).

Definition has_task (n : Node) (model_id : Z) : SM bool :=
  for_acc (n_vTaskList n) false (fun (found : bool) tp =>
    t ← rd_task tp; mret (if (t_id t =? model_id)%Z then true else found)).
Definition needToUnload (np : NodePtr) (x : ProxyInfo) : SM bool :=
  n ← rd_node np;
  _ ← massert ((n_id n =? p_dev_id x) && (n_resource_pntg n =? p_cap x)
               && (n_dedup_num n =? p_dedup_num x))%Z;
  r ← for_ret (LoadedModels x) (fun str_name =>
        model_id ← SchedBase.getModelID str_name;
        found ← has_task n model_id;
        mret (if (found : bool) then None else Some true));
  mret (default false r).

Definition node_ids (n : Node) : SM (list (Z * Z)) :=
  for_acc (n_vTaskList n) [] (fun l tp => t ← rd_task tp; mret (l ++ [(t_id t, 0%Z)])).
Definition node_batches (n : Node) : SM (list (Z * Z)) :=
  for_acc (n_vTaskList n) [] (fun l tp => t ← rd_task tp; mret (l ++ [(t_id t, t_batch_size t)])).

Definition start_unload (p : ProxyPtr) (keep : list (Z * Z)) : GM unit :=
  _ ← wr p (set_isUnloading true); start_thread (UnloadJob p keep).

Definition additionalLoad (gp : GPUPtr) : GM unit :=
  g ← on_sched (rd_gpu gp);
  for_each (g_vNodeList g) (fun np =>
    n ← on_sched (rd_node np);
    if decide (n_vTaskList n = []) then mret tt
    else
      p ← on_front_fe (getProxyInfo (n_id n) (n_resource_pntg n) (n_dedup_num n));
      l ← on_sched (node_batches n);
      start_thread (LoadJob p l)).

(** [unloadModels(prev, curr)]: a node of the previous schedule, looked up on
    the same GPU of the current one. *)
Definition unload_node (curr_state : SimState) (g : GPU) (np : NodePtr) : GM unit :=
  n ← on_sched (rd_node np);
  p ← on_front_fe (getProxyInfo (g_GPUID g) (n_resource_pntg n) (n_dedup_num n));
  x ← rd p;
  if decide (LoadedModels x = []) then mret tt
  else
    nodes2 ← (if (u64 (g_GPUID g) <? Z.of_nat (length (vGPUList curr_state)))%Z then
                gp2 ← lift (at_index (vGPUList curr_state) (g_GPUID g));
                g2 ← on_sched (rd_gpu gp2); mret (g_vNodeList g2)
              else mret []);
    found ← for_acc nodes2 false (fun (found : bool) np2 =>
      n2 ← on_sched (rd_node np2);
      if ((n_resource_pntg n2 =? n_resource_pntg n) && (n_dedup_num n2 =? n_dedup_num n))%Z then
        x ← rd p;
        need ← on_sched (needToUnload np2 x);
        _ ← (if (need : bool) then l ← on_sched (node_ids n2); start_unload p l else mret tt);
        mret true
      else mret found);
    if (found : bool) then mret tt else start_unload p [].
Definition unloadModels (prev_state curr_state : SimState) : GM unit :=
  for_each (vGPUList prev_state) (fun gp =>
    g ← on_sched (rd_gpu gp); for_each (g_vNodeList g) (unload_node curr_state g)).

(** [unloadModels(gpu)]: the proxies of one GPU against its new nodes. *)
Definition unload_proxy (g : GPU) (p : ProxyPtr) : GM unit :=
  x ← rd p;
  if decide (LoadedModels x = []) then mret tt
  else
    r ← for_acc_ret (g_vNodeList g) false (fun (found : bool) np =>
      n ← on_sched (rd_node np);
      if ((n_resource_pntg n =? p_cap x) && (n_dedup_num n =? p_dedup_num x))%Z then
        need ← on_sched (needToUnload np x);
        if (need : bool) then
          l ← on_sched (node_ids n); _ ← start_unload p l; mret (inr tt)
        else mret (inl true)
      else mret (inl found));
    match r with inl false => start_unload p [] | _ => mret tt end.
Definition unloadModels_gpu (gp : GPUPtr) : GM unit :=
  g ← on_sched (rd_gpu gp);
  m ← monitor;
  for_each (getDevMPSInfo (g_GPUID g) m) (unload_proxy g).
Definition applyReorganization (output : SimState) : GM unit :=
  for_each (vGPUList output) (fun gp => _ ← unloadModels_gpu gp; additionalLoad gp).

(** ** Memory and load state of the GPUs *)
Definition loaded_part (x : ProxyInfo) : option MemNode :=
  if isSchedulable x && negb ((length (LoadedModels x) =? 1)%nat && isUnloading x)
  then Some (mkMemNode (p_cap x) (p_dedup_num x)) else None.

Definition update_gpu_parts (gp : GPUPtr) (proxies : list ProxyPtr) : GM unit :=
  _ ← on_sched (wr_gpu gp (set_g_vLoadedParts []));
  for_each proxies (fun p =>
    x ← rd p;
    match loaded_part x with
    | Some part => on_sched (wr_gpu gp (fun g => set_g_vLoadedParts (g_vLoadedParts g ++ [part]) g))
    | None => mret tt
    end).
(** [ONLY_ONCE]: the first proxy of the GPU answers for its memory. *)
Definition used_mem (proxies : list ProxyPtr) (mems : list Z) : GM (list Z) :=
  match proxies with
  | [] => mret mems
  | p :: _ =>
      s ← get;
      total_mem ← on_fe (c_getTotalMem (sv_delegates s) p);
      used ← on_fe (c_getUsedMem reply p);
      mret (mems ++ [Z.min used total_mem])
  end.
Definition updateGPUMemState (input : SimState) (num_of_gpus_to_update : Z) : GM SimState :=
  input ← (if decide (vGPUList input = []) then on_sched (initiateDevs input num_of_gpus_to_update)
           else mret input);
  _ ← massert (u64 num_of_gpus_to_update <=? Z.of_nat (length (vGPUList input)))%Z;
  mems ← for_acc (dev_range num_of_gpus_to_update) [] (fun mems i =>
    gp ← lift (at_index (vGPUList input) i);
    m ← monitor;
    _ ← update_gpu_parts gp (getDevMPSInfo i m);
    used_mem (getDevMPSInfo i m) mems);
  _ ← on_sched (initDevMems input);
  _ ← on_sched (updateDevMemUsage mems input);
  mret input.

Definition updateGPUModelLoadState (input : SimState) : GM unit :=
  m ← monitor;
  _ ← massert (u64 (nGPUs m) =? Z.of_nat (length (vGPUList input)))%Z;
  for_each (dev_range (nGPUs m)) (fun i =>
    for_each (getDevMPSInfo i m) (fun p =>
      x ← rd p;
      for_each (getProxyNetList p m) (fun elem =>
        gp ← lift (at_index (vGPUList input) i);
        g ← on_sched (rd_gpu gp);
        for_each (g_vNodeList g) (fun np =>
          n ← on_sched (rd_node np);
          if ((n_resource_pntg n =? p_cap x) && (n_dedup_num n =? p_dedup_num x))%Z then
            id ← on_sched (SchedBase.getModelID elem.1);
            tp ← on_sched (new_task (mkTask id 0 0 0 0 0 fzero));
            on_sched (wr_node np (fun n => set_n_vTaskList (n_vTaskList n ++ [tp]) n))
          else mret tt)))).

(** [clearAllTasks] *)
Definition clearAllTasks (input : SimState) : SM unit :=
  for_each (vGPUList input) (fun gp =>
    g ← rd_gpu gp;
    for_each (g_vNodeList g) (fun np =>
      wr_node np (fun n => set_n_occupancy fzero (set_n_vTaskList [] (set_n_duty_cycle fzero n))))).

(** ** Scheduling *)
Definition cmp_task_rate_dsc (a b : Task) : bool := (t_request_rate b <? t_request_rate a)%Z.
Definition empty_state (s : SimState) : SimState := mkSimState [] (parts s) (next_dummy_id s).

(** Returns the failure flag, the old schedule and the new one. *)
Definition FullRepartition (input output : SimState) : GM (bool * SimState * SimState) :=
  n ← on_sched getMaxGPUs;
  input ← updateGPUMemState (empty_state input) n;
  session ← setupAllTasks [];
  '(failed, _, input, output) ←
    on_sched (runScheduling (std_sort cmp_task_rate_dsc session) input (empty_state output) true);
  mret (failed, input, output).

(** [doScheduling]: failure flag, session, [prev_output] and [new_output]. *)
Definition doScheduling (session : list Task) (prev_output new_output : SimState) :
    GM (bool * list Task * SimState * SimState) :=
  let new_output := empty_state new_output in
  n ← on_sched getMaxGPUs;
  prev_output ← (if (n =? Z.of_nat (length (vGPUList prev_output)))%Z then mret prev_output
                 else _ ← mod_monitor (set_SYS_FLUSH true); mret (empty_state prev_output));
  prev_output ← updateGPUMemState prev_output n;
  m ← monitor;
  if _SYS_FLUSH m then
    _ ← mod_monitor (set_SYS_FLUSH false);
    '(failed, prev_output, new_output) ← FullRepartition prev_output new_output;
    mret (failed, session, prev_output, new_output)
  else
    '(failed, session, prev_output, new_output) ←
      on_sched (runScheduling session prev_output new_output false);
    if (failed : bool) then
      '(failed, prev_output, new_output) ← FullRepartition prev_output new_output;
      mret (failed, session, prev_output, new_output)
    else mret (EXIT_SUCCESS, session, prev_output, new_output).

Definition checkandReduceGPU (decision : SimState) : SM bool :=
  used_gpus ← getNumofUsedGPUs decision;
  n ← getMaxGPUs;
  if (used_gpus <? n)%Z then _ ← setMaxGPUs used_gpus; mret true else mret false.

Definition recoverFromScheduleFailure (backup_rate : list (string * spec_float)) (backup : SimState) :
    GM unit :=
  _ ← mod_gs (fun g => set_mPerTaskTgtRate (RecoverTgtRates (mPerTaskTgtRate g) backup_rate) g);
  _ ← removeMaxRates;
  mod_gs (fun g => set_mCurrState (recoverScheduler backup (mCurrState g)) g).

(** One round of [while(!success)]: [inr (Some output)] is a schedule,
    [inr None] leaves without one.  With [SCALE], which the build defines, a
    failure asks for one more GPU as long as [getMaxGPUs] is below the number of
    GPUs. *)
Definition scale_round (st : list Task * SimState * SimState) :
    GM ((list Task * SimState * SimState) + option SimState) :=
  let '(session, prev_output, output) := st in
  g ← gs;
  prev_output ← on_sched (copyToOutput (mCurrState g) prev_output);
  '(failed, session, prev_output, output) ← doScheduling session prev_output (empty_state output);
  if (failed : bool) then
    curr_gpus ← on_sched getMaxGPUs;
    m ← monitor;
    if (curr_gpus <? nGPUs m)%Z then
      _ ← mod_monitor (set_SYS_FLUSH true);
      _ ← on_sched (setMaxGPUs (i32 (curr_gpus + 1)));
      mret (inl (session, prev_output, output))
    else mret (inr None)
  else mret (inr (Some output)).

(** What an epoch starts with: the schedule found in the previous one takes
    effect. *)
Definition apply_update : GM unit :=
  g ← gs;
  if mNeedUpdate g then
    _ ← applyRouting_sync (mNextState g);
    prev ← on_sched (copyToOutput (mCurrState g) (mPrevState g));
    _ ← mod_gs (set_mPrevState prev);
    curr ← on_sched (copyToOutput (mNextState g) (mCurrState g));
    _ ← mod_gs (set_mCurrState curr);
    _ ← mod_gs (set_mNeedUpdate false);
    if decide (vGPUList prev = []) then mret tt else unloadModels prev curr
  else mret tt.

(** The reaction to changed rates. *)
Definition reschedule (i : Indet) (backup_tgt_rate : list (string * spec_float)) (session : list Task) :
    GM unit :=
  let fresh := mkSimState [] [] (indet_int i) in
  g ← gs;
  backup ← on_sched (copyToOutput (mCurrState g) fresh);
  r ← loop fuel (session, fresh, fresh) scale_round;
  match r with
  | None => recoverFromScheduleFailure backup_tgt_rate backup
  | Some output =>
      _ ← on_sched (checkandReduceGPU output);
      g ← gs;
      next ← on_sched (copyToOutput output (mNextState g));
      _ ← mod_gs (set_mNextState next);
      _ ← for_each (vGPUList output) additionalLoad;
      mod_gs (set_mNeedUpdate true)
  end.

Context (clock : nat -> Z).

Definition OracleScheduler : GM (list TaskSpec) :=
  g ← gs;
  _ ← (if (last_epoch g =? 0)%Z then t ← getCurNs clock; mod_gs (set_last_epoch t) else mret tt);
  now ← getCurNs clock;
  g ← gs;
  _ ← (if (EPOCH_INTERVAL g <? u64 (now - last_epoch g) / 1000000)%Z then
         _ ← getCurNs clock;
         let backup_tgt_rate := BackupTgtRates (mPerTaskTgtRate g) [] in
         _ ← apply_update;
         _ ← getCurNs clock;
         session ← setupTasks true [];
         i ← gets (fun s => w_indet (sv_world s));
         _ ← (if decide (session = []) then mret tt
              else _ ← reschedule i backup_tgt_rate session; _ ← getCurNs clock; mret tt);
         t ← getCurNs clock;
         mod_gs (set_last_epoch t)
       else mret tt);
  on_front_fe staticMPSScheduler.

Definition executeScheduler : GM (list TaskSpec) :=
  g ← gs;
  match mSchedulerMode g with
  | Some MPS_STATIC => on_front_fe staticMPSScheduler
  | Some ORACLE => OracleScheduler
  | None => mret []
  end.
Definition doMPSScheduling : GM unit :=
  decision ← executeScheduler;
  for_each decision (fun t => on_front_fe (sys (insertToBatchQueueofProxy (tsk_proxy t) t))).

(** ** The initial schedule *)
(** [flushandUpdateDevs(mPrevState, n)], its only call.  The memory sizes it
    collects from the delegates are not used. *)
Definition flushandUpdateDevs (num_of_gpus : Z) : GM unit :=
  _ ← massert (negb (num_of_gpus =? 0)%Z);
  g ← gs;
  prev ← on_sched (initiateDevs (empty_state (mPrevState g)) num_of_gpus);
  _ ← mod_gs (set_mPrevState prev);
  on_sched (initDevMems prev).

(** One round of [while(fail)] with [init_ngpus] GPUs; [inr] leaves. *)
Definition oneshot_round (st : list Task * Z) : GM ((list Task * Z) + bool) :=
  let '(tasks, init_ngpus) := st in
  _ ← on_sched (setMaxGPUs init_ngpus);
  _ ← flushandUpdateDevs init_ngpus;
  g ← gs;
  '(failed, tasks, prev, curr) ← on_sched (runScheduling tasks (mPrevState g) (mCurrState g) true);
  _ ← mod_gs (fun g => set_mCurrState curr (set_mPrevState prev g));
  m ← monitor;
  if (failed : bool) then
    if (init_ngpus =? nGPUs m)%Z then mret (inr EXIT_FAILURE)
    else mret (inl (tasks, i32 (init_ngpus + 1)))
  else mret (inr EXIT_SUCCESS).

Definition boot_node (g : GPU) (np : NodePtr) : GM unit :=
  n ← on_sched (rd_node np);
  p ← on_front_fe (getProxyInfo (g_GPUID g) (n_resource_pntg n) (n_dedup_num n));
  if decide (n_vTaskList n = []) then mret tt
  else
    _ ← bootProxy_sync p;
    l ← on_sched (node_batches n);
    loadModel_sync p l.

Definition oneshotScheduling : GM bool :=
  tasks ← setupAllTasks [];
  m ← monitor;
  _ ← massert (1 <=? nGPUs m)%Z;
  failed ← loop (Z.to_nat (nGPUs m)) (tasks, 1%Z) oneshot_round;
  if (failed : bool) then mret EXIT_FAILURE
  else
    g ← gs;
    _ ← for_each (vGPUList (mCurrState g)) (fun gp =>
          gpu ← on_sched (rd_gpu gp); for_each (g_vNodeList gpu) (boot_node gpu));
    g ← gs;
    _ ← applyRouting_sync (mCurrState g);
    mret EXIT_SUCCESS.

(** [checkLoad] *)
Definition gs_checkLoad (model_id : Z) (p : ProxyPtr) : GM bool :=
  x ← rd p;
  g ← gs;
  let '(ok, lb) := checkLoad model_id (lb_proxy x) (mLoadBalancer g) in
  _ ← mod_gs (set_mLoadBalancer lb);
  mret ok.
End Proxies.
