(* ===== verification/GlobalSetup.v ===== *)
(** * The global scheduler, part 3: start-up ([service/global_scheduler_setup.cpp],
    [common/config.cpp], [service/backend_setup.cpp], the configuration part of
    [service/input.cpp] and of [frontend.cpp]).

    A text file is its list of lines, [None] where it cannot be opened; a JSON
    file is its value, [None] where it cannot be parsed. *)
From Stdlib Require Import ZArith SpecFloat String Lia.
From S2P Require Import Prelude CppFloat CppStd LatencyModel DevPerfModel SchedData SchedUtils SchedBase Json Setup IncrEstimate IncrSchedule LoadBalancer SelfTuning AppModel SysState Control GlobalState GlobalSched.

(** ** Partition files ([ProxyPartitionReader], [ProxyPartitionWriter]) *)
Record task_config : Type := mkConfig {
  cf_node_id : Z; cf_dedup_num : Z; cf_thread_cap : Z; cf_name : string;
  cf_batch_size : Z; cf_duty_cycle : spec_float }.

(** One line: the fields are read in turn; a field that is missing keeps the
    previous token. *)
Definition read_config (line token : string) : outcome (task_config * string) :=
  let rest := Some line in
  let '(token, rest) := getline rest token in
  node_id ← stoi token;
  let '(token, rest) := getline rest token in
  thread_cap ← stoi token;
  let '(token, rest) := getline rest token in
  dedup_num ← stoi token;
  let '(token, rest) := getline rest token in
  let name := token in
  let '(token, rest) := getline rest token in
  batch_size ← stoi token;
  let '(token, rest) := getline rest token in
  duty_cycle ← stof token;
  mret (mkConfig node_id dedup_num thread_cap name batch_size duty_cycle, token).

Fixpoint read_configs (lines : list string) (token : string) : outcome (list task_config) :=
  match lines with
  | [] => mret []
  | line :: lines' =>
      '(c, token) ← read_config line token;
      cs ← read_configs lines' token;
      mret (c :: cs)
  end.
(** The constructor; [lines] is empty for a file that cannot be opened. *)
Definition ProxyPartitionReader (filename : string) (nGPU : Z) (lines : list string) :
    outcome (list task_config) :=
  if String.eqb filename "" || negb (0 <? nGPU)%Z then Stop AssertionFailed
  else read_configs lines "".
Definition getTaskConfig (devid dedup_num thread_cap num_of_GPU : Z) (configs : list task_config) :
    outcome (list task_config) :=
  if negb ((0 <=? devid) && (devid <? num_of_GPU))%Z
     || negb ((dedup_num =? 0) || (dedup_num =? 1))%Z
     || negb ((0 <? thread_cap) && (thread_cap <=? 100))%Z
  then Stop AssertionFailed
  else mret (filter (fun c => cf_node_id c = devid /\ cf_thread_cap c = thread_cap /\
                              cf_dedup_num c = dedup_num) configs).

(** [addResults] returns true when something is wrong. *)
Definition addResults (num_of_GPU : Z) (c : task_config) (configs : list task_config) :
    bool * list task_config :=
  if negb ((0 <=? cf_node_id c) && (cf_node_id c <? num_of_GPU))%Z then (true, configs)
  else if negb ((0 <? cf_thread_cap c) && (cf_thread_cap c <=? 100))%Z then (true, configs)
  else if (cf_batch_size c =? 0)%Z then (true, configs)
  else if ltb (cf_duty_cycle c) fzero then (true, configs)
  else (false, configs ++ [c]).

(** ** Lists of models, partitions and tasks *)
Definition scheduling_mode (mode : string) : option scheduler :=
  if String.eqb mode "mps_static" then Some MPS_STATIC
  else if String.eqb mode "oracle" then Some ORACLE else None.
Definition setSchedulingMode (mode : string) : GM bool :=
  match scheduling_mode mode with
  | None => mret EXIT_FAILURE
  | Some md =>
      _ ← mod_gs (set_mSchedulerMode (Some md));
      _ ← when (bool_decide (md = ORACLE)) (mod_gs (set_ALLOW_REPART true));
      mret EXIT_SUCCESS
  end.
Definition setLoadBalancingMode (mode : string) : GM unit :=
  g ← gs; lb ← lift (setType mode (mLoadBalancer g)); mod_gs (set_mLoadBalancer lb).

Definition dedup_names (names : list string) : list string :=
  foldl (fun models name => if decide (name ∈ models) then models else models ++ [name]) [] names.
Definition getListofTasks : GM (list Task) :=
  g ← gs;
  i ← gets (fun s => w_indet (sv_world s));
  for_acc (dedup_names (mNetNames g)) [] (fun ret_task name =>
    id ← on_sched (SchedBase.getModelID name);
    mret (ret_task ++ [set_t_request_rate 0 (set_t_SLO (getSLO name g) (set_t_id id (raw_task i)))])).

Definition getListofParts : M Front (list Z) :=
  f ← get;
  ret_vec ← for_acc (all_proxies (f_sys f)) [] (fun v p =>
    x ← rd_proxy p;
    mret (if (p_cap x =? 0)%Z then v else if decide (p_cap x ∈ v) then v else v ++ [p_cap x]));
  _ ← massert (negb (bool_decide (ret_vec = [])));
  mret ret_vec.
Definition getParts : M Front (list (list Z)) :=
  f ← get;
  ret_vec ← for_acc (dev_range (nGPUs (f_sys f))) [] (fun v i =>
    tmp ← for_acc (getDevMPSInfo i (f_sys f)) [] (fun tmp p =>
      x ← rd_proxy p; mret (if (p_cap x =? 0)%Z then tmp else tmp ++ [p_cap x]));
    mret (v ++ [tmp]));
  _ ← massert (negb (bool_decide (ret_vec = [])));
  _ ← massert (forallb (fun v => negb (bool_decide (v = []))) ret_vec);
  mret ret_vec.

(** ** Creating proxies *)
Definition createNewProxy (i : Indet) (dev_id cap dedup_num part_index : Z) (type : string) : ProxyInfo :=
  set_p_dev_id dev_id (set_p_cap cap (set_p_dedup_num dedup_num (set_p_duty_cycle fzero
    (set_partition_num part_index (set_isBooted false (set_isConnected false (set_isSetup false
      (set_p_type type (new_proxy_info i))))))))).

(** One proxy more on device [devindex], number [idx]. *)
Definition add_proxy (i : Indet) (node_id devindex part dedup_num idx : Z) (type : string) : M Front Z :=
  p ← new_proxy (set_p_node_id node_id (createNewProxy i devindex part dedup_num idx type));
  _ ← mod_sys (insertMPSInfoToDev devindex p);
  mret (i32 (idx + 1)).
(** A partition of 50 gets two proxies. *)
Definition add_part_proxies (i : Indet) (node_id devindex : Z) (type : string) (idx part : Z) : M Front Z :=
  idx ← add_proxy i node_id devindex part 0 idx type;
  if (part =? 50)%Z then add_proxy i node_id devindex part 1 idx type else mret idx.
Definition createProxyInfos (i : Indet) (parts : list Z) (node_id ngpus : Z) (type : string) : M Front unit :=
  f ← get;
  let n := nGPUs (f_sys f) in
  _ ← for_each (map (fun k => (n + Z.of_nat k)%Z) (seq 0 (Z.to_nat ngpus))) (fun devindex =>
        _ ← for_acc parts 0%Z (add_part_proxies i node_id devindex type); mret tt);
  sys (setNGPUs (i32 (n + ngpus))).

(** [configureProxys] and its loop over the backends ([frontend.cpp]). *)
Definition configureProxys (i : Indet) (d : BackendDelegate) (node_id : Z) : M Front bool :=
  _ ← createProxyInfos i (bd_sizes d) node_id (bd_nGPUs d) (bd_type d); mret EXIT_SUCCESS.
Definition configure_all (i : Indet) (delegates : list (Z * BackendDelegate)) : M Front unit :=
  _ ← sys (setNGPUs 0);
  for_each delegates (fun pair => _ ← configureProxys i pair.2 pair.1; mret tt).

Definition INIT_SKIP_CNT : Z := 100.
(** Fresh windows for every known model. *)
Definition fresh_windows (names : list string) (x : ProxyInfo) : ProxyInfo :=
  set_PerTaskSkipCnt (foldl (fun m n => <[n := INIT_SKIP_CNT]> m) ∅ names)
    (set_PerTaskLatencyVec (foldl (fun m n => <[n := []]> m) ∅ names) x).
Definition setupPerModelLatencyVec : GM unit :=
  g ← gs;
  m ← monitor;
  for_each (all_proxies m) (fun p => on_front_fe (wr_proxy p (fresh_windows (mNetNames g)))).

(** ** Files *)
(** The rates at the start: [num] entries "id,rate,SLO,". *)
Fixpoint read_rates (n : nat) (rest : option string) (buf : string) : GM unit :=
  match n with
  | O => mret tt
  | S n' =>
      let '(buf, rest) := getline rest buf in
      id ← lift (stoi buf);
      let '(buf, rest) := getline rest buf in
      request_rate ← lift (stoi buf);
      let '(buf, rest) := getline rest buf in
      _ ← lift (stoi buf);
      name ← on_sched (SchedBase.getModelName id);
      _ ← set_tgt name (i2f request_rate);
      read_rates n' rest buf
  end.
Definition setupInitTgtRate (text : option string) : GM unit :=
  match text with
  | None => fail (Exited 1)
  | Some s =>
      let '(str_buf, rest) := span_delim NEWLINE s in
      num_of_rates ← lift (stoi str_buf);
      read_rates (Z.to_nat num_of_rates) rest str_buf
  end.
Definition setupLatencyModel (lines : list string) : GM unit :=
  zoom (fun s => mLatencyModel (sv_gs s)) (fun t s => set_sv_gs (set_mLatencyModel t (sv_gs s)) s)
    (setupTable lines).

(** Every line names an existing proxy ([getProxyInfo] asserts it), so the
    search that follows finds it and no proxy is created; the branch that would
    create one reads an uninitialised pointer. *)
Definition setupMPSInfo (lines : list string) : GM unit :=
  _ ← for_acc lines ""%string (fun token line =>
    let '(token, rest) := getline (Some line) token in
    devindex ← lift (stoi token);
    let '(token, rest) := getline rest token in
    cap ← lift (stoi token);
    let '(token, rest) := getline rest token in
    dedup_num ← lift (stoi token);
    let '(token, rest) := getline rest token in
    _ ← on_front_fe (getProxyInfo devindex cap dedup_num);
    m ← monitor;
    found ← for_ret (getDevMPSInfo devindex m) (fun p =>
      x ← on_front_fe (rd_proxy p);
      mret (if ((p_cap x =? cap) && (p_dedup_num x =? dedup_num))%Z then Some true else None));
    if (default false found : bool) then mret token else fail Undefined);
  mret tt.

Definition setupModel (models : Value) (i : nat) : GM unit :=
  model ← lift (element models i);
  name ← lift (v ← member model "model"; asString v);
  _ ← mod_gs (addtoNetNames name);
  has ← lift (isMember model "max_batch");
  max_batch ← (if (has : bool) then lift (v ← member model "max_batch"; asInt v) else mret 32%Z);
  _ ← mod_gs (setMaxBatch name "gpu" max_batch);
  has ← lift (isMember model "SLO");
  when has (slo ← lift (v ← member model "SLO"; asInt v); mod_gs (setupModelSLO name slo)).
(** The outer [option]: the file does not open. *)
Definition setupModelforSchduling (config : option (option Value)) : GM bool :=
  match config with
  | None => fail (Exited 1)
  | Some None => mret EXIT_FAILURE
  | Some (Some root) =>
      models ← lift (member root "Models");
      _ ← for_each (seq 0 (size models)) (setupModel models);
      mret EXIT_SUCCESS
  end.
Definition setupModelwithJSON (config : option (option Value))
    (files : string -> option (option Value)) (res_dir : string) : GM bool :=
  match config with
  | None => fail (Exited 1)
  | Some None => mret EXIT_FAILURE
  | Some (Some root) =>
      apps ← lift (member root "App_specs");
      _ ← for_each (seq 0 (size apps)) (fun i =>
            app ← lift (element apps i);
            file ← lift (v ← member app "file"; asString v);
            _ ← setupModelforSchduling (files (res_dir +:+ "/" +:+ file)%string); mret tt);
      mret EXIT_SUCCESS
  end.

(** [readInputDimsJsonFile]: identifiers of the models and their dimensions. *)
Definition readInputDims (config : option Value) : M (SysMonitor * gmap Z (list Z)) bool :=
  match config with
  | None => mret EXIT_FAILURE
  | Some root =>
      models ← lift (member root "Models");
      _ ← for_each (seq 0 (size models)) (fun i =>
            model ← lift (element models i);
            name ← lift (v ← member model "name"; asString v);
            id ← lift (v ← member model "proxy_id"; asInt v);
            _ ← modify (fun s => (setIDforModel name id s.1, s.2));
            dims ← lift (v ← member model "input_dim"; int_elements v);
            modify (fun s => (s.1, if decide (dims = []) then s.2 else
              <[id := default [] (s.2 !! id) ++ map u64 dims]> s.2)));
      mret EXIT_SUCCESS
  end.

(** [connectBackendList]: a node that cannot be reached is left out;
    [connect] tells whether the control address answers, [ngpus] what the
    backend says about its GPUs. *)
Definition read_node (nodes : Value) (connect : string -> bool) (ngpus : Z -> Z) (node_id : nat) :
    outcome (option (Z * BackendDelegate)) :=
  node ← element nodes node_id;
  control_addr ← (v ← member node "control_addr"; asString v);
  data_addr ← (v ← member node "data_addr"; asString v);
  sizes ← (v ← member node "sizes"; int_elements v);
  gpu_name ← (v ← member node "gpu_name"; asString v);
  mem ← (v ← member node "gpu_mem_size_mb"; asInt v);
  type ← (v ← member node "type"; asString v);
  mret (if connect control_addr
        then Some (Z.of_nat node_id, mkDelegate (ngpus (Z.of_nat node_id)) mem type sizes)
        else None).
Definition connectBackendList (config : option Value) (connect : string -> bool) (ngpus : Z -> Z) :
    M (list (Z * BackendDelegate)) bool :=
  match config with
  | None => mret EXIT_FAILURE
  | Some root =>
      nodes ← lift (member root "nodes");
      _ ← for_each (seq 0 (size nodes)) (fun i =>
            r ← lift (read_node nodes connect ngpus i);
            match r with
            | Some (id, d) => modify (om_set id d)
            | None => mret tt
            end);
      mret EXIT_SUCCESS
  end.
Definition setupBackendProxyCtrls : GM unit :=
  s ← get;
  for_each (sv_delegates s) (fun pair =>
    _ ← on_fe (zoom fe_ctrl set_fe_ctrl (addBackendDelegate pair.1 pair.2)); mret tt).

Section Boot.
Context (reply : list (Z * list Z) -> Z) (threads : nat -> Frontend -> Frontend) (fuel : nat).

(** ** The routes of the static mode *)
(** [addr] gives the order of the map keyed by proxy pointers. *)
Context (addr : ProxyPtr -> Z).
Definition by_address (m : list (ProxyPtr * list (Z * spec_float))) : list (ProxyPtr * list (Z * spec_float)) :=
  std_sort (fun a b => addr a.1 <? addr b.1)%Z m.
Definition push_trp (p : ProxyPtr) (t : Z * spec_float) (m : list (ProxyPtr * list (Z * spec_float))) :
    list (ProxyPtr * list (Z * spec_float)) :=
  match list_find (fun e => e.1 = p) m with
  | Some (i, (_, l)) => <[i := (p, l ++ [t])]> m
  | None => m ++ [(p, [t])]
  end.

Definition setupLoadBalancer (mapping_trps : list (ProxyPtr * list (Z * spec_float))) : GM unit :=
  rows ← for_acc (by_address mapping_trps) [] (fun acc e =>
    x ← on_front_fe (rd_proxy e.1); mret (acc ++ [(lb_proxy x, e.2)]));
  mod_gs (fun g => set_mLoadBalancer (updateTable_proxies rows (mLoadBalancer g)) g).

(** One entry of the partition file.  The larger of duty cycle and estimated
    latency is computed and not used. *)
Definition route_config (mapping_trps : list (ProxyPtr * list (Z * spec_float))) (c : task_config) :
    GM (list (ProxyPtr * list (Z * spec_float))) :=
  p ← on_front_fe (getProxyInfo (cf_node_id c) (cf_thread_cap c) (cf_dedup_num c));
  if String.eqb (cf_name c) "reserved" then
    _ ← on_front_fe (wr_proxy p (set_isReserved true)); mret mapping_trps
  else
    _ ← on_front_fe (wr_proxy p (set_isSchedulable true));
    _ ← mod_monitor (insertNetToProxyNetList p (cf_name c, cf_batch_size c));
    _ ← on_front_fe (wr_proxy p (set_p_duty_cycle (cf_duty_cycle c)));
    x ← on_front_fe (rd_proxy p);
    _ ← on_sched (getEstLatency (cf_name c) (cf_batch_size c) (cf_thread_cap c) (p_type x));
    let trpt := f2d (fmul (i2f (cf_batch_size c)) (fdiv (i2f 1000) (cf_duty_cycle c))) in
    id ← on_sched (SchedBase.getModelID (cf_name c));
    mret (push_trp p (id, trpt) mapping_trps).
Definition setupProxyTaskList (specfile : string) (lines : list string) : GM unit :=
  m ← monitor;
  configs ← lift (ProxyPartitionReader specfile (nGPUs m) lines);
  mapping_trps ← for_acc configs [] route_config;
  setupLoadBalancer mapping_trps.

Definition loadAllProxys : GM unit :=
  m ← monitor;
  _ ← for_each (all_proxies m) (loadModelstoProxy reply);
  for_each (all_proxies m) (fun p =>
    m ← monitor;
    when (negb (isProxyNetListEmpty p m)) (on_fe (c_waitProxy reply threads fuel p RUNNING))).

(** The final loop only prints what each backend answers. *)
Definition readAndBoot (model_list_file : string) (lines : list string) : GM unit :=
  _ ← setupProxyTaskList model_list_file lines;
  m ← monitor;
  _ ← for_each (all_proxies m) (fun p =>
        m ← monitor; when (negb (isProxyNetListEmpty p m)) (bootProxy_sync reply threads fuel p));
  _ ← loadAllProxys;
  for_each (all_proxies m) (fun p =>
    m ← monitor;
    when (negb (isProxyNetListEmpty p m)) (_ ← on_fe (c_getUsedMem reply p); mret tt)).
End Boot.

(** ** The scheduler objects *)
Record SchedFiles : Type := mkFiles {
  sim_config : option Value; mem_config : option Value; device_config : option Value;
  text_files : string -> list string; batch_files : string -> option string;
  res_dir : string; model_list : list string }.

Definition BATCH_FILES : list string := ["1_28_28.txt"; "3_224_224.txt"; "3_300_300.txt"]%string.

Definition setupSBPScheduler (fs : SchedFiles) : GM unit :=
  _ ← setupPerModelLatencyVec;
  success ← on_sched (initializeScheduler (sim_config fs) (mem_config fs) (device_config fs)
                        (text_files fs) (batch_files fs) (res_dir fs) BATCH_FILES);
  if negb (success : bool) then fail (Exited 1)
  else
    m ← monitor;
    _ ← on_sched (setMaxGPUs (nGPUs m));
    list_of_tasks ← getListofTasks;
    for_each list_of_tasks (fun task => on_sched (initSaturateTrp task)).

(** The check for [ChECK_NETBW] (the build defines [CHECK_NETBW]) leaves the
    network checker alone. *)
Definition setupScheduler (scheduler : string) (fs : SchedFiles) : GM unit :=
  failed ← setSchedulingMode scheduler;
  if (failed : bool) then fail (Exited 1)
  else
    g ← gs;
    match mSchedulerMode g with
    | Some MPS_STATIC => _ ← setupSBPScheduler fs; setupMPSInfo (model_list fs)
    | Some ORACLE =>
        _ ← setupSBPScheduler fs;
        mod_gs (fun g => set_HIST_LEN (fdiv (i2f 30) (d2f (ddiv (i2d 20000) (i2d 1000))))
                  (set_BEACON_INTERVAL 20000 (set_EPOCH_INTERVAL 20000 g)))
    | None => mret tt
    end.

(** [initPerModelPartSum]: the partitions of every model of the current
    schedule, added up. *)
Definition initPerModelPartSum (sum_of_parts : gmap Z Z) : GM (gmap Z Z) :=
  g ← gs;
  on_sched (for_acc (vGPUList (mCurrState g)) sum_of_parts (fun sums gp =>
    gpu ← rd_gpu gp;
    for_acc (g_vNodeList gpu) sums (fun sums np =>
      n ← rd_node np;
      for_acc (n_vTaskList n) sums (fun (sums : gmap Z Z) tp =>
        t ← rd_task tp;
        mret (match sums !! t_id t with
              | None => <[t_id t := n_resource_pntg n]> sums
              | Some s => <[t_id t := i32 (s + n_resource_pntg n)]> sums
              end))))).
