(* ===== verification/Pipeline.v ===== *)
(** * The way of a request through the frontend ([service/request_thread.cpp],
    [service/server_thread.cpp], [service/app_thread.cpp],
    [service/proxy_thread.cpp], [service/drop_thread.cpp], and [allocateOutput]
    and [setOutputTensor] of [service/batched_request.cpp], [service/request.cpp]).

    Applications, requests and batches are shared, so they live in stores and a
    [shared_ptr] is an index.  Every thread is a loop; its definition here is one
    iteration, or one part of it between two waits, and runs without the other
    threads in between: what the others do is the order of the steps. *)
From Stdlib Require Import ZArith SpecFloat String Lia.
From S2P Require Import Prelude CppFloat CppStd LatencyModel DevPerfModel SchedData SchedUtils SchedBase Json LoadBalancer SelfTuning AppModel SysState Control GlobalState GlobalSched.

Abbreviation AppPtr := nat (only parsing).
Abbreviation ReqPtr := nat (only parsing).
Abbreviation BatchPtr := nat (only parsing).

(** Models with a queue mutex ([ReqMtxVec]); application queues
    ([PerAppQueue]); output queues of the proxies ([PerProxyOutputQueue]); the
    counters [ReqID], [batchTaskID] and [ready]; what was sent to the backends
    (proxy, batch, model, tensor), to the clients (socket, task), and logged. *)
Record Service (Tensor : Type) : Type := mkService {
  se_server : Server;
  se_apps : list (AppInstance Tensor);
  se_reqs : list (request Tensor);
  se_batches : list (batched_request Tensor);
  ReqMtxVec : gset string;
  PerAppQueue : gmap string (list AppPtr);
  PerProxyOutputQueue : gmap ProxyPtr (list BatchPtr);
  ReqID : Z;
  batchTaskID : Z;
  se_ready : Z;
  se_sent : list (ProxyPtr * Z * Z * Tensor);
  se_replies : list (Z * Z);
  se_log : list log_line }.
#[global] Arguments mkService {Tensor}.
#[global] Arguments se_server {Tensor}.
#[global] Arguments se_apps {Tensor}.
#[global] Arguments se_reqs {Tensor}.
#[global] Arguments se_batches {Tensor}.
#[global] Arguments ReqMtxVec {Tensor}.
#[global] Arguments PerAppQueue {Tensor}.
#[global] Arguments PerProxyOutputQueue {Tensor}.
#[global] Arguments ReqID {Tensor}.
#[global] Arguments batchTaskID {Tensor}.
#[global] Arguments se_ready {Tensor}.
#[global] Arguments se_sent {Tensor}.
#[global] Arguments se_replies {Tensor}.
#[global] Arguments se_log {Tensor}.

Section Pipeline.
Context {Tensor : Type} `{!Torch Tensor}.
Local Abbreviation App := (AppInstance Tensor).
Local Abbreviation Req := (request Tensor).
Local Abbreviation Batch := (batched_request Tensor).
Local Abbreviation PM := (M (Service Tensor)).

Definition set_se_server (x : Server) (s : Service Tensor) : Service Tensor :=
  mkService x (se_apps s) (se_reqs s) (se_batches s) (ReqMtxVec s) (PerAppQueue s)
    (PerProxyOutputQueue s) (ReqID s) (batchTaskID s) (se_ready s) (se_sent s) (se_replies s)
    (se_log s).
Definition set_se_apps (x : list App) (s : Service Tensor) : Service Tensor :=
  mkService (se_server s) x (se_reqs s) (se_batches s) (ReqMtxVec s) (PerAppQueue s)
    (PerProxyOutputQueue s) (ReqID s) (batchTaskID s) (se_ready s) (se_sent s) (se_replies s)
    (se_log s).
Definition set_se_reqs (x : list Req) (s : Service Tensor) : Service Tensor :=
  mkService (se_server s) (se_apps s) x (se_batches s) (ReqMtxVec s) (PerAppQueue s)
    (PerProxyOutputQueue s) (ReqID s) (batchTaskID s) (se_ready s) (se_sent s) (se_replies s)
    (se_log s).
Definition set_se_batches (x : list Batch) (s : Service Tensor) : Service Tensor :=
  mkService (se_server s) (se_apps s) (se_reqs s) x (ReqMtxVec s) (PerAppQueue s)
    (PerProxyOutputQueue s) (ReqID s) (batchTaskID s) (se_ready s) (se_sent s) (se_replies s)
    (se_log s).
Definition set_ReqMtxVec (x : gset string) (s : Service Tensor) : Service Tensor :=
  mkService (se_server s) (se_apps s) (se_reqs s) (se_batches s) x (PerAppQueue s)
    (PerProxyOutputQueue s) (ReqID s) (batchTaskID s) (se_ready s) (se_sent s) (se_replies s)
    (se_log s).
Definition set_PerAppQueue (x : gmap string (list AppPtr)) (s : Service Tensor) : Service Tensor :=
  mkService (se_server s) (se_apps s) (se_reqs s) (se_batches s) (ReqMtxVec s) x
    (PerProxyOutputQueue s) (ReqID s) (batchTaskID s) (se_ready s) (se_sent s) (se_replies s)
    (se_log s).
Definition set_PerProxyOutputQueue (x : gmap ProxyPtr (list BatchPtr)) (s : Service Tensor) : Service Tensor :=
  mkService (se_server s) (se_apps s) (se_reqs s) (se_batches s) (ReqMtxVec s) (PerAppQueue s) x
    (ReqID s) (batchTaskID s) (se_ready s) (se_sent s) (se_replies s) (se_log s).
Definition set_ReqID (x : Z) (s : Service Tensor) : Service Tensor :=
  mkService (se_server s) (se_apps s) (se_reqs s) (se_batches s) (ReqMtxVec s) (PerAppQueue s)
    (PerProxyOutputQueue s) x (batchTaskID s) (se_ready s) (se_sent s) (se_replies s) (se_log s).
Definition set_batchTaskID (x : Z) (s : Service Tensor) : Service Tensor :=
  mkService (se_server s) (se_apps s) (se_reqs s) (se_batches s) (ReqMtxVec s) (PerAppQueue s)
    (PerProxyOutputQueue s) (ReqID s) x (se_ready s) (se_sent s) (se_replies s) (se_log s).
Definition set_se_ready (x : Z) (s : Service Tensor) : Service Tensor :=
  mkService (se_server s) (se_apps s) (se_reqs s) (se_batches s) (ReqMtxVec s) (PerAppQueue s)
    (PerProxyOutputQueue s) (ReqID s) (batchTaskID s) x (se_sent s) (se_replies s) (se_log s).
Definition set_se_sent (x : list (ProxyPtr * Z * Z * Tensor)) (s : Service Tensor) : Service Tensor :=
  mkService (se_server s) (se_apps s) (se_reqs s) (se_batches s) (ReqMtxVec s) (PerAppQueue s)
    (PerProxyOutputQueue s) (ReqID s) (batchTaskID s) (se_ready s) x (se_replies s) (se_log s).
Definition set_se_replies (x : list (Z * Z)) (s : Service Tensor) : Service Tensor :=
  mkService (se_server s) (se_apps s) (se_reqs s) (se_batches s) (ReqMtxVec s) (PerAppQueue s)
    (PerProxyOutputQueue s) (ReqID s) (batchTaskID s) (se_ready s) (se_sent s) x (se_log s).
Definition set_se_log (x : list log_line) (s : Service Tensor) : Service Tensor :=
  mkService (se_server s) (se_apps s) (se_reqs s) (se_batches s) (ReqMtxVec s) (PerAppQueue s)
    (PerProxyOutputQueue s) (ReqID s) (batchTaskID s) (se_ready s) (se_sent s) (se_replies s) x.

Definition on_server {A} (m : GM A) : PM A := zoom se_server set_se_server m.
Definition p_monitor : PM SysMonitor := on_server monitor.
Definition p_mod_monitor (f : SysMonitor -> SysMonitor) : PM unit := on_server (mod_monitor f).

Definition rd_app (a : AppPtr) : PM App := s ← get; lift (deref (se_apps s !! a)).
Definition wr_app (a : AppPtr) (f : App -> App) : PM unit :=
  s ← get; x ← lift (deref (se_apps s !! a)); put (set_se_apps (<[a := f x]> (se_apps s)) s).
Definition new_app (x : App) : PM AppPtr :=
  s ← get; _ ← put (set_se_apps (se_apps s ++ [x]) s); mret (length (se_apps s)).
Definition rd_req (r : ReqPtr) : PM Req := s ← get; lift (deref (se_reqs s !! r)).
Definition wr_req (r : ReqPtr) (f : Req -> Req) : PM unit :=
  s ← get; x ← lift (deref (se_reqs s !! r)); put (set_se_reqs (<[r := f x]> (se_reqs s)) s).
Definition new_req (x : Req) : PM ReqPtr :=
  s ← get; _ ← put (set_se_reqs (se_reqs s ++ [x]) s); mret (length (se_reqs s)).
Definition rd_batch (b : BatchPtr) : PM Batch := s ← get; lift (deref (se_batches s !! b)).
Definition wr_batch (b : BatchPtr) (x : Batch) : PM unit :=
  s ← get; _ ← lift (deref (se_batches s !! b)); put (set_se_batches (<[b := x]> (se_batches s)) s).
Definition new_batch (x : Batch) : PM BatchPtr :=
  s ← get; _ ← put (set_se_batches (se_batches s ++ [x]) s); mret (length (se_batches s)).
Definition indet : PM Indet := gets (fun s => w_indet (sv_world (se_server s))).

Context (clock : nat -> Z).
Definition now : PM Z := on_server (getCurNs clock).
Definition stamp (r : ReqPtr) (s : Stamp) : PM unit := t ← now; wr_req r (set_time s t).

(** The application of a request; a request always has one when it is queued. *)
Definition app_of (r : ReqPtr) : PM AppPtr := x ← rd_req r; lift (deref (_task x)).
Definition app_spec (a : AppPtr) : PM AppSpec :=
  x ← rd_app a; m ← p_monitor; lift (deref (AppSpecVec m !! _pAppSpec x)).

(** ** Queues *)
Definition enqueue_completed (r : ReqPtr) : PM unit := p_mod_monitor (fun s => set_cmpQ (cmpQ s ++ [r]) s).

(** [ReqListHashTable[StrName].push] under the mutex of the model, which has to
    exist. *)
Definition has_mutex (name : string) : PM unit :=
  s ← get; if decide (name ∈ ReqMtxVec s) then mret tt else fail Undefined.
Definition push_request (name : string) (r : ReqPtr) : PM unit :=
  _ ← has_mutex name;
  p_mod_monitor (fun s => set_request_queue name (getRequestQueueofNet name s ++ [r]) s).

Definition addtoModelQueue (StrName : string) (input : Tensor) (cgid : Z) (task : AppPtr) : PM unit :=
  app ← rd_app task;
  m ← p_monitor;
  _ ← when (negb (_dropped app) && _TRACK_INTERVAL m) (p_mod_monitor (incPerModelCnt StrName));
  s ← get;
  let id := u32 (ReqID s + 1) in
  _ ← put (set_ReqID id s);
  i ← indet;
  r ← new_req (new_request (i32 id) 0 1 i);
  _ ← stamp r Start;
  _ ← wr_req r (fun x => pushInputData input (setCGID cgid (setupAppInstance task
                           (set_mTaskID (ai_taskID app) x))));
  x ← rd_req r;
  x ← lift (setReqName StrName x);
  _ ← wr_req r (fun _ => x);
  _ ← push_request StrName r;
  modify (fun s => set_se_ready (i32 (se_ready s + 1)) s).

Definition addtoAppQueue (a : AppPtr) (dropped : bool) : PM unit :=
  app ← rd_app a;
  let StrName := ai_name app in
  _ ← wr_app a (setDropped dropped);
  s ← get;
  q ← lift (deref (PerAppQueue s !! StrName));
  put (set_PerAppQueue (<[StrName := q ++ [a]]> (PerAppQueue s)) s).

(** ** Results of an application ([initApp]) and the log ([initSend]) *)
Definition initApp_setup (AppName : string) : PM unit :=
  modify (fun s => set_PerAppQueue (<[AppName := []]> (PerAppQueue s)) s).
(** [None]: the queue is empty, the thread waits. *)
Definition initApp_step (AppName : string) : PM (option AppPtr) :=
  s ← get;
  q ← lift (deref (PerAppQueue s !! AppName));
  match q with
  | [] => mret None
  | a :: q' =>
      _ ← put (set_PerAppQueue (<[AppName := q']> (PerAppQueue s)) s);
      app ← rd_app a;
      _ ← modify (fun s => set_se_replies (se_replies s ++ [(ai_fd app, ai_taskID app)]) s);
      mret (Some a)
  end.

Definition initSend_step : PM bool :=
  m ← p_monitor;
  match cmpQ m with
  | [] => mret false
  | r :: q =>
      _ ← p_mod_monitor (set_cmpQ q);
      _ ← stamp r EndSend;
      x ← rd_req r;
      let '(x, line) := r_writeToLog x in
      _ ← wr_req r (fun _ => x);
      _ ← modify (fun s => set_se_log (se_log s ++ [line]) s);
      mret true
  end.

(** ** Receiving ([recvTensor], [handleRequest])

    The build defines [NO_NET]: the client sends task numbers only.  [stream] is
    what it sends; at its end the socket reads zero. *)
Definition recvTensor (stream : list Z) (a : AppPtr) (spec : TensorSpec) (isLast isFirst : bool) :
    PM (bool * list Z) :=
  let input := t_ones in
  _ ← when isFirst (t ← now; wr_app a (set_start t));
  let '(tid, stream) := match stream with [] => (0%Z, []) | x :: s => (x, s) end in
  if (tid <=? 0)%Z then mret (EXIT_FAILURE, stream)
  else
    _ ← wr_app a (set_taskID tid);
    sp ← app_spec a;
    dsts ← lift (getNextDsts (ts_id spec) sp);
    _ ← for_each dsts (fun d =>
          sp ← app_spec a;
          name ← lift (AppModel.getModelName d sp);
          addtoModelQueue name input d a);
    _ ← when isLast (t ← now; wr_app a (setStartExec t));
    mret (EXIT_SUCCESS, stream).

(** The last application of that name. *)
Definition find_spec (name : string) (specs : list AppSpec) : option nat :=
  foldl (fun r i => match specs !! i with
                    | Some sp => if String.eqb (as_name sp) name then Some i else r
                    | None => r
                    end) None (seq 0 (length specs)).

(** One turn of [while(1)]: a new instance and its inputs.  [inr] leaves. *)
Definition handle_round (sock : Z) (AppName : string) (spec_ptr : nat) (stream : list Z) :
    PM (list Z + unit) :=
  m ← p_monitor;
  sp ← lift (deref (AppSpecVec m !! spec_ptr));
  i ← indet;
  a ← new_app (setSocketFD sock (new_AppInstance AppName spec_ptr sp i));
  r ← for_acc_ret (imap pair (inputTensors sp)) stream (fun stream e =>
        '(failed, stream) ← recvTensor stream a e.2 (e.1 =? length (inputTensors sp) - 1)%nat (e.1 =? 0)%nat;
        mret (if (failed : bool) then inr tt else inl stream));
  match r with
  | inr _ => mret (inr tt)
  | inl stream => _ ← (t ← now; wr_app a (setStartExec t)); mret (inl stream)
  end.
Definition handleRequest (fuel : nat) (sock : Z) (AppName : string) (stream : list Z) : PM unit :=
  m ← p_monitor;
  match find_spec AppName (AppSpecVec m) with
  | None => mret tt
  | Some spec_ptr => loop fuel stream (handle_round sock AppName spec_ptr)
  end.

(** ** Batching ([initProxy]) *)
Definition bump (f : Z -> Z) (name : string) (m : gmap string Z) : gmap string Z :=
  <[name := i32 (f (default 0%Z (m !! name)))]> m.
Definition add_batching (n : Z) (name : string) (x : ProxyInfo) : ProxyInfo :=
  set_isTaskBatching (bump (Z.add n) name (isTaskBatching x)) x.
Definition add_exec (n : Z) (name : string) (x : ProxyInfo) : ProxyInfo :=
  set_isTaskExec (bump (Z.add n) name (isTaskExec x)) x.
Definition p_wr (p : ProxyPtr) (f : ProxyInfo -> ProxyInfo) : PM unit := on_server (wr p f).
Definition p_rd (p : ProxyPtr) : PM ProxyInfo := on_server (rd p).

(** [ProxyBasicSetup] *)
Definition ProxyBasicSetup (p : ProxyPtr) : PM unit :=
  _ ← modify (fun s => set_PerProxyOutputQueue (<[p := []]> (PerProxyOutputQueue s)) s);
  _ ← p_mod_monitor (setupProxy p);
  g ← on_server gs;
  _ ← for_each (mNetNames g) (fun req_name =>
        p_wr p (fun x => set_isTaskBatching (<[req_name := 0%Z]> (isTaskBatching x))
                           (set_isTaskExec (<[req_name := 0%Z]> (isTaskExec x)) x)));
  _ ← p_wr p (set_isSetup true);
  for_each (mNetNames g) (fun NetName =>
    m ← p_monitor;
    if isQueueforNet NetName m then mret tt
    else
      _ ← p_mod_monitor (addNewQueueforNet NetName);
      modify (fun s => set_ReqMtxVec ({[NetName]} ∪ ReqMtxVec s) s)).

(** The scheduled task at the front of the queue of the proxy: [None] when
    there is none, [Some None] when it is skipped. *)
Definition take_task (p : ProxyPtr) : PM (option (option TaskSpec)) :=
  m ← p_monitor;
  q ← lift (getBatchQueueofProxy p m);
  match q with
  | [] => mret None
  | task :: q' =>
      x ← p_rd p;
      _ ← p_mod_monitor (fun s => set_PerProxyBatchList (<[p := q']> (PerProxyBatchList s)) s);
      mret (Some (if bool_decide (getRequestQueueofNet (ReqName task) m = []) || negb (isSchedulable x)
                  then None else Some task))
  end.

(** The wait for [isTaskBatching] to be zero is over. *)
Definition begin_batch (p : ProxyPtr) (task : TaskSpec) : PM BatchPtr :=
  _ ← now;
  _ ← p_wr p (add_batching 1 (ReqName task));
  _ ← now;
  i ← indet;
  s ← get;
  _ ← put (set_batchTaskID (i32 (batchTaskID s + 1)) s);
  new_batch (AppModel.setMaxBatch (BatchSize task)
    (b_setBatchID (batchTaskID s) (setStrName (ReqName task) (new_batched i)))).

Definition WAIT_MILLI_SEC : spec_float := d2f (dlit 5 10).
Definition QUEUE_THRESHOLD : nat := 1.
Inductive turn : Type := Break | Wait | Again.

Definition pop_request (p : ProxyPtr) (name : string) (b : BatchPtr) (dev_id : Z) : PM turn :=
  _ ← has_mutex name;
  m ← p_monitor;
  match getRequestQueueofNet name m with
  | [] => mret Again
  | r :: q =>
      _ ← p_mod_monitor (set_request_queue name q);
      _ ← wr_req r (setDeviceID dev_id);
      _ ← stamp r EndReq;
      x ← rd_req r;
      batch ← rd_batch b;
      batch ← lift (addRequestInfo r x batch);
      _ ← wr_batch b batch;
      mret Again
  end.

(** One turn of the batching loop, [batch_start] its start: it breaks, sleeps or
    goes on. *)
Definition batch_turn (p : ProxyPtr) (name : string) (b : BatchPtr) (dev_id : Z) (maxdelay : spec_float)
    (batch_start : Z) : PM turn :=
  batch ← rd_batch b;
  if negb (b_BatchNum batch <? _max_batch batch)%Z then mret Break
  else
    t ← now;
    let elapsed := ddiv (i2d (u64 (t - batch_start))) (i2d 1000000) in
    if fneqb maxdelay fzero && geb elapsed (f2d maxdelay) then mret Break
    else
      m ← p_monitor;
      if decide (getRequestQueueofNet name m = []) then
        mret (if feqb maxdelay fzero then Break
              else if geb elapsed (f2d (fsub maxdelay WAIT_MILLI_SEC)) then Break else Wait)
      else
        id ← on_server (on_sched (SchedBase.getModelID name));
        load_balance_result ← on_server (gs_checkLoad id p);
        m ← p_monitor;
        let is_queue_full := (QUEUE_THRESHOLD <? length (getRequestQueueofNet name m))%nat in
        if negb load_balance_result && negb is_queue_full then mret Wait
        else pop_request p name b dev_id.

(** The batch is complete: given back when it is empty, sent otherwise (the
    wait for [isTaskExec] to be zero is over). *)
Definition sendBatchedRequest (b : BatchPtr) (strReqName : string) (p : ProxyPtr) : PM unit :=
  batch ← rd_batch b;
  _ ← (if (Z.of_nat (String.length strReqName) <? MAX_REQ_SIZE)%Z then mret tt else fail Undefined);
  n ← lift (t_size0 (batched_tensor batch));
  _ ← massert (Z.of_nat (getNTask batch) =? n)%Z;
  _ ← for_each (taskRequests batch) (fun r => stamp r StartExec);
  s ← get;
  q ← lift (deref (PerProxyOutputQueue s !! p));
  _ ← put (set_PerProxyOutputQueue (<[p := q ++ [b]]> (PerProxyOutputQueue s)) s);
  m ← p_monitor;
  modify (fun s => set_se_sent (se_sent s ++
    [(p, b_BatchID batch, getIDfromModel strReqName m, batched_tensor batch)]) s).
Definition end_batch (p : ProxyPtr) (name : string) (b : BatchPtr) : PM unit :=
  _ ← now;
  batch ← rd_batch b;
  if (getNTask batch =? 0)%nat then p_wr p (add_batching (-1) name)
  else
    _ ← for_each (taskRequests batch) (fun r =>
          _ ← stamp r EndBatch; wr_req r (setBatchID (b_BatchID batch)));
    _ ← now;
    _ ← p_wr p (add_exec 1 name);
    _ ← p_wr p (add_batching (-1) name);
    _ ← now; _ ← now; _ ← now;
    _ ← sendBatchedRequest b name p;
    _ ← now; mret tt.

(** ** Results ([initOutput]) *)
Definition setFinished (r : ReqPtr) : PM unit :=
  x ← rd_req r; a ← lift (deref (_task x)); wr_app a (markFinished (_cgid x)).
Definition setOutputTensor (r : ReqPtr) (tensor : Tensor) : PM unit :=
  x ← rd_req r;
  a ← lift (deref (_task x));
  _ ← wr_app a (makeInputTensor tensor (_cgid x));
  setFinished r.
Definition allocateOutput (b : BatchPtr) (tensor : Tensor) : PM unit :=
  batch ← rd_batch b;
  splitted_tensors ← lift (t_split tensor);
  for_each (imap pair (taskRequests batch)) (fun e =>
    t ← lift (deref (splitted_tensors !! e.1)); setOutputTensor e.2 t).

Definition isAppFinished (r : ReqPtr) : PM bool :=
  a ← app_of r;
  app ← rd_app a;
  '(fin, app) ← lift (isFinished app);
  _ ← wr_app a (fun _ => app);
  mret fin.

(** An unfinished request goes on to the models that follow. *)
Definition forward_request (r : ReqPtr) : PM unit :=
  x ← rd_req r;
  a ← app_of r;
  sp ← app_spec a;
  m ← p_monitor;
  sp ← lift (at_index (AppSpecVec m) (_globalVecId sp));
  dst_ids ← lift (getNextDsts (_cgid x) sp);
  for_each dst_ids (fun d =>
    out ← lift (isOutput d sp);
    if (out : bool) then mret tt
    else
      modelname ← lift (AppModel.getModelName d sp);
      app ← rd_app a;
      addtoModelQueue modelname (getOutputTensor (_cgid x) app) d a).
Definition complete_request (model_name : string) (r : ReqPtr) : PM unit :=
  _ ← stamp r EndCmpq;
  m ← p_monitor;
  x ← rd_req r;
  g ← on_server gs;
  _ ← when (_TRACK_TRPT m && ltb (r_getLatency x) (i2d (getSLO model_name g)))
        (p_mod_monitor (incPerModelFinCnt model_name));
  _ ← enqueue_completed r;
  fin ← isAppFinished r;
  if (fin : bool) then
    a ← app_of r;
    t ← now;
    _ ← wr_app a (setEndExec t);
    addtoAppQueue a false
  else forward_request r.
Definition sendBatchedResults (b : BatchPtr) (model_name : string) (p : ProxyPtr) : PM unit :=
  batch ← rd_batch b;
  let numofReq := getNTask batch in
  _ ← p_wr p (fun x => set_PerTaskTrp (<[model_name :=
        match PerTaskTrp x !! model_name with
        | None => i2f (Z.of_nat numofReq)
        | Some v => fadd v (i2f (Z.of_nat numofReq))
        end]> (PerTaskTrp x)) x);
  _ ← for_each (taskRequests batch) (complete_request model_name);
  batch ← rd_batch b;
  wr_batch b (mkBatched (b_BatchNum batch) (b_GPUID batch) (_StrReqName batch) (_max_batch batch)
    (b_BatchID batch) (batched_tensor batch) (drop numofReq (taskRequests batch))).

(** [result]: the tensor the backend answers to a batch. *)
Definition initOutput_step (result : Z -> Tensor) (p : ProxyPtr) : PM bool :=
  s ← get;
  q ← lift (deref (PerProxyOutputQueue s !! p));
  match q with
  | [] => mret false
  | b :: q' =>
      _ ← put (set_PerProxyOutputQueue (<[p := q']> (PerProxyOutputQueue s)) s);
      batch ← rd_batch b;
      let strReqName := _StrReqName batch in
      let output := result (b_BatchID batch) in
      _ ← p_wr p (add_exec (-1) strReqName);
      _ ← for_each (taskRequests batch) (fun r => stamp r EndExec);
      _ ← allocateOutput b output;
      _ ← sendBatchedResults b strReqName p;
      mret true
  end.

(** ** Dropping ([initLazyDrop], [initEagerDrop])

    Both loops go over copies of the queues: what they pop stays in the real
    ones. *)
Definition queueing_ms (start t : Z) : spec_float := ddiv (i2d (u64 (t - start))) (i2d 1000000).
Definition expired (DropRatio : spec_float) (slo : Z) (delay : spec_float) : bool :=
  gtb delay (dmul DropRatio (i2d slo)).
Definition drop_request (r : ReqPtr) : PM unit :=
  _ ← wr_req r (set_drop true);
  a ← app_of r;
  app ← rd_app a;
  _ ← when (negb (_dropped app)) (_ ← wr_app a (setDropped true); addtoAppQueue a true);
  enqueue_completed r.
Fixpoint drop_front (DropRatio : spec_float) (name : string) (q : list ReqPtr) : PM unit :=
  match q with
  | [] => mret tt
  | r :: q' =>
      t ← now;
      x ← rd_req r;
      g ← on_server gs;
      if expired DropRatio (getSLO name g) (queueing_ms (r_times x Start) t) then
        _ ← drop_request r; drop_front DropRatio name q'
      else mret tt
  end.
(** One pass of [initLazyDrop], which the build starts. *)
Definition lazy_drop_pass (DropRatio : spec_float) : PM unit :=
  m ← p_monitor;
  for_each (ReqListHashTable m) (fun it =>
    if decide (it.2 = []) then mret tt
    else _ ← has_mutex it.1; drop_front DropRatio it.1 it.2).

(** The largest batch of the model over all proxies, with its partition. *)
Definition largest_batch (name : string) : PM (Z * Z * string) :=
  m ← p_monitor;
  for_acc (all_proxies m) (0%Z, 0%Z, ""%string) (fun best p =>
    x ← p_rd p;
    mret (foldl (fun '(b, c, t) tinfo =>
            if String.eqb tinfo.1 name && (b <? tinfo.2)%Z then (tinfo.2, p_cap x, p_type x) else (b, c, t))
          best (getProxyNetList p m))).
Fixpoint eager_front (DropRatio : spec_float) (name type : string) (max_batch_size cap : Z)
    (q : list ReqPtr) : PM unit :=
  match q with
  | [] => mret tt
  | r :: q' =>
      t ← now;
      x ← rd_req r;
      let batch_size := if (u64 max_batch_size <=? Z.of_nat (length q))%Z then max_batch_size
                        else Z.of_nat (length q) in
      lat ← on_server (on_sched (getEstLatency name batch_size cap type));
      g ← on_server gs;
      if expired DropRatio (getSLO name g) (dadd (queueing_ms (r_times x Start) t) (f2d lat)) then
        _ ← drop_request r; eager_front DropRatio name type max_batch_size cap q'
      else mret tt
  end.
Definition eager_drop_pass (DropRatio : spec_float) : PM unit :=
  m ← p_monitor;
  for_each (ReqListHashTable m) (fun it =>
    if decide (it.2 = []) then mret tt
    else
      '(max_batch_size, cap, type) ← largest_batch it.1;
      if ((max_batch_size =? 0) || (cap =? 0))%Z then mret tt
      else _ ← has_mutex it.1; eager_front DropRatio it.1 type max_batch_size cap it.2).
End Pipeline.
