(* ===== verification/DemoServer.v ===== *)
(** * A concrete frontend

    One backend with the two GPUs of [Demo] and an application of one model,
    used by the witnesses of the service: the definitions are run on it. *)
From Stdlib Require Import ZArith SpecFloat String Lia.
From S2P Require Import Prelude CppFloat CppStd LatencyModel DevPerfModel SchedData SchedUtils SchedBase Json IncrSchedule Demo LoadBalancer SelfTuning AppModel AppProps SysState Control GlobalState GlobalSched GlobalSetup Pipeline.

(** The value left by a run. *)
Definition run {S A} (m : M S A) (s : S) : S := match m s with Done (_, s') => s' | Stop _ => s end.

Lemma completes_run {S} (m : M S unit) (s : S) : completes (m s) = true -> m s = Done (tt, run m s).
Proof. unfold run. by destruct (m s) as [[[] s']|]. Qed.

(** A check of every proxy of every device. *)
Lemma dev_proxies_check (ok : ProxyPtr -> bool) s :
  forallb (fun e => forallb ok e.2) (map_to_list (PerDevMPSInfo s)) = true ->
  forall d p, p ∈ getDevMPSInfo d s -> ok p = true.
Proof.
  intros H d p Hp. unfold getDevMPSInfo in Hp. destruct (_ !! d) as [l|] eqn:E; [|by apply elem_of_nil in Hp].
  apply elem_of_map_to_list, list_elem_of_In in E. rewrite forallb_forall in H. specialize (H _ E). cbn in H.
  rewrite forallb_forall in H. by apply H, list_elem_of_In.
Qed.

Definition demo_names : list string := ["resnet50"; "lenet1"]%string.
Definition demo_ewma (rate : Z) : EWMA.EWMA := EWMA.mkEWMA (i2f rate) (fdiv (i2f 1) (i2f 2)) 500.
(** The rate seen is 200 requests per second for [resnet50] and 50 for [lenet1],
    which has no target. *)
Definition demo_gs : GlobalScheduler :=
  mkGS (Some ORACLE) (mkLB WRR ∅ ∅ ∅ ∅) demo_names ∅ ∅
    {["resnet50"%string := demo_ewma 200; "lenet1"%string := demo_ewma 50]} ∅ ∅
    [] [("resnet50"%string, i2f 100)] empty_latency_model {["resnet50"%string := 100%Z; "lenet1"%string := 50%Z]}
    (mkSimState [] [] 0) (mkSimState [] [] 0) (mkSimState [] [] 0) false
    20000 20000 (fdiv (i2f 30) (i2f 20)) true 0.

Definition demo_delegate : BackendDelegate := mkDelegate 2 16000 "A" [20; 80; 50; 100]%Z.
Definition demo_app : AppSpec :=
  run (readAppJSONFile (Some (app_json demo_graph.1.1
         [mkCompDep "Model" "resnet50" 1 0 0 [0] [2]]%Z%string demo_graph.2)))
    (new_AppSpec "game" demo_indet).
Definition demo_monitor : SysMonitor :=
  set_AppSpecVec [demo_app] (addNewQueueforNet "lenet1" (addNewQueueforNet "resnet50" (new_SysMonitor demo_indet))).
(** The proxies of the backend, set up. *)
Definition demo_front : Front :=
  run (_ ← configure_all demo_indet [(0%Z, demo_delegate)];
       f ← get; for_each (all_proxies (f_sys f)) (fun p => mod_sys (setupProxy p)))
    (mkFront demo_monitor []).
Definition demo_frontend : Frontend := mkFrontend demo_front (mkCtrl {[0%Z := demo_delegate]} {[0%Z := 2%Z]} [] []) 0.
Definition demo_server : Server := mkServer demo_gs demo_world demo_frontend [(0%Z, demo_delegate)] [] 0.

(** An instance of the application with two requests for [resnet50]. *)
#[local] Existing Instance rows_torch.
Definition demo_clock (n : nat) : Z := (Z.of_nat n * 1000000000)%Z.
Definition demo_service : Service (list Z) :=
  mkService demo_server [new_AppInstance "game" 0 demo_app demo_indet] [] []
    {["resnet50"%string]} {["game"%string := []]} ∅ 0 0 0 [] [] [].
Definition demo_queued : Service (list Z) :=
  run (_ ← addtoModelQueue demo_clock "resnet50" [7]%Z 1 0; addtoModelQueue demo_clock "resnet50" [8]%Z 1 0)
    demo_service.
Definition demo_batching : Service (list Z) :=
  run (begin_batch demo_clock 3 (mkTaskSpec 0 "resnet50" 8 3)) demo_queued.
