(* ===== verification/PipelineProps.v ===== *)
(** * Properties of the request pipeline: forming a batch keeps the order of
    arrival and the limit, and what the dropping threads do to the queues. *)
From Stdlib Require Import ZArith SpecFloat String Lia.
From S2P Require Import Prelude CppFloat CppStd LatencyModel DevPerfModel SchedData SchedUtils SchedBase Json LoadBalancer SelfTuning AppModel AppProps SysState Control GlobalState GlobalSched Pipeline DemoServer.

Section PipelineProps.
Context {Tensor : Type} `{!Torch Tensor}.
Context (clock : nat -> Z).
Local Abbreviation St := (Service Tensor).

Definition mon (s : St) : SysMonitor := f_sys (fe_front (sv_fe (se_server s))).
Definition queue_of (s : St) (name : string) : list nat := getRequestQueueofNet name (mon s).

(** ** Steps that leave requests, batches and the monitor alone *)
Definition quiet (s s' : St) : Prop :=
  mon s' = mon s /\ se_batches s' = se_batches s /\ se_reqs s' = se_reqs s /\ se_apps s' = se_apps s.
#[local] Instance quiet_preorder : PreOrder quiet.
Proof. split; [by intros s|]. intros s1 s2 s3 (?&?&?&?) (?&?&?&?). unfold quiet. intuition congruence. Qed.

(** Steps of the scheduling state that leave the frontend alone. *)
Definition same_fe (a b : Server) : Prop := sv_fe b = sv_fe a.
#[local] Instance same_fe_preorder : PreOrder same_fe.
Proof. split; unfold same_fe; repeat intro; congruence. Qed.
Lemma preserves_on_sched {A} (m : SM A) : preserves same_fe (on_sched m).
Proof. intros s a s' H. unfold on_sched, zoom in H. destruct (m _) as [[? ?]|]; [|done]. by injection H as _ <-. Qed.
Lemma quiet_on_server {A} (m : GM A) : preserves same_fe m -> preserves quiet (on_server m : M St A).
Proof.
  intros Hm s a s' H. unfold on_server, zoom in H. destruct (m (se_server s)) as [[x t]|] eqn:E; [|done].
  injection H as _ <-. apply Hm in E. unfold quiet, mon. cbn. by rewrite E.
Qed.
Lemma quiet_now : preserves quiet (now clock : M St Z).
Proof. apply quiet_on_server. intros s a s' H. by injection H as _ <-. Qed.
Lemma quiet_gs : preserves quiet (on_server gs : M St GlobalScheduler).
Proof. apply quiet_on_server. intros s a s' H. by injection H as _ <-. Qed.
Lemma quiet_model_id name : preserves quiet (on_server (on_sched (SchedBase.getModelID name)) : M St Z).
Proof. apply quiet_on_server, preserves_on_sched. Qed.
Lemma rd_quiet p : preserves same_fe (rd p).
Proof.
  intros s a s' H. unfold rd, on_fe, zoom, fe_rd, fe_on_front, zoom, rd_proxy in H. mred.
  destruct (_ !! p); [|done]. injection H as _ <-. by destruct s as [? ? [? ? ?] ? ? ?].
Qed.
Lemma quiet_checkLoad id p : preserves quiet (on_server (gs_checkLoad id p) : M St bool).
Proof.
  apply quiet_on_server. unfold gs_checkLoad. apply preserves_bind; [typeclasses eauto|apply rd_quiet|].
  intros x. apply preserves_bind; [typeclasses eauto|intros s a s' H; by injection H as _ <-|].
  intros g. destruct (checkLoad id (lb_proxy x) (mLoadBalancer g)) as [ok lb].
  apply preserves_bind; [typeclasses eauto|intros s a s' H; by injection H as _ <-|].
  intros _. apply preserves_ret. typeclasses eauto.
Qed.

Lemma p_monitor_run (s : St) : p_monitor s = Done (mon s, s).
Proof. by destruct s as [[? ? [[? ?] ? ?] ? ? ?]]. Qed.
Lemma p_monitor_inv (s : St) m s' : p_monitor s = Done (m, s') -> m = mon s /\ s' = s.
Proof. intros H. injection H as <- <-. split; [done|]. by destruct s. Qed.

Lemma p_mod_monitor_run (f : SysMonitor -> SysMonitor) (s : St) :
  exists s', p_mod_monitor f s = Done (tt, s') /\ mon s' = f (mon s) /\ se_batches s' = se_batches s /\
    se_reqs s' = se_reqs s /\ se_apps s' = se_apps s.
Proof. eexists. split; [reflexivity|]. done. Qed.

Lemma p_mod_monitor_inv f (s : St) u s' : p_mod_monitor f s = Done (u, s') ->
  mon s' = f (mon s) /\ se_batches s' = se_batches s /\ se_reqs s' = se_reqs s /\ se_apps s' = se_apps s.
Proof. intros H. destruct (p_mod_monitor_run f s) as (s1 & E & H1). rewrite E in H. by injection H as _ <-. Qed.

Lemma wr_req_inv r f (s : St) u s' : wr_req r f s = Done (u, s') ->
  exists x, se_reqs s !! r = Some x /\ s' = set_se_reqs (<[r := f x]> (se_reqs s)) s.
Proof. intros H. unfold wr_req in H. minv H. eauto. Qed.
Lemma rd_req_inv r (s : St) x s' : rd_req r s = Done (x, s') -> se_reqs s !! r = Some x /\ s' = s.
Proof. intros H. unfold rd_req in H. by minv H. Qed.
Lemma rd_batch_inv b (s : St) x s' : rd_batch b s = Done (x, s') -> se_batches s !! b = Some x /\ s' = s.
Proof. intros H. unfold rd_batch in H. by minv H. Qed.
Lemma wr_batch_inv b x (s : St) u s' : wr_batch b x s = Done (u, s') ->
  s' = set_se_batches (<[b := x]> (se_batches s)) s.
Proof. intros H. unfold wr_batch in H. by minv H. Qed.
Lemma has_mutex_inv name (s : St) u s' : has_mutex name s = Done (u, s') -> s' = s.
Proof. intros H. unfold has_mutex in H. minv H. case_decide; [by minv H|done]. Qed.
Lemma stamp_inv r st (s : St) u s' : stamp clock r st s = Done (u, s') ->
  exists s1 x t, quiet s s1 /\ se_reqs s !! r = Some x /\
    s' = set_se_reqs (<[r := set_time st t x]> (se_reqs s)) s1.
Proof.
  intros H. unfold stamp in H. apply bind_inv in H as (t & s1 & Ht & H).
  apply quiet_now in Ht. apply wr_req_inv in H as (x & Hx & ->).
  pose proof Ht as (_ & _ & Hr & _). rewrite Hr in Hx |- *. eauto 10.
Qed.

(** ** One turn of the batching loop *)
(** A batch under construction: it counts its requests and respects its
    limit. *)
Definition batch_ok (b : batched_request Tensor) : Prop :=
  b_BatchNum b = Z.of_nat (length (taskRequests b)) /\
  (Z.of_nat (length (taskRequests b)) <= _max_batch b < 4294967296)%Z.

Lemma addRequestInfo_ok r (x : request Tensor) b b' :
  batch_ok b -> (b_BatchNum b < _max_batch b)%Z -> mBatchNum x = 1%Z ->
  addRequestInfo r x b = Done b' ->
  batch_ok b' /\ taskRequests b' = taskRequests b ++ [r] /\ _max_batch b' = _max_batch b.
Proof.
  intros (Hn & Hle & Hm) Hlt Hx H. unfold addRequestInfo in H.
  rewrite (proj2 (Z.ltb_ge _ _)) in H by lia. rewrite Hx, Hn in H.
  apply obind_inv in H as (input & _ & H). apply obind_inv in H as (c & _ & H).
  injection H as <-. unfold batch_ok. cbn. rewrite length_app. cbn.
  unfold u32. rewrite Z.mod_small by lia. split_and!; try done; lia.
Qed.

Lemma queue_set s (q : list nat) name name' :
  getRequestQueueofNet name' (set_request_queue name q s) =
  if decide (name' = name) then q else getRequestQueueofNet name' s.
Proof.
  unfold getRequestQueueofNet, set_request_queue. cbn. case_decide; subst.
  - by rewrite om_find_set.
  - by rewrite om_find_set_ne.
Qed.

(** The turn moved requests from the queue of [name] to the batch [b]. *)
Definition moved (name : string) (b : nat) (s s' : St) (batch : batched_request Tensor) : Prop :=
  exists batch', se_batches s' !! b = Some batch' /\ batch_ok batch' /\ _max_batch batch' = _max_batch batch /\
    taskRequests batch' ++ queue_of s' name = taskRequests batch ++ queue_of s name /\
    forall name', name' <> name -> queue_of s' name' = queue_of s name'.

Lemma moved_quiet name b s s' batch : quiet s s' -> se_batches s !! b = Some batch -> batch_ok batch ->
  moved name b s s' batch.
Proof. intros (Hm & Hb & _) H Hok. exists batch. unfold queue_of. rewrite Hb, Hm. done. Qed.

Definition counts_one (s : St) (r : nat) : Prop :=
  forall x, se_reqs s !! r = Some x -> mBatchNum x = 1%Z.

Lemma pop_request_moved p name b dev s t s' batch :
  se_batches s !! b = Some batch -> batch_ok batch -> (b_BatchNum batch < _max_batch batch)%Z ->
  Forall (counts_one s) (queue_of s name) ->
  pop_request clock p name b dev s = Done (t, s') -> moved name b s s' batch.
Proof.
  intros Hb Hok Hlt Hones H. unfold pop_request in H.
  apply bind_inv in H as (u & s0 & E & H). apply has_mutex_inv in E as ->.
  apply bind_inv in H as (m & s0 & E & H). apply p_monitor_inv in E as [-> ->].
  fold (queue_of s name) in H. destruct (queue_of s name) as [|r q] eqn:Eq.
  { apply ret_inv in H as [-> ->]. by apply moved_quiet. }
  apply bind_inv in H as (u1 & s1 & E & H). apply p_mod_monitor_inv in E as (Hm1 & Hb1 & Hr1 & _).
  apply bind_inv in H as (u2 & s2 & E & H). apply wr_req_inv in E as (x0 & Hx0 & ->).
  apply bind_inv in H as (u3 & s3 & E & H). apply stamp_inv in E as (s3' & x1 & t1 & (Hm3 & Hb3 & _) & Hx1 & ->).
  apply bind_inv in H as (x & s4 & E & H). apply rd_req_inv in E as [Hx ->].
  apply bind_inv in H as (batch1 & s4 & E & H). apply rd_batch_inv in E as [Hbatch ->].
  cbn [se_batches set_se_reqs] in Hbatch. rewrite Hb3 in Hbatch. cbn [se_batches set_se_reqs] in Hbatch.
  rewrite Hb1, Hb in Hbatch. injection Hbatch as <-.
  apply bind_inv in H as (batch' & s4 & E & H). apply lift_inv in E as [Hadd ->].
  apply bind_inv in H as (u4 & s5 & E & H). apply wr_batch_inv in E as ->. apply ret_inv in H as [_ ->].
  assert (Hone : mBatchNum x = 1%Z).
  { cbn [se_reqs set_se_reqs] in Hx1, Hx. assert (Hlen : (r < length (se_reqs s1))%nat) by (by eapply lookup_lt_Some).
    rewrite list_lookup_insert_eq in Hx1 by lia. injection Hx1 as <-.
    rewrite list_lookup_insert_eq in Hx by (rewrite length_insert; lia). injection Hx as <-. cbn.
    rewrite Hr1 in Hx0. rewrite Forall_forall in Hones. apply (Hones r); [by left|done]. }
  destruct (addRequestInfo_ok r x batch batch' Hok Hlt Hone Hadd) as (Hok' & Hreqs & Hmax).
  exists batch'. cbn [se_batches set_se_batches set_se_reqs]. split.
  { rewrite Hb3. cbn [se_batches set_se_reqs]. rewrite Hb1.
    apply list_lookup_insert_eq. by eapply lookup_lt_Some. }
  split; [done|]. split; [done|].
  assert (Hq : forall name', queue_of (set_se_batches (<[b := batch']> (se_batches s3'))
      (set_se_reqs (<[r := set_time EndReq t1 x1]> (se_reqs (set_se_reqs (<[r := setDeviceID dev x0]> (se_reqs s1)) s1))) s3')) name'
      = if decide (name' = name) then q else queue_of s name').
  { intros name'. unfold queue_of. cbn. change (mon (set_se_batches _ _)) with (mon s3').
    rewrite Hm3. change (mon (set_se_reqs _ _)) with (mon s1). rewrite Hm1. apply queue_set. }
  split.
  - etransitivity; [apply f_equal, (Hq name)|]. rewrite decide_True by done. by rewrite Hreqs, Eq, <- app_assoc.
  - intros name' Hne. etransitivity; [apply Hq|]. by rewrite decide_False.
Qed.

(** C19: forming a batch keeps the order of arrival.  A turn of the batching loop
    may take the request at the front of the queue of the model and append it to
    the batch: the batch followed by the queue reads the same before and after,
    so no request is lost, repeated or overtaken, the queues of the other models
    stay as they are, and the batch counts its requests and never grows past its
    limit, so the exit of addRequestInfo is out of reach. *)
Theorem batch_turn_fifo p name b dev maxdelay start s t s' batch :
  se_batches s !! b = Some batch -> batch_ok batch ->
  Forall (counts_one s) (queue_of s name) ->
  batch_turn clock p name b dev maxdelay start s = Done (t, s') ->
  exists batch', se_batches s' !! b = Some batch' /\ batch_ok batch' /\ _max_batch batch' = _max_batch batch /\
    taskRequests batch' ++ queue_of s' name = taskRequests batch ++ queue_of s name /\
    forall name', name' <> name -> queue_of s' name' = queue_of s name'.
Proof.
  intros Hb Hok Hones H. change (moved name b s s' batch). unfold batch_turn in H.
  apply bind_inv in H as (batch0 & s0 & E & H). apply rd_batch_inv in E as [E ->].
  rewrite Hb in E. injection E as <-.
  assert (Hq : forall s1, quiet s s1 -> moved name b s s1 batch) by (intros; by apply moved_quiet).
  assert (Hr : quiet s s) by reflexivity.
  destruct (b_BatchNum batch <? _max_batch batch)%Z eqn:Elt; cbn [negb] in H; [|apply ret_inv in H as [-> ->]; auto].
  apply Z.ltb_lt in Elt.
  apply bind_inv in H as (tm & s1 & E & H). apply quiet_now in E.
  destruct (_ && _); [apply ret_inv in H as [-> ->]; auto|].
  apply bind_inv in H as (m & s2 & E2 & H). apply p_monitor_inv in E2 as [-> ->].
  case_decide as Hempty.
  { destruct (feqb _ _); [apply ret_inv in H as [-> ->]; auto|].
    destruct (geb _ _); apply ret_inv in H as [-> ->]; auto. }
  apply bind_inv in H as (id & s2 & E2 & H). apply quiet_model_id in E2.
  apply bind_inv in H as (ok & s3 & E3 & H). apply quiet_checkLoad in E3.
  assert (Hall : quiet s s3) by (etransitivity; [exact E|]; by etransitivity).
  apply bind_inv in H as (m & s4 & E4 & H). apply p_monitor_inv in E4 as [-> ->].
  destruct (_ && _); [apply ret_inv in H as [-> ->]; auto|].
  pose proof Hall as (Hm & Hbs & Hrs & _).
  assert (Hmv : moved name b s3 s' batch).
  { eapply pop_request_moved; [by rewrite Hbs|done|done| |exact H].
    unfold queue_of. rewrite Hm. eapply Forall_impl; [exact Hones|].
    intros r Hc x Hx. rewrite Hrs in Hx. by apply Hc. }
  destruct Hmv as (batch' & H1 & H2 & H3 & H4 & H5). unfold queue_of in *. rewrite Hm in H4.
  exists batch'. split_and!; try done. intros name' Hne. etransitivity; [by apply H5|]. by rewrite Hm.
Qed.

(** ** Dropping *)
Definition table (s : St) : list (string * list nat) := ReqListHashTable (mon s).
Definition dropped (s : St) (r : nat) : Prop := exists x, se_reqs s !! r = Some x /\ _drop x = true.
(** At time [t] request [r] of model [name] has waited for more than [ratio]
    times the SLO (in milliseconds; the clock counts nanoseconds). *)
Definition late (ratio : spec_float) (s : St) (name : string) (r : nat) (t : Z) : Prop :=
  exists x, se_reqs s !! r = Some x /\
    gtb (ddiv (i2d (u64 (t - r_times x Start))) (i2d 1000000))
        (dmul ratio (i2d (default 0%Z (mPerModelSLO (sv_gs (se_server s)) !! name)))) = true.
(** What a pass relies on: a queue that is not empty has its mutex, a queued
    request belongs to an instance, and the instance's application has a queue. *)
Definition has_task (s : St) (r : nat) : Prop :=
  exists x a app, se_reqs s !! r = Some x /\ _task x = Some a /\ se_apps s !! a = Some app /\
    is_Some (PerAppQueue s !! ai_name app).
Definition droppable (s : St) : Prop :=
  forall name q, (name, q) ∈ table s -> q <> [] -> name ∈ ReqMtxVec s /\ Forall (has_task s) q.

(** What no step of a pass changes. *)
Record steady (s s' : St) : Prop := mkSteady {
  sd_table : table s' = table s;
  sd_gs : sv_gs (se_server s') = sv_gs (se_server s);
  sd_mtx : ReqMtxVec s' = ReqMtxVec s;
  sd_reqs : forall r, set_drop true <$> se_reqs s' !! r = set_drop true <$> se_reqs s !! r;
  sd_drop : forall r, dropped s r -> dropped s' r;
  sd_apps : forall a, ai_name <$> se_apps s' !! a = ai_name <$> se_apps s !! a;
  sd_queues : forall n, is_Some (PerAppQueue s !! n) -> is_Some (PerAppQueue s' !! n) }.
#[local] Instance steady_preorder : PreOrder steady.
Proof.
  split; [by intros s; split|]. intros s1 s2 s3 [A1 A2 A3 A4 A5 A6 A7] [B1 B2 B3 B4 B5 B6 B7].
  split; [congruence..| | | |]; [intros r; by rewrite B4|auto|intros a; by rewrite B6|auto].
Qed.
Lemma steady_req s s' r x : steady s s' -> se_reqs s !! r = Some x ->
  exists x', se_reqs s' !! r = Some x' /\ r_times x' = r_times x /\ _task x' = _task x.
Proof.
  intros Hs Hx. pose proof (sd_reqs _ _ Hs r) as H. rewrite Hx in H. cbn in H.
  apply fmap_Some in H as (x' & Hx' & H). exists x'. split; [done|]. by injection H.
Qed.
Lemma steady_sym_req s s' r x' : steady s s' -> se_reqs s' !! r = Some x' ->
  exists x, se_reqs s !! r = Some x /\ r_times x' = r_times x.
Proof.
  intros Hs Hx. pose proof (sd_reqs _ _ Hs r) as H. rewrite Hx in H. cbn in H.
  symmetry in H. apply fmap_Some in H as (x & Hx' & H). exists x. split; [done|]. by injection H.
Qed.
Lemma steady_late ratio s s' name r t : steady s s' -> late ratio s' name r t <-> late ratio s name r t.
Proof.
  intros Hs. unfold late. rewrite (sd_gs _ _ Hs). split; intros (x & Hx & H).
  - destruct (steady_sym_req _ _ _ _ Hs Hx) as (y & Hy & Ht). exists y. by rewrite <- Ht.
  - destruct (steady_req _ _ _ _ Hs Hx) as (y & Hy & Ht & _). exists y. by rewrite Ht.
Qed.
Lemma steady_task s s' r : steady s s' -> has_task s r -> has_task s' r.
Proof.
  intros Hs (x & a & app & Hx & Ha & Happ & Hq). destruct (steady_req _ _ _ _ Hs Hx) as (x' & Hx' & _ & Ha').
  pose proof (sd_apps _ _ Hs a) as H. rewrite Happ in H. apply fmap_Some in H as (app' & Happ' & Hn).
  exists x', a, app'. rewrite Ha', <- Hn. split_and!; try done. by apply (sd_queues _ _ Hs).
Qed.
Lemma steady_droppable s s' : steady s s' -> droppable s -> droppable s'.
Proof.
  intros Hs H name q Hin Hne. rewrite (sd_table _ _ Hs) in Hin. rewrite (sd_mtx _ _ Hs).
  destruct (H name q Hin Hne) as [Hm Hq]. split; [done|]. eapply Forall_impl; [exact Hq|]. intros r. by apply steady_task.
Qed.

(** Number of readings of the clock so far. *)
Definition readings (s : St) : nat := sv_reads (se_server s).

Lemma insert_same {A B} (f : A -> B) (l : list A) i x (g : A -> A) j : l !! i = Some x -> f (g x) = f x ->
  f <$> <[i := g x]> l !! j = f <$> l !! j.
Proof.
  intros Hx Hf. destruct (decide (i = j)) as [->|Hne]; [|by rewrite list_lookup_insert_ne].
  rewrite list_lookup_insert_eq by (by eapply lookup_lt_Some). rewrite Hx. cbn. by rewrite Hf.
Qed.

(** A request with a task is dropped, whatever the state of its instance. *)
Lemma drop_request_run s r : has_task s r ->
  returns (drop_request r) s (fun _ s' => steady s s' /\ readings s' = readings s /\
    cmpQ (mon s') = cmpQ (mon s) ++ [r] /\ dropped s' r).
Proof.
  intros (x & a & app & Hx & Ha & Happ & [q Hq]). unfold drop_request.
  set (s1 := set_se_reqs (<[r := set_drop true x]> (se_reqs s)) s).
  assert (Hs1 : se_reqs s1 !! r = Some (set_drop true x)) by (apply list_lookup_insert_eq; by eapply lookup_lt_Some).
  assert (Hd1 : forall r', dropped s r' \/ r' = r -> dropped s1 r').
  { intros r' Hr. unfold dropped. destruct (decide (r' = r)) as [->|Hne]; [by eauto|].
    destruct Hr as [(y & Hy & Hd)|]; [|done]. exists y. split; [|done]. unfold s1. cbn. by rewrite list_lookup_insert_ne. }
  eapply returns_read; [unfold wr_req; mred; rewrite Hx; reflexivity|]. fold s1.
  eapply returns_read; [unfold app_of, rd_req; mred; rewrite Hs1; cbn; rewrite Ha; reflexivity|].
  eapply returns_read; [unfold rd_app; mred; cbn [s1 se_apps set_se_reqs]; rewrite Happ; reflexivity|].
  eapply returns_bind with (Q1 := fun _ s' => steady s s' /\ readings s' = readings s /\ mon s' = mon s /\ dropped s' r).
  - assert (Hst : steady s s1).
    { split; try done; [|by auto]. intros r'. unfold s1. cbn. by apply (insert_same (set_drop true) _ _ x (set_drop true)). }
    unfold when. destruct (negb (_dropped app)).
    2: { eapply returns_intro; [reflexivity|]. split_and!; auto. }
    set (app' := setDropped true app). set (s2 := set_se_apps (<[a := app']> (se_apps s)) s1).
    assert (Hs2 : se_apps s2 !! a = Some app') by (apply list_lookup_insert_eq; by eapply lookup_lt_Some).
    eapply returns_read; [unfold wr_app; mred; cbn [s1 se_apps set_se_reqs]; rewrite Happ; reflexivity|]. 
    change (set_se_apps _ s1) with s2.
    unfold addtoAppQueue. eapply returns_read; [unfold rd_app; mred; rewrite Hs2; reflexivity|]. cbv zeta.
    eapply returns_read; [unfold wr_app; mred; rewrite Hs2; reflexivity|].
    set (s3 := set_se_apps _ s2).
    assert (Hq3 : PerAppQueue s3 !! ai_name app' = Some q) by exact Hq.
    eapply returns_read; [reflexivity|]. eapply returns_read; [rewrite Hq3; reflexivity|].
    eapply returns_intro; [reflexivity|]. split_and!; [|done|done|apply (Hd1 r); by right].
    destruct Hst as [T1 T2 T3 T4 T5 T6 T7]. split; try done.
    + intros b. cbn [se_apps set_PerAppQueue set_se_apps s3]. 
      rewrite (insert_same ai_name (se_apps s2) a app' (setDropped true)) by done.
      unfold s2. cbn [se_apps set_se_apps]. by apply (insert_same ai_name _ _ app (setDropped true)).
    + intros n Hn. cbn. destruct (decide (n = ai_name app')) as [->|Hne]; [rewrite lookup_insert_eq; by eexists|].
      rewrite lookup_insert_ne; [exact (T7 n Hn)|]. intros Heq. apply Hne. symmetry. exact Heq.
  - intros _ s2 (Hst & Hrd & Hm & Hdr). unfold enqueue_completed.
    destruct (p_mod_monitor_run (fun s => set_cmpQ (cmpQ s ++ [r]) s) s2) as (s3 & E & Hm3 & _).
    eapply returns_intro; [reflexivity|]. rewrite <- Hm.
    split_and!; [|done|done|done]. etrans; [exact Hst|]. by split.
Qed.

(** The prefix of a queue that is late when its turn comes is reported. *)
Definition front_reported (ratio : spec_float) (s : St) (name : string) (q l : list nat) (n : nat) : Prop :=
  exists k, l = take k q /\
    forall j r, q !! j = Some r -> (j <= k)%nat -> (late ratio s name r (clock (n + j)) <-> (j < k)%nat).
Lemma drop_front_run ratio name q s : Forall (has_task s) q ->
  returns (drop_front clock ratio name q) s (fun _ s' => steady s s' /\
    exists l, cmpQ (mon s') = cmpQ (mon s) ++ l /\ Forall (dropped s') l /\
      (readings s + length l <= readings s')%nat /\ front_reported ratio s name q l (readings s)).
Proof.
  revert s. induction q as [|r q IH]; intros s Hq; cbn [drop_front].
  { eapply returns_intro; [reflexivity|]. split; [done|]. exists []. rewrite app_nil_r. split_and!; [done|done|cbn; lia|].
    exists 0%nat. split; [done|]. intros j r Hj. by rewrite lookup_nil in Hj. }
  apply Forall_cons in Hq as [Hr Hq].
  set (s1 := set_se_server (set_sv_reads (S (sv_reads (se_server s))) (se_server s)) s).
  assert (Hst1 : steady s s1) by by split.
  eapply returns_read; [reflexivity|]. fold s1. pose proof Hr as (x & _ & _ & Hx & _).
  eapply returns_read; [unfold rd_req; mred; cbn [se_reqs s1 set_se_server]; rewrite Hx; reflexivity|].
  eapply returns_read; [reflexivity|]. unfold zoom. 
  change (set_se_server (se_server s1) s1) with s1.
  change (sv_gs (se_server s1)) with (sv_gs (se_server s)).
  assert (Hlate : late ratio s name r (clock (readings s)) <->
    expired ratio (getSLO name (sv_gs (se_server s))) (queueing_ms (r_times x Start) (clock (readings s))) = true).
  { unfold late. split; [intros (y & Hy & H)|intros H; exists x; done]. rewrite Hx in Hy. by injection Hy as <-. }
  change (clock (sv_reads (se_server s))) with (clock (readings s)).
  destruct (expired _ _ _) eqn:E.
  - eapply returns_bind; [apply drop_request_run, (steady_task s); done|]. intros _ s2 (Hst2 & Hrd2 & Hc2 & Hd2).
    assert (Hst : steady s s2) by by etrans.
    eapply returns_weaken; [apply IH|].
    { eapply Forall_impl; [exact Hq|]. intros r'. by apply steady_task. }
    intros _ s' (Hst' & l & Hc & Hl & Hrd & k & -> & Hk). split; [by etrans|]. exists (r :: take k q).
    assert (Hrd1 : readings s2 = S (readings s)) by (rewrite Hrd2; done).
    split_and!.
    + rewrite Hc, Hc2. change (mon s1) with (mon s). by rewrite <- app_assoc.
    + constructor; [by apply (sd_drop _ _ Hst')|done].
    + cbn [length]. lia.
    + exists (S k). split; [done|]. intros [|j] r' Hj Hjk; cbn in Hj.
      * injection Hj as <-. rewrite Nat.add_0_r, Hlate. split; [lia|done].
      * rewrite <- (steady_late ratio s s2) by done. specialize (Hk j r' Hj ltac:(lia)).
        rewrite Hrd1 in Hk. replace (readings s + S j)%nat with (S (readings s) + j)%nat by lia. rewrite Hk. lia.
  - eapply returns_intro; [reflexivity|]. split; [done|]. exists []. rewrite app_nil_r.
    split_and!; [done|done|cbn; unfold readings; cbn; lia|]. exists 0%nat. split; [done|].
    intros j r' Hj Hjk. replace j with 0%nat in * by lia. cbn in Hj. injection Hj as <-.
    rewrite Nat.add_0_r, Hlate. split; [done|lia].
Qed.

(** C40: the dropping thread reports late requests and does not shorten the
    queues.  A pass always returns if queued requests belong to instances and the
    queues exist.  Of every queue it reports exactly the requests from the front
    up to the first that has not waited for more than [ratio] times its SLO, each
    judged at its own reading of the clock: they are marked dropped and appended
    to the completion queue, queue after queue.  But it pops them from copies:
    every queue is the same after the pass, so the next pass meets all of them
    again, with the same start times and SLOs, and reports again those it finds
    late. *)
Theorem lazy_drop_keeps_queues ratio (s : St) :
  droppable s ->
  returns (lazy_drop_pass clock ratio) s (fun _ s' =>
    table s' = table s /\ droppable s' /\
    (forall name r t, late ratio s' name r t <-> late ratio s name r t) /\
    exists reports, cmpQ (mon s') = cmpQ (mon s) ++ concat reports /\ Forall (dropped s') (concat reports) /\
      Forall2 (fun it l => exists n, (readings s <= n /\ n + length l <= readings s')%nat /\
        front_reported ratio s it.1 it.2 l n) (table s) reports).
Proof.
  intros Hok. unfold lazy_drop_pass. eapply returns_read; [apply p_monitor_run|].
  set (P := fun (done : list (string * list nat)) s' => steady s s' /\ (readings s <= readings s')%nat /\
    exists reports, cmpQ (mon s') = cmpQ (mon s) ++ concat reports /\ Forall (dropped s') (concat reports) /\
      Forall2 (fun it l => exists n, (readings s <= n /\ n + length l <= readings s')%nat /\
        front_reported ratio s it.1 it.2 l n) done reports).
  eapply returns_weaken; [apply (returns_for_each P)|].
  - intros pre [name q] s1 Hin (Hst & Hrd & reports & Hc & Hd & Hr). cbn [fst snd].
    assert (Hkeep : forall s2 l, steady s1 s2 -> (readings s1 + length l <= readings s2)%nat ->
      cmpQ (mon s2) = cmpQ (mon s1) ++ l -> Forall (dropped s2) l -> front_reported ratio s1 name q l (readings s1) ->
      P (pre ++ [(name, q)]) s2).
    { intros s2 l Hst2 Hrd2 Hc2 Hd2 (k & Hk & Hl). split; [by etrans|]. split; [lia|]. exists (reports ++ [l]).
      rewrite concat_app. cbn [concat]. rewrite app_nil_r. split_and!.
      - by rewrite Hc2, Hc, <- app_assoc.
      - apply Forall_app. split; [|done]. eapply Forall_impl; [exact Hd|]. apply (sd_drop _ _ Hst2).
      - apply Forall2_app.
        + eapply Forall2_impl; [exact Hr|]. intros it l' (n & Hn & Hf). exists n. split; [lia|done].
        + constructor; [|constructor]. exists (readings s1). split; [lia|]. exists k. split; [done|].
          intros j r Hj Hjk. rewrite <- (steady_late ratio s s1) by done. by apply Hl. }
    case_decide as Hne.
    { eapply returns_intro; [reflexivity|]. subst q. apply (Hkeep s1 []); [done|cbn; lia|by rewrite app_nil_r|done|].
      exists 0%nat. split; [done|]. intros j r Hj. by rewrite lookup_nil in Hj. }
    destruct (Hok name q Hin Hne) as [Hm Hq].
    eapply returns_read.
    { unfold has_mutex. rewrite (bind_done get _ s1 s1 s1) by done. rewrite decide_True; [reflexivity|].
      by rewrite (sd_mtx _ _ Hst). }
    eapply returns_weaken; [apply drop_front_run|].
    { eapply Forall_impl; [exact Hq|]. intros r. by apply steady_task. }
    intros _ s2 (Hst2 & l & Hc2 & Hd2 & Hrd2 & Hf). by apply (Hkeep s2 l).
  - split; [done|]. split; [lia|]. exists []. rewrite app_nil_r. split_and!; [done|constructor|constructor].
  - intros _ s' (Hst & _ & Hr). split_and!; [apply Hst|by apply (steady_droppable s)| |exact Hr].
    intros name r t. by apply steady_late.
Qed.
End PipelineProps.

(** ** Witnesses *)
#[local] Existing Instance rows_torch.

Lemma batch_turn_fifo_witness :
  match batch_turn demo_clock 3 "resnet50" 0 0 fzero 0 demo_batching with
  | Done (_, s') => exists batch', se_batches s' !! 0%nat = Some batch' /\
      taskRequests batch' ++ queue_of s' "resnet50" = [0; 1]%nat
  | Stop _ => False
  end.
Proof.
  apply run_returns; [vm_compute; reflexivity|]. intros [t s'] H.
  destruct (se_batches demo_batching !! 0%nat) as [batch|] eqn:E; [|vm_compute in E; discriminate].
  destruct (batch_turn_fifo demo_clock 3 "resnet50" 0 0 fzero 0 demo_batching t s' batch E) as (b' & H1 & _ & _ & H2 & _).
  - vm_compute in E. injection E as <-. split; [reflexivity|]. vm_compute. split; congruence.
  - assert (Hb : forallb (fun x => mBatchNum x =? 1)%Z (se_reqs demo_batching) = true) by (vm_compute; reflexivity).
    rewrite forallb_forall in Hb. apply Forall_forall. intros r _ x Hx.
    apply Z.eqb_eq, Hb, list_elem_of_In. by eapply list_elem_of_lookup_2.
  - exact H.
  - exists b'. split; [exact H1|]. rewrite H2. vm_compute in E. injection E as <-. vm_compute. reflexivity.
Defined.

(** A check that a state is [droppable]. *)
Definition has_task_b {Tensor} (s : Service Tensor) (r : nat) : bool :=
  match x ← se_reqs s !! r; a ← _task x; app ← se_apps s !! a; PerAppQueue s !! ai_name app with
  | Some _ => true
  | None => false
  end.
Definition droppable_b {Tensor} (s : Service Tensor) : bool :=
  forallb (fun it => match it.2 with [] => true | q => bool_decide (it.1 ∈ ReqMtxVec s) && forallb (has_task_b s) q end) (table s).
Lemma droppable_check {Tensor} (s : Service Tensor) : droppable_b s = true -> droppable s.
Proof.
  unfold droppable_b. rewrite forallb_forall. intros H name q Hin Hne.
  specialize (H (name, q) (proj1 (list_elem_of_In _ _) Hin)). cbn [fst snd] in H. destruct q as [|r q]; [done|].
  apply andb_true_iff in H as [Hm H]. split; [by apply bool_decide_eq_true in Hm|]. rewrite forallb_forall in H.
  apply Forall_forall. intros r' Hr'. specialize (H r' (proj1 (list_elem_of_In _ _) Hr')). unfold has_task_b in H.
  destruct (se_reqs s !! r') as [x|] eqn:Ex; [|done]. cbn in H. destruct (_task x) as [a|] eqn:Ea; [|done]. cbn in H.
  destruct (se_apps s !! a) as [app|] eqn:Eapp; [|done]. cbn in H.
  destruct (PerAppQueue s !! ai_name app) as [l|] eqn:El; [|done]. exists x, a, app. split_and!; done.
Qed.

(** Two requests with an SLO of 100 ms that wait for seconds, with the clock of
    [DemoServer], and for 1 and 2 milliseconds, with a clock of milliseconds: two
    passes report both twice, and a pass reports neither. *)
Local Abbreviation demo_pass := (lazy_drop_pass (Tensor := list Z) demo_clock (i2d 1)).
Definition ms_clock (n : nat) : Z := (Z.of_nat n * 1000000)%Z.
Lemma lazy_drop_keeps_queues_witness :
  returns demo_pass demo_queued (fun _ s1 => table s1 = table demo_queued /\ cmpQ (mon s1) = [0; 1]%nat /\
    Forall (dropped s1) [0; 1]%nat /\
    returns demo_pass s1 (fun _ s2 => table s2 = table demo_queued /\ cmpQ (mon s2) = [0; 1; 0; 1]%nat)) /\
  returns (lazy_drop_pass ms_clock (i2d 1)) demo_queued (fun _ s1 => cmpQ (mon s1) = []).
Proof.
  assert (Hok : droppable demo_queued) by (apply droppable_check; vm_compute; reflexivity).
  split.
  - eapply returns_weaken.
    + apply (returns_and _ _ _ (fun _ s1 => cmpQ (mon s1) = [0; 1]%nat /\
        returns demo_pass s1 (fun _ s2 => cmpQ (mon s2) = [0; 1; 0; 1]%nat))
        (lazy_drop_keeps_queues demo_clock (i2d 1) demo_queued Hok)).
      vm_compute. split; reflexivity.
    + intros _ s1 ((Ht & Hok1 & _ & reports & Hc & Hd & _) & Hc1 & Hv). split; [exact Ht|]. split; [exact Hc1|]. split.
      * rewrite Hc1 in Hc. assert (He : cmpQ (mon demo_queued) = []) by (vm_compute; reflexivity).
        rewrite He, app_nil_l in Hc. rewrite Hc. exact Hd.
      * eapply returns_weaken.
        { exact (returns_and _ _ _ _ (lazy_drop_keeps_queues demo_clock (i2d 1) s1 Hok1) Hv). }
        intros _ s2 ((Ht2 & _) & Hc2). split; [by rewrite Ht2, Ht|exact Hc2].
  - eapply returns_weaken.
    + apply (returns_and _ _ _ (fun _ s1 => cmpQ (mon s1) = [])
        (lazy_drop_keeps_queues ms_clock (i2d 1) demo_queued Hok)).
      vm_compute. reflexivity.
    + intros _ s1 [_ Hc]. exact Hc.
Defined.
