(* ===== verification/MapProps.v ===== *)
(** * Laws of [std::map]: the order of the keys, and what an update does to a map
    whose values are lists. *)
From Stdlib Require Import ZArith String Sorted Permutation OrderedTypeEx Lia.
From S2P Require Import Prelude CppStd.

(** ** The orders of the keys are strict and total *)
Class KeyOrderLaws (K : Type) `{KeyOrder K} : Prop := {
  key_irrefl : forall k, key_ltb k k = false;
  key_trans : forall a b c, key_ltb a b = true -> key_ltb b c = true -> key_ltb a c = true;
  key_total : forall a b, a <> b -> key_ltb a b = false -> key_ltb b a = true }.
#[global] Instance Z_key_laws : KeyOrderLaws Z.
Proof. split; unfold key_ltb, Z_key; intros; lia. Qed.
Lemma string_ltb_lt a b : String.ltb a b = true <-> String_as_OT.lt a b.
Proof.
  rewrite <- String_as_OT.cmp_lt. unfold String.ltb, String_as_OT.cmp. destruct (a ?= b)%string; naive_solver.
Qed.
#[global] Instance string_key_laws : KeyOrderLaws string.
Proof.
  split; unfold key_ltb, string_key.
  - intros k. apply not_true_is_false. intros H%string_ltb_lt. by apply (String_as_OT.lt_not_eq _ _ H).
  - intros a b c Hab%string_ltb_lt Hbc%string_ltb_lt. apply string_ltb_lt. by eapply String_as_OT.lt_trans.
  - intros a b Hne H. unfold String.ltb in *. rewrite String.compare_antisym.
    destruct (a ?= b)%string eqn:E; cbn; try done. by apply String.compare_eq_iff in E.
Qed.

Section OrderedMapLaws.
Context {K V : Type} `{KeyOrderLaws K} `{!EqDecision K}.
Implicit Types m : list (K * V).

(** The keys of a [std::map] are strictly increasing. *)
Definition om_sorted m : Prop := StronglySorted (fun a b => key_ltb a.1 b.1 = true) m.

Lemma om_set_lower k0 k v m : key_ltb k0 k = true -> Forall (fun e => key_ltb k0 e.1 = true) m ->
  Forall (fun e => key_ltb k0 e.1 = true) (om_set k v m).
Proof.
  intros Hk. induction m as [|[k' v'] m IH]; intros Hm; simpl.
  - by constructor.
  - inversion_clear Hm. case_decide; [by constructor|]. destruct (key_ltb k k'); repeat constructor; auto.
Qed.
Lemma om_set_sorted k v m : om_sorted m -> om_sorted (om_set k v m).
Proof.
  unfold om_sorted. induction m as [|[k' v'] m IH]; intros Hm; simpl; [by repeat constructor|].
  apply StronglySorted_inv in Hm as [Hm Hall]. case_decide as Hk; [subst; by constructor|].
  destruct (key_ltb k k') eqn:E.
  - constructor; [by constructor|]. constructor; [done|]. eapply Forall_impl; [exact Hall|].
    intros e He. by eapply key_trans.
  - constructor; [auto|]. apply om_set_lower; [|done]. by apply key_total.
Qed.
Lemma om_find_lower k m : Forall (fun e => key_ltb k e.1 = true) m -> om_find k m = None.
Proof.
  induction 1 as [|[k' v'] m Hk _ IH]; simpl; [done|]. rewrite decide_False; [done|].
  intros ->. cbn in Hk. by rewrite key_irrefl in Hk.
Qed.
Lemma om_find_in k v m : om_find k m = Some v -> (k, v) ∈ m.
Proof.
  induction m as [|[k' v'] m IH]; simpl; [done|]. case_decide; [intros [= ->]; subst; by left|]. right. auto.
Qed.

End OrderedMapLaws.
(** Updating one list of a map of lists. *)
Lemma om_set_concat {K A} `{KeyOrderLaws K} `{!EqDecision K} (k : K) (v : list A) m : om_sorted m ->
  concat (map snd (om_set k v m)) ++ default [] (om_find k m) ≡ₚ v ++ concat (map snd m).
Proof.
  unfold om_sorted. induction m as [|[k' v'] m IH]; intros Hm; simpl.
  - by rewrite !app_nil_r.
  - apply StronglySorted_inv in Hm as [Hm Hall]. case_decide as Hk; simpl.
    + subst. solve_Permutation.
    + destruct (key_ltb k k') eqn:E; simpl.
      * rewrite om_find_lower; [by rewrite app_nil_r|]. eapply Forall_impl; [exact Hall|].
        intros e He. by eapply key_trans.
      * rewrite <- app_assoc, IH by done. solve_Permutation.
Qed.
