(* ===== verification/ServiceInv.v ===== *)
(** * Where the requests of the service are

    The threads of the frontend as one step relation over [Pipeline], and the
    account of the requests over all its interleavings: each is in one queue, one
    batch, the completion queue or the log, never lost, and repeated only by the
    dropping thread, once for each of its reports. *)
From Stdlib Require Import ZArith SpecFloat String Sorted Permutation Lia.
From S2P Require Import Prelude CppFloat CppStd LatencyModel DevPerfModel SchedData SchedUtils SchedBase Json LoadBalancer SelfTuning AppModel AppProps SysState Control GlobalState GlobalSched Pipeline DemoServer PipelineProps MapProps.

(** ** The account of the requests *)

(** What the account looks at: the queues of the models, the completion queue,
    the batches with their models, the model of each request, and the models of
    the log. *)
Record View : Type := mkView {
  v_queues : list (string * list nat);
  v_done : list nat;
  v_batches : list (string * list nat);
  v_names : list string;
  v_log : list string }.

Definition set_v_queues x (v : View) : View := mkView x (v_done v) (v_batches v) (v_names v) (v_log v).
Definition set_v_done x (v : View) : View := mkView (v_queues v) x (v_batches v) (v_names v) (v_log v).
Definition set_v_batches x (v : View) : View := mkView (v_queues v) (v_done v) x (v_names v) (v_log v).
Definition set_v_log x (v : View) : View := mkView (v_queues v) (v_done v) (v_batches v) (v_names v) x.

Definition located (v : View) : list nat :=
  concat (map snd (v_queues v)) ++ concat (map snd (v_batches v)) ++ v_done v.
(** The requests of each list are for its model. *)
Definition typed (names : list string) (l : list (string * list nat)) : Prop :=
  forall name q, (name, q) ∈ l -> Forall (fun r => names !! r = Some name) q.

(** Every request is located once, apart from those a running step has taken
    ([held]) and those it has put into the completion queue while they are in
    their batch ([dup]); the log has the others, each under its model. *)
Record Account (held dup : list nat) (v : View) : Prop := mkAccount {
  acc_sorted : om_sorted (v_queues v);
  acc_once : exists logged, located v ++ held ++ logged ≡ₚ dup ++ seq 0 (length (v_names v)) /\
    map (fun r => v_names v !! r) logged = map Some (v_log v);
  acc_queues : typed (v_names v) (v_queues v);
  acc_batches : typed (v_names v) (v_batches v) }.

Definition v_push (name : string) (v : View) : View :=
  mkView (om_set name (default [] (om_find name (v_queues v)) ++ [length (v_names v)]) (v_queues v))
    (v_done v) (v_batches v) (v_names v ++ [name]) (v_log v).

Lemma concat_insert {A} (l : list (list A)) i x y : l !! i = Some x ->
  concat (<[i := y]> l) ++ x ≡ₚ y ++ concat l.
Proof.
  revert i. induction l as [|z l IH]; intros [|i] H; simpl in *; simplify_eq.
  - solve_Permutation.
  - rewrite <- app_assoc, IH by done. solve_Permutation.
Qed.

Lemma typed_app names more l : typed names l -> typed (names ++ more) l.
Proof.
  intros Ht name q Hq. eapply Forall_impl; [by apply Ht|]. intros r Hr. cbn. by apply lookup_app_l_Some.
Qed.
Lemma typed_set names name q l : Forall (fun r => names !! r = Some name) q -> typed names l ->
  typed names (om_set name q l).
Proof.
  intros Hq. induction l as [|[n' q'] l IH]; intros Hl; simpl.
  - intros n2 q2 [= -> ->]%list_elem_of_singleton. done.
  - assert (Hq' : Forall (fun r => names !! r = Some n') q') by (apply Hl; by left).
    assert (Hl' : typed names l) by (intros ? ? ?; apply Hl; by right).
    case_decide; subst; [|destruct (key_ltb _ _)];
      intros n2 q2 [[= -> ->]|Hin]%elem_of_cons; try done; [by apply Hl'|by apply Hl|by apply IH].
Qed.
Lemma typed_find names name l : typed names l ->
  Forall (fun r => names !! r = Some name) (default [] (om_find name l)).
Proof. intros Hl. destruct (om_find name l) as [q|] eqn:E; cbn; [|done]. by apply Hl, om_find_in. Qed.
Lemma typed_insert names (l : list (string * list nat)) b name q : typed names l ->
  Forall (fun r => names !! r = Some name) q -> typed names (<[b := (name, q)]> l).
Proof.
  intros Hl Hq n2 q2 Hin. apply list_elem_of_lookup in Hin as [i Hi].
  destruct (decide (i = b)) as [->|Hne].
  - assert (Hlt : (b < length l)%nat) by (rewrite <- (length_insert l b (name, q)); by eapply lookup_lt_Some).
    rewrite list_lookup_insert_eq in Hi by done. by injection Hi as <- <-.
  - rewrite list_lookup_insert_ne in Hi by done. apply Hl. by eapply list_elem_of_lookup_2.
Qed.

(** Equations between permutations, by counting each element. *)
Ltac perm_count :=
  apply (Permutation_count_occ Nat.eq_dec); let e := fresh in intros e;
  repeat match goal with
  | H : _ ≡ₚ _ |- _ =>
      let H' := fresh in
      pose proof (proj1 (Permutation_count_occ Nat.eq_dec _ _) H e) as H'; clear H
  end;
  repeat progress (rewrite ?count_occ_app in *; simpl in * );
  repeat match goal with |- context [if ?d then _ else _] => destruct d end; lia.

Lemma acc_queue_set held held' dup v name q : Account held dup v ->
  Forall (fun r => v_names v !! r = Some name) q ->
  q ++ held' ≡ₚ default [] (om_find name (v_queues v)) ++ held ->
  Account held' dup (set_v_queues (om_set name q (v_queues v)) v).
Proof.
  intros [Hs (logged & Hp & Hl) Hq Hb] Hname Hh.
  pose proof (om_set_concat name q (v_queues v) Hs) as Hc. unfold located in Hp.
  constructor; [by apply om_set_sorted| |by apply typed_set|done].
  exists logged. split; [|done]. unfold located. cbn. perm_count.
Qed.

Lemma acc_fresh held dup v name : Account held dup v ->
  Account (length (v_names v) :: held) dup
    (mkView (v_queues v) (v_done v) (v_batches v) (v_names v ++ [name]) (v_log v)).
Proof.
  intros [Hs (logged & Hp & Hl) Hq Hb]. constructor; cbn; [done| |by apply typed_app..].
  exists logged. rewrite length_app, seq_app. cbn. split.
  - unfold located in *. cbn. perm_count.
  - rewrite <- Hl. apply map_ext_in. intros r Hr. apply lookup_app_l.
    apply in_map with (f := fun r => v_names v !! r) in Hr. rewrite Hl in Hr.
    apply in_map_iff in Hr as (x & E & _). symmetry in E. by apply lookup_lt_Some in E.
Qed.

Lemma acc_push held dup v name : Account held dup v -> Account held dup (v_push name v).
Proof.
  intros Hv. pose proof (acc_queues _ _ _ Hv) as Hq.
  apply (acc_fresh _ _ _ name) in Hv.
  refine (acc_queue_set _ _ _ _ name (default [] (om_find name (v_queues v)) ++ [length (v_names v)]) Hv _ _).
  - apply Forall_app. split.
    + apply typed_find, typed_app, Hq.
    + repeat constructor. cbn. by rewrite list_lookup_middle.
  - cbn. solve_Permutation.
Qed.

Lemma acc_batch_set held held' dup dup' v b name l l' : Account held dup v ->
  v_batches v !! b = Some (name, l) -> Forall (fun r => v_names v !! r = Some name) l' ->
  l' ++ held' ++ dup ≡ₚ l ++ held ++ dup' ->
  Account held' dup' (set_v_batches (<[b := (name, l')]> (v_batches v)) v).
Proof.
  intros [Hs (logged & Hp & Hl) Hq Hb] Hat Hname Hh.
  assert (Hc : concat (map snd (<[b := (name, l')]> (v_batches v))) ++ l ≡ₚ l' ++ concat (map snd (v_batches v))).
  { change (map snd) with (fmap (M := list) (@snd string (list nat))). rewrite list_fmap_insert.
    apply concat_insert. by rewrite list_lookup_fmap, Hat. }
  constructor; [done| |done|by apply typed_insert].
  exists logged. split; [|done]. unfold located in *. cbn. perm_count.
Qed.

Lemma acc_new_batch held dup v name : Account held dup v ->
  Account held dup (set_v_batches (v_batches v ++ [(name, [])]) v).
Proof.
  intros [Hs (logged & Hp & Hl) Hq Hb]. constructor; [done| |done|].
  - exists logged. split; [|done]. unfold located in *. cbn. rewrite map_app, concat_app. cbn. perm_count.
  - intros n q [Hin|[= -> ->]%list_elem_of_singleton]%elem_of_app; [by apply Hb|done].
Qed.

Lemma acc_done held held' dup dup' v q : Account held dup v ->
  q ++ held' ++ dup ≡ₚ v_done v ++ held ++ dup' -> Account held' dup' (set_v_done q v).
Proof.
  intros [Hs (logged & Hp & Hl) Hq Hb] Hh. constructor; [done| |done..].
  exists logged. split; [|done]. unfold located in *. cbn. perm_count.
Qed.

Lemma acc_logged r dup v name : Account [r] dup v -> v_names v !! r = Some name ->
  Account [] dup (set_v_log (v_log v ++ [name]) v).
Proof.
  intros [Hs (logged & Hp & Hl) Hq Hb] Hr. constructor; [done| |done..].
  exists (logged ++ [r]). change (located (set_v_log _ v)) with (located v). split; [perm_count|].
  cbn. rewrite !map_app, Hl. cbn. by rewrite Hr.
Qed.

Section ServiceInv.
Context {Tensor : Type} `{!Torch Tensor}.
Context (clock : nat -> Z).
Local Abbreviation St := (Service Tensor).

Definition batch_view (b : batched_request Tensor) : string * list nat := (_StrReqName b, taskRequests b).
(** The name a log line starts with. *)
Definition line_name (l : log_line) : string := let '(name, _, _, _, _) := l in name.
Definition view (s : St) : View :=
  mkView (table s) (cmpQ (mon s)) (map batch_view (se_batches s)) (map mReqName (se_reqs s))
    (map line_name (se_log s)).

(** ** Steps the account does not see *)
Definition still (s s' : St) : Prop := view s' = view s.
#[local] Instance still_preorder : PreOrder still.
Proof. split; unfold still; repeat intro; congruence. Qed.

(** Steps of the server that leave the queues of requests alone. *)
Definition same_queues (a b : Server) : Prop :=
  ReqListHashTable (f_sys (fe_front (sv_fe b))) = ReqListHashTable (f_sys (fe_front (sv_fe a))) /\
  cmpQ (f_sys (fe_front (sv_fe b))) = cmpQ (f_sys (fe_front (sv_fe a))).
#[local] Instance same_queues_preorder : PreOrder same_queues.
Proof. split; [done|]. intros a b c [??] [??]. split; congruence. Qed.

Lemma still_on_server {A} (m : GM A) : preserves same_queues m -> preserves still (on_server m : M St A).
Proof.
  apply preserves_zoom. intros s t [Ht Hc]. unfold still, view, table, mon. cbn. by rewrite Ht, Hc.
Qed.
Lemma still_fe {A} (m : GM A) : preserves same_fe m -> preserves still (on_server m : M St A).
Proof. intros Hm. apply still_on_server. eapply preserves_mono; [|exact Hm]. unfold same_fe, same_queues. intros a b ->. done. Qed.
Lemma still_now : preserves still (now clock : M St Z).
Proof. apply still_fe. intros s a s' H. by injection H as _ <-. Qed.
Lemma still_gs : preserves still (on_server gs : M St _).
Proof. apply still_fe. intros s a s' H. by injection H as _ <-. Qed.
Lemma still_monitor : preserves still (p_monitor : M St _).
Proof. intros s m s' H. apply p_monitor_inv in H as [_ ->]. done. Qed.
Lemma still_model_id name : preserves still (on_server (on_sched (SchedBase.getModelID name)) : M St Z).
Proof. apply still_fe, preserves_on_sched. Qed.
Lemma still_quiet {A} (m : M St A) : preserves quiet m -> (forall s a s', m s = Done (a, s') -> se_log s' = se_log s) ->
  preserves still m.
Proof.
  intros Hm Hl s a s' H. destruct (Hm _ _ _ H) as (Hmon & Hb & Hr & _). unfold still, view, table.
  by rewrite Hmon, Hb, Hr, (Hl _ _ _ H).
Qed.
Lemma still_checkLoad id p : preserves still (on_server (gs_checkLoad id p) : M St bool).
Proof.
  apply still_quiet; [apply quiet_checkLoad|]. intros s a s' H. unfold on_server, zoom in H.
  destruct (gs_checkLoad _ _ _) as [[??]|]; [|done]. by injection H as _ <-.
Qed.
Lemma still_p_rd p : preserves still (p_rd p : M St ProxyInfo).
Proof. apply still_fe, rd_quiet. Qed.
Lemma still_p_wr p f : preserves still (p_wr p f : M St unit).
Proof.
  apply still_on_server. intros s a s' H. unfold wr, on_fe, zoom, fe_wr, fe_on_front, zoom, wr_proxy in H. mred.
  destruct (_ !! p); [|done]. injection H as _ <-. done.
Qed.
Lemma still_mod_monitor (f : SysMonitor -> SysMonitor) :
  (forall m, ReqListHashTable (f m) = ReqListHashTable m /\ cmpQ (f m) = cmpQ m) ->
  preserves still (p_mod_monitor f : M St unit).
Proof. intros Hf. apply still_on_server. intros s a s' H. injection H as _ <-. cbn. apply Hf. Qed.
Lemma still_rd_app a : preserves still (rd_app a : M St _).
Proof. intros s x s' H. unfold rd_app in H. by minv H. Qed.
Lemma still_wr_app a f : preserves still (wr_app a f : M St unit).
Proof. intros s x s' H. unfold wr_app in H. by minv H. Qed.
Lemma still_new_app x : preserves still (new_app x : M St _).
Proof. intros s a s' H. unfold new_app in H. by minv H. Qed.
Lemma still_rd_req r : preserves still (rd_req r : M St _).
Proof. intros s x s' H. by apply rd_req_inv in H as [_ ->]. Qed.
Lemma still_rd_batch b : preserves still (rd_batch b : M St _).
Proof. intros s x s' H. by apply rd_batch_inv in H as [_ ->]. Qed.
Lemma still_has_mutex name : preserves still (has_mutex name : M St _).
Proof. intros s x s' H. by apply has_mutex_inv in H as ->. Qed.
Lemma still_wr_req r f : (forall x, mReqName (f x) = mReqName x) -> preserves still (wr_req r f : M St _).
Proof.
  intros Hf s u s' H. apply wr_req_inv in H as (x & Hx & ->). unfold still, view. cbn. f_equal.
  change (map mReqName) with (fmap (M := list) (mReqName (Tensor := Tensor))). rewrite list_fmap_insert, Hf.
  apply list_insert_id. by rewrite list_lookup_fmap, Hx.
Qed.
Lemma still_indet : preserves still (indet : M St _).
Proof. intros s i s' H. by injection H as _ <-. Qed.
Lemma still_gets_st {A} (f : St -> A) : preserves still (gets f).
Proof. intros s i s' H. by injection H as _ <-. Qed.
#[local] Hint Resolve still_now still_gs still_monitor still_model_id still_checkLoad still_p_rd still_p_wr
  still_rd_app still_wr_app still_new_app still_rd_req still_rd_batch still_has_mutex still_indet : frame.
Lemma still_stamp r st : preserves still (stamp clock r st : M St _).
Proof. unfold stamp. preserve. by apply still_wr_req. Qed.
Lemma still_app_of r : preserves still (app_of r : M St _).
Proof. unfold app_of. preserve. Qed.
Lemma still_app_spec a : preserves still (app_spec a : M St _).
Proof. unfold app_spec. preserve. Qed.
#[local] Hint Resolve still_stamp still_app_of still_app_spec : frame.
Lemma still_get_put {A} (g : St -> outcome A) (f : A -> St -> St) :
  (forall x s, view (f x s) = view s) ->
  preserves still (s ← get; x ← lift (g s); put (f x s)).
Proof. intros Hf s u s' H. minv H. subst. apply Hf. Qed.
Lemma still_addtoAppQueue a d : preserves still (addtoAppQueue a d : M St _).
Proof.
  unfold addtoAppQueue. apply preserves_bind; [typeclasses eauto|apply still_rd_app|]. intros app.
  apply preserves_bind; [typeclasses eauto|apply still_wr_app|]. intros _. by apply still_get_put.
Qed.
Lemma still_setOutputTensor r t : preserves still (setOutputTensor r t : M St _).
Proof. unfold setOutputTensor, setFinished. preserve. Qed.
Lemma still_allocateOutput b t : preserves still (allocateOutput b t : M St _).
Proof. unfold allocateOutput. preserve. apply still_setOutputTensor. Qed.
Lemma still_isAppFinished r : preserves still (isAppFinished r : M St _).
Proof. unfold isAppFinished. preserve. Qed.
#[local] Hint Resolve still_addtoAppQueue still_allocateOutput still_isAppFinished : frame.
(** The first part of a bind is no step for the account. *)
Ltac pstep := apply preserves_bind; [typeclasses eauto|solve [preserve]|intros ?].
Lemma still_sendBatchedRequest b name p : preserves still (sendBatchedRequest clock b name p : M St _).
Proof.
  unfold sendBatchedRequest. do 5 pstep.
  apply preserves_get_bind. intros s u s' H. apply bind_inv in H as (q & s1 & [_ ->]%lift_inv & H).
  apply bind_inv in H as (u1 & s1 & ->%put_inv & H).
  apply bind_inv in H as (m & s1 & [_ ->]%p_monitor_inv & H). by apply modify_inv in H as ->.
Qed.
Lemma still_initApp_step name : preserves still (initApp_step name : M St _).
Proof.
  unfold initApp_step. apply preserves_get_bind. intros s u s' H.
  apply bind_inv in H as (q & s1 & [_ ->]%lift_inv & H). destruct q as [|a q]; [by apply ret_inv in H as [_ ->]|].
  apply bind_inv in H as (u1 & s1 & ->%put_inv & H).
  apply bind_inv in H as (app & s1 & E & H). apply still_rd_app in E.
  apply bind_inv in H as (u2 & s2 & ->%modify_inv & H). by apply ret_inv in H as [_ ->].
Qed.
Lemma still_take_task p : preserves still (take_task p : M St _).
Proof. unfold take_task. preserve. by apply still_mod_monitor. Qed.
#[local] Hint Resolve still_sendBatchedRequest : frame.
Lemma still_end_batch p name b : preserves still (end_batch clock p name b : M St _).
Proof. unfold end_batch. preserve. by apply still_wr_req. Qed.

(** ** Steps that move requests *)
Lemma view_push name r (s : St) u s' : push_request name r s = Done (u, s') ->
  view s' = set_v_queues (om_set name (default [] (om_find name (table s)) ++ [r]) (table s)) (view s).
Proof.
  intros H. unfold push_request in H. apply bind_inv in H as (u1 & s1 & ->%has_mutex_inv & H).
  by injection H as _ <-.
Qed.

Lemma new_req_inv x (s : St) r s' : new_req x s = Done (r, s') ->
  r = length (se_reqs s) /\ s' = set_se_reqs (se_reqs s ++ [x]) s.
Proof. intros H. by injection H as <- <-. Qed.
Lemma setReqName_inv name (x : request Tensor) y : setReqName name x = Done y -> mReqName y = name.
Proof. unfold setReqName. destruct (_ <? _)%Z; [|done]. by intros [= <-]. Qed.
Lemma view_wr_req r f (s : St) u s' name : wr_req r f s = Done (u, s') -> (forall x, mReqName (f x) = name) ->
  view s' = mkView (table s) (cmpQ (mon s)) (map batch_view (se_batches s))
    (<[r := name]> (map mReqName (se_reqs s))) (map line_name (se_log s)).
Proof.
  intros H Hf. apply wr_req_inv in H as (x & Hx & ->). unfold view. cbn. f_equal.
  change (map mReqName) with (fmap (M := list) (mReqName (Tensor := Tensor))). by rewrite list_fmap_insert, Hf.
Qed.

(** A new request is queued under its name. *)
Lemma view_addtoModelQueue name t cgid a (s : St) u s' : addtoModelQueue clock name t cgid a s = Done (u, s') ->
  view s' = v_push name (view s).
Proof.
  intros H. unfold addtoModelQueue in H.
  apply bind_inv in H as (app & s1 & E1%still_rd_app & H).
  apply bind_inv in H as (m & s2 & E2%still_monitor & H).
  apply bind_inv in H as (u1 & s3 & E3 & H).
  assert (E3' : still s2 s3).
  { refine (preserves_when still _ _ _ _ _ _ E3). by apply still_mod_monitor. }
  assert (E : view s3 = view s) by (unfold still in *; congruence). clear E1 E2 E3 E3'.
  apply bind_inv in H as (s0 & s4 & [-> ->]%get_inv & H). cbv zeta in H.
  apply bind_inv in H as (u2 & s4 & ->%put_inv & H).
  apply bind_inv in H as (i & s5 & Hi & H). injection Hi as _ <-.
  apply bind_inv in H as (r & s4 & [Hr ->]%new_req_inv & H).
  assert (Hr' : r = length (v_names (view s))).
  { rewrite Hr, <- E. cbn. by rewrite length_map. }
  clear Hr.
  apply bind_inv in H as (u3 & s5 & Hst%still_stamp & H).
  apply bind_inv in H as (u4 & s6 & Hw & H). apply still_wr_req in Hw; [|done].
  apply bind_inv in H as (x & s7 & [Hx ->]%rd_req_inv & H).
  apply bind_inv in H as (y & s7 & [Hy%setReqName_inv ->]%lift_inv & H).
  apply bind_inv in H as (u5 & s7 & Hname & H). apply (view_wr_req _ _ _ _ _ name) in Hname; [|done].
  apply bind_inv in H as (u6 & s8 & Hpush%view_push & H). apply modify_inv in H as ->.
  assert (E6 : view s6 = mkView (v_queues (view s)) (v_done (view s)) (v_batches (view s))
      (v_names (view s) ++ [""%string]) (v_log (view s))).
  { rewrite <- E. transitivity (view s5); [done|]. etransitivity; [exact Hst|].
    unfold view. cbn. by rewrite map_app. }
  change (view s8 = v_push name (view s)). rewrite Hpush.
  assert (Ht : table s7 = v_queues (view s7)) by done. rewrite Ht, Hname. clear Ht.
  assert (Hq : table s6 = v_queues (view s6)) by done.
  assert (Hd : cmpQ (mon s6) = v_done (view s6)) by done.
  assert (Hb : map batch_view (se_batches s6) = v_batches (view s6)) by done.
  assert (Hn : map mReqName (se_reqs s6) = v_names (view s6)) by done.
  assert (Hl : map line_name (se_log s6) = v_log (view s6)) by done.
  rewrite Hq, Hd, Hb, Hn, Hl, E6. cbn. unfold v_push, set_v_queues. cbn.
  subst r. cbn. f_equal. by rewrite insert_app_r_alt, Nat.sub_diag by done.
Qed.

(** The account as an invariant of a run. *)
Definition Acc (held dup : list nat) (s : St) : Prop := Account held dup (view s).
Lemma acc_still {A} held dup (m : M St A) : preserves still m -> keeping (Acc held dup) m any.
Proof. intros Hm s a s' Hs H. apply Hm in H. split; [|done]. unfold Acc. by rewrite H. Qed.
Lemma acc_addtoModelQueue held dup name t cgid a :
  keeping (Acc held dup) (addtoModelQueue clock name t cgid a) any.
Proof. intros s u s' Hs H%view_addtoModelQueue. split; [|done]. unfold Acc. rewrite H. by apply acc_push. Qed.
Lemma acc_new_batch_step held dup p task : keeping (Acc held dup) (begin_batch clock p task) any.
Proof.
  intros s b s' Hs H. unfold begin_batch in H.
  apply bind_inv in H as (u1 & s1 & E1%still_now & H).
  apply bind_inv in H as (u2 & s2 & E2%still_p_wr & H).
  apply bind_inv in H as (u3 & s3 & E3%still_now & H).
  apply bind_inv in H as (i & s4 & E4%still_indet & H).
  apply bind_inv in H as (s0 & s5 & [-> ->]%get_inv & H).
  apply bind_inv in H as (u4 & s5 & ->%put_inv & H). injection H as _ <-. split; [|done].
  assert (E : view s4 = view s) by (unfold still in *; congruence).
  unfold Acc in *. rewrite <- E in Hs. apply (acc_new_batch _ _ _ (ReqName task)) in Hs.
  unfold view in *. cbn in *. by rewrite map_app.
Qed.

(** The run completes requests of a batch: those in [dup] are in the completion
    queue too, and the batches stay as they are. *)
Definition Completing (B : list (string * list nat)) (dup : list nat) (s : St) : Prop :=
  Acc [] dup s /\ v_batches (view s) = B.
Lemma completing_still {A} B dup (m : M St A) : preserves still m -> keeping (Completing B dup) m any.
Proof. intros Hm s a s' [Hs Hb] H. apply Hm in H. split; [|done]. unfold Completing, Acc. by rewrite H. Qed.
Lemma completing_add B dup name t cgid a :
  keeping (Completing B dup) (addtoModelQueue clock name t cgid a) any.
Proof.
  intros s u s' [Hs Hb] H. split; [|done]. split; [by eapply acc_addtoModelQueue|].
  apply view_addtoModelQueue in H. by rewrite H.
Qed.
Lemma completing_forward B dup r : keeping (Completing B dup) (forward_request clock r) any.
Proof.
  pose proof (completing_add B dup). 
  assert (Hrd : keeping (Completing B dup) (rd_req r) any) by (apply completing_still, still_rd_req).
  assert (Hap : keeping (Completing B dup) (app_of r) any) by (apply completing_still, still_app_of).
  assert (Hmo : keeping (Completing B dup) p_monitor any) by (apply completing_still, still_monitor).
  assert (Hsp : forall a, keeping (Completing B dup) (app_spec a) any) by (intros; apply completing_still, still_app_spec).
  assert (Hra : forall a, keeping (Completing B dup) (rd_app a) any) by (intros; apply completing_still, still_rd_app).
  unfold forward_request. keep.
Qed.
Lemma completing_complete B dup name r (s : St) u s' : Completing B dup s ->
  complete_request clock name r s = Done (u, s') -> Completing B (r :: dup) s'.
Proof.
  intros Hs H. unfold complete_request in H.
  apply bind_inv in H as (u1 & s1 & E1%still_stamp & H).
  apply bind_inv in H as (m & s2 & E2%still_monitor & H).
  apply bind_inv in H as (x & s3 & E3%still_rd_req & H).
  apply bind_inv in H as (g & s4 & E4%still_gs & H).
  apply bind_inv in H as (u2 & s5 & E5 & H).
  assert (E5' : still s4 s5).
  { refine (preserves_when still _ _ _ _ _ _ E5). by apply still_mod_monitor. }
  assert (E : view s5 = view s) by (unfold still in *; congruence).
  apply bind_inv in H as (u3 & s6 & E6 & H).
  assert (Hs6 : Completing B (r :: dup) s6).
  { injection E6 as _ <-. destruct Hs as [Hs Hb]. unfold Completing, Acc in *. rewrite <- E in Hs, Hb.
    split; [|exact Hb]. refine (acc_done [] [] dup (r :: dup) (view s5) (cmpQ (mon s5) ++ [r]) Hs _).
    change (v_done (view s5)) with (cmpQ (mon s5)). solve_Permutation. }
  apply bind_inv in H as (fin & s7 & E7%still_isAppFinished & H).
  assert (Hs7 : Completing B (r :: dup) s7) by (unfold Completing, Acc in *; by rewrite E7).
  clear - Hs7 H. destruct fin; [|by eapply completing_forward].
  eapply completing_still; [|exact Hs7|exact H]. preserve.
Qed.
Lemma completing_all B name l dup (s : St) u s' : Completing B dup s ->
  for_each l (complete_request clock name) s = Done (u, s') -> Completing B (rev l ++ dup) s'.
Proof.
  revert dup s. induction l as [|r l IH]; intros dup s Hs H; cbn in H.
  - by apply ret_inv in H as [_ ->].
  - apply bind_inv in H as (u1 & s1 & E & H). eapply completing_complete in E; [|done].
    cbn. rewrite <- app_assoc. by eapply IH.
Qed.

Lemma view_wr_batch b x (s : St) u s' : wr_batch b x s = Done (u, s') ->
  view s' = set_v_batches (<[b := batch_view x]> (v_batches (view s))) (view s).
Proof.
  intros ->%wr_batch_inv. unfold view, set_v_batches. cbn. f_equal. apply (list_fmap_insert batch_view).
Qed.
Lemma view_batch b x (s : St) : se_batches s !! b = Some x -> v_batches (view s) !! b = Some (batch_view x).
Proof. intros H. cbn. change (map batch_view) with (fmap (M := list) batch_view). by rewrite list_lookup_fmap, H. Qed.

Section Reported.
Context (reported : list nat).

(** The results of a batch leave it. *)
Lemma acc_sendBatchedResults b name p : keeping (Acc [] reported) (sendBatchedResults clock b name p) any.
Proof.
  intros s u s' Hs H. split; [|done]. unfold sendBatchedResults in H.
  apply bind_inv in H as (batch & s1 & [Hb ->]%rd_batch_inv & H).
  apply bind_inv in H as (u1 & s1 & E1%still_p_wr & H).
  apply bind_inv in H as (u2 & s2 & E2 & H).
  assert (Hs1 : Completing (v_batches (view s)) reported s1) by (unfold Completing, Acc in *; by rewrite E1).
  apply (completing_all _ _ _ _ _ _ _ Hs1) in E2 as [Hs2 Hb2].
  apply bind_inv in H as (batch' & s3 & [Hb' ->]%rd_batch_inv & H).
  pose proof (view_batch _ _ _ Hb) as Hv. pose proof (view_batch _ _ _ Hb') as Hv'.
  rewrite Hb2, Hv in Hv'. injection Hv' as Hname Hreqs.
  apply view_wr_batch in H. unfold Acc in *. rewrite H. unfold batch_view at 1. cbn [_StrReqName taskRequests].
  eapply acc_batch_set; [exact Hs2|rewrite Hb2, Hv; unfold batch_view; by rewrite Hname|..].
  - rewrite <- Hreqs. unfold getNTask. by rewrite drop_all.
  - rewrite <- Hreqs. unfold getNTask. rewrite drop_all, !app_nil_l. by rewrite <- (Permutation_rev (taskRequests batch)).
Qed.

(** A result: the batch at the front of the queue of the proxy is completed. *)
Lemma acc_initOutput_step result p : keeping (Acc [] reported) (initOutput_step clock result p) any.
Proof.
  intros s u s' Hs H. split; [|done]. unfold initOutput_step in H.
  apply bind_inv in H as (s0 & s1 & [-> ->]%get_inv & H).
  apply bind_inv in H as (q & s1 & [_ ->]%lift_inv & H). destruct q as [|b q]; [by apply ret_inv in H as [_ ->]|].
  apply bind_inv in H as (u1 & s1 & ->%put_inv & H).
  assert (Hs1 : Acc [] reported (set_PerProxyOutputQueue (<[p:=q]> (PerProxyOutputQueue s)) s)) by exact Hs.
  revert Hs1 H. generalize (set_PerProxyOutputQueue (<[p:=q]> (PerProxyOutputQueue s)) s). clear. intros s Hs H.
  revert s u s' Hs H. 
  assert (Hk : keeping (Acc [] reported) (
    batch ← rd_batch b;
    let strReqName := _StrReqName batch in
    let output := result (b_BatchID batch) in
    _ ← p_wr p (add_exec (-1) strReqName);
    _ ← for_each (taskRequests batch) (fun r => stamp clock r EndExec);
    _ ← allocateOutput b output;
    _ ← sendBatchedResults clock b strReqName p;
    mret true) any).
  { apply keeping_bind with (Q1 := any); [apply acc_still, still_rd_batch|]. intros batch _. cbv zeta.
    apply keeping_bind with (Q1 := any); [apply acc_still, still_p_wr|]. intros _ _.
    apply keeping_bind with (Q1 := any); [apply acc_still; preserve|]. intros _ _.
    apply keeping_bind with (Q1 := any); [apply acc_still; preserve|]. intros _ _.
    apply keeping_bind with (Q1 := any); [apply acc_sendBatchedResults|]. intros _ _. by apply keeping_ret. }
  intros s u s' Hs H. by eapply Hk.
Qed.

Lemma addRequestInfo_view r x (b b' : batched_request Tensor) : addRequestInfo r x b = Done b' ->
  batch_view b' = (_StrReqName b, taskRequests b ++ [r]).
Proof.
  unfold addRequestInfo. destruct (_ <? _)%Z; [done|]. intros H.
  apply obind_inv in H as (input & _ & H). apply obind_inv in H as (c & _ & H). by injection H as <-.
Qed.
(** The batch [b] is for the model [name]. *)
Definition batch_for (b : nat) (name : string) (s : St) : Prop :=
  exists l, v_batches (view s) !! b = Some (name, l).

Lemma acc_pop_request p name b dev (s : St) t s' : Acc [] reported s -> batch_for b name s ->
  pop_request clock p name b dev s = Done (t, s') -> Acc [] reported s'.
Proof.
  intros Hs [l Hb] H. unfold pop_request in H.
  apply bind_inv in H as (u1 & s1 & ->%has_mutex_inv & H).
  apply bind_inv in H as (m & s1 & [-> ->]%p_monitor_inv & H).
  destruct (getRequestQueueofNet name (mon s)) as [|r q] eqn:Eq; [by apply ret_inv in H as [_ ->]|].
  assert (Hfind : om_find name (v_queues (view s)) = Some (r :: q)).
  { cbn. unfold getRequestQueueofNet in Eq. unfold table. by destruct (om_find _ _); cbn in Eq; [subst|]. }
  pose proof (typed_find _ name _ (acc_queues _ _ _ Hs)) as Hnames. rewrite Hfind in Hnames. cbn [default from_option id] in Hnames.
  apply Forall_cons in Hnames as [Hr Hq].
  apply bind_inv in H as (u2 & s1 & E0 & H).
  assert (E1 : view s1 = set_v_queues (om_set name q (v_queues (view s))) (view s)) by (by injection E0 as _ <-).
  assert (Hs1 : Acc [r] reported s1).
  { unfold Acc. rewrite E1. eapply acc_queue_set; [exact Hs|exact Hq|]. rewrite Hfind. cbn. solve_Permutation. }
  apply bind_inv in H as (u3 & s2 & E2 & H). apply still_wr_req in E2; [|done].
  apply bind_inv in H as (u4 & s3 & E3%still_stamp & H).
  apply bind_inv in H as (x & s4 & [_ ->]%rd_req_inv & H).
  apply bind_inv in H as (batch & s4 & [Hat ->]%rd_batch_inv & H).
  apply bind_inv in H as (batch' & s4 & [Hadd ->]%lift_inv & H).
  apply bind_inv in H as (u5 & s4 & Hw & H). apply ret_inv in H as [_ ->].
  assert (E : view s3 = view s1) by (unfold still in *; congruence).
  apply view_wr_batch in Hw. rewrite (addRequestInfo_view _ _ _ _ Hadd) in Hw.
  apply view_batch in Hat. pose proof Hat as Hat'. rewrite E, E1 in Hat'. cbn [v_batches set_v_queues] in Hat'.
  rewrite Hb in Hat'. injection Hat' as Hname Hl.
  unfold Acc in *. rewrite <- E in Hs1. rewrite Hw.
  assert (Hrn : v_names (view s3) !! r = Some (_StrReqName batch)) by (rewrite E, E1, <- Hname; exact Hr).
  eapply acc_batch_set; [exact Hs1|exact Hat|..].
  - apply Forall_app. split; [|by constructor].
    apply (acc_batches _ _ _ Hs1). by eapply list_elem_of_lookup_2.
  - cbn. solve_Permutation.
Qed.

Lemma acc_batch_turn p name b dev maxdelay start (s : St) t s' : Acc [] reported s -> batch_for b name s ->
  batch_turn clock p name b dev maxdelay start s = Done (t, s') -> Acc [] reported s'.
Proof.
  intros Hs Hb H. unfold batch_turn in H.
  apply bind_inv in H as (batch & s1 & [_ ->]%rd_batch_inv & H).
  destruct (negb _); [by apply ret_inv in H as [_ ->]|].
  apply bind_inv in H as (tm & s1 & E1%still_now & H).
  assert (Hs1 : Acc [] reported s1 /\ batch_for b name s1) by (unfold Acc, batch_for; by rewrite E1). clear E1 Hs Hb.
  destruct (_ && _); [apply ret_inv in H as [_ ->]; apply Hs1|].
  apply bind_inv in H as (m & s2 & [-> ->]%p_monitor_inv & H). case_decide.
  { destruct (feqb _ _); [|destruct (geb _ _)]; apply ret_inv in H as [_ ->]; apply Hs1. }
  apply bind_inv in H as (id & s2 & E2%still_model_id & H).
  apply bind_inv in H as (ok & s3 & E3%still_checkLoad & H).
  apply bind_inv in H as (m & s4 & [-> ->]%p_monitor_inv & H).
  assert (E : view s3 = view s1) by (unfold still in *; congruence).
  destruct Hs1 as [Hs1 Hb1]. unfold Acc, batch_for in Hs1, Hb1. rewrite <- E in Hs1, Hb1.
  destruct (_ && _); [by apply ret_inv in H as [_ ->]|]. by eapply acc_pop_request.
Qed.

Lemma acc_initSend_step : keeping (Acc [] reported) (initSend_step clock) any.
Proof.
  intros s u s' Hs H. split; [|done]. unfold initSend_step in H.
  apply bind_inv in H as (m & s1 & [-> ->]%p_monitor_inv & H).
  destruct (cmpQ (mon s)) as [|r q] eqn:Eq; [by apply ret_inv in H as [_ ->]|].
  apply bind_inv in H as (u1 & s1 & E0 & H).
  assert (Hs1 : Acc [r] reported s1).
  { injection E0 as _ <-. refine (acc_done _ _ _ _ (view s) q Hs _).
    change (v_done (view s)) with (cmpQ (mon s)). rewrite Eq. cbn. solve_Permutation. }
  apply bind_inv in H as (u2 & s2 & E1%still_stamp & H).
  apply bind_inv in H as (x & s3 & [Hx ->]%rd_req_inv & H).
  destruct (r_writeToLog x) as [y line] eqn:El.
  assert (Hn : mReqName y = mReqName x /\ line_name line = mReqName x).
  { unfold r_writeToLog in El. injection El as <- <-. by destruct (_drop x). }
  apply bind_inv in H as (u3 & s3 & E2 & H).
  assert (E3 : view s3 = view s1).
  { rewrite <- E1. apply (view_wr_req _ _ _ _ _ (mReqName x)) in E2; [|by destruct Hn].
    rewrite E2. unfold view. f_equal. apply list_insert_id.
    change (map mReqName) with (fmap (M := list) (mReqName (Tensor := Tensor))). by rewrite list_lookup_fmap, Hx. }
  apply bind_inv in H as (u4 & s4 & ->%modify_inv & H). apply ret_inv in H as [_ ->].
  assert (Hnr : v_names (view s3) !! r = Some (mReqName x)).
  { rewrite E3, <- E1. cbn. change (map mReqName) with (fmap (M := list) (mReqName (Tensor := Tensor))).
    by rewrite list_lookup_fmap, Hx. }
  unfold Acc in *. rewrite <- E3 in Hs1. apply (acc_logged _ _ _ _ Hs1) in Hnr.
  destruct Hn as [_ Hn]. rewrite <- Hn in Hnr. revert Hnr. unfold view, set_v_log. cbn. by rewrite map_app.
Qed.

Lemma acc_recvTensor stream a sp isLast isFirst :
  keeping (Acc [] reported) (recvTensor clock stream a sp isLast isFirst) any.
Proof.
  pose proof (acc_addtoModelQueue [] reported).
  assert (Hwa : forall a f, keeping (Acc [] reported) (wr_app a f) any) by (intros; apply acc_still, still_wr_app).
  assert (Hno : keeping (Acc [] reported) (now clock) any) by (apply acc_still, still_now).
  assert (Hsp : forall a, keeping (Acc [] reported) (app_spec a) any) by (intros; apply acc_still, still_app_spec).
  unfold recvTensor. keep.
Qed.
Lemma acc_handle_round sock name sp stream :
  keeping (Acc [] reported) (handle_round clock sock name sp stream) any.
Proof.
  pose proof acc_recvTensor.
  assert (Hmo : keeping (Acc [] reported) p_monitor any) by (apply acc_still, still_monitor).
  assert (Hin : keeping (Acc [] reported) indet any) by (apply acc_still, still_indet).
  assert (Hnw : forall x, keeping (Acc [] reported) (new_app x) any) by (intros; apply acc_still, still_new_app).
  assert (Hwa : forall a f, keeping (Acc [] reported) (wr_app a f) any) by (intros; apply acc_still, still_wr_app).
  assert (Hno : keeping (Acc [] reported) (now clock) any) by (apply acc_still, still_now).
  unfold handle_round. keep.
Qed.

Lemma acc_add_queue name (s : St) f : isQueueforNet name (mon s) = false ->
  ReqListHashTable (f (mon s)) = om_set name [] (table s) -> cmpQ (f (mon s)) = cmpQ (mon s) ->
  Acc [] reported s -> forall u s', p_mod_monitor f s = Done (u, s') -> Acc [] reported s'.
Proof.
  intros Hno Ht Hc Hs u s' H.
  assert (E : view s' = set_v_queues (om_set name [] (v_queues (view s))) (view s)).
  { injection H as _ <-. unfold view, set_v_queues, table, mon. cbn. unfold mon in *. by rewrite Ht, Hc. }
  unfold Acc. rewrite E. eapply acc_queue_set; [exact Hs|done|].
  unfold isQueueforNet in Hno. change (ReqListHashTable (mon s)) with (v_queues (view s)) in Hno.
  by destruct (om_find _ _).
Qed.
Lemma acc_ProxyBasicSetup p : keeping (Acc [] reported) (ProxyBasicSetup p) any.
Proof.
  unfold ProxyBasicSetup.
  apply keeping_bind with (Q1 := any); [by apply keeping_modify|]. intros _ _.
  apply keeping_bind with (Q1 := any); [by apply acc_still, still_mod_monitor|]. intros _ _.
  apply keeping_bind with (Q1 := any); [apply acc_still, still_gs|]. intros g _.
  apply keeping_bind with (Q1 := any); [apply acc_still; preserve|]. intros _ _.
  apply keeping_bind with (Q1 := any); [apply acc_still; preserve|]. intros _ _.
  apply keeping_for_each. intros name _ s u s' Hs H. split; [|done].
  apply bind_inv in H as (m & s1 & [-> ->]%p_monitor_inv & H).
  destruct (isQueueforNet name (mon s)) eqn:Eq; [by apply ret_inv in H as [_ ->]|].
  apply bind_inv in H as (u1 & s1 & E & H). apply modify_inv in H as ->.
  change (Acc [] reported s1). eapply (acc_add_queue name); [exact Eq| | |exact Hs|exact E].
  - unfold addNewQueueforNet. rewrite Eq. done.
  - unfold addNewQueueforNet. by rewrite Eq.
Qed.

End Reported.

(** ** The service: the threads in any order

    One constructor per part of a thread; [step_turn] takes the batch the
    batching thread is forming.  [step_server] stands for the threads of the
    scheduler and the control of the proxies, which leave the queues of requests
    alone.  The passes of the dropping thread are in [service_run] below. *)
Inductive service_step : St -> St -> Prop :=
| step_round sock name sp stream r s s' :
    handle_round clock sock name sp stream s = Done (r, s') -> service_step s s'
| step_recv stream a sp isLast isFirst r s s' :
    recvTensor clock stream a sp isLast isFirst s = Done (r, s') -> service_step s s'
| step_take p t s s' : take_task p s = Done (t, s') -> service_step s s'
| step_begin p task b s s' : begin_batch clock p task s = Done (b, s') -> service_step s s'
| step_turn p name b batch dev maxdelay start t s s' :
    se_batches s !! b = Some batch -> _StrReqName batch = name ->
    batch_turn clock p name b dev maxdelay start s = Done (t, s') -> service_step s s'
| step_end p name b s s' : end_batch clock p name b s = Done (tt, s') -> service_step s s'
| step_output result p t s s' : initOutput_step clock result p s = Done (t, s') -> service_step s s'
| step_app name a s s' : initApp_step name s = Done (a, s') -> service_step s s'
| step_send t s s' : initSend_step clock s = Done (t, s') -> service_step s s'
| step_setup p s s' : ProxyBasicSetup p s = Done (tt, s') -> service_step s s'
| step_server srv s : same_queues (se_server s) srv -> service_step s (set_se_server srv s).

Lemma acc_step reported s s' : service_step s s' -> Acc [] reported s -> Acc [] reported s'.
Proof.
  intros [] Hs.
  - by eapply acc_handle_round.
  - by eapply acc_recvTensor.
  - eapply acc_still; [apply still_take_task|done|done].
  - by eapply acc_new_batch_step.
  - eapply acc_batch_turn; [exact Hs| |eassumption]. exists (taskRequests batch).
    subst. by apply view_batch.
  - eapply acc_still; [apply still_end_batch|done|done].
  - by eapply acc_initOutput_step.
  - eapply acc_still; [apply still_initApp_step|done|done].
  - by eapply acc_initSend_step.
  - by eapply acc_ProxyBasicSetup.
  - destruct H as [Ht Hc]. unfold Acc, view, table, mon in *. cbn. by rewrite Ht, Hc.
Qed.

(** A pass of the dropping thread adds to the completion queue and takes nothing
    from anywhere. *)
Definition only_reports (s s' : St) : Prop := exists l, view s' = set_v_done (v_done (view s) ++ l) (view s).
#[local] Instance only_reports_preorder : PreOrder only_reports.
Proof.
  split.
  - intros s. exists []. by rewrite app_nil_r.
  - intros s1 s2 s3 [l1 H1] [l2 H2]. exists (l1 ++ l2). rewrite H2, H1. cbn. by rewrite app_assoc.
Qed.
Lemma still_reports {A} (m : M St A) : preserves still m -> preserves only_reports m.
Proof. apply preserves_mono. intros s s' H. exists []. by rewrite app_nil_r, H. Qed.
Lemma reports_drop_request r : preserves only_reports (drop_request r : M St _).
Proof.
  unfold drop_request. apply preserves_bind; [typeclasses eauto|by apply still_reports, still_wr_req|]. intros _.
  apply preserves_bind; [typeclasses eauto|apply still_reports, still_app_of|]. intros a.
  apply preserves_bind; [typeclasses eauto|apply still_reports, still_rd_app|]. intros app.
  apply preserves_bind; [typeclasses eauto|apply still_reports; preserve|]. intros _.
  intros s u s' H. injection H as _ <-. exists [r]. done.
Qed.
Lemma reports_drop_front ratio name q : preserves only_reports (drop_front clock ratio name q : M St _).
Proof.
  induction q as [|r q IH]; cbn [drop_front]; [apply preserves_ret; typeclasses eauto|].
  apply preserves_bind; [typeclasses eauto|apply still_reports, still_now|]. intros t.
  apply preserves_bind; [typeclasses eauto|apply still_reports, still_rd_req|]. intros x.
  apply preserves_bind; [typeclasses eauto|apply still_reports, still_gs|]. intros g.
  destruct (expired _ _ _); [|apply preserves_ret; typeclasses eauto].
  apply preserves_bind; [typeclasses eauto|apply reports_drop_request|done].
Qed.
Lemma reports_pass ratio : preserves only_reports (lazy_drop_pass clock ratio : M St _).
Proof.
  unfold lazy_drop_pass. apply preserves_bind; [typeclasses eauto|apply still_reports, still_monitor|]. intros m.
  apply preserves_for_each; [typeclasses eauto|]. intros [name q]. cbn [fst snd].
  case_decide; [apply preserves_ret; typeclasses eauto|].
  apply preserves_bind; [typeclasses eauto|apply still_reports, still_has_mutex|]. intros _. apply reports_drop_front.
Qed.
Lemma acc_pass reported ratio l s s' : lazy_drop_pass clock ratio s = Done (tt, s') ->
  cmpQ (mon s') = cmpQ (mon s) ++ l -> Acc [] reported s -> Acc [] (reported ++ l) s'.
Proof.
  intros H Hl Hs. destruct (reports_pass _ _ _ _ H) as [l' E]. unfold Acc. rewrite E.
  assert (El : v_done (view s) ++ l' = v_done (view s) ++ l).
  { transitivity (v_done (view s')); [by rewrite E|exact Hl]. }
  apply app_inv_head in El as ->. eapply acc_done; [exact Hs|]. solve_Permutation.
Qed.

(** A run of the service: the steps above, and passes of the dropping thread, with
    the requests these have reported to the completion queue. *)
Inductive service_run (s0 : St) : list nat -> St -> Prop :=
| run_start : service_run s0 [] s0
| run_step reported s s' : service_run s0 reported s -> service_step s s' -> service_run s0 reported s'
| run_drop reported s ratio l s' : service_run s0 reported s ->
    lazy_drop_pass clock ratio s = Done (tt, s') -> cmpQ (mon s') = cmpQ (mon s) ++ l ->
    service_run s0 (reported ++ l) s'.
Lemma acc_run s0 reported s : service_run s0 reported s -> Acc [] [] s0 -> Acc [] reported s.
Proof. induction 1; eauto using acc_step, acc_pass. Qed.
Lemma run_of_steps s0 s : rtc service_step s0 s -> service_run s0 [] s.
Proof. apply (rtc_ind_r (service_run s0 [])); [constructor|]. intros s1 s2 _ Hs IH. by eapply run_step. Qed.

(** The service as it starts: no request, no batch, every queue empty. *)
Definition starting (s : St) : Prop :=
  se_reqs s = [] /\ se_batches s = [] /\ se_log s = [] /\ cmpQ (mon s) = [] /\
  om_sorted (table s) /\ Forall (fun e => e.2 = []) (table s).

Lemma acc_starting s : starting s -> Acc [] [] s.
Proof.
  intros (Hr & Hb & Hl & Hc & Hs & He). unfold Acc, view. rewrite Hr, Hb, Hl, Hc.
  constructor; cbn; [done| | |].
  - exists []. split; [|done]. unfold located. cbn.
    induction He as [|e l E _ IH]; [done|]. cbn. rewrite E. apply IH.
    unfold om_sorted in *. by apply StronglySorted_inv in Hs as [? _].
  - intros name q Hq. rewrite Forall_forall in He. specialize (He _ Hq). cbn in He. by subst.
  - intros name q Hq. by apply elem_of_nil in Hq.
Qed.

(** C4: no request is lost, and none is repeated but by the dropping thread.
    Whatever the order in which the threads run, from the start of the service on,
    every request ever created is in exactly one place: in the queue of its model, in
    a batch for its model, in the completion queue, or written to the log, once,
    under the name of its model; and once more in the completion queue or the log
    for each time a pass of the dropping thread reported it.  Without that thread
    the first list is empty and every request is in one place. *)
Theorem requests_conserved s0 reported s : starting s0 -> service_run s0 reported s ->
  exists logged,
    concat (map snd (table s)) ++ concat (map taskRequests (se_batches s)) ++ cmpQ (mon s) ++ logged
      ≡ₚ reported ++ seq 0 (length (se_reqs s)) /\
    map (fun r => mReqName <$> se_reqs s !! r) logged = map (fun l => Some (line_name l)) (se_log s) /\
    (forall name q r, (name, q) ∈ table s -> r ∈ q -> mReqName <$> se_reqs s !! r = Some name) /\
    (forall b r, b ∈ se_batches s -> r ∈ taskRequests b -> mReqName <$> se_reqs s !! r = Some (_StrReqName b)).
Proof.
  intros H0 Hrun.
  assert (Hs : Acc [] reported s) by (eapply acc_run; [exact Hrun|by apply acc_starting]).
  assert (Hn : forall r, mReqName <$> se_reqs s !! r = v_names (view s) !! r).
  { intros r. cbn. change (map mReqName) with (fmap (M := list) (mReqName (Tensor := Tensor))). by rewrite list_lookup_fmap. }
  destruct Hs as [_ (logged & Hp & Hl) Hq Hb]. exists logged. split; [|split; [|split]].
  - cbn in Hp. rewrite length_map in Hp. rewrite <- Hp. unfold located. cbn. rewrite map_map. solve_Permutation.
  - transitivity (map Some (v_log (view s))); [|cbn; by rewrite map_map]. rewrite <- Hl. by apply map_ext.
  - intros name q r Hin Hr. rewrite Hn. specialize (Hq name q Hin). rewrite Forall_forall in Hq. by apply Hq.
  - intros b r Hin Hr. rewrite Hn. specialize (Hb (_StrReqName b) (taskRequests b)). rewrite Forall_forall in Hb.
    apply Hb; [|done]. cbn. apply list_elem_of_fmap. by exists b.
Qed.
End ServiceInv.

(** ** A request from its arrival to the log *)
#[local] Existing Instance rows_torch.
Local Abbreviation DS := (Service (list Z)).

Definition demo_idle : DS := set_se_apps [] demo_service.
(** The parts of the threads, in the order of this run: proxy 3 is set up, an
    application comes in on connection 7, its request is batched, executed,
    completed and logged, and the application is answered. *)
Definition demo_s1 : DS := run (ProxyBasicSetup 3) demo_idle.
Definition demo_s2 : DS := run (handle_round demo_clock 7 "game" 0 [1]%Z) demo_s1.
Definition demo_s3 : DS := run (begin_batch demo_clock 3 (mkTaskSpec 0 "resnet50" 8 3)) demo_s2.
Definition demo_s4 : DS := run (batch_turn demo_clock 3 "resnet50" 0 0 fzero 0) demo_s3.
Definition demo_s5 : DS := run (end_batch demo_clock 3 "resnet50" 0) demo_s4.
Definition demo_s6 : DS := run (initOutput_step demo_clock (fun _ => [5]%Z) 3) demo_s5.
Definition demo_s7 : DS := run (initSend_step demo_clock) demo_s6.
Definition demo_s8 : DS := run (initApp_step "game") demo_s7.

Lemma demo_run {A} (m : M DS A) s s1 : s1 = run m s -> completes (m s) = true ->
  (forall a s', m s = Done (a, s') -> service_step demo_clock s s') -> service_step demo_clock s s1.
Proof. intros ->. unfold run. intros H Hc. destruct (m s) as [[a s']|] eqn:E; [|done]. by eapply Hc. Qed.

Ltac demo_step y m c :=
  apply rtc_l with y; [apply (demo_run m); [reflexivity|vm_compute; reflexivity|intros ? ? ?; by eapply c]|].
Lemma demo_turn : service_step demo_clock demo_s3 demo_s4.
Proof.
  apply (demo_run (batch_turn demo_clock 3 "resnet50" 0 0 fzero 0)); [reflexivity|vm_compute; reflexivity|].
  intros t s' H.
  assert (Hb : (_StrReqName <$> se_batches demo_s3 !! 0%nat) = Some "resnet50"%string) by (vm_compute; reflexivity).
  apply fmap_Some in Hb as (b & Hb & Hname). by eapply (step_turn _ 3 _ 0 b).
Qed.
Lemma demo_steps : rtc (service_step demo_clock) demo_idle demo_s8.
Proof.
  apply rtc_l with demo_s1.
  { apply (demo_run (ProxyBasicSetup 3)); [reflexivity|vm_compute; reflexivity|intros []; apply step_setup]. }
  demo_step demo_s2 (handle_round demo_clock 7 "game" 0 [1]%Z : M DS _) step_round.
  demo_step demo_s3 (begin_batch demo_clock 3 (mkTaskSpec 0 "resnet50" 8 3) : M DS _) step_begin.
  apply rtc_l with demo_s4; [exact demo_turn|].
  apply rtc_l with demo_s5.
  { apply (demo_run (end_batch demo_clock 3 "resnet50" 0)); [reflexivity|vm_compute; reflexivity|intros []; apply step_end]. }
  demo_step demo_s6 (initOutput_step demo_clock (fun _ => [5]%Z) 3 : M DS _) step_output.
  demo_step demo_s7 (initSend_step demo_clock : M DS _) step_send.
  demo_step demo_s8 (initApp_step "game" : M DS _) step_app.
  apply rtc_refl.
Qed.

(** The same request is reported by a pass of the dropping thread before it is
    batched, and logged. *)
Definition demo_d3 : DS := run (lazy_drop_pass demo_clock (i2d 1)) demo_s2.
Definition demo_d4 : DS := run (initSend_step demo_clock) demo_d3.
Lemma demo_drops : service_run demo_clock demo_idle [0%nat] demo_d4.
Proof.
  apply (run_step _ _ _ demo_d3).
  - apply (run_drop demo_clock demo_idle [] demo_s2 (i2d 1) [0%nat] demo_d3).
    + apply run_of_steps, rtc_l with demo_s1.
      { apply (demo_run (ProxyBasicSetup 3)); [reflexivity|vm_compute; reflexivity|intros []; apply step_setup]. }
      demo_step demo_s2 (handle_round demo_clock 7 "game" 0 [1]%Z : M DS _) step_round. apply rtc_refl.
    + assert (H : completes (lazy_drop_pass demo_clock (i2d 1) demo_s2) = true) by (vm_compute; reflexivity).
      exact (completes_run _ _ H).
    + vm_compute. reflexivity.
  - apply (demo_run (initSend_step demo_clock : M DS _)); [reflexivity|vm_compute; reflexivity|].
    intros ? ? ?. by eapply step_send.
Qed.

Lemma demo_starting : starting demo_idle.
Proof.
  assert (Ht : table demo_idle = [("lenet1", []); ("resnet50", [])]%string) by (vm_compute; reflexivity).
  unfold starting. rewrite Ht. split_and!; try (vm_compute; reflexivity); repeat constructor.
Qed.
Lemma requests_conserved_witness :
  (exists logged, logged ≡ₚ [0%nat] /\
    map (fun r => mReqName <$> se_reqs demo_s8 !! r) logged = [Some "resnet50"%string]) /\
  (exists logged, 0%nat :: logged ≡ₚ [0%nat; 0%nat] /\
    map (fun r => mReqName <$> se_reqs demo_d4 !! r) logged = [Some "resnet50"%string]).
Proof.
  split.
  - destruct (requests_conserved demo_clock demo_idle [] demo_s8 demo_starting (run_of_steps _ _ _ demo_steps))
      as (logged & Hp & Hl & _).
    exists logged. split; [|rewrite Hl; vm_compute; reflexivity].
    assert (E1 : table demo_s8 = [("lenet1", []); ("resnet50", [])]%string) by (vm_compute; reflexivity).
    assert (E2 : map taskRequests (se_batches demo_s8) = [[]]) by (vm_compute; reflexivity).
    assert (E3 : cmpQ (mon demo_s8) = []) by (vm_compute; reflexivity).
    assert (E4 : length (se_reqs demo_s8) = 1%nat) by (vm_compute; reflexivity).
    rewrite E1, E2, E3, E4 in Hp. exact Hp.
  - destruct (requests_conserved demo_clock demo_idle [0%nat] demo_d4 demo_starting demo_drops) as (logged & Hp & Hl & _).
    exists logged. split; [|rewrite Hl; vm_compute; reflexivity].
    assert (E1 : table demo_d4 = [("lenet1", []); ("resnet50", [0%nat])]%string) by (vm_compute; reflexivity).
    assert (E2 : se_batches demo_d4 = []) by (vm_compute; reflexivity).
    assert (E3 : cmpQ (mon demo_d4) = []) by (vm_compute; reflexivity).
    assert (E4 : length (se_reqs demo_d4) = 1%nat) by (vm_compute; reflexivity).
    rewrite E1, E2, E3, E4 in Hp. exact Hp.
Defined.
