(* ===== verification/ReplyInv.v ===== *)
(** * The replies to the clients: over every order of the threads, an application
    instance is answered on the connection that opened it, at most once if the
    dropping thread reports nothing and at most three times if it does. *)
From Stdlib Require Import ZArith SpecFloat String Permutation Lia.
From S2P Require Import Prelude CppFloat CppStd LatencyModel DevPerfModel SchedData SchedUtils SchedBase Json LoadBalancer SelfTuning AppModel AppProps SysState Control GlobalState GlobalSched Pipeline DemoServer PipelineProps MapProps ServiceInv.

Section ReplyInv.
Context {Tensor : Type} `{!Torch Tensor}.
Context (clock : nat -> Z).
Local Abbreviation St := (Service Tensor).

(** What the replies depend on: the application queues, whether each instance was
    reported, whether it is dropped and its connection, the connections answered. *)
Definition app_view (x : AppInstance Tensor) : bool * bool * Z := (_reported x, _dropped x, ai_fd x).
Local Abbreviation AppView := (bool * bool * Z)%type.
Local Abbreviation Replies := (gmap string (list nat) * list AppView * list Z)%type.
Definition replies (s : St) : Replies := (PerAppQueue s, map app_view (se_apps s), map fst (se_replies s)).
Definition occ (a : nat) (l : list nat) : nat := count_occ Nat.eq_dec l a.

(** How often an instance may be in the queues of results and the replies
    together: once when it was reported; where instances are dropped ([drops]), once
    more for a drop that is still marked, and once more for one that the report has
    unmarked.  A [pending] instance was reported and is about to be queued. *)
Definition tally (drops : bool) (x : AppView) (pending : bool) (n : nat) : Prop :=
  let '(reported, dropped, _) := x in
  (pending = true -> reported = true) /\ Nat.b2n reported <= n /\
  n <= Nat.b2n reported + (if drops then Nat.b2n dropped + (if pending then 0 else Nat.b2n reported) else 0).
(** [held] are the instances a running step is about to queue; each reply went to
    the connection of its instance. *)
Definition answers_ok (drops : bool) (held : list nat) (v : Replies) : Prop :=
  let '(queues, apps, fds) := v in
  exists answered, map (fun a => snd <$> apps !! a) answered = map Some fds /\
    forall a, let n := occ a (concat (map snd (map_to_list queues)) ++ held ++ answered) in
      match apps !! a with Some x => tally drops x (bool_decide (a ∈ held)) n | None => n = 0 end.

(** Updating one list of a finite map of lists. *)
Lemma gmap_insert_concat (m : gmap string (list nat)) k v v' : m !! k = Some v ->
  concat (map snd (map_to_list (<[k := v']> m))) ++ v ≡ₚ v' ++ concat (map snd (map_to_list m)).
Proof.
  intros Hk. rewrite <- (insert_delete_id m k v) at 2 by done. rewrite <- insert_delete_eq.
  assert (Hno : delete k m !! k = None) by apply lookup_delete_eq.
  rewrite !map_to_list_insert by done. cbn. solve_Permutation.
Qed.

Section Answers.
Context (drops : bool).
Local Abbreviation ok := (answers_ok drops).

Lemma occ_queue (queues : gmap string (list nat)) name q q' held held' answered a : queues !! name = Some q -> q' ++ held' ≡ₚ q ++ held ->
  occ a (concat (map snd (map_to_list (<[name := q']> queues))) ++ held' ++ answered) =
  occ a (concat (map snd (map_to_list queues)) ++ held ++ answered).
Proof.
  intros Hq Hh. pose proof (gmap_insert_concat queues name q q' Hq) as Hc.
  unfold occ. apply (Permutation_count_occ Nat.eq_dec). perm_count.
Qed.

Lemma answers_new queues apps fds x : x.1.1 = false -> ok [] (queues, apps, fds) -> ok [] (queues, apps ++ [x], fds).
Proof.
  intros Hx (answered & Hf & Hn). exists answered.
  assert (Hin : forall a, a ∈ answered -> a < length apps).
  { intros a Ha. specialize (Hn a). destruct (apps !! a) eqn:E; [by eapply lookup_lt_Some|]. exfalso.
    apply count_occ_not_In in Hn. apply Hn. rewrite !in_app_iff. right. right. by apply list_elem_of_In. }
  split.
  - rewrite <- Hf. apply map_ext_in. intros a Ha%list_elem_of_In. rewrite lookup_app_l; [done|by apply Hin].
  - intros a. specialize (Hn a). cbv zeta in *. destruct (decide (a < length apps)) as [Hlt|Hge].
    + by rewrite lookup_app_l.
    + rewrite lookup_ge_None_2 in Hn by lia. rewrite lookup_app_r by lia. rewrite Hn.
      destruct (a - length apps)%nat as [|[]]; [|done|done]. cbn. destruct x as [[rep drp] fd]. cbn in Hx. subst rep.
      unfold tally. cbn. split; [done|lia].
Qed.

(** An instance is reported. *)
Lemma answers_report queues apps fds a drp fd : ok [] (queues, apps, fds) ->
  apps !! a = Some (false, drp, fd) -> ok [a] (queues, <[a := (true, drp, fd)]> apps, fds).
Proof.
  intros (answered & Hf & Hn) Ha. pose proof (lookup_lt_Some _ _ _ Ha) as Hlt. exists answered. split.
  - rewrite <- Hf. apply map_ext. intros a'. destruct (decide (a' = a)) as [->|Hne].
    + by rewrite list_lookup_insert_eq, Ha.
    + by rewrite list_lookup_insert_ne.
  - intros a'. specialize (Hn a'). cbv zeta in *.
    assert (E : occ a' (concat (map snd (map_to_list queues)) ++ [a] ++ answered) =
      (if decide (a' = a) then 1 else 0) + occ a' (concat (map snd (map_to_list queues)) ++ [] ++ answered)).
    { unfold occ. rewrite !count_occ_app. cbn. destruct (Nat.eq_dec a a'), (decide (a' = a)); subst; try done; lia. }
    rewrite E. destruct (decide (a' = a)) as [->|Hne].
    + rewrite list_lookup_insert_eq by done. rewrite Ha in Hn.
      rewrite bool_decide_eq_false_2 in Hn by (by intros ?%elem_of_nil).
      rewrite bool_decide_eq_true_2 by (by left). unfold tally in *. cbn in *. destruct drops; lia.
    + rewrite list_lookup_insert_ne by done. rewrite bool_decide_eq_false_2 by (by intros ?%list_elem_of_singleton).
      rewrite bool_decide_eq_false_2 in Hn by (by intros ?%elem_of_nil). exact Hn.
Qed.

(** A pending instance is queued, and counts as not dropped. *)
Lemma answers_pending queues apps fds a rep drp fd name q : ok [a] (queues, apps, fds) ->
  apps !! a = Some (rep, drp, fd) -> queues !! name = Some q ->
  ok [] (<[name := q ++ [a]]> queues, <[a := (rep, false, fd)]> apps, fds).
Proof.
  intros (answered & Hf & Hn) Ha Hq. pose proof (lookup_lt_Some _ _ _ Ha) as Hlt. exists answered. split.
  - rewrite <- Hf. apply map_ext. intros a'. destruct (decide (a' = a)) as [->|Hne].
    + by rewrite list_lookup_insert_eq, Ha.
    + by rewrite list_lookup_insert_ne.
  - intros a'. specialize (Hn a'). cbv zeta in *.
    rewrite (occ_queue queues name q (q ++ [a]) [a] [] answered) by (done || solve_Permutation).
    rewrite bool_decide_eq_false_2 by (by intros ?%elem_of_nil). destruct (decide (a' = a)) as [->|Hne].
    + rewrite list_lookup_insert_eq by done. rewrite Ha in Hn. rewrite bool_decide_eq_true_2 in Hn by (by left).
      unfold tally in *. destruct Hn as (Hp & Hn). rewrite (Hp eq_refl) in *. cbn in *. split; [done|].
      destruct drops, drp; cbn in *; lia.
    + rewrite list_lookup_insert_ne by done. rewrite bool_decide_eq_false_2 in Hn by (by intros ?%list_elem_of_singleton).
      exact Hn.
Qed.

Lemma answers_answer queues apps fds a x name q : ok [] (queues, apps, fds) ->
  queues !! name = Some (a :: q) -> apps !! a = Some x -> ok [] (<[name := q]> queues, apps, fds ++ [snd x]).
Proof.
  intros (answered & Hf & Hn) Hq Ha. exists (answered ++ [a]). split.
  - rewrite !map_app, Hf. cbn. by rewrite Ha.
  - intros a'. specialize (Hn a'). cbv zeta in *.
    assert (E : occ a' (concat (map snd (map_to_list (<[name := q]> queues))) ++ [] ++ answered ++ [a]) =
      occ a' (concat (map snd (map_to_list queues)) ++ [] ++ answered)).
    { rewrite <- (occ_queue queues name (a :: q) q [] [a] answered a' Hq) by solve_Permutation.
      unfold occ. apply (Permutation_count_occ Nat.eq_dec). solve_Permutation. }
    by rewrite E.
Qed.
End Answers.

(** A drop is marked and queued. *)
Lemma answers_drop queues apps fds a rep fd name q : answers_ok true [] (queues, apps, fds) ->
  apps !! a = Some (rep, false, fd) -> queues !! name = Some q ->
  answers_ok true [] (<[name := q ++ [a]]> queues, <[a := (rep, true, fd)]> apps, fds).
Proof.
  intros (answered & Hf & Hn) Ha Hq. pose proof (lookup_lt_Some _ _ _ Ha) as Hlt. exists answered. split.
  - rewrite <- Hf. apply map_ext. intros a'. destruct (decide (a' = a)) as [->|Hne].
    + by rewrite list_lookup_insert_eq, Ha.
    + by rewrite list_lookup_insert_ne.
  - intros a'. specialize (Hn a'). cbv zeta in *.
    assert (E : occ a' (concat (map snd (map_to_list (<[name := q ++ [a]]> queues))) ++ [] ++ answered) =
      (if decide (a' = a) then 1 else 0) + occ a' (concat (map snd (map_to_list queues)) ++ [] ++ answered)).
    { rewrite (occ_queue queues name q (q ++ [a]) [a] [] answered a' Hq) by solve_Permutation.
      unfold occ. rewrite !count_occ_app. cbn. destruct (Nat.eq_dec a a'), (decide (a' = a)); subst; try done; lia. }
    rewrite E. rewrite bool_decide_eq_false_2 in Hn |- * by (by intros ?%elem_of_nil).
    destruct (decide (a' = a)) as [->|Hne].
    + rewrite list_lookup_insert_eq by done. rewrite Ha in Hn. unfold tally in *. cbn in *. split; [done|]. lia.
    + by rewrite list_lookup_insert_ne.
Qed.
Lemma answers_mono drops held v : answers_ok false held v -> answers_ok drops held v.
Proof.
  destruct v as [[queues apps] fds]. intros (answered & Hf & Hn). exists answered. split; [done|].
  intros a. specialize (Hn a). cbv zeta in *. destruct (apps !! a) as [[[rep drp] fd]|]; [|done].
  unfold tally in *. destruct Hn as (H1 & H2 & H3). split; [done|]. split; [done|]. destruct drops; lia.
Qed.

(** ** Steps the replies do not depend on *)
Definition unanswered (s s' : St) : Prop := replies s' = replies s.
#[local] Instance unanswered_preorder : PreOrder unanswered.
Proof. split; unfold unanswered; repeat intro; congruence. Qed.
Lemma un_on_server {A} (m : GM A) : preserves unanswered (on_server m : M St A).
Proof. intros s a s' H. unfold on_server, zoom in H. destruct (m _) as [[??]|]; [|done]. by injection H as _ <-. Qed.
Lemma un_rd_app a : preserves unanswered (rd_app a : M St _).
Proof. intros s x s' H. unfold rd_app in H. by minv H. Qed.
Lemma wr_app_inv a f (s : St) u s' : wr_app a f s = Done (u, s') ->
  exists x, se_apps s !! a = Some x /\ s' = set_se_apps (<[a := f x]> (se_apps s)) s.
Proof. intros H. unfold wr_app in H. minv H. eauto. Qed.
Lemma un_wr_app a f : (forall x, app_view (f x) = app_view x) -> preserves unanswered (wr_app a f : M St _).
Proof.
  intros Hf s u s' (x & Hx & ->)%wr_app_inv. unfold unanswered, replies. cbn. f_equal. f_equal.
  change (map app_view) with (fmap (M := list) app_view). rewrite list_fmap_insert, Hf.
  apply list_insert_id. by rewrite list_lookup_fmap, Hx.
Qed.
Lemma un_rd_req r : preserves unanswered (rd_req r : M St _).
Proof. intros s x s' H. by apply rd_req_inv in H as [_ ->]. Qed.
Lemma un_wr_req r f : preserves unanswered (wr_req r f : M St _).
Proof. intros s x s' H. by apply wr_req_inv in H as (? & _ & ->). Qed.
Lemma un_new_req x : preserves unanswered (new_req x : M St _).
Proof. intros s r s' H. by apply new_req_inv in H as [_ ->]. Qed.
Lemma un_rd_batch b : preserves unanswered (rd_batch b : M St _).
Proof. intros s x s' H. by apply rd_batch_inv in H as [_ ->]. Qed.
Lemma un_wr_batch b x : preserves unanswered (wr_batch b x : M St _).
Proof. intros s u s' H. by apply wr_batch_inv in H as ->. Qed.
Lemma un_new_batch x : preserves unanswered (new_batch x : M St _).
Proof. intros s b s' H. by injection H as _ <-. Qed.
Lemma un_has_mutex name : preserves unanswered (has_mutex name : M St _).
Proof. intros s u s' H. by apply has_mutex_inv in H as ->. Qed.
Lemma un_indet : preserves unanswered (indet : M St _).
Proof. intros s i s' H. by injection H as _ <-. Qed.
#[local] Hint Resolve un_rd_app un_rd_req un_wr_req un_new_req un_rd_batch un_wr_batch un_new_batch
  un_has_mutex un_indet : frame.
#[local] Hint Extern 1 (preserves unanswered (now _)) => apply un_on_server : frame.
#[local] Hint Extern 1 (preserves unanswered p_monitor) => apply un_on_server : frame.
#[local] Hint Extern 1 (preserves unanswered (p_mod_monitor _)) => apply un_on_server : frame.
#[local] Hint Extern 1 (preserves unanswered (on_server _)) => apply un_on_server : frame.
#[local] Hint Extern 1 (preserves unanswered (p_wr _ _)) => apply un_on_server : frame.
#[local] Hint Extern 1 (preserves unanswered (p_rd _)) => apply un_on_server : frame.
#[local] Hint Extern 1 (preserves unanswered (modify _)) => apply preserves_modify; done : frame.
Lemma un_stamp r st : preserves unanswered (stamp clock r st : M St _).
Proof. unfold stamp. preserve. Qed.
Lemma un_app_of r : preserves unanswered (app_of r : M St _).
Proof. unfold app_of. preserve. Qed.
Lemma un_app_spec a : preserves unanswered (app_spec a : M St _).
Proof. unfold app_spec. preserve. Qed.
#[local] Hint Resolve un_stamp un_app_of un_app_spec : frame.

(** A member of the state is read and written back. *)
Lemma preserves_update {S A B} (R : S -> S -> Prop) `{!PreOrder R} (o : S -> outcome A) (g : A -> S -> S)
    (k : S -> A -> M S B) :
  (forall a s, R s (g a s)) -> (forall s a, preserves R (k s a)) ->
  preserves R (s ← get; a ← lift (o s); _ ← put (g a s); k s a).
Proof.
  intros Hg Hk. apply preserves_get_bind. intros s b s' H.
  apply bind_inv in H as (a & s1 & [_ ->]%lift_inv & H). apply bind_inv in H as (u & s1 & ->%put_inv & H).
  transitivity (g a s); [apply Hg|by eapply Hk].
Qed.
Lemma preserves_update_pure {S B} (R : S -> S -> Prop) `{!PreOrder R} (g : S -> S) (k : S -> M S B) :
  (forall s, R s (g s)) -> (forall s, preserves R (k s)) ->
  preserves R (s ← get; _ ← put (g s); k s).
Proof.
  intros Hg Hk. apply preserves_get_bind. intros s b s' H. apply bind_inv in H as (u & s1 & ->%put_inv & H).
  transitivity (g s); [apply Hg|by eapply Hk].
Qed.

Ltac ustep := apply preserves_bind; [typeclasses eauto|solve [preserve]|intros ?].
Lemma un_addtoModelQueue name t cgid a : preserves unanswered (addtoModelQueue clock name t cgid a : M St _).
Proof.
  unfold addtoModelQueue. do 3 ustep. cbv zeta.
  apply (preserves_update_pure _ (fun s => set_ReqID (u32 (ReqID s + 1)) s)); [done|]. intros s.
  unfold push_request. preserve.
Qed.
Lemma un_begin_batch p task : preserves unanswered (begin_batch clock p task : M St _).
Proof.
  unfold begin_batch. do 4 ustep.
  apply (preserves_update_pure _ (fun s => set_batchTaskID (i32 (batchTaskID s + 1)) s)); [done|]. intros s. preserve.
Qed.
Lemma un_pop_request p name b dev : preserves unanswered (pop_request clock p name b dev : M St _).
Proof. unfold pop_request. preserve. Qed.
#[local] Hint Resolve un_addtoModelQueue un_pop_request : frame.
Lemma un_batch_turn p name b dev d start : preserves unanswered (batch_turn clock p name b dev d start : M St _).
Proof. unfold batch_turn. preserve. Qed.
Lemma un_sendBatchedRequest b name p : preserves unanswered (sendBatchedRequest clock b name p : M St _).
Proof.
  unfold sendBatchedRequest. do 5 ustep.
  apply (preserves_update _ (fun s => deref (PerProxyOutputQueue s !! p))
    (fun q s => set_PerProxyOutputQueue (<[p := q ++ [b]]> (PerProxyOutputQueue s)) s)); [done|]. intros s q. preserve.
Qed.
#[local] Hint Resolve un_sendBatchedRequest : frame.
Lemma un_end_batch p name b : preserves unanswered (end_batch clock p name b : M St _).
Proof. unfold end_batch. preserve. Qed.
Lemma un_allocateOutput b t : preserves unanswered (allocateOutput b t : M St _).
Proof. unfold allocateOutput, setOutputTensor, setFinished. preserve; by apply un_wr_app. Qed.
Lemma un_forward_request r : preserves unanswered (forward_request clock r : M St _).
Proof. unfold forward_request. preserve. Qed.
Lemma un_take_task p : preserves unanswered (take_task p : M St _).
Proof. unfold take_task. preserve. Qed.
Lemma un_initSend_step : preserves unanswered (initSend_step clock : M St _).
Proof. unfold initSend_step. preserve. Qed.
Lemma un_ProxyBasicSetup p : preserves unanswered (ProxyBasicSetup p : M St _).
Proof. unfold ProxyBasicSetup. preserve. Qed.
Lemma un_recvTensor stream a sp l f : preserves unanswered (recvTensor clock stream a sp l f : M St _).
Proof. unfold recvTensor. preserve; by apply un_wr_app. Qed.

(** ** Steps that report, queue and answer an instance *)
Section Steps.
Context (drops : bool).
Definition Ans (held : list nat) (s : St) : Prop := answers_ok drops held (replies s).
Lemma ans_un {A} held (m : M St A) : preserves unanswered m -> keeping (Ans held) m any.
Proof. intros Hm s a s' Hs H. apply Hm in H. split; [|done]. unfold Ans. by rewrite H. Qed.

Lemma app_of_inv r (s : St) a s' : app_of r s = Done (a, s') ->
  s' = s /\ exists x, se_reqs s !! r = Some x /\ _task x = Some a.
Proof.
  intros H. unfold app_of in H. apply bind_inv in H as (x & s1 & [Hx ->]%rd_req_inv & H).
  apply lift_inv in H as [H ->]. apply deref_inv in H. eauto.
Qed.
Lemma rd_app_inv a (s : St) x s' : rd_app a s = Done (x, s') -> se_apps s !! a = Some x /\ s' = s.
Proof. intros H. unfold rd_app in H. by minv H. Qed.
Lemma app_at a x (s : St) : se_apps s !! a = Some x -> map app_view (se_apps s) !! a = Some (app_view x).
Proof. intros H. change (map app_view) with (fmap (M := list) app_view). by rewrite list_lookup_fmap, H. Qed.

Lemma isFinished_inv (x : AppInstance Tensor) fin y : isFinished x = Done (fin, y) ->
  if (fin : bool) then app_view x = (false, _dropped x, ai_fd x) /\ app_view y = (true, _dropped x, ai_fd x) else y = x.
Proof.
  unfold isFinished. intros H. apply bind_inv in H as (z & z' & [-> ->]%get_inv & H).
  destruct (_reported x) eqn:Er; [by apply ret_inv in H as [-> ->]|].
  destruct (all_marked x); [|by apply ret_inv in H as [-> ->]].
  apply bind_inv in H as (u & y' & ->%modify_inv & H). apply ret_inv in H as [-> ->].
  unfold app_view. by rewrite Er.
Qed.

Lemma replies_wr_app a y (s : St) : replies (set_se_apps (<[a := y]> (se_apps s)) s) =
  (PerAppQueue s, <[a := app_view y]> (map app_view (se_apps s)), map fst (se_replies s)).
Proof. unfold replies. cbn. f_equal. f_equal. apply (list_fmap_insert app_view). Qed.
Lemma ans_isAppFinished r (s : St) fin s' : Ans [] s -> isAppFinished r s = Done (fin, s') ->
  se_reqs s' = se_reqs s /\
  if (fin : bool) then exists a x, se_reqs s !! r = Some x /\ _task x = Some a /\ Ans [a] s' else Ans [] s'.
Proof.
  intros Hs H. unfold isAppFinished in H.
  apply bind_inv in H as (a & s1 & [-> (x & Hx & Ha)]%app_of_inv & H).
  apply bind_inv in H as (app & s1 & [Happ ->]%rd_app_inv & H).
  apply bind_inv in H as ([fin' app'] & s1 & [Hfin%isFinished_inv ->]%lift_inv & H).
  apply bind_inv in H as (u & s1 & (app2 & Happ2 & ->)%wr_app_inv & H). apply ret_inv in H as [-> ->].
  rewrite Happ in Happ2. injection Happ2 as <-. split; [done|].
  destruct fin'.
  - destruct Hfin as [Hno Hyes]. exists a, x. split; [done|]. split; [done|]. unfold Ans. rewrite replies_wr_app, Hyes.
    apply answers_report; [exact Hs|]. rewrite <- Hno. by apply app_at.
  - subst app'. unfold Ans. rewrite replies_wr_app, list_insert_id by (by apply app_at). exact Hs.
Qed.

(** What [addtoAppQueue] writes. *)
Lemma addtoAppQueue_inv a d (s : St) u s' : addtoAppQueue a d s = Done (u, s') ->
  exists x name q, map app_view (se_apps s) !! a = Some x /\ PerAppQueue s !! name = Some q /\
    replies s' = (<[name := q ++ [a]]> (PerAppQueue s), <[a := (x.1.1, d, x.2)]> (map app_view (se_apps s)),
      map fst (se_replies s)).
Proof.
  intros H. unfold addtoAppQueue in H.
  apply bind_inv in H as (app & s1 & [Happ ->]%rd_app_inv & H).
  apply bind_inv in H as (u1 & s1 & (y & Hy & ->)%wr_app_inv & H).
  apply bind_inv in H as (s0 & s2 & [-> ->]%get_inv & H).
  apply bind_inv in H as (q & s2 & [Hq%deref_inv ->]%lift_inv & ->%put_inv).
  rewrite Happ in Hy. injection Hy as <-. exists (app_view app), (ai_name app), q.
  split; [by apply app_at|]. split; [exact Hq|].
  pose proof (replies_wr_app a (setDropped d app) s) as E. unfold replies in *. cbn in *. injection E as E. by rewrite E.
Qed.
Lemma ans_addtoAppQueue a (s : St) u s' : Ans [a] s -> addtoAppQueue a false s = Done (u, s') -> Ans [] s'.
Proof.
  intros Hs H. apply addtoAppQueue_inv in H as ([[rep drp] fd] & name & q & Ha & Hq & E).
  unfold Ans. rewrite E. by eapply answers_pending.
Qed.

Lemma ans_complete name r : keeping (Ans []) (complete_request clock name r) any.
Proof.
  intros s u s' Hs H. split; [|done]. unfold complete_request in H.
  apply bind_inv in H as (u1 & s1 & E1%un_stamp & H).
  apply bind_inv in H as (m & s2 & E2%un_on_server & H).
  apply bind_inv in H as (x & s3 & E3%un_rd_req & H).
  apply bind_inv in H as (g & s4 & E4%un_on_server & H).
  apply bind_inv in H as (u2 & s5 & E5 & H).
  assert (E5' : unanswered s4 s5).
  { refine (preserves_when unanswered _ _ _ _ _ _ E5). apply un_on_server. }
  apply bind_inv in H as (u3 & s6 & E6%un_on_server & H).
  assert (Hs6 : Ans [] s6).
  { unfold Ans. assert (E : replies s6 = replies s) by (unfold unanswered in *; congruence). by rewrite E. }
  clear E1 E2 E3 E4 E5 E5' E6 Hs.
  apply bind_inv in H as (fin & s7 & E7 & H). apply (ans_isAppFinished _ _ _ _ Hs6) in E7 as [Hreq E7].
  destruct fin; [|exact (proj1 (ans_un _ _ (un_forward_request r) _ _ _ E7 H))].
  destruct E7 as (a & y & Hy & Ha & Hs7).
  apply bind_inv in H as (a' & s8 & [-> (y' & Hy' & Ha')]%app_of_inv & H).
  rewrite Hreq, Hy in Hy'. injection Hy' as <-. rewrite Ha in Ha'. injection Ha' as <-.
  apply bind_inv in H as (t & s8 & E8%un_on_server & H).
  apply bind_inv in H as (u4 & s9 & E9 & H). apply un_wr_app in E9; [|done].
  eapply ans_addtoAppQueue; [|exact H]. unfold Ans, unanswered in *. by rewrite E9, E8.
Qed.

Lemma ans_initOutput_step result p : keeping (Ans []) (initOutput_step clock result p) any.
Proof.
  intros s u s' Hs H. split; [|done]. unfold initOutput_step in H.
  apply bind_inv in H as (s0 & s1 & [-> ->]%get_inv & H).
  apply bind_inv in H as (q & s1 & [_ ->]%lift_inv & H). destruct q as [|b q]; [by apply ret_inv in H as [_ ->]|].
  apply bind_inv in H as (u1 & s1 & ->%put_inv & H).
  set (s2 := set_PerProxyOutputQueue (<[p:=q]> (PerProxyOutputQueue s)) s) in H.
  assert (Hs2 : Ans [] s2) by exact Hs. clearbody s2. clear - Hs2 H.
  apply bind_inv in H as (batch & s3 & [_ ->]%rd_batch_inv & H). cbv zeta in H.
  apply bind_inv in H as (u1 & s3 & E3%un_on_server & H).
  apply bind_inv in H as (u2 & s4 & E4 & H).
  assert (E4' : unanswered s3 s4) by (revert E4; apply preserves_for_each; [typeclasses eauto|intros; apply un_stamp]).
  apply bind_inv in H as (u3 & s5 & E5%un_allocateOutput & H).
  assert (Hs5 : Ans [] s5).
  { unfold Ans. assert (E : replies s5 = replies s2) by (unfold unanswered in *; congruence). by rewrite E. }
  apply bind_inv in H as (u4 & s6 & E6 & H). apply ret_inv in H as [_ ->].
  assert (Hk : keeping (Ans []) (sendBatchedResults clock b (_StrReqName batch) p) any).
  { unfold sendBatchedResults.
    apply keeping_bind with (Q1 := any); [apply ans_un, un_rd_batch|]. intros x _.
    apply keeping_bind with (Q1 := any); [apply ans_un, un_on_server|]. intros _ _.
    apply keeping_bind with (Q1 := any); [apply keeping_for_each; intros; apply ans_complete|]. intros _ _.
    apply keeping_bind with (Q1 := any); [apply ans_un, un_rd_batch|]. intros y _. apply ans_un, un_wr_batch. }
  by eapply Hk.
Qed.

Lemma ans_initApp_step name : keeping (Ans []) (initApp_step name) any.
Proof.
  intros s u s' Hs H. split; [|done]. unfold initApp_step in H.
  apply bind_inv in H as (s0 & s1 & [-> ->]%get_inv & H).
  apply bind_inv in H as (q & s1 & [Hq%deref_inv ->]%lift_inv & H).
  destruct q as [|a q]; [by apply ret_inv in H as [_ ->]|].
  apply bind_inv in H as (u1 & s1 & ->%put_inv & H).
  apply bind_inv in H as (app & s1 & [Happ%app_at ->]%rd_app_inv & H).
  apply bind_inv in H as (u2 & s2 & ->%modify_inv & H). apply ret_inv in H as [_ ->].
  unfold Ans, replies in *. cbn. rewrite map_app. cbn.
  by apply (answers_answer _ _ _ _ a (app_view app)).
Qed.

Lemma ans_handle_round sock name sp stream : keeping (Ans []) (handle_round clock sock name sp stream) any.
Proof.
  assert (Hnew : forall x, _reported x = false -> keeping (Ans []) (new_app x) any).
  { intros x Hx s a s' Hs H. split; [|done]. injection H as _ <-. unfold Ans, replies in *.
    change (answers_ok drops [] (PerAppQueue s, map app_view (se_apps s ++ [x]), map fst (se_replies s))).
    rewrite map_app. by apply answers_new. }
  assert (Hrecv : forall st a sp l f, keeping (Ans []) (recvTensor clock st a sp l f) any)
    by (intros; apply ans_un, un_recvTensor).
  assert (Hmo : keeping (Ans []) p_monitor any) by (apply ans_un, un_on_server).
  assert (Hin : keeping (Ans []) indet any) by (apply ans_un, un_indet).
  assert (Hno : keeping (Ans []) (now clock) any) by (apply ans_un, un_on_server).
  assert (Hwa : forall a t, keeping (Ans []) (wr_app a (setStartExec t)) any) by (intros; by apply ans_un, un_wr_app).
  unfold handle_round.
  apply keeping_bind with (Q1 := any); [done|]. intros m _.
  apply keeping_bind with (Q1 := any); [by apply keeping_lift|]. intros x _.
  apply keeping_bind with (Q1 := any); [done|]. intros i _.
  apply keeping_bind with (Q1 := any); [by apply Hnew|]. intros a _. keep.
Qed.

Lemma ans_step s s' : service_step clock s s' -> Ans [] s -> Ans [] s'.
Proof.
  intros [] Hs.
  - by eapply ans_handle_round.
  - eapply ans_un; [apply un_recvTensor|done|done].
  - eapply ans_un; [apply un_take_task|done|done].
  - eapply ans_un; [apply un_begin_batch|done|done].
  - eapply ans_un; [apply un_batch_turn|done|done].
  - eapply ans_un; [apply un_end_batch|done|done].
  - by eapply ans_initOutput_step.
  - by eapply ans_initApp_step.
  - eapply ans_un; [apply un_initSend_step|done|done].
  - eapply ans_un; [apply un_ProxyBasicSetup|done|done].
  - exact Hs.
Qed.

End Steps.

(** ** A pass of the dropping thread *)
Lemma ans_drop_request r : keeping (Ans true []) (drop_request r) any.
Proof.
  intros s u s' Hs H. split; [|done]. unfold drop_request in H.
  apply bind_inv in H as (u1 & s1 & E1%un_wr_req & H).
  apply bind_inv in H as (a & s2 & [-> _]%app_of_inv & H).
  apply bind_inv in H as (app & s2 & [Happ ->]%rd_app_inv & H).
  apply bind_inv in H as (u2 & s2 & E2 & E3%un_on_server).
  assert (Hs1 : Ans true [] s1) by (unfold Ans in *; by rewrite E1). unfold Ans. rewrite E3. clear E1 E3.
  unfold when in E2. destruct (_dropped app) eqn:Ed; cbn [negb] in E2; [by apply ret_inv in E2 as [_ ->]|].
  apply bind_inv in E2 as (u3 & s3 & (y & Hy & ->)%wr_app_inv & H).
  rewrite Happ in Hy. injection Hy as <-. pose proof (app_at _ _ _ Happ) as Ha. unfold app_view in Ha. rewrite Ed in Ha.
  apply addtoAppQueue_inv in H as (x & name & q & Hx & Hq & E). rewrite E. clear E.
  pose proof (replies_wr_app a (setDropped true app) s1) as E. unfold replies in E. cbn in E, Hx, Hq |- *.
  injection E as E. rewrite E in *. rewrite list_lookup_insert_eq in Hx by (by eapply lookup_lt_Some).
  injection Hx as <-. cbn. rewrite list_insert_insert_eq.
  by apply answers_drop with (rep := _reported app) (q := q).
Qed.
Lemma ans_pass ratio : keeping (Ans true []) (lazy_drop_pass clock ratio) any.
Proof.
  unfold lazy_drop_pass. apply keeping_bind with (Q1 := any); [apply ans_un, un_on_server|]. intros m _.
  apply keeping_for_each. intros [name q] _. cbn [fst snd]. case_decide; [by apply keeping_ret|].
  apply keeping_bind with (Q1 := any); [apply ans_un, un_has_mutex|]. intros _ _.
  clear. induction q as [|r q IH]; cbn [drop_front]; [by apply keeping_ret|].
  apply keeping_bind with (Q1 := any); [apply ans_un, un_on_server|]. intros t _.
  apply keeping_bind with (Q1 := any); [apply ans_un, un_rd_req|]. intros x _.
  apply keeping_bind with (Q1 := any); [apply ans_un, un_on_server|]. intros g _.
  destruct (expired _ _ _); [|by apply keeping_ret].
  apply keeping_bind with (Q1 := any); [apply ans_drop_request|done].
Qed.

(** A pass that reports nothing drops nothing. *)
#[local] Existing Instance still_preorder.
Definition reports_or_not (s s' : St) : Prop :=
  length (cmpQ (mon s)) < length (cmpQ (mon s')) \/ (cmpQ (mon s') = cmpQ (mon s) /\ unanswered s s').
#[local] Instance reports_or_not_preorder : PreOrder reports_or_not.
Proof.
  split; unfold reports_or_not.
  - intros s. right. by split.
  - intros s1 s2 s3 [H1|[H1 H2]] [H3|[H3 H4]]; rewrite ?H3, ?H1 in *; [left; lia|by left..|right].
    split; [done|]. by transitivity s2.
Qed.
Lemma ron_still {A} (m : M St A) : preserves still m -> preserves unanswered m -> preserves reports_or_not m.
Proof.
  intros H1 H2 s a s' H. right. split; [|by eapply H2]. apply H1 in H.
  change (v_done (view s') = v_done (view s)). by rewrite H.
Qed.
Lemma ron_drop_request r : preserves reports_or_not (drop_request r : M St _).
Proof.
  intros s u s' H. left. unfold drop_request in H.
  apply bind_inv in H as (u1 & s1 & E1 & H). apply still_wr_req in E1; [|done].
  apply bind_inv in H as (a & s2 & [-> _]%app_of_inv & H).
  apply bind_inv in H as (app & s2 & [_ ->]%rd_app_inv & H).
  apply bind_inv in H as (u2 & s2 & E2 & H).
  assert (E2' : still s1 s2).
  { eapply preserves_when; [typeclasses eauto| |exact E2].
    apply preserves_bind; [typeclasses eauto|apply still_wr_app|intros _; apply still_addtoAppQueue]. }
  assert (E : cmpQ (mon s2) = cmpQ (mon s)).
  { change (v_done (view s2) = v_done (view s)). by rewrite E2', E1. }
  injection H as _ <-. change (cmpQ (mon _)) with (cmpQ (mon s2) ++ [r]) at 2. rewrite E, length_app. cbn. lia.
Qed.
Lemma ron_pass ratio : preserves reports_or_not (lazy_drop_pass clock ratio : M St _).
Proof.
  unfold lazy_drop_pass. apply preserves_bind; [typeclasses eauto|apply ron_still; [apply still_monitor|apply un_on_server]|].
  intros m. apply preserves_for_each; [typeclasses eauto|]. intros [name q]. cbn [fst snd].
  case_decide; [apply preserves_ret; typeclasses eauto|].
  apply preserves_bind; [typeclasses eauto|apply ron_still; [apply still_has_mutex|apply un_has_mutex]|]. intros _.
  clear. induction q as [|r q IH]; cbn [drop_front]; [apply preserves_ret; typeclasses eauto|].
  apply preserves_bind; [typeclasses eauto|apply ron_still; [apply still_now|apply un_on_server]|]. intros t.
  apply preserves_bind; [typeclasses eauto|apply ron_still; [apply still_rd_req|apply un_rd_req]|]. intros x.
  apply preserves_bind; [typeclasses eauto|apply ron_still; [apply still_gs|apply un_on_server]|]. intros g.
  destruct (expired _ _ _); [|apply preserves_ret; typeclasses eauto].
  apply preserves_bind; [typeclasses eauto|apply ron_drop_request|done].
Qed.

Definition some_reported (reported : list nat) : bool := negb (bool_decide (reported = [])).
Lemma ans_run s0 reported s : service_run clock s0 reported s -> Ans false [] s0 -> Ans (some_reported reported) [] s.
Proof.
  intros Hrun H0. induction Hrun as [|reported s s' _ IH Hstep|reported s ratio l s' _ IH Hpass Hl]; [exact H0|by eapply ans_step|].
  unfold some_reported in *. destruct (decide (reported ++ l = [])) as [E|E];
    [rewrite (bool_decide_eq_true_2 _ E)|rewrite (bool_decide_eq_false_2 _ E)]; cbn [negb].
  - apply app_eq_nil in E as [-> ->]. rewrite bool_decide_eq_true_2 in IH by done. cbn [negb] in *.
    apply ron_pass in Hpass as [Hlt|[_ Hun]]; [rewrite Hl, app_nil_r in Hlt; lia|].
    unfold Ans. by rewrite Hun.
  - refine (proj1 (ans_pass ratio s tt s' _ Hpass)). destruct (bool_decide _); [|exact IH].
    by apply answers_mono.
Qed.

(** C5: an application is answered at most once, unless requests are dropped, and
    then at most three times.  Whatever the order of the threads, each reply went to
    the connection that opened its instance, and an instance found finished is in the
    queues of results or among the answered ones.  Without a report of the dropping
    thread it is there once, and no other instance is.  With such reports an
    instance may be there once for the report, once if it is marked as dropped, and
    once more if it was reported, which takes the mark back. *)
Theorem replies_once (s0 : St) reported (s : St) :
  se_apps s0 = [] -> se_replies s0 = [] -> (forall name q, PerAppQueue s0 !! name = Some q -> q = []) ->
  service_run clock s0 reported s ->
  exists answered,
    map (fun a => ai_fd <$> se_apps s !! a) answered = map (fun r => Some r.1) (se_replies s) /\
    forall a, let n := occ a (concat (map snd (map_to_list (PerAppQueue s))) ++ answered) in
      match se_apps s !! a with
      | None => n = 0
      | Some x => Nat.b2n (_reported x) <= n /\
          (reported = [] -> n = Nat.b2n (_reported x)) /\
          n <= 2 * Nat.b2n (_reported x) + Nat.b2n (_dropped x)
      end.
Proof.
  intros Ha Hr Hq Hrun.
  assert (Hs0 : Ans false [] s0).
  { unfold Ans, replies. rewrite Ha, Hr. exists []. split; [done|]. intros a. rewrite app_nil_r. cbn.
    assert (E : concat (map snd (map_to_list (PerAppQueue s0))) = []).
    { apply concat_nil_Forall, Forall_fmap, Forall_forall. intros [k q] Hin%elem_of_map_to_list. cbn. by eapply Hq. }
    by rewrite E. }
  apply (ans_run _ _ _ Hrun) in Hs0 as (answered & Hf & Hn). exists answered.
  assert (Hat : forall a, map app_view (se_apps s) !! a = app_view <$> se_apps s !! a).
  { intros a. change (map app_view) with (fmap (M := list) app_view). apply list_lookup_fmap. }
  split.
  - rewrite map_map in Hf. rewrite <- Hf. apply map_ext. intros a. rewrite Hat, <- option_fmap_compose. done.
  - intros a. specialize (Hn a). cbv zeta in *. cbn [app] in Hn. rewrite Hat in Hn.
    destruct (se_apps s !! a) as [x|]; [|done]. cbn in Hn.
    rewrite bool_decide_eq_false_2 in Hn by (by intros ?%elem_of_nil). unfold some_reported in Hn.
    destruct Hn as (_ & H1 & H2). split; [done|]. case_bool_decide; cbn in H2; split; intros; try done; lia.
Qed.
End ReplyInv.

#[local] Existing Instance rows_torch.
Lemma replies_once_witness :
  exists answered, map (fun a => ai_fd <$> se_apps demo_s8 !! a) answered = [Some 7%Z] /\ occ 0 answered = 1%nat.
Proof.
  destruct (replies_once demo_clock demo_idle [] demo_s8) as (answered & Hf & Hn).
  - vm_compute. reflexivity.
  - vm_compute. reflexivity.
  - intros name q. assert (E : PerAppQueue demo_idle = {["game"%string := []]}) by (vm_compute; reflexivity).
    rewrite E. intros [<- <-]%lookup_singleton_Some. done.
  - apply run_of_steps, demo_steps.
  - exists answered. split; [rewrite Hf; vm_compute; reflexivity|]. specialize (Hn 0%nat). cbv zeta in Hn.
    assert (E : map snd (map_to_list (PerAppQueue demo_s8)) = [[]]) by (vm_compute; reflexivity).
    assert (Er : _reported <$> se_apps demo_s8 !! 0%nat = Some true) by (vm_compute; reflexivity).
    apply fmap_Some in Er as (x & Ex & Er). rewrite Ex, E, <- Er in Hn. by apply Hn.
Defined.

(** With the dropping thread the reply is not unique: an expired application is
    put into the queue of results without being marked as reported, and its
    request, still queued, goes on to finish it again. *)
Local Abbreviation DS := (Service (list Z)).
Definition demo_d9 : DS :=
  run (_ ← begin_batch demo_clock 3 (mkTaskSpec 0 "resnet50" 8 3);
       _ ← batch_turn demo_clock 3 "resnet50" 0 0 fzero 0;
       _ ← end_batch demo_clock 3 "resnet50" 0;
       _ ← initOutput_step demo_clock (fun _ => [5]%Z) 3;
       _ ← initApp_step "game"; initApp_step "game") demo_d3.
Lemma dropped_app_answered_twice : se_replies demo_d9 = [(7, 1); (7, 1)]%Z.
Proof. vm_compute. reflexivity. Qed.
