(* ===== verification/RoutingProps.v ===== *)
(** * Routing: [applyRouting_sync] puts a schedule into effect.

    Every node of the schedule names a proxy by device, share and
    [dedup_num]; what the frontend routes to a proxy afterwards is what the
    schedule put on its nodes, and nothing of the routes before. *)
From Stdlib Require Import ZArith SpecFloat String Lia.
From S2P Require Import Prelude CppFloat CppStd LatencyModel DevPerfModel SchedData SchedUtils SchedBase Json IncrSchedule Demo LoadBalancer SelfTuning AppModel SysState Control GlobalState GlobalSched DemoServer.

(** What one node of a schedule asks for. *)
Record Route : Type := mkRoute {
  ro_proxy : ProxyPtr; ro_models : list (string * Z); ro_duty : spec_float }.

Definition monitor_of (s : Server) : SysMonitor := f_sys (fe_front (sv_fe s)).
Definition proxies_of (s : Server) : list ProxyInfo := f_proxies (fe_front (sv_fe s)).

Definition fits (px : list ProxyInfo) (cap dedup : Z) (p : ProxyPtr) : bool :=
  match px !! p with Some x => ((p_cap x =? cap) && (p_dedup_num x =? dedup))%Z | None => false end.

Definition task_route (w : World) (tp : TaskPtr) (e : string * Z) : Prop :=
  exists t, rd_task tp w = Done (t, w) /\ SchedBase.getModelName (t_id t) w = Done (e.1, w) /\
    e.2 = t_batch_size t.

(** The route of a node: its proxy is the first of the device with its share
    and [dedup_num]. *)
Definition node_route (s : Server) (np : NodePtr) (r : Route) : Prop :=
  exists n, rd_node np (sv_world s) = Done (n, sv_world s) /\
    (n_id n < nGPUs (monitor_of s))%Z /\
    find (fits (proxies_of s) (n_resource_pntg n) (n_dedup_num n)) (getDevMPSInfo (n_id n) (monitor_of s))
      = Some (ro_proxy r) /\
    Forall2 (task_route (sv_world s)) (n_vTaskList n) (ro_models r) /\
    ro_duty r = n_duty_cycle n.

(** What a route does to the proxy [p]. *)
Definition takes (p : ProxyPtr) (r : Route) : bool :=
  (ro_proxy r =? p)%nat && negb (bool_decide (ro_models r = [])).
Definition take_route (p : ProxyPtr) (x : ProxyInfo) (r : Route) : ProxyInfo :=
  if takes p r then set_p_duty_cycle (ro_duty r) (set_isSchedulable true x) else x.
Definition models_for (p : ProxyPtr) (routes : list Route) : list (string * Z) :=
  concat (map ro_models (filter (fun r => ro_proxy r = p) routes)).

Lemma take_route_own x r : ro_models r <> [] ->
  take_route (ro_proxy r) x r = set_p_duty_cycle (ro_duty r) (set_isSchedulable true x).
Proof. intros H. unfold take_route, takes. by rewrite Nat.eqb_refl, bool_decide_false. Qed.
Lemma take_route_other p x r : p <> ro_proxy r -> take_route p x r = x.
Proof. intros H. unfold take_route, takes. by rewrite (proj2 (Nat.eqb_neq _ _)). Qed.
Lemma take_route_empty p x r : ro_models r = [] -> take_route p x r = x.
Proof. intros H. unfold take_route, takes. by rewrite H, andb_false_r. Qed.

(** ** Runs of the primitives *)
(** [s] with other routes and other proxies. *)
Definition at_routes (s : Server) (nets : gmap nat (list (string * Z))) (px : list ProxyInfo) : Server :=
  set_sv_fe (set_fe_front (mkFront (set_PerProxyNetList nets (monitor_of s)) px) (sv_fe s)) s.

Lemma at_routes_same s : at_routes s (PerProxyNetList (monitor_of s)) (proxies_of s) = s.
Proof. by destruct s as [? ? [[[] ?] ? ?] ? ? ?]. Qed.
Lemma run_on_sched {A} (m : SM A) s nets px a : m (sv_world s) = Done (a, sv_world s) ->
  on_sched m (at_routes s nets px) = Done (a, at_routes s nets px).
Proof. intros H. unfold on_sched, zoom. cbn [sv_world at_routes set_sv_fe]. by rewrite H. Qed.
Lemma run_rd s nets px p x : px !! p = Some x ->
  rd p (at_routes s nets px) = Done (x, at_routes s nets px).
Proof.
  intros H. unfold rd, on_fe, fe_rd, fe_on_front, zoom. cbn.
  unfold rd_proxy. mred. by rewrite H.
Qed.
Lemma run_wr s nets px p g x : px !! p = Some x ->
  wr p g (at_routes s nets px) = Done (tt, at_routes s nets (<[p := g x]> px)).
Proof.
  intros H. unfold wr, on_fe, fe_wr, fe_on_front, zoom. cbn.
  unfold wr_proxy. mred. by rewrite H.
Qed.
Lemma run_spin threads n flag s nets px p x : px !! p = Some x -> flag x = false ->
  on_fe (spin threads n flag p) (at_routes s nets px) = Done (tt, at_routes s nets px).
Proof.
  intros H Hf. pose proof (run_rd s nets px p x H) as Hr. unfold rd, on_fe, zoom in Hr |- *.
  destruct n; cbn [spin]; destruct (fe_rd p _) as [[y t]|] eqn:E; try done;
    injection Hr as -> Ht; rewrite (bind_done _ _ _ _ _ E), Hf; cbn; by rewrite Ht.
Qed.
Lemma run_mod_nets s nets px f :
  mod_monitor (fun m => set_PerProxyNetList (f (PerProxyNetList m)) m) (at_routes s nets px)
  = Done (tt, at_routes s (f nets) px).
Proof. done. Qed.

(** [getProxyInfo] is a search when all proxies of the device exist. *)
Lemma getProxyInfo_find f dev cap dedup p :
  (dev < nGPUs (f_sys f))%Z ->
  (forall q, q ∈ getDevMPSInfo dev (f_sys f) -> is_Some (f_proxies f !! q)) ->
  find (fits (f_proxies f) cap dedup) (getDevMPSInfo dev (f_sys f)) = Some p ->
  getProxyInfo dev cap dedup f = Done (p, f).
Proof.
  intros Hd Hex Hf. unfold getProxyInfo. erewrite bind_done by reflexivity.
  erewrite bind_done by (unfold massert; cbn; by rewrite (proj2 (Z.ltb_lt _ _) Hd)).
  rewrite (bind_done _ _ f (Some p) f); [done|].
  revert Hex Hf. induction (getDevMPSInfo dev (f_sys f)) as [|q l IH]; intros Hex Hf; [done|].
  destruct (Hex q ltac:(by left)) as [x Hx].
  assert (Hrd : rd_proxy q f = Done (x, f)) by (unfold rd_proxy; mred; by rewrite Hx).
  cbn [for_ret]. erewrite bind_done by (erewrite bind_done by exact Hrd; reflexivity).
  cbn in Hf. unfold fits in Hf at 1. rewrite Hx in Hf.
  destruct (_ && _); [by injection Hf as ->|]. apply IH; [|done]. intros r Hr. apply Hex. by right.
Qed.
Lemma run_getProxyInfo s nets px dev cap dedup p :
  (dev < nGPUs (monitor_of s))%Z ->
  (forall q, q ∈ getDevMPSInfo dev (monitor_of s) -> is_Some (px !! q)) ->
  find (fits px cap dedup) (getDevMPSInfo dev (monitor_of s)) = Some p ->
  on_front_fe (getProxyInfo dev cap dedup) (at_routes s nets px) = Done (p, at_routes s nets px).
Proof.
  intros Hd Hex Hf. unfold on_front_fe, on_fe, fe_on_front, zoom.
  rewrite (getProxyInfo_find _ dev cap dedup p); [done|exact Hd|exact Hex|exact Hf].
Qed.

(** ** The two phases *)
Section Routing.
Context (threads : nat -> Frontend -> Frontend) (fuel : nat) (s : Server).
Local Abbreviation mon := (monitor_of s).
Local Abbreviation devs := (all_proxies mon).
(** Every proxy of a device exists and none is loading a model. *)
Hypothesis settled : forall d p, p ∈ getDevMPSInfo d mon ->
  exists x, proxies_of s !! p = Some x /\ isLoading x = false.

(** [s'] differs from [s] in its routes and proxies only, which are [N] and
    [F]. *)
Definition routed (N : ProxyPtr -> list (string * Z)) (F : ProxyPtr -> ProxyInfo -> ProxyInfo) (s' : Server) : Prop :=
  exists nets px, s' = at_routes s nets px /\ (forall p, default [] (nets !! p) = N p) /\
    forall p x, proxies_of s !! p = Some x -> px !! p = Some (F p x).

Definition flushed (pre : list ProxyPtr) : Server -> Prop :=
  routed (fun p => if bool_decide (p ∈ pre) then [] else getProxyNetList p mon)
         (fun p x => if bool_decide (p ∈ pre) then set_isSchedulable false x else x).

Lemma px_insert (F : ProxyPtr -> ProxyInfo -> ProxyInfo) (px : list ProxyInfo) p x y :
  (forall q z, proxies_of s !! q = Some z -> px !! q = Some (F q z)) ->
  proxies_of s !! p = Some x ->
  forall q z, proxies_of s !! q = Some z ->
    <[p := y]> px !! q = Some (if decide (q = p) then y else F q z).
Proof.
  intros Hpx Hx q z Hz. case_decide as Hq; subst.
  - apply list_lookup_insert_eq. eapply lookup_lt_Some. by apply Hpx.
  - rewrite list_lookup_insert_ne by done. by apply Hpx.
Qed.

Lemma flush_route_step pre p s' d : p ∈ getDevMPSInfo d mon -> flushed pre s' ->
  returns (flush_route threads fuel p) s' (fun _ => flushed (pre ++ [p])).
Proof.
  intros Hp (nets & px & -> & Hn & Hpx). destruct (settled d p Hp) as (x & Hx & Hl).
  pose proof (Hpx p x Hx) as Hpx'. set (x1 := if bool_decide _ then _ else _) in Hpx'.
  assert (Hl1 : isLoading x1 = false) by (unfold x1; by destruct (bool_decide _)).
  unfold flush_route.
  eapply returns_read; [exact (run_mod_nets s nets px (fun n => <[p := []]> n))|].
  eapply returns_read; [by apply (run_spin threads fuel isLoading s _ px p x1)|].
  eapply returns_intro; [by apply run_wr|].
  eexists _, _. split; [done|]. split.
  - intros q. destruct (decide (q = p)) as [->|Hne].
    + rewrite lookup_insert_eq, bool_decide_true by set_solver. done.
    + rewrite lookup_insert_ne, Hn by done. by rewrite !(bool_decide_ext (q ∈ pre ++ [p]) (q ∈ pre)) by set_solver.
  - intros q z Hz. rewrite (px_insert _ px p x _ Hpx Hx q z Hz). f_equal. case_decide as Hq; subst.
    + rewrite Hx in Hz. injection Hz as <-. rewrite bool_decide_true by set_solver.
      unfold x1. by destruct (bool_decide _).
    + by rewrite !(bool_decide_ext (q ∈ pre ++ [p]) (q ∈ pre)) by set_solver.
Qed.

Lemma flush_all s' : flushed [] s' ->
  returns (for_each (dev_range (nGPUs mon)) (fun i =>
             m ← monitor; for_each (getDevMPSInfo i m) (flush_route threads fuel))) s'
    (fun _ => flushed devs).
Proof.
  intros H. unfold all_proxies.
  apply (returns_for_each (fun pre => flushed (concat (map (fun i => getDevMPSInfo i mon) pre)))); [|done].
  intros pre i s1 _ Hs1. rewrite map_app, concat_app. cbn [map concat]. rewrite app_nil_r.
  eapply returns_read; [reflexivity|].
  assert (Hm : getDevMPSInfo i (f_sys (fe_front (sv_fe s1))) = getDevMPSInfo i mon).
  { destruct Hs1 as (nets & px & -> & _). done. }
  rewrite Hm. apply (returns_for_each (fun l => flushed (_ ++ l))); [|by rewrite app_nil_r].
  intros l p s2 Hp Hs2. rewrite app_assoc. by apply (flush_route_step _ _ _ i).
Qed.

(** Routes are added to what the flush left. *)
Definition base_net (p : ProxyPtr) := if bool_decide (p ∈ devs) then [] else getProxyNetList p mon.
Definition base_proxy (p : ProxyPtr) (x : ProxyInfo) := if bool_decide (p ∈ devs) then set_isSchedulable false x else x.
Definition after (routes : list Route) : Server -> Prop :=
  routed (fun p => base_net p ++ models_for p routes) (fun p x => foldl (take_route p) (base_proxy p x) routes).

Definition add_net (p : ProxyPtr) (nets : gmap nat (list (string * Z))) (e : string * Z) :=
  <[p := default [] (nets !! p) ++ [e]]> nets.
Lemma run_route_tasks p l ms nets px : Forall2 (task_route (sv_world s)) l ms ->
  for_each l (route_task p) (at_routes s nets px) = Done (tt, at_routes s (foldl (add_net p) nets ms) px).
Proof.
  intros H. revert nets. induction H as [|tp e l ms (t & Ht & Hid & He) _ IH]; intros nets; [done|].
  cbn [for_each foldl]. rewrite (bind_done _ _ _ tt (at_routes s (add_net p nets e) px)); [apply IH|].
  unfold route_task. rewrite (bind_done _ _ _ _ _ (run_on_sched _ s nets px t Ht)).
  rewrite (bind_done _ _ _ _ _ (run_on_sched _ s nets px _ Hid)). destruct e as [a b]. cbn in *. by subst.
Qed.
Lemma add_nets p ms nets q : default [] (foldl (add_net p) nets ms !! q)
  = default [] (nets !! q) ++ (if decide (p = q) then ms else []).
Proof.
  revert nets. induction ms as [|e ms IH]; intros nets; cbn; [case_decide; by rewrite app_nil_r|].
  rewrite IH. unfold add_net. case_decide; subst.
  - rewrite lookup_insert_eq. cbn. by rewrite <- app_assoc.
  - by rewrite lookup_insert_ne.
Qed.
Lemma models_for_snoc p routes r :
  models_for p (routes ++ [r]) = models_for p routes ++ (if decide (ro_proxy r = p) then ro_models r else []).
Proof.
  unfold models_for. rewrite filter_app, map_app, concat_app. f_equal.
  rewrite filter_cons. case_decide; cbn; by rewrite ?app_nil_r.
Qed.
Lemma take_keeps p x routes : let x' := foldl (take_route p) (base_proxy p x) routes in
  p_cap x' = p_cap x /\ p_dedup_num x' = p_dedup_num x.
Proof.
  cbn. induction routes as [|r routes IH] using rev_ind; [cbn; unfold base_proxy; by destruct (bool_decide _)|].
  rewrite foldl_app. cbn. unfold take_route at 1 3. by destruct (takes p r).
Qed.

Lemma find_ext {A} (f g : A -> bool) l : (forall x, x ∈ l -> f x = g x) -> find f l = find g l.
Proof.
  induction l as [|x l IH]; intros H; [done|]. cbn. rewrite <- (H x) by by left.
  rewrite IH; [done|]. intros y Hy. apply H. by right.
Qed.
Lemma route_node_step routes np r s' : node_route s np r -> after routes s' ->
  returns (route_node np) s' (fun _ => after (routes ++ [r])).
Proof.
  intros (n & Hn & Hd & Hf & Hms & Hdc) (nets & px & -> & Hnets & Hpx).
  assert (Hin : ro_proxy r ∈ getDevMPSInfo (n_id n) mon).
  { apply find_some in Hf as [Hf _]. by apply list_elem_of_In. }
  destruct (settled _ _ Hin) as (x & Hx & _). pose proof (Hpx _ _ Hx) as Hpr.
  assert (Hfind : find (fits px (n_resource_pntg n) (n_dedup_num n)) (getDevMPSInfo (n_id n) mon) = Some (ro_proxy r)).
  { rewrite <- Hf. apply find_ext. intros q Hq. destruct (settled _ _ Hq) as (y & Hy & _).
    unfold fits. rewrite (Hpx q y Hy), Hy. by destruct (take_keeps q y routes) as [-> ->]. }
  unfold route_node. eapply returns_read; [by apply run_on_sched|].
  eapply returns_read.
  { apply run_getProxyInfo; [exact Hd| |exact Hfind]. intros q Hq. destruct (settled _ _ Hq) as (y & Hy & _).
    rewrite (Hpx q y Hy). by eexists. }
  case_decide as Hempty.
  - assert (Heq : ro_models r = []) by (rewrite Hempty in Hms; by inversion Hms). apply returns_intro with tt (at_routes s nets px); [done|].
    exists nets, px. split; [done|]. split.
    + intros q. rewrite Hnets, models_for_snoc, Heq. case_decide; by rewrite app_nil_r.
    + intros q z Hz. rewrite (Hpx q z Hz), foldl_app. cbn [foldl]. by rewrite take_route_empty.
  - assert (Hne : ro_models r <> []) by (intros E; rewrite E in Hms; inversion Hms; congruence).
    eapply returns_read; [by apply run_route_tasks|].
    eapply returns_read; [by apply run_wr|].
    eapply returns_intro; [eapply run_wr, list_lookup_insert_eq, lookup_lt_Some; exact Hpr|].
    eexists _, _. split; [done|]. split.
    + intros q. by rewrite add_nets, Hnets, models_for_snoc, app_assoc.
    + intros q z Hz. rewrite list_insert_insert_eq, foldl_app.
      rewrite (px_insert _ px _ x _ Hpx Hx q z Hz). f_equal. cbn [foldl].
      case_decide as Hq.
      * subst q. rewrite Hx in Hz. injection Hz as <-. rewrite take_route_own, Hdc by done. done.
      * by rewrite take_route_other.
Qed.

Lemma route_nodes l rs routes s' : Forall2 (node_route s) l rs -> after routes s' ->
  returns (for_each l route_node) s' (fun _ => after (routes ++ rs)).
Proof.
  intros H. revert routes s'. induction H as [|np r l rs Hr _ IH]; intros routes s' Hs'; cbn.
  - by rewrite app_nil_r.
  - eapply returns_bind; [by apply (route_node_step routes np r)|]. intros ? s1 Hs1.
    rewrite (cons_middle r routes rs), app_assoc. by apply IH.
Qed.
Lemma route_gpus l gl rs routes s' :
  Forall2 (fun gp g => rd_gpu gp (sv_world s) = Done (g, sv_world s)) l gl ->
  Forall2 (node_route s) (concat (map g_vNodeList gl)) rs -> after routes s' ->
  returns (for_each l (fun gp => g ← on_sched (rd_gpu gp); for_each (g_vNodeList g) route_node)) s'
    (fun _ => after (routes ++ rs)).
Proof.
  intros H. revert rs routes s'. induction H as [|gp g l gl Hg _ IH]; intros rs routes s' Hrs Hs'; cbn in *.
  - inversion Hrs. by rewrite app_nil_r.
  - apply Forall2_app_inv_l in Hrs as (rs1 & rs2 & H1 & H2 & ->). rewrite app_assoc.
    apply returns_bind with (Q1 := fun _ => after (routes ++ rs1)); [|intros ? s1 Hs1; by apply IH].
    assert (Hrd : on_sched (rd_gpu gp) s' = Done (g, s')).
    { destruct Hs' as (nets & px & -> & _). by apply run_on_sched. }
    eapply returns_read; [exact Hrd|]. by apply route_nodes.
Qed.

Lemma schedulable_fold p x routes : p ∈ devs ->
  isSchedulable (foldl (take_route p) (base_proxy p x) routes) = existsb (takes p) routes.
Proof.
  intros Hp. induction routes as [|r routes IH] using rev_ind; cbn.
  - unfold base_proxy. by rewrite bool_decide_true.
  - rewrite foldl_app, existsb_app, <- IH. cbn. unfold take_route at 1.
    destruct (takes p r); cbn; by rewrite ?orb_true_r, ?orb_false_r.
Qed.

(** Applying a schedule routes exactly what it says.  When no proxy is
    loading a model and every node of the schedule names a proxy, the routing
    step returns; each proxy of the devices then serves the models and batch
    sizes of the nodes that name it, in the order of the schedule and with
    nothing left of its earlier routes, it is schedulable exactly when such a
    node has a model, its duty cycle is that of the last of them, and the load
    balancer holds the table of the schedule.  The rest of the state is
    unchanged. *)
Lemma applyRouting_sync_spec output gl routes rows :
  Forall2 (fun gp g => rd_gpu gp (sv_world s) = Done (g, sv_world s)) (vGPUList output) gl ->
  Forall2 (node_route s) (concat (map g_vNodeList gl)) routes ->
  sched_rows output (sv_world s) = Done (rows, sv_world s) ->
  returns (applyRouting_sync threads fuel output) s (fun _ s' => exists nets px,
    s' = set_sv_gs (set_mLoadBalancer (updateTable rows (mLoadBalancer (sv_gs s))) (sv_gs s)) (at_routes s nets px) /\
    (forall p x, proxies_of s !! p = Some x -> px !! p = Some (foldl (take_route p) (base_proxy p x) routes)) /\
    forall p x, p ∈ devs -> proxies_of s !! p = Some x ->
      getProxyNetList p (monitor_of s') = models_for p routes /\
      exists x', proxies_of s' !! p = Some x' /\
        x' = foldl (take_route p) (set_isSchedulable false x) routes /\
        isSchedulable x' = existsb (takes p) routes).
Proof.
  intros Hg Hr Hrows. unfold applyRouting_sync. eapply returns_read; [reflexivity|].
  eapply returns_bind; [apply flush_all|intros ? s1 Hs1].
  { rewrite <- (at_routes_same s). eexists _, _. split; [done|]. split; [done|]. intros p x Hx. done. }
  eapply returns_bind; [apply (route_gpus _ gl routes []); [done..|]|].
  { destruct Hs1 as (nets & px & -> & Hn & Hpx). exists nets, px. split; [done|].
    split; [|exact Hpx]. intros p. rewrite Hn. by rewrite app_nil_r. }
  clear Hs1. intros ? s2 (nets & px & -> & Hn & Hpx).
  eapply returns_read; [by apply run_on_sched|]. eapply returns_intro; [reflexivity|].
  exists nets, px. split; [done|]. split; [exact Hpx|]. intros p x Hp Hx. split.
  - change (default [] (nets !! p) = models_for p routes). rewrite Hn. unfold base_net. by rewrite bool_decide_true.
  - eexists. split; [by apply Hpx|]. split; [unfold base_proxy; by rewrite bool_decide_true|].
    by apply schedulable_fold.
Qed.
End Routing.

(** ** An example *)
(** A schedule with two nodes: [resnet50] in batches of 8 on half of GPU 0, and
    the empty node of GPU 1. *)
Definition demo_output_server : Server :=
  set_sv_world (run (np ← demo_estimate; wr_gpu 0 (set_g_vNodeList [np])) demo_world) demo_server.
Definition demo_gpus : list GPU := [mkGPU 0 16000 0 "A" [] [2%nat]; mkGPU 1 16000 0 "A" [] [1%nat]]%Z.
Definition demo_routes : list Route := [mkRoute 2 [("resnet50"%string, 8%Z)] (i2f 20); mkRoute 9 [] fzero].
Definition demo_lb_rows : list (Z * Z * Z * Z * spec_float) := [(7, 0, 50, 0, i2f 400)]%Z.
Definition no_threads (n : nat) (f : Frontend) : Frontend := f.

Definition settled_proxy (px : list ProxyInfo) (p : ProxyPtr) : bool :=
  match px !! p with Some x => negb (isLoading x) | None => false end.
Lemma settled_check s :
  forallb (fun e => forallb (settled_proxy (proxies_of s)) e.2) (map_to_list (PerDevMPSInfo (monitor_of s))) = true ->
  forall d p, p ∈ getDevMPSInfo d (monitor_of s) -> exists x, proxies_of s !! p = Some x /\ isLoading x = false.
Proof.
  intros H d p Hp. pose proof (dev_proxies_check _ _ H d p Hp) as Hs. unfold settled_proxy in Hs.
  destruct (_ !! p) as [x|]; [|done]. exists x. split; [done|]. by destruct (isLoading x).
Qed.
Lemma known_check s p :
  existsb (Nat.eqb p) (all_proxies (monitor_of s)) && settled_proxy (proxies_of s) p = true ->
  exists x, p ∈ all_proxies (monitor_of s) /\ proxies_of s !! p = Some x.
Proof.
  intros [H1 H2]%andb_true_iff. apply existsb_exists in H1 as (q & Hq & ->%Nat.eqb_eq).
  unfold settled_proxy in H2. destruct (proxies_of s !! q) as [x|]; [|done].
  exists x. split; [by apply list_elem_of_In|done].
Qed.
