(* ===== verification/ProxyJobs.v ===== *)
(** * Threads that load and unload models: what a job leaves of its proxy
    ([service/global_scheduler_proxy.cpp])

    A job ([GlobalSched.run_job]) polls the state of its proxy and waits for other
    threads of the frontend.  [Backend_serves] is what it needs of the backend, for
    the orders a job may give ([course]); [quiet] and [drains] are what it needs of
    the other threads: they may do anything that leaves the members in [at_job]
    alone. *)
From Stdlib Require Import ZArith SpecFloat String Lia.
From S2P Require Import Prelude CppFloat CppStd LatencyModel DevPerfModel SchedData SchedUtils SchedBase IncrSchedule LoadBalancer SelfTuning AppModel SysState Control GlobalState GlobalSched.

Section Jobs.
Context (reply : list (Z * list Z) -> Z) (threads : nat -> Frontend -> Frontend) (fuel : nat).
Context (p : ProxyPtr) (node dev part : Z).

(** ** The messages about the proxy *)
Definition order (cmd : BACKEND_CONTROL_CMD) (more : list Z) : list Z := control_msg cmd dev part more.
Definition poll : list Z := order BACKEND_GET_STATE [].
(** Questions about a whole GPU or node are left out. *)
Definition own_msg (e : Z * list Z) : bool :=
  match e.2 with
  | _ :: cmd :: d :: q :: _ => ((e.1 =? node) && (d =? dev) && (q =? part) && (cmd <? 8))%Z
  | _ => false
  end.
Definition own (log : list (Z * list Z)) : list (list Z) := map snd (List.filter own_msg log).
(** ** The course of a proxy, by the messages about it and the answers to the polls:
    each order is given where the code gives it, and the states that are waited
    for have been seen.  Everything else is [Astray]. *)
Inductive Course : Type :=
| Down       (* COLD: not started yet, or seen COLD after the end *)
| Starting   (* told to start *)
| Up         (* seen RUNNING, not connected yet *)
| Serving    (* connected, no order to load or unload open *)
| Announced  (* marked for an order that comes next *)
| Busy       (* told to load or unload *)
| Ending     (* told to end *)
| Flushed    (* seen FLUSHED *)
| Leaving    (* told to disconnect *)
| Astray.
#[global] Instance course_eq_dec : EqDecision Course.
Proof. solve_decision. Defined.
(** The command of a message about the proxy whose length is right, and its
    parameters. *)
Definition asks (msg : list Z) : option (BACKEND_CONTROL_CMD * list Z) :=
  match msg with
  | n :: cmd :: d :: q :: more =>
      if ((n =? Z.of_nat (3 + length more)) && (d =? dev) && (q =? part))%Z
      then (fun c => (c, more)) <$> cmd_of_code cmd else None
  | _ => None
  end.
(** The state it is to reach. *)
Definition goal (k : Course) : option proxy_state :=
  match k with
  | Down | Leaving => Some COLD
  | Starting | Up | Serving | Busy => Some RUNNING
  | Ending | Flushed => Some FLUSHED
  | Announced | Astray => None
  end.
(** The state has been seen. *)
Definition seen (k : Course) : Course :=
  match k with Starting => Up | Busy => Serving | Ending => Flushed | Leaving => Down | k => k end.
(** One more message; [a] is the answer to it. *)
Definition course_step (a : Z) (k : Course) (msg : list Z) : Course :=
  match asks msg, k with
  | Some (BACKEND_GET_STATE, _), _ => if bool_decide (Some a = state_code <$> goal k) then seen k else k
  | Some (BACKEND_START_PROXY, _), Down => Starting
  | Some (BACKEND_CONNECT_PROXY, _), Up => Serving
  | Some (BACKEND_SET_STATE, _), (Serving | Busy) => Announced
  | Some (BACKEND_LOAD_MODEL, [_; _]), Announced => Busy
  | Some (BACKEND_UNLOAD_MODEL, [_]), Announced => Busy
  | Some (BACKEND_END_PROXY, _), Serving => Ending
  | Some (BACKEND_DISCONNECT_PROXY, _), Flushed => Leaving
  | _, _ => Astray
  end.
Definition follow (answer : list (list Z) -> Z) (st : list (list Z) * Course) (msg : list Z) : list (list Z) * Course :=
  (st.1 ++ [msg], course_step (answer st.1) st.2 msg).
Definition course (answer : list (list Z) -> Z) (l : list (list Z)) : Course := (foldl (follow answer) ([], Down) l).2.

(** The answer to a poll depends on the messages about the proxy before it (which
    count the polls, so time may pass between them).  A proxy that is given its
    orders as the code gives them reaches its goal within [fuel] polls, and stays
    there; it is COLD only when that is its goal.  Of a proxy that is astray, or
    that is marked LOADING with no order to load yet, nothing is asked: nothing
    would move it on. *)
Record Backend_serves (answer : list (list Z) -> Z) : Prop := {
  bs_own log : reply (log ++ [(node, poll)]) = answer (own log);
  bs_settles l st : goal (course answer l) = Some st ->
    exists k, (k <= fuel)%nat /\ answer (l ++ repeat poll k) = state_code st;
  bs_stays l st : goal (course answer l) = Some st -> answer l = state_code st -> answer (l ++ [poll]) = state_code st;
  bs_cold l st : goal (course answer l) = Some st -> answer l = state_code COLD -> st = COLD }.

(** ** What a job relies on *)
Record Core : Type := mkCore { k_booted : bool; k_connected : bool; k_models : list string }.
Definition core (x : ProxyInfo) : Core := mkCore (isBooted x) (isConnected x) (LoadedModels x).
(** The proxy with flag [isUnloading = b], members [c], and messages [l] so far. *)
Record at_job (b : bool) (c : Core) (l : list (list Z)) (f : Frontend) : Prop := {
  aj_proxy : exists x, f_proxies (fe_front f) !! p = Some x /\ core x = c /\ isUnloading x = b /\
    p_node_id x = node /\ partition_num x = part /\ lookupFrontDevIDtoBackDevID x (fe_ctrl f) = dev;
  aj_delegate : is_Some (mMapBackendDelegate (fe_ctrl f) !! node);
  aj_queue : is_Some (PerProxyBatchList (f_sys (fe_front f)) !! p);
  aj_log : own (c_log (fe_ctrl f)) = l }.
Definition quiet (b : bool) : Prop := forall n c l f, at_job b c l f -> at_job b c l (threads n f).

Fixpoint sleeps (k : nat) (f : Frontend) : Frontend :=
  match k with
  | O => f
  | S k' => let f' := threads (fe_ticks f) f in sleeps k' (mkFrontend (fe_front f') (fe_ctrl f') (S (fe_ticks f)))
  end.
Definition idle (model_name : string) (f : Frontend) : Prop :=
  exists x, f_proxies (fe_front f) !! p = Some x /\ PerProxyBatchList (f_sys (fe_front f)) !! p = Some [] /\
    default 0%Z (isTaskBatching x !! model_name) = 0%Z /\ default 0%Z (isTaskExec x !! model_name) = 0%Z.
(** The batches on their way to a proxy that is being unloaded get through. *)
Definition drains : Prop := forall c l f model_name, at_job true c l f -> model_name ∈ k_models c ->
  exists k, (k <= fuel)%nat /\ idle model_name (sleeps k f).

(** What the orders of a job are: its messages but the polls. *)
Definition orders (l : list (list Z)) : list (list Z) := List.filter (fun m => negb (bool_decide (m = poll))) l.
Lemma orders_app l1 l2 : orders (l1 ++ l2) = orders l1 ++ orders l2.
Proof. apply List.filter_app. Qed.
Lemma orders_polls k : orders (repeat poll k) = [].
Proof. unfold orders. induction k as [|k IH]; cbn; [done|]. by rewrite bool_decide_eq_true_2. Qed.
Lemma follow_log answer l : (foldl (follow answer) ([], Down) l).1 = l.
Proof. induction l as [|m l IH] using rev_ind; [done|]. rewrite foldl_app. cbn. by rewrite IH. Qed.
Lemma course_snoc answer l m : course answer (l ++ [m]) = course_step (answer l) (course answer l) m.
Proof. unfold course. rewrite foldl_app. cbn. by rewrite follow_log. Qed.
Lemma asks_order cmd more : asks (order cmd more) = Some (cmd, more).
Proof.
  unfold asks, order, control_msg. cbn [length].
  replace (_ =? _)%Z with true by (symmetry; apply Z.eqb_eq; lia). rewrite !Z.eqb_refl. by destruct cmd.
Qed.
Lemma seen_seen k : seen (seen k) = seen k.
Proof. by destruct k. Qed.
Lemma goal_seen k : goal (seen k) = goal k.
Proof. by destruct k. Qed.
Lemma course_poll answer l st : goal (course answer l) = Some st ->
  course answer (l ++ [poll]) = if decide (answer l = state_code st) then seen (course answer l) else course answer l.
Proof.
  intros Hg. rewrite course_snoc. unfold course_step, poll. rewrite asks_order, Hg. cbn.
  destruct (decide (answer l = state_code st)) as [->|Hne]; [by rewrite bool_decide_eq_true_2|].
  by rewrite bool_decide_eq_false_2 by congruence.
Qed.
Lemma course_polls answer l st j : goal (course answer l) = Some st ->
  course answer (l ++ repeat poll j) = course answer l \/ course answer (l ++ repeat poll j) = seen (course answer l).
Proof.
  intros Hg. induction j as [|j IH]; [left; by rewrite app_nil_r|].
  replace (repeat poll (S j)) with (repeat poll j ++ [poll]) by (symmetry; apply repeat_cons).
  rewrite app_assoc, (course_poll _ _ st) by (destruct IH as [->| ->]; by rewrite ?goal_seen).
  destruct (decide _), IH as [->| ->]; rewrite ?seen_seen; auto.
Qed.
Lemma course_reached answer l st j : goal (course answer l) = Some st -> answer (l ++ repeat poll j) = state_code st ->
  course answer (l ++ repeat poll (S j)) = seen (course answer l).
Proof.
  intros Hg Ha. replace (repeat poll (S j)) with (repeat poll j ++ [poll]) by (symmetry; apply repeat_cons).
  pose proof (course_polls answer l st j Hg) as Hc.
  rewrite app_assoc, (course_poll _ _ st) by (destruct Hc as [->| ->]; by rewrite ?goal_seen).
  rewrite decide_True by done. destruct Hc as [->| ->]; by rewrite ?seen_seen.
Qed.

(** ** Single operations *)
Section Operations.
Context (b : bool) (Hquiet : quiet b).

Lemma rd_job c l f : at_job b c l f -> exists x, fe_rd p f = Done (x, f) /\
  f_proxies (fe_front f) !! p = Some x /\ core x = c /\ isUnloading x = b.
Proof.
  intros [(x & Hx & Hc & Hb & _) _ _ _]. exists x. split; [|done].
  unfold fe_rd, fe_on_front, zoom, rd_proxy. mred. rewrite Hx. by destruct f.
Qed.
Lemma wr_job b' c c' l f g : at_job b c l f ->
  (forall x, core x = c -> isUnloading x = b -> core (g x) = c' /\ isUnloading (g x) = b') ->
  (forall x, p_node_id (g x) = p_node_id x /\ p_dev_id (g x) = p_dev_id x /\ partition_num (g x) = partition_num x) ->
  returns (fe_wr p g) f (fun _ f' => at_job b' c' l f' /\
    exists x, f_proxies (fe_front f) !! p = Some x /\ f_proxies (fe_front f') !! p = Some (g x)).
Proof.
  intros [(x & Hx & Hc & Hb & Hn & Hp & Hd) H2 H3 H4] Hg Hk. destruct (Hg x Hc Hb) as [Hc' Hb'].
  destruct (Hk x) as (K1 & K2 & K3).
  assert (Hi : <[p:=g x]> (f_proxies (fe_front f)) !! p = Some (g x))
    by (apply list_lookup_insert_eq; by eapply lookup_lt_Some).
  unfold returns, fe_wr, fe_on_front, zoom, wr_proxy. mred. rewrite Hx.
  split; [split; cbn; [|done..]|by exists x].
  exists (g x). split; [done|]. split; [done|]. split; [done|].
  unfold lookupFrontDevIDtoBackDevID in *. rewrite K1, K2, K3. done.
Qed.
Lemma open_job c l f direction : at_job b c l f -> returns (open_channel p direction) f (fun _ => at_job b c l).
Proof.
  intros H. destruct (rd_job c l f H) as (x & Hrd & _). destruct H as [H1 H2 H3 H4]. unfold open_channel.
  eapply returns_read; [exact Hrd|]. eapply returns_read; [reflexivity|]. eapply returns_intro; [reflexivity|]. by split.
Qed.
Lemma sleep_job c l f : at_job b c l f -> returns (fe_sleep threads) f (fun _ f' => f' = sleeps 1 f /\ at_job b c l f').
Proof.
  intros H. apply (Hquiet (fe_ticks f)) in H. unfold returns, fe_sleep, modify. split; [done|].
  destruct H. by split.
Qed.
Lemma own_order cmd more : (cmd_code cmd <? 8)%Z = true -> own_msg (node, order cmd more) = true.
Proof. intros H. cbn. by rewrite !Z.eqb_refl, H. Qed.
Lemma call_job c l f cmd more : (cmd_code cmd <? 8)%Z = true -> at_job b c l f ->
  returns (call reply p cmd partition_num more) f (fun a f' => at_job b c (l ++ [order cmd more]) f' /\
    exists log, own log = l /\ a = reply (log ++ [(node, order cmd more)])).
Proof.
  intros Hcmd H. destruct (rd_job c l f H) as (x & Hrd & Hx & _ & _).
  destruct H as [(y & Hy & Hc & Hb & Hn & Hp & Hd) [d H2] H3 H4]. rewrite Hx in Hy. injection Hy as <-.
  unfold call. eapply returns_read; [exact Hrd|]. eapply returns_read; [reflexivity|]. cbv zeta.
  rewrite Hn, H2. eapply returns_read; [reflexivity|]. rewrite Hd, Hp. fold (order cmd more).
  eapply returns_read; [reflexivity|]. eapply returns_intro; [reflexivity|]. split; [|by exists (c_log (fe_ctrl f))].
  split; cbn.
  - exists x. by rewrite <- Hd.
  - by exists d.
  - done.
  - unfold own. rewrite List.filter_app, map_app. cbn [List.filter]. rewrite own_order by done. cbn. by rewrite <- H4.
Qed.

(** ** Orders and polls *)
Context (answer : list (list Z) -> Z) (Hbackend : Backend_serves answer).

(** The orders sent, and the course of the proxy; the last state was seen. *)
Definition has_sent (b : bool) (c : Core) (K : Course -> Prop) (ms : list (list Z)) (f : Frontend) : Prop :=
  exists l, at_job b c l f /\ K (course answer l) /\ orders l = ms.
Definition settled (b : bool) (c : Core) (k : Course) (ms : list (list Z)) (f : Frontend) : Prop :=
  exists l, at_job b c l f /\ course answer l = k /\ orders l = ms /\ Some (answer l) = state_code <$> goal k.
Lemma settled_sent b' c k ms f : settled b' c k ms f -> has_sent b' c (eq k) ms f.
Proof. intros (l & H1 & H2 & H3 & _). by exists l. Qed.
Lemma has_sent_weaken b' c (K K' : Course -> Prop) ms f : (forall k, K k -> K' k) ->
  has_sent b' c K ms f -> has_sent b' c K' ms f.
Proof. intros HK (l & H1 & H2 & H3). exists l. auto. Qed.

Lemma order_job c (K K' : Course -> Prop) ms f cmd more : (cmd_code cmd <? 8)%Z = true -> cmd <> BACKEND_GET_STATE ->
  (forall a k, K k -> K' (course_step a k (order cmd more))) -> has_sent b c K ms f ->
  returns (call reply p cmd partition_num more) f (fun _ => has_sent b c K' (ms ++ [order cmd more])).
Proof.
  intros Hcmd Hne HK (l & H & Hk & <-). eapply returns_weaken; [by apply call_job|]. intros a f' [H' _].
  exists (l ++ [order cmd more]). split; [done|]. split; [rewrite course_snoc; by apply HK|].
  rewrite orders_app. unfold orders at 2. cbn [List.filter]. rewrite bool_decide_eq_false_2; [done|].
  unfold order, poll, control_msg. intros E. by destruct cmd.
Qed.
Lemma poll_job c l f : at_job b c l f ->
  returns (c_getProxyState reply p) f (fun a f' => a = answer l /\ at_job b c (l ++ [poll]) f').
Proof.
  intros H. eapply returns_weaken; [by apply call_job|]. intros a f' (H' & log & <- & ->). split; [|done].
  apply (bs_own _ Hbackend).
Qed.
Lemma wait_loop_job st k : forall n c l f, (k <= n)%nat -> answer (l ++ repeat poll k) = state_code st ->
  at_job b c (l ++ [poll]) f ->
  returns (c_wait_loop reply threads n p st (answer l)) f (fun _ f' => exists j,
    at_job b c (l ++ repeat poll (S j)) f' /\ answer (l ++ repeat poll j) = state_code st).
Proof.
  induction k as [|k IH]; intros n c l f Hn Ha Hf;
    (destruct n as [|n]; cbn [c_wait_loop]; (destruct (Z.eqb_spec (answer l) (state_code st)) as [E|E];
     [eapply returns_intro; [reflexivity|]; exists 0%nat; by rewrite app_nil_r|])).
  1,2: by rewrite app_nil_r in Ha.
  1: lia.
  eapply returns_bind; [by apply sleep_job|]. intros u f1 [_ H1].
  eapply returns_bind; [by apply poll_job|]. intros a f2 [-> H2].
  eapply returns_weaken; [apply IH; [lia| |exact H2]|].
  { by rewrite <- app_assoc. }
  intros u2 f3 (j & H3 & H4). exists (S j). rewrite <- app_assoc in H3, H4. by split.
Qed.
Lemma wait_job c (K : Course -> Prop) st k' ms f : (forall k, K k -> goal k = Some st /\ seen k = k') -> has_sent b c K ms f ->
  returns (c_waitProxy reply threads fuel p st) f (fun _ => settled b c k' ms).
Proof.
  intros HK (l & H & Hk & <-). destruct (HK _ Hk) as [Hg <-]. destruct (bs_settles _ Hbackend l st Hg) as (k & Hk' & Ha).
  unfold c_waitProxy. eapply returns_bind; [by apply poll_job|]. intros a f1 [-> H1].
  eapply returns_weaken; [by eapply wait_loop_job|]. intros u f' (j & H2 & H3).
  exists (l ++ repeat poll (S j)). split; [done|]. rewrite (course_reached _ _ st) by done.
  rewrite orders_app, orders_polls, app_nil_r. split; [done|]. split; [done|]. rewrite goal_seen, Hg. apply (f_equal Some).
  replace (repeat poll (S j)) with (repeat poll j ++ [poll]) by (symmetry; apply repeat_cons). rewrite app_assoc.
  apply (bs_stays _ Hbackend); [|done]. destruct (course_polls answer l st j Hg) as [->| ->]; by rewrite ?goal_seen.
Qed.

(** ** Waiting for other threads *)
Lemma cleared_job n : forall k c l f model_name, (k <= n)%nat -> at_job b c l f -> idle model_name (sleeps k f) ->
  returns (wait_cleared threads n p model_name) f (fun _ => at_job b c l).
Proof.
  induction n as [|n IH]; intros k c l f model_name Hk H Hi;
    (destruct (rd_job c l f H) as (x & Hrd & Hx & _); pose proof (aj_queue _ _ _ _ H) as [q Hq];
     cbn [wait_cleared]; eapply returns_read; [exact Hrd|]; eapply returns_read; [reflexivity|];
     eapply returns_read; [unfold getSizeofBatchQueueofProxy, getBatchQueueofProxy; rewrite Hq; reflexivity|]; cbv zeta;
     (destruct (_ && _) eqn:E; [by eapply returns_intro|])).
  - assert (k = 0%nat) as -> by lia. destruct Hi as (y & Hy & Hq' & Hb1 & Hb2). cbn [sleeps] in *.
    rewrite Hx in Hy. injection Hy as <-. rewrite Hq in Hq'. injection Hq' as ->. by rewrite Hb1, Hb2 in E.
  - destruct k as [|k].
    + destruct Hi as (y & Hy & Hq' & Hb1 & Hb2). cbn [sleeps] in *.
      rewrite Hx in Hy. injection Hy as <-. rewrite Hq in Hq'. injection Hq' as ->. by rewrite Hb1, Hb2 in E.
    + eapply returns_bind; [by apply sleep_job|]. intros u f1 [-> H1]. eapply (IH k); [lia|done|exact Hi].
Qed.
End Operations.

Lemma returns_assoc {S A B C} (m : M S A) (f : A -> M S B) (g : B -> M S C) s Q :
  returns (y ← (x ← m; f x); g y) s Q -> returns (x ← m; y ← f x; g y) s Q.
Proof. unfold returns, mbind, M_bind. by destruct (m s) as [[a s']|]. Qed.

(** ** Jobs work on the frontend of a server *)
Section Server.
Context (s0 : Server).
Definition srv (P : Frontend -> Prop) (s : Server) : Prop := P (sv_fe s) /\ s = set_sv_fe (sv_fe s) s0.

Lemma on_fe_job {A} (m : M Frontend A) (P : Frontend -> Prop) (Q : A -> Frontend -> Prop) s :
  srv P s -> (forall f, P f -> returns m f Q) -> returns (on_fe m) s (fun a => srv (Q a)).
Proof.
  intros [HP Hs] Hm. specialize (Hm _ HP). unfold returns, on_fe, zoom in *. destruct (m (sv_fe s)) as [[a f]|]; [|done].
  split; [exact Hm|]. by rewrite Hs.
Qed.
Lemma gs_job P s : srv P s -> gs s = Done (sv_gs s0, s).
Proof. intros [_ Hs]. rewrite Hs. done. Qed.

Definition model_names : list string := _IDtoModelName (w_sched (sv_world s0)).
Definition id_of (model_name : string) : Z := model_id_loop model_names model_name (-1).
Lemma id_of_nonneg names m i : names <> [] -> (i < model_id_loop names m i)%Z.
Proof.
  revert i. induction names as [|n names IH]; intros i Hn; [done|]. cbn. destruct (String.eqb n m); [lia|].
  destruct names; [cbn; lia|]. specialize (IH (i + 1)%Z ltac:(done)). lia.
Qed.
Lemma getModelID_job P s m : model_names <> [] -> srv P s -> on_sched (SchedBase.getModelID m) s = Done (id_of m, s).
Proof.
  intros Hn [_ Hs]. pose proof (id_of_nonneg model_names m (-1) Hn) as Hi. fold (id_of m) in Hi.
  unfold on_sched, zoom. rewrite Hs. unfold getModelID, sched. mred. fold model_names. fold (id_of m).
  rewrite (proj2 (Z.eqb_neq _ _)) by lia. done.
Qed.
Lemma getModelName_job P s id name : at_index model_names id = Done name -> srv P s ->
  on_sched (SchedBase.getModelName id) s = Done (name, s).
Proof.
  intros Hn [_ Hs]. assert (E : SchedBase.getModelName id (sv_world s0) = Done (name, sv_world s0)).
  { unfold SchedBase.getModelName. erewrite bind_done by reflexivity. unfold lift. fold model_names. by rewrite Hn. }
  unfold on_sched, zoom. rewrite Hs. cbn [set_sv_fe sv_world]. by rewrite E.
Qed.

Context (answer : list (list Z) -> Z) (Hbackend : Backend_serves answer).

Lemma settled_srv b c k ms s : srv (settled answer b c k ms) s -> srv (has_sent answer b c (eq k) ms) s.
Proof. intros [H Hs]. split; [by eapply settled_sent|done]. Qed.
Lemma wait_srv b c (K : Course -> Prop) st k' ms s : quiet b -> (forall k, K k -> goal k = Some st /\ seen k = k') ->
  srv (has_sent answer b c K ms) s -> returns (wait reply threads fuel p st) s (fun _ => srv (settled answer b c k' ms)).
Proof. intros Hq HK Hs. eapply on_fe_job; [exact Hs|]. intros f. by eapply wait_job. Qed.
Lemma order_srv (K K' : Course -> Prop) (m : M Frontend unit) b c ms s cmd more : (cmd_code cmd <? 8)%Z = true ->
  cmd <> BACKEND_GET_STATE -> (forall a k, K k -> K' (course_step a k (order cmd more))) ->
  m = (_ ← call reply p cmd partition_num more; mret tt) -> srv (has_sent answer b c K ms) s ->
  returns (on_fe m) s (fun _ => srv (has_sent answer b c K' (ms ++ [order cmd more]))).
Proof.
  intros Hc Hn HK -> Hs. eapply on_fe_job; [exact Hs|]. intros f Hf.
  eapply returns_bind; [by eapply order_job|]. intros a f' H. by eapply returns_intro.
Qed.
(** An order to load or unload goes with the mark before it. *)
Definition working (k : Course) : Prop := k = Serving \/ k = Busy.
Lemma working_goal k : working k -> goal k = Some RUNNING /\ seen k = Serving.
Proof. by intros [-> | ->]. Qed.
Lemma announced_step a k z : working k -> course_step a k (order BACKEND_SET_STATE [z]) = Announced.
Proof. intros [-> | ->]; unfold course_step; by rewrite asks_order. Qed.
Lemma pair_srv (m1 m2 : M Frontend unit) b c ms s cmd more : cmd = BACKEND_LOAD_MODEL /\ length more = 2%nat \/
    cmd = BACKEND_UNLOAD_MODEL /\ length more = 1%nat ->
  m1 = (_ ← call reply p BACKEND_SET_STATE partition_num [state_code LOADING]; mret tt) ->
  m2 = (_ ← call reply p cmd partition_num more; mret tt) -> srv (has_sent answer b c working ms) s ->
  returns (_ ← on_fe m1; on_fe m2) s (fun _ => srv (has_sent answer b c working
    (ms ++ [order BACKEND_SET_STATE [state_code LOADING]; order cmd more]))).
Proof.
  intros Hc -> -> Hs.
  eapply returns_bind; [eapply (order_srv working (eq Announced) _ _ _ _ _ BACKEND_SET_STATE); [done..| |reflexivity|exact Hs]|].
  { intros a k Hk. symmetry. by apply announced_step. }
  intros u s1 H1. eapply returns_weaken.
  { eapply (order_srv (eq Announced) working _ b c _ s1 cmd more); [by destruct Hc as [[-> _]|[-> _]]|by destruct Hc as [[-> _]|[-> _]]| |reflexivity|exact H1].
    intros a k <-. right. unfold course_step. rewrite asks_order.
    destruct Hc as [[-> Hl]|[-> Hl]]; destruct more as [|m1 [|m2 [|m3 more]]]; done. }
  intros u2 s2 H2. by rewrite <- app_assoc in H2.
Qed.
(** A write to a member outside [Core], or one the core [c'] accounts for. *)
Definition keeps_place (g : ProxyInfo -> ProxyInfo) : Prop :=
  forall x, p_node_id (g x) = p_node_id x /\ p_dev_id (g x) = p_dev_id x /\ partition_num (g x) = partition_num x.
Lemma wr_fe b b' c c' K ms f g :
  has_sent answer b c K ms f ->
  (forall x, core x = c -> isUnloading x = b -> core (g x) = c' /\ isUnloading (g x) = b') -> keeps_place g ->
  returns (fe_wr p g) f (fun _ => has_sent answer b' c' K ms).
Proof.
  intros (l & H & H1 & H2) Hg Hk. eapply returns_weaken; [by eapply wr_job|]. intros u f' [H' _]. by exists l.
Qed.
Lemma wr_srv b b' c c' K ms s g :
  srv (has_sent answer b c K ms) s ->
  (forall x, core x = c -> isUnloading x = b -> core (g x) = c' /\ isUnloading (g x) = b') -> keeps_place g ->
  returns (wr p g) s (fun _ => srv (has_sent answer b' c' K ms)).
Proof. intros Hs Hg Hk. eapply on_fe_job; [exact Hs|]. intros f Hf. by eapply wr_fe. Qed.
Definition this (s : Server) : option ProxyInfo := f_proxies (fe_front (sv_fe s)) !! p.
Lemma wr_settled b b' c c' k ms s g : srv (settled answer b c k ms) s ->
  (forall x, core x = c -> isUnloading x = b -> core (g x) = c' /\ isUnloading (g x) = b') -> keeps_place g ->
  returns (wr p g) s (fun _ s' => srv (settled answer b' c' k ms) s' /\ this s' = g <$> this s).
Proof.
  intros [(l & H & H1) Hs] Hg Hk. pose proof (wr_job _ b' _ _ _ _ _ H Hg Hk) as Hw. unfold returns, wr, on_fe, zoom in *.
  destruct (fe_wr p g (sv_fe s)) as [[u f]|]; [|done]. destruct Hw as (H' & x & Hx & Hx').
  unfold this. cbn. rewrite Hx, Hx'. split; [|done]. split; [by exists l|by rewrite Hs].
Qed.
Lemma rd_srv b c K ms s : srv (has_sent answer b c K ms) s ->
  exists x, rd p s = Done (x, s) /\ core x = c /\ isUnloading x = b.
Proof.
  intros [(l & H & _) Hs]. destruct (rd_job b c l _ H) as (x & Hx & _ & Hc & Hb). exists x. split; [|done].
  unfold rd, on_fe, zoom. rewrite Hx. by destruct s.
Qed.
Ltac core_write := let x := fresh in let H := fresh in
  intros x H ?; unfold core in *; injection H; intros; split; cbn; congruence.
Ltac order_step := intros ? ? <-; unfold course_step; by rewrite asks_order.
Ltac places := let x := fresh in intros x; repeat split.

(** ** Unloading *)
Context (Hnames : model_names <> []).
Definition kept (ids : list Z) (m : string) : bool := bool_decide (id_of m ∈ ids).
Definition unload_orders (ids : list Z) (models : list string) : list (list Z) :=
  concat (map (fun m => if kept ids m then []
    else [order BACKEND_SET_STATE [state_code LOADING]; order BACKEND_UNLOAD_MODEL [id_of m]]) models).

Section Unload.
Context (Hquiet : quiet true) (Hdrains : drains) (ids : list Z).

Lemma unload_loop bo co n : forall pre rest ms s, (length rest < n)%nat ->
  srv (has_sent answer true (mkCore bo co (pre ++ rest)) working ms) s ->
  returns (loop n (length pre) (unload_step reply threads fuel p ids)) s
    (fun _ => srv (has_sent answer true (mkCore bo co (pre ++ List.filter (kept ids) rest)) working (ms ++ unload_orders ids rest))).
Proof.
  induction n as [|n IH]; intros pre rest ms s Hn Hs; [lia|]. cbn [loop].
  destruct (rd_srv _ _ _ _ _ Hs) as (x & Hrd & Hc & Hu). assert (Hl : LoadedModels x = pre ++ rest) by (by injection Hc).
  destruct rest as [|m rest].
  { eapply returns_read.
    - unfold unload_step. rewrite (bind_done _ _ _ _ _ Hrd), Hl, app_nil_r, lookup_ge_None_2, Nat.eqb_refl by lia. reflexivity.
    - eapply returns_intro; [reflexivity|]. cbn. by rewrite (app_nil_r ms). }
  assert (Hm : LoadedModels x !! length pre = Some m) by (by rewrite Hl, list_lookup_middle).
  cbn [List.filter unload_orders map concat]. destruct (kept ids m) eqn:Hk.
  - eapply returns_read.
    + unfold unload_step. rewrite (bind_done _ _ _ _ _ Hrd), Hm, (bind_done _ _ _ _ _ (getModelID_job _ _ m Hnames Hs)).
      unfold kept in Hk. rewrite Hk. reflexivity.
    + specialize (IH (pre ++ [m]) rest ms s ltac:(cbn [length] in Hn; lia)). rewrite length_app, <- !app_assoc in IH.
      cbn [length] in IH. rewrite Nat.add_1_r in IH. by apply IH.
  - eapply returns_bind with (Q1 := fun o s' => o = inl (length pre) /\ srv (has_sent answer true (mkCore bo co (pre ++ rest)) working
      (ms ++ [order BACKEND_SET_STATE [state_code LOADING]; order BACKEND_UNLOAD_MODEL [id_of m]])) s').
    2:{ intros o s' [-> H']. eapply returns_weaken; [apply IH; [|exact H']; cbn [length] in Hn; lia|].
        intros u s2 H2. by rewrite <- !app_assoc in H2. }
    unfold unload_step. eapply returns_read; [exact Hrd|]. rewrite Hm.
    eapply returns_read; [by eapply getModelID_job|]. unfold kept in Hk. rewrite Hk.
    eapply returns_bind with (Q1 := fun _ => srv (has_sent answer true (mkCore bo co (pre ++ m :: rest)) working ms)).
    { eapply on_fe_job; [exact Hs|]. intros f (l & H1 & H2 & H3).
      destruct (Hdrains _ _ f m H1) as (k & Hk' & Hi); [cbn; apply elem_of_app; right; by left|].
      eapply returns_weaken; [by eapply cleared_job|]. intros u f' H'. by exists l. }
    intros u1 s1 H1.
    eapply (returns_assoc (on_fe (c_markProxy reply p LOADING)) (fun _ => on_fe (c_makeProxyUnloadModel reply p (id_of m)))).
    eapply returns_bind; [by eapply (pair_srv _ _ _ _ _ _ BACKEND_UNLOAD_MODEL [id_of m]); [by right|done..|]|].
    intros u3 s3 H3. eapply returns_bind; [eapply (wr_srv _ true _ (mkCore bo co (pre ++ rest))); [exact H3|..]|].
    + intros y Hy <-. split; [|by destruct y]. injection Hy as <- <- Hy. unfold core, erase_loaded. destruct y; cbn in *. subst.
      replace (pre ++ m :: rest) with ((pre ++ [m]) ++ rest) at 2 by (by rewrite <- app_assoc).
      rewrite take_app_length.
      by rewrite (drop_app_length' (pre ++ [m]) rest) by (rewrite length_app; cbn; lia).
    + places.
    + intros u4 s4 H4. by eapply returns_intro.
Qed.

Lemma shutdown_job ms s : srv (settled answer true (mkCore true true []) Serving ms) s ->
  returns (shutdownProxy_sync reply threads fuel p) s (fun _ =>
    srv (settled answer true (mkCore false false []) Down
      (ms ++ [order BACKEND_END_PROXY []; order BACKEND_DISCONNECT_PROXY []]))).
Proof.
  intros H%settled_srv.
  destruct (rd_srv _ _ _ _ _ H) as (x & Hrd & Hc & Hu). injection Hc as Hb Hco Hm.
  unfold shutdownProxy_sync. eapply returns_read; [exact Hrd|].
  rewrite Hm, Hco, Hb. eapply returns_read; [reflexivity|]. do 2 (eapply returns_read; [reflexivity|]).
  eapply returns_bind; [eapply (wr_srv _ true _ (mkCore true true [])); [exact H|core_write|places]|]. intros ? s1 H1.
  eapply returns_bind with (Q1 := fun _ => srv (has_sent answer true (mkCore false true []) (eq Ending) (ms ++ [order BACKEND_END_PROXY []]))).
  { eapply on_fe_job; [exact H1|]. intros f Hf. unfold c_endProxy.
    eapply returns_bind; [by eapply order_job with (K := eq Serving) (K' := eq Ending) (cmd := BACKEND_END_PROXY) (more := []); [done..| |exact Hf]; order_step|].
    intros ? f' Hf'. eapply wr_fe; [exact Hf'|core_write|places]. }
  intros ? s2 H2. eapply returns_bind; [by eapply (wait_srv _ _ _ FLUSHED Flushed); [done| |exact H2]; intros k <-|]. intros ? s3 H3%settled_srv.
  eapply returns_bind with (Q1 := fun _ => srv (has_sent answer true (mkCore false false []) (eq Leaving)
    ((ms ++ [order BACKEND_END_PROXY []]) ++ [order BACKEND_DISCONNECT_PROXY []]))).
  { eapply on_fe_job; [exact H3|]. intros f Hf. unfold c_disconnectProxy.
    eapply returns_bind; [by eapply order_job with (K := eq Flushed) (K' := eq Leaving) (cmd := BACKEND_DISCONNECT_PROXY) (more := []); [done..| |exact Hf]; order_step|].
    intros ? f' Hf'. eapply wr_fe; [exact Hf'|core_write|places]. }
  intros ? s4 H4. eapply returns_bind; [by eapply (wait_srv _ _ _ COLD Down); [done| |exact H4]; intros k <-|]. intros ? s5 H5. rewrite <- app_assoc in H5.
  eapply returns_bind; [eapply (wr_settled _ true _ (mkCore false false [])); [exact H5|core_write|places]|]. intros ? s6 [H6 _].
  eapply returns_weaken; [eapply (wr_settled _ true _ (mkCore false false [])); [exact H6|core_write|places]|]. by intros ? s7 [H7 _].
Qed.

(** The models to keep stay, in their order; the others are unloaded; a proxy
    without models is shut down and free, when the partitions may change. *)
Definition unloaded (models : list string) (ms : list (list Z)) (s' : Server) : Prop :=
  let rest := List.filter (kept ids) models in
  if bool_decide (rest = []) && ALLOW_REPART (sv_gs s0) then
    srv (settled answer false (mkCore false false []) Down (ms ++ unload_orders ids models ++
      [order BACKEND_END_PROXY []; order BACKEND_DISCONNECT_PROXY []])) s' /\
    option_map isReserved (this s') = Some false /\ option_map isSchedulable (this s') = Some false
  else srv (settled answer false (mkCore true true rest) Serving (ms ++ unload_orders ids models)) s'.
Lemma unload_job keep models ms s : ids = map fst keep -> (length models < fuel)%nat ->
  srv (has_sent answer true (mkCore true true models) working ms) s ->
  returns (unloadModel_async reply threads fuel p keep) s (fun _ => unloaded models ms).
Proof.
  intros Hids Hl Hs. unfold unloadModel_async, unloaded. rewrite <- Hids. set (rest := List.filter (kept ids) models).
  eapply returns_bind; [by apply (unload_loop true true fuel [] models ms s)|]. cbn [app]. fold rest. intros ? s1 H1.
  eapply returns_bind; [by eapply (wait_srv _ _ working RUNNING Serving); [done|apply working_goal|exact H1]|]. intros ? s2 H2. destruct (rd_srv _ _ _ _ _ (settled_srv _ _ _ _ _ H2)) as (x & Hrd & Hc & Hu).
  injection Hc as Hb Hco Hm. eapply returns_read; [exact Hrd|]. eapply returns_read; [exact (gs_job _ _ H2)|]. rewrite Hm.
  unfold when. destruct (bool_decide (rest = [])) eqn:Er; cbn [andb].
  2:{ eapply returns_read; [reflexivity|]. eapply returns_weaken; [eapply (wr_settled _ false _ (mkCore true true rest)); [exact H2|core_write|places]|]. by intros ? s3 [H3 _]. }
  destruct (ALLOW_REPART (sv_gs s0)).
  2:{ eapply returns_read; [reflexivity|]. eapply returns_weaken; [eapply (wr_settled _ false _ (mkCore true true rest)); [exact H2|core_write|places]|]. by intros ? s3 [H3 _]. }
  apply bool_decide_eq_true in Er. rewrite Er in H2. rewrite app_assoc.
  eapply returns_bind with (Q1 := fun _ s' => srv (settled answer true (mkCore false false []) Down
     ((ms ++ unload_orders ids models) ++ [order BACKEND_END_PROXY []; order BACKEND_DISCONNECT_PROXY []])) s' /\
    option_map isReserved (this s') = Some false /\ option_map isSchedulable (this s') = Some false).
  - eapply returns_bind; [by apply shutdown_job|]. intros ? s3 H3.
    eapply returns_bind; [eapply (wr_settled _ true _ (mkCore false false [])); [exact H3|core_write|places]|]. intros ? s4 [H4 E4].
    eapply returns_weaken; [eapply (wr_settled _ true _ (mkCore false false [])); [exact H4|core_write|places]|]. intros ? s5 [H5 E5].
    split; [exact H5|]. destruct H3 as [(l & [(y & Hy & _) _ _ _] & _) _]. fold (this s3) in Hy. by rewrite E5, E4, Hy.
  - intros ? s3 (H3 & F1 & F2).
    eapply returns_weaken; [eapply (wr_settled _ false _ (mkCore false false [])); [exact H3|core_write|places]|]. intros ? s4 [H4 E4]. split; [exact H4|].
    rewrite E4. destruct (this s3); [|done]. done.
Qed.
End Unload.

(** ** Loading *)
Definition name_of (id : Z) : string := match at_index model_names id with Done n => n | Stop _ => "" end.
Definition known (id : Z) : Prop := exists n, at_index model_names id = Done n.
(** A model that is there already is not loaded again. *)
Definition load_entry (st : list string * list (list Z)) (e : Z * Z) : list string * list (list Z) :=
  if bool_decide (name_of e.1 ∈ st.1) then st
  else (st.1 ++ [name_of e.1],
        st.2 ++ [order BACKEND_SET_STATE [state_code LOADING]; order BACKEND_LOAD_MODEL [e.1; e.2]]).

Section Load.
Context (Hquiet : quiet false).

Lemma load_one_job e bo co models ms s : known e.1 -> srv (has_sent answer false (mkCore bo co models) working ms) s ->
  returns (load_one reply p e) s (fun _ =>
    let st := load_entry (models, ms) e in srv (has_sent answer false (mkCore bo co st.1) working st.2)).
Proof.
  intros [n Hn] Hs. destruct (rd_srv _ _ _ _ _ Hs) as (x & Hrd & Hc & Hu). unfold load_one.
  eapply returns_read; [by eapply getModelName_job|]. eapply returns_read; [exact Hrd|].
  unfold load_entry, name_of. rewrite Hn. cbn [fst snd]. unfold checkIfLoaded. injection Hc as _ _ ->.
  case_bool_decide as Hm; [by eapply returns_intro|].
  eapply (returns_assoc (on_fe (c_markProxy reply p LOADING)) (fun _ => on_fe (c_makeProxyLoadModel reply p e.1 e.2))).
  eapply returns_bind; [by eapply (pair_srv _ _ _ _ _ _ BACKEND_LOAD_MODEL [e.1; e.2]); [by left|done..|]|].
  intros ? s2 H2. eapply wr_srv; [exact H2| |places].
  intros y Hy Hb. unfold core in *. injection Hy as <- <- <-. by split.
Qed.
Lemma load_all_job l : forall bo co models ms s, Forall (fun e => known e.1) l ->
  srv (has_sent answer false (mkCore bo co models) working ms) s ->
  returns (for_each l (load_one reply p)) s (fun _ =>
    let st := foldl load_entry (models, ms) l in srv (has_sent answer false (mkCore bo co st.1) working st.2)).
Proof.
  induction l as [|e l IH]; intros bo co models ms s Hl Hs; cbn [for_each foldl]; [by eapply returns_intro|].
  apply Forall_cons in Hl as [He Hl]. eapply returns_bind; [by apply load_one_job|]. intros ? s1 H1. cbv zeta in H1.
  destruct (load_entry (models, ms) e) as [models1 ms1]. by apply IH.
Qed.
Lemma boot_job bo models ms s : srv (has_sent answer false (mkCore bo false models) (eq Down) ms) s ->
  returns (bootProxy_sync reply threads fuel p) s (fun _ => srv (has_sent answer false (mkCore true true models) (eq Serving)
    (ms ++ [order BACKEND_START_PROXY []; order BACKEND_CONNECT_PROXY []]))).
Proof.
  intros Hs. destruct (rd_srv _ _ _ _ _ Hs) as (x & Hrd & Hc & Hu). injection Hc as Hb Hco Hm. unfold bootProxy_sync.
  eapply returns_read; [exact Hrd|]. rewrite Hco. eapply returns_read; [reflexivity|].
  eapply returns_bind; [by eapply (order_srv (eq Down) (eq Starting) _ _ _ _ _ BACKEND_START_PROXY []); [done..| |reflexivity|exact Hs]; order_step|].
  intros ? s1 H1. eapply returns_bind; [by eapply (wait_srv _ _ _ RUNNING Up); [exact Hquiet| |exact H1]; intros k <-|]. intros ? s2 H2%settled_srv.
  eapply returns_bind; [eapply (wr_srv _ false _ (mkCore true false models)); [exact H2|core_write|places]|]. intros ? s3 H3.
  eapply returns_bind with (Q1 := fun _ => srv (has_sent answer false (mkCore true true models) (eq Serving)
    ((ms ++ [order BACKEND_START_PROXY []]) ++ [order BACKEND_CONNECT_PROXY []]))).
  2:{ intros ? s4 H4. rewrite <- app_assoc in H4. eapply wr_srv; [exact H4|core_write|places]. }
  eapply on_fe_job; [exact H3|]. intros f Hf. unfold c_connectProxy.
  destruct Hf as (l & Hf & Hg & Ho). destruct (rd_job _ _ _ _ Hf) as (y & Hrd' & _ & Hc' & _). injection Hc' as _ Hco' _.
  eapply returns_read; [exact Hrd'|]. rewrite Hco'.
  eapply returns_bind.
  { eapply order_job with (c := mkCore true false models) (K := eq Up) (K' := eq Serving) (ms := ms ++ [order BACKEND_START_PROXY []]) (cmd := BACKEND_CONNECT_PROXY) (more := []);
      [done..|order_step|]. exists l. split; [done|by split]. }
  intros ? f1 (l1 & H4 & Hg1 & Ho1).
  eapply returns_bind with (Q1 := fun _ => at_job false (mkCore true false models) l1).
  - destruct (isConnectedtoBackend y); [by eapply returns_intro|]. cbn [negb when].
    eapply returns_bind; [eapply open_job; exact H4|]. intros ? f2 H5. eapply returns_bind; [eapply open_job; exact H5|]. intros ? f3 H6.
    eapply returns_weaken; [eapply (wr_job _ false _ (mkCore true false models)); [exact H6|core_write|places]|]. by intros ? f4 [H7 _].
  - intros ? f2 H5. eapply wr_fe; [by exists l1|core_write|places].
Qed.

(** Before that a loading job waits for the unloading one. *)
Definition unloading (f : Frontend) : Prop := exists x, f_proxies (fe_front f) !! p = Some x /\ isUnloading x = true.
Lemma unloading_rd f : unloading f -> exists x, fe_rd p f = Done (x, f) /\ isUnloading x = true.
Proof.
  intros (x & Hx & Hu). exists x. split; [|done]. unfold fe_rd, fe_on_front, zoom, rd_proxy. mred. rewrite Hx. by destruct f.
Qed.
Lemma sleeps_run f : fe_sleep threads f = Done (tt, sleeps 1 f).
Proof. done. Qed.
Lemma sleeps_add j k f : sleeps (j + k) f = sleeps k (sleeps j f).
Proof. revert f. induction j as [|j IH]; intros f; [done|]. cbn. apply IH. Qed.
Lemma spin_waits c l n k : forall f, (k <= n)%nat -> (forall j, (j < k)%nat -> unloading (sleeps j f)) ->
  at_job false c l (sleeps k f) -> spin threads n isUnloading p f = Done (tt, sleeps k f).
Proof.
  revert k. induction n as [|n IH]; intros k f Hn Hj Hk.
  - assert (k = 0%nat) as -> by lia. destruct (rd_job false c l f Hk) as (x & Hrd & _ & _ & Hu). cbn [spin].
    by rewrite (bind_done _ _ _ _ _ Hrd), Hu.
  - destruct k as [|k]; cbn [spin].
    + destruct (rd_job false c l f Hk) as (x & Hrd & _ & _ & Hu). by rewrite (bind_done _ _ _ _ _ Hrd), Hu.
    + destruct (unloading_rd f (Hj 0%nat ltac:(lia))) as (x & Hrd & Hu). rewrite (bind_done _ _ _ _ _ Hrd), Hu.
      rewrite (bind_done _ _ _ _ _ (sleeps_run f)). apply (IH k (sleeps 1 f)); [lia| |exact Hk].
      intros j Hlt. apply (Hj (S j)). lia.
Qed.

(** A proxy a loading job can start on: it is up, or it was shut down, is said to
    be, and may be booted again. *)
Definition startable (st : proxy_state) (c : Core) (ms : list (list Z)) (f : Frontend) : Prop :=
  match st with
  | RUNNING => has_sent answer false c working ms f
  | COLD => settled answer false c Down ms f /\ k_connected c = false /\ ALLOW_REPART (sv_gs s0) = true
  | _ => False
  end.
Lemma startable_at st c ms f : startable st c ms f -> exists l, at_job false c l f.
Proof. destruct st; try done; [intros [(l & H & _) _]|intros (l & H & _)]; by exists l. Qed.
Definition start_loading (f : Frontend) : Frontend :=
  match fe_wr p (set_isLoading true) f with Done (_, f') => f' | Stop _ => f end.
(** The unloading job needs [k] sleeps more. *)
Definition unloads_for (k : nat) (f : Frontend) : Prop := (k <= fuel)%nat /\ forall j, (j < k)%nat -> unloading (sleeps j f).

Definition boot_orders (st : proxy_state) : list (list Z) :=
  match st with COLD => [order BACKEND_START_PROXY []; order BACKEND_CONNECT_PROXY []] | _ => [] end.
Definition boot_core (st : proxy_state) (c : Core) : Core :=
  match st with COLD => mkCore true true (k_models c) | _ => c end.
(** The models of the job that were not there are loaded, in its order. *)
Definition loaded (st : proxy_state) (c : Core) (ms : list (list Z)) (l : list (Z * Z)) (s' : Server) : Prop :=
  let '(models', ms') := foldl load_entry (k_models c, ms ++ boot_orders st) l in
  srv (settled answer false (mkCore (k_booted (boot_core st c)) (k_connected (boot_core st c)) models') Serving ms') s' /\
  option_map isLoading (this s') = Some false.

Lemma start_loading_run k f : unloads_for k (start_loading f) -> (exists c l, at_job false c l (sleeps k (start_loading f))) ->
  fe_wr p (set_isLoading true) f = Done (tt, start_loading f).
Proof.
  intros [_ Hu] Ha. assert (H : is_Some (f_proxies (fe_front (start_loading f)) !! p)).
  { destruct k as [|k]; [destruct Ha as (c & l & [(x & Hx & _) _ _ _]); by exists x|].
    destruct (Hu 0%nat ltac:(lia)) as (x & Hx & _). by exists x. }
  unfold start_loading in *. destruct (fe_wr p (set_isLoading true) f) as [[[] f']|e] eqn:E; [done|].
  destruct H as [x Hx]. unfold fe_wr, fe_on_front, zoom, wr_proxy in E. mred. by rewrite Hx in E.
Qed.
Lemma start_job {A} (m : GM A) k c l Q s : srv (fun f => unloads_for k (start_loading f) /\ at_job false c l (sleeps k (start_loading f))) s ->
  (forall s', sv_fe s' = sleeps k (start_loading (sv_fe s)) -> s' = set_sv_fe (sv_fe s') s0 -> returns m s' Q) ->
  returns (_ ← wr p (set_isLoading true); x ← rd p; _ ← when (isUnloading x) (on_fe (fe_sleep threads));
           _ ← on_fe (spin threads fuel isUnloading p); m) s Q.
Proof.
  intros [[[Hk Hu] Ha] Hs] Hm. set (f := start_loading (sv_fe s)) in *.
  eapply (returns_read _ _ s tt (set_sv_fe f s)).
  { unfold wr, on_fe, zoom. rewrite (start_loading_run k (sv_fe s)); [done|by split|by exists c, l]. }
  assert (Hend : returns m (set_sv_fe (sleeps k f) s) Q) by (apply Hm; [done|by rewrite Hs]).
  destruct k as [|k].
  - destruct (rd_job false c l f Ha) as (x & Hrd & _ & _ & Hx).
    eapply (returns_read _ _ _ x (set_sv_fe f s)); [unfold rd, on_fe, zoom; cbn; by rewrite Hrd|]. rewrite Hx.
    eapply returns_read; [reflexivity|].
    eapply (returns_read _ _ _ tt (set_sv_fe f s)); [|exact Hend].
    unfold on_fe, zoom. cbn [sv_fe set_sv_fe]. by rewrite (spin_waits c l fuel 0 f).
  - destruct (unloading_rd f (Hu 0%nat ltac:(lia))) as (x & Hrd & Hx).
    eapply (returns_read _ _ _ x (set_sv_fe f s)); [unfold rd, on_fe, zoom; cbn; by rewrite Hrd|]. rewrite Hx.
    eapply (returns_read _ _ _ tt (set_sv_fe (sleeps 1 f) s)); [reflexivity|].
    eapply (returns_read _ _ _ tt (set_sv_fe (sleeps (S k) f) s)); [|exact Hend].
    unfold on_fe, zoom. cbn [sv_fe set_sv_fe]. rewrite (spin_waits c l fuel k (sleeps 1 f)); [done|lia| |exact Ha].
    intros j Hj. apply (Hu (S j)). lia.
Qed.
Lemma poll_startable st c ms f : startable st c ms f ->
  returns (c_getProxyState reply p) f (fun a f' => startable st c ms f' /\
    (a =? state_code COLD)%Z = match st with COLD => true | _ => false end).
Proof.
  intros H. pose proof (orders_polls 1) as Hp. cbn [repeat] in Hp.
  destruct st; cbn [startable] in H; try done.
  - destruct H as [(l & H1 & H2 & H3 & H4) H5]. injection H4 as H4. eapply returns_weaken; [by apply poll_job|]. intros a f' [-> H'].
    split; [|by rewrite H4]. split; [|done]. exists (l ++ [poll]).
    rewrite (course_poll _ _ COLD), H2, orders_app, Hp, app_nil_r by (by rewrite H2). split; [done|].
    split; [by destruct (decide _)|]. split; [done|]. apply (f_equal Some), (bs_stays _ Hbackend); [by rewrite H2|done].
  - destruct H as (l & H1 & H2 & H3). destruct (working_goal _ H2) as [Hg Hs]. eapply returns_weaken; [by apply poll_job|]. intros a f' [-> H'].
    split.
    + exists (l ++ [poll]). rewrite (course_poll _ _ RUNNING), Hs, orders_app, Hp, app_nil_r by done. split; [done|].
      split; [|done]. by destruct (decide _); [left|].
    + destruct (Z.eqb_spec (answer l) (state_code COLD)) as [E|]; [|done]. by apply (bs_cold _ Hbackend _ _ Hg) in E.
Qed.
Lemma load_job st c ms l k s : Forall (fun e => known e.1) l ->
  srv (fun f => unloads_for k (start_loading f) /\ startable st c ms (sleeps k (start_loading f))) s ->
  returns (loadModel_sync reply threads fuel p l) s (fun _ => loaded st c ms l).
Proof.
  intros Hl [[Hk Hst] Hs]. destruct (startable_at _ _ _ _ Hst) as [l0 Ha].
  unfold loadModel_sync. eapply (start_job _ k c l0); [by split|]. intros s1 E1 Hs1. rewrite <- E1 in Hst. clear Ha E1 Hk Hs.
  eapply returns_bind with (Q1 := fun a s' => srv (startable st c ms) s' /\
    (a =? state_code COLD)%Z = match st with COLD => true | _ => false end).
  { eapply returns_weaken; [eapply (on_fe_job _ (startable st c ms)); [by split|apply poll_startable]|].
    intros a s2 [[H1 H2] H3]. done. }
  intros a s2 [H2 ->]. eapply returns_read; [exact (gs_job _ _ H2)|].
  eapply returns_bind with (Q1 := fun _ => srv (has_sent answer false (boot_core st c) working (ms ++ boot_orders st))).
  { destruct st; try by destruct H2.
    - destruct H2 as [[H2 [Hc ->]] Hs2]. destruct c as [bo co models]. cbn in Hc. subst co.
      eapply returns_weaken; [eapply boot_job, settled_srv; by split|]. intros u s3 [H3 Hs3]. split; [|done].
      eapply has_sent_weaken; [|exact H3]. intros k0 <-. by left.
    - cbn [boot_orders boot_core]. rewrite app_nil_r. by eapply returns_intro. }
  intros u s3 H3. destruct (boot_core st c) as [bo co models] eqn:Eb. assert (Em : k_models c = models) by (by destruct st, c; injection Eb).
  eapply returns_bind; [by apply load_all_job|]. intros u2 s4 H4. cbv zeta in H4. unfold loaded. rewrite Eb, Em.
  destruct (foldl load_entry _ l) as [models' ms']. cbn [fst snd k_booted k_connected] in *.
  eapply returns_bind; [by eapply (wait_srv _ _ working RUNNING Serving); [done|apply working_goal|exact H4]|]. intros u3 s5 H5.
  eapply returns_weaken; [eapply (wr_settled _ false _ (mkCore bo co models')); [exact H5|core_write|places]|].
  intros u4 s6 [H6 E6]. split; [done|]. rewrite E6. destruct H5 as [(l1 & [(y & Hy & _) _ _ _] & _) _]. fold (this s5) in Hy. by rewrite Hy.
Qed.
End Load.
End Server.
End Jobs.
