(* ===== verification/ProxyJobsProps.v ===== *)
(** * Properties of the loading and unloading threads: they end, and leave their
    proxy with the models the schedule wants. *)
From Stdlib Require Import ZArith SpecFloat String Lia.
From S2P Require Import Prelude CppFloat CppStd LatencyModel DevPerfModel SchedData SchedUtils SchedBase IncrSchedule LoadBalancer SelfTuning AppModel SysState Control ControlProps GlobalState GlobalSched DemoServer ProxyJobs.

(** ** The models after loading *)
Lemma load_entries_length dev part s l : forall models ms,
  (length (foldl (load_entry dev part s) (models, ms) l).1 <= length models + length l)%nat.
Proof.
  induction l as [|e l IH]; intros models ms; cbn [foldl fst length]; [lia|]. unfold load_entry at 2. cbn [fst snd].
  case_bool_decide; [specialize (IH models ms); lia|].
  match goal with |- context [foldl _ (?x, ?y) l] => specialize (IH x y) end. rewrite length_app in IH. cbn [length] in IH. lia.
Qed.
Lemma load_entries_models dev part s l : forall models ms,
  let models' := (foldl (load_entry dev part s) (models, ms) l).1 in
  (exists new, models' = models ++ new) /\ (NoDup models -> NoDup models') /\
  (forall m, m ∈ models' <-> m ∈ models \/ exists e, e ∈ l /\ m = name_of s e.1).
Proof.
  induction l as [|e l IH]; intros models ms; cbn [foldl fst]; cbv zeta in *.
  { split; [exists []; by rewrite app_nil_r|]. split; [done|]. intros m. split; [by left|].
    intros [?|(e & He & _)]; [done|]. by apply elem_of_nil in He. }
  unfold load_entry at 2 4 6. cbn [fst snd]. case_bool_decide as He.
  - destruct (IH models ms) as (H1 & H2 & H3). split; [done|]. split; [done|]. intros m. rewrite H3.
    split; [intros [?|(e' & ? & ?)]; [by left|right; exists e'; split; [by right|done]]|].
    intros [?|(e' & [->|?]%elem_of_cons & ->)]; [by left|by left|right; by exists e'].
  - match goal with |- context [foldl _ (?x, ?y) l] => destruct (IH x y) as ((new & H1) & H2 & H3) end.
    split; [exists (name_of s e.1 :: new); by rewrite H1, <- app_assoc|]. split.
    + intros Hnd. apply H2, NoDup_app. split; [done|]. split; [|apply NoDup_singleton].
      intros m Hm ->%list_elem_of_singleton. done.
    + intros m. rewrite H3, elem_of_app, list_elem_of_singleton. split.
      * intros [[?| ->]|(e' & ? & ?)]; [by left|right; exists e; split; [by left|done]|right; exists e'; split; [by right|done]].
      * intros [?|(e' & [->|?]%elem_of_cons & ->)]; [by left; left|by left; right|right; by exists e'].
Qed.

(** What [srv] and [at_job] say of a proxy after a job. *)
Lemma settled_at p node dev part s0 answer b c k ms s' :
  srv s0 (settled p node dev part answer b c k ms) s' ->
  exists x, this p s' = Some x /\ core x = c /\ isUnloading x = b /\
    orders dev part (own node dev part (c_log (fe_ctrl (sv_fe s')))) = ms /\
    s' = set_sv_fe (sv_fe s') s0.
Proof.
  intros [(l & [(x & Hx & Hc & Hb & _) _ _ <-] & _ & <- & _) Hs]. exists x. done.
Qed.

(** C9: an unloading thread ends, and leaves its proxy with the models it is to keep.
    When the other threads of the frontend leave the proxy alone but for the batches
    on their way, which get through, and the backend serves the orders of a job
    ([Backend_serves]: a proxy that is given them as the code gives them reaches the
    state they ask for), the thread of [unloadModel_async] for a proxy that is
    connected returns; the models to keep are still in its list, in the same order;
    exactly one order to unload went out for each of the others; the proxy is no
    longer marked as unloading; and when no model is left and the partitions may
    change, it was told to end and to disconnect, and is free. *)
Theorem unload_job_keeps (reply : list (Z * list Z) -> Z) (threads : nat -> Frontend -> Frontend) (fuel p : nat)
    (node dev part : Z) (answer : list (list Z) -> Z) (keep : list (Z * Z)) (models : list string)
    (ms : list (list Z)) (s : Server)
    (Hbackend : Backend_serves reply fuel node dev part answer)
    (Hquiet : quiet threads p node dev part true) (Hdrains : drains threads fuel p node dev part)
    (Hnames : model_names s <> []) (Hfuel : (length models < fuel)%nat)
    (Hs : has_sent p node dev part answer true (mkCore true true models) working ms (sv_fe s)) :
  let rest := List.filter (fun m => bool_decide (id_of s m ∈ map fst keep)) models in
  let free := bool_decide (rest = []) && ALLOW_REPART (sv_gs s) in
  returns (run_job reply threads fuel (UnloadJob p keep)) s (fun _ s' =>
    exists x, this p s' = Some x /\ LoadedModels x = rest /\ isUnloading x = false /\
      isBooted x = negb free /\ isConnected x = negb free /\
      (free = true -> isReserved x = false /\ isSchedulable x = false) /\
      orders dev part (own node dev part (c_log (fe_ctrl (sv_fe s')))) =
        ms ++ concat (map (fun m => if bool_decide (id_of s m ∈ map fst keep) then []
                else [order dev part BACKEND_SET_STATE [state_code LOADING]; order dev part BACKEND_UNLOAD_MODEL [id_of s m]]) models)
           ++ (if free then [order dev part BACKEND_END_PROXY []; order dev part BACKEND_DISCONNECT_PROXY []] else []) /\
      s' = set_sv_fe (sv_fe s') s).
Proof.
  intros rest free. assert (Hfree : free = true -> rest = []) by (intros H; apply andb_prop in H as [H _]; by apply bool_decide_eq_true in H).
  assert (Hsrv : srv s (has_sent p node dev part answer true (mkCore true true models) working ms) s)
    by (split; [done|by destruct s]).
  eapply returns_weaken; [by eapply (unload_job reply threads fuel p node dev part s answer)|].
  intros u s'. unfold unloaded. change (List.filter (kept s (map fst keep)) models) with rest. fold free. clearbody free. destruct free.
  - intros (H & F1 & F2). apply settled_at in H as (x & Hx & Hc & Hb & Ho & He). injection Hc as C1 C2 C3.
    exists x. rewrite Hx in F1, F2. injection F1 as F1. injection F2 as F2. split; [done|].
    rewrite Hfree by done. done.
  - intros H. apply settled_at in H as (x & Hx & Hc & Hb & Ho & He). injection Hc as C1 C2 C3.
    exists x. rewrite app_nil_r. done.
Qed.

(** C10: a loading thread ends, and has told its proxy to load the models of the job.
    The thread of [loadModel_sync] first waits for the unloading one; when that is
    through after some sleeps, the proxy is then connected, or is COLD and the
    partitions may change, and the backend serves the orders of a job
    ([Backend_serves]: a proxy that is given them as the code gives them reaches the
    state they ask for), the thread returns: a COLD proxy was told to boot and to
    connect, the models in the list of the proxy still are, in the same order, each
    model of the job is, nothing else is, none is listed twice, exactly one order to
    load went out for each that was missing, and the proxy is no longer marked as
    loading. *)
Theorem load_job_loads (reply : list (Z * list Z) -> Z) (threads : nat -> Frontend -> Frontend) (fuel p : nat)
    (node dev part : Z) (answer : list (list Z) -> Z) (st : proxy_state) (c : Core) (l : list (Z * Z)) (k : nat)
    (ms : list (list Z)) (s : Server)
    (Hbackend : Backend_serves reply fuel node dev part answer)
    (Hquiet : quiet threads p node dev part false)
    (Hunload : unloads_for threads fuel p k (start_loading p (sv_fe s)))
    (Hstart : startable p node dev part s answer st c ms (sleeps threads k (start_loading p (sv_fe s))))
    (Hl : Forall (fun e => known s e.1) l) :
  returns (run_job reply threads fuel (LoadJob p l)) s (fun _ s' =>
    exists x, this p s' = Some x /\ isLoading x = false /\ isUnloading x = false /\
      (st = COLD -> isBooted x = true /\ isConnected x = true) /\
      (exists new, LoadedModels x = k_models c ++ new) /\ (NoDup (k_models c) -> NoDup (LoadedModels x)) /\
      (forall m, m ∈ LoadedModels x <-> m ∈ k_models c \/ exists e, e ∈ l /\ m = name_of s e.1) /\
      (LoadedModels x, orders dev part (own node dev part (c_log (fe_ctrl (sv_fe s'))))) =
        foldl (load_entry dev part s) (k_models c, ms ++ boot_orders dev part st) l /\
      s' = set_sv_fe (sv_fe s') s).
Proof.
  assert (Hsrv : srv s (fun f => unloads_for threads fuel p k (start_loading p f) /\
    startable p node dev part s answer st c ms (sleeps threads k (start_loading p f))) s) by (split; [done|by destruct s]).
  eapply returns_weaken; [by eapply (load_job reply threads fuel p node dev part s answer)|].
  intros u s'. unfold loaded. destruct (load_entries_models dev part s l (k_models c) (ms ++ boot_orders dev part st)) as (H1 & H2 & H3).
  destruct (foldl _ _ l) as [models' ms']. cbn [fst] in *. intros [H F].
  apply settled_at in H as (x & Hx & Hc & Hb & Ho & He). injection Hc as C1 C2 C3. exists x. rewrite Hx in F. injection F as F.
  rewrite C3, Ho. split; [done|]. split; [done|]. split; [done|]. split; [|done].
  intros ->. done.
Qed.

(** ** Loading, then unloading *)
Lemma model_id_nth names i m acc : NoDup names -> names !! i = Some m ->
  model_id_loop names m acc = (acc + 1 + Z.of_nat i)%Z.
Proof.
  intros Hnd. revert i acc. induction Hnd as [|n names Hn _ IH]; intros i acc Hi; [done|]. cbn [model_id_loop].
  destruct i as [|i]; cbn in Hi.
  - injection Hi as ->. rewrite String.eqb_refl. lia.
  - destruct (String.eqb_spec n m) as [->|_]; [|rewrite (IH i) by done; lia].
    exfalso. apply Hn. by eapply list_elem_of_lookup_2.
Qed.
Lemma id_of_nth s i m : NoDup (model_names s) -> model_names s !! i = Some m -> id_of s m = Z.of_nat i.
Proof. intros Hnd Hi. unfold id_of. rewrite (model_id_nth _ i) by done. lia. Qed.
Lemma known_nth s id : known s id -> exists i, id = Z.of_nat i /\ model_names s !! i = Some (name_of s id).
Proof.
  intros [n Hn]. unfold name_of. rewrite Hn. unfold at_index in Hn. destruct (Z.ltb_spec id 0); [done|].
  apply deref_inv in Hn. exists (Z.to_nat id). split; [lia|done].
Qed.
(** Of known models exactly those of the list are kept. *)
Lemma kept_models s (l : list (Z * Z)) (old models : list string) : NoDup (model_names s) ->
  (forall m, m ∈ old -> m ∈ model_names s) -> Forall (fun e => known s e.1) l ->
  (forall m, m ∈ models <-> m ∈ old \/ exists e, e ∈ l /\ m = name_of s e.1) ->
  forall m, m ∈ List.filter (kept s (map fst l)) models <-> exists e, e ∈ l /\ m = name_of s e.1.
Proof.
  intros Hnd Hold Hl Hm m. rewrite list_elem_of_In, filter_In, <- list_elem_of_In, Hm. unfold kept. rewrite bool_decide_eq_true.
  rewrite Forall_forall in Hl. split.
  - intros [Hin Hk]. assert (Hi : exists i, model_names s !! i = Some m).
    { destruct Hin as [Hin|(e & He & ->)]; [by apply list_elem_of_lookup_1, Hold|].
      destruct (known_nth s e.1 (Hl e He)) as (i & _ & Hi). by exists i. }
    destruct Hi as [i Hi]. rewrite (id_of_nth s i m) in Hk by done. apply list_elem_of_In, in_map_iff in Hk as (e & He & Hin').
    apply list_elem_of_In in Hin'. exists e. split; [done|]. destruct (known_nth s e.1 (Hl e Hin')) as (j & Hj & Hn).
    assert (i = j) as -> by lia. congruence.
  - intros (e & He & ->). split; [right; by exists e|]. destruct (known_nth s e.1 (Hl e He)) as (i & Hi & Hn).
    rewrite (id_of_nth s i) by done. rewrite <- Hi. apply list_elem_of_In, in_map, list_elem_of_In, He.
Qed.

(** ** The models the orders ask for *)
Definition proxy_msgs (dev part : Z) (l : list (list Z)) : list ProxyMsg :=
  omap (fun msg => match asks dev part msg with
    | Some (BACKEND_LOAD_MODEL, [id; batch]) => Some (MsgLoad id batch)
    | Some (BACKEND_UNLOAD_MODEL, [id]) => Some (MsgUnload id)
    | _ => None end) l.
Lemma proxy_msgs_app dev part l1 l2 : proxy_msgs dev part (l1 ++ l2) = proxy_msgs dev part l1 ++ proxy_msgs dev part l2.
Proof. apply omap_app. Qed.
Lemma proxy_msgs_order dev part cmd more : proxy_msgs dev part [order dev part cmd more] =
  match cmd, more with
  | BACKEND_LOAD_MODEL, [id; batch] => [MsgLoad id batch] | BACKEND_UNLOAD_MODEL, [id] => [MsgUnload id] | _, _ => [] end.
Proof. unfold proxy_msgs. cbn [omap list_omap]. rewrite asks_order. destruct cmd; try done; by destruct more as [|? [|? [|? ?]]]. Qed.
(** The last orders fit a list of names. *)
Definition fits (dev part : Z) (s : Server) (models : list string) (ms : list (list Z)) : Prop :=
  forall id, wanted (proxy_msgs dev part ms) id = true <-> exists m, m ∈ models /\ id_of s m = id.

Lemma load_fits dev part s l : NoDup (model_names s) -> Forall (fun e => known s e.1) l -> forall models ms,
  fits dev part s models ms ->
  let st := foldl (load_entry dev part s) (models, ms) l in fits dev part s st.1 st.2.
Proof.
  intros Hnd. induction 1 as [|e l He _ IH]; intros models ms Hf; [done|]. cbn [foldl]. unfold load_entry at 2 4. cbn [fst snd].
  case_bool_decide as Hin; [by apply IH|]. apply IH. intros id.
  change [order dev part BACKEND_SET_STATE [state_code LOADING]; order dev part BACKEND_LOAD_MODEL [e.1; e.2]] with
    ([order dev part BACKEND_SET_STATE [state_code LOADING]] ++ [order dev part BACKEND_LOAD_MODEL [e.1; e.2]]).
  rewrite !proxy_msgs_app, !proxy_msgs_order. cbn [app]. unfold wanted. rewrite foldl_app. cbn [foldl].
  fold (wanted (proxy_msgs dev part ms) id). destruct (known_nth s e.1 He) as (i & Hi & Hn).
  pose proof (id_of_nth s i _ Hnd Hn) as Hid. rewrite <- Hi in Hid. destruct (decide (e.1 = id)) as [<-|Hne].
  - split; [|done]. intros _. exists (name_of s e.1). split; [|done]. apply elem_of_app. right. by left.
  - rewrite (Hf id). split; intros (m & Hm & Hmid); exists m; (split; [|done]).
    + apply elem_of_app. by left.
    + apply elem_of_app in Hm as [Hm| ->%list_elem_of_singleton]; [done|]. congruence.
Qed.
Lemma unload_orders_cons dev part s ids m l : unload_orders dev part s ids (m :: l) =
  (if kept s ids m then [] else [order dev part BACKEND_SET_STATE [state_code LOADING]] ++
     [order dev part BACKEND_UNLOAD_MODEL [id_of s m]]) ++ unload_orders dev part s ids l.
Proof. unfold unload_orders. cbn [map concat]. by destruct (kept s ids m). Qed.
Lemma unload_fits dev part s ids models ms : fits dev part s models ms ->
  fits dev part s (List.filter (kept s ids) models) (ms ++ unload_orders dev part s ids models).
Proof.
  intros Hf id. assert (E : forall l ms, wanted (proxy_msgs dev part (ms ++ unload_orders dev part s ids l)) id =
    wanted (proxy_msgs dev part ms) id && negb (existsb (fun m => negb (kept s ids m) && (id_of s m =? id)%Z) l)).
  { clear ms Hf. induction l as [|m l IH]; intros ms; [by rewrite app_nil_r, andb_true_r|].
    rewrite unload_orders_cons, app_assoc, IH. cbn [existsb]. destruct (kept s ids m) eqn:Ek; cbn [negb andb orb].
    { by rewrite app_nil_r. }
    rewrite !proxy_msgs_app, !proxy_msgs_order. cbn [app]. unfold wanted. rewrite foldl_app. cbn [foldl].
    fold (wanted (proxy_msgs dev part ms) id). destruct (decide (id_of s m = id)) as [->|Hne].
    - by rewrite Z.eqb_refl, andb_false_r.
    - by rewrite (proj2 (Z.eqb_neq _ _) Hne). }
  rewrite E, andb_true_iff, (Hf id), negb_true_iff. split.
  - intros [(m & Hm & Hid) Hx]. exists m. split; [|done]. apply list_elem_of_In, filter_In. split; [by apply list_elem_of_In|].
    destruct (kept s ids m) eqn:Ek; [done|]. exfalso. rewrite <- not_true_iff_false in Hx. apply Hx, existsb_exists.
    exists m. split; [by apply list_elem_of_In|]. by rewrite Ek, Hid, Z.eqb_refl.
  - intros (m & Hm & Hid). apply list_elem_of_In, filter_In in Hm as [Hm Hk]. split; [exists m; split; [by apply list_elem_of_In|done]|].
    apply not_true_iff_false. intros (m' & Hm' & [Hk' Hid']%andb_prop)%existsb_exists. apply Z.eqb_eq in Hid'.
    unfold kept in *. rewrite Hid', <- Hid, Hk in Hk'. done.
Qed.


(** ** A backend that serves

    Proxy 3 of the demo: half of a GPU, partition 3, under a backend that calls the
    GPU number 2.  The backend is [receiveControl] and [executeControl] as they are;
    with it runs a proxy process that boots when it is started, carries out an order
    when it comes, and ends when it is told to.  It does nothing when it is marked
    LOADING without an order.  Of the other threads of the frontend one takes the
    batches off, or finishes the unloading. *)
Definition job_slot : nat := match shmem_index 2 3 with Done i => Z.to_nat i | Stop _ => 0%nat end.
Definition job_state (m : ShMem) : proxy_state := default COLD (v ← m !! job_slot; state_of_code v).
Definition job_boots (_ : nat) (m : ShMem) : ShMem :=
  if decide (job_state m = COLD) then <[job_slot := state_code BOOTING]> m else m.
Definition job_up (b : Backend) (_ : string) : bool := bool_decide (job_state (bk_shm b) = RUNNING).
Definition moved (st : proxy_state) (new : bool) : proxy_state :=
  match st, new with
  | BOOTING, _ => RUNNING | LOADING, true => RUNNING | EXITING, _ => FLUSHED | FLUSHED, true => COLD | st, _ => st end.
Definition proxy_acts (b : Backend) (handled : nat) : Backend :=
  set_bk_shm (<[job_slot := state_code (moved (job_state (bk_shm b)) (handled <? length (bk_sent b))%nat)]> (bk_shm b)) b.
Definition job_turn (msg : list Z) : M Backend (option Z) :=
  '(message, _) ← receiveControl msg;
  match message with Some params => executeControl job_boots COLD job_up (fun _ => 0%Z) 1 params | None => mret None end.
Definition serve (st : option (Backend * nat)) (msg : list Z) : option (Backend * nat) * Z :=
  match st with
  | Some (b, handled) =>
      match job_turn msg b with
      | Done (answer, b') => let b' := proxy_acts b' handled in (Some (b', length (bk_sent b')), default 0%Z answer)
      | Stop _ => (None, 0%Z)
      end
  | None => (None, 0%Z)
  end.
Definition job_backend (co bo : bool) (st : proxy_state) (sent : list (ProxyPtr * ProxyMsg)) (procs : list (ProxyPtr * Z * Z))
    (ticks : nat) : Backend :=
  mkBackend (mkFront (set_PerDevMPSInfo {[2%Z := [0%nat]]} (set_nGPUs 1 (set_FrontDevIDToHostDevID {[0%Z := 2%Z]}
      (new_SysMonitor (mkIndet 0 fzero false)))))
    [set_isConnected co (set_isBooted bo (demo_proxy 0 2 3))])
    (<[job_slot := state_code st]> (initShMem true [])) sent procs ticks.
Definition served (l : list (list Z)) : option (Backend * nat) :=
  foldl (fun st msg => (serve st msg).1) (Some (job_backend false false COLD [] [] 0, 0%nat)) l.
Definition job_answer (l : list (list Z)) : Z := (serve (served l) (poll 0 3)).2.
(** The answer to the last message. *)
Definition job_reply (log : list (Z * list Z)) : Z :=
  let l := own 0 0 3 log in (serve (served (removelast l)) (List.last l [])).2.

Lemma job_turn_run cmd more co bo st sent procs ticks :
  job_turn (order 0 3 cmd more) (job_backend co bo st sent procs ticks) =
  perform job_boots COLD job_up (fun _ => 0%Z) 1 cmd more 2 0%nat (job_backend co bo st sent procs ticks).
Proof.
  unfold job_turn, order. rewrite <- (app_nil_r (control_msg _ _ _ _)).
  erewrite bind_done by (apply receiveControl_msg; vm_compute; reflexivity).
  apply execute_performs. vm_compute. reflexivity.
Qed.
Lemma proxy_acts_run co bo st sent procs ticks handled :
  proxy_acts (job_backend co bo st sent procs ticks) handled =
  job_backend co bo (moved st (handled <? length sent)%nat) sent procs ticks.
Proof.
  unfold proxy_acts. change (bk_sent (job_backend co bo st sent procs ticks)) with sent.
  destruct (handled <? length sent)%nat, st; vm_compute; reflexivity.
Qed.
(** An order is performed, and the process reacts to it. *)
Lemma serve_run cmd more co bo st sent procs ticks a co' bo' st' sent' procs' ticks' :
  perform job_boots COLD job_up (fun _ => 0%Z) 1 cmd more 2 0%nat (job_backend co bo st sent procs ticks) =
    Done (Some a, job_backend co' bo' st' sent' procs' ticks') ->
  serve (Some (job_backend co bo st sent procs ticks, length sent)) (order 0 3 cmd more) =
  (Some (job_backend co' bo' (moved st' (length sent <? length sent')%nat) sent' procs' ticks', length sent'), a).
Proof. intros H. unfold serve. by rewrite job_turn_run, H, proxy_acts_run. Qed.

(** The state of the proxy on its course, and whether it is connected. *)
Definition course_state (k : Course) : proxy_state := match k with Announced => LOADING | k => default COLD (goal k) end.
Definition linked (k : Course) : bool :=
  match k with Serving | Announced | Busy | Ending | Flushed => true | _ => false end.
Definition fit (k : Course) (st : option (Backend * nat)) : Prop :=
  k = Astray \/ exists bo sent procs ticks,
    st = Some (job_backend (linked k) bo (course_state k) sent procs ticks, length sent).
Lemma fit_poll k st : fit k st -> k <> Astray -> (serve st (poll 0 3)).2 = state_code (course_state k).
Proof.
  intros [->|(bo & sent & procs & ticks & ->)] Hk; [done|]. unfold poll.
  by rewrite (serve_run _ _ _ _ _ _ _ _ (state_code (course_state k)) (linked k) bo (course_state k) sent procs ticks)
    by (destruct k; vm_compute; reflexivity).
Qed.
Lemma asks_inv msg cmd more : asks 0 3 msg = Some (cmd, more) -> msg = order 0 3 cmd more.
Proof.
  unfold asks. destruct msg as [|n [|c [|d [|q more']]]]; try done. destruct (_ && _ && _) eqn:E; [|done].
  apply andb_prop in E as [[E1 E2]%andb_prop E3]. apply Z.eqb_eq in E1, E2, E3. subst n d q.
  destruct (cmd_of_code c) as [cmd'|] eqn:Ec; [|done]. intros [= -> ->]. unfold order, control_msg.
  assert (c = cmd_code cmd) as ->; [|done]. unfold cmd_of_code in Ec. destruct (Z.ltb_spec c 0); [done|].
  assert (Hc : (Z.to_nat c < 10)%nat) by (apply lookup_lt_Some in Ec; exact Ec).
  rewrite <- (Z2Nat.id c) by done. revert Ec Hc. generalize (Z.to_nat c) as i. intros i Ec Hc.
  do 10 (destruct i as [|i]; [by injection Ec as <-|]). lia.
Qed.
Lemma fit_step k st msg : fit k st -> fit (course_step 0 3 (serve st (poll 0 3)).2 k msg) (serve st msg).1.
Proof.
  intros Hf. destruct (decide (k = Astray)) as [->|Hk].
  { left. unfold course_step. destruct (asks 0 3 msg) as [[cmd more]|]; [|done]. destruct cmd; try done.
    - by destruct more as [|? [|? [|? ?]]].
    - by destruct more as [|? [|? ?]]. }
  rewrite (fit_poll _ _ Hf Hk). destruct Hf as [->|(bo & sent & procs & ticks & ->)]; [done|].
  unfold course_step. destruct (asks 0 3 msg) as [[cmd more]|] eqn:Ea; [|by left]. apply asks_inv in Ea as ->.
  assert (Hlt : forall x, (length sent <? length (sent ++ [x]))%nat = true).
  { intros x. apply Nat.ltb_lt. rewrite length_app. cbn. lia. }
  destruct cmd; try (by left).
  - right. rewrite (serve_run _ _ _ _ _ _ _ _ (state_code (course_state k)) (linked k) bo (course_state k) sent procs ticks)
      by (destruct k; vm_compute; reflexivity).
    rewrite Nat.ltb_irrefl. exists bo, sent, procs, ticks. by destruct k.
  - destruct k; try (by left); right;
      rewrite (serve_run _ _ _ _ _ _ _ _ 3 true bo LOADING sent procs ticks) by (vm_compute; reflexivity);
      rewrite Nat.ltb_irrefl; by exists bo, sent, procs, ticks.
  - destruct more as [|id [|batch [|? ?]]]; try (by left; destruct k). destruct k; try (by left). right.
    rewrite (serve_run _ _ _ _ _ _ _ _ 0 true bo LOADING (sent ++ [(0%nat, MsgLoad id batch)]) procs ticks) by (vm_compute; reflexivity).
    rewrite Hlt. by exists bo, (sent ++ [(0%nat, MsgLoad id batch)]), procs, ticks.
  - destruct more as [|id [|? ?]]; try (by left; destruct k). destruct k; try (by left). right.
    rewrite (serve_run _ _ _ _ _ _ _ _ 0 true bo LOADING (sent ++ [(0%nat, MsgUnload id)]) procs ticks) by (vm_compute; reflexivity).
    rewrite Hlt. by exists bo, (sent ++ [(0%nat, MsgUnload id)]), procs, ticks.
  - destruct k; try (by left). right.
    rewrite (serve_run _ _ _ _ _ _ _ _ 0 false bo BOOTING sent (procs ++ [(0%nat, 1, 0)%Z]) (S ticks)) by (vm_compute; reflexivity).
    rewrite Nat.ltb_irrefl. by exists bo, sent, (procs ++ [(0%nat, 1, 0)%Z]), (S ticks).
  - destruct k; try (by left). right.
    rewrite (serve_run _ _ _ _ _ _ _ _ 0 true false EXITING sent procs ticks) by (vm_compute; reflexivity).
    rewrite Nat.ltb_irrefl. by exists false, sent, procs, ticks.
  - destruct k; try (by left). right.
    rewrite (serve_run _ _ _ _ _ _ _ _ 3 false bo FLUSHED (sent ++ [(0%nat, MsgClose)]) procs ticks) by (vm_compute; reflexivity).
    rewrite Hlt. by exists bo, (sent ++ [(0%nat, MsgClose)]), procs, ticks.
  - destruct k; try (by left). right.
    rewrite (serve_run _ _ _ _ _ _ _ _ 3 true bo RUNNING sent procs ticks) by (vm_compute; reflexivity).
    rewrite Nat.ltb_irrefl. by exists bo, sent, procs, ticks.
Qed.
Lemma served_fit l : fit (course 0 3 job_answer l) (served l).
Proof.
  induction l as [|msg l IH] using rev_ind.
  - right. exists false, [], [], 0%nat. done.
  - rewrite course_snoc. unfold served. rewrite foldl_app. cbn [foldl]. fold (served l). by apply fit_step.
Qed.
Lemma job_answer_goal l st : goal (course 0 3 job_answer l) = Some st -> job_answer l = state_code st.
Proof.
  intros Hg. pose proof (served_fit l) as Hf. unfold job_answer at 1. rewrite (fit_poll _ _ Hf).
  - by destruct (course 0 3 job_answer l); simplify_eq/=.
  - intros E. by rewrite E in Hg.
Qed.
Lemma job_serves fuel : Backend_serves job_reply fuel 0 0 3 job_answer.
Proof.
  split.
  - intros log. unfold job_reply, own. rewrite List.filter_app, map_app. cbn [List.filter].
    change (own_msg 0 0 3 (0%Z, poll 0 3)) with true. cbv iota. cbn [map snd]. by rewrite removelast_last, last_last.
  - intros l st Hg. exists 0%nat. split; [lia|]. rewrite app_nil_r. by apply job_answer_goal.
  - intros l st Hg Ha. apply job_answer_goal. rewrite (course_poll _ _ _ _ st) by done.
    by destruct (decide _); rewrite ?goal_seen.
  - intros l st Hg Ha. rewrite (job_answer_goal l st Hg) in Ha. by destruct st.
Qed.
(** Marked LOADING without an order, the proxy stays so. *)
Lemma marked_stays : map (fun k => job_answer ([order 0 3 BACKEND_START_PROXY []; poll 0 3; order 0 3 BACKEND_CONNECT_PROXY [];
  order 0 3 BACKEND_SET_STATE [state_code RUNNING]] ++ repeat (poll 0 3) k)) [0; 1; 5]%nat = [3; 3; 3]%Z.
Proof. vm_compute. reflexivity. Qed.

Definition on_proxy (g : ProxyInfo -> ProxyInfo) (q : nat) (f : Frontend) : Frontend :=
  set_fe_front (mkFront (set_PerProxyBatchList (<[q := []]> (PerProxyBatchList (f_sys (fe_front f)))) (f_sys (fe_front f)))
    (alter g q (f_proxies (fe_front f)))) f.
Definition drain_proxy (x : ProxyInfo) : ProxyInfo := set_isTaskBatching ∅ (set_isTaskExec ∅ x).
Lemma on_proxy_quiet g p node dev part b : (forall x, isUnloading x = b -> core (g x) = core x /\ isUnloading (g x) = b) ->
  (forall x, p_node_id (g x) = p_node_id x /\ p_dev_id (g x) = p_dev_id x /\ partition_num (g x) = partition_num x) ->
  quiet (fun _ => on_proxy g p) p node dev part b.
Proof.
  intros Hg Hk n c l f [(x & Hx & Hc & Hb & Hn & Hp & Hd) H2 H3 H4]. destruct (Hg x Hb) as [G1 G2]. destruct (Hk x) as (K1 & K2 & K3).
  split; cbn; [|done| |done].
  - exists (g x). split; [by rewrite list_lookup_alter_eq, Hx|]. split; [congruence|]. split; [done|].
    unfold lookupFrontDevIDtoBackDevID in *. by rewrite K1, K2, K3.
  - exists []. by rewrite lookup_insert_eq.
Qed.
Lemma drain_drains fuel p node dev part : (0 < fuel)%nat -> drains (fun _ => on_proxy drain_proxy p) fuel p node dev part.
Proof.
  intros Hf c l f m [(x & Hx & _) _ _ _] _. exists 1%nat. split; [lia|]. exists (drain_proxy x). cbn.
  rewrite list_lookup_alter_eq, Hx, lookup_insert_eq. done.
Qed.
Definition up_proxy (unloading : bool) (models : list string) (x : ProxyInfo) : ProxyInfo :=
  set_isUnloading unloading (set_LoadedModels models (set_isBooted true (set_isConnected true x))).
Definition demo_log : list (list Z) := [order 0 3 BACKEND_START_PROXY []; poll 0 3; order 0 3 BACKEND_CONNECT_PROXY []].
Definition demo_jobs (unloading : bool) (models : list string) (log : list (list Z)) : Server :=
  set_sv_fe (mkFrontend (fe_front (on_proxy (up_proxy unloading models) 3 demo_frontend))
    (mkCtrl (mMapBackendDelegate (fe_ctrl demo_frontend)) (mPerBackendNodeDevNum (fe_ctrl demo_frontend))
       (map (fun m => (0%Z, m)) (demo_log ++ log)) []) 0) demo_server.
Definition load_log (id batch : Z) : list (list Z) :=
  [order 0 3 BACKEND_SET_STATE [state_code LOADING]; order 0 3 BACKEND_LOAD_MODEL [id; batch]].
Ltac on_demo log := exists (demo_log ++ log); split;
  [split; [eexists; split; [vm_compute; reflexivity|]; split_and!; vm_compute; reflexivity
          |eexists; vm_compute; reflexivity|eexists; vm_compute; reflexivity|vm_compute; reflexivity]
  |split; [by right; vm_compute|vm_compute; reflexivity]].

(** Two models, one of which stays. *)
Lemma unload_job_keeps_witness :
  returns (run_job job_reply (fun _ => on_proxy drain_proxy 3) 3 (UnloadJob 3 [(7, 0)%Z]))
    (demo_jobs true ["lenet1"; "resnet50"]%string (load_log 0 4 ++ load_log 7 8))
    (fun _ s' => exists x, this 3 s' = Some x /\ LoadedModels x = ["resnet50"%string] /\ isUnloading x = false).
Proof.
  eapply returns_weaken.
  - apply (unload_job_keeps job_reply (fun _ => on_proxy drain_proxy 3) 3 3 0 0 3 job_answer [(7, 0)%Z] ["lenet1"; "resnet50"]%string
      (orders 0 3 (demo_log ++ load_log 0 4 ++ load_log 7 8)) (demo_jobs true ["lenet1"; "resnet50"]%string (load_log 0 4 ++ load_log 7 8))).
    + apply job_serves.
    + by apply on_proxy_quiet.
    + apply drain_drains. lia.
    + vm_compute. congruence.
    + cbn. lia.
    + on_demo (load_log 0 4 ++ load_log 7 8).
  - intros u s' (x & H1 & H2 & H3 & _). exists x. split; [exact H1|]. split; [rewrite H2; vm_compute; reflexivity|exact H3].
Defined.
(** The thread waits for one sleep; one model is new. *)
Lemma load_job_loads_witness :
  returns (run_job job_reply (fun _ => on_proxy (set_isUnloading false) 3) 3 (LoadJob 3 [(7, 8); (0, 4)]%Z))
    (demo_jobs true ["lenet1"]%string (load_log 0 4))
    (fun _ s' => exists x, this 3 s' = Some x /\ LoadedModels x = ["lenet1"; "resnet50"]%string /\ isLoading x = false).
Proof.
  eapply returns_weaken.
  - apply (load_job_loads job_reply (fun _ => on_proxy (set_isUnloading false) 3) 3 3 0 0 3 job_answer RUNNING
      (mkCore true true ["lenet1"]%string) [(7, 8); (0, 4)]%Z 1 (orders 0 3 (demo_log ++ load_log 0 4))
      (demo_jobs true ["lenet1"]%string (load_log 0 4))).
    + apply job_serves.
    + by apply on_proxy_quiet.
    + split; [lia|]. intros j Hj. assert (j = 0%nat) as -> by lia. eexists. split; vm_compute; reflexivity.
    + on_demo (load_log 0 4).
    + repeat constructor; eexists; vm_compute; reflexivity.
  - intros u s' (x & H1 & H2 & _ & _ & _ & _ & _ & H3 & _). exists x. split; [exact H1|]. split; [|exact H2].
    apply (f_equal fst) in H3. cbn [fst] in H3. rewrite H3. vm_compute. reflexivity.
Defined.
