(* ===== verification/ReorgProps.v ===== *)
(** * Loading and unloading along a schedule: which threads a new schedule starts
    ([additionalLoad] and [unloadModels] of [service/global_scheduler.cpp]). *)
From Stdlib Require Import ZArith SpecFloat String Lia.
From S2P Require Import Prelude CppFloat CppStd LatencyModel DevPerfModel SchedData SchedUtils SchedBase IncrSchedule Demo LoadBalancer SelfTuning AppModel SysState Control GlobalState GlobalSched DemoServer RoutingProps ProxyJobs.

(** [s] after starting [jobs], with other proxies. *)
Definition at_jobs (s : Server) (jobs : list Job) (px : list ProxyInfo) : Server :=
  set_sv_jobs (sv_jobs s ++ jobs) (at_routes s (PerProxyNetList (monitor_of s)) px).
Lemma at_jobs_same s : at_jobs s [] (proxies_of s) = s.
Proof. unfold at_jobs. rewrite at_routes_same, app_nil_r. by destruct s. Qed.
Lemma jobs_on_sched {A} (m : SM A) s jobs px a : m (sv_world s) = Done (a, sv_world s) ->
  on_sched m (at_jobs s jobs px) = Done (a, at_jobs s jobs px).
Proof. intros H. unfold on_sched, zoom. cbn [sv_world at_jobs at_routes set_sv_fe set_sv_jobs]. by rewrite H. Qed.
Lemma jobs_rd s jobs px p x : px !! p = Some x -> rd p (at_jobs s jobs px) = Done (x, at_jobs s jobs px).
Proof. intros H. unfold rd, on_fe, fe_rd, fe_on_front, zoom. cbn. unfold rd_proxy. mred. by rewrite H. Qed.
Lemma jobs_start_thread s jobs px j : start_thread j (at_jobs s jobs px) = Done (tt, at_jobs s (jobs ++ [j]) px).
Proof. unfold start_thread, modify, at_jobs. cbn. by rewrite app_assoc. Qed.
Lemma jobs_start_unload s jobs px p x keep : px !! p = Some x ->
  start_unload p keep (at_jobs s jobs px) =
  Done (tt, at_jobs s (jobs ++ [UnloadJob p keep]) (<[p := set_isUnloading true x]> px)).
Proof.
  intros H. unfold start_unload.
  rewrite (bind_done _ _ _ tt (at_jobs s jobs (<[p := set_isUnloading true x]> px))); [apply jobs_start_thread|].
  unfold wr, on_fe, fe_wr, fe_on_front, zoom. cbn. unfold wr_proxy. mred. by rewrite H.
Qed.
Lemma jobs_getProxyInfo s jobs px dev cap dedup p :
  (dev < nGPUs (monitor_of s))%Z ->
  (forall q, q ∈ getDevMPSInfo dev (monitor_of s) -> is_Some (px !! q)) ->
  find (fits px cap dedup) (getDevMPSInfo dev (monitor_of s)) = Some p ->
  on_front_fe (getProxyInfo dev cap dedup) (at_jobs s jobs px) = Done (p, at_jobs s jobs px).
Proof.
  intros Hd Hex Hf. unfold on_front_fe, on_fe, fe_on_front, zoom.
  rewrite (getProxyInfo_find _ dev cap dedup p); [done|exact Hd|exact Hex|exact Hf].
Qed.

(** ** What the schedules say *)
Section Schedules.
Context (s : Server).
Local Abbreviation w := (sv_world s).
Local Abbreviation mon := (monitor_of s).
Local Abbreviation px0 := (proxies_of s).
(** Every proxy of a device exists. *)
Hypothesis exist : forall d p, p ∈ getDevMPSInfo d mon -> is_Some (px0 !! p).

Definition reads_node (np : NodePtr) (n : Node) : Prop := rd_node np w = Done (n, w).
Definition reads_gpu (gp : GPUPtr) (g : GPU) : Prop := rd_gpu gp w = Done (g, w).
Definition task_entry (tp : TaskPtr) (e : Z * Z) : Prop :=
  exists t, rd_task tp w = Done (t, w) /\ e = (t_id t, t_batch_size t).
(** The proxy of device [dev] with a share and number. *)
Definition proxy_at (dev cap dedup : Z) (p : ProxyPtr) : Prop :=
  (dev < nGPUs mon)%Z /\ find (fits px0 cap dedup) (getDevMPSInfo dev mon) = Some p.

Lemma batches_run l es : forall acc, Forall2 task_entry l es ->
  for_acc l acc (fun acc tp => t ← rd_task tp; mret (acc ++ [(t_id t, t_batch_size t)])) w = Done (acc ++ es, w).
Proof.
  revert es. induction l as [|tp l IH]; intros es acc H; inversion H as [|? e ? es' (t & Ht & ->) He]; subst; cbn [for_acc].
  - by rewrite app_nil_r.
  - rewrite (bind_done _ _ _ (acc ++ [(t_id t, t_batch_size t)]) w) by (by rewrite (bind_done _ _ _ _ _ Ht)).
    rewrite (IH _ _ He). by rewrite <- app_assoc.
Qed.

(** ** Loading *)
(** A node with models: its proxy and the list for the thread. *)
Definition node_load (np : NodePtr) (e : ProxyPtr * list (Z * Z)) : Prop :=
  exists n, reads_node np n /\ Forall2 task_entry (n_vTaskList n) e.2 /\
    (e.2 <> [] -> proxy_at (n_id n) (n_resource_pntg n) (n_dedup_num n) e.1).
Definition load_jobs (plan : list (ProxyPtr * list (Z * Z))) : list Job :=
  concat (map (fun e => match e.2 with [] => [] | l => [LoadJob e.1 l] end) plan).

Lemma load_node_run np e jobs : node_load np e ->
  (n ← on_sched (rd_node np);
   if decide (n_vTaskList n = []) then mret tt
   else p ← on_front_fe (getProxyInfo (n_id n) (n_resource_pntg n) (n_dedup_num n));
        l ← on_sched (node_batches n); start_thread (LoadJob p l)) (at_jobs s jobs px0)
  = Done (tt, at_jobs s (jobs ++ load_jobs [e]) px0).
Proof.
  intros (n & Hn & Ht & Hp). rewrite (bind_done _ _ _ _ _ (jobs_on_sched _ s jobs px0 _ Hn)).
  destruct e as [p l]. cbn [fst snd] in *. case_decide as He.
  - rewrite He in Ht. inversion Ht; subst. cbn. by rewrite app_nil_r.
  - assert (Hl : l <> []) by (intros ->; inversion Ht; congruence). destruct (Hp Hl) as [Hd Hf].
    rewrite (bind_done _ _ _ _ _ (jobs_getProxyInfo s jobs px0 _ _ _ p Hd (exist _) Hf)).
    rewrite (bind_done _ _ _ _ _ (jobs_on_sched _ s jobs px0 l (batches_run _ _ [] Ht))).
    rewrite jobs_start_thread. by destruct l.
Qed.
Lemma load_jobs_app l1 l2 : load_jobs (l1 ++ l2) = load_jobs l1 ++ load_jobs l2.
Proof. unfold load_jobs. by rewrite map_app, concat_app. Qed.
Lemma additionalLoad_run gp g plan jobs : reads_gpu gp g -> Forall2 node_load (g_vNodeList g) plan ->
  additionalLoad gp (at_jobs s jobs px0) = Done (tt, at_jobs s (jobs ++ load_jobs plan) px0).
Proof.
  intros Hg H. unfold additionalLoad. rewrite (bind_done _ _ _ _ _ (jobs_on_sched _ s jobs px0 _ Hg)).
  revert jobs. induction H as [|np e l plan He _ IH]; intros jobs; cbn [for_each]; [by rewrite app_nil_r|].
  rewrite (bind_done _ _ _ _ _ (load_node_run np e jobs He)), IH, <- app_assoc, <- load_jobs_app. done.
Qed.
Lemma load_gpus_run l gl : Forall2 reads_gpu l gl -> forall plan jobs,
  Forall2 node_load (concat (map g_vNodeList gl)) plan ->
  for_each l additionalLoad (at_jobs s jobs px0) = Done (tt, at_jobs s (jobs ++ load_jobs plan) px0).
Proof.
  induction 1 as [|gp g l gl Hg _ IH]; intros plan jobs H; cbn [for_each map concat] in *.
  - inversion H; subst. by rewrite app_nil_r.
  - apply Forall2_app_inv_l in H as (plan1 & plan2 & H1 & H2 & ->).
    rewrite (bind_done _ _ _ _ _ (additionalLoad_run gp g plan1 jobs Hg H1)), (IH plan2) by done.
    by rewrite <- app_assoc, <- load_jobs_app.
Qed.

(** ** Unloading *)
Hypothesis names : model_names s <> [].

(** The nodes of GPU [id] in the new schedule, with the entries of their tasks. *)
Definition View : Type := Node * list (Z * Z).
Definition view (np : NodePtr) (v : View) : Prop :=
  reads_node np v.1 /\ Forall2 task_entry (n_vTaskList v.1) v.2.
Definition new_nodes (curr : SimState) (id : Z) (views : list View) : Prop :=
  if (u64 id <? Z.of_nat (length (vGPUList curr)))%Z then
    exists gp g, at_index (vGPUList curr) id = Done gp /\ reads_gpu gp g /\ Forall2 view (g_vNodeList g) views
  else views = [].
Definition same_part (n : Node) (v : View) : bool :=
  ((n_resource_pntg v.1 =? n_resource_pntg n) && (n_dedup_num v.1 =? n_dedup_num n))%Z.
(** A loaded model is not among the tasks. *)
Definition surplus (x : ProxyInfo) (v : View) : bool :=
  existsb (fun m => negb (bool_decide (id_of s m ∈ map fst v.2))) (LoadedModels x).
Definition keep_list (v : View) : list (Z * Z) := map (fun e => (e.1, 0%Z)) v.2.
Definition view_jobs (p : ProxyPtr) (x : ProxyInfo) (n : Node) (v : View) : list Job :=
  if same_part n v then (if surplus x v then [UnloadJob p (keep_list v)] else []) else [].
(** What a node of the previous schedule starts: nothing for an empty proxy; when the
    new schedule has no such partition, the unloading of all. *)
Definition unload_plan (p : ProxyPtr) (x : ProxyInfo) (n : Node) (views : list View) : list Job :=
  if decide (LoadedModels x = []) then []
  else concat (map (view_jobs p x n) views) ++ (if existsb (same_part n) views then [] else [UnloadJob p []]).
Definition node_unload (curr : SimState) (gn : GPU * NodePtr) (jobs : list Job) : Prop :=
  exists n p x views, reads_node gn.2 n /\ proxy_at (g_GPUID gn.1) (n_resource_pntg n) (n_dedup_num n) p /\
    px0 !! p = Some x /\ new_nodes curr (g_GPUID gn.1) views /\
    Forall (fun v => same_part n v = true -> n_id v.1 = p_dev_id x) views /\ jobs = unload_plan p x n views.

Definition unloads (q : ProxyPtr) (j : Job) : bool := match j with UnloadJob p _ => (p =? q)%nat | LoadJob _ _ => false end.
Definition marked (jobs : list Job) (q : ProxyPtr) (x : ProxyInfo) : ProxyInfo :=
  if existsb (unloads q) jobs then set_isUnloading true x else x.
Definition started (jobs : list Job) (s' : Server) : Prop :=
  exists px, s' = at_jobs s jobs px /\ forall q x, px0 !! q = Some x -> px !! q = Some (marked jobs q x).

Lemma ids_run l es : forall acc, Forall2 task_entry l es ->
  for_acc l acc (fun acc tp => t ← rd_task tp; mret (acc ++ [(t_id t, 0%Z)])) w = Done (acc ++ map (fun e => (e.1, 0%Z)) es, w).
Proof.
  revert es. induction l as [|tp l IH]; intros es acc H; inversion H as [|? e ? es' (t & Ht & ->) He]; subst; cbn [for_acc].
  - by rewrite app_nil_r.
  - rewrite (bind_done _ _ _ (acc ++ [(t_id t, 0%Z)]) w) by (by rewrite (bind_done _ _ _ _ _ Ht)).
    rewrite (IH _ _ He). by rewrite <- app_assoc.
Qed.
Lemma has_task_run l es id : forall acc : bool, Forall2 task_entry l es ->
  for_acc l acc (fun (found : bool) tp => t ← rd_task tp; mret (if (t_id t =? id)%Z then true else found)) w
  = Done (acc || bool_decide (id ∈ map fst es), w).
Proof.
  revert es. induction l as [|tp l IH]; intros es acc H; inversion H as [|? e ? es' (t & Ht & ->) He]; subst; cbn [for_acc].
  - rewrite bool_decide_eq_false_2 by (cbn; apply not_elem_of_nil). by rewrite orb_false_r.
  - erewrite bind_done by (rewrite (bind_done _ _ _ _ _ Ht); reflexivity). rewrite (IH _ _ He). f_equal. f_equal. cbn [map fst].
    rewrite (bool_decide_ext (id ∈ t_id t :: map fst es') (id = t_id t \/ id ∈ map fst es')) by apply elem_of_cons.
    rewrite bool_decide_or. destruct (Z.eqb_spec (t_id t) id) as [->|Hne].
    + rewrite (bool_decide_eq_true_2 (id = id)) by done. by destruct acc.
    + rewrite (bool_decide_eq_false_2 (id = t_id t)) by congruence. done.
Qed.
Lemma getModelID_run m : SchedBase.getModelID m w = Done (id_of s m, w).
Proof.
  pose proof (id_of_nonneg (model_names s) m (-1) names) as Hi. fold (id_of s m) in Hi.
  unfold SchedBase.getModelID, sched. mred. fold (model_names s). fold (id_of s m).
  by rewrite (proj2 (Z.eqb_neq _ _)) by lia.
Qed.
Lemma needToUnload_run np v x : view np v -> n_id v.1 = p_dev_id x -> n_resource_pntg v.1 = p_cap x ->
  n_dedup_num v.1 = p_dedup_num x -> needToUnload np x w = Done (surplus x v, w).
Proof.
  intros [Hn Ht] H1 H2 H3. unfold needToUnload. rewrite (bind_done _ _ _ _ _ Hn). rewrite H1, H2, H3, !Z.eqb_refl.
  erewrite bind_done by reflexivity. unfold surplus.
  assert (E : forall l, for_ret l (fun str_name => model_id ← SchedBase.getModelID str_name; found ← has_task v.1 model_id;
     mret (if (found : bool) then None else Some true)) w
     = Done (if existsb (fun m => negb (bool_decide (id_of s m ∈ map fst v.2))) l then Some true else None, w)).
  { induction l as [|m l IH]; [done|]. cbn [for_ret existsb].
    erewrite bind_done.
    2:{ rewrite (bind_done _ _ _ _ _ (getModelID_run m)). unfold has_task.
        rewrite (bind_done _ _ _ _ _ (has_task_run _ _ (id_of s m) false Ht)). reflexivity. }
    cbn [orb]. destruct (bool_decide _); [exact IH|done]. }
  rewrite (bind_done _ _ _ _ _ (E _)). by destruct (existsb _ _).
Qed.

Lemma marked_keeps jobs q x : let x' := marked jobs q x in
  LoadedModels x' = LoadedModels x /\ p_dev_id x' = p_dev_id x /\ p_cap x' = p_cap x /\ p_dedup_num x' = p_dedup_num x.
Proof. cbn. unfold marked. by destruct (existsb _ _). Qed.
Lemma start_unload_run p x keep jobs s' : px0 !! p = Some x -> started jobs s' ->
  returns (start_unload p keep) s' (fun _ => started (jobs ++ [UnloadJob p keep])).
Proof.
  intros Hx (px & -> & Hpx). eapply returns_intro; [by apply jobs_start_unload, Hpx|].
  eexists. split; [done|]. intros q y Hy. unfold marked. rewrite existsb_app. cbn [existsb unloads]. rewrite orb_false_r.
  destruct (decide (q = p)) as [->|Hne].
  - rewrite Hx in Hy. injection Hy as <-. rewrite list_lookup_insert_eq by (eapply lookup_lt_Some; by apply Hpx).
    rewrite Nat.eqb_refl, orb_true_r. unfold marked. by destruct (existsb _ _).
  - rewrite list_lookup_insert_ne by done. rewrite (Hpx q y Hy). rewrite (proj2 (Nat.eqb_neq p q)) by congruence.
    by rewrite orb_false_r.
Qed.

Section Node.
Context (p : ProxyPtr) (x : ProxyInfo) (n : Node).
Hypothesis Hx : px0 !! p = Some x.
Hypothesis Hcap : p_cap x = n_resource_pntg n /\ p_dedup_num x = n_dedup_num n.

Definition unload_view (found : bool) (np2 : NodePtr) : GM bool :=
  n2 ← on_sched (rd_node np2);
  if ((n_resource_pntg n2 =? n_resource_pntg n) && (n_dedup_num n2 =? n_dedup_num n))%Z then
    x ← rd p;
    need ← on_sched (needToUnload np2 x);
    _ ← (if (need : bool) then l ← on_sched (node_ids n2); start_unload p l else mret tt);
    mret true
  else mret found.
Lemma view_run np2 v found jobs s' : view np2 v -> (same_part n v = true -> n_id v.1 = p_dev_id x) -> started jobs s' ->
  returns (unload_view found np2) s' (fun r s2 => r = found || same_part n v /\ started (jobs ++ view_jobs p x n v) s2).
Proof.
  intros Hv Hid Hs. pose proof Hs as (px & E & Hpx). pose proof Hv as [Hn Ht]. unfold unload_view, view_jobs.
  eapply returns_read; [rewrite E; by apply jobs_on_sched|]. rewrite <- E.
  fold (same_part n v). destruct (same_part n v) eqn:Es.
  2:{ eapply returns_intro; [reflexivity|]. by rewrite orb_false_r, app_nil_r. }
  destruct (marked_keeps jobs p x) as (K1 & K2 & K3 & K4).
  apply andb_prop in Es as [E1 E2]. apply Z.eqb_eq in E1, E2. destruct Hcap as [C1 C2].
  eapply returns_read; [rewrite E; by apply jobs_rd, Hpx|].
  eapply returns_read; [apply jobs_on_sched, (needToUnload_run np2 v (marked jobs p x) Hv)|].
  { rewrite K2. by apply Hid. } { congruence. } { congruence. }
  rewrite <- E. assert (Hsur : surplus (marked jobs p x) v = surplus x v) by (unfold surplus; by rewrite K1).
  rewrite Hsur, orb_true_r. destruct (surplus x v).
  - eapply returns_bind with (Q1 := fun _ => started (jobs ++ [UnloadJob p (keep_list v)])); [|intros u s2 H2; by eapply returns_intro].
    eapply returns_read; [rewrite E; apply jobs_on_sched, (ids_run _ _ [] Ht)|]. rewrite <- E. by apply (start_unload_run p x).
  - eapply returns_read; [reflexivity|]. eapply returns_intro; [reflexivity|]. by rewrite app_nil_r.
Qed.
Lemma views_run nodes views : Forall2 view nodes views -> forall found jobs s',
  Forall (fun v => same_part n v = true -> n_id v.1 = p_dev_id x) views -> started jobs s' ->
  returns (for_acc nodes found unload_view) s' (fun r s2 =>
    r = found || existsb (same_part n) views /\ started (jobs ++ concat (map (view_jobs p x n) views)) s2).
Proof.
  induction 1 as [|np2 v nodes views Hv _ IH]; intros found jobs s' Hids Hs; cbn [for_acc existsb map concat].
  { eapply returns_intro; [reflexivity|]. by rewrite orb_false_r, app_nil_r. }
  apply Forall_cons in Hids as [Hid Hids]. eapply returns_bind; [by apply (view_run np2 v)|]. intros r s2 [-> H2].
  eapply returns_weaken; [by apply IH|]. intros r s3 [-> H3]. rewrite app_assoc. split; [by rewrite <- orb_assoc|done].
Qed.
End Node.

Lemma proxy_at_fits dev cap dedup p x : proxy_at dev cap dedup p -> px0 !! p = Some x -> p_cap x = cap /\ p_dedup_num x = dedup.
Proof.
  intros [_ Hf] Hx. apply find_some in Hf as [_ Hf]. unfold fits in Hf. rewrite Hx in Hf.
  apply andb_prop in Hf as [H1 H2]. by apply Z.eqb_eq in H1, H2.
Qed.
Lemma unload_node_run curr g np js jobs s' : node_unload curr (g, np) js -> started jobs s' ->
  returns (unload_node curr g np) s' (fun _ => started (jobs ++ js)).
Proof.
  intros (n & p & x & views & Hn & Hp & Hx & Hnew & Hids & ->) Hs. cbn [fst snd] in *.
  pose proof (proxy_at_fits _ _ _ _ _ Hp Hx) as Hcap. destruct Hp as [Hd Hf]. pose proof Hs as (px & E & Hpx).
  destruct (marked_keeps jobs p x) as (K1 & _).
  unfold unload_node. eapply returns_read; [rewrite E; by apply jobs_on_sched|]. rewrite <- E.
  eapply returns_read.
  { rewrite E. apply jobs_getProxyInfo; [exact Hd| |].
    - intros q Hq. destruct (exist _ _ Hq) as [y Hy]. rewrite (Hpx q y Hy). by eexists.
    - rewrite <- Hf. apply find_ext. intros q Hq. destruct (exist _ _ Hq) as [y Hy]. unfold fits.
      rewrite (Hpx q y Hy), Hy. by destruct (marked_keeps jobs q y) as (_ & _ & -> & ->). }
  eapply returns_read; [by apply jobs_rd, Hpx|]. rewrite <- E, K1. unfold unload_plan.
  case_decide as He; [eapply returns_intro; [reflexivity|]; by rewrite app_nil_r|].
  eapply returns_bind with (Q1 := fun nodes s2 => s2 = s' /\ Forall2 view nodes views).
  { unfold new_nodes in Hnew. destruct (_ <? _)%Z.
    - destruct Hnew as (gp2 & g2 & H1 & H2 & H3). eapply returns_read; [unfold lift; rewrite H1; reflexivity|].
      eapply returns_read; [rewrite E; by apply jobs_on_sched|]. eapply returns_intro; [reflexivity|]. by rewrite <- E.
    - subst views. by eapply returns_intro. }
  intros nodes s2 [-> Hviews]. eapply returns_bind; [by apply (views_run p x n Hx Hcap nodes views Hviews false jobs)|].
  intros found s3 [-> H3]. cbn [orb]. rewrite app_assoc.
  destruct (existsb _ _); [eapply returns_intro; [reflexivity|]; by rewrite app_nil_r|]. by apply (start_unload_run p x).
Qed.
Definition prev_nodes (gl : list GPU) : list (GPU * NodePtr) := concat (map (fun g => map (pair g) (g_vNodeList g)) gl).
Lemma unload_gpu_run curr g plans : Forall2 (node_unload curr) (map (pair g) (g_vNodeList g)) plans -> forall jobs s',
  started jobs s' -> returns (for_each (g_vNodeList g) (unload_node curr g)) s' (fun _ => started (jobs ++ concat plans)).
Proof.
  revert plans. induction (g_vNodeList g) as [|np l IH]; intros plans H jobs s' Hs; inversion H as [|? js ? plans' H1 H2]; subst; cbn.
  { by rewrite app_nil_r. }
  eapply returns_bind; [by apply (unload_node_run curr g np js)|]. intros u s2 H3. rewrite app_assoc. by apply IH.
Qed.
Lemma unload_gpus_run prev curr gl plans : Forall2 reads_gpu (vGPUList prev) gl ->
  Forall2 (node_unload curr) (prev_nodes gl) plans -> forall jobs s', started jobs s' ->
  returns (unloadModels prev curr) s' (fun _ => started (jobs ++ concat plans)).
Proof.
  unfold unloadModels, prev_nodes. intros H. revert plans. induction H as [|gp g l gl Hg _ IH]; intros plans Hp jobs s' Hs;
    cbn [for_each map concat] in *.
  { inversion Hp. cbn. by rewrite app_nil_r. }
  apply Forall2_app_inv_l in Hp as (p1 & p2 & H1 & H2 & ->). rewrite concat_app, app_assoc.
  eapply returns_bind with (Q1 := fun _ => started (jobs ++ concat p1)); [|intros u s2 H3; by apply IH].
  pose proof Hs as (px & E & _). eapply returns_read; [rewrite E; by apply jobs_on_sched|]. rewrite <- E. by apply unload_gpu_run.
Qed.
End Schedules.

(** C7: a new schedule starts the threads it needs, and no others.  For two schedules
    whose GPUs, nodes and tasks exist and whose nodes name proxies: going through the
    new one starts, for every node with models and in its order, one thread that loads
    the models of the node with their batch sizes on the proxy of the node, and
    changes nothing else; going through the old one against the new starts one thread
    for every proxy that has a model its node of the new schedule does not ask for,
    which keeps what the node asks for, and one that keeps nothing for every proxy
    with models whose partition is gone; exactly these proxies are marked as
    unloading. *)
Theorem schedule_starts_jobs (s : Server) (prev curr : SimState) (gl_prev gl_curr : list GPU)
    (plan : list (ProxyPtr * list (Z * Z))) (plans : list (list Job))
    (Hexist : forall d p, p ∈ getDevMPSInfo d (monitor_of s) -> is_Some (proxies_of s !! p))
    (Hnames : model_names s <> [])
    (Hcurr : Forall2 (reads_gpu s) (vGPUList curr) gl_curr)
    (Hload : Forall2 (node_load s) (concat (map g_vNodeList gl_curr)) plan)
    (Hprev : Forall2 (reads_gpu s) (vGPUList prev) gl_prev)
    (Hunload : Forall2 (node_unload s curr) (prev_nodes gl_prev) plans) :
  for_each (vGPUList curr) additionalLoad s = Done (tt, set_sv_jobs (sv_jobs s ++ load_jobs plan) s) /\
  returns (unloadModels prev curr) s (fun _ s' => exists px,
    s' = set_sv_jobs (sv_jobs s ++ concat plans)
           (set_sv_fe (set_fe_front (mkFront (monitor_of s) px) (sv_fe s)) s) /\
    forall q x, proxies_of s !! q = Some x ->
      px !! q = Some (if existsb (unloads q) (concat plans) then set_isUnloading true x else x)).
Proof.
  split.
  - pose proof (load_gpus_run s Hexist _ _ Hcurr plan [] Hload) as H. rewrite at_jobs_same in H. rewrite H.
    unfold at_jobs. by rewrite at_routes_same.
  - eapply returns_weaken; [apply (unload_gpus_run s Hexist Hnames prev curr gl_prev plans Hprev Hunload [])|].
    + exists (proxies_of s). by rewrite at_jobs_same.
    + intros u s' (px & -> & Hpx). exists px. split; [|exact Hpx]. unfold at_jobs, at_routes. cbn.
      by destruct s as [? ? [[[] ?] ? ?] ? ? ?].
Qed.

(** The half of GPU 0 has [lenet1] loaded and is to run [resnet50]; the second node
    has no models. *)
Definition demo_reorg : Server :=
  set_sv_fe (set_fe_front (mkFront (monitor_of demo_output_server)
    (alter (set_LoadedModels ["lenet1"%string]) 2 (proxies_of demo_output_server))) (sv_fe demo_output_server)) demo_output_server.
Lemma schedule_starts_jobs_witness :
  for_each (vGPUList demo_sim) additionalLoad demo_reorg = Done (tt, set_sv_jobs [LoadJob 2 [(7, 8)%Z]] demo_reorg) /\
  returns (unloadModels demo_sim demo_sim) demo_reorg (fun _ s' => sv_jobs s' = [UnloadJob 2 [(7, 0)%Z]]).
Proof.
  destruct (schedule_starts_jobs demo_reorg demo_sim demo_sim demo_gpus demo_gpus [(2%nat, [(7, 8)%Z]); (9%nat, [])]
    [[UnloadJob 2 [(7, 0)%Z]]; []]) as [H1 H2].
  - intros d p Hp. apply (dev_proxies_check (fun p => bool_decide (is_Some (proxies_of demo_reorg !! p))) (monitor_of demo_reorg)) in Hp;
      [by apply bool_decide_eq_true in Hp|vm_compute; reflexivity].
  - vm_compute. congruence.
  - do 2 (constructor; [vm_compute; reflexivity|]). constructor.
  - cbn [demo_gpus map g_vNodeList concat app]. constructor; [|constructor; [|constructor]].
    + eexists. split; [vm_compute; reflexivity|]. split; [|intros _; split; vm_compute; reflexivity].
      constructor; [|constructor]. eexists. split; vm_compute; reflexivity.
    + eexists. split; [vm_compute; reflexivity|]. split; [constructor|done].
  - do 2 (constructor; [vm_compute; reflexivity|]). constructor.
  - constructor; [|constructor; [|constructor]].
    + eexists _, 2%nat, _, [(_, [(7, 8)%Z])]. split; [vm_compute; reflexivity|]. split; [split; vm_compute; reflexivity|].
      split; [vm_compute; reflexivity|]. split.
      { unfold new_nodes. replace (_ <? _)%Z with true by (vm_compute; reflexivity). eexists _, _.
        split; [vm_compute; reflexivity|]. split; [vm_compute; reflexivity|]. constructor; [|constructor].
        split; [vm_compute; reflexivity|]. constructor; [|constructor]. eexists. split; vm_compute; reflexivity. }
      split; [constructor; [intros _; vm_compute; reflexivity|constructor]|vm_compute; reflexivity].
    + eexists _, 9%nat, _, [(_, [])]. split; [vm_compute; reflexivity|]. split; [split; vm_compute; reflexivity|].
      split; [vm_compute; reflexivity|]. split.
      { unfold new_nodes. replace (_ <? _)%Z with true by (vm_compute; reflexivity). eexists _, _.
        split; [vm_compute; reflexivity|]. split; [vm_compute; reflexivity|]. constructor; [|constructor].
        split; [vm_compute; reflexivity|]. constructor. }
      split; [constructor; [intros _; vm_compute; reflexivity|constructor]|vm_compute; reflexivity].
  - split; [exact H1|]. eapply returns_weaken; [exact H2|]. intros u s' (px & -> & _). reflexivity.
Defined.
