(* ===== verification/EpochProps.v ===== *)
(** * An epoch puts a schedule into effect: routing, the copies of the schedules and
    the threads that unload ([OracleScheduler] of [service/global_scheduler.cpp], up
    to the tasks of the new epoch). *)
From Stdlib Require Import ZArith SpecFloat String Lia.
From S2P Require Import Prelude CppFloat CppStd LatencyModel DevPerfModel SchedData SchedUtils SchedBase IncrSchedule Demo IncrFitProps SchedCopy LoadBalancer SelfTuning AppModel SysState Control GlobalState GlobalSched DemoServer RoutingProps ProxyJobs ReorgProps.

(** ** What a schedule says, without its pointers

    A node without its task list, and the model and batch size of its tasks; the GPUs
    with their numbers. *)
Definition NodeView : Type := Node * list (Z * Z).
Definition task_view (w : World) (tp : TaskPtr) (e : Z * Z) : Prop :=
  exists t, w_tasks w !! tp = Some t /\ e = (t_id t, t_batch_size t).
Definition node_view (w : World) (np : NodePtr) (v : NodeView) : Prop :=
  exists n, w_nodes w !! np = Some n /\ v.1 = copy_node_fields n /\ Forall2 (task_view w) (n_vTaskList n) v.2.
Definition gpu_view (w : World) (gp : GPUPtr) (gv : Z * list NodeView) : Prop :=
  exists g, w_gpus w !! gp = Some g /\ g_GPUID g = gv.1 /\ Forall2 (node_view w) (g_vNodeList g) gv.2.
Definition sim_view (w : World) (sim : SimState) (gvs : list (Z * list NodeView)) : Prop :=
  Forall2 (gpu_view w) (vGPUList sim) gvs.

Lemma sim_view_extends w w' sim gvs : extends w w' -> sim_view w sim gvs -> sim_view w' sim gvs.
Proof.
  intros [Ht Hn Hg _ _] H. eapply Forall2_impl; [exact H|]. intros gp gv (g & H1 & H2 & H3).
  destruct (Hg gp g H1) as [l Hl]. eexists. split; [exact Hl|]. split; [done|]. cbn. eapply Forall2_impl; [exact H3|].
  intros np v (n & N1 & N2 & N3). exists n. split; [by eapply prefix_lookup_Some|]. split; [done|].
  eapply Forall2_impl; [exact N3|]. intros tp e (t & T1 & ->). exists t. split; [by eapply prefix_lookup_Some|done].
Qed.
Lemma sim_view_valid w sim gvs : sim_view w sim gvs -> valid_sim w sim.
Proof.
  intros H gp Hgp. apply list_elem_of_lookup_1 in Hgp as [i Hi]. destruct (Forall2_lookup_l _ _ _ _ _ H Hi) as (gv & _ & (g & H1 & _ & H3)).
  exists g. split; [done|]. intros np Hnp. apply list_elem_of_lookup_1 in Hnp as [j Hj].
  destruct (Forall2_lookup_l _ _ _ _ _ H3 Hj) as (v & _ & (n & N1 & _ & N3)). exists n. split; [done|].
  intros tp Htp. apply list_elem_of_lookup_1 in Htp as [k Hk]. destruct (Forall2_lookup_l _ _ _ _ _ N3 Hk) as (e & _ & (t & T1 & _)).
  by exists t.
Qed.
(** A copy says the same. *)
Lemma Forall2_trans_l {A B C} (R : A -> B -> Prop) (P : A -> C -> Prop) (Q : B -> C -> Prop) l l' k :
  (forall a b c, R a b -> P a c -> Q b c) -> Forall2 R l l' -> Forall2 P l k -> Forall2 Q l' k.
Proof.
  intros H H1. revert k. induction H1 as [|a b l l' Hab _ IH]; intros k H2; inversion H2; subst; constructor; [by eapply H|by apply IH].
Qed.
Lemma copy_view w w' sim out gvs : Forall2 (gpu_copy w w') (vGPUList sim) (vGPUList out) -> sim_view w sim gvs -> sim_view w' out gvs.
Proof.
  intros Hc Hv. eapply Forall2_trans_l; [|exact Hc|exact Hv]. clear.
  intros gp gp' gv (g & g' & G1 & G2 & G3 & _ & G5 & _) (g0 & H1 & H2 & H3). rewrite G1 in H1. injection H1 as <-.
  exists g'. split; [done|]. split; [congruence|]. eapply Forall2_trans_l; [|exact G5|exact H3]. clear.
  intros np np' v (n & l & N1 & N2 & N3 & _) (n0 & H1 & H2 & H3). rewrite N1 in H1. injection H1 as <-.
  eexists. split; [exact N2|]. split; [by rewrite H2|]. cbn. eapply Forall2_trans_l; [|exact N3|exact H3]. clear.
  intros tp tp' e (t & T1 & T2 & _) (t0 & H1 & ->). rewrite T1 in H1. injection H1 as <-. eexists. split; [exact T2|done].
Qed.

(** ** Plans on views *)
Definition new_views (gvs : list (Z * list NodeView)) (id : Z) : list NodeView :=
  match gvs !! Z.to_nat id with Some gv => gv.2 | None => [] end.
(** What a node of the previous schedule on GPU [pv.1] starts. *)
Definition unload_of (s : Server) (gvs : list (Z * list NodeView)) (pv : Z * NodeView) (js : list Job) : Prop :=
  exists p x, (0 <= pv.1 <= INT_MAX)%Z /\ proxy_at s pv.1 (n_resource_pntg pv.2.1) (n_dedup_num pv.2.1) p /\
    proxies_of s !! p = Some x /\
    Forall (fun v => same_part pv.2.1 v = true -> n_id v.1 = p_dev_id x) (new_views gvs pv.1) /\
    js = unload_plan s p x pv.2.1 (new_views gvs pv.1).
(** The route of a node. *)
Definition route_of (s : Server) (v : NodeView) (r : Route) : Prop :=
  proxy_at s (n_id v.1) (n_resource_pntg v.1) (n_dedup_num v.1) (ro_proxy r) /\
  Forall2 (fun e m => SchedBase.getModelName e.1 (sv_world s) = Done (m.1, sv_world s) /\ m.2 = e.2) v.2 (ro_models r) /\
  ro_duty r = n_duty_cycle v.1.
Definition placed (gvs : list (Z * list NodeView)) : list (Z * NodeView) := concat (map (fun gv => map (pair gv.1) gv.2) gvs).

Lemma route_of_node s np v r : node_view (sv_world s) np v -> route_of s v r -> node_route s np r.
Proof.
  intros (n & Hn & Hv & Ht) ([Hd Hf] & Hm & Hc). rewrite Hv in Hd, Hf, Hc. cbn in Hd, Hf, Hc. exists n.
  split; [by apply rd_node_ok|]. split; [done|]. split; [done|]. split; [|done].
  eapply (Forall2_trans_l (fun e tp => task_view (sv_world s) tp e)); [|by apply Forall2_flip|exact Hm]. intros e tp m (t & T1 & ->) [H1 H2]. exists t. cbn in *.
  split; [by apply rd_task_ok|]. by split.
Qed.
(** The plan of a node depends on what its view tells. *)
Definition full_view (w : World) (np : NodePtr) (v : NodeView) (u : View) : Prop :=
  w_nodes w !! np = Some u.1 /\ v.1 = copy_node_fields u.1 /\ v.2 = u.2.
Lemma full_views s l vs : Forall2 (node_view (sv_world s)) l vs ->
  exists us, Forall2 (view s) l us /\ Forall2 (fun v u => v.1 = copy_node_fields u.1 /\ v.2 = u.2) vs us.
Proof.
  induction 1 as [|np v l vs (n & Hn & Hv & Ht) _ (us & H1 & H2)]; [by exists []|].
  exists ((n, v.2) :: us). split; constructor; try done. split; [by apply rd_node_ok|]. cbn.
  eapply Forall2_impl; [exact Ht|]. intros tp e (t & T1 & ->). exists t. split; [by apply rd_task_ok|done].
Qed.
Lemma plan_views s p x n n' vs us : n_resource_pntg n' = n_resource_pntg n -> n_dedup_num n' = n_dedup_num n ->
  Forall2 (fun (v : NodeView) (u : View) => v.1 = copy_node_fields u.1 /\ v.2 = u.2) vs us ->
  unload_plan s p x n vs = unload_plan s p x n' us.
Proof.
  intros E1 E2 H. unfold unload_plan. case_decide; [done|]. f_equal; [f_equal|].
  - induction H as [|v u vs us [H1 H2] _ IH]; [done|]. cbn. rewrite IH. f_equal. unfold view_jobs, same_part, surplus, keep_list.
    by rewrite H1, H2, E1, E2.
  - assert (E : existsb (same_part n) vs = existsb (same_part n') us); [|by rewrite E].
    induction H as [|v u vs us [H1 H2] _ IH]; [done|]. cbn. rewrite IH. f_equal. unfold same_part. by rewrite H1, E1, E2.
Qed.
Lemma u64_int z : (0 <= z <= INT_MAX)%Z -> u64 z = z.
Proof. intros H. unfold u64. apply Z.mod_small. unfold INT_MAX in H. lia. Qed.
Lemma unload_of_node s curr gvs g np v js : sim_view (sv_world s) curr gvs -> node_view (sv_world s) np v ->
  unload_of s gvs (g_GPUID g, v) js -> node_unload s curr (g, np) js.
Proof.
  intros Hs (n & Hn & Hv & Ht) (p & x & Hid & Hp & Hx & Hids & ->). cbn [fst snd] in *. set (id := g_GPUID g) in *.
  assert (Hnew : exists us, new_nodes s curr id us /\ Forall2 (fun v u => v.1 = copy_node_fields u.1 /\ v.2 = u.2) (new_views gvs id) us).
  { unfold new_nodes, new_views. rewrite u64_int by done. pose proof (Forall2_length _ _ _ Hs) as Hlen.
    destruct (Z.ltb_spec id (Z.of_nat (length (vGPUList curr)))) as [Hlt|Hge].
    - destruct (lookup_lt_is_Some_2 (vGPUList curr) (Z.to_nat id) ltac:(lia)) as [gp Hgp].
      destruct (Forall2_lookup_l _ _ _ _ _ Hs Hgp) as (gv & Hgv & (g2 & G1 & _ & G3)). rewrite Hgv.
      destruct (full_views s _ _ G3) as (us & U1 & U2). exists us. split; [|exact U2]. exists gp, g2.
      split; [unfold at_index; destruct (Z.ltb_spec id 0); [lia|]; by rewrite Hgp|]. split; [by apply rd_gpu_ok|exact U1].
    - exists []. rewrite lookup_ge_None_2 by lia. by split. }
  destruct Hnew as (us & U1 & U2). rewrite Hv in *. cbn in Hp. exists n, p, x, us.
  split; [by apply rd_node_ok|]. split; [exact Hp|]. split; [done|]. split; [exact U1|]. split.
  - clear U1. induction U2 as [|v' u vs us [H1 H2] _ IH]; [constructor|]. apply Forall_cons in Hids as [Hi Hids]. constructor; [|by apply IH].
    unfold same_part in *. rewrite H1 in Hi. exact Hi.
  - by apply plan_views.
Qed.

(** ** Runs of the copies *)
Lemma extends_model_names w w' : extends w w' -> _IDtoModelName (w_sched w') = _IDtoModelName (w_sched w).
Proof. by intros [_ _ _ _ ->]. Qed.
Lemma copy_sim_run input output gvs w : sim_view w input gvs ->
  returns (copyToOutput input output) w (fun out w' => extends w w' /\ sim_view w' out gvs).
Proof.
  intros Hv. unfold copyToOutput.
  eapply returns_bind; [apply copy_gpus_run; exact (sim_view_valid _ _ _ Hv)|].
  intros acc w' [He _ Hc _ _]. eapply returns_intro; [done|]. split; [done|].
  by apply (copy_view w w' input).
Qed.
Lemma returns_on_sched {A} (m : SM A) s (Q : A -> World -> Prop) : returns m (sv_world s) Q ->
  returns (on_sched m) s (fun a s' => exists w, s' = set_sv_world w s /\ Q a w).
Proof.
  unfold returns, on_sched, zoom. destruct (m (sv_world s)) as [[a w]|]; [|done]. intros H. by exists w.
Qed.
Lemma copy_on_sched input output gvs s : sim_view (sv_world s) input gvs ->
  returns (on_sched (copyToOutput input output)) s (fun out s' => exists w,
    s' = set_sv_world w s /\ extends (sv_world s) w /\ sim_view w out gvs).
Proof. intros H. by apply returns_on_sched, copy_sim_run. Qed.

(** ** What unloading needs survives routing and the copies *)
(** [y] differs from [x] in its routes only. *)
Definition same_proxy (x y : ProxyInfo) : Prop :=
  LoadedModels y = LoadedModels x /\ p_dev_id y = p_dev_id x /\ p_cap y = p_cap x /\
  p_dedup_num y = p_dedup_num x /\ isUnloading y = isUnloading x.
Lemma take_same p x r : same_proxy x (take_route p x r).
Proof. unfold take_route. by destruct (takes p r). Qed.
Lemma routes_same p x y routes : same_proxy x y -> same_proxy x (foldl (take_route p) y routes).
Proof.
  intros H. induction routes as [|r routes IH] using rev_ind; [done|]. rewrite foldl_app. cbn.
  unfold same_proxy. destruct (take_same p (foldl (take_route p) y routes) r) as (-> & -> & -> & -> & ->). exact IH.
Qed.

Record same_devices (s s' : Server) : Prop := {
  sd_devs : PerDevMPSInfo (monitor_of s') = PerDevMPSInfo (monitor_of s);
  sd_gpus : nGPUs (monitor_of s') = nGPUs (monitor_of s);
  sd_names : model_names s' = model_names s;
  sd_proxies : forall p x, proxies_of s !! p = Some x ->
    exists y, proxies_of s' !! p = Some y /\ same_proxy x y }.
Lemma same_devices_mps s s' d : same_devices s s' -> getDevMPSInfo d (monitor_of s') = getDevMPSInfo d (monitor_of s).
Proof. intros [H _ _ _]. unfold getDevMPSInfo. by rewrite H. Qed.
Section Frame.
Context (s s' : Server).
Hypothesis exist : forall d p, p ∈ getDevMPSInfo d (monitor_of s) -> is_Some (proxies_of s !! p).
Hypothesis same : same_devices s s'.

Lemma proxy_at_frame dev cap dedup p : proxy_at s dev cap dedup p -> proxy_at s' dev cap dedup p.
Proof.
  intros [Hd Hf]. split; [by rewrite (sd_gpus _ _ same)|]. rewrite (same_devices_mps s s') by done. rewrite <- Hf.
  apply find_ext. intros q Hq. destruct (exist _ _ Hq) as [x Hx].
  destruct (sd_proxies _ _ same q x Hx) as (y & Hy & _ & _ & H1 & H2 & _). unfold fits. by rewrite Hx, Hy, H1, H2.
Qed.
Lemma unload_plan_frame p x y n views : LoadedModels y = LoadedModels x ->
  unload_plan s' p y n views = unload_plan s p x n views.
Proof.
  intros E. unfold unload_plan, view_jobs, surplus, id_of. by rewrite E, (sd_names _ _ same).
Qed.
Lemma unload_of_frame gvs pv js : unload_of s gvs pv js -> unload_of s' gvs pv js.
Proof.
  intros (p & x & Hid & Hp & Hx & Hids & ->). destruct (sd_proxies _ _ same p x Hx) as (y & Hy & Hl & Hd & _).
  exists p, y. split; [done|]. split; [by apply proxy_at_frame|]. split; [done|]. split; [by rewrite Hd|].
  symmetry. by apply unload_plan_frame.
Qed.
End Frame.

(** The GPUs of a schedule and their nodes, from its view. *)
Lemma placed_nodes s sim gvs : sim_view (sv_world s) sim gvs ->
  exists gl, Forall2 (reads_gpu s) (vGPUList sim) gl /\
    Forall2 (fun gn pv => g_GPUID gn.1 = pv.1 /\ node_view (sv_world s) gn.2 pv.2) (prev_nodes gl) (placed gvs) /\
    Forall2 (node_view (sv_world s)) (concat (map g_vNodeList gl)) (concat (map snd gvs)).
Proof.
  unfold prev_nodes, placed.
  induction 1 as [|gp gv l gvs (g & Hg & Hid & Hn) _ (gl & H1 & H2 & H3)]; [by exists []|].
  exists (g :: gl). cbn [map concat]. split; [constructor; [by apply rd_gpu_ok|done]|].
  split; (apply Forall2_app; [|done]); [|done].
  clear -Hid Hn. induction Hn; constructor; [by cbn|done].
Qed.
Lemma unload_nodes s curr gvs l pl plans : sim_view (sv_world s) curr gvs ->
  Forall2 (fun gn pv => g_GPUID gn.1 = pv.1 /\ node_view (sv_world s) gn.2 pv.2) l pl ->
  Forall2 (unload_of s gvs) pl plans -> Forall2 (node_unload s curr) l plans.
Proof.
  intros Hc H. revert plans. induction H as [|[g np] [id v] l pl [H1 H2] _ IH]; intros plans Hp;
    inversion Hp as [|? js ? plans' Hu Hus]; subst; constructor; [|by apply IH].
  cbn in H1, H2. subst id. by apply (unload_of_node s curr gvs g np v).
Qed.

(** ** Routing on views *)
Lemma route_views s sim gvs routes : sim_view (sv_world s) sim gvs -> Forall2 (route_of s) (concat (map snd gvs)) routes ->
  exists gl, Forall2 (fun gp g => rd_gpu gp (sv_world s) = Done (g, sv_world s)) (vGPUList sim) gl /\
    Forall2 (node_route s) (concat (map g_vNodeList gl)) routes.
Proof.
  intros Hs Hr. destruct (placed_nodes s sim gvs Hs) as (gl & H1 & _ & H3). exists gl. split; [exact H1|].
  eapply (Forall2_trans_l (fun v np => node_view (sv_world s) np v)); [|by apply Forall2_flip|exact Hr].
  intros v np r. apply route_of_node.
Qed.

(** The part of [apply_update] after the copies: the threads that unload. *)
Lemma unload_views s prev curr gv_curr gv_next plans :
  (forall d p, p ∈ getDevMPSInfo d (monitor_of s) -> is_Some (proxies_of s !! p)) ->
  model_names s <> [] -> sim_view (sv_world s) prev gv_curr -> sim_view (sv_world s) curr gv_next ->
  Forall2 (unload_of s gv_next) (placed gv_curr) plans ->
  returns (if decide (vGPUList prev = []) then mret tt else unloadModels prev curr) s
    (fun _ => started s (concat plans)).
Proof.
  intros Hex Hn Hp Hc Hu. assert (H0 : started s [] s) by (exists (proxies_of s); by rewrite at_jobs_same).
  case_decide as He.
  - unfold sim_view in Hp. rewrite He in Hp. inversion Hp; subst. inversion Hu. by eapply returns_intro.
  - destruct (placed_nodes s prev gv_curr Hp) as (gl & H1 & H2 & _).
    apply (unload_gpus_run s Hex Hn prev curr gl plans H1) with (jobs := []); [|done].
    by eapply unload_nodes.
Qed.

Section Epoch.
Context (threads : nat -> Frontend -> Frontend) (fuel : nat).

(** C6: an epoch puts the schedule found in the one before into effect.  When the
    schedule to come and the current one are there (as the views [gv_next] and
    [gv_curr]), their nodes name proxies and no proxy is loading, the step returns.
    The current schedule is then a copy that says what the schedule to come says, the
    previous one a copy of what was current, and the mark that an update is due is
    gone.  Every proxy of a device serves the models and batch sizes that the new
    schedule puts on it, in its order and with nothing left of the routes before; it
    is schedulable exactly when there are any; its loaded models are untouched.  The
    load balancer holds the new table.  The threads started are those that unload the
    models the new schedule no longer asks for, in the order of the schedule that
    was current, and exactly their proxies are newly marked as unloading. *)
Theorem epoch_applies_schedule (s : Server) (gv_curr gv_next : list (Z * list NodeView)) (routes : list Route)
    (rows : list (Z * Z * Z * Z * spec_float)) (plans : list (list Job))
    (Hdue : mNeedUpdate (sv_gs s) = true)
    (Hsettled : forall d p, p ∈ getDevMPSInfo d (monitor_of s) -> exists x, proxies_of s !! p = Some x /\ isLoading x = false)
    (Hnames : model_names s <> [])
    (Hcurr : sim_view (sv_world s) (mCurrState (sv_gs s)) gv_curr)
    (Hnext : sim_view (sv_world s) (mNextState (sv_gs s)) gv_next)
    (Hroutes : Forall2 (route_of s) (concat (map snd gv_next)) routes)
    (Hrows : sched_rows (mNextState (sv_gs s)) (sv_world s) = Done (rows, sv_world s))
    (Hunload : Forall2 (unload_of s gv_next) (placed gv_curr) plans) :
  returns (apply_update threads fuel) s (fun _ s' =>
    sim_view (sv_world s') (mCurrState (sv_gs s')) gv_next /\
    sim_view (sv_world s') (mPrevState (sv_gs s')) gv_curr /\
    mNeedUpdate (sv_gs s') = false /\
    mLoadBalancer (sv_gs s') = updateTable rows (mLoadBalancer (sv_gs s)) /\
    sv_jobs s' = sv_jobs s ++ concat plans /\
    forall p x, p ∈ all_proxies (monitor_of s) -> proxies_of s !! p = Some x ->
      getProxyNetList p (monitor_of s') = models_for p routes /\
      exists x', proxies_of s' !! p = Some x' /\ LoadedModels x' = LoadedModels x /\
        isSchedulable x' = existsb (takes p) routes /\
        isUnloading x' = existsb (unloads p) (concat plans) || isUnloading x).
Proof.
  destruct (route_views s _ _ _ Hnext Hroutes) as (gl & Hgl & Hnr).
  unfold apply_update. eapply returns_read; [reflexivity|]. rewrite Hdue.
  eapply returns_bind; [exact (applyRouting_sync_spec threads fuel s Hsettled _ gl routes rows Hgl Hnr Hrows)|].
  intros [] s1 (nets & px & E1 & Hpx & Hserved).
  assert (W1 : sv_world s1 = sv_world s) by (by rewrite E1).
  eapply returns_bind; [apply (copy_on_sched _ _ gv_curr); by rewrite W1|].
  intros prev s2 (w2 & E2 & X2 & V2). rewrite W1 in X2. eapply returns_read; [reflexivity|].
  eapply returns_bind; [apply (copy_on_sched _ _ gv_next)|].
  { subst s2. cbn. by eapply sim_view_extends. }
  intros curr s3 (w3 & E3 & X3 & V3). do 2 (eapply returns_read; [reflexivity|]).
  subst s3 s2. cbn in X3, V3 |- *. set (s5 := set_sv_gs _ _).
  assert (Hsame : same_devices s s5).
  { subst s5 s1. split; [done|done| |].
    - unfold model_names. cbn. by rewrite (extends_model_names _ _ X3), (extends_model_names _ _ X2).
    - intros p x Hx. eexists. split; [by apply Hpx|]. apply routes_same. unfold base_proxy. by case_bool_decide. }
  eapply returns_weaken; [apply (unload_views s5 prev curr gv_curr gv_next plans)|].
  - intros d p Hp. rewrite (same_devices_mps s s5) in Hp by done. destruct (Hsettled d p Hp) as (x & Hx & _).
    destruct (sd_proxies _ _ Hsame p x Hx) as (y & Hy & _). by exists y.
  - by rewrite (sd_names _ _ Hsame).
  - subst s5. cbn. by eapply sim_view_extends.
  - subst s5. exact V3.
  - eapply Forall2_impl; [exact Hunload|]. intros pv js. apply unload_of_frame; [|exact Hsame].
    intros d p Hp. destruct (Hsettled d p Hp) as (x & Hx & _). by exists x.
  - intros [] s' (px' & -> & Hpx'). subst s5 s1. cbn in *.
    split; [exact V3|]. split; [by eapply sim_view_extends|]. do 3 (split; [done|]).
    intros p x Hp Hx. destruct (Hserved p x Hp Hx) as (Hn & x' & Hx' & Ex & Es). split; [exact Hn|].
    eexists. split; [exact (Hpx' p x' Hx')|].
    destruct (marked_keeps (concat plans) p x') as (Hl & _).
    destruct (routes_same p x (set_isSchedulable false x) routes) as (Hl' & _ & _ & _ & Hu'); [done|].
    rewrite <- Ex in Hl', Hu'. split; [cbn in Hl; congruence|].
    unfold marked. destruct (existsb (unloads p) (concat plans)); split; [exact Es|done|exact Es|exact Hu'].
Qed.
End Epoch.

(** ** Witness *)
(** The schedule of [demo_reorg] is both the current one and the one to come. *)
Definition demo_epoch : Server :=
  set_sv_gs (set_mNeedUpdate true (set_mCurrState demo_sim (set_mNextState demo_sim (sv_gs demo_reorg)))) demo_reorg.
Definition stored_node (w : World) (np : NodePtr) : Node :=
  match w_nodes w !! np with Some n => copy_node_fields n | None => mkNode [] fzero fzero 0 0 false 0 "" end.
Definition demo_views : list (Z * list NodeView) :=
  [(0, [(stored_node (sv_world demo_epoch) 2, [(7, 8)])]); (1, [(stored_node (sv_world demo_epoch) 1, [])])]%Z.
Lemma demo_sim_view : sim_view (sv_world demo_epoch) demo_sim demo_views.
Proof.
  constructor; [|constructor; [|constructor]]; (eexists; split; [vm_compute; reflexivity|]; split; [vm_compute; reflexivity|]);
    (constructor; [|constructor]); (eexists; split; [vm_compute; reflexivity|]; split; [vm_compute; reflexivity|]).
  - constructor; [|constructor]. eexists. split; vm_compute; reflexivity.
  - constructor.
Qed.
Lemma epoch_applies_schedule_witness :
  returns (apply_update no_threads 0) demo_epoch (fun _ s' =>
    sv_jobs s' = [UnloadJob 2 [(7, 0)%Z]] /\ getProxyNetList 2 (monitor_of s') = [("resnet50"%string, 8%Z)] /\
    getProxyNetList 9 (monitor_of s') = []).
Proof.
  eapply returns_weaken; [apply (epoch_applies_schedule no_threads 0 demo_epoch demo_views demo_views demo_routes demo_lb_rows
    [[UnloadJob 2 [(7, 0)%Z]]; []])|].
  - vm_compute. reflexivity.
  - apply settled_check. vm_compute. reflexivity.
  - vm_compute. congruence.
  - exact demo_sim_view.
  - exact demo_sim_view.
  - constructor; [|constructor; [|constructor]]; (split; [split; vm_compute; reflexivity|]; split; [|vm_compute; reflexivity]).
    + constructor; [|constructor]. split; vm_compute; reflexivity.
    + constructor.
  - vm_compute. reflexivity.
  - constructor; [|constructor; [|constructor]].
    + eexists 2%nat, _. split; [split; vm_compute; congruence|]. split; [split; vm_compute; reflexivity|].
      split; [vm_compute; reflexivity|]. split; [|vm_compute; reflexivity].
      constructor; [intros _; vm_compute; reflexivity|constructor].
    + eexists 9%nat, _. split; [split; vm_compute; congruence|]. split; [split; vm_compute; reflexivity|].
      split; [vm_compute; reflexivity|]. split; [|vm_compute; reflexivity].
      constructor; [intros _; vm_compute; reflexivity|constructor].
  - intros _ s' (_ & _ & _ & _ & Hj & H). split; [exact Hj|].
    split; [destruct (known_check demo_epoch 2) as (x & Hp & Hx)|destruct (known_check demo_epoch 9) as (x & Hp & Hx)];
      try (vm_compute; reflexivity); exact (proj1 (H _ x Hp Hx)).
Defined.
