(* ===== verification/GlobalProps.v ===== *)
(** * Properties of the global scheduler's own logic: the batches the static
    scheduler issues, the proxies created for a backend, and the session of an
    epoch. *)
From Stdlib Require Import ZArith SpecFloat String Lia.
From S2P Require Import Prelude CppFloat CppStd LatencyModel DevPerfModel SchedData SchedUtils SchedBase Json IncrSchedule Demo LoadBalancer SelfTuning AppModel SysState Control GlobalState GlobalSched GlobalSetup Pipeline DemoServer RoutingProps.

(** ** The static scheduler *)
(** Requests wait for the model. *)
Definition waiting (s : SysMonitor) (name : string) : Prop :=
  name ∈ _netNames s /\ getLenofReqQueue name s <> 0%nat.

Lemma need_lookup s name :
  getTasksNeedScheduling s !! name =
  if decide (name ∈ _netNames s) then Some (negb (getLenofReqQueue name s =? 0)%nat) else None.
Proof.
  unfold getTasksNeedScheduling. induction (_netNames s) as [|x l IH] using rev_ind; [done|].
  rewrite foldl_app. cbn. destruct (decide (x = name)) as [->|Hne].
  - rewrite lookup_insert_eq, decide_True by set_solver. done.
  - rewrite lookup_insert_ne, IH by done. by rewrite (decide_ext _ (name ∈ l ++ [x])) by set_solver.
Qed.
Lemma need_waiting s name : default false (getTasksNeedScheduling s !! name) = true <-> waiting s name.
Proof.
  rewrite need_lookup. unfold waiting. case_decide; cbn; [|by intuition].
  rewrite negb_true_iff, Nat.eqb_neq. intuition.
Qed.

(** The proxy can take a batch of the model: it neither batches it nor executes
    it twice. *)
Definition free_for (x : ProxyInfo) (name : string) : Prop :=
  default 0%Z (isTaskBatching x !! name) = 0%Z /\ (i32 (default 0%Z (isTaskExec x !! name)) < 2)%Z.
(** The proxy is served in this round: it is loaded, schedulable and idle, and
    some model routed to it waits and is free. *)
Definition served (f : Front) (p : ProxyPtr) : Prop :=
  exists x, f_proxies f !! p = Some x /\ LoadedModels x <> [] /\ isSchedulable x = true /\
    PerProxyBatchList (f_sys f) !! p = Some [] /\
    exists name b, (name, b) ∈ getProxyNetList p (f_sys f) /\ waiting (f_sys f) name /\ free_for x name.

(** The batch [t] is asked for. *)
Definition issued (f : Front) (j : Z) (p : ProxyPtr) (t : TaskSpec) : Prop :=
  device_id t = j /\ tsk_proxy t = p /\ served f p /\
  (ReqName t, BatchSize t) ∈ getProxyNetList p (f_sys f) /\ waiting (f_sys f) (ReqName t).

Lemma assignable_spec f x name :
  assignable (getTasksNeedScheduling (f_sys f)) x name = true <-> waiting (f_sys f) name /\ free_for x name.
Proof.
  unfold assignable, free_for. rewrite !andb_true_iff, need_waiting, Z.ltb_lt, Z.eqb_eq.
  split; [intros [[H Hb] ?]|intros [? [Hb H]]]; rewrite Hb in *; by rewrite Z.add_0_l in *.
Qed.

Lemma proxy_specs_spec f j p t :
  t ∈ proxy_specs (getTasksNeedScheduling (f_sys f)) j p (getProxyNetList p (f_sys f)) <->
  device_id t = j /\ tsk_proxy t = p /\ (ReqName t, BatchSize t) ∈ getProxyNetList p (f_sys f) /\
  waiting (f_sys f) (ReqName t).
Proof.
  unfold proxy_specs. rewrite list_elem_of_In, in_map_iff. split.
  - intros ([n b] & <- & H%list_elem_of_In). apply list_elem_of_filter in H as [H1 H2].
    cbn in *. by rewrite need_waiting in H1.
  - intros (<- & <- & Hin & Hw). exists (ReqName t, BatchSize t). split; [by destruct t|].
    apply list_elem_of_In, list_elem_of_filter. cbn. by rewrite need_waiting.
Qed.

(** Proxies of devices exist and were set up. *)
Definition proxies_ready (f : Front) : Prop :=
  forall j p, p ∈ getDevMPSInfo j (f_sys f) ->
    is_Some (f_proxies f !! p) /\ is_Some (PerProxyBatchList (f_sys f) !! p).

Lemma run_static_proxy f j decision p :
  is_Some (f_proxies f !! p) -> is_Some (PerProxyBatchList (f_sys f) !! p) ->
  exists l, static_proxy (getTasksNeedScheduling (f_sys f)) j decision p f = Done (decision ++ l, f) /\
    forall t, t ∈ l <-> issued f j p t.
Proof.
  intros [x Hx] [q Hq]. set (need := getTasksNeedScheduling (f_sys f)).
  assert (Hno : ~ served f p -> static_proxy need j decision p f = Done (decision, f) ->
    exists l, static_proxy need j decision p f = Done (decision ++ l, f) /\ forall t, t ∈ l <-> issued f j p t).
  { intros Hs ->. exists []. rewrite app_nil_r. split; [done|]. intros t. split; [by intros ?%elem_of_nil|].
    intros (_ & _ & ? & _). done. }
  assert (Hrun : static_proxy need j decision p f =
    if bool_decide (LoadedModels x = []) || negb (isSchedulable x) then Done (decision, f)
    else if (length q =? 0)%nat then
      Done (if existsb (fun pair => assignable need x pair.1) (getProxyNetList p (f_sys f))
            then decision ++ proxy_specs need j p (getProxyNetList p (f_sys f)) else decision, f)
    else Done (decision, f)).
  { unfold static_proxy, rd_proxy, getSizeofBatchQueueofProxy, getBatchQueueofProxy. mred. rewrite Hx. cbn.
    destruct (_ || _); [done|]. rewrite Hq. cbn. by destruct (length q =? 0)%nat. }
  rewrite Hrun in *. subst need. clear Hrun. case_bool_decide as Hl; cbn [orb] in *.
  { apply Hno; [|done]. intros (y & Hy & ? & _). congruence. }
  destruct (isSchedulable x) eqn:Esch; cbn [negb] in *.
  2: { apply Hno; [|done]. intros (y & Hy & _ & ? & _). congruence. }
  destruct q as [|t0 q]; cbn in *.
  2: { apply Hno; [|done]. intros (y & Hy & _ & _ & ? & _). congruence. }
  destruct (existsb _ _) eqn:Ee.
  - eexists. split; [done|]. intros t. rewrite proxy_specs_spec. unfold issued.
    assert (served f p); [|tauto]. exists x. split_and!; try done.
    apply existsb_exists in Ee as ([n b] & Hin%list_elem_of_In & Ha). rewrite assignable_spec in Ha. eauto.
  - apply Hno; [|done]. intros (y & Hy & _ & _ & _ & n & b & Hin & Ha).
    assert (y = x) as -> by congruence. apply assignable_spec in Ha.
    apply not_true_iff_false in Ee. apply Ee, existsb_exists. exists (n, b).
    by rewrite <- list_elem_of_In.
Qed.

(** C22: the static scheduler issues exactly the batches that are due.  When the
    proxies of the devices exist, a round returns without changing anything, and
    a batch is in its decision precisely when it goes to a proxy of one of the
    devices that is loaded, schedulable, has an empty batch queue and has a
    waiting model that it neither batches nor executes twice; the model of the
    batch is routed to the proxy with that batch size and has requests waiting. *)
Theorem staticMPSScheduler_spec f :
  proxies_ready f ->
  exists decision, staticMPSScheduler f = Done (decision, f) /\
    forall t, t ∈ decision <->
      exists j p, j ∈ dev_range (nGPUs (f_sys f)) /\ p ∈ getDevMPSInfo j (f_sys f) /\ issued f j p t.
Proof.
  intros Hready. unfold staticMPSScheduler. rewrite (bind_done _ _ f f f) by done.
  match goal with |- context [for_acc _ _ ?b f] =>
    enough (H : returns (for_acc (dev_range (nGPUs (f_sys f))) [] b) f (fun d f' => f' = f /\
      forall t, t ∈ d <-> exists j p, j ∈ dev_range (nGPUs (f_sys f)) /\ p ∈ getDevMPSInfo j (f_sys f) /\ issued f j p t)) end.
  { unfold returns in H. destruct (for_acc _ _ _ _) as [[d f']|]; [|done]. destruct H as [-> H]. eauto. }
  apply (returns_for_acc (fun pre d f' => f' = f /\ forall t, t ∈ d <->
    exists j p, j ∈ pre /\ p ∈ getDevMPSInfo j (f_sys f) /\ issued f j p t)).
  2: { split; [done|]. intros t. split; [by intros ?%elem_of_nil|]. by intros (j & p & ?%elem_of_nil & _). }
  intros pre j d f' _ [-> Hd].
  apply (returns_weaken _ _ (fun d' f' => f' = f /\ forall t, t ∈ d' <-> t ∈ d \/
    exists p, p ∈ getDevMPSInfo j (f_sys f) /\ issued f j p t)).
  2: { intros d' f1 [-> Hd']. split; [done|]. intros t. rewrite Hd', Hd. split.
       - intros [(j' & p & ? & ?)|(p & ? & ?)]; [exists j', p|exists j, p]; set_solver.
       - intros (j' & p & [?| ->%list_elem_of_singleton]%elem_of_app & ?); [left; eauto|right; eauto]. }
  apply (returns_for_acc (fun pre d' f' => f' = f /\ forall t, t ∈ d' <-> t ∈ d \/
    exists p, p ∈ pre /\ issued f j p t)).
  2: { split; [done|]. intros t. split; [by left|]. by intros [?|(p & ?%elem_of_nil & _)]. }
  intros ps p d' f1 Hp [-> Hd']. destruct (Hready j p Hp) as [H1 H2].
  destruct (run_static_proxy f j d' p H1 H2) as (l & Hl & Hin).
  eapply returns_intro; [exact Hl|]. split; [done|]. intros t. rewrite elem_of_app, Hd', Hin. split.
  - intros [[?|(p' & ? & ?)]|?]; [by left|right; exists p'; set_solver|right; exists p; set_solver].
  - intros [?|(p' & [?| ->%list_elem_of_singleton]%elem_of_app & ?)]; eauto.
Qed.

(** The frontend of [demo_queued] with [resnet50] routed to proxy 2. *)
Definition demo_dispatch : Front :=
  run (_ ← wr_proxy 2 (fun x => set_isSchedulable true (set_LoadedModels ["resnet50"%string] x));
       mod_sys (insertNetToProxyNetList 2 ("resnet50"%string, 8%Z)))
    (fe_front (sv_fe (se_server demo_queued))).

Lemma ready_check f :
  forallb (fun e => forallb (fun p => match f_proxies f !! p, PerProxyBatchList (f_sys f) !! p with
                                      | Some _, Some _ => true | _, _ => false end) e.2)
    (map_to_list (PerDevMPSInfo (f_sys f))) = true -> proxies_ready f.
Proof.
  intros H j p Hp. pose proof (dev_proxies_check _ _ H j p Hp) as Hs. cbn in Hs.
  destruct (f_proxies f !! p); [|done]. by destruct (PerProxyBatchList (f_sys f) !! p).
Qed.

Lemma staticMPSScheduler_spec_witness :
  exists decision, staticMPSScheduler demo_dispatch = Done (decision, demo_dispatch) /\
    forall t, t ∈ decision <-> exists j p, j ∈ dev_range (nGPUs (f_sys demo_dispatch)) /\
      p ∈ getDevMPSInfo j (f_sys demo_dispatch) /\ issued demo_dispatch j p t.
Proof. apply staticMPSScheduler_spec, ready_check. vm_compute. reflexivity. Defined.

(** ** The proxies of a backend *)
(** Shares and [dedup_num]s: a partition of 50 stands for two. *)
Definition expand (parts : list Z) : list (Z * Z) :=
  concat (map (fun part => if (part =? 50)%Z then [(part, 0); (part, 1)]%Z else [(part, 0%Z)]) parts).
Definition made (i : Indet) (node_id : Z) (type : string) (dev : Z) (idx : nat) (e : Z * Z) : ProxyInfo :=
  set_p_node_id node_id (createNewProxy i dev e.1 e.2 (Z.of_nat idx) type).

(** [f'] is [f] with more proxies, all of them on one device. *)
Definition grown (dev : Z) (infos : list ProxyInfo) (f f' : Front) : Prop :=
  f_proxies f' = f_proxies f ++ infos /\
  getDevMPSInfo dev (f_sys f') = getDevMPSInfo dev (f_sys f) ++ seq (length (f_proxies f)) (length infos) /\
  (forall d, d <> dev -> getDevMPSInfo d (f_sys f') = getDevMPSInfo d (f_sys f)) /\
  nGPUs (f_sys f') = nGPUs (f_sys f) /\
  FrontDevIDToHostDevID (f_sys f') = FrontDevIDToHostDevID (f_sys f).

Lemma grown_refl dev f : grown dev [] f f.
Proof. unfold grown. by rewrite !app_nil_r. Qed.
Lemma grown_trans dev l1 l2 f1 f2 f3 : grown dev l1 f1 f2 -> grown dev l2 f2 f3 -> grown dev (l1 ++ l2) f1 f3.
Proof.
  intros (H1 & H2 & H3 & H4 & HT) (H5 & H6 & H7 & H8 & HT'). unfold grown. split_and!.
  - by rewrite H5, H1, app_assoc.
  - rewrite H6, H2, H1, !length_app, seq_app, <- app_assoc. done.
  - intros d Hd. by rewrite H7, H3.
  - congruence.
  - congruence.
Qed.

Section Proxies.
Context (i : Indet) (node_id : Z) (type : string).

Lemma run_add_proxy dev cap dedup idx f : (Z.of_nat idx + 1 < 2147483648)%Z ->
  exists f', add_proxy i node_id dev cap dedup (Z.of_nat idx) type f = Done (Z.of_nat (S idx), f') /\
    grown dev [made i node_id type dev idx (cap, dedup)] f f'.
Proof.
  intros Hi. eexists. split; [unfold add_proxy; mred; rewrite i32_id by (unfold in_i32, INT_MIN, INT_MAX; lia); replace (Z.of_nat idx + 1)%Z with (Z.of_nat (S idx)) by lia; reflexivity|].
  unfold grown. cbn. split_and!; try done.
  - unfold getDevMPSInfo. cbn. by rewrite lookup_insert_eq.
  - intros d Hd. unfold getDevMPSInfo. cbn. by rewrite lookup_insert_ne.
Qed.

Lemma run_add_part dev idx part f : (Z.of_nat idx + 2 < 2147483648)%Z ->
  exists f', add_part_proxies i node_id dev type (Z.of_nat idx) part f
      = Done (Z.of_nat (idx + length (expand [part])), f') /\
    grown dev (imap (fun k => made i node_id type dev (idx + k)) (expand [part])) f f'.
Proof.
  intros Hi. unfold add_part_proxies.
  destruct (run_add_proxy dev part 0 idx f ltac:(lia)) as (f1 & H1 & G1). rewrite (bind_done _ _ _ _ _ H1).
  unfold expand. cbn [map concat]. destruct (part =? 50)%Z; cbn [app length imap compose].
  - destruct (run_add_proxy dev part 1 (S idx) f1 ltac:(lia)) as (f2 & H2 & G2).
    exists f2. rewrite H2. split; [by replace (idx + 2)%nat with (S (S idx)) by lia|]. unfold compose.
    replace (idx + 0)%nat with idx by lia. replace (idx + 1)%nat with (S idx) by lia.
    exact (grown_trans _ _ _ _ _ _ G1 G2).
  - exists f1. split; [by replace (idx + 1)%nat with (S idx) by lia|]. by replace (idx + 0)%nat with idx by lia.
Qed.

Lemma expand_cons part parts : expand (part :: parts) = expand [part] ++ expand parts.
Proof. unfold expand. cbn. by rewrite app_nil_r. Qed.
Lemma run_add_parts dev parts idx f : (Z.of_nat (idx + length (expand parts)) + 1 < 2147483648)%Z ->
  exists n f', for_acc parts (Z.of_nat idx) (add_part_proxies i node_id dev type) f = Done (n, f') /\
    grown dev (imap (fun k => made i node_id type dev (idx + k)) (expand parts)) f f'.
Proof.
  revert idx f. induction parts as [|part parts IH]; intros idx f Hi.
  { eexists _, f. split; [done|]. apply grown_refl. }
  rewrite expand_cons in *. rewrite length_app in Hi.
  assert (Hl : (1 <= length (expand [part]))%nat) by (unfold expand; cbn; destruct (part =? 50)%Z; cbn; lia).
  destruct (run_add_part dev idx part f) as (f1 & H1 & G1); [lia|].
  destruct (IH (idx + length (expand [part]))%nat f1) as (n & f2 & H2 & G2); [lia|].
  exists n, f2. cbn [for_acc]. rewrite (bind_done _ _ _ _ _ H1). split; [done|].
  rewrite imap_app. replace (imap _ (expand parts)) with
    (imap (fun k => made i node_id type dev (idx + length (expand [part]) + k)) (expand parts)).
  - exact (grown_trans _ _ _ _ _ _ G1 G2).
  - apply imap_ext. intros k e _. cbn. by rewrite Nat.add_assoc.
Qed.

(** After [c] devices, numbered from [n]. *)
Definition built (n : Z) (parts : list Z) (f : Front) (c : nat) (f' : Front) : Prop :=
  let len := length (f_proxies f) in let m := length (expand parts) in
  length (f_proxies f') = (len + c * m)%nat /\
  (forall q, (q < len)%nat -> f_proxies f' !! q = f_proxies f !! q) /\
  (forall k j e, (k < c)%nat -> expand parts !! j = Some e ->
     f_proxies f' !! (len + k * m + j)%nat = Some (made i node_id type (n + Z.of_nat k) j e)) /\
  (forall k, (k < c)%nat -> getDevMPSInfo (n + Z.of_nat k) (f_sys f') = seq (len + k * m) m) /\
  (forall d, (d < n \/ n + Z.of_nat c <= d)%Z -> getDevMPSInfo d (f_sys f') = getDevMPSInfo d (f_sys f)) /\
  nGPUs (f_sys f') = nGPUs (f_sys f).

Lemma built_step n parts f c f1 f2 :
  getDevMPSInfo (n + Z.of_nat c) (f_sys f) = [] -> built n parts f c f1 ->
  grown (n + Z.of_nat c) (imap (made i node_id type (n + Z.of_nat c)) (expand parts)) f1 f2 ->
  built n parts f (S c) f2.
Proof.
  intros Hnone (H1 & H2 & H3 & H4 & H5 & H6) (G1 & G2 & G3 & G4 & _). unfold built. rewrite length_imap in G2.
  split_and!.
  - rewrite G1, length_app, length_imap, H1. lia.
  - intros q Hq. rewrite G1, lookup_app_l by lia. by apply H2.
  - intros k j e Hk He. pose proof (lookup_lt_Some _ _ _ He) as Hj. rewrite G1.
    destruct (decide (k = c)) as [->|Hne].
    + rewrite lookup_app_r by lia. rewrite H1, list_lookup_imap.
      replace (_ - _)%nat with j by lia. by rewrite He.
    + rewrite lookup_app_l by nia. apply H3; [lia|done].
  - intros k Hk. destruct (decide (k = c)) as [->|Hne].
    + by rewrite G2, H5, Hnone, H1 by lia.
    + rewrite G3 by lia. apply H4. lia.
  - intros d Hd. rewrite G3 by lia. apply H5. lia.
  - congruence.
Qed.

Lemma run_devices parts f c k f1 : (Z.of_nat (length (expand parts)) + 1 < 2147483648)%Z ->
  (forall j, (j < c + k)%nat -> getDevMPSInfo (nGPUs (f_sys f) + Z.of_nat j) (f_sys f) = []) -> built (nGPUs (f_sys f)) parts f c f1 ->
  exists f2, for_each (map (fun j => (nGPUs (f_sys f) + Z.of_nat j)%Z) (seq c k)) (fun dev =>
      _ ← for_acc parts 0%Z (add_part_proxies i node_id dev type); mret tt) f1 = Done (tt, f2) /\
    built (nGPUs (f_sys f)) parts f (c + k) f2.
Proof.
  intros Hm. revert c f1. induction k as [|k IH]; intros c f1 Hnone Hb.
  { exists f1. rewrite Nat.add_0_r. done. }
  destruct (run_add_parts (nGPUs (f_sys f) + Z.of_nat c) parts 0 f1) as (r & f2 & H2 & G2); [lia|].
  destruct (IH (S c) f2) as (f3 & H3 & G3).
  - intros j Hj. apply Hnone. lia.
  - eapply built_step; [apply Hnone; lia|exact Hb|exact G2].
  - exists f3. cbn [seq map for_each]. rewrite (bind_done _ _ f1 tt f2); [|by rewrite (bind_done _ _ _ _ _ H2)].
    split; [exact H3|]. by replace (c + S k)%nat with (S c + k)%nat by lia.
Qed.
End Proxies.

Lemma find_seq (f : nat -> bool) a m j :
  (j < m)%nat -> (forall k, (k < m)%nat -> f (a + k)%nat = bool_decide (k = j)) -> find f (seq a m) = Some (a + j)%nat.
Proof.
  revert a j. induction m as [|m IH]; intros a j Hj Hf; [lia|]. cbn.
  pose proof (Hf 0%nat ltac:(lia)) as H0. rewrite Nat.add_0_r in H0. rewrite H0.
  destruct j as [|j]; cbn; [by rewrite Nat.add_0_r|].
  rewrite IH with (j := j); [f_equal; lia|lia|].
  intros k Hk. replace (S a + k)%nat with (a + S k)%nat by lia. rewrite Hf by lia.
  apply bool_decide_ext. lia.
Qed.
Lemma expand_in e parts : e ∈ expand parts -> e.1 ∈ parts.
Proof.
  induction parts as [|p parts IH]; [by intros ?%elem_of_nil|]. rewrite expand_cons.
  intros [H|H]%elem_of_app; [|right; by apply IH]. assert (e.1 = p); [|set_solver].
  unfold expand in H. cbn in H. destruct (p =? 50)%Z; set_solver.
Qed.
Lemma expand_nodup parts : NoDup parts -> NoDup (expand parts).
Proof.
  induction 1 as [|p parts Hp _ IH]; [constructor|]. rewrite expand_cons. apply NoDup_app. split_and!; [| |done].
  - unfold expand. cbn. destruct (p =? 50)%Z; repeat constructor; set_solver.
  - intros e He He'. apply Hp. apply expand_in in He'. unfold expand in He. cbn in He.
    destruct (p =? 50)%Z; set_solver.
Qed.

(** C33: a backend's proxies can be found by device, share and number.  For a
    backend with distinct partitions, on devices that have none yet, creating
    the proxies returns; every new device then has one proxy per partition and
    two for a partition of 50, which carry the node and the type of the backend,
    the device, their number on the device in order, their share and copy number,
    and are neither booted nor connected nor set up; the lookup by device, share
    and [dedup_num] returns each of them, and the devices and proxies of the
    earlier backends are unchanged. *)
Theorem createProxyInfos_spec i parts node_id ngpus type f :
  let n := nGPUs (f_sys f) in let len := length (f_proxies f) in let m := length (expand parts) in
  (0 <= n)%Z -> (0 <= ngpus)%Z -> (n + ngpus < 2147483648)%Z -> (Z.of_nat m + 1 < 2147483648)%Z ->
  NoDup parts -> (forall d, (n <= d < n + ngpus)%Z -> getDevMPSInfo d (f_sys f) = []) ->
  exists f', createProxyInfos i parts node_id ngpus type f = Done (tt, f') /\
    nGPUs (f_sys f') = (n + ngpus)%Z /\
    (forall q, (q < len)%nat -> f_proxies f' !! q = f_proxies f !! q) /\
    (forall d, (d < n)%Z -> getDevMPSInfo d (f_sys f') = getDevMPSInfo d (f_sys f)) /\
    forall k, (Z.of_nat k < ngpus)%Z ->
      getDevMPSInfo (n + Z.of_nat k) (f_sys f') = seq (len + k * m) m /\
      forall idx e, expand parts !! idx = Some e -> let p := (len + k * m + idx)%nat in
        getProxyInfo (n + Z.of_nat k) e.1 e.2 f' = Done (p, f') /\
        exists x, f_proxies f' !! p = Some x /\
          (p_node_id x, p_dev_id x, p_type x) = (node_id, (n + Z.of_nat k)%Z, type) /\
          (partition_num x, p_cap x, p_dedup_num x) = (Z.of_nat idx, e.1, e.2) /\
          (isBooted x, isConnected x, isSetup x) = (false, false, false) /\ p_duty_cycle x = fzero.
Proof.
  intros n len m Hn Hg Hb Hm Hnd Hnone.
  destruct (run_devices i node_id type parts f 0 (Z.to_nat ngpus) f) as (f1 & Hrun & Hb1).
  { exact Hm. }
  { intros j Hj. apply Hnone. lia. }
  { unfold built. split_and!; try done; try lia. }
  set (f2 := set_f_sys (set_nGPUs (n + ngpus) (f_sys f1)) f1). exists f2.
  split.
  { unfold createProxyInfos. rewrite (bind_done _ _ f f f) by done. rewrite (bind_done _ _ _ _ _ Hrun).
    unfold sys, zoom, setNGPUs. fold n. rewrite i32_id by (unfold in_i32, INT_MIN, INT_MAX; lia).
    rewrite (bind_done _ _ _ tt (f_sys f1)); [done|].
    unfold massert. cbn. by rewrite (proj2 (Z.leb_le _ _)) by lia. }
  destruct Hb1 as (B1 & B2 & B3 & B4 & B5 & B6). fold n len m in B1, B2, B3, B4, B5. split; [done|]. split; [exact B2|].
  split; [intros d Hd; apply B5; lia|]. intros k Hk.
  assert (Hkc : (k < Z.to_nat ngpus)%nat) by lia. split; [by apply B4|].
  intros idx e He p. split; [|by eexists; split; [by apply B3|done]].
  assert (Hf : forall j e', expand parts !! j = Some e' -> fits (f_proxies f1) e.1 e.2 (len + k * m + j) = bool_decide (j = idx)).
  { intros j e' He'. unfold fits. rewrite (B3 k j e' Hkc He'). cbn. case_bool_decide as Hj.
    - subst j. rewrite He in He'. injection He' as <-. by rewrite !Z.eqb_refl.
    - destruct (e'.1 =? e.1)%Z eqn:E1; [|done]. destruct (e'.2 =? e.2)%Z eqn:E2; [|done].
      apply Z.eqb_eq in E1, E2. destruct Hj. eapply NoDup_lookup; [by apply expand_nodup|exact He'|].
      rewrite He. destruct e, e'; cbn in *; congruence. }
  apply getProxyInfo_find.
  - cbn. lia.
  - intros q Hq. change (getDevMPSInfo _ _) with (getDevMPSInfo (n + Z.of_nat k) (f_sys f1)) in Hq.
    rewrite B4 in Hq by done. apply elem_of_seq in Hq. apply lookup_lt_is_Some. cbn. nia.
  - change (getDevMPSInfo _ _) with (getDevMPSInfo (n + Z.of_nat k) (f_sys f1)). rewrite B4 by done.
    apply find_seq; [by eapply lookup_lt_Some|]. intros j Hj.
    destruct (lookup_lt_is_Some_2 _ _ Hj) as [e' He']. by apply (Hf j e').
Qed.

Lemma createProxyInfos_spec_witness :
  exists f', createProxyInfos demo_indet [20; 50; 100]%Z 7 2 "B" demo_front = Done (tt, f') /\
    getProxyInfo 3 50 1 f' = Done (16%nat, f') /\
    exists x, f_proxies f' !! 16%nat = Some x /\ (p_node_id x, p_dev_id x, p_type x) = (7, 3, "B")%Z%string.
Proof.
  assert (Hn : nGPUs (f_sys demo_front) = 2%Z) by (vm_compute; reflexivity).
  assert (Hl : length (f_proxies demo_front) = 10%nat) by (vm_compute; reflexivity).
  destruct (createProxyInfos_spec demo_indet [20; 50; 100]%Z 7 2 "B" demo_front) as (f' & H & _ & _ & _ & Hk);
    rewrite ?Hn; try lia.
  - vm_compute. reflexivity.
  - apply (bool_decide_unpack _). vm_compute. exact I.
  - intros d Hd. assert (d = 2 \/ d = 3)%Z as [-> | ->] by lia; vm_compute; reflexivity.
  - exists f'. split; [exact H|]. destruct (Hk 1%nat ltac:(lia)) as [_ Hf].
    destruct (Hf 2%nat (50, 1)%Z eq_refl) as (Hp & x & Hx & Hw & _). rewrite Hn, Hl in Hp. rewrite Hl in Hx. rewrite Hn in Hw.
    split; [exact Hp|]. exists x. split; [exact Hx|exact Hw].
Defined.

(** ** Targets of the models *)
(** No target, or a target of zero. *)
Definition no_target (s : Server) (name : string) : Prop :=
  match om_find name (mPerTaskTgtRate (sv_gs s)) with Some r => feqb r fzero = true | None => True end.

Section Targets.
Context (s0 : Server).
(** The scheduler's world is the same and no model got its first target. *)
Definition targets_inv (s : Server) : Prop :=
  sv_world s = sv_world s0 /\ forall name, no_target s0 name -> no_target s name.
Local Abbreviation TI := targets_inv.
Local Abbreviation started := (fun name => ~ no_target s0 name).

Lemma ti_mod_gs f : (forall g, mPerTaskTgtRate (f g) = mPerTaskTgtRate g) -> keeping TI (mod_gs f) any.
Proof.
  intros Hf. apply keeping_modify. intros s [Hw Ht]. split; [done|]. intros name Hn.
  specialize (Ht name Hn). unfold no_target in *. cbn. by rewrite Hf.
Qed.
Lemma ti_same {A} (m : GM A) (Q : A -> Prop) :
  (forall s a s', m s = Done (a, s') -> s' = s /\ Q a) -> keeping TI m Q.
Proof. intros Hm s a s' Hs H. by destruct (Hm s a s' H) as [-> ?]. Qed.
Lemma ti_getTaskTgtRate name : keeping TI (getTaskTgtRate name) (fun r => feqb r fzero = false -> started name).
Proof.
  intros s r s' [Hw Ht] H. unfold getTaskTgtRate, om_get in H. apply bind_inv in H as (g & s1 & E & H).
  apply gets_inv in E as [-> ->]. destruct (om_find name _) as [v|] eqn:Ef; mred; injection H as <- <-.
  - split; [done|]. intros Hv Hn. specialize (Ht name Hn). unfold no_target in Ht. rewrite Ef in Ht. congruence.
  - split; [|done]. split; [done|]. intros n Hn. unfold no_target. cbn.
    destruct (decide (n = name)) as [->|Hne]; [by rewrite om_find_set|].
    rewrite om_find_set_ne by done. by apply Ht.
Qed.
Lemma ti_set_tgt name rate : feqb rate fzero = true \/ started name -> keeping TI (set_tgt name rate) any.
Proof.
  intros Hz. apply keeping_modify. intros s [Hw Ht]. split; [done|]. intros n Hn. unfold no_target. cbn.
  destruct (decide (n = name)) as [->|Hne]; [rewrite om_find_set; tauto|].
  rewrite om_find_set_ne by done. by apply Ht.
Qed.
Lemma ti_getTaskArivRate name : keeping TI (getTaskArivRate name) any.
Proof. apply ti_same. intros s a s' H. unfold getTaskArivRate, gs in H. by minv H. Qed.
Lemma ti_no_tgt name : keeping TI (no_tgt name) any.
Proof. apply ti_same. intros s a s' H. unfold no_tgt, gs in H. by minv H. Qed.
Lemma ti_hist name rate : keeping TI (updateAndReturnMaxHistRate name rate) any.
Proof.
  unfold updateAndReturnMaxHistRate. eapply keeping_bind; [apply keeping_gets with (Q := any); done|]. intros g _. cbv zeta.
  eapply keeping_bind; [by apply ti_mod_gs|]. intros _ _. by apply keeping_lift.
Qed.
Lemma ti_flush b : keeping TI (mod_monitor (set_SYS_FLUSH b)) any.
Proof. intros s a s' [Hw Ht] H. unfold mod_monitor, on_front_fe, on_fe in H. injection H as _ <-. by split. Qed.

Lemma ti_adjust_target b name rate tasks : started name -> Forall started tasks ->
  keeping TI (adjust_target b name rate tasks) (Forall started).
Proof.
  intros Hn Ht. unfold adjust_target. assert (Hadd : forall l, Forall started l -> Forall started (l ++ [name]))
    by (intros; by apply Forall_app_2; [|constructor]).
  assert (Hset : forall l, Forall started l ->
    keeping TI (_ ← set_tgt name rate; mret (l ++ [name]) : GM (list string)) (Forall started)).
  { intros l Hl. eapply keeping_bind; [apply ti_set_tgt; by right|]. intros _ _. apply keeping_ret. by apply Hadd. }
  eapply keeping_bind; [apply ti_no_tgt|]. intros [] _; [by apply Hset|].
  eapply keeping_bind; [apply ti_getTaskTgtRate|]. intros old _. cbv zeta.
  apply keeping_bind with (Q1 := Forall started).
  { destruct (_ || _); [by apply Hset|by apply keeping_ret]. }
  intros l Hl. destruct (_ && _); [|by apply keeping_ret].
  eapply keeping_bind; [apply ti_flush|]. intros _ _. by apply Hset.
Qed.

Lemma ti_check_model b tasks name : Forall started tasks -> keeping TI (check_model b tasks name) (Forall started).
Proof.
  intros Ht. unfold check_model.
  eapply keeping_bind; [apply ti_getTaskArivRate|]. intros curr _.
  eapply keeping_bind; [apply ti_no_tgt|]. intros none _. destruct (_ && _); [by apply keeping_ret|].
  eapply keeping_bind; [apply ti_hist|]. intros org _. cbv zeta.
  apply keeping_bind with (Q1 := any).
  { destruct (ltb _ _); [|by apply keeping_ret]. eapply keeping_bind; [apply ti_getTaskTgtRate|].
    intros r _. by apply keeping_ret. }
  intros flush _. destruct flush.
  - eapply keeping_bind; [apply ti_flush|]. intros _ _.
    eapply keeping_bind; [apply ti_set_tgt; by left|]. intros _ _. by apply keeping_ret.
  - eapply keeping_bind; [apply ti_getTaskTgtRate|]. intros tgt Hn. cbv beta in Hn.
    destruct (feqb tgt fzero); [by apply keeping_ret|]. apply ti_adjust_target; auto.
Qed.

(** The task of a model that has a target. *)
Definition started_task (t : Task) : Prop :=
  exists name, started name /\ SchedBase.getModelID name (sv_world s0) = Done (t_id t, sv_world s0).

Lemma ti_make_task name : started name -> keeping TI (make_task name) started_task.
Proof.
  intros Hn. unfold make_task.
  apply keeping_bind with (Q1 := fun id => SchedBase.getModelID name (sv_world s0) = Done (id, sv_world s0)).
  { intros s id s' [Hw Ht] H. unfold on_sched, zoom in H. rewrite Hw in H.
    destruct (SchedBase.getModelID name (sv_world s0)) as [[id' w]|] eqn:E; [|done]. injection H as <- <-.
    assert (w = sv_world s0) as -> by (unfold SchedBase.getModelID, sched in E; by minv E).
    split; [|done]. rewrite <- Hw. by destruct s. }
  intros id Hid. eapply keeping_bind; [apply ti_getTaskTgtRate|]. intros rate _.
  eapply keeping_bind; [apply keeping_gets with (Q := any); done|]. intros g _.
  eapply keeping_bind; [apply keeping_gets with (Q := any); done|]. intros i _.
  apply keeping_ret. by exists name.
Qed.
End Targets.

(** C34: an epoch never starts a model.  Whatever rates were seen, every task of
    the session belongs to a model that had a nonzero target before, and a model
    without a target, or with target zero, still has none afterwards: the branch
    that would initiate a target is dead, because reading the table has inserted
    a zero by then, and a model whose target was flushed stays unscheduled. *)
Theorem setupTasks_never_starts b s tasks s' :
  setupTasks b [] s = Done (tasks, s') ->
  (forall name, no_target s name -> no_target s' name) /\ Forall (started_task s) tasks.
Proof.
  intros H. assert (Hk : keeping (targets_inv s) (setupTasks b []) (Forall (started_task s))).
  { unfold setupTasks. eapply keeping_bind; [apply keeping_gets with (Q := any); done|]. intros m _.
    eapply keeping_bind; [apply keeping_for_acc with (Q := Forall (fun name => ~ no_target s name))|].
    - constructor.
    - intros l name _ Hl. by apply ti_check_model.
    - intros names Hnames. unfold make_tasks. apply keeping_for_acc; [constructor|].
      intros l name Hin Hl. eapply keeping_bind; [apply ti_make_task; by eapply Forall_forall in Hnames|].
      intros t Ht. apply keeping_ret. by apply Forall_app_2; [|constructor]. }
  destruct (Hk s tasks s') as [[_ Ht] Hs]; [done|exact H|]. done.
Qed.

(** The history of rates holds one rate: 1.5 epochs are one, so the largest rate
    of the history is the current one. *)
Lemma history_keeps_latest rate h : (length h <= 1)%nat ->
  push_hist (fdiv (i2f 30) (fdiv (i2f 20000) (i2f 1000))) rate h = [rate] /\ max_of [rate] = Done rate.
Proof. destruct h as [|x [|y h]]; cbn; [done..|lia]. Qed.

(** [lenet1] has 50 requests per second and no target: it is left out, and so it
    is in the next epoch. *)
Local Abbreviation demo_epoch := (setupTasks true []).
Lemma setupTasks_never_starts_witness :
  match demo_epoch demo_server with
  | Done (tasks, s') => map t_id tasks = [7]%Z /\ no_target s' "lenet1"
  | Stop _ => False
  end.
Proof.
  apply run_returns; [vm_compute; reflexivity|]. intros [tasks s'] H. split.
  - assert (Hs : match demo_epoch demo_server with Done (l, _) => map t_id l = [7]%Z | Stop _ => True end)
      by (vm_compute; reflexivity). by rewrite H in Hs.
  - apply (setupTasks_never_starts true demo_server tasks s' H). vm_compute. exact I.
Defined.
