(* ===== verification/Wire.v ===== *)
(** * Messages on byte streams.

    The sockets between the frontend, a backend and a proxy carry [int]s; a
    message is a few of them, and the reader finds its end from what it has read.
    A reader is an incremental decoder: a state, and what one more [int] does to
    it.  The lemmas say what is left of a stream after some of it was read. *)
From Stdlib Require Import ZArith Lia.
From S2P Require Import Prelude CppFloat.

(** A stream connection: what was written and not yet read, and whether the
    writer has closed it. *)
Record Conn : Type := mkConn { cn_data : list Z; cn_eof : bool }.
Definition open_conn : Conn := mkConn [] false.
Definition conn_write (zs : list Z) (c : Conn) : Conn := mkConn (cn_data c ++ zs) (cn_eof c).

(** One read of an [int]: [None] blocks, [Some None] is the end of the stream. *)
Definition conn_read (c : Conn) : option (option Z * Conn) :=
  match cn_data c with
  | z :: zs => Some (Some z, mkConn zs (cn_eof c))
  | [] => if cn_eof c then Some (None, c) else None
  end.

(** ** Decoders *)
Class Decoder (St Msg : Type) : Type := { dec_start : St; dec_feed : St -> Z -> St * option Msg }.

Definition opt_list {A} (o : option A) : list A := match o with Some a => [a] | None => [] end.

Section Decoder.
Context {St Msg : Type} `{!Decoder St Msg}.

Fixpoint feeds (st : St) (zs : list Z) : St * list Msg :=
  match zs with
  | [] => (st, [])
  | z :: zs' =>
      let '(st1, o) := dec_feed st z in
      let '(st2, ms) := feeds st1 zs' in (st2, opt_list o ++ ms)
  end.

Lemma feeds_app st zs ws :
  feeds st (zs ++ ws) =
  let '(st1, ms1) := feeds st zs in let '(st2, ms2) := feeds st1 ws in (st2, ms1 ++ ms2).
Proof.
  revert st. induction zs as [|z zs IH]; intros st; cbn.
  - by destruct (feeds st ws).
  - destruct (dec_feed st z) as [st1 o]. rewrite IH. destruct (feeds st1 zs) as [st2 ms].
    destruct (feeds st2 ws) as [st3 ms']. by rewrite <- app_assoc.
Qed.

(** [owed st zs ms]: a reader in state [st] gets exactly the messages [ms] out of
    [zs], and is between two messages then. *)
Definition owed (st : St) (zs : list Z) (ms : list Msg) : Prop := feeds st zs = (dec_start, ms).

(** [frames zs m]: [zs] is one message. *)
Definition frames (zs : list Z) (m : Msg) : Prop := owed dec_start zs [m].

Lemma owed_nil_inv ms st : owed st [] ms -> st = dec_start /\ ms = [].
Proof. unfold owed. cbn. by intros [= -> <-]. Qed.
Lemma owed_nil : owed dec_start [] [].
Proof. done. Qed.

(** A message is written. *)
Lemma owed_write st zs ms ws m : owed st zs ms -> frames ws m -> owed st (zs ++ ws) (ms ++ [m]).
Proof. unfold owed, frames. intros H1 H2. rewrite feeds_app, H1. unfold owed in H2. by rewrite H2. Qed.

(** An [int] is read. *)
Lemma owed_read st z zs ms : owed st (z :: zs) ms ->
  exists ms', owed (dec_feed st z).1 zs ms' /\ ms = opt_list (dec_feed st z).2 ++ ms'.
Proof.
  unfold owed. cbn. destruct (dec_feed st z) as [st1 o]. cbn.
  destruct (feeds st1 zs) as [st2 ms2] eqn:E. intros [= -> <-]. by exists ms2.
Qed.
End Decoder.

(** ** A sequence of [int]s with its length in front *)
Inductive SeqSt : Type := SeqLen | SeqItems (togo : nat) (acc : list Z).
Definition seq_feed (st : SeqSt) (z : Z) : SeqSt * option (list Z) :=
  match st with
  | SeqLen => match Z.to_nat z with O => (SeqLen, Some []) | S n => (SeqItems (S n) [], None) end
  | SeqItems 1 acc => (SeqLen, Some (acc ++ [z]))
  | SeqItems n acc => (SeqItems (pred n) (acc ++ [z]), None)
  end.
#[global] Instance seq_decoder : Decoder SeqSt (list Z) := { dec_start := SeqLen; dec_feed := seq_feed }.

Lemma seq_feed_some st z st' ds : seq_feed st z = (st', Some ds) -> st' = SeqLen.
Proof. destruct st as [|[|[|n]] acc]; cbn; repeat case_match; intros; by simplify_eq. Qed.

Definition seq_ints (zs : list Z) : list Z := Z.of_nat (length zs) :: zs.

Lemma feeds_items zs acc : zs <> [] ->
  feeds (SeqItems (length zs) acc) zs = (SeqLen, [acc ++ zs]).
Proof.
  revert acc. induction zs as [|z zs IH]; intros acc Hne; [done|]. destruct zs as [|z' zs]; [done|].
  specialize (IH (acc ++ [z]) ltac:(done)). rewrite <- app_assoc in IH.
  change (feeds (SeqItems (length (z :: z' :: zs)) acc) (z :: z' :: zs))
    with (let '(st, ms) := feeds (SeqItems (length (z' :: zs)) (acc ++ [z])) (z' :: zs) in (st, [] ++ ms)).
  by rewrite IH.
Qed.

Lemma seq_frames zs : frames (seq_ints zs) zs.
Proof.
  unfold frames, owed, seq_ints. cbn. rewrite Nat2Z.id. destruct zs as [|z zs]; [done|].
  cbn [length]. pose proof (feeds_items (z :: zs) [] ltac:(done)) as H. cbn [length] in H. cbn. cbn in H. by rewrite H.
Qed.

(** A relation between two lists is kept when one element is replaced. *)
Lemma Forall2_replace {A B} (R : A -> B -> Prop) l l1 l2 x y :
  Forall2 R l (l1 ++ x :: l2) -> (forall a, R a x -> R a y) -> Forall2 R l (l1 ++ y :: l2).
Proof.
  intros H Hxy. apply Forall2_app_inv_r in H as (k1 & k2 & H1 & H2 & ->).
  apply Forall2_cons_inv_r in H2 as (a & k & Ha & Hk & ->).
  apply Forall2_app; [done|]. constructor; auto.
Qed.
