(* ===== verification/ProxyProc.v ===== *)
(** * The proxy process ([proxy.cpp])

    A proxy owns one partition of a GPU.  Six threads share its globals: [recvInput]
    reads requests and load orders from its input socket, [compute] runs the
    models, [send_output] writes the results, [loadControl] loads and unloads
    models, [control] watches the shared memory for the order to exit, and [main]
    waits for the end.  [proxy_step] is one step of one thread: [None] when it is
    blocked, [Stop] when the process dies.

    A critical section is one step; [loadControl] holds the lock of its queue over
    a whole turn, which takes three steps during which [recvInput] cannot push.  A
    wait on a condition variable is blocked while its predicate is false, so lost
    wake-ups are not modelled.  A poll that changes nothing counts as blocked.

    The build defines [NO_NET]: no tensor data is on the sockets, and [compute]
    makes the input up.  A tensor is its list of sizes.  Not under the sources:
    [jit_load] and [forward] of libtorch, which may throw ([None]), and the order
    [um_iter] in which an [unordered_map] is iterated.  Memory is not modelled. *)
From Stdlib Require Import ZArith SpecFloat String Lia.
From S2P Require Import Prelude CppFloat CppStd SchedData LoadBalancer AppModel Json SysState Control GlobalSetup Wire.

Definition CLOSE_SOCKET : Z := 25301.
Definition LOAD_MODEL : Z := 2251.
Definition UNLOAD_MODEL : Z := 8297.

Inductive action : Type := LOAD | RUN | UNLOAD.
#[global] Instance action_eq_dec : EqDecision action.
Proof. solve_decision. Defined.

Record QueueElem : Type := mkElem {
  q_req_ID : Z; q_job_ID : Z; q_batch_size : Z; q_dims : list Z; q_output : list Z; q_act : action }.
(** [new QueueElem()] sets the members to zero. *)
Definition new_elem (a : action) : QueueElem := mkElem 0 0 0 [] [] a.
Definition set_req_ID (x : Z) (q : QueueElem) : QueueElem :=
  mkElem x (q_job_ID q) (q_batch_size q) (q_dims q) (q_output q) (q_act q).
Definition set_job_ID (x : Z) (q : QueueElem) : QueueElem :=
  mkElem (q_req_ID q) x (q_batch_size q) (q_dims q) (q_output q) (q_act q).
Definition set_elem_batch (x : Z) (q : QueueElem) : QueueElem :=
  mkElem (q_req_ID q) (q_job_ID q) x (q_dims q) (q_output q) (q_act q).
Definition push_dim (x : Z) (q : QueueElem) : QueueElem :=
  mkElem (q_req_ID q) (q_job_ID q) (q_batch_size q) (q_dims q ++ [x]) (q_output q) (q_act q).
Definition set_output (x : list Z) (q : QueueElem) : QueueElem :=
  mkElem (q_req_ID q) (q_job_ID q) (q_batch_size q) (q_dims q) x (q_act q).

(** ** Where each thread is, with its local variables *)
Inductive recv_pc : Type :=
| R_Start | R_Accept
| R_Dimlen                                    (* about to read the first word *)
| R_Flag (dimlen : Z)
| R_LoadId | R_LoadBatch (model_id : Z) | R_UnloadId
| R_Job (dimlen : Z) | R_Dims (togo : nat) (q : QueueElem) | R_Rid (q : QueueElem)
| R_Received (q : QueueElem) | R_PushInput (q : QueueElem) | R_PushCtl (q : QueueElem)
| R_Close | R_Done.
Inductive comp_pc : Type :=
| C_Init | C_Spin | C_Mark | C_Wait | C_Compute (q : QueueElem) | C_Push (q : QueueElem)
| C_Clear | C_Done.
Inductive send_pc : Type := O_Start | O_Accept | O_Wait | O_Write (togo : list Z) | O_Close | O_Done.
Inductive load_pc : Type := L_Wait | L_Check | L_Mark | L_Done.
Inductive ctl_pc : Type := K_Poll | K_Exit | K_Done.
Inductive main_pc : Type :=
| M_JoinControl | M_JoinCompute | M_JoinSend | M_Flushed | M_WaitClosed | M_Cold | M_Return.

(** ** The globals, the process's view of the shared memory, its two connections
    ([None]: no client), and the threads.  [x_exit] is [g_exitFlag] and so on;
    [x_models] holds the pointers of [g_modelTable] that are not null. *)
Record Proxy (Mod : Type) : Type := mkProxyProc {
  x_InputQueue : list QueueElem;
  x_OutputQueue : list QueueElem;
  x_ControlQueue : list QueueElem;
  x_exit : bool;
  x_computing : bool;
  x_receiving : bool;
  x_ready_input : bool;
  x_ready_output : bool;
  x_ready_compute : bool;
  x_waiting_output : bool;
  x_input_closed : bool;
  x_loaded : list Z;
  x_files : gmap string Z;
  x_models : gmap Z Mod;
  x_dims : gmap Z (list Z);
  x_shm : ShMem;
  x_dev : Z;
  x_part : Z;
  x_in : option Conn;
  x_out : option Conn;
  x_recv : recv_pc;
  x_comp : comp_pc;
  x_send : send_pc;
  x_load : load_pc;
  x_ctl : ctl_pc;
  x_main : main_pc }.
#[global] Arguments x_InputQueue {Mod}.
#[global] Arguments x_OutputQueue {Mod}.
#[global] Arguments x_ControlQueue {Mod}.
#[global] Arguments x_exit {Mod}.
#[global] Arguments x_computing {Mod}.
#[global] Arguments x_receiving {Mod}.
#[global] Arguments x_ready_input {Mod}.
#[global] Arguments x_ready_output {Mod}.
#[global] Arguments x_ready_compute {Mod}.
#[global] Arguments x_waiting_output {Mod}.
#[global] Arguments x_input_closed {Mod}.
#[global] Arguments x_loaded {Mod}.
#[global] Arguments x_files {Mod}.
#[global] Arguments x_models {Mod}.
#[global] Arguments x_dims {Mod}.
#[global] Arguments x_shm {Mod}.
#[global] Arguments x_dev {Mod}.
#[global] Arguments x_part {Mod}.
#[global] Arguments x_in {Mod}.
#[global] Arguments x_out {Mod}.
#[global] Arguments x_recv {Mod}.
#[global] Arguments x_comp {Mod}.
#[global] Arguments x_send {Mod}.
#[global] Arguments x_load {Mod}.
#[global] Arguments x_ctl {Mod}.
#[global] Arguments x_main {Mod}.
#[global] Arguments mkProxyProc {Mod}.

Definition set_x_InputQueue {Mod} (x : list QueueElem) (p : Proxy Mod) : Proxy Mod :=
  mkProxyProc x (x_OutputQueue p) (x_ControlQueue p) (x_exit p) (x_computing p) (x_receiving p)
    (x_ready_input p) (x_ready_output p) (x_ready_compute p) (x_waiting_output p) (x_input_closed
    p) (x_loaded p) (x_files p) (x_models p) (x_dims p) (x_shm p) (x_dev p) (x_part p) (x_in p)
    (x_out p) (x_recv p) (x_comp p) (x_send p) (x_load p) (x_ctl p) (x_main p).
Definition set_x_OutputQueue {Mod} (x : list QueueElem) (p : Proxy Mod) : Proxy Mod :=
  mkProxyProc (x_InputQueue p) x (x_ControlQueue p) (x_exit p) (x_computing p) (x_receiving p)
    (x_ready_input p) (x_ready_output p) (x_ready_compute p) (x_waiting_output p) (x_input_closed
    p) (x_loaded p) (x_files p) (x_models p) (x_dims p) (x_shm p) (x_dev p) (x_part p) (x_in p)
    (x_out p) (x_recv p) (x_comp p) (x_send p) (x_load p) (x_ctl p) (x_main p).
Definition set_x_ControlQueue {Mod} (x : list QueueElem) (p : Proxy Mod) : Proxy Mod :=
  mkProxyProc (x_InputQueue p) (x_OutputQueue p) x (x_exit p) (x_computing p) (x_receiving p)
    (x_ready_input p) (x_ready_output p) (x_ready_compute p) (x_waiting_output p) (x_input_closed
    p) (x_loaded p) (x_files p) (x_models p) (x_dims p) (x_shm p) (x_dev p) (x_part p) (x_in p)
    (x_out p) (x_recv p) (x_comp p) (x_send p) (x_load p) (x_ctl p) (x_main p).
Definition set_x_exit {Mod} (x : bool) (p : Proxy Mod) : Proxy Mod :=
  mkProxyProc (x_InputQueue p) (x_OutputQueue p) (x_ControlQueue p) x (x_computing p) (x_receiving
    p) (x_ready_input p) (x_ready_output p) (x_ready_compute p) (x_waiting_output p)
    (x_input_closed p) (x_loaded p) (x_files p) (x_models p) (x_dims p) (x_shm p) (x_dev p)
    (x_part p) (x_in p) (x_out p) (x_recv p) (x_comp p) (x_send p) (x_load p) (x_ctl p) (x_main
    p).
Definition set_x_computing {Mod} (x : bool) (p : Proxy Mod) : Proxy Mod :=
  mkProxyProc (x_InputQueue p) (x_OutputQueue p) (x_ControlQueue p) (x_exit p) x (x_receiving p)
    (x_ready_input p) (x_ready_output p) (x_ready_compute p) (x_waiting_output p) (x_input_closed
    p) (x_loaded p) (x_files p) (x_models p) (x_dims p) (x_shm p) (x_dev p) (x_part p) (x_in p)
    (x_out p) (x_recv p) (x_comp p) (x_send p) (x_load p) (x_ctl p) (x_main p).
Definition set_x_receiving {Mod} (x : bool) (p : Proxy Mod) : Proxy Mod :=
  mkProxyProc (x_InputQueue p) (x_OutputQueue p) (x_ControlQueue p) (x_exit p) (x_computing p) x
    (x_ready_input p) (x_ready_output p) (x_ready_compute p) (x_waiting_output p) (x_input_closed
    p) (x_loaded p) (x_files p) (x_models p) (x_dims p) (x_shm p) (x_dev p) (x_part p) (x_in p)
    (x_out p) (x_recv p) (x_comp p) (x_send p) (x_load p) (x_ctl p) (x_main p).
Definition set_x_ready_input {Mod} (x : bool) (p : Proxy Mod) : Proxy Mod :=
  mkProxyProc (x_InputQueue p) (x_OutputQueue p) (x_ControlQueue p) (x_exit p) (x_computing p)
    (x_receiving p) x (x_ready_output p) (x_ready_compute p) (x_waiting_output p) (x_input_closed
    p) (x_loaded p) (x_files p) (x_models p) (x_dims p) (x_shm p) (x_dev p) (x_part p) (x_in p)
    (x_out p) (x_recv p) (x_comp p) (x_send p) (x_load p) (x_ctl p) (x_main p).
Definition set_x_ready_output {Mod} (x : bool) (p : Proxy Mod) : Proxy Mod :=
  mkProxyProc (x_InputQueue p) (x_OutputQueue p) (x_ControlQueue p) (x_exit p) (x_computing p)
    (x_receiving p) (x_ready_input p) x (x_ready_compute p) (x_waiting_output p) (x_input_closed
    p) (x_loaded p) (x_files p) (x_models p) (x_dims p) (x_shm p) (x_dev p) (x_part p) (x_in p)
    (x_out p) (x_recv p) (x_comp p) (x_send p) (x_load p) (x_ctl p) (x_main p).
Definition set_x_ready_compute {Mod} (x : bool) (p : Proxy Mod) : Proxy Mod :=
  mkProxyProc (x_InputQueue p) (x_OutputQueue p) (x_ControlQueue p) (x_exit p) (x_computing p)
    (x_receiving p) (x_ready_input p) (x_ready_output p) x (x_waiting_output p) (x_input_closed p)
    (x_loaded p) (x_files p) (x_models p) (x_dims p) (x_shm p) (x_dev p) (x_part p) (x_in p)
    (x_out p) (x_recv p) (x_comp p) (x_send p) (x_load p) (x_ctl p) (x_main p).
Definition set_x_waiting_output {Mod} (x : bool) (p : Proxy Mod) : Proxy Mod :=
  mkProxyProc (x_InputQueue p) (x_OutputQueue p) (x_ControlQueue p) (x_exit p) (x_computing p)
    (x_receiving p) (x_ready_input p) (x_ready_output p) (x_ready_compute p) x (x_input_closed p)
    (x_loaded p) (x_files p) (x_models p) (x_dims p) (x_shm p) (x_dev p) (x_part p) (x_in p)
    (x_out p) (x_recv p) (x_comp p) (x_send p) (x_load p) (x_ctl p) (x_main p).
Definition set_x_input_closed {Mod} (x : bool) (p : Proxy Mod) : Proxy Mod :=
  mkProxyProc (x_InputQueue p) (x_OutputQueue p) (x_ControlQueue p) (x_exit p) (x_computing p)
    (x_receiving p) (x_ready_input p) (x_ready_output p) (x_ready_compute p) (x_waiting_output p)
    x (x_loaded p) (x_files p) (x_models p) (x_dims p) (x_shm p) (x_dev p) (x_part p) (x_in p)
    (x_out p) (x_recv p) (x_comp p) (x_send p) (x_load p) (x_ctl p) (x_main p).
Definition set_x_loaded {Mod} (x : list Z) (p : Proxy Mod) : Proxy Mod :=
  mkProxyProc (x_InputQueue p) (x_OutputQueue p) (x_ControlQueue p) (x_exit p) (x_computing p)
    (x_receiving p) (x_ready_input p) (x_ready_output p) (x_ready_compute p) (x_waiting_output p)
    (x_input_closed p) x (x_files p) (x_models p) (x_dims p) (x_shm p) (x_dev p) (x_part p) (x_in
    p) (x_out p) (x_recv p) (x_comp p) (x_send p) (x_load p) (x_ctl p) (x_main p).
Definition set_x_files {Mod} (x : gmap string Z) (p : Proxy Mod) : Proxy Mod :=
  mkProxyProc (x_InputQueue p) (x_OutputQueue p) (x_ControlQueue p) (x_exit p) (x_computing p)
    (x_receiving p) (x_ready_input p) (x_ready_output p) (x_ready_compute p) (x_waiting_output p)
    (x_input_closed p) (x_loaded p) x (x_models p) (x_dims p) (x_shm p) (x_dev p) (x_part p) (x_in
    p) (x_out p) (x_recv p) (x_comp p) (x_send p) (x_load p) (x_ctl p) (x_main p).
Definition set_x_models {Mod} (x : gmap Z Mod) (p : Proxy Mod) : Proxy Mod :=
  mkProxyProc (x_InputQueue p) (x_OutputQueue p) (x_ControlQueue p) (x_exit p) (x_computing p)
    (x_receiving p) (x_ready_input p) (x_ready_output p) (x_ready_compute p) (x_waiting_output p)
    (x_input_closed p) (x_loaded p) (x_files p) x (x_dims p) (x_shm p) (x_dev p) (x_part p) (x_in
    p) (x_out p) (x_recv p) (x_comp p) (x_send p) (x_load p) (x_ctl p) (x_main p).
Definition set_x_shm {Mod} (x : ShMem) (p : Proxy Mod) : Proxy Mod :=
  mkProxyProc (x_InputQueue p) (x_OutputQueue p) (x_ControlQueue p) (x_exit p) (x_computing p)
    (x_receiving p) (x_ready_input p) (x_ready_output p) (x_ready_compute p) (x_waiting_output p)
    (x_input_closed p) (x_loaded p) (x_files p) (x_models p) (x_dims p) x (x_dev p) (x_part p)
    (x_in p) (x_out p) (x_recv p) (x_comp p) (x_send p) (x_load p) (x_ctl p) (x_main p).
Definition set_x_in {Mod} (x : option Conn) (p : Proxy Mod) : Proxy Mod :=
  mkProxyProc (x_InputQueue p) (x_OutputQueue p) (x_ControlQueue p) (x_exit p) (x_computing p)
    (x_receiving p) (x_ready_input p) (x_ready_output p) (x_ready_compute p) (x_waiting_output p)
    (x_input_closed p) (x_loaded p) (x_files p) (x_models p) (x_dims p) (x_shm p) (x_dev p)
    (x_part p) x (x_out p) (x_recv p) (x_comp p) (x_send p) (x_load p) (x_ctl p) (x_main p).
Definition set_x_out {Mod} (x : option Conn) (p : Proxy Mod) : Proxy Mod :=
  mkProxyProc (x_InputQueue p) (x_OutputQueue p) (x_ControlQueue p) (x_exit p) (x_computing p)
    (x_receiving p) (x_ready_input p) (x_ready_output p) (x_ready_compute p) (x_waiting_output p)
    (x_input_closed p) (x_loaded p) (x_files p) (x_models p) (x_dims p) (x_shm p) (x_dev p)
    (x_part p) (x_in p) x (x_recv p) (x_comp p) (x_send p) (x_load p) (x_ctl p) (x_main p).
Definition set_x_recv {Mod} (x : recv_pc) (p : Proxy Mod) : Proxy Mod :=
  mkProxyProc (x_InputQueue p) (x_OutputQueue p) (x_ControlQueue p) (x_exit p) (x_computing p)
    (x_receiving p) (x_ready_input p) (x_ready_output p) (x_ready_compute p) (x_waiting_output p)
    (x_input_closed p) (x_loaded p) (x_files p) (x_models p) (x_dims p) (x_shm p) (x_dev p)
    (x_part p) (x_in p) (x_out p) x (x_comp p) (x_send p) (x_load p) (x_ctl p) (x_main p).
Definition set_x_comp {Mod} (x : comp_pc) (p : Proxy Mod) : Proxy Mod :=
  mkProxyProc (x_InputQueue p) (x_OutputQueue p) (x_ControlQueue p) (x_exit p) (x_computing p)
    (x_receiving p) (x_ready_input p) (x_ready_output p) (x_ready_compute p) (x_waiting_output p)
    (x_input_closed p) (x_loaded p) (x_files p) (x_models p) (x_dims p) (x_shm p) (x_dev p)
    (x_part p) (x_in p) (x_out p) (x_recv p) x (x_send p) (x_load p) (x_ctl p) (x_main p).
Definition set_x_send {Mod} (x : send_pc) (p : Proxy Mod) : Proxy Mod :=
  mkProxyProc (x_InputQueue p) (x_OutputQueue p) (x_ControlQueue p) (x_exit p) (x_computing p)
    (x_receiving p) (x_ready_input p) (x_ready_output p) (x_ready_compute p) (x_waiting_output p)
    (x_input_closed p) (x_loaded p) (x_files p) (x_models p) (x_dims p) (x_shm p) (x_dev p)
    (x_part p) (x_in p) (x_out p) (x_recv p) (x_comp p) x (x_load p) (x_ctl p) (x_main p).
Definition set_x_load {Mod} (x : load_pc) (p : Proxy Mod) : Proxy Mod :=
  mkProxyProc (x_InputQueue p) (x_OutputQueue p) (x_ControlQueue p) (x_exit p) (x_computing p)
    (x_receiving p) (x_ready_input p) (x_ready_output p) (x_ready_compute p) (x_waiting_output p)
    (x_input_closed p) (x_loaded p) (x_files p) (x_models p) (x_dims p) (x_shm p) (x_dev p)
    (x_part p) (x_in p) (x_out p) (x_recv p) (x_comp p) (x_send p) x (x_ctl p) (x_main p).
Definition set_x_ctl {Mod} (x : ctl_pc) (p : Proxy Mod) : Proxy Mod :=
  mkProxyProc (x_InputQueue p) (x_OutputQueue p) (x_ControlQueue p) (x_exit p) (x_computing p)
    (x_receiving p) (x_ready_input p) (x_ready_output p) (x_ready_compute p) (x_waiting_output p)
    (x_input_closed p) (x_loaded p) (x_files p) (x_models p) (x_dims p) (x_shm p) (x_dev p)
    (x_part p) (x_in p) (x_out p) (x_recv p) (x_comp p) (x_send p) (x_load p) x (x_main p).
Definition set_x_main {Mod} (x : main_pc) (p : Proxy Mod) : Proxy Mod :=
  mkProxyProc (x_InputQueue p) (x_OutputQueue p) (x_ControlQueue p) (x_exit p) (x_computing p)
    (x_receiving p) (x_ready_input p) (x_ready_output p) (x_ready_compute p) (x_waiting_output p)
    (x_input_closed p) (x_loaded p) (x_files p) (x_models p) (x_dims p) (x_shm p) (x_dev p)
    (x_part p) (x_in p) (x_out p) (x_recv p) (x_comp p) (x_send p) (x_load p) (x_ctl p) x.

(** ** The messages on the input socket *)

(** [recvInput] between two reads: where it goes with the result [r] of a read;
    [None] is the end of the stream, which leaves variables as they were.  [junk] is
    the value of an uninitialised [int]. *)
Definition load_elem (model_id batch_size : Z) : QueueElem :=
  set_elem_batch batch_size (set_job_ID model_id (new_elem LOAD)).
Definition unload_elem (model_id : Z) : QueueElem := set_job_ID model_id (new_elem UNLOAD).

Definition after_job (dimlen : Z) (q : QueueElem) : recv_pc :=
  match Z.to_nat dimlen with O => R_Rid q | S n => R_Dims (S n) q end.
Definition after_dim (togo : nat) (q : QueueElem) : recv_pc :=
  match togo with S (S n) => R_Dims (S n) q | _ => R_Rid q end.

Definition recv_read (junk : Z) (pc : recv_pc) (r : option Z) : option recv_pc :=
  match pc with
  | R_Dimlen => Some
      match r with
      | None => R_Close
      | Some dimlen =>
          if (dimlen =? CLOSE_SOCKET)%Z then R_Close
          else if (dimlen =? LOAD_MODEL)%Z then R_LoadId
          else if (dimlen =? UNLOAD_MODEL)%Z then R_UnloadId
          else R_Flag dimlen
      end
  | R_LoadId => Some (R_LoadBatch (default junk r))
  | R_LoadBatch model_id => Some (R_PushCtl (load_elem model_id (default junk r)))
  | R_UnloadId => Some (R_PushCtl (unload_elem (default junk r)))
  | R_Job dimlen => Some (after_job dimlen (set_job_ID (default 0%Z r) (new_elem RUN)))
  | R_Dims togo q =>
      Some (after_dim togo (match r with Some buf => push_dim buf q | None => q end))
  | R_Rid q => Some (R_Received (match r with Some buf => set_req_ID buf q | None => q end))
  | _ => None
  end.

(** What follows the first word of a request. *)
Definition after_dimlen (dimlen : Z) : recv_pc :=
  if (4 <? dimlen)%Z then R_Dimlen
  else if (dimlen =? 0)%Z then R_Close else R_Job dimlen.

(** ** The models *)
Inductive IValue : Type :=
| VTensor (sizes : list Z)
| VTuple (elements : list (option (list Z)))
| VOther.

Definition i64 (z : Z) : Z := (z + 9223372036854775808) mod 18446744073709551616 - 9223372036854775808.
Definition IMAGE_SIZE : Z := 224.

Section Proxy.
Context {Mod : Type}.
Context (jit_load : string -> option Mod) (forward : Mod -> list Z -> option IValue).
Context (um_iter : gmap string Z -> list (string * Z)).
Context (g_commonDir : string) (junk : Z).

Definition throws {A} (o : option A) : outcome A :=
  match o with Some a => Done a | None => Stop Uncaught end.

(** The sizes of [torch::ones]; a negative size throws. *)
Definition getRandInput (dims : gmap Z (list Z)) (id batch_size : Z) : outcome (list Z) :=
  let dimension := batch_size :: map i64 (default [] (dims !! id)) in
  if forallb (fun d => 0 <=? d)%Z dimension then Done dimension else Stop Uncaught.

Definition getDirToFile (files : gmap string Z) (model_id : Z) : string :=
  match List.find (fun e => e.2 =? model_id)%Z (um_iter files) with
  | Some e => if String.eqb e.1 "" then "FILE_NOT_FOUND" else g_commonDir +:+ e.1
  | None => "FILE_NOT_FOUND"
  end.

Definition run_model (m : option Mod) (input : list Z) : outcome IValue :=
  m ← deref m; throws (forward m input).

(** [custom::getBoxforTraffic]: one 224x224 image per input of the batch.  The
    calls on the confidences need three dimensions, the last two not empty;
    [narrow] needs as many inputs, [cat] at least one. *)
Definition getBoxforTraffic (conf input : list Z) : outcome (list Z) :=
  match conf, input with
  | batchsize :: c1 :: c2 :: _, n :: _ =>
      if ((0 <? batchsize) && (batchsize <=? n) && (0 <? c1) && (0 <? c2))%Z
      then Done [batchsize; 3; IMAGE_SIZE; IMAGE_SIZE]%Z else Stop Uncaught
  | _, _ => Stop Uncaught
  end.

(** The output tensor; reading the identifier of a file that is not configured
    inserts it with identifier 0, and that is done only for tuples. *)
Definition file_id (name : string) (files : gmap string Z) : Z := default 0%Z (files !! name).
Definition touch_file (name : string) (files : gmap string Z) : gmap string Z :=
  match files !! name with Some _ => files | None => <[name := 0%Z]> files end.
Definition tuple_at (elements : list (option (list Z))) (i : nat) : outcome (list Z) :=
  o ← throws (elements !! i); throws o.
Definition select_output (files : gmap string Z) (job_ID : Z) (input : list Z) (temp_output : IValue) :
    outcome (list Z * gmap string Z) :=
  match temp_output with
  | VTensor sizes => Done (sizes, files)
  | VTuple elements =>
      let files := touch_file "ssd-mobilenetv1.pt" files in
      if (job_ID =? file_id "ssd-mobilenetv1.pt" files)%Z then
        conf ← tuple_at elements 0;
        _ ← tuple_at elements 1;
        box ← getBoxforTraffic conf input;
        Done (box, files)
      else
        let files := touch_file "bert.pt" files in
        if (job_ID =? file_id "bert.pt" files)%Z then
          t ← tuple_at elements 0; Done (t, files)
        else Stop (Exited 1)
  | VOther => Stop (Exited 1)
  end.
Definition size0 (sizes : list Z) : outcome Z := throws (head sizes).

(** One request in [compute]: the sizes of its output. *)
Definition compute_output (m : option Mod) (dims : gmap Z (list Z)) (files : gmap string Z)
    (q : QueueElem) : outcome (list Z * gmap string Z) :=
  b ← deref (head (q_dims q));
  t ← getRandInput dims (q_job_ID q) b;
  input_batch_size ← size0 t;
  temp_output ← run_model m t;
  '(temp, files) ← select_output files (q_job_ID q) t temp_output;
  output_batch_size ← size0 temp;
  if (i32 input_batch_size =? i32 output_batch_size)%Z then Done (temp, files)
  else Stop AssertionFailed.

(** ** The threads *)
Abbreviation step := (option (outcome (Proxy Mod))) (only parsing).
Definition goes (x : Proxy Mod) : option (outcome (Proxy Mod)) := Some (Done x).
Definition blocks : option (outcome (Proxy Mod)) := None.

(** [markProxy] and [getProxyState] of the proxy itself. *)
Definition mark (state : proxy_state) (x : Proxy Mod) : outcome (Proxy Mod) :=
  match setProxyState state (x_dev x) (x_part x) (x_shm x) with
  | Done (_, m) => Done (set_x_shm m x) | Stop f => Stop f end.
Definition own_state (x : Proxy Mod) : outcome proxy_state :=
  match shm_getProxyState (x_dev x) (x_part x) (x_shm x) with
  | Done (s, _) => Done (default COLD s) | Stop f => Stop f end.

Definition load_holds_lock (x : Proxy Mod) : bool :=
  match x_load x with L_Check | L_Mark => true | _ => false end.

Definition recvInput (x : Proxy Mod) : option (outcome (Proxy Mod)) :=
  let at_ pc := set_x_recv pc in
  match x_recv x with
  | R_Start => goes (at_ R_Accept (set_x_ready_input true x))
  | R_Accept =>
      match x_in x with
      | None => blocks
      | Some _ => goes (at_ R_Dimlen (set_x_input_closed false x))
      end
  | R_Flag dimlen => goes (at_ (after_dimlen dimlen) (set_x_receiving true x))
  | R_Received q => goes (at_ (R_PushInput q) (set_x_receiving false x))
  | R_PushInput q => goes (at_ R_Dimlen (set_x_InputQueue (x_InputQueue x ++ [q]) x))
  | R_PushCtl q =>
      if load_holds_lock x then blocks
      else goes (at_ R_Dimlen (set_x_ControlQueue (x_ControlQueue x ++ [q]) x))
  | R_Close =>
      goes (at_ (if x_exit x then R_Done else R_Accept) (set_x_in None (set_x_input_closed true x)))
  | R_Done => blocks
  | pc =>
      match x_in x with
      | None => blocks
      | Some c =>
          match conn_read c with
          | None => blocks
          | Some (r, c') =>
              match recv_read junk pc r with
              | Some pc' => goes (at_ pc' (set_x_in (Some c') x))
              | None => blocks
              end
          end
      end
  end.

Definition compute (x : Proxy Mod) : option (outcome (Proxy Mod)) :=
  let at_ pc := set_x_comp pc in
  match x_comp x with
  | C_Init => goes (at_ C_Spin (set_x_ready_compute true x))
  | C_Spin =>
      if x_ready_input x && x_ready_output x && x_ready_compute x then goes (at_ C_Mark x) else blocks
  | C_Mark => Some (x' ← mark RUNNING x; Done (at_ C_Wait x'))
  | C_Wait =>
      match x_InputQueue x with
      | [] =>
          if negb (x_exit x) then blocks
          else if negb (x_receiving x) then goes (at_ C_Done x)
          else Some (Stop Undefined)
      | q :: rest => goes (at_ (C_Compute q) (set_x_InputQueue rest (set_x_computing true x)))
      end
  | C_Compute q =>
      Some ('(out, files) ← compute_output (x_models x !! q_job_ID q) (x_dims x) (x_files x) q;
            Done (at_ (C_Push (set_output out q)) (set_x_files files x)))
  | C_Push q => goes (at_ C_Clear (set_x_OutputQueue (x_OutputQueue x ++ [q]) x))
  | C_Clear => goes (at_ C_Wait (set_x_computing false x))
  | C_Done => blocks
  end.

(** The words of a result: the number of dimensions and the dimensions. *)
Definition output_ints (otensor : list Z) : list Z := seq_ints (map i32 otensor).

Definition send_output (x : Proxy Mod) : option (outcome (Proxy Mod)) :=
  let at_ pc := set_x_send pc in
  match x_send x with
  | O_Start => goes (at_ O_Accept (set_x_waiting_output true (set_x_ready_output true x)))
  | O_Accept =>
      match x_out x with
      | None => blocks
      | Some _ => goes (at_ O_Wait (set_x_waiting_output false x))
      end
  | O_Wait =>
      match x_OutputQueue x with
      | [] =>
          if x_exit x && negb (x_receiving x) && bool_decide (x_InputQueue x = [])
          then goes (at_ O_Close x) else blocks
      | q :: rest => goes (at_ (O_Write (output_ints (q_output q))) (set_x_OutputQueue rest x))
      end
  | O_Write [] => goes (at_ O_Wait x)
  | O_Write (z :: togo) => goes (at_ (O_Write togo) (set_x_out (conn_write [z] <$> x_out x) x))
  | O_Close =>
      let x := set_x_out ((fun c => mkConn (cn_data c) true) <$> x_out x) x in
      goes (if x_exit x then at_ O_Done x else at_ O_Accept (set_x_waiting_output true x))
  | O_Done => blocks
  end.

Definition warmupModel (id max_batch_size : Z) (x : Proxy Mod) : outcome unit :=
  input ← getRandInput (x_dims x) id max_batch_size;
  _ ← run_model (x_models x !! id) input; Done tt.

Definition loadModel (q : QueueElem) (x : Proxy Mod) : outcome (Proxy Mod) :=
  let id := q_job_ID q in
  if decide (id ∈ x_loaded x) then Done x
  else
    m ← throws (jit_load (getDirToFile (x_files x) id));
    let x := set_x_models (<[id := m]> (x_models x)) x in
    _ ← warmupModel id (q_batch_size q) x;
    Done (set_x_loaded (x_loaded x ++ [id]) x).

(** [erase(find(...))]: the first occurrence. *)
Fixpoint erase_one (id : Z) (l : list Z) : list Z :=
  match l with [] => [] | x :: l' => if (x =? id)%Z then l' else x :: erase_one id l' end.
Definition unloadModel (id : Z) (x : Proxy Mod) : Proxy Mod :=
  if decide (id ∈ x_loaded x) then
    set_x_loaded (erase_one id (x_loaded x)) (set_x_models (delete id (x_models x)) x)
  else x.

Definition loadControl (x : Proxy Mod) : option (outcome (Proxy Mod)) :=
  let at_ pc := set_x_load pc in
  match x_load x with
  | L_Wait =>
      if x_exit x then goes (at_ L_Done x)
      else match x_ControlQueue x with
           | [] => blocks
           | q :: rest =>
               let x := set_x_ControlQueue rest x in
               Some (x' ← (match q_act q with
                           | LOAD => loadModel q x
                           | UNLOAD => Done (unloadModel (q_job_ID q) x)
                           | RUN => Done x
                           end);
                     Done (at_ L_Check x'))
           end
  | L_Check =>
      match x_ControlQueue x with
      | [] =>
          Some (s ← own_state x; Done (at_ (if decide (s = EXITING) then L_Wait else L_Mark) x))
      | _ => goes (at_ L_Wait x)
      end
  | L_Mark => Some (x' ← mark RUNNING x; Done (at_ L_Wait x'))
  | L_Done => blocks
  end.

Definition control (x : Proxy Mod) : option (outcome (Proxy Mod)) :=
  match x_ctl x with
  | K_Poll =>
      match own_state x with
      | Stop f => Some (Stop f)
      | Done s => if decide (s = EXITING) then goes (set_x_ctl K_Exit x) else blocks
      end
  | K_Exit => goes (set_x_ctl K_Done (set_x_exit true x))
  | K_Done => blocks
  end.

(** The join of [send] joins the input thread, which was detached: the call
    returns an error at once, or is undefined when the thread has ended. *)
Definition main_thread (x : Proxy Mod) : option (outcome (Proxy Mod)) :=
  let at_ pc := set_x_main pc in
  match x_main x with
  | M_JoinControl => match x_ctl x with K_Done => goes (at_ M_JoinCompute x) | _ => blocks end
  | M_JoinCompute => match x_comp x with C_Done => goes (at_ M_JoinSend x) | _ => blocks end
  | M_JoinSend =>
      match x_waiting_output x, x_recv x with
      | false, R_Done => Some (Stop Undefined)
      | _, _ => goes (at_ M_Flushed x)
      end
  | M_Flushed => Some (x' ← mark FLUSHED x; Done (at_ M_WaitClosed x'))
  | M_WaitClosed => if x_input_closed x then goes (at_ M_Cold x) else blocks
  | M_Cold => Some (x' ← mark COLD x; Done (at_ M_Return x'))
  | M_Return => blocks
  end.

Inductive Thread : Type := Recv | Comp | Send | Load | Ctl | Main.
Definition proxy_step (t : Thread) (x : Proxy Mod) : option (outcome (Proxy Mod)) :=
  match x_main x with
  | M_Return => blocks
  | _ =>
      match t with
      | Recv => recvInput x | Comp => compute x | Send => send_output x
      | Load => loadControl x | Ctl => control x | Main => main_thread x
      end
  end.
End Proxy.

(** ** Start-up *)

(** [readInputDimsJsonFile] of the proxy: [None] is a file that cannot be
    parsed. *)
Definition readProxyDims (config : option Value) :
    outcome (bool * gmap string Z * gmap Z (list Z)) :=
  match config with
  | None => Done (EXIT_FAILURE, ∅, ∅)
  | Some root =>
      models ← member root "Models";
      foldl (fun acc i =>
        '(ok, mapping, dims) ← acc;
        model ← element models i;
        name ← (v ← member model "name"; asString v);
        id ← (v ← member model "proxy_id"; asInt v);
        ds ← (v ← member model "input_dim"; int_elements v);
        Done (ok, <[name := id]> mapping,
              if decide (ds = []) then dims else <[id := default [] (dims !! id) ++ map u64 ds]> dims))
        (Done (EXIT_SUCCESS, ∅, ∅)) (seq 0 (size models))
  end.

(** [readInputTypesJSONFile] ([common/gpu_proxy.cpp]). *)
Definition readInputTypesJSONFile (config : option Value) (input_map output_map : gmap Z string) :
    outcome (bool * gmap Z string * gmap Z string) :=
  match config with
  | None => Done (EXIT_FAILURE, input_map, output_map)
  | Some root =>
      models ← member root "Models";
      foldl (fun acc i =>
        '(ok, ins, outs) ← acc;
        model ← element models i;
        id ← (v ← member model "proxy_id"; asInt v);
        input_type ← (v ← member model "input_type"; asString v);
        output_type ← (v ← member model "output_type"; asString v);
        Done (ok, <[id := input_type]> ins, <[id := output_type]> outs))
        (Done (EXIT_SUCCESS, input_map, output_map)) (seq 0 (size models))
  end.

(** The file of a model is its name with [".pt"]. *)
Definition mappingFiletoID (names : gmap string Z) : gmap string Z :=
  foldl (fun files e => <[(e.1 +:+ ".pt")%string := e.2]> files) ∅
    (std_sort (fun a b => String.ltb a.1 b.1) (map_to_list names)).

(** [main] up to the creation of the threads: the proxy marks itself [BOOTING].
    Both connections of the backend, if any, are waiting to be accepted. *)
Definition boot_proxy {Mod : Type} (config : option Value) (devid partition : Z) (shm : ShMem)
    (input output : option Conn) : outcome (Proxy Mod) :=
  '(_, shm) ← setProxyState BOOTING devid partition shm;
  '(_, names, dims) ← readProxyDims config;
  _ ← readInputTypesJSONFile config ∅ ∅;
  Done (mkProxyProc [] [] [] false false false false false false true true []
          (mappingFiletoID names) ∅ dims shm devid partition input output
          R_Start C_Init O_Start L_Wait K_Poll M_JoinControl).
