(* ===== verification/DataPath.v ===== *)
(** * The way of a batch from the frontend through a backend to a proxy and back
    ([service/backend_data.cpp], [service/backend_thread.cpp],
    [common/gpu_proxy.cpp], and [sendBatchedRequest] and [initOutput] of
    [service/proxy_thread.cpp] as far as they touch the sockets).

    For one proxy there are four connections: [s_c1] from the frontend to the
    backend, the input and the output socket of the proxy process, and [s_c4] back
    to the frontend.  On each side a queue remembers what was sent, because an
    answer carries no identifier: [s_fqueue] in the frontend
    ([PerProxyOutputQueue]), [s_bqueue] in the backend ([MapProxytoOutputQueue]).
    The threads are the sender and the receiver of the frontend, the input and the
    output thread of the backend, the control thread of the backend, which sends
    load orders on the same socket, and the threads of the proxy.

    One [int] is read or written in one step.  [sstep] interleaves the threads
    freely, with new batches and load orders at any time; nobody tells the proxy
    to exit.  The backend's end of the output socket has a receive timeout of five
    seconds ([connectGPUProxyOut]), the sockets of the frontend have none: a read
    of the backend's output thread that would block may also return an error
    ([read_expires]).  Before a message this ends the thread and closes [s_c4];
    inside a message the code does not look at the error.  The build defines
    [NO_NET]: tensor data is not sent. *)
From Stdlib Require Import ZArith SpecFloat String Lia.
From S2P Require Import Prelude CppFloat CppStd SchedData LoadBalancer AppModel Json SysState Control GlobalSetup Wire ProxyProc.

(** A batch: model, number and size. *)
Record FReq : Type := mkFReq { fr_jid : Z; fr_rid : Z; fr_tnum : Z }.
Record BatchedRequest : Type := mkBR { br_rid : Z; br_batch_size : Z }.

(** ** Messages *)

(** [sendRequestToBackend], [sendRequest] with dimensions, [makeProxyLoadModel],
    [makeProxyUnloadModel], [disconnectProxy] and [sendOutput]. *)
Definition sendRequestToBackend (rid jobid size : Z) : list Z := [jobid; rid; i32 size].
Definition sendRequest (rid jobid : Z) (dims : list Z) : list Z :=
  Z.of_nat (length dims) :: jobid :: map i32 dims ++ [rid].
Definition order_ints (m : ProxyMsg) : list Z :=
  match m with
  | MsgLoad model_id batch_size => [LOAD_MODEL; model_id; batch_size]
  | MsgUnload model_id => [UNLOAD_MODEL; model_id]
  | MsgClose => [CLOSE_SOCKET]
  end.
Definition sendOutput (dims : list Z) : list Z := seq_ints dims.

(** ** Where each thread is *)
Inductive fsend_pc : Type := FS_Idle | FS_Push (r : FReq) | FS_Write (togo : list Z).
Inductive fout_pc : Type :=
| FO_Wait | FO_Read (r : FReq) (st : SeqSt) | FO_Check (r : FReq) (dims : list Z).
Inductive bin_pc : Type :=
| BI_Jid | BI_Rid (jid : Z) | BI_Size (jid rid : Z)
| BI_Lock (r : FReq) | BI_Write (togo : list Z) (r : FReq) | BI_Push (r : FReq).
Inductive bctl_pc : Type :=
| BC_Idle | BC_Mark (m : ProxyMsg) | BC_Lock (m : ProxyMsg) | BC_Write (togo : list Z).
Inductive bout_pc : Type :=
| BO_Wait | BO_Read (br : BatchedRequest) (st : SeqSt) | BO_Check (br : BatchedRequest) (dims : list Z)
| BO_Write (togo : list Z)
| BO_Failed (br : BatchedRequest).            (* ended, with the answer to [br] outstanding *)

(** ** The system.  [s_mtx] is [sendMtx] of the backend's [proxy_info]; [s_sent],
    [s_results] and [s_orders] record what went into the queue of the frontend,
    what [recvResult] returned and what the control thread was asked to load and
    unload; no thread reads them. *)
Record Sys (Mod : Type) : Type := mkSys {
  s_fsend : fsend_pc;
  s_fqueue : list FReq;
  s_fout : fout_pc;
  s_c1 : Conn;
  s_bin : bin_pc;
  s_mtx : bool;
  s_bctl : bctl_pc;
  s_bqueue : list BatchedRequest;
  s_bout : bout_pc;
  s_proxy : Proxy Mod;
  s_c4 : Conn;
  s_sent : list FReq;
  s_results : list (FReq * list Z);
  s_orders : list ProxyMsg }.
#[global] Arguments s_fsend {Mod}.
#[global] Arguments s_fqueue {Mod}.
#[global] Arguments s_fout {Mod}.
#[global] Arguments s_c1 {Mod}.
#[global] Arguments s_bin {Mod}.
#[global] Arguments s_mtx {Mod}.
#[global] Arguments s_bctl {Mod}.
#[global] Arguments s_bqueue {Mod}.
#[global] Arguments s_bout {Mod}.
#[global] Arguments s_proxy {Mod}.
#[global] Arguments s_c4 {Mod}.
#[global] Arguments s_sent {Mod}.
#[global] Arguments s_results {Mod}.
#[global] Arguments s_orders {Mod}.
#[global] Arguments mkSys {Mod}.

Definition set_s_fsend {Mod} (x : fsend_pc) (s : Sys Mod) : Sys Mod :=
  mkSys x (s_fqueue s) (s_fout s) (s_c1 s) (s_bin s) (s_mtx s) (s_bctl s) (s_bqueue s) (s_bout s)
    (s_proxy s) (s_c4 s) (s_sent s) (s_results s) (s_orders s).
Definition set_s_fqueue {Mod} (x : list FReq) (s : Sys Mod) : Sys Mod :=
  mkSys (s_fsend s) x (s_fout s) (s_c1 s) (s_bin s) (s_mtx s) (s_bctl s) (s_bqueue s) (s_bout s)
    (s_proxy s) (s_c4 s) (s_sent s) (s_results s) (s_orders s).
Definition set_s_fout {Mod} (x : fout_pc) (s : Sys Mod) : Sys Mod :=
  mkSys (s_fsend s) (s_fqueue s) x (s_c1 s) (s_bin s) (s_mtx s) (s_bctl s) (s_bqueue s) (s_bout s)
    (s_proxy s) (s_c4 s) (s_sent s) (s_results s) (s_orders s).
Definition set_s_c1 {Mod} (x : Conn) (s : Sys Mod) : Sys Mod :=
  mkSys (s_fsend s) (s_fqueue s) (s_fout s) x (s_bin s) (s_mtx s) (s_bctl s) (s_bqueue s) (s_bout
    s) (s_proxy s) (s_c4 s) (s_sent s) (s_results s) (s_orders s).
Definition set_s_bin {Mod} (x : bin_pc) (s : Sys Mod) : Sys Mod :=
  mkSys (s_fsend s) (s_fqueue s) (s_fout s) (s_c1 s) x (s_mtx s) (s_bctl s) (s_bqueue s) (s_bout
    s) (s_proxy s) (s_c4 s) (s_sent s) (s_results s) (s_orders s).
Definition set_s_mtx {Mod} (x : bool) (s : Sys Mod) : Sys Mod :=
  mkSys (s_fsend s) (s_fqueue s) (s_fout s) (s_c1 s) (s_bin s) x (s_bctl s) (s_bqueue s) (s_bout
    s) (s_proxy s) (s_c4 s) (s_sent s) (s_results s) (s_orders s).
Definition set_s_bctl {Mod} (x : bctl_pc) (s : Sys Mod) : Sys Mod :=
  mkSys (s_fsend s) (s_fqueue s) (s_fout s) (s_c1 s) (s_bin s) (s_mtx s) x (s_bqueue s) (s_bout s)
    (s_proxy s) (s_c4 s) (s_sent s) (s_results s) (s_orders s).
Definition set_s_bqueue {Mod} (x : list BatchedRequest) (s : Sys Mod) : Sys Mod :=
  mkSys (s_fsend s) (s_fqueue s) (s_fout s) (s_c1 s) (s_bin s) (s_mtx s) (s_bctl s) x (s_bout s)
    (s_proxy s) (s_c4 s) (s_sent s) (s_results s) (s_orders s).
Definition set_s_bout {Mod} (x : bout_pc) (s : Sys Mod) : Sys Mod :=
  mkSys (s_fsend s) (s_fqueue s) (s_fout s) (s_c1 s) (s_bin s) (s_mtx s) (s_bctl s) (s_bqueue s) x
    (s_proxy s) (s_c4 s) (s_sent s) (s_results s) (s_orders s).
Definition set_s_proxy {Mod} (x : Proxy Mod) (s : Sys Mod) : Sys Mod :=
  mkSys (s_fsend s) (s_fqueue s) (s_fout s) (s_c1 s) (s_bin s) (s_mtx s) (s_bctl s) (s_bqueue s)
    (s_bout s) x (s_c4 s) (s_sent s) (s_results s) (s_orders s).
Definition set_s_c4 {Mod} (x : Conn) (s : Sys Mod) : Sys Mod :=
  mkSys (s_fsend s) (s_fqueue s) (s_fout s) (s_c1 s) (s_bin s) (s_mtx s) (s_bctl s) (s_bqueue s)
    (s_bout s) (s_proxy s) x (s_sent s) (s_results s) (s_orders s).
Definition set_s_sent {Mod} (x : list FReq) (s : Sys Mod) : Sys Mod :=
  mkSys (s_fsend s) (s_fqueue s) (s_fout s) (s_c1 s) (s_bin s) (s_mtx s) (s_bctl s) (s_bqueue s)
    (s_bout s) (s_proxy s) (s_c4 s) x (s_results s) (s_orders s).
Definition set_s_results {Mod} (x : list (FReq * list Z)) (s : Sys Mod) : Sys Mod :=
  mkSys (s_fsend s) (s_fqueue s) (s_fout s) (s_c1 s) (s_bin s) (s_mtx s) (s_bctl s) (s_bqueue s)
    (s_bout s) (s_proxy s) (s_c4 s) (s_sent s) x (s_orders s).
Definition set_s_orders {Mod} (x : list ProxyMsg) (s : Sys Mod) : Sys Mod :=
  mkSys (s_fsend s) (s_fqueue s) (s_fout s) (s_c1 s) (s_bin s) (s_mtx s) (s_bctl s) (s_bqueue s)
    (s_bout s) (s_proxy s) (s_c4 s) (s_sent s) (s_results s) x.

Section DataPath.
Context {Mod : Type}.
Context (jit_load : string -> option Mod) (forward : Mod -> list Z -> option IValue).
Context (um_iter : gmap string Z -> list (string * Z)) (g_commonDir : string) (junk : Z).
(** [gInputDimMapping] of the backend. *)
Context (gInputDimMapping : gmap Z (list Z)).

Definition next (s : Sys Mod) : option (outcome (Sys Mod)) := Some (Done s).
Definition stuck : option (outcome (Sys Mod)) := None.

(** ** The frontend *)

(** [sendBatchedRequest] under [sendMtx]: the queue first, then the socket.  The
    receiver holds the mutex of the queue while it waits for a result. *)
Definition sendBatched (s : Sys Mod) : option (outcome (Sys Mod)) :=
  match s_fsend s with
  | FS_Idle => stuck
  | FS_Push r =>
      match s_fout s with
      | FO_Wait =>
          next (set_s_fsend (FS_Write (sendRequestToBackend (fr_rid r) (fr_jid r) (fr_tnum r)))
                  (set_s_fqueue (s_fqueue s ++ [r]) (set_s_sent (s_sent s ++ [r]) s)))
      | _ => stuck
      end
  | FS_Write [] => next (set_s_fsend FS_Idle s)
  | FS_Write (z :: togo) => next (set_s_fsend (FS_Write togo) (set_s_c1 (conn_write [z] (s_c1 s)) s))
  end.

(** Reading the number of dimensions and the dimensions.  At the end of the
    stream a variable keeps its value, and the first one has none. *)
Definition read_dims (st : SeqSt) (r : option Z) : outcome (SeqSt * option (list Z)) :=
  match r with
  | Some z => Done (seq_feed st z)
  | None =>
      match st with
      | SeqItems _ acc => match last acc with Some z => Done (seq_feed st z) | None => Stop Undefined end
      | SeqLen => Stop Undefined
      end
  end.
Definition check_batch (dims : list Z) (batch_size : Z) : outcome unit :=
  d ← deref (head dims); if (d =? batch_size)%Z then Done tt else Stop AssertionFailed.

(** [initOutput] up to the return of [recvResult]. *)
Definition recvResult (s : Sys Mod) : option (outcome (Sys Mod)) :=
  match s_fout s with
  | FO_Wait =>
      match s_fqueue s with
      | [] => stuck
      | r :: rest => next (set_s_fout (FO_Read r SeqLen) (set_s_fqueue rest s))
      end
  | FO_Read r st =>
      match conn_read (s_c4 s) with
      | None => stuck
      | Some (z, c) =>
          Some ('(st, o) ← read_dims st z;
                Done (set_s_fout (match o with Some dims => FO_Check r dims | None => FO_Read r st end)
                        (set_s_c4 c s)))
      end
  | FO_Check r dims =>
      Some (_ ← check_batch dims (fr_tnum r);
            Done (set_s_fout FO_Wait (set_s_results (s_results s ++ [(r, dims)]) s)))
  end.

(** ** The backend *)
Definition request_dims (jid batch_size : Z) : list Z :=
  batch_size :: map i64 (default [] (gInputDimMapping !! jid)).

(** Writing to a socket whose other end is closed raises [SIGPIPE]. *)
Definition write_in (z : Z) (s : Sys Mod) : outcome (Sys Mod) :=
  match x_in (s_proxy s) with
  | Some c => Done (set_s_proxy (set_x_in (Some (conn_write [z] c)) (s_proxy s)) s)
  | None => Stop Uncaught
  end.

(** The input thread: [recvBatchedTensor] in a loop.  [socket_receive] of the
    model never returns at the end of the stream; [socket_rxsize] returns 0 there. *)
Definition recvBatchedTensor (s : Sys Mod) : option (outcome (Sys Mod)) :=
  match s_bin s with
  | BI_Jid =>
      match conn_read (s_c1 s) with
      | Some (Some jid, c) => next (set_s_bin (BI_Rid jid) (set_s_c1 c s))
      | _ => stuck
      end
  | BI_Rid jid =>
      match conn_read (s_c1 s) with
      | Some (rid, c) => next (set_s_bin (BI_Size jid (default 0%Z rid)) (set_s_c1 c s))
      | None => stuck
      end
  | BI_Size jid rid =>
      match conn_read (s_c1 s) with
      | Some (size, c) => next (set_s_bin (BI_Lock (mkFReq jid rid (default 0%Z size))) (set_s_c1 c s))
      | None => stuck
      end
  | BI_Lock r =>
      if s_mtx s then stuck
      else next (set_s_bin (BI_Write (sendRequest (fr_rid r) (fr_jid r)
                                        (request_dims (fr_jid r) (fr_tnum r))) r) (set_s_mtx true s))
  | BI_Write [] r => next (set_s_bin (BI_Push r) (set_s_mtx false s))
  | BI_Write (z :: togo) r => Some (s' ← write_in z s; Done (set_s_bin (BI_Write togo r) s'))
  | BI_Push r => next (set_s_bin BI_Jid (set_s_bqueue (s_bqueue s ++ [mkBR (fr_rid r) (fr_tnum r)]) s))
  end.

(** The output thread: [receiveandsendOutput] for one batch after the other. *)
Definition receiveandsendOutput (s : Sys Mod) : option (outcome (Sys Mod)) :=
  match s_bout s with
  | BO_Wait =>
      match s_bqueue s with
      | [] => stuck
      | br :: rest => next (set_s_bout (BO_Read br SeqLen) (set_s_bqueue rest s))
      end
  | BO_Read br st =>
      match x_out (s_proxy s) with
      | None => stuck
      | Some c =>
          match conn_read c with
          | None => stuck
          | Some (z, c) =>
              Some ('(st, o) ← read_dims st z;
                    Done (set_s_bout (match o with Some dims => BO_Check br dims | None => BO_Read br st end)
                            (set_s_proxy (set_x_out (Some c) (s_proxy s)) s)))
          end
      end
  | BO_Check br dims =>
      Some (_ ← check_batch dims (br_batch_size br); Done (set_s_bout (BO_Write (sendOutput dims)) s))
  | BO_Write [] => next (set_s_bout BO_Wait s)
  | BO_Write (z :: togo) => next (set_s_bout (BO_Write togo) (set_s_c4 (conn_write [z] (s_c4 s)) s))
  | BO_Failed _ => stuck
  end.

(** The receive timeout of [out_fd]: a [read] that would block returns -1.  For
    the number of dimensions [receiveandsendOutput] fails, [sendBatchedOutput]
    fails, and [initBackendData] leaves its loop and closes the socket to the
    frontend.  For a dimension the result of [read] is not looked at, and [size]
    is what it was. *)
Definition read_expires (s : Sys Mod) : option (outcome (Sys Mod)) :=
  match s_bout s, x_out (s_proxy s) with
  | BO_Read br st, Some c =>
      match conn_read c with
      | Some _ => stuck
      | None =>
          match st with
          | SeqLen => next (set_s_bout (BO_Failed br) (set_s_c4 (mkConn (cn_data (s_c4 s)) true) s))
          | SeqItems _ _ =>
              Some ('(st, o) ← read_dims st None;
                    Done (set_s_bout (match o with Some dims => BO_Check br dims | None => BO_Read br st end) s))
          end
      end
  | _, _ => stuck
  end.
(** The output thread is between two [int]s of a message. *)
Definition inside_message (s : Sys Mod) : bool :=
  match s_bout s with BO_Read _ (SeqItems _ _) => true | _ => false end.

(** [makeProxyLoadModel] and [makeProxyUnloadModel] in the control thread. *)
Definition makeProxyOrder (s : Sys Mod) : option (outcome (Sys Mod)) :=
  match s_bctl s with
  | BC_Idle => stuck
  | BC_Mark m => Some (x ← mark LOADING (s_proxy s); Done (set_s_bctl (BC_Lock m) (set_s_proxy x s)))
  | BC_Lock m =>
      if s_mtx s then stuck else next (set_s_bctl (BC_Write (order_ints m)) (set_s_mtx true s))
  | BC_Write [] => next (set_s_bctl BC_Idle (set_s_mtx false s))
  | BC_Write (z :: togo) => Some (s' ← write_in z s; Done (set_s_bctl (BC_Write togo) s'))
  end.

(** ** The system *)
Inductive SysThread : Type := FSend | FOut | BIn | BOut | BCtl | InProxy (t : Thread).
Definition sys_step (t : SysThread) (s : Sys Mod) : option (outcome (Sys Mod)) :=
  match t with
  | FSend => sendBatched s | FOut => recvResult s
  | BIn => recvBatchedTensor s | BOut => receiveandsendOutput s | BCtl => makeProxyOrder s
  | InProxy t =>
      match proxy_step jit_load forward um_iter g_commonDir junk t (s_proxy s) with
      | Some o => Some (x ← o; Done (set_s_proxy x s))
      | None => stuck
      end
  end.

(** A new batch ([int] size), and an order of the frontend to load or unload. *)
Definition submit (r : FReq) (s : Sys Mod) : option (Sys Mod) :=
  match s_fsend s with
  | FS_Idle =>
      if ((INT_MIN <=? fr_tnum r) && (fr_tnum r <=? INT_MAX))%Z then Some (set_s_fsend (FS_Push r) s) else None
  | _ => None
  end.
Definition order (m : ProxyMsg) (s : Sys Mod) : option (Sys Mod) :=
  match s_bctl s, m with
  | BC_Idle, MsgClose => None
  | BC_Idle, _ => Some (set_s_bctl (BC_Mark m) (set_s_orders (s_orders s ++ [m]) s))
  | _, _ => None
  end.

(** One step.  [inside] says whether a read may also expire between two [int]s of
    a message. *)
Inductive sstep (inside : bool) : Sys Mod -> Sys Mod -> Prop :=
| sstep_thread t s s' : sys_step t s = Some (Done s') -> sstep inside s s'
| sstep_submit r s s' : submit r s = Some s' -> sstep inside s s'
| sstep_order m s s' : order m s = Some s' -> sstep inside s s'
| sstep_expire s s' :
    read_expires s = Some (Done s') -> inside || negb (inside_message s) = true -> sstep inside s s'.

(** The connections are made, the proxy has just been started. *)
Definition initial (x : Proxy Mod) : Sys Mod :=
  mkSys FS_Idle [] FO_Wait open_conn BI_Jid false BC_Idle [] BO_Wait x open_conn [] [] [].

(** ** Running a schedule *)
Inductive Act : Type := Run (t : SysThread) | Submit (r : FReq) | Order (m : ProxyMsg) | Expire.
Definition act (a : Act) (s : Sys Mod) : option (Sys Mod) :=
  match a with
  | Run t => match sys_step t s with Some (Done s') => Some s' | _ => None end
  | Submit r => submit r s
  | Order m => order m s
  | Expire => match read_expires s with Some (Done s') => Some s' | _ => None end
  end.
Fixpoint acts (l : list Act) (s : Sys Mod) : option (Sys Mod) :=
  match l with [] => Some s | a :: l' => s' ← act a s; acts l' s' end.

Definition threads : list SysThread :=
  [FSend; FOut; BIn; BOut; BCtl; InProxy Recv; InProxy Comp; InProxy Send; InProxy Load; InProxy Ctl; InProxy Main].
(** Every thread in turn, as long as one can move. *)
Definition round (s : Sys Mod) : Sys Mod :=
  foldl (fun s t => match sys_step t s with Some (Done s') => s' | _ => s end) s threads.
Definition quiet (s : Sys Mod) : bool :=
  forallb (fun t => match sys_step t s with None => true | Some _ => false end) threads.
Fixpoint rounds (n : nat) (s : Sys Mod) : Sys Mod :=
  match n with O => s | S n' => if quiet s then s else rounds n' (round s) end.

(** The reads of a schedule that expire do so between two messages. *)
Definition act_between (a : Act) (s : Sys Mod) : bool :=
  match a with Expire => negb (inside_message s) | _ => true end.

Lemma act_sstep a s s' : act a s = Some s' -> act_between a s = true -> sstep false s s'.
Proof.
  destruct a as [t|r|m|]; cbn; [|intros; by eapply sstep_submit|intros; by eapply sstep_order|].
  - destruct (sys_step t s) as [[s1|f]|] eqn:E; [|done|done]. intros [= <-] _. by eapply sstep_thread.
  - destruct (read_expires s) as [[s1|f]|] eqn:E; [|done|done]. intros [= <-] H. by eapply sstep_expire.
Qed.
Lemma round_steps s : rtc (sstep false) s (round s).
Proof.
  unfold round. generalize threads as l. intros l. revert s. induction l as [|t l IH]; intros s; cbn; [done|].
  destruct (sys_step t s) as [[s1|f]|] eqn:E; [|apply IH|apply IH].
  eapply rtc_l; [by eapply sstep_thread|apply IH].
Qed.
Lemma rounds_steps n s : rtc (sstep false) s (rounds n s).
Proof.
  revert s. induction n as [|n IH]; intros s; [done|]. cbn [rounds]. destruct (quiet s); [done|].
  etrans; [apply round_steps|apply IH].
Qed.
Lemma quiet_all s : quiet s = true -> forall t, sys_step t s = None.
Proof.
  intros H t. unfold quiet in H. rewrite forallb_forall in H.
  specialize (H t). destruct (sys_step t s); [|done].
  assert (Hin : In t threads) by (destruct t as [| | | | |[]]; cbn; tauto). by specialize (H Hin).
Qed.
(** Actions, each followed by some rounds; no read expires inside a message. *)
Fixpoint script (l : list (Act * nat)) (s : Sys Mod) : option (Sys Mod) :=
  match l with
  | [] => Some s
  | (a, n) :: l' => if act_between a s then s' ← act a s; script l' (rounds n s') else None
  end.
Lemma script_steps l s s' : script l s = Some s' -> rtc (sstep false) s s'.
Proof.
  revert s. induction l as [|[a n] l IH]; cbn; intros s; [by intros [= ->]|].
  destruct (act_between a s) eqn:Eb; [|done].
  destruct (act a s) as [s1|] eqn:E; [|done]. intros H. eapply rtc_l; [by eapply act_sstep|].
  etrans; [apply (rounds_steps n)|by apply IH].
Qed.
End DataPath.
