(* ===== verification/DataPathProps.v ===== *)
(** * Properties of the data path: results come back in order and fit their
    batches, and nothing is lost.

    What is under way on a connection is seen through its reader: [owed] says
    which messages the reader still gets out of it.  The invariant [Inv] lists,
    for every batch that went into the queue of the frontend and is not answered,
    where it or its result is, and for every order where it is or that it has been
    carried out.  Any read of a result by the backend may expire before its first
    [int] ([sstep false]). *)
From Stdlib Require Import ZArith SpecFloat String Lia.
From S2P Require Import Prelude CppFloat CppStd SchedData LoadBalancer AppModel Json SysState Control GlobalSetup Wire ProxyProc DataPath.

Section DataPathProps.
Context {Mod : Type}.
Context (jit_load : string -> option Mod) (forward : Mod -> list Z -> option IValue).
Context (um_iter : gmap string Z -> list (string * Z)) (g_commonDir : string) (junk : Z).
Context (gInputDimMapping : gmap Z (list Z)).

(** ** The readers as decoders *)

(** The input thread of the backend. *)
Definition bin_feed (pc : bin_pc) (z : Z) : bin_pc * option FReq :=
  match pc with
  | BI_Jid => (BI_Rid z, None)
  | BI_Rid jid => (BI_Size jid z, None)
  | BI_Size jid rid => (BI_Jid, Some (mkFReq jid rid z))
  | pc => (pc, None)
  end.
#[local] Instance bin_decoder : Decoder bin_pc FReq := { dec_start := BI_Jid; dec_feed := bin_feed }.
Definition bin_view (pc : bin_pc) : bin_pc :=
  match pc with BI_Lock _ | BI_Write _ _ | BI_Push _ => BI_Jid | pc => pc end.
Definition bin_got (pc : bin_pc) : list FReq := match pc with BI_Lock r => [r] | _ => [] end.
Definition bin_sent (pc : bin_pc) : list FReq :=
  match pc with BI_Write _ r | BI_Push r => [r] | _ => [] end.

Lemma frames_batch r : in_i32 (fr_tnum r) ->
  frames (sendRequestToBackend (fr_rid r) (fr_jid r) (fr_tnum r)) r.
Proof. intros H. unfold frames, owed, sendRequestToBackend. rewrite (i32_id _ H). by destruct r. Qed.

(** [recvInput]: a message is a request ([inl]) or an order ([inr]); the steps
    between the last read of a message and the next first one only deliver it. *)
Definition settle (pc : recv_pc) : recv_pc * option (QueueElem + QueueElem) :=
  match pc with
  | R_Start | R_Accept => (R_Dimlen, None)
  | R_Flag dimlen => (after_dimlen dimlen, None)
  | R_Received q | R_PushInput q => (R_Dimlen, Some (inl q))
  | R_PushCtl q => (R_Dimlen, Some (inr q))
  | pc => (pc, None)
  end.
Definition recv_feed (pc : recv_pc) (z : Z) : recv_pc * option (QueueElem + QueueElem) :=
  match recv_read junk pc (Some z) with Some pc' => settle pc' | None => (pc, None) end.
#[local] Instance recv_decoder : Decoder recv_pc (QueueElem + QueueElem) :=
  { dec_start := R_Dimlen; dec_feed := recv_feed }.

Definition run_elem (rid jobid : Z) (dims : list Z) : QueueElem := mkElem rid jobid 0 dims [] RUN.
Definition req_elem (r : FReq) : QueueElem :=
  run_elem (fr_rid r) (fr_jid r) (map i32 (request_dims gInputDimMapping (fr_jid r) (fr_tnum r))).

Lemma sendRequest_frames rid jobid dims : (1 <= length dims <= 4)%nat ->
  frames (sendRequest rid jobid dims) (inl (run_elem rid jobid (map i32 dims))).
Proof.
  intros Hlen. destruct dims as [|d [|d2 [|d3 [|d4 [|d5 dims]]]]]; cbn [length] in Hlen; [lia|done..|lia].
Qed.

Definition order_elem (m : ProxyMsg) : QueueElem :=
  match m with
  | MsgLoad id b => load_elem id b | MsgUnload id => unload_elem id | MsgClose => new_elem LOAD end.
Lemma order_frames m : m <> MsgClose -> frames (order_ints m) (inr (order_elem m)).
Proof. by destruct m. Qed.

Definition runs (l : list (QueueElem + QueueElem)) : list QueueElem :=
  omap (fun m => match m with inl q => Some q | inr _ => None end) l.
Lemma runs_app l1 l2 : runs (l1 ++ l2) = runs l1 ++ runs l2.
Proof. apply omap_app. Qed.
Definition ctls (l : list (QueueElem + QueueElem)) : list QueueElem :=
  omap (fun m => match m with inl _ => None | inr q => Some q end) l.
Lemma ctls_app l1 l2 : ctls (l1 ++ l2) = ctls l1 ++ ctls l2.
Proof. apply omap_app. Qed.
Lemma ctls_run l R q : ctls (l ++ R ++ [inl q]) = ctls (l ++ R).
Proof. rewrite (app_assoc l), (ctls_app (l ++ R)). apply app_nil_r. Qed.
Lemma ctls_order l R q : ctls (l ++ R ++ [inr q]) = ctls (l ++ R) ++ [q].
Proof. by rewrite (app_assoc l), (ctls_app (l ++ R)). Qed.

(** A closed input socket gives nothing any more. *)
Lemma owed_closed zs ms : ~ owed R_Close zs ms.
Proof.
  assert (H : forall zs, (feeds R_Close zs).1 = R_Close).
  { clear. induction zs as [|z zs IH]; [done|]. cbn. cbn in IH. by destruct (feeds R_Close zs). }
  intros He. specialize (H zs). unfold owed in He. by rewrite He in H.
Qed.

(** The two readers of results. *)
Definition bout_view (pc : bout_pc) : SeqSt := match pc with BO_Read _ st => st | _ => SeqLen end.
Definition bout_cur (pc : bout_pc) : list BatchedRequest :=
  match pc with BO_Read br _ | BO_Check br _ | BO_Failed br => [br] | _ => [] end.
Definition bout_failed (pc : bout_pc) : bool := match pc with BO_Failed _ => true | _ => false end.
Definition bout_done (pc : bout_pc) : list (list Z) := match pc with BO_Check _ d => [d] | _ => [] end.
Definition bout_togo (pc : bout_pc) : list Z := match pc with BO_Write l => l | _ => [] end.
Definition fout_view (pc : fout_pc) : SeqSt := match pc with FO_Read _ st => st | _ => SeqLen end.
Definition fout_cur (pc : fout_pc) : list FReq :=
  match pc with FO_Read r _ | FO_Check r _ => [r] | FO_Wait => [] end.
Definition fout_done (pc : fout_pc) : list (list Z) := match pc with FO_Check _ d => [d] | _ => [] end.

(** What the writers still have to write of their message. *)
Definition fsend_togo (pc : fsend_pc) : list Z := match pc with FS_Write l => l | _ => [] end.
Definition bin_togo (pc : bin_pc) : list Z := match pc with BI_Write l _ => l | _ => [] end.
Definition bctl_togo (pc : bctl_pc) : list Z := match pc with BC_Write l => l | _ => [] end.
Definition send_togo (pc : send_pc) : list Z := match pc with O_Write l => l | _ => [] end.
Definition bin_writes (pc : bin_pc) : bool := match pc with BI_Write _ _ => true | _ => false end.
Definition bctl_writes (pc : bctl_pc) : bool := match pc with BC_Write _ => true | _ => false end.

Definition bctl_pending (pc : bctl_pc) : list ProxyMsg :=
  match pc with BC_Mark m | BC_Lock m => [m] | _ => [] end.

Definition comp_cur (pc : comp_pc) : list QueueElem := match pc with C_Compute q => [q] | _ => [] end.
Definition comp_done (pc : comp_pc) : list QueueElem := match pc with C_Push q => [q] | _ => [] end.
Definition wire (q : QueueElem) : list Z := map i32 (q_output q).

(** ** What the answer to a batch is *)

(** A model that was loaded under the identifier: from the file that had it in the
    table of files, which is the one made at the start ([b0] is the proxy then), but
    for the two names that [compute] may have inserted. *)
Definition files_from (files0 files : gmap string Z) : Prop :=
  files0 ⊆ files /\ forall name id, files !! name = Some id -> files0 !! name = None ->
    id = 0%Z /\ (name = "ssd-mobilenetv1.pt" \/ name = "bert.pt").
Definition loads (b0 : Proxy Mod) (id : Z) (m : Mod) : Prop :=
  exists files, files_from (x_files b0) files /\
    jit_load (getDirToFile um_iter g_commonDir files id) = Some m.

(** [answers b0 r d]: [d] are the sizes of the output of the model of batch [r]
    on an input of its size, and their first is the size of the batch. *)
Definition answers (b0 : Proxy Mod) (r : FReq) (d : list Z) : Prop :=
  head d = Some (fr_tnum r) /\
  exists m iv files out files', loads b0 (fr_jid r) m /\ files_from (x_files b0) files /\
    let shape := fr_tnum r :: map i64 (default [] (x_dims b0 !! fr_jid r)) in
    forward m shape = Some iv /\ select_output files (fr_jid r) shape iv = Done (out, files') /\
    d = map i32 out.

(** ** Which models are loaded: the list and the table of the proxy are those whose
    last order is to load them. *)
Definition holds_models (l : list ProxyMsg) (x : Proxy Mod) : Prop :=
  NoDup (x_loaded x) /\
  forall id, (id ∈ x_loaded x <-> wanted l id = true) /\ (is_Some (x_models x !! id) <-> wanted l id = true).

(** ** A proxy that is not told to exit *)
Abbreviation pstep := (proxy_step jit_load forward um_iter g_commonDir junk).
Abbreviation Px := (Proxy Mod).

Lemma setProxyState_get st d p m m' u : setProxyState st d p m = Done (u, m') ->
  shm_getProxyState d p m' = Done (Some st, m').
Proof.
  unfold setProxyState, setShMem, shm_getProxyState, getShMem. mred.
  destruct (shmem_index d p) as [i|]; [|done]. destruct (at_index m i) as [v|] eqn:E; [|done].
  intros [= <- <-]. unfold at_index in *. destruct (i <? 0)%Z; [done|].
  destruct (m !! Z.to_nat i) eqn:El; [|done]. apply lookup_lt_Some in El.
  rewrite list_lookup_insert_eq by done. by destruct st.
Qed.
Lemma mark_inv st (x x' : Px) : mark st x = Done x' ->
  exists m, x' = set_x_shm m x /\ own_state x' = Done st.
Proof.
  unfold mark. destruct (setProxyState st (x_dev x) (x_part x) (x_shm x)) as [[u m]|] eqn:E; [|done].
  intros [= <-]. exists m. split; [done|]. apply setProxyState_get in E. unfold own_state. cbn. by rewrite E.
Qed.

Record Alive (b0 x : Px) : Prop := {
  al_exit : x_exit x = false;
  al_state : exists st, own_state x = Done st /\ st <> EXITING;
  al_ctl : x_ctl x = K_Poll;
  al_main : x_main x = M_JoinControl;
  al_threads : x_comp x <> C_Done /\ x_load x <> L_Done /\ x_recv x <> R_Done /\
    x_send x <> O_Close /\ x_send x <> O_Done;
  al_input : x_recv x = R_Start \/ x_ready_input x = true;
  al_output : x_send x = O_Start \/ x_ready_output x = true;
  al_compute : x_comp x = C_Init \/ x_ready_compute x = true;
  al_dims : x_dims x = x_dims b0;
  al_files : files_from (x_files b0) (x_files x);
  al_models : forall id m, x_models x !! id = Some m -> loads b0 id m }.

Ltac done_inv := repeat match goal with H : Some (Done _) = Some (Done _) |- _ => injection H as <- end.

Lemma after_dimlen_not d : after_dimlen d <> R_Done.
Proof. unfold after_dimlen. by repeat case_match. Qed.
Lemma recv_read_not pc r pc' : recv_read junk pc r = Some pc' -> pc' <> R_Done.
Proof.
  unfold recv_read, after_job, after_dim. intros H. repeat case_match; by simplify_eq.
Qed.

Lemma alive_recv b0 (x x' : Px) : recvInput junk x = Some (Done x') -> Alive b0 x -> Alive b0 x'.
Proof.
  intros H [Hex [st Hst] Hc Hm (H1 & H2 & H3 & H4 & H5) Hi Ho Hcp Hd Hfi Hmo].
  unfold recvInput, goes, blocks in H. destruct (x_recv x) eqn:Er;
    repeat case_match; simplify_eq; constructor; cbn; eauto; try done;
    try (right; done); try (right; by destruct Hi).
  all: repeat split; try done; try (by eapply recv_read_not); try (by apply after_dimlen_not).
Qed.

(** [compute] inserts no other names. *)
Lemma files_touch files0 files name : name = "ssd-mobilenetv1.pt"%string \/ name = "bert.pt"%string ->
  files_from files0 files -> files_from files0 (touch_file name files).
Proof.
  intros Hn [Hsub Hnew]. unfold touch_file. destruct (files !! name) eqn:E; [done|]. split.
  - etrans; [exact Hsub|by apply insert_subseteq].
  - intros name' id. destruct (decide (name' = name)) as [->|Hne].
    + rewrite lookup_insert_eq. by intros [= <-] _.
    + rewrite lookup_insert_ne by done. apply Hnew.
Qed.
Lemma files_output files0 files job input iv out files' :
  select_output files job input iv = Done (out, files') ->
  files_from files0 files -> files_from files0 files'.
Proof.
  unfold select_output. intros H Hf. destruct iv as [sizes|elements|]; [by simplify_eq| |done].
  assert (H1 := files_touch files0 files "ssd-mobilenetv1.pt" ltac:(by left) Hf). set (f1 := touch_file _ _) in *.
  assert (H2 := files_touch files0 f1 "bert.pt" ltac:(by right) H1). set (f2 := touch_file _ f1) in *. clearbody f1 f2.
  mred. repeat case_match; by simplify_eq.
Qed.
Lemma files_compute files0 m dims files q out files' :
  compute_output forward m dims files q = Done (out, files') ->
  files_from files0 files -> files_from files0 files'.
Proof.
  unfold compute_output. intros H Hf. mred. repeat (case_match; try done). simplify_eq.
  by eapply files_output.
Qed.

Lemma alive_compute b0 (x x' : Px) : compute forward x = Some (Done x') -> Alive b0 x -> Alive b0 x'.
Proof.
  intros H [Hex [st Hst] Hc Hm (H1 & H2 & H3 & H4 & H5) Hi Ho Hcp Hd Hfi Hmo].
  unfold compute, goes, blocks in H. rewrite Hex in H. destruct (x_comp x) eqn:Er.
  3: { destruct (mark RUNNING x) as [x1|] eqn:E; [|done]. mred. simplify_eq.
       apply mark_inv in E as (m & -> & Hs). constructor; cbn; eauto; try done;
         try (by exists RUNNING); try (right; by destruct Hcp). }
  all: mred; repeat case_match; simplify_eq; constructor; cbn; eauto; try done;
    try (right; done); try (right; by destruct Hcp).
  all: try congruence; try (by repeat split); try (by eapply files_compute).
Qed.
Lemma alive_send b0 (x x' : Px) : send_output x = Some (Done x') -> Alive b0 x -> Alive b0 x'.
Proof.
  intros H [Hex [st Hst] Hc Hm (H1 & H2 & H3 & H4 & H5) Hi Ho Hcp Hd Hfi Hmo].
  unfold send_output, goes, blocks in H. rewrite Hex in H.
  destruct (x_send x) eqn:Er; repeat case_match; simplify_eq; constructor; cbn; eauto; try done;
    try (right; done); try (right; by destruct Ho).
  all: try (by repeat split); try (right; by destruct Ho).
Qed.
Lemma alive_load b0 (x x' : Px) : loadControl jit_load forward um_iter g_commonDir x = Some (Done x') ->
  Alive b0 x -> Alive b0 x'.
Proof.
  intros H [Hex [st [Hst Hne]] Hc Hm (H1 & H2 & H3 & H4 & H5) Hi Ho Hcp Hd Hfi Hmo].
  unfold loadControl, goes, blocks in H. rewrite Hex in H. destruct (x_load x) eqn:Er; [| | |done].
  - destruct (x_ControlQueue x) as [|q rest]; [done|]. destruct (q_act q).
    + unfold loadModel, warmupModel, throws in H. mred. repeat case_match; simplify_eq;
        constructor; cbn; eauto; try done. intros id m. destruct (decide (id = q_job_ID q)) as [->|Hid].
      * rewrite lookup_insert_eq. intros [= <-]. by eexists.
      * rewrite lookup_insert_ne by done. apply Hmo.
    + mred. simplify_eq. constructor; cbn; eauto; try done.
    + mred. unfold unloadModel in H. repeat case_match; simplify_eq; constructor; cbn; eauto; try done.
      intros id m Hl. apply lookup_delete_Some in Hl as [_ Hl]. by eapply Hmo.
  - destruct (x_ControlQueue x); [rewrite Hst in H; mred|]; simplify_eq;
      constructor; cbn; eauto; try done; repeat split; try done; try (by case_match).
  - destruct (mark RUNNING x) as [x1|] eqn:E; [|done]. mred. simplify_eq.
    apply mark_inv in E as (m & -> & Hs). constructor; cbn; eauto; try done; try (by exists RUNNING).
Qed.

(** The other end of a connection. *)
Lemma alive_set_in b0 c (x : Px) : Alive b0 x -> Alive b0 (set_x_in c x).
Proof. by intros []. Qed.
Lemma alive_set_out b0 c (x : Px) : Alive b0 x -> Alive b0 (set_x_out c x).
Proof. by intros []. Qed.

(** The control thread and [main] do not move. *)
Lemma alive_ctl b0 (x : Px) : Alive b0 x -> control x = None /\ main_thread x = None.
Proof.
  intros [Hex [st [Hst Hne]] Hc Hm _ _ _ _ _ _ _]. unfold control, main_thread, blocks. rewrite Hc, Hm, Hst.
  by rewrite decide_False.
Qed.

Lemma alive_step b0 t (x x' : Px) : pstep t x = Some (Done x') -> Alive b0 x -> Alive b0 x'.
Proof.
  intros H Ha. pose proof (alive_ctl b0 x Ha) as [Hc Hm]. unfold proxy_step in H.
  rewrite (al_main _ _ Ha) in H. destruct t.
  - by eapply alive_recv.
  - by eapply alive_compute.
  - by eapply alive_send.
  - by eapply alive_load.
  - by rewrite Hc in H.
  - by rewrite Hm in H.
Qed.

Lemma boot_alive config dev part shm c1 c2 (x : Px) :
  boot_proxy config dev part shm c1 c2 = Done x -> Alive x x.
Proof.
  unfold boot_proxy. destruct (setProxyState BOOTING dev part shm) as [[u m]|] eqn:E; [|done]. mred.
  destruct (readProxyDims config) as [[[ok names] dims]|]; [|done]. mred.
  destruct (readInputTypesJSONFile config ∅ ∅) as [?|]; [|done]. intros [= <-].
  apply setProxyState_get in E. constructor; cbn; auto; try done.
  - exists BOOTING. split; [|done]. unfold own_state. cbn. by rewrite E.
  - split; [done|]. intros name id ->. done.
Qed.

(** ** The invariant

    [A]: batches whose result has passed the check of the backend; [G]: batches
    that were computed; [P]: batches the backend has passed on to the proxy; [R1]:
    batches the backend still gets.  [R2], [R3] and [R4] are the messages the
    proxy, the backend and the frontend still get on the other connections. *)
Definition br_of (r : FReq) : BatchedRequest := mkBR (fr_rid r) (fr_tnum r).
Definition sized (r : FReq) : Prop := in_i32 (fr_tnum r).

Record Inv (b0 : Px) (s : Sys Mod) (A G P R1 : list FReq)
    (R2 : list (QueueElem + QueueElem)) (R3 R4 : list (list Z)) : Prop := {
  iv_c1 : owed (bin_view (s_bin s)) (cn_data (s_c1 s) ++ fsend_togo (s_fsend s)) R1;
  iv_in : exists c, x_in (s_proxy s) = Some c /\ cn_eof c = false /\
    owed (settle (x_recv (s_proxy s))).1 (cn_data c ++ bin_togo (s_bin s) ++ bctl_togo (s_bctl s)) R2;
  iv_out : exists c, x_out (s_proxy s) = Some c /\ cn_eof c = false /\
    owed (bout_view (s_bout s)) (cn_data c ++ send_togo (x_send (s_proxy s))) R3;
  iv_c4 : owed (fout_view (s_fout s)) (cn_data (s_c4 s) ++ bout_togo (s_bout s)) R4;
  iv_eof : cn_eof (s_c1 s) = false /\ cn_eof (s_c4 s) = bout_failed (s_bout s);
  iv_mtx : s_mtx s = bin_writes (s_bin s) || bctl_writes (s_bctl s) /\
    bin_writes (s_bin s) && bctl_writes (s_bctl s) = false;
  iv_front : fout_cur (s_fout s) ++ s_fqueue s = A ++ G ++ P ++ bin_got (s_bin s) ++ R1;
  iv_A : Forall2 (answers b0) A (fout_done (s_fout s) ++ R4);
  iv_back : bout_cur (s_bout s) ++ s_bqueue s ++ map br_of (bin_sent (s_bin s)) = map br_of (G ++ P);
  iv_G : Forall2 (answers b0) G
    (bout_done (s_bout s) ++ R3 ++
     map wire (x_OutputQueue (s_proxy s) ++ comp_done (x_comp (s_proxy s))));
  iv_P : map req_elem P =
    comp_cur (x_comp (s_proxy s)) ++ x_InputQueue (s_proxy s) ++
    runs (opt_list (settle (x_recv (s_proxy s))).2 ++ R2);
  iv_sent : s_sent s = map fst (s_results s) ++ A ++ G ++ P ++ bin_got (s_bin s) ++ R1;
  iv_results : Forall (fun e => answers b0 e.1 e.2) (s_results s);
  iv_range : Forall sized (s_sent s);
  iv_push : match s_fsend s with FS_Push r => sized r | _ => True end;
  iv_order : match s_bctl s with BC_Mark m | BC_Lock m => m <> MsgClose | _ => True end;
  iv_alive : Alive b0 (s_proxy s);
  iv_orders : exists D Q, s_orders s = D ++ Q /\ Forall (fun m => m <> MsgClose) Q /\
    map order_elem Q = x_ControlQueue (s_proxy s) ++
      ctls (opt_list (settle (x_recv (s_proxy s))).2 ++ R2) ++ map order_elem (bctl_pending (s_bctl s)) /\
    holds_models D (s_proxy s) }.
Definition Good b0 (s : Sys Mod) : Prop := exists A G P R1 R2 R3 R4, Inv b0 s A G P R1 R2 R3 R4.

#[local] Arguments sendRequest : simpl never.
#[local] Arguments sendRequestToBackend : simpl never.
#[local] Arguments sendOutput : simpl never.
#[local] Arguments order_ints : simpl never.
#[local] Arguments output_ints : simpl never.
Ltac inv_intro s H :=
  destruct s as [fs fq fo c1 bi mtx bc bq bo x c4 sent res ords]; destruct H as [Hc1 Hin Hout Hc4 [He1 He4] [Hm Hm'] Hf HA Hb HG HP Hs Hr Hrg Hpu Hor Hal Hod];
  cbn in *.
Ltac inv_ok := constructor; cbn; try eassumption; try done; try (by split).

Lemma conn_read_data (c : Conn) : cn_eof c = false ->
  conn_read c = match cn_data c with [] => None | z :: zs => Some (Some z, mkConn zs false) end.
Proof. intros H. unfold conn_read. by rewrite H. Qed.

(** *** The frontend *)
Lemma step_sendBatched b0 s A G P R1 R2 R3 R4 o : Inv b0 s A G P R1 R2 R3 R4 ->
  sendBatched s = Some o -> exists s', o = Done s' /\ Good b0 s'.
Proof.
  intros HI Hst. inv_intro s HI. unfold sendBatched, next, stuck in Hst. cbn in Hst.
  destruct fs as [|r|[|z togo]]; [done|..].
  - destruct fo; [|done..]. simplify_eq. eexists. split; [done|].
    exists A, G, P, (R1 ++ [r]), R2, R3, R4. inv_ok.
    + cbn in Hc1. rewrite app_nil_r in Hc1. apply owed_write; [done|by apply frames_batch].
    + cbn in Hf. rewrite Hf. by rewrite !app_assoc.
    + by rewrite !app_assoc.
    + apply Forall_app. by split; [|constructor].
  - simplify_eq. eexists. split; [done|]. exists A, G, P, R1, R2, R3, R4. inv_ok.
  - simplify_eq. eexists. split; [done|]. exists A, G, P, R1, R2, R3, R4. inv_ok.
    cbn in Hc1. by rewrite <- app_assoc.
Qed.

(** Reading results: the next [int] is read by the decoder. *)
Lemma read_step st z zs R : owed st (z :: zs) R ->
  exists st' o R', seq_feed st z = (st', o) /\ R = opt_list o ++ R' /\
    owed (match o with Some _ => SeqLen | None => st' end) zs R'.
Proof.
  intros H. apply owed_read in H as (R' & H & ->). cbn in H |- *. destruct (seq_feed st z) as [st' o] eqn:E.
  exists st', o, R'. split; [done|]. split; [done|]. cbn in H.
  destruct o as [ds|]; [|done]. by apply seq_feed_some in E as ->.
Qed.

Lemma answers_check b0 r d : answers b0 r d -> check_batch d (fr_tnum r) = Done tt.
Proof.
  intros [Hh _]. unfold check_batch. rewrite Hh. cbn. by rewrite Z.eqb_refl.
Qed.

(** The frontend waits for a result that no longer comes: the connection is closed
    and read to its end. *)
Definition answer_lost (s : Sys Mod) : Prop :=
  exists br r, s_bout s = BO_Failed br /\ s_fout s = FO_Read r SeqLen /\ cn_data (s_c4 s) = [].

Lemma step_recvResult b0 s A G P R1 R2 R3 R4 o : Inv b0 s A G P R1 R2 R3 R4 ->
  recvResult s = Some o ->
  (exists s', o = Done s' /\ Good b0 s') \/ (o = Stop Undefined /\ answer_lost s).
Proof.
  intros HI Hst. inv_intro s HI. unfold recvResult, next, stuck in Hst. cbn in Hst.
  destruct fo as [|r st|r d].
  - destruct fq as [|r rest]; [done|]. simplify_eq. left. eexists. split; [done|].
    exists A, G, P, R1, R2, R3, R4. inv_ok.
  - destruct c4 as [[|z zs] e4]; cbn in *.
    + destruct e4; [|done]. destruct bo as [| | | |br]; try done. cbn in Hc4.
      apply owed_nil_inv in Hc4 as [-> ->]. cbn in Hst. simplify_eq. right. split; [done|]. by exists br, r.
    + apply read_step in Hc4 as (st' & od & R' & Hrd & -> & Hc4). rewrite Hrd in Hst. mred. simplify_eq.
      left. eexists. split; [done|]. exists A, G, P, R1, R2, R3, R'. inv_ok; by destruct od.
  - left. cbn in HA. apply Forall2_cons_inv_r in HA as (a & A' & Ha & HA & ->). cbn in Hf.
    injection Hf as -> Hf. rewrite (answers_check b0 _ _ Ha) in Hst. mred. simplify_eq. eexists. split; [done|].
    exists A', G, P, R1, R2, R3, R4. inv_ok.
    + rewrite map_app. cbn. rewrite <- app_assoc. done.
    + apply Forall_app. by split; [|constructor].
Qed.

(** *** The backend *)
Lemma request_frames r :
  (forall jid, (length (default [] (gInputDimMapping !! jid)) <= 3)%nat) ->
  frames (sendRequest (fr_rid r) (fr_jid r) (request_dims gInputDimMapping (fr_jid r) (fr_tnum r)))
    (inl (req_elem r)).
Proof.
  intros Hrank. apply sendRequest_frames. unfold request_dims. cbn [length]. rewrite length_map.
  specialize (Hrank (fr_jid r)). lia.
Qed.

Lemma step_recvBatched b0 s A G P R1 R2 R3 R4 o :
  (forall jid, (length (default [] (gInputDimMapping !! jid)) <= 3)%nat) ->
  Inv b0 s A G P R1 R2 R3 R4 ->
  recvBatchedTensor gInputDimMapping s = Some o -> exists s', o = Done s' /\ Good b0 s'.
Proof.
  intros Hrank HI Hst. inv_intro s HI. unfold recvBatchedTensor, next, stuck, write_in in Hst. cbn in Hst.
  destruct bi as [|jid|jid rid|r|[|z togo] r|r]; cbn in *.
  1-3: rewrite conn_read_data in Hst by done; destruct c1 as [[|z zs] e1]; [done|]; cbn in *;
    apply owed_read in Hc1 as (R1' & Hc1 & ->); simplify_eq; eexists; (split; [done|]);
    exists A, G, P, R1', R2, R3, R4; inv_ok.
  - destruct mtx; [done|]. simplify_eq. eexists. split; [done|]. symmetry in Hm.
    exists A, G, (P ++ [r]), R1, (R2 ++ [inl (req_elem r)]), R3, R4. inv_ok.
    + destruct Hin as (c & Hx & He & Hc). exists c. split; [done|]. split; [done|].
      assert (Hbc : bctl_togo bc = []) by (by destruct bc).
      rewrite Hbc, app_nil_r in *. apply owed_write; [done|]. by apply request_frames.
    + rewrite Hf. by rewrite <- !app_assoc.
    + rewrite app_nil_r in Hb. rewrite (app_assoc G), map_app, <- Hb. by rewrite <- app_assoc.
    + rewrite map_app, HP. rewrite (app_assoc (opt_list _)), (runs_app (_ ++ R2)). by rewrite !app_assoc.
    + by rewrite <- !app_assoc.
    + by rewrite ctls_run.
  - simplify_eq. eexists. split; [done|]. exists A, G, P, R1, R2, R3, R4. inv_ok.
  - destruct Hin as (c & Hx & He & Hc). rewrite Hx in Hst. mred. simplify_eq. eexists. split; [done|].
    exists A, G, P, R1, R2, R3, R4. inv_ok.
    + eexists. split; [done|]. split; [done|]. cbn. by rewrite <- app_assoc.
    + by apply alive_set_in.
  - simplify_eq. eexists. split; [done|]. exists A, G, P, R1, R2, R3, R4. inv_ok.
    rewrite <- Hb. cbn. by rewrite app_nil_r.
Qed.

Lemma step_order b0 s A G P R1 R2 R3 R4 s' : Inv b0 s A G P R1 R2 R3 R4 ->
  makeProxyOrder s = Some (Done s') -> Good b0 s'.
Proof.
  intros HI Hst. inv_intro s HI. unfold makeProxyOrder, next, stuck, write_in in Hst. cbn in Hst.
  destruct bc as [|m|m|[|z togo]]; cbn in *; [done|..].
  - destruct (mark LOADING x) as [x1|] eqn:E; mred; [|done]. simplify_eq.
    apply mark_inv in E as (sm & -> & Hown). exists A, G, P, R1, R2, R3, R4. inv_ok.
    destruct Hal. constructor; cbn; eauto.
  - destruct mtx; [done|]. simplify_eq. exists A, G, P, R1, (R2 ++ [inr (order_elem m)]), R3, R4.
    rewrite orb_false_r in Hm. rewrite <- Hm in *. inv_ok.
    + destruct Hin as (c & Hx & He & Hc). exists c. split; [done|]. split; [done|].
      assert (Hbi : bin_togo bi = []) by (by destruct bi).
      rewrite Hbi, app_nil_r in *. apply owed_write; [done|]. by apply order_frames.
    + by rewrite <- Hm.
    + rewrite HP, (app_assoc (opt_list _)), (runs_app (_ ++ R2)). cbn. by rewrite app_nil_r.
    + by rewrite ctls_order, app_nil_r.
  - simplify_eq. exists A, G, P, R1, R2, R3, R4. rewrite andb_true_r in Hm'. inv_ok.
    by rewrite Hm'.
  - destruct Hin as (c & Hx & He & Hc). rewrite Hx in Hst. mred. simplify_eq.
    exists A, G, P, R1, R2, R3, R4. inv_ok.
    + eexists. split; [done|]. split; [done|]. cbn. rewrite andb_true_r in Hm'.
      assert (Hbi : bin_togo bi = []) by (by destruct bi). rewrite Hbi in *. cbn in Hc |- *.
      by rewrite <- app_assoc.
    + by apply alive_set_in.
Qed.

Lemma step_sendBack b0 s A G P R1 R2 R3 R4 o : Inv b0 s A G P R1 R2 R3 R4 ->
  receiveandsendOutput s = Some o -> exists s', o = Done s' /\ Good b0 s'.
Proof.
  intros HI Hst. inv_intro s HI. unfold receiveandsendOutput, next, stuck in Hst. cbn in Hst.
  destruct bo as [|br st|br d|[|z togo]|br]; cbn in *; [..|done].
  - destruct bq as [|br rest]; [done|]. simplify_eq. eexists. split; [done|].
    exists A, G, P, R1, R2, R3, R4. inv_ok.
  - destruct Hout as (c & Hx & He & Hc). rewrite Hx, conn_read_data in Hst by done.
    destruct c as [[|z zs] e]; [done|]. cbn in *.
    apply read_step in Hc as (st' & od & R' & Hrd & -> & Hc). rewrite Hrd in Hst. mred. simplify_eq.
    eexists. split; [done|]. exists A, G, P, R1, R2, R', R4. inv_ok; [..|by apply alive_set_out].
    + destruct od; eexists; done.
    + by destruct od.
    + by destruct od.
    + by destruct od.
    + by destruct od.
  - apply Forall2_cons_inv_r in HG as (g & G' & Hg & HG & ->). cbn in Hb. injection Hb as -> Hb.
    cbn [br_of br_batch_size] in Hst. rewrite (answers_check b0 _ _ Hg) in Hst. mred. simplify_eq. eexists. split; [done|].
    exists (A ++ [g]), G', P, R1, R2, R3, (R4 ++ [d]). inv_ok.
    + rewrite app_nil_r in Hc4. apply owed_write; [done|]. apply seq_frames.
    + rewrite Hf. by rewrite <- !app_assoc.
    + rewrite app_assoc. apply Forall2_app; [done|]. by constructor.
    + by rewrite <- !app_assoc.
  - simplify_eq. eexists. split; [done|]. exists A, G, P, R1, R2, R3, R4. inv_ok.
  - simplify_eq. eexists. split; [done|]. exists A, G, P, R1, R2, R3, R4. inv_ok.
    by rewrite <- app_assoc.
Qed.

Lemma step_expire b0 s A G P R1 R2 R3 R4 s' : Inv b0 s A G P R1 R2 R3 R4 ->
  inside_message s = false -> read_expires s = Some (Done s') -> Good b0 s'.
Proof.
  intros HI Hi Hst. inv_intro s HI. unfold inside_message, read_expires, next, stuck in *. cbn in *.
  destruct bo as [|br [|n acc]| | |]; try done. destruct Hout as (c & Hx & Hout).
  rewrite Hx in Hst. destruct (conn_read c); [done|]. simplify_eq. exists A, G, P, R1, R2, R3, R4. inv_ok.
  by exists c.
Qed.

(** *** The proxy *)
Lemma settle_after d : settle (after_dimlen d) = (after_dimlen d, None).
Proof. unfold after_dimlen. by repeat case_match. Qed.

Lemma recv_read_settled pc r pc' : recv_read junk pc r = Some pc' -> settle pc = (pc, None).
Proof. by destruct pc. Qed.

Lemma step_recv b0 s A G P R1 R2 R3 R4 x' : Inv b0 s A G P R1 R2 R3 R4 ->
  recvInput junk (s_proxy s) = Some (Done x') -> Good b0 (set_s_proxy x' s).
Proof.
  intros HI Hst. inv_intro s HI. pose proof (alive_recv _ _ _ Hst Hal) as Hal'.
  unfold recvInput, goes, blocks in Hst. destruct Hin as (c & Hx & He & Hc). rewrite Hx in Hst.
  destruct (x_recv x) eqn:Er; cbn in *.
  all: try (rewrite conn_read_data in Hst by done; destruct c as [[|z zs] e]; [done|]; cbn in *; simplify_eq;
    apply owed_read in Hc as (R2' & Hc & ->); exists A, G, P, R1, R2', R3, R4; inv_ok; by exists (mkConn zs false)).
  - simplify_eq. exists A, G, P, R1, R2, R3, R4. inv_ok. by exists c.
  - simplify_eq. exists A, G, P, R1, R2, R3, R4. inv_ok. by exists c.
  - simplify_eq. exists A, G, P, R1, R2, R3, R4. inv_ok; rewrite settle_after; [by exists c|done..].
  - simplify_eq. exists A, G, P, R1, R2, R3, R4. inv_ok. by exists c.
  - simplify_eq. exists A, G, P, R1, R2, R3, R4. inv_ok; [by exists c|].
    rewrite HP. by rewrite <- !app_assoc.
  - destruct (load_holds_lock x); [done|]. simplify_eq. exists A, G, P, R1, R2, R3, R4. inv_ok; [by exists c|].
    by rewrite <- app_assoc.
  - by apply owed_closed in Hc.
  - done.
Qed.

Lemma compute_answers b0 (x : Px) p out files : sized p -> Alive b0 x ->
  compute_output forward (x_models x !! q_job_ID (req_elem p)) (x_dims x) (x_files x) (req_elem p) =
    Done (out, files) -> answers b0 p (map i32 out).
Proof.
  intros Hp Hal. rewrite (al_dims _ _ Hal). unfold compute_output, req_elem, run_elem, request_dims. cbn.
  rewrite (i32_id _ Hp). unfold getRandInput.
  destruct (forallb _ _); [|done]. mred. unfold run_model.
  destruct (x_models x !! fr_jid p) as [m|] eqn:Em; [|done]. cbn. unfold throws.
  destruct (forward m _) as [iv|] eqn:Ef; [|done].
  destruct (select_output (x_files x) (fr_jid p) _ iv) as [[o fs']|] eqn:Es; [|done]. cbn.
  destruct o as [|o0 o]; [done|]. cbn. rewrite (i32_id _ Hp).
  destruct (fr_tnum p =? i32 o0)%Z eqn:E; [|done]. intros [= <- <-]. apply Z.eqb_eq in E.
  split; [cbn; by rewrite E|]. exists m, iv, (x_files x), (o0 :: o), fs'.
  split; [by apply (al_models _ _ Hal)|]. split; [apply (al_files _ _ Hal)|done].
Qed.

Lemma step_compute b0 s A G P R1 R2 R3 R4 x' : Inv b0 s A G P R1 R2 R3 R4 ->
  compute forward (s_proxy s) = Some (Done x') -> Good b0 (set_s_proxy x' s).
Proof.
  intros HI Hst. inv_intro s HI. pose proof (alive_compute _ _ _ Hst Hal) as Hal'.
  unfold compute, goes, blocks in Hst. rewrite (al_exit _ _ Hal) in Hst.
  destruct (x_comp x) as [| | | |q|q| |] eqn:Ec; cbn in *; [..|done].
  - simplify_eq. exists A, G, P, R1, R2, R3, R4. inv_ok.
  - destruct (_ && _ && _); [|done]. simplify_eq. exists A, G, P, R1, R2, R3, R4. inv_ok.
  - destruct (mark RUNNING x) as [x1|] eqn:E; mred; [|done]. simplify_eq.
    apply mark_inv in E as (sm & -> & _). exists A, G, P, R1, R2, R3, R4. inv_ok.
  - destruct (x_InputQueue x) as [|q rest] eqn:Eq; [done|]. simplify_eq.
    exists A, G, P, R1, R2, R3, R4. inv_ok.
  - destruct (compute_output _ _ _ _ _) as [[out files]|] eqn:E; mred; [|done]. simplify_eq.
    destruct P as [|p P']; [done|]. cbn in HP. injection HP as <- HP.
    assert (Hsz : sized p).
    { rewrite Forall_forall in Hrg. apply Hrg. rewrite !elem_of_app. right; right; right; left. left. }
    exists A, (G ++ [p]), P', R1, R2, R3, R4. inv_ok.
    + rewrite Hf. by rewrite <- !app_assoc.
    + rewrite Hb. by rewrite <- !app_assoc.
    + rewrite app_nil_r in HG. rewrite map_app, !app_assoc. apply Forall2_app.
      * by rewrite <- !app_assoc.
      * constructor; [|done]. by apply (compute_answers b0 x p out files).
    + by rewrite <- !app_assoc.
  - simplify_eq. exists A, G, P, R1, R2, R3, R4. inv_ok. by rewrite app_nil_r.
  - simplify_eq. exists A, G, P, R1, R2, R3, R4. inv_ok.
Qed.

Lemma step_send b0 s A G P R1 R2 R3 R4 x' : Inv b0 s A G P R1 R2 R3 R4 ->
  send_output (s_proxy s) = Some (Done x') -> Good b0 (set_s_proxy x' s).
Proof.
  intros HI Hst. inv_intro s HI. pose proof (alive_send _ _ _ Hst Hal) as Hal'.
  unfold send_output, goes, blocks in Hst. rewrite (al_exit _ _ Hal) in Hst.
  destruct Hout as (c & Hx & He & Hc). rewrite Hx in Hst.
  pose proof (al_threads _ _ Hal) as (_ & _ & _ & Hn1 & Hn2).
  destruct (x_send x) as [| | |[|z togo]| |] eqn:Es; cbn in *; [..|done|done].
  - simplify_eq. exists A, G, P, R1, R2, R3, R4. inv_ok. by exists c.
  - simplify_eq. exists A, G, P, R1, R2, R3, R4. inv_ok. by exists c.
  - destruct (x_OutputQueue x) as [|q rest] eqn:Eq; [done|]. simplify_eq.
    exists A, G, P, R1, R2, (R3 ++ [wire q]), R4. inv_ok.
    + exists c. split; [done|]. split; [done|]. rewrite app_nil_r in Hc. apply owed_write; [done|].
      apply seq_frames.
    + by rewrite <- app_assoc.
  - simplify_eq. exists A, G, P, R1, R2, R3, R4. inv_ok. by exists c.
  - simplify_eq. exists A, G, P, R1, R2, R3, R4. inv_ok.
    exists (conn_write [z] c). split; [done|]. split; [done|]. cbn. by rewrite <- app_assoc.
Qed.

(** What the loading thread leaves alone. *)
Lemma load_frame (x x' : Px) : loadControl jit_load forward um_iter g_commonDir x = Some (Done x') ->
  x_in x' = x_in x /\ x_out x' = x_out x /\ x_recv x' = x_recv x /\ x_send x' = x_send x /\
  x_comp x' = x_comp x /\ x_InputQueue x' = x_InputQueue x /\ x_OutputQueue x' = x_OutputQueue x.
Proof.
  unfold loadControl, goes, blocks, loadModel, unloadModel, warmupModel, throws. intros H.
  destruct (x_load x); [| | |done].
  - mred. repeat case_match; by simplify_eq.
  - mred. repeat case_match; by simplify_eq.
  - destruct (mark RUNNING x) as [x1|] eqn:E; mred; [|done]. simplify_eq.
    by apply mark_inv in E as (m & -> & _).
Qed.

(** What it does is the next order. *)
Lemma wanted_snoc D m id : wanted (D ++ [m]) id =
  match m with
  | MsgLoad id' _ => if decide (id' = id) then true else wanted D id
  | MsgUnload id' => if decide (id' = id) then false else wanted D id
  | MsgClose => wanted D id
  end.
Proof. unfold wanted. by rewrite foldl_app. Qed.

Lemma erase_one_elem id id' l : NoDup l -> id' ∈ erase_one id l <-> id' ∈ l /\ id' <> id.
Proof.
  induction 1 as [|a l Ha Hnd IH]; cbn.
  - rewrite elem_of_nil. tauto.
  - destruct (a =? id)%Z eqn:E; [apply Z.eqb_eq in E as ->|apply Z.eqb_neq in E].
    + rewrite elem_of_cons. split; [|tauto]. intros H. split; [by right|]. by intros ->.
    + rewrite !elem_of_cons, IH. split; [|tauto]. intros [->|[H1 H2]]; tauto.
Qed.
Lemma erase_one_NoDup id l : NoDup l -> NoDup (erase_one id l).
Proof.
  induction 1 as [|a l Ha Hnd IH]; cbn; [constructor|]. destruct (a =? id)%Z; [done|].
  constructor; [|done]. rewrite erase_one_elem by done. tauto.
Qed.

Lemma load_holds D id b (x x' : Px) :
  loadModel jit_load forward um_iter g_commonDir (load_elem id b) x = Done x' -> holds_models D x ->
  holds_models (D ++ [MsgLoad id b]) x' /\ x_ControlQueue x' = x_ControlQueue x.
Proof.
  unfold loadModel, throws. cbn. intros H [Hnd Hm]. unfold holds_models.
  destruct (decide (id ∈ x_loaded x)) as [Hin|Hni]; mred.
  - simplify_eq. split; [|done]. split; [done|]. intros id'. rewrite wanted_snoc.
    destruct (decide (id = id')) as [<-|]; [|apply Hm]. destruct (Hm id) as [H1 H2].
    rewrite H2, <- H1. tauto.
  - destruct (jit_load _) as [m|]; [|done]. mred. destruct (warmupModel _ _ _ _); [|done]. mred. simplify_eq.
    split; [|done]. cbn. split; [apply NoDup_app; split; [done|split; [|apply NoDup_singleton]]|].
    + intros k Hk E. apply list_elem_of_singleton in E. by subst k.
    + intros id'. rewrite wanted_snoc, elem_of_app, list_elem_of_singleton.
      destruct (decide (id = id')) as [<-|Hne]; [rewrite lookup_insert_eq|rewrite lookup_insert_ne by done].
      * split; split; intros _; [done|by right|done|by eexists].
      * destruct (Hm id') as [H1 H2]. rewrite H2, <- H1. split; [|tauto]. split; [intros [H|H]; [done|by subst]|by left].
Qed.
Lemma unload_holds D id (x : Px) : holds_models D x ->
  holds_models (D ++ [MsgUnload id]) (unloadModel id x) /\ x_ControlQueue (unloadModel id x) = x_ControlQueue x.
Proof.
  unfold unloadModel. intros [Hnd Hm]. unfold holds_models. destruct (decide (id ∈ x_loaded x)) as [Hin|Hni]; cbn.
  - split; [|done]. split; [by apply erase_one_NoDup|]. intros id'. rewrite wanted_snoc, erase_one_elem by done.
    destruct (decide (id = id')) as [<-|Hne]; [rewrite lookup_delete_eq|rewrite lookup_delete_ne by done].
    + split; split; intros H; [tauto|done|by destruct H|done].
    + specialize (Hm id'). split; [|apply Hm]. rewrite <- (proj1 Hm). split; [tauto|]. by split.
  - split; [|done]. split; [done|]. intros id'. rewrite wanted_snoc.
    destruct (decide (id = id')) as [<-|Hne]; [|apply Hm]. specialize (Hm id).
    destruct Hm as [H1 H2]. rewrite H2, <- H1. split; split; done.
Qed.
Lemma load_orders D Q l (x x' : Px) : loadControl jit_load forward um_iter g_commonDir x = Some (Done x') ->
  x_exit x = false -> holds_models D x -> Forall (fun m => m <> MsgClose) Q ->
  map order_elem Q = x_ControlQueue x ++ l ->
  exists D' Q', D ++ Q = D' ++ Q' /\ Forall (fun m => m <> MsgClose) Q' /\
    map order_elem Q' = x_ControlQueue x' ++ l /\ holds_models D' x'.
Proof.
  unfold loadControl, goes, blocks. intros H Hex Hm HQ He. rewrite Hex in H. destruct (x_load x); [| | |done].
  - destruct (x_ControlQueue x) as [|q rest]; [done|]. destruct Q as [|m Q]; [done|]. cbn in He.
    injection He as <- He. apply Forall_cons in HQ as [Hne HQ]. destruct m as [|id b|id]; [done|..]; cbn in H.
    + destruct (loadModel _ _ _ _ _ _) as [x1|] eqn:E; [|done]. mred. simplify_eq.
      destruct (load_holds D id b _ _ E Hm) as [Hm1 Hq]. exists (D ++ [MsgLoad id b]), Q.
      rewrite <- app_assoc. by rewrite He; cbn; rewrite Hq.
    + mred. simplify_eq. destruct (unload_holds D id (set_x_ControlQueue rest x) Hm) as [Hm1 Hq].
      exists (D ++ [MsgUnload id]), Q. rewrite <- app_assoc. by rewrite He; cbn in *; rewrite Hq.
  - destruct (x_ControlQueue x) eqn:Eq; [destruct (own_state x); [|done]; mred|];
      simplify_eq; exists D, Q; cbn; by rewrite Eq.
  - destruct (mark RUNNING x) as [x1|] eqn:E; mred; [|done]. simplify_eq. apply mark_inv in E as (m & -> & _).
    by exists D, Q.
Qed.

Lemma step_load b0 s A G P R1 R2 R3 R4 x' : Inv b0 s A G P R1 R2 R3 R4 ->
  loadControl jit_load forward um_iter g_commonDir (s_proxy s) = Some (Done x') ->
  Good b0 (set_s_proxy x' s).
Proof.
  intros HI Hst. inv_intro s HI. pose proof (alive_load _ _ _ Hst Hal) as Hal'.
  destruct Hod as (D & Q & Ho & HQ & HO & Hh).
  destruct (load_orders _ _ _ _ _ Hst (al_exit _ _ Hal) Hh HQ HO) as (D' & Q' & Ho' & HQ' & HO' & Hh').
  apply load_frame in Hst as (H1 & H2 & H3 & H4 & H5 & H6 & H7).
  exists A, G, P, R1, R2, R3, R4. constructor; cbn; rewrite ?H1, ?H2, ?H3, ?H4, ?H5, ?H6, ?H7; try done.
  exists D', Q'. by rewrite <- Ho'.
Qed.

(** ** All runs *)
Abbreviation dstep := (sstep jit_load forward um_iter g_commonDir junk gInputDimMapping false).
Abbreviation thread_step := (sys_step jit_load forward um_iter g_commonDir junk gInputDimMapping).
Context (Hrank : forall jid, (length (default [] (gInputDimMapping !! jid)) <= 3)%nat).

(** The sending and receiving threads of the frontend and the backend fail only
    when the frontend waits for a result that is not sent any more. *)
Definition data_thread (t : SysThread) : bool :=
  match t with FSend | FOut | BIn | BOut => true | _ => false end.
Lemma data_thread_step b0 t s o : Good b0 s -> data_thread t = true ->
  thread_step t s = Some o ->
  (exists s', o = Done s' /\ Good b0 s') \/ (t = FOut /\ o = Stop Undefined /\ answer_lost s).
Proof.
  intros (A & G & P & R1 & R2 & R3 & R4 & HI) Ht Hst. destruct t; try done; cbn in Hst.
  - left. by eapply step_sendBatched.
  - destruct (step_recvResult _ _ _ _ _ _ _ _ _ _ HI Hst) as [?|[? ?]]; [by left|by right].
  - left. by eapply step_recvBatched.
  - left. by eapply step_sendBack.
Qed.

Lemma good_proxy_step b0 t s x' : Good b0 s -> pstep t (s_proxy s) = Some (Done x') ->
  Good b0 (set_s_proxy x' s).
Proof.
  intros (A & G & P & R1 & R2 & R3 & R4 & HI) Hst. pose proof (iv_alive _ _ _ _ _ _ _ _ _ HI) as Hal.
  destruct (alive_ctl _ _ Hal) as [Hc Hm]. unfold proxy_step in Hst.
  rewrite (al_main _ _ Hal) in Hst. destruct t.
  - by eapply step_recv.
  - by eapply step_compute.
  - by eapply step_send.
  - by eapply step_load.
  - by rewrite Hc in Hst.
  - by rewrite Hm in Hst.
Qed.

Lemma good_step b0 s s' : Good b0 s -> dstep s s' -> Good b0 s'.
Proof.
  intros HG Hs. inversion Hs as [t ? ? Ht|r ? ? Hsub|m ? ? Hord|? ? Hex Hin]; subst; clear Hs.
  - destruct (data_thread t) eqn:E.
    + by destruct (data_thread_step _ _ _ _ HG E Ht) as [(s2 & [= <-] & H)|(_ & ? & _)].
    + destruct t as [| | | | |t]; try done; cbn in Ht.
      * destruct HG as (A & G & P & R1 & R2 & R3 & R4 & HI). by eapply step_order.
      * destruct (pstep t (s_proxy s)) as [o|] eqn:Ep; [|done]. destruct o as [x'|]; mred; simplify_eq.
        by eapply good_proxy_step.
  - destruct HG as (A & G & P & R1 & R2 & R3 & R4 & HI). inv_intro s HI. unfold submit in Hsub. cbn in Hsub.
    destruct fs; [|done..]. destruct ((INT_MIN <=? fr_tnum r) && (fr_tnum r <=? INT_MAX))%Z eqn:E; [|done]. simplify_eq.
    exists A, G, P, R1, R2, R3, R4. inv_ok. by apply andb_true_iff in E as [E1%Z.leb_le E2%Z.leb_le].
  - destruct HG as (A & G & P & R1 & R2 & R3 & R4 & HI). inv_intro s HI. unfold order in Hord. cbn in Hord.
    destruct bc; [|done..]. exists A, G, P, R1, R2, R3, R4.
    assert (Hm0 : m <> MsgClose) by (by destruct m). destruct Hod as (D & Q & Ho & HQ & HO & Hh).
    replace (match m with MsgClose => None | _ => _ end) with
      (Some (mkSys fs fq fo c1 bi mtx (BC_Mark m) bq bo x c4 sent res (ords ++ [m]))) in Hord by (by destruct m).
    simplify_eq. inv_ok. exists D, (Q ++ [m]). split; [by rewrite app_assoc|]. split.
    + apply Forall_app. by split; [|constructor].
    + split; [|done]. rewrite map_app, HO. cbn. by rewrite app_nil_r, <- app_assoc.
  - destruct HG as (A & G & P & R1 & R2 & R3 & R4 & HI). eapply step_expire; [done| |done].
    by destruct (inside_message s).
Qed.

Lemma good_initial config dev part shm (x : Px) :
  boot_proxy config dev part shm (Some open_conn) (Some open_conn) = Done x ->
  Good x (initial x).
Proof.
  intros Hb. pose proof (boot_alive _ _ _ _ _ _ _ Hb) as Hal. unfold boot_proxy in Hb.
  destruct (setProxyState BOOTING dev part shm) as [[u m]|]; [|done]. mred.
  destruct (readProxyDims config) as [[[ok names] dims]|]; [|done]. mred.
  destruct (readInputTypesJSONFile config ∅ ∅) as [?|]; [|done]. injection Hb as <-.
  exists [], [], [], [], [], [], []. constructor; cbn; try done; try (by split); try (by exists open_conn).
  exists [], []. repeat split; try done; cbn; try constructor; try (by intros ?%elem_of_nil).
  rewrite lookup_empty. by intros [? ?].
Qed.

Lemma good_reachable config dev part shm (x : Px) s :
  boot_proxy config dev part shm (Some open_conn) (Some open_conn) = Done x ->
  rtc dstep (initial x) s -> Good x s.
Proof.
  intros Hb Hr. apply good_initial in Hb. induction Hr as [|s1 s2 s3 H12 _ IH]; [done|].
  apply IH. by eapply good_step.
Qed.

(** ** A system that has come to rest *)
Lemma rest_reader (x : Px) b0 c R2 : Alive b0 x -> x_in x = Some c -> cn_eof c = false ->
  owed (settle (x_recv x)).1 (cn_data c) R2 -> load_holds_lock x = false -> recvInput junk x = None ->
  x_recv x = R_Dimlen /\ R2 = [].
Proof.
  intros Hal Hx He Hc Hl Hn. pose proof (al_threads _ _ Hal) as (_ & _ & Hd & _).
  unfold recvInput, goes, blocks in Hn. rewrite Hx, Hl in Hn.
  destruct (x_recv x) eqn:Er; cbn in *; try done;
    rewrite conn_read_data in Hn by done; destruct c as [[|z zs] e]; cbn in *; try done;
    by apply owed_nil_inv in Hc as [? ->].
Qed.
Lemma rest_load (x : Px) b0 : Alive b0 x -> loadControl jit_load forward um_iter g_commonDir x = None ->
  load_holds_lock x = false /\ x_ControlQueue x = [].
Proof.
  intros Hal Hn. pose proof (al_threads _ _ Hal) as (_ & Hd & _). pose proof (al_exit _ _ Hal) as Hex.
  unfold loadControl, goes, blocks, load_holds_lock in *. rewrite Hex in Hn.
  destruct (x_load x); [|by destruct (x_ControlQueue x)|done|done]. by destruct (x_ControlQueue x).
Qed.
Lemma rest_compute (x : Px) b0 : Alive b0 x -> x_recv x = R_Dimlen -> x_send x <> O_Start ->
  compute forward x = None -> x_InputQueue x = [] /\ comp_cur (x_comp x) = [] /\ comp_done (x_comp x) = [].
Proof.
  intros [Hex _ _ _ (Hd & _) Hi Ho Hc _ _ _] Hr Hs Hn. unfold compute, goes, blocks in Hn. rewrite Hex in Hn.
  destruct Hi as [Hi|Hi]; [congruence|]. destruct Ho as [Ho|Ho]; [done|].
  destruct (x_comp x) eqn:Ec; cbn in *; try done.
  - destruct Hc as [Hc|Hc]; [done|]. by rewrite Hi, Ho, Hc in Hn.
  - by destruct (x_InputQueue x).
Qed.
Lemma rest_send (x : Px) b0 c : Alive b0 x -> x_out x = Some c -> send_output x = None ->
  x_send x = O_Wait /\ x_OutputQueue x = [].
Proof.
  intros Hal Hx Hn. pose proof (al_threads _ _ Hal) as (_ & _ & _ & H1 & H2).
  pose proof (al_exit _ _ Hal) as Hex. unfold send_output, goes, blocks in Hn. rewrite Hex, Hx in Hn.
  destruct (x_send x) as [| | |[|]| |]; try done. by destruct (x_OutputQueue x).
Qed.

(** No thread can move, but for the receiver of the frontend, which may have
    failed. *)
Definition at_rest (s : Sys Mod) : Prop :=
  forall t, thread_step t s = None \/ (t = FOut /\ thread_step t s = Some (Stop Undefined)).

Lemma rest_upstream b0 s A G P R1 R2 R3 R4 : Inv b0 s A G P R1 R2 R3 R4 ->
  (forall t, t <> FOut -> thread_step t s = None) ->
  (fsend_togo (s_fsend s) = [] /\ s_bin s = BI_Jid /\ R1 = [] /\ s_bctl s = BC_Idle) /\
  (x_recv (s_proxy s) = R_Dimlen /\ R2 = [] /\ P = [] /\ x_ControlQueue (s_proxy s) = []) /\
  x_OutputQueue (s_proxy s) = [] /\ comp_done (x_comp (s_proxy s)) = [] /\ x_send (s_proxy s) = O_Wait.
Proof.
  intros HI Hq. inv_intro s HI.
  pose proof (Hq FSend ltac:(done)) as Qf. pose proof (Hq BIn ltac:(done)) as Qb.
  pose proof (Hq BCtl ltac:(done)) as Qc.
  assert (Qp : forall t, pstep t x = None).
  { intros t. specialize (Hq (InProxy t) ltac:(done)). cbn in Hq. by destruct (pstep t x). }
  unfold proxy_step in Qp. rewrite (al_main _ _ Hal) in Qp.
  pose proof (Qp Recv) as Qr. pose proof (Qp Comp) as Qcm. pose proof (Qp Send) as Qs.
  pose proof (Qp Load) as Ql. clear Hq Qp. cbn in *.
  unfold sendBatched, recvBatchedTensor, makeProxyOrder, next, stuck in *. cbn in *.
  assert (Hfs : fsend_togo fs = []) by (by destruct fs as [| |[|]]).
  assert (Hbi : bin_writes bi = false) by (by destruct bi as [| | | |[|]|]).
  assert (Hbc : bctl_writes bc = false) by (by destruct bc as [| | |[|]]).
  assert (Hbt : bin_togo bi = [] /\ bctl_togo bc = []) by (split; [by destruct bi|by destruct bc]).
  destruct Hbt as [Hbt1 Hbt2]. rewrite Hbi, Hbc in Hm. cbn in Hm. subst mtx.
  assert (Hbcs : bc = BC_Idle) by (by destruct bc). subst bc. rewrite Hfs, app_nil_r in Hc1.
  assert (HB : bi = BI_Jid /\ R1 = []).
  { destruct bi; try done; rewrite conn_read_data in Qb by done; destruct c1 as [[|z zs] e]; try done;
      cbn in Hc1; by apply owed_nil_inv in Hc1 as [? ->]. }
  destruct HB as [-> ->]. destruct (rest_load _ _ Hal Ql) as [Hlock HCQ].
  destruct Hin as (c & Hx & He & Hc). cbn in Hc. rewrite app_nil_r in Hc.
  destruct (rest_reader _ _ _ _ Hal Hx He Hc Hlock Qr) as [Hrd ->].
  destruct Hout as (co & Hxo & Heo & Hco). destruct (rest_send _ _ _ Hal Hxo Qs) as [Hsw HOQ].
  destruct (rest_compute _ _ Hal Hrd ltac:(by rewrite Hsw) Qcm) as (HIQ & Hcc & Hcd).
  rewrite Hrd, HIQ, Hcc in HP. cbn in HP. apply map_eq_nil in HP as ->. by repeat split.
Qed.

(** The orders are carried out. *)
Lemma rest_orders b0 s A G P R1 R3 R4 : Inv b0 s A G P R1 [] R3 R4 ->
  s_bctl s = BC_Idle -> x_recv (s_proxy s) = R_Dimlen -> x_ControlQueue (s_proxy s) = [] ->
  holds_models (s_orders s) (s_proxy s).
Proof.
  intros HI Hc Hr Hq. destruct (iv_orders _ _ _ _ _ _ _ _ _ HI) as (D & Q & Ho & _ & HO & Hh).
  rewrite Hc, Hr, Hq in HO. cbn in HO. apply map_eq_nil in HO as ->. by rewrite Ho, app_nil_r.
Qed.

(** With the output thread of the backend at work, the results are back. *)
Lemma rest_results b0 s A G R3 R4 : Inv b0 s A G [] [] [] R3 R4 -> bout_failed (s_bout s) = false ->
  s_bin s = BI_Jid -> x_OutputQueue (s_proxy s) = [] -> comp_done (x_comp (s_proxy s)) = [] ->
  x_send (s_proxy s) = O_Wait -> thread_step BOut s = None -> thread_step FOut s = None ->
  A = [] /\ G = [] /\ s_fqueue s = [] /\ s_fout s = FO_Wait.
Proof.
  intros HI Hbf Hbin HOQ Hcd Hsw Qbo Qo. inv_intro s HI. subst bi. rewrite Hbf in He4.
  unfold receiveandsendOutput, recvResult, next, stuck in *. cbn in *.
  destruct Hout as (co & Hxo & Heo & Hco). rewrite HOQ, Hcd in HG. cbn in HG. rewrite app_nil_r in HG.
  rewrite Hsw in Hco. cbn in Hco. rewrite app_nil_r in Hco. rewrite Hxo in Qbo.
  rewrite !app_nil_r in *.
  assert (HR3 : bout_done bo = [] /\ R3 = [] /\ bout_togo bo = []).
  { destruct bo as [|br st|br d|[|z togo]|]; cbn in *; try done.
    - destruct bq; [|done]. destruct G; [|done]. by apply Forall2_nil_inv_l in HG.
    - rewrite conn_read_data in Qbo by done. destruct co as [[|z zs] e]; [|done].
      by apply owed_nil_inv in Hco as [_ ->]. }
  destruct HR3 as (Hbd & -> & Hbo). rewrite Hbd in HG. apply Forall2_nil_inv_r in HG as ->.
  rewrite Hbo, app_nil_r in Hc4. cbn in Hf. rewrite app_nil_r in Hf.
  destruct fo as [|r st|r d]; cbn in *; [|exfalso|done].
  - destruct fq; [|done]. by subst A.
  - rewrite conn_read_data in Qo by done. destruct c4 as [[|z zs] e]; [|done].
    apply owed_nil_inv in Hc4 as [_ ->]. by apply Forall2_nil_inv_r in HA as ->.
Qed.

(** When it has ended, the results that were sent before are back. *)
Lemma rest_lost b0 s A G R3 R4 br : Inv b0 s A G [] [] [] R3 R4 -> s_bout s = BO_Failed br ->
  s_bin s = BI_Jid -> thread_step FOut s = None \/ thread_step FOut s = Some (Stop Undefined) ->
  exists r late, br = br_of r /\ s_sent s = map fst (s_results s) ++ r :: late.
Proof.
  intros HI Hbf Hbin Qo. inv_intro s HI. subst bi bo. unfold recvResult, next, stuck in Qo. cbn in *.
  rewrite !app_nil_r in *. destruct G as [|g G]; [done|]. cbn in Hb. injection Hb as -> Hb.
  enough (A = []) as ->. { exists g, G. by rewrite Hs. }
  destruct fo as [|r st|r d]; cbn in *.
  - destruct fq; [|by destruct Qo]. by destruct A.
  - destruct c4 as [[|z zs] e]; cbn in *.
    + apply owed_nil_inv in Hc4 as [_ ->]. by apply Forall2_nil_inv_r in HA.
    + apply read_step in Hc4 as (st' & od & R' & Hrd & -> & Hc4). rewrite Hrd in Qo. mred. by destruct Qo.
  - apply Forall2_cons_inv_r in HA as (a & A' & Ha & HA & ->). injection Hf as -> Hf.
    rewrite (answers_check b0 _ _ Ha) in Qo. mred. by destruct Qo.
Qed.


(** C3: no batch and no order is lost, and the threads do not block each
    other.  Take a run that has come to a state in which no thread of the
    frontend, the backend and the proxy can move (the receiver of the frontend
    may have failed, as said in C2).  Every order to load or unload has been
    carried out: a model is in the list and in the table of the proxy if and only
    if the last order that names it is to load it, and the list names none twice.
    If no answer took longer than the five seconds of the backend, every batch
    that was sent has its result and the sender is idle: the system is never
    stuck with work left.  If one did, the batch is the first without a result:
    exactly the batches before it have theirs.  The assumptions are those of
    C2. *)
Theorem no_request_lost config dev part shm (x : Px) s :
  boot_proxy config dev part shm (Some open_conn) (Some open_conn) = Done x ->
  rtc dstep (initial x) s ->
  (forall t, thread_step t s = None \/ (t = FOut /\ thread_step t s = Some (Stop Undefined))) ->
  (NoDup (x_loaded (s_proxy s)) /\
   (forall id, id ∈ x_loaded (s_proxy s) <-> wanted (s_orders s) id = true) /\
   (forall id, is_Some (x_models (s_proxy s) !! id) <-> wanted (s_orders s) id = true)) /\
  match s_bout s with
  | BO_Failed br => exists r late, br = mkBR (fr_rid r) (fr_tnum r) /\
      s_sent s = map fst (s_results s) ++ r :: late
  | _ => s_sent s = map fst (s_results s) /\ s_fqueue s = [] /\ s_fsend s = FS_Idle
  end.
Proof.
  intros Hb Hr Hq. destruct (good_reachable _ _ _ _ _ _ Hb Hr) as (A & G & P & R1 & R2 & R3 & R4 & HI).
  assert (Hq' : forall t, t <> FOut -> thread_step t s = None) by (intros t Ht; by destruct (Hq t) as [?|[? _]]).
  destruct (rest_upstream _ _ _ _ _ _ _ _ _ HI Hq') as ((Hfs & Hbi & -> & Hbc) & (Hrd & -> & -> & HCQ) & HOQ & Hcd & Hsw).
  destruct (rest_orders _ _ _ _ _ _ _ _ HI Hbc Hrd HCQ) as [Hnd Hh].
  split; [repeat split; try done; apply Hh|]. destruct (bout_failed (s_bout s)) eqn:Ef.
  - destruct (s_bout s) as [| | | |br] eqn:Eb; try done. apply (rest_lost _ _ _ _ _ _ _ HI Eb Hbi).
    destruct (Hq FOut) as [?|[_ ?]]; auto.
  - assert (Qo : thread_step FOut s = None).
    { destruct (Hq FOut) as [?|[_ Hst]]; [done|]. cbn in Hst.
      destruct (step_recvResult _ _ _ _ _ _ _ _ _ _ HI Hst) as [(? & ? & _)|(_ & br & r & Eb & _)]; [done|].
      by rewrite Eb in Ef. }
    destruct (rest_results _ _ _ _ _ _ HI Ef Hbi HOQ Hcd Hsw (Hq' BOut ltac:(done)) Qo) as (-> & -> & Hfq & Hfo).
    enough (s_sent s = map fst (s_results s) /\ s_fqueue s = [] /\ s_fsend s = FS_Idle) by (by destruct (s_bout s)).
    pose proof (iv_sent _ _ _ _ _ _ _ _ _ HI) as Hs. rewrite Hbi in Hs. cbn in Hs. rewrite !app_nil_r in Hs.
    repeat split; [done..|]. specialize (Hq' FSend ltac:(done)). cbn in Hq'. unfold sendBatched in Hq'.
    rewrite Hfo in Hq'. by destruct (s_fsend s) as [| |[|]].
Qed.
End DataPathProps.

(** ** A small configuration: one model, number 7, on partition 2 of GPU 1 *)
Definition demo_config : Value :=
  JObject [("Models", JArray [JObject [("input_dim", JArray [JInt 3; JInt 224; JInt 224]);
    ("input_type", JString "FP32"); ("name", JString "resnet"); ("output_type", JString "FP32");
    ("proxy_id", JInt 7)]])]%string.
Definition demo_forward (_ : unit) (shape : list Z) : option IValue :=
  match shape with b :: _ => Some (VTensor [b; 1000]%Z) | [] => None end.
Definition demo_dims : gmap Z (list Z) := {[ 7%Z := [3; 224; 224]%Z ]}.
Definition demo_load (path : string) : option unit :=
  if String.eqb path "models/resnet.pt" then Some tt else None.
Definition demo_boot : outcome (Proxy unit) :=
  boot_proxy (Some demo_config) 1 2 (initShMem true []) (Some open_conn) (Some open_conn).
Abbreviation demo_script := (script demo_load demo_forward map_to_list "models/" 0 demo_dims).

Lemma demo_rank jid : (length (default [] (demo_dims !! jid)) <= 3)%nat.
Proof.
  unfold demo_dims. destruct (decide (jid = 7)%Z) as [->|Hne]; [by vm_compute; lia|].
  rewrite lookup_singleton_ne by done. cbn. lia.
Qed.

(** Two batches of different sizes; the second is sent while the first is under
    way. *)
Definition demo_acts : list (Act * nat) :=
  [(Order (MsgLoad 7 8), 100%nat); (Submit (mkFReq 7 1 5), 6%nat); (Submit (mkFReq 7 2 6), 100%nat)].


Lemma no_request_lost_witness : exists x s,
  demo_boot = Done x /\ demo_script demo_acts (initial x) = Some s /\ s_sent s = map fst (s_results s) /\
  (7%Z ∈ x_loaded (s_proxy s) <-> wanted (s_orders s) 7 = true).
Proof.
  eexists _, _. split; [vm_compute; reflexivity|]. split; [vm_compute; reflexivity|].
  let b := eval vm_compute in demo_boot in
  match b with Done ?x => match goal with |- s_sent ?s = _ /\ _ =>
    destruct (no_request_lost demo_load demo_forward map_to_list "models/" 0 demo_dims demo_rank
      (Some demo_config) 1 2 (initShMem true []) x s) as [(_ & H & _) (H' & _)]
  end end.
  - vm_compute. reflexivity.
  - apply (script_steps _ _ _ _ _ _ demo_acts). vm_compute. reflexivity.
  - intros t. left. revert t. apply quiet_all. vm_compute. reflexivity.
  - by split.
Defined.

(** ** The state RUNNING does not mean that the models are loaded: a proxy that has
    carried out one order marks itself RUNNING although the backend has announced
    the next one by marking it LOADING. *)
Definition early_acts : list Act :=
  let back n := repeat (Run BCtl) n in
  let proxy t n := repeat (Run (InProxy t)) n in
  proxy Recv 2 ++ [Order (MsgLoad 7 8)] ++ back 6%nat ++ [Order (MsgLoad 9 8)] ++ back 1%nat ++
  proxy Recv 4 ++ proxy Load 3.
Lemma running_before_loaded :
  match demo_boot with
  | Done x =>
      match acts demo_load demo_forward map_to_list "models/" 0 demo_dims early_acts (initial x) with
      | Some s => own_state (s_proxy s) = Done RUNNING /\ s_bctl s = BC_Lock (MsgLoad 9 8)
      | None => False
      end
  | Stop _ => False
  end.
Proof. vm_compute. done. Qed.

(** A batch whose model is not loaded stops the proxy: its thread uses a null
    pointer. *)
Lemma unloaded_model_stops (q : QueueElem) b dims files :
  head (q_dims q) = Some b -> completes (getRandInput dims (q_job_ID q) b) = true ->
  compute_output demo_forward None dims files q = Stop Undefined.
Proof.
  intros Hb Hr. unfold compute_output. rewrite Hb. mred. unfold getRandInput in *.
  by destruct (forallb _ _).
Qed.

(** ** The receive timeout of the backend.  When the answer to a batch takes longer
    than five seconds, the output thread of the backend ends for good, and the
    receiver of the frontend fails; the second batch is lost too, although the
    proxy answers both. *)
Definition late_acts : list (Act * nat) :=
  [(Order (MsgLoad 7 8), 100%nat); (Submit (mkFReq 7 1 5), 14%nat); (Expire, 1%nat);
   (Submit (mkFReq 7 2 6), 100%nat)].
Lemma late_answer_ends :
  match demo_boot with
  | Done x =>
      match demo_script late_acts (initial x) with
      | Some s => s_bout s = BO_Failed (mkBR 1 5) /\ s_results s = [] /\ recvResult s = Some (Stop Undefined)
      | None => False
      end
  | Stop _ => False
  end.
Proof. vm_compute. done. Qed.

(** When the five seconds pass between two [int]s of a result, the error is not
    seen: the size before is taken once more, a result [[5; 1000]] becomes
    [[5; 5]], and what follows is read as the beginning of the next message. *)
Lemma expires_inside_message :
  match demo_boot with
  | Done x =>
      match demo_script [(Order (MsgLoad 7 8), 100%nat); (Submit (mkFReq 7 1 5), 19%nat)] (initial x) with
      | Some s =>
          match acts demo_load demo_forward map_to_list "models/" 0 demo_dims [Run BOut; Expire] s with
          | Some s => map snd (s_results (rounds demo_load demo_forward map_to_list "models/" 0 demo_dims 30 s))
                        = [[5; 5]]%Z
          | None => False
          end
      | None => False
      end
  | Stop _ => False
  end.
Proof. vm_compute. done. Qed.
