(* ===== verification/BackendMain.v ===== *)
(** * A backend: its start ([backend.cpp]), its control thread and the opening of a
    data channel ([service/backend_thread.cpp]).

    A backend numbers its GPUs from 0 for the frontend and translates to the
    numbers of the host with the table [FrontDevIDToHostDevID]; it makes one
    [proxy_info] for every partition of every GPU.  A control connection is served
    order by order; a data channel names its proxy and its direction in its first
    three words. *)
From Stdlib Require Import ZArith SpecFloat Ascii String Lia.
From S2P Require Import Prelude CppFloat CppStd SchedData LoadBalancer AppModel Json SysState Control GlobalSetup Wire ProxyProc DataPath.

(** ** The GPUs: ["first-last"] *)

(** [while (std::getline(test, segment, '-'))]: a delimiter at the end is not
    followed by an empty segment. *)
Fixpoint segments (fuel : nat) (s : string) : list string :=
  match fuel, s with
  | S fuel', String _ _ =>
      let '(segment, rest) := span_delim "-"%char s in
      segment :: match rest with Some s' => segments fuel' s' | None => [] end
  | _, _ => []
  end.
Fixpoint stoi_all (l : list string) : outcome (list Z) :=
  match l with
  | [] => Done []
  | s :: l' => i ← stoi s; idxs ← stoi_all l'; Done (i :: idxs)
  end.

(** The table gets the host numbers in order. *)
Definition fill_table (first : Z) (n : nat) (table : gmap Z Z) : gmap Z Z :=
  foldl (fun t k => <[Z.of_nat k := (first + Z.of_nat k)%Z]> t) table (seq 0 n).
Definition parseGPUIdxs (idxs_string : string) : M SysMonitor bool :=
  idxs ← lift (stoi_all (segments (S (String.length idxs_string)) idxs_string));
  match idxs with
  | [first; last] =>
      _ ← massert (first <=? last)%Z;
      _ ← setNGPUs (i32 (i32 (last - first) + 1));
      _ ← modify (fun s => set_FrontDevIDToHostDevID
            (fill_table first (Z.to_nat (last - first + 1)) (FrontDevIDToHostDevID s)) s);
      mret EXIT_SUCCESS
  | _ => fail AssertionFailed
  end.
Definition configureServerHW (gpu_idxs : string) (nproxy : Z) : M SysMonitor unit :=
  failed ← parseGPUIdxs gpu_idxs;
  if failed : bool then fail (Exited 1)
  else
    _ ← modify (set_nProxyPerGPU nproxy);
    s ← get;
    massert ((0 <=? nGPUs s) && (0 <? nProxyPerGPU s))%Z.

(** ** Its proxies *)
Definition AVAIL_SIZES : list Z := [20; 40; 50; 60; 80; 100]%Z.
(** One device: the translation enters 0 for an unknown number; the type of a
    proxy is left empty. *)
Definition backend_device (i : Indet) (parts : list Z) (node_id devindex : Z) : M Front unit :=
  f ← get;
  let table := FrontDevIDToHostDevID (f_sys f) in
  let backend_idx := default 0%Z (table !! devindex) in
  _ ← mod_sys (set_FrontDevIDToHostDevID (<[devindex := backend_idx]> table));
  _ ← for_acc parts 0%Z (add_part_proxies i node_id backend_idx ""); mret tt.
Definition backend_createProxyInfos (i : Indet) (parts : list Z) (node_id : Z) : M Front unit :=
  f ← get;
  for_each (map Z.of_nat (seq 0 (Z.to_nat (nGPUs (f_sys f))))) (backend_device i parts node_id).

(** ** A new data channel ([initBackendData] before its loops) *)
Inductive Channel : Type := InputChannel (p : ProxyPtr) | OutputChannel (p : ProxyPtr) | StrangeMessage (msg : Z).

(** [queues] are the proxies that have an output queue.  The input channel makes
    the queue and sends an acknowledgement; the output channel uses the queue
    without a test. *)
Definition initBackendData (stream : list Z) (queues : gmap nat (list BatchedRequest)) :
    M Front (Channel * gmap nat (list BatchedRequest) * list Z) :=
  match (take_ints 3 stream).1 with
  | [gpuid; partition_index; msg] =>
      f ← get;
      let table := FrontDevIDToHostDevID (f_sys f) in
      let host := default 0%Z (table !! gpuid) in
      _ ← mod_sys (set_FrontDevIDToHostDevID (<[gpuid := host]> table));
      p ← findProxy_index host partition_index;
      if (msg =? 0)%Z then
        mret (InputChannel p, match queues !! p with Some _ => queues | None => <[p := []]> queues end, [1%Z])
      else if (msg =? 1)%Z then
        match queues !! p with Some _ => mret (OutputChannel p, queues, []) | None => fail Undefined end
      else mret (StrangeMessage msg, queues, [])
  | _ => fail Undefined
  end.

(** ** A control connection ([initBackendControl], one client)

    [env], [junk], [up] and [used_memory] are those of [executeControl]; [stray] is what
    comes back from [setState], which ends without a [return].  A socket at its end
    reads zero. *)
Section ControlThread.
Context (env : nat -> list Z -> list Z) (junk : proxy_state) (up : Backend -> string -> bool) (used_memory : Z -> Z) (stray : Z) (fuel : nat).

(** [ret] of [executeControl], given what it sent. *)
Definition control_ret (cmd : Z) (answer : option Z) : Z :=
  match cmd_of_code cmd with
  | Some BACKEND_SET_STATE => stray
  | Some BACKEND_GET_MEM => if bool_decide (answer = Some 0%Z) then 1 else 0
  | Some _ => 0
  | None => 1
  end.
Definition sent (answer : option Z) : list Z := match answer with Some z => [z] | None => [] end.
(** Receive and execute: the locals are the stream and the answers sent; both
    errors leave the loop. *)
Definition control_turn (local : list Z * list Z) : M Backend ((list Z * list Z) + list Z) :=
  let '(stream, answers) := local in
  '(message, stream) ← receiveControl stream;
  match message with
  | None => mret (inr answers)
  | Some recv_data =>
      answer ← executeControl env junk up used_memory fuel recv_data;
      let answers := answers ++ sent answer in
      mret (if (control_ret (default 0 (head recv_data)) answer =? 0)%Z then inl (stream, answers) else inr answers)
  end.
(** Every turn reads at least one word. *)
Definition control_session (stream : list Z) : M Backend (list Z) :=
  loop (S (length stream)) (stream, []) control_turn.
End ControlThread.

(** ** [main] up to the loop that accepts data channels

    [segment] is the shared memory that is there already; what the readers of the
    files return is ignored. *)
Record BackendOptions : Type := mkBackendOptions {
  bo_gpu_idxs : string; bo_nproxy : Z; bo_proxy : option Value; bo_config : option (option Value);
  bo_files : string -> option (option Value); bo_resource_dir : string }.
Definition new_Backend (ind : Indet) : Backend := mkBackend (mkFront (new_SysMonitor ind) []) [] [] [] 0.
Definition on_monitor {A} (m : M SysMonitor A) : M Backend A := on_front (sys m).

Definition backend_readInputDims (config : option Value) : M Backend (gmap Z (list Z)) :=
  s ← on_monitor get;
  '(_, (s, gInputDimMapping)) ← lift (readInputDims config (s, ∅));
  _ ← on_monitor (put s);
  mret gInputDimMapping.
Definition backend_configureAppSpec (ind : Indet) (vm : BackendOptions) : M Backend bool :=
  s ← on_monitor get;
  '(_, specs) ← lift (configAppSpec (bo_config vm) (bo_files vm) ind (bo_resource_dir vm) (AppSpecVec s));
  _ ← on_monitor (modify (set_AppSpecVec specs));
  mret EXIT_SUCCESS.
Definition backend_main (ind : Indet) (segment : list Z) (vm : BackendOptions) :
    M Backend (gmap Z (list Z) * gmap Z string) :=
  _ ← on_monitor (configureServerHW (bo_gpu_idxs vm) (bo_nproxy vm));
  _ ← modify (set_bk_shm (initShMem true segment));
  _ ← on_front (backend_createProxyInfos ind AVAIL_SIZES 0);
  gInputDimMapping ← backend_readInputDims (bo_proxy vm);
  '(_, gInputTypeMapping, _) ← lift (readInputTypesJSONFile (bo_proxy vm) ∅ ∅);
  _ ← backend_configureAppSpec ind vm;
  mret (gInputDimMapping, gInputTypeMapping).

(** ** The translation table is complete *)
Lemma fill_table_lookup first n table k :
  (0 <= k < Z.of_nat n)%Z -> fill_table first n table !! k = Some (first + k)%Z.
Proof.
  unfold fill_table. revert k. induction n as [|n IH]; intros k Hk; [lia|].
  rewrite seq_S, foldl_app. cbn. destruct (decide (k = Z.of_nat n)) as [->|Hne].
  - by rewrite lookup_insert_eq.
  - rewrite lookup_insert_ne by done. apply IH. lia.
Qed.

Lemma parseGPUIdxs_run text first last s :
  stoi_all (segments (S (String.length text)) text) = Done [first; last] ->
  (0 <= first <= last)%Z -> in_i32 (last + 1) ->
  parseGPUIdxs text s = Done (EXIT_SUCCESS, set_FrontDevIDToHostDevID
    (fill_table first (Z.to_nat (last - first + 1)) (FrontDevIDToHostDevID s)) (set_nGPUs (last - first + 1) s)).
Proof.
  intros Ht Hfl Hr. unfold parseGPUIdxs. rewrite Ht.
  rewrite (bind_done (lift _) _ s [first; last] s) by done.
  rewrite (bind_done (massert _) _ s tt s).
  2:{ unfold massert. by rewrite (proj2 (Z.leb_le _ _)) by lia. }
  unfold in_i32, INT_MIN, INT_MAX in Hr.
  rewrite (i32_id (last - first)) by (unfold in_i32, INT_MIN, INT_MAX; lia).
  rewrite (i32_id (last - first + 1)) by (unfold in_i32, INT_MIN, INT_MAX; lia).
  rewrite (bind_done (setNGPUs _) _ s tt (set_nGPUs (last - first + 1) s)); [done|].
  unfold setNGPUs. rewrite (bind_done (massert _) _ s tt s); [done|].
  unfold massert. by rewrite (proj2 (Z.leb_le _ _)) by lia.
Qed.
(** After the option is read, device [k] of the frontend is GPU [first + k] of the
    host, for every device the backend reports. *)
Lemma parseGPUIdxs_table text first last s :
  stoi_all (segments (S (String.length text)) text) = Done [first; last] ->
  (0 <= first <= last)%Z -> in_i32 (last + 1) ->
  exists s', parseGPUIdxs text s = Done (EXIT_SUCCESS, s') /\ nGPUs s' = (last - first + 1)%Z /\
    forall k, (0 <= k < nGPUs s')%Z -> FrontDevIDToHostDevID s' !! k = Some (first + k)%Z.
Proof.
  intros Ht Hfl Hr. eexists. split; [by apply parseGPUIdxs_run|]. cbn. split; [done|].
  intros k Hk. apply fill_table_lookup. lia.
Qed.

Example parseGPUIdxs_ex : stoi_all (segments 4 "1-3") = Done [1; 3]%Z.
Proof. reflexivity. Qed.
