(* ===== verification/BackendProps.v ===== *)
(** * Properties of a backend: after the start, every order of a control connection
    is performed, in order, on the proxy it names. *)
From Stdlib Require Import ZArith SpecFloat Ascii String Lia.
From S2P Require Import Prelude CppFloat CppStd SchedData LoadBalancer AppModel Json SysState Printf Endpoints Control ControlProps GlobalState GlobalSched GlobalSetup GlobalProps Wire ProxyProc DataPath BackendMain.

(** ** What the start leaves behind *)
(** Seven proxies on each of [n] devices, the first of which is GPU [first] of the
    host; proxy [j] of device [k] is number [7 * k + j] of the store. *)
Definition PARTS : nat := 7.
(** Their shares and numbers. *)
Definition partition_sizes : list (Z * Z) := [(20, 0); (40, 0); (50, 0); (50, 1); (60, 0); (80, 0); (100, 0)]%Z.
Record booted (first : Z) (n : nat) (f : Front) : Prop := {
  bt_gpus : nGPUs (f_sys f) = Z.of_nat n;
  bt_table : forall k, (k < n)%nat -> FrontDevIDToHostDevID (f_sys f) !! Z.of_nat k = Some (first + Z.of_nat k)%Z;
  bt_devs : forall k, (k < n)%nat -> getDevMPSInfo (first + Z.of_nat k) (f_sys f) = seq (k * PARTS) PARTS;
  bt_proxies : forall k j, (k < n)%nat -> (j < PARTS)%nat -> exists x, f_proxies f !! (k * PARTS + j)%nat = Some x /\
    partition_num x = Z.of_nat j /\ p_dev_id x = (first + Z.of_nat k)%Z /\
    partition_sizes !! j = Some (p_cap x, p_dedup_num x) }.

(** ** Finding a proxy *)
Lemma for_ret_search (fits : ProxyInfo -> bool) (l : list ProxyPtr) f p :
  (forall q, q ∈ l -> is_Some (f_proxies f !! q)) ->
  find (fun q => match f_proxies f !! q with Some x => fits x | None => false end) l = Some p ->
  for_ret l (fun q => x ← rd_proxy q; mret (if fits x then Some q else None)) f = Done (Some p, f).
Proof.
  induction l as [|q l IH]; intros Hex Hf; [done|]. destruct (Hex q ltac:(by left)) as [x Hx].
  assert (Hrd : rd_proxy q f = Done (x, f)) by (unfold rd_proxy; mred; by rewrite Hx).
  cbn [for_ret]. erewrite bind_done by (erewrite bind_done by exact Hrd; reflexivity).
  cbn in Hf. rewrite Hx in Hf. destruct (fits x); [by injection Hf as ->|].
  apply IH; [|done]. intros r Hr. apply Hex. by right.
Qed.
Lemma find_booted first n f k j : (0 <= first)%Z -> in_i32 (first + Z.of_nat n) ->
  booted first n f -> (k < n)%nat -> (j < PARTS)%nat ->
  findProxy_index (first + Z.of_nat k) (Z.of_nat j) f = Done ((k * PARTS + j)%nat, f).
Proof.
  intros Hf Hr [H1 H2 H3 H4] Hk Hj. unfold findProxy_index, find_proxy.
  assert (Hc : check_device (first + Z.of_nat k) (f_sys f) = Done (tt, f_sys f)).
  { specialize (H2 0%nat ltac:(lia)). change (Z.of_nat 0) with 0%Z in H2. rewrite Z.add_0_r in H2. unfold check_device. mred.
    rewrite decide_False by (intros E; by rewrite E, lookup_empty in H2).
    rewrite H2. cbn. rewrite insert_id by done.
    rewrite i32_id by (unfold in_i32, INT_MIN, INT_MAX in *; lia).
    rewrite (proj2 (Z.ltb_lt _ _)) by lia. by destruct (f_sys f). }
  rewrite (bind_done (sys _) _ f tt f) by (unfold sys, zoom; rewrite Hc; by destruct f).
  rewrite (bind_done get _ f f f) by done.
  rewrite (bind_done _ _ f (Some (k * PARTS + j)%nat) f); [done|]. rewrite H3 by done. apply for_ret_search.
  - intros q Hq. apply elem_of_seq in Hq. destruct (H4 k (q - k * PARTS)%nat Hk ltac:(lia)) as (x & Hx & _).
    exists x. rewrite <- Hx. f_equal. lia.
  - apply find_seq; [done|]. intros i Hi. destruct (H4 k i Hk Hi) as (x & -> & -> & _).
    case_bool_decide; [apply Z.eqb_eq|apply Z.eqb_neq]; lia.
Qed.

(** ** Orders leave the places of the proxies as they are *)
Definition same_places (f f' : Front) : Prop := f_sys f' = f_sys f /\
  forall q x, f_proxies f !! q = Some x ->
    exists x', f_proxies f' !! q = Some x' /\ partition_num x' = partition_num x /\ p_dev_id x' = p_dev_id x /\
      p_cap x' = p_cap x /\ p_dedup_num x' = p_dedup_num x.
#[local] Instance same_places_preorder : PreOrder same_places.
Proof.
  split.
  - intros f. split; [done|]. intros q x Hx. by exists x.
  - intros f1 f2 f3 [H1 H2] [H3 H4]. split; [congruence|]. intros q x Hx.
    destruct (H2 q x Hx) as (y & Hy & ?). destruct (H4 q y Hy) as (z & Hz & ?).
    exists z. split; [done|]. intuition congruence.
Qed.
Lemma booted_places first n f f' : same_places f f' -> booted first n f -> booted first n f'.
Proof.
  intros [Hs Hp] [H1 H2 H3 H4]. split; rewrite ?Hs; [done|done|done|].
  intros k j Hk Hj. destruct (H4 k j Hk Hj) as (x & Hx & Hn & Hd & Hc).
  destruct (Hp _ x Hx) as (y & Hy & Hn' & Hd' & Hc' & He'). exists y. split; [done|]. rewrite Hc', He'. intuition congruence.
Qed.

Definition kept (b b' : Backend) : Prop := same_places (bk_front b) (bk_front b').
#[local] Instance kept_preorder : PreOrder kept.
Proof. split; unfold kept; [intros b; reflexivity|]. intros b1 b2 b3 H1 H2. by etransitivity. Qed.
Lemma kept_front {A} (m : M Front A) : preserves same_places m -> preserves kept (on_front m).
Proof. by apply preserves_zoom. Qed.
Lemma kept_shm {A} (m : M (list Z) A) : preserves kept (on_shm m).
Proof. apply (preserves_zoom _ (fun _ _ => True)); [intros b t _; unfold kept; reflexivity|by intros s a s' _]. Qed.
Lemma kept_modify g : (forall b, bk_front (g b) = bk_front b) -> preserves kept (modify g).
Proof. intros H b [] b' E. apply modify_inv in E as ->. unfold kept. rewrite H. reflexivity. Qed.
Lemma places_rd p : preserves same_places (rd_proxy p).
Proof. unfold rd_proxy. preserve. Qed.
Lemma places_wr p g : (forall x, partition_num (g x) = partition_num x /\ p_dev_id (g x) = p_dev_id x /\
    p_cap (g x) = p_cap x /\ p_dedup_num (g x) = p_dedup_num x) ->
  preserves same_places (wr_proxy p g).
Proof.
  intros Hg f [] f' H. unfold wr_proxy in H. mred. destruct (f_proxies f !! p) as [x|] eqn:Hx; [|done].
  injection H as <-. split; [done|]. cbn. intros q y Hy. destruct (decide (q = p)) as [->|Hne].
  - rewrite list_lookup_insert_eq by (by eapply lookup_lt_Some). exists (g x).
    rewrite Hx in Hy. injection Hy as <-. destruct (Hg x). done.
  - rewrite list_lookup_insert_ne by done. by exists y.
Qed.
#[local] Hint Resolve kept_shm places_rd : frame.
#[local] Hint Extern 1 (preserves kept (on_front _)) => apply kept_front; eauto with frame nocore : frame.
#[local] Hint Extern 1 (preserves same_places (wr_proxy _ _)) => apply places_wr; done : frame.
#[local] Hint Extern 1 (preserves kept (modify _)) => apply kept_modify; done : frame.
#[local] Hint Extern 1 (preserves kept (send_msg _ _)) => apply kept_modify; done : frame.
#[local] Hint Extern 1 (preserves kept (boot_process _ _ _)) => apply kept_modify; done : frame.

(** ** Orders *)
Record Order : Type := mkOrder { o_cmd : BACKEND_CONTROL_CMD; o_dev : Z; o_part : Z; o_more : list Z }.
Definition message (o : Order) : list Z := control_msg (o_cmd o) (o_dev o) (o_part o) (o_more o).
(** It names a proxy of the backend. *)
Definition names_proxy (n : nat) (o : Order) : Prop := (0 <= o_dev o < Z.of_nat n)%Z /\ (0 <= o_part o < 7)%Z.

Section Orders.
Context (env : nat -> list Z -> list Z) (junk : proxy_state) (up : Backend -> string -> bool) (used_memory : Z -> Z).
Context (stray : Z) (fuel : nat).
Lemma kept_mark p st : preserves kept (markProxy p st).
Proof. unfold markProxy. preserve. Qed.
Lemma kept_poll p st : preserves kept (poll p st).
Proof. unfold poll. preserve. Qed.
#[local] Hint Resolve kept_mark kept_poll : frame.
Lemma kept_wait_loop k p st curr : preserves kept (wait_loop env k p st curr).
Proof.
  revert curr. induction k as [|k IH]; intros curr; cbn [wait_loop]; [preserve|].
  unfold sleep. destruct (decide _); [by preserve|].
  apply preserves_bind; [typeclasses eauto|by apply kept_modify|]. intros _.
  apply preserves_bind; [typeclasses eauto|apply kept_poll|done].
Qed.
#[local] Hint Resolve kept_wait_loop : frame.
Lemma kept_perform c more host p : preserves kept (perform env junk up used_memory fuel c more host p).
Proof.
  unfold perform. apply preserves_bind; [typeclasses eauto|preserve|]. intros b. cbv zeta.
  destruct c; try (unfold startProxy, waitProxy, endProxy, connectProxy, disconnectProxy, makeProxyLoadModel,
    makeProxyUnloadModel, getProxyState; preserve).
Qed.

(** What a sequence of orders asks for: each is performed on its proxy, and the
    first one that returns an error ends the connection. *)
Fixpoint perform_all (first : Z) (os : list Order) (answers : list Z) : M Backend (list Z) :=
  match os with
  | [] => mret answers
  | o :: os' =>
      answer ← perform env junk up used_memory fuel (o_cmd o) (o_more o) (first + o_dev o)
                 (Z.to_nat (o_dev o * 7 + o_part o));
      let answers := answers ++ sent answer in
      if (control_ret stray (cmd_code (o_cmd o)) answer =? 0)%Z then perform_all first os' answers else mret answers
  end.

Lemma order_received first n b o rest : (0 <= first)%Z -> in_i32 (first + Z.of_nat n) ->
  booted first n (bk_front b) -> names_proxy n o ->
  exists params, receiveControl (message o ++ rest) b = Done ((Some params, rest), b) /\
    head params = Some (cmd_code (o_cmd o)) /\
    executeControl env junk up used_memory fuel params b =
      perform env junk up used_memory fuel (o_cmd o) (o_more o) (first + o_dev o) (Z.to_nat (o_dev o * 7 + o_part o)) b.
Proof.
  intros Hf Hr Hb [Hd Hp]. eexists. split; [apply receiveControl_msg|split; [done|]].
  { pose proof (bt_table _ _ _ Hb (Z.to_nat (o_dev o)) ltac:(lia)) as H. by rewrite Z2Nat.id in H by lia. }
  apply execute_performs.
  pose proof (find_booted first n (bk_front b) (Z.to_nat (o_dev o)) (Z.to_nat (o_part o)) Hf Hr Hb) as H.
  rewrite !Z2Nat.id in H by lia. unfold PARTS in H. rewrite H by lia. do 2 f_equal. lia.
Qed.
Lemma turn_performs first n b o rest answers : (0 <= first)%Z -> in_i32 (first + Z.of_nat n) ->
  booted first n (bk_front b) -> names_proxy n o ->
  control_turn env junk up used_memory stray fuel (message o ++ rest, answers) b =
  (answer ← perform env junk up used_memory fuel (o_cmd o) (o_more o) (first + o_dev o) (Z.to_nat (o_dev o * 7 + o_part o));
   mret (if (control_ret stray (cmd_code (o_cmd o)) answer =? 0)%Z
         then inl (rest, answers ++ sent answer) else inr (answers ++ sent answer))) b.
Proof.
  intros Hf Hr Hb Ho. destruct (order_received first n b o rest Hf Hr Hb Ho) as (params & Hm & Hc & He).
  unfold control_turn. rewrite (bind_done _ _ _ _ _ Hm). cbn beta iota.
  unfold mbind, M_bind. by rewrite He, Hc.
Qed.
Lemma control_session_performs first n os : (0 <= first)%Z -> in_i32 (first + Z.of_nat n) ->
  Forall (names_proxy n) os -> forall b answers k, booted first n (bk_front b) -> (length os < k)%nat ->
  loop k (concat (map message os), answers) (control_turn env junk up used_memory stray fuel) b =
  perform_all first os answers b.
Proof.
  intros Hf Hr. induction 1 as [|o os Ho _ IH]; intros b answers [|k] Hb Hk; try (cbn in Hk; lia); [done|].
  cbn [map concat loop perform_all]. unfold mbind, M_bind.
  rewrite (turn_performs first n) by done. unfold mbind, M_bind.
  destruct (perform _ _ _ _ _ _ _ _ _ b) as [[a b']|] eqn:E; [|done]. cbn.
  destruct (_ =? 0)%Z; [|done]. apply IH; [|cbn in Hk; lia]. eapply booted_places; [|exact Hb]. by eapply kept_perform.
Qed.
Lemma messages_length os : (length os <= length (concat (map message os)))%nat.
Proof. induction os as [|o os IH]; cbn; [lia|]. rewrite length_app. lia. Qed.
End Orders.

(** ** The start *)
Lemma run_backend_device ind first parts f1 c :
  FrontDevIDToHostDevID (f_sys f1) !! Z.of_nat c = Some (first + Z.of_nat c)%Z ->
  (Z.of_nat (length (expand parts)) + 1 < 2147483648)%Z ->
  exists f2, backend_device ind parts 0 (Z.of_nat c) f1 = Done (tt, f2) /\
    grown (first + Z.of_nat c) (imap (made ind 0 "" (first + Z.of_nat c)) (expand parts)) f1 f2.
Proof.
  intros Ht Hm. destruct (run_add_parts ind 0 "" (first + Z.of_nat c) parts 0 f1) as (r & f2 & H2 & G2); [done|].
  exists f2. split; [|done]. unfold backend_device. rewrite (bind_done get _ f1 f1 f1) by done. rewrite Ht. cbn [default].
  rewrite (bind_done _ _ f1 tt f1); [by rewrite (bind_done _ _ _ _ _ H2)|].
  unfold mod_sys. mred. rewrite insert_id by done. by destruct f1 as [[] ?].
Qed.
Lemma run_backend_devices ind first parts f c k f1 : (Z.of_nat (length (expand parts)) + 1 < 2147483648)%Z ->
  (forall j, (j < c + k)%nat -> getDevMPSInfo (first + Z.of_nat j) (f_sys f) = [] /\
     FrontDevIDToHostDevID (f_sys f) !! Z.of_nat j = Some (first + Z.of_nat j)%Z) ->
  built ind 0 "" first parts f c f1 -> FrontDevIDToHostDevID (f_sys f1) = FrontDevIDToHostDevID (f_sys f) ->
  exists f2, for_each (map Z.of_nat (seq c k)) (backend_device ind parts 0) f1 = Done (tt, f2) /\
    built ind 0 "" first parts f (c + k) f2 /\ FrontDevIDToHostDevID (f_sys f2) = FrontDevIDToHostDevID (f_sys f).
Proof.
  intros Hm. revert c f1. induction k as [|k IH]; intros c f1 Hj Hb Ht.
  { exists f1. rewrite Nat.add_0_r. done. }
  destruct (run_backend_device ind first parts f1 c) as (f2 & H2 & G2); [rewrite Ht; apply Hj; lia|done|].
  destruct (IH (S c) f2) as (f3 & H3 & G3 & T3).
  - intros j Hjc. apply Hj. lia.
  - eapply built_step; [apply Hj; lia|exact Hb|exact G2].
  - destruct G2 as (_ & _ & _ & _ & ->). done.
  - exists f3. cbn [seq map for_each]. rewrite (bind_done _ _ _ _ _ H2). split; [exact H3|].
    by replace (c + S k)%nat with (S c + k)%nat by lia.
Qed.

Lemma proxies_booted ind first n f : nGPUs (f_sys f) = Z.of_nat n -> f_proxies f = [] ->
  (forall j, (j < n)%nat -> getDevMPSInfo (first + Z.of_nat j) (f_sys f) = [] /\
     FrontDevIDToHostDevID (f_sys f) !! Z.of_nat j = Some (first + Z.of_nat j)%Z) ->
  exists f', backend_createProxyInfos ind AVAIL_SIZES 0 f = Done (tt, f') /\ booted first n f'.
Proof.
  intros Hn Hp Hj. destruct (run_backend_devices ind first AVAIL_SIZES f 0 n f) as (f2 & H2 & B & T).
  - done.
  - exact Hj.
  - unfold built. rewrite Hp. split_and!; try done; try lia.
  - done.
  - exists f2. split.
    { unfold backend_createProxyInfos. rewrite (bind_done get _ f f f) by done. by rewrite Hn, Nat2Z.id. }
    destruct B as (B1 & B2 & B3 & B4 & B5 & B6). rewrite Hp in B1, B2, B3, B4. cbn [length] in *. split.
    + by rewrite B6.
    + intros k Hk. rewrite T. by apply Hj.
    + intros k Hk. by apply B4.
    + intros k j Hk Hjj. destruct (lookup_lt_is_Some_2 (expand AVAIL_SIZES) j) as [e He]; [exact Hjj|].
      exists (made ind 0 "" (first + Z.of_nat k) j e). split; [by apply B3|]. split; [done|]. split; [done|].
      change partition_sizes with (expand AVAIL_SIZES). rewrite He. by destruct e.
Qed.

(** ** Orders that are always answered *)
(** Everything but the start of a proxy, which waits for it; a state to set, whose
    command has no return value; and the memory query, an error if it is zero. *)
Definition plain (o : Order) : Prop :=
  match o_cmd o, o_more o with
  | BACKEND_GET_STATE, _ | BACKEND_END_PROXY, _ | BACKEND_CONNECT_PROXY, _ | BACKEND_DISCONNECT_PROXY, _
  | BACKEND_GET_NGPUS, _ => True
  | BACKEND_LOAD_MODEL, _ :: _ :: _ | BACKEND_UNLOAD_MODEL, _ :: _ => True
  | _, _ => False
  end.

Section Answers.
Context (env : nat -> list Z -> list Z) (junk : proxy_state) (up : Backend -> string -> bool) (used_memory : Z -> Z).
Context (stray : Z) (fuel : nat).
Context (first : Z) (n : nat) (Hfirst : (0 <= first)%Z) (Hhost : (first + Z.of_nat n <= _MAX_GPU)%Z).

(** The sockets of the proxy of an order. *)
Definition socket_of (side : string) (o : Order) : string :=
  let e := default (0, 0)%Z (partition_sizes !! Z.to_nat (o_part o)) in
  ("/tmp/gpusock_" +:+ side +:+ "_" +:+ print_int (first + o_dev o) +:+ "_" +:+ print_int e.1 +:+ "_" +:+ print_int e.2)%string.
(** It is told to connect, and one of the sockets is not there. *)
Definition unreachable (o : Order) : Prop :=
  o_cmd o = BACKEND_CONNECT_PROXY /\ exists b, up b (socket_of "input" o) && up b (socket_of "output" o) = false.

(** A run that may end the program when [E]. *)
Definition unless_exit {A} (E : Prop) (m : M Backend A) (b : Backend) (Q : A -> Backend -> Prop) : Prop :=
  match m b with Done (a, b') => Q a b' | Stop f => f = Exited 1 /\ E end.
Lemma unless_exit_returns {A} E (m : M Backend A) b Q : returns m b Q -> unless_exit E m b Q.
Proof. unfold returns, unless_exit. by destruct (m b) as [[a b']|]. Qed.
Lemma unless_exit_bind {A B} E (m : M Backend A) (k : A -> M Backend B) b Q1 Q :
  unless_exit E m b Q1 -> (forall a b', Q1 a b' -> unless_exit E (k a) b' Q) -> unless_exit E (mbind k m) b Q.
Proof. unfold unless_exit, mbind, M_bind. destruct (m b) as [[a b']|]; [by intros H; apply (fun Hk => Hk a b' H)|done]. Qed.
Lemma unless_exit_read {A B} E (m : M Backend A) (k : A -> M Backend B) b a b' Q :
  m b = Done (a, b') -> unless_exit E (k a) b' Q -> unless_exit E (mbind k m) b Q.
Proof. unfold unless_exit, mbind, M_bind. by intros ->. Qed.
Lemma unless_exit_weaken {A} (E E' : Prop) (m : M Backend A) b (Q Q' : A -> Backend -> Prop) :
  unless_exit E m b Q -> (E -> E') -> (forall a b', Q a b' -> Q' a b') -> unless_exit E' m b Q'.
Proof. unfold unless_exit. destruct (m b) as [[a b']|]; [eauto|]. intros [-> H] HE _. auto. Qed.

Definition serving (b : Backend) : Prop := booted first n (bk_front b) /\ length (bk_shm b) = shm_size.
(** The proxy of an order, with its slot of the shared memory. *)
Lemma serving_proxy b o : serving b -> names_proxy n o ->
  let p := Z.to_nat (o_dev o * 7 + o_part o) in
  exists x, f_proxies (bk_front b) !! p = Some x /\ slot (p_dev_id x) (partition_num x) /\
    p_dev_id x = (first + o_dev o)%Z /\ partition_sizes !! Z.to_nat (o_part o) = Some (p_cap x, p_dedup_num x).
Proof.
  intros [Hb _] [Hd Hp] p.
  destruct (bt_proxies _ _ _ Hb (Z.to_nat (o_dev o)) (Z.to_nat (o_part o))) as (x & Hx & Hn & Hv & Hc); [lia|unfold PARTS; lia|].
  exists x. split; [rewrite <- Hx; f_equal; unfold PARTS, p; lia|].
  rewrite Hn, Hv, !Z2Nat.id by lia. unfold slot, _MAX_PROXY_PER_GPU. split_and!; (lia || done).
Qed.
Lemma serving_keeps {A} (m : M Backend A) b a b' : preserves kept m -> m b = Done (a, b') ->
  length (bk_shm b') = shm_size -> serving b -> serving b'.
Proof. intros Hm H Hl [Hb _]. split; [|done]. eapply booted_places; [by eapply Hm|done]. Qed.
Lemma rd_run p x b : f_proxies (bk_front b) !! p = Some x -> on_front (rd_proxy p) b = Done (x, b).
Proof. intros H. unfold on_front, zoom, rd_proxy. mred. rewrite H. by destruct b. Qed.
Lemma mark_returns p x st b : f_proxies (bk_front b) !! p = Some x -> slot (p_dev_id x) (partition_num x) ->
  serving b -> returns (markProxy p st) b (fun _ b' => serving b').
Proof.
  intros Hx Hs Hb. assert (H : exists b', markProxy p st b = Done (tt, b') /\ length (bk_shm b') = shm_size).
  { eexists. unfold markProxy. rewrite (bind_done _ _ _ _ _ (rd_run _ _ _ Hx)). unfold on_shm, zoom.
    rewrite setProxyState_slot by (done || apply Hb). split; [reflexivity|]. cbn. rewrite length_insert. apply Hb. }
  destruct H as (b' & Hr & Hl). eapply returns_intro; [exact Hr|]. eapply serving_keeps; [apply kept_mark|done..].
Qed.
Lemma wr_returns p x g b : f_proxies (bk_front b) !! p = Some x ->
  (forall x, partition_num (g x) = partition_num x /\ p_dev_id (g x) = p_dev_id x /\
    p_cap (g x) = p_cap x /\ p_dedup_num (g x) = p_dedup_num x) ->
  serving b -> returns (on_front (wr_proxy p g)) b (fun _ b' => serving b').
Proof.
  intros Hx Hg Hb. assert (H : exists b', on_front (wr_proxy p g) b = Done (tt, b') /\ bk_shm b' = bk_shm b).
  { eexists. unfold on_front, zoom, wr_proxy. mred. rewrite Hx. done. }
  destruct H as (b' & Hr & Hl). eapply returns_intro; [exact Hr|].
  eapply serving_keeps; [by apply kept_front, places_wr|done|rewrite Hl; apply Hb|done].
Qed.
Lemma send_returns p msg b : serving b -> returns (send_msg p msg) b (fun _ b' => serving b').
Proof. intros [H1 H2]. eapply returns_intro; [reflexivity|]. by split. Qed.

Lemma state_run p x b : f_proxies (bk_front b) !! p = Some x -> slot (p_dev_id x) (partition_num x) ->
  serving b -> exists st, getProxyState p b = Done (st, b).
Proof.
  intros Hx Hs [_ Hl]. destruct (at_slot _ _ _ Hs Hl) as (v & _ & Hv). destruct (shmem_index_slot _ _ Hs) as [Hi _].
  eexists. unfold getProxyState. rewrite (bind_done _ _ _ _ _ (rd_run _ _ _ Hx)).
  rewrite (bind_done _ _ b (state_of_code v) b); [reflexivity|].
  unfold on_shm, zoom, shm_getProxyState, getShMem. mred. rewrite Hi, Hv. by destruct b.
Qed.

(** Connecting to a socket of a partition: the path fits into the buffers. *)
Lemma connect_run listens side dev j e : (0 <= dev < _MAX_GPU)%Z -> partition_sizes !! j = Some e ->
  side = "input"%string \/ side = "output"%string ->
  let path := ("/tmp/gpusock_" +:+ side +:+ "_" +:+ print_int dev +:+ "_" +:+ print_int e.1 +:+ "_" +:+ print_int e.2)%string in
  connect_to listens ("/tmp/gpusock_" +:+ side +:+ "_") dev e.1 e.2 =
  if listens path then Done path else Stop (Exited 1).
Proof.
  intros Hd Hj Hs path. unfold _MAX_GPU in Hd. assert (H : dev = 0%Z \/ dev = 1%Z \/ dev = 2%Z \/ dev = 3%Z) by lia.
  unfold path, partition_sizes in *. clear path Hd.
  do 7 (destruct j as [|j]; [cbn in Hj; injection Hj as <-;
    destruct H as [->|[->|[->| ->]]], Hs as [-> | ->]; vm_compute; reflexivity|]). done.
Qed.
Lemma connect_answered b o x p : names_proxy n o -> f_proxies (bk_front b) !! p = Some x ->
  p_dev_id x = (first + o_dev o)%Z -> partition_sizes !! Z.to_nat (o_part o) = Some (p_cap x, p_dedup_num x) ->
  o_cmd o = BACKEND_CONNECT_PROXY -> serving b ->
  unless_exit (unreachable o) (connectProxy up p) b (fun _ b' => serving b').
Proof.
  intros [Hd _] Hx Hv Hp Ho Hb. unfold connectProxy.
  eapply unless_exit_read; [by apply rd_run|]. destruct (isConnected x); [by apply unless_exit_returns, (returns_intro _ _ tt b)|].
  assert (Hc : forall side, side = "input"%string \/ side = "output"%string ->
    connect_to (up b) ("/tmp/gpusock_" +:+ side +:+ "_") (p_dev_id x) (p_cap x) (p_dedup_num x) =
    if up b (socket_of side o) then Done (socket_of side o) else Stop (Exited 1)).
  { intros side Hs. rewrite Hv. pose proof (connect_run (up b) side (first + o_dev o) _ _ ltac:(lia) Hp Hs) as H. cbn [fst snd] in H.
    rewrite H. unfold socket_of. by rewrite Hp. }
  pose proof (Hc "input"%string (or_introl eq_refl)) as Hin. pose proof (Hc "output"%string (or_intror eq_refl)) as Hout.
  change ("/tmp/gpusock_" +:+ "input" +:+ "_")%string with "/tmp/gpusock_input_"%string in Hin.
  change ("/tmp/gpusock_" +:+ "output" +:+ "_")%string with "/tmp/gpusock_output_"%string in Hout.
  eapply unless_exit_read; [reflexivity|]. unfold connectGPUProxyIn, connectGPUProxyOut. rewrite Hin, Hout.
  destruct (up b (socket_of "input" o)) eqn:E1; [|split; [done|]; split; [done|]; exists b; by rewrite E1].
  eapply unless_exit_read; [reflexivity|].
  destruct (up b (socket_of "output" o)) eqn:E2; [|split; [done|]; split; [done|]; exists b; by rewrite E1, E2].
  eapply unless_exit_read; [reflexivity|].
  apply unless_exit_returns. by eapply wr_returns.
Qed.

Lemma plain_answered b o : serving b -> names_proxy n o -> plain o ->
  unless_exit (unreachable o)
    (perform env junk up used_memory fuel (o_cmd o) (o_more o) (first + o_dev o) (Z.to_nat (o_dev o * 7 + o_part o))) b
    (fun answer b' => serving b' /\ length (sent answer) = 1 /\
       control_ret stray (cmd_code (o_cmd o)) answer = 0%Z).
Proof.
  intros Hb Ho Hp. pose proof (serving_proxy b o Hb Ho) as (x & Hx & Hs & Hv & Hcap).
  set (p := Z.to_nat (o_dev o * 7 + o_part o)) in *. unfold perform.
  eapply unless_exit_read; [reflexivity|]. cbv zeta.
  assert (Hend : forall (m : M Backend unit) z, control_ret stray (cmd_code (o_cmd o)) (Some z) = 0%Z ->
    unless_exit (unreachable o) m b (fun _ => serving) ->
    unless_exit (unreachable o) (_ ← m; mret (Some z)) b (fun answer b' => serving b' /\ length (sent answer) = 1 /\
       control_ret stray (cmd_code (o_cmd o)) answer = 0%Z)).
  { intros m z Hz Hm. eapply unless_exit_bind; [exact Hm|]. intros u b' Hb'.
    by apply unless_exit_returns, (returns_intro _ _ (Some z) b'). }
  unfold plain in Hp. destruct (o_cmd o) eqn:Eo; try done.
  - destruct (state_run p x b Hx Hs Hb) as [st Hst]. apply unless_exit_returns. eapply returns_read; [exact Hst|]. by eapply returns_intro.
  - destruct (o_more o) as [|m1 [|m2 ms]]; try done. apply Hend, unless_exit_returns; [done|].
    unfold makeProxyLoadModel. eapply returns_bind; [by eapply mark_returns|]. intros u b' Hb'. by apply send_returns.
  - destruct (o_more o) as [|m1 ms]; try done. apply Hend, unless_exit_returns; [done|].
    unfold makeProxyUnloadModel. eapply returns_bind; [by eapply mark_returns|]. intros u b' Hb'. by apply send_returns.
  - apply Hend, unless_exit_returns; [done|]. unfold endProxy. eapply returns_bind; [by eapply mark_returns|]. intros u b' Hb'.
    destruct (serving_proxy b' o Hb' Ho) as (y & Hy & _). by eapply wr_returns.
  - apply Hend, unless_exit_returns; [done|]. unfold disconnectProxy. eapply returns_bind; [by apply send_returns|]. intros u b' Hb'.
    destruct (serving_proxy b' o Hb' Ho) as (y & Hy & _). by eapply wr_returns.
  - apply Hend; [done|]. by eapply connect_answered.
Qed.
Lemma plain_session os : Forall (fun o => names_proxy n o /\ plain o) os -> forall b answers, serving b ->
  unless_exit (exists o, o ∈ os /\ unreachable o)
    (perform_all env junk up used_memory stray fuel first os answers) b (fun answers' b' =>
    serving b' /\ length answers' = (length answers + length os)%nat).
Proof.
  induction 1 as [|o os [Ho Hp] _ IH]; intros b answers Hb; cbn [perform_all].
  { apply unless_exit_returns. eapply returns_intro; [reflexivity|]. cbn. by rewrite Nat.add_0_r. }
  eapply unless_exit_bind.
  { eapply unless_exit_weaken; [by apply plain_answered| |intros a b' H; exact H].
    intros Hu. exists o. split; [by left|done]. }
  intros a b' (Hb' & Ha & ->). cbn [Z.eqb].
  eapply unless_exit_weaken; [by apply IH| |].
  - intros (o' & Ho' & Hu). exists o'. split; [by right|done].
  - intros l b'' [H1 H2]. split; [done|]. rewrite H2, length_app, Ha. cbn. lia.
Qed.
End Answers.

(** ** The whole start *)
Definition same_hw (s s' : SysMonitor) : Prop := FrontDevIDToHostDevID s' = FrontDevIDToHostDevID s /\
  PerDevMPSInfo s' = PerDevMPSInfo s /\ nGPUs s' = nGPUs s.
#[local] Instance same_hw_preorder : PreOrder same_hw.
Proof. split; [by intros s|]. intros s1 s2 s3 (?&?&?) (?&?&?). unfold same_hw. intuition congruence. Qed.
Definition same_hw_dims (s s' : SysMonitor * gmap Z (list Z)) : Prop := same_hw s.1 s'.1.
#[local] Instance same_hw_dims_preorder : PreOrder same_hw_dims.
Proof. split; unfold same_hw_dims; [by intros s|]. intros s1 s2 s3 H1 H2. by etransitivity. Qed.
Lemma readInputDims_hw config : preserves same_hw_dims (readInputDims config).
Proof.
  unfold readInputDims. destruct config; [|apply preserves_ret; typeclasses eauto].
  preserve; by apply preserves_modify.
Qed.
Lemma booted_hw first n f s : same_hw (f_sys f) s -> booted first n f -> booted first n (set_f_sys s f).
Proof.
  intros (H1 & H2 & H3) [B1 B2 B3 B4]. split; cbn; [by rewrite H3|by rewrite H1| |done].
  intros k Hk. unfold getDevMPSInfo. rewrite H2. by apply B3.
Qed.
(** The files of the backend can be read, as far as reading them can fail. *)
Definition files_readable (ind : Indet) (vm : BackendOptions) : Prop :=
  (forall s, exists r, readInputDims (bo_proxy vm) s = Done r) /\
  (exists r, readInputTypesJSONFile (bo_proxy vm) ∅ ∅ = Done r) /\
  (forall specs, exists r, configAppSpec (bo_config vm) (bo_files vm) ind (bo_resource_dir vm) specs = Done r).

(** A backend with the GPUs [first] to [last] of its host comes up, ... *)
Lemma backend_boots ind segment vm first last :
  stoi_all (segments (S (String.length (bo_gpu_idxs vm))) (bo_gpu_idxs vm)) = Done [first; last] ->
  (0 <= first <= last)%Z -> in_i32 (last + 1) -> (0 < bo_nproxy vm)%Z -> files_readable ind vm ->
  exists maps b, backend_main ind segment vm (new_Backend ind) = Done (maps, b) /\
    booted first (Z.to_nat (last - first + 1)) (bk_front b) /\ bk_shm b = replicate shm_size 0%Z.
Proof.
  intros Ht Hfl Hr Hn (Hdims & Htypes & Happs). set (n := Z.to_nat (last - first + 1)).
  unfold backend_main. set (s0 := new_SysMonitor ind).
  set (s1 := set_nProxyPerGPU (bo_nproxy vm) (set_FrontDevIDToHostDevID (fill_table first n ∅) (set_nGPUs (last - first + 1) s0))).
  assert (H1 : configureServerHW (bo_gpu_idxs vm) (bo_nproxy vm) s0 = Done (tt, s1)).
  { unfold configureServerHW. rewrite (bind_done _ _ _ _ _ (parseGPUIdxs_run _ _ _ s0 Ht Hfl Hr)).
    cbn. mred. cbn [nGPUs set_nGPUs set_FrontDevIDToHostDevID set_nProxyPerGPU nProxyPerGPU].
    rewrite (proj2 (Z.leb_le _ _)), (proj2 (Z.ltb_lt _ _)) by lia. done. }
  destruct (proxies_booted ind first n (mkFront s1 [])) as (f & Hf & Hb).
  { cbn. unfold n. lia. } { done. }
  { intros j Hj. split; [done|]. cbn. apply fill_table_lookup. unfold n in *. lia. }
  destruct (Hdims (f_sys f, ∅)) as [[ok [s2 dims]] H2]. destruct Htypes as [[[ok2 types] outs] H3].
  destruct (Happs (AppSpecVec s2)) as [[ok3 specs] H4].
  pose proof (readInputDims_hw _ _ _ _ H2) as Hhw. unfold same_hw_dims in Hhw. cbn in Hhw.
  eexists (dims, types), (mkBackend (set_f_sys (set_AppSpecVec specs s2) f) _ [] [] 0). split; [|split].
  - rewrite (bind_done _ _ _ tt (mkBackend (mkFront s1 []) [] [] [] 0)).
    2:{ unfold on_monitor, on_front, sys, zoom, new_Backend. cbn [bk_front f_sys]. fold s0. by rewrite H1. }
    rewrite (bind_done (modify _) _ _ tt (mkBackend (mkFront s1 []) (initShMem true segment) [] [] 0)) by done.
    rewrite (bind_done _ _ _ tt (mkBackend f (initShMem true segment) [] [] 0)).
    2:{ unfold on_front, zoom. cbn [bk_front]. by rewrite Hf. }
    rewrite (bind_done _ _ _ dims (mkBackend (set_f_sys s2 f) (initShMem true segment) [] [] 0)).
    2:{ unfold backend_readInputDims. erewrite bind_done by reflexivity. cbn [bk_front f_sys set_f_sys].
        rewrite (lift_done _ _ _ _ H2). reflexivity. }
    rewrite (lift_done _ _ _ _ H3).
    rewrite (bind_done _ _ _ EXIT_SUCCESS (mkBackend (set_f_sys (set_AppSpecVec specs s2) f) (initShMem true segment) [] [] 0)).
    2:{ unfold backend_configureAppSpec. erewrite bind_done by reflexivity. cbn [bk_front f_sys set_f_sys].
        rewrite (lift_done _ _ _ _ H4). reflexivity. }
    reflexivity.
  - cbn. by apply booted_hw.
  - done.
Qed.


Definition start_backend_options : BackendOptions :=
  mkBackendOptions "2-3" 2 (Some (JObject [("Models", JArray [JObject [("name", JString "lenet1"); ("proxy_id", JInt 4);
      ("input_dim", JArray [JInt 1; JInt 28]); ("input_type", JString "FP32"); ("output_type", JString "FP32")]])]))
    (Some (Some (JObject [("App_specs", JArray [])]))) (fun _ => None) "" %string.
Definition start_orders : list Order :=
  [mkOrder BACKEND_CONNECT_PROXY 1 6 []; mkOrder BACKEND_LOAD_MODEL 1 6 [4; 32]%Z; mkOrder BACKEND_GET_STATE 0 2 []].
(** Proxy 6 of the second GPU listens on its sockets. *)
Definition start_up (_ : Backend) (path : string) : bool :=
  bool_decide (path ∈ ["/tmp/gpusock_input_3_100_0"; "/tmp/gpusock_output_3_100_0"]%string).

(** Without them the first order ends the backend. *)
Lemma connect_nobody_listens :
  match backend_main (mkIndet 0 fzero false) [] start_backend_options (new_Backend (mkIndet 0 fzero false)) with
  | Done (_, b) => control_session (fun _ m => m) COLD (fun _ _ => false) (fun _ => 0%Z) 7 0 (concat (map message start_orders)) b
                     = Stop (Exited 1)
  | Stop _ => False
  end.
Proof. vm_compute. reflexivity. Qed.
