(* ===== verification/BackendSocket.v ===== *)
(** * The control connection byte by byte ([backend_control.cpp],
    [backend_proxy_ctrl.cpp], [backend_thread.cpp])

    [Control] and [BackendMain] give a control connection a list of [int]s; here
    both ends read and write them on a [Socket], in the order of the code, and
    [socket_session_refines] shows that the two are the same. *)
From Stdlib Require Import ZArith Lia.
From S2P Require Import Prelude CppFloat CppStd AppModel SysState Control ControlProps BackendMain BackendProps Socket SocketProps.

Section BackendSocket.
Context {K : Kernel}.

(** ** The frontend: one message and its answer *)
Definition socket_call (message : list Z) : M Sock Z :=
  _ ← for_each message (fun z => _ ← socket_txsize z; mret tt);
  socket_rxsize.

(** ** The backend *)
Definition Conn : Type := Backend * Sock.
Definition on_backend {A} (m : M Backend A) : M Conn A := zoom fst (fun b c => (b, c.2)) m.
Definition on_sock {A} (m : M Sock A) : M Conn A := zoom snd (fun s c => (c.1, s)) m.

(** The loop over the optional parameters. *)
Fixpoint rx_params (n : nat) : M Conn (list Z) :=
  match n with
  | O => mret []
  | S n' => buf ← on_sock socket_rxsize; recv_data ← rx_params n'; mret (buf :: recv_data)
  end.
Definition socket_receiveControl : M Conn (option (list Z)) :=
  rdsize ← on_sock socket_rxsize;
  if (rdsize =? 0)%Z then mret None
  else
    _ ← massert (3 <=? rdsize)%Z;
    cmd ← on_sock socket_rxsize;
    buf ← on_sock socket_rxsize;
    b ← on_backend get;
    host ← lift (match FrontDevIDToHostDevID (f_sys (bk_front b)) !! buf with
                 | Some host => Done host | None => Stop Uncaught end);
    part ← on_sock socket_rxsize;
    more ← rx_params (Z.to_nat (rdsize - 3));
    mret (Some (cmd :: host :: part :: more)).

Section Session.
Context (env : nat -> list Z -> list Z) (junk : proxy_state) (up : Backend -> string -> bool) (used_memory : Z -> Z) (stray : Z) (fuel : nat).

Definition socket_executeControl (recv_data : list Z) : M Conn Z :=
  answer ← on_backend (executeControl env junk up used_memory fuel recv_data);
  _ ← match answer with Some z => on_sock (socket_txsize z) | None => mret 0%Z end;
  mret (control_ret stray (default 0%Z (head recv_data)) answer).
Definition socket_turn (_ : unit) : M Conn (unit + unit) :=
  message ← socket_receiveControl;
  match message with
  | None => mret (inr tt)
  | Some recv_data =>
      ret ← socket_executeControl recv_data;
      mret (if (ret =? 0)%Z then inl tt else inr tt)
  end.
Definition socket_session (turns : nat) : M Conn unit := loop turns tt socket_turn.
End Session.
End BackendSocket.

(** ** Proofs *)
Definition wire (zs : list Z) : list Z := concat (map int_bytes zs).
Lemma wire_app l1 l2 : wire (l1 ++ l2) = wire l1 ++ wire l2.
Proof. unfold wire. by rewrite map_app, concat_app. Qed.
Lemma wire_one z : wire [z] = int_bytes z.
Proof. apply app_nil_r. Qed.

Section Proofs.
Context {K : Kernel} `{!WholeInts K}.

(** What reads [zs] on the list reads the same on the socket. *)
Definition next_int (zs : list Z) : Z * list Z := match zs with [] => (0%Z, []) | z :: zs' => (z, zs') end.
Lemma rx_next zs b s : Forall in_i32 zs -> sk_in s = wire zs ->
  exists s', on_sock socket_rxsize (b, s) = Done ((next_int zs).1, (b, s')) /\
    sk_in s' = wire (next_int zs).2 /\ sk_out s' = sk_out s /\ Forall in_i32 (next_int zs).2.
Proof.
  intros Hz Hs. unfold on_sock, zoom. cbn [snd]. destruct zs as [|z zs]; eexists; cbn [next_int fst snd].
  - rewrite (socket_rxsize_end s Hs). done.
  - inversion Hz; subst. rewrite (socket_rxsize_run z (wire zs) s) by done. done.
Qed.
Lemma rx_params_run n zs b s : Forall in_i32 zs -> sk_in s = wire zs ->
  exists s', rx_params n (b, s) = Done ((take_ints n zs).1, (b, s')) /\
    sk_in s' = wire (take_ints n zs).2 /\ sk_out s' = sk_out s /\ Forall in_i32 (take_ints n zs).2.
Proof.
  revert zs s. induction n as [|n IH]; intros zs s Hz Hs; [by exists s|].
  destruct (rx_next zs b s Hz Hs) as (s1 & H1 & H2 & H3 & H4).
  destruct (IH _ s1 H4 H2) as (s2 & H5 & H6 & H7 & H8). exists s2. cbn [rx_params take_ints].
  rewrite (bind_done _ _ _ _ _ H1), (bind_done _ _ _ _ _ H5). fold (next_int zs).
  destruct (next_int zs) as [z zs']. cbn [fst snd] in *. destruct (take_ints n zs') as [xs rest]. cbn [fst snd] in *.
  split; [done|]. split; [done|]. split; [congruence|done].
Qed.

Lemma take_ints_S n zs : take_ints (S n) zs =
  ((next_int zs).1 :: (take_ints n (next_int zs).2).1, (take_ints n (next_int zs).2).2).
Proof. cbn [take_ints]. fold (next_int zs). destruct (next_int zs) as [z zs']. cbn [fst snd]. by destruct (take_ints n zs'). Qed.

(** The two sides: the same outcome, the same backend, what is left of the list
    in the socket, and what [more] says was written. *)
Definition on_wire (zs out : list Z) (s : Sock) : Prop := sk_in s = wire zs /\ sk_out s = out /\ Forall in_i32 zs.
Definition same_run {A B} (m : M Conn A) (m' : M Backend B) (b : Backend) (s : Sock)
    (R : A -> B -> Sock -> Prop) : Prop :=
  match m' b with
  | Done (y, b') => exists x s', m (b, s) = Done (x, (b', s')) /\ R x y s'
  | Stop e => m (b, s) = Stop e
  end.

Lemma receive_same zs b s : on_wire zs (sk_out s) s ->
  same_run socket_receiveControl (receiveControl zs) b s (fun x y s' => x = y.1 /\ on_wire y.2 (sk_out s) s').
Proof.
  intros (Hs & _ & Hz). unfold same_run, receiveControl, socket_receiveControl. fold (next_int zs).
  destruct (rx_next zs b s Hz Hs) as (s1 & H1 & I1 & O1 & Z1).
  destruct (next_int zs) as [rdsize zs1] eqn:E. cbn [fst snd] in *. rewrite (bind_done _ _ _ _ _ H1).
  destruct (Z.eqb_spec rdsize 0) as [|Hne]; [by exists None, s1|].
  destruct (Z.leb_spec 3 rdsize) as [Hle|Hlt]; [|done].
  replace (Z.to_nat rdsize) with (S (S (S (Z.to_nat (rdsize - 3))))) by lia. rewrite !take_ints_S.
  destruct (rx_next zs1 b s1 Z1 I1) as (s2 & H2 & I2 & O2 & Z2).
  destruct (rx_next _ b s2 Z2 I2) as (s3 & H3 & I3 & O3 & Z3).
  destruct (rx_next _ b s3 Z3 I3) as (s4 & H4 & I4 & O4 & Z4).
  destruct (rx_params_run (Z.to_nat (rdsize - 3)) _ b s4 Z4 I4) as (s5 & H5 & I5 & O5 & Z5).
  unfold massert. mred. rewrite H2. cbn [fst snd]. rewrite H3. cbn [fst snd].
  destruct (FrontDevIDToHostDevID (f_sys (bk_front b)) !! _) as [host|]; [|done].
  eexists _, s5. rewrite H4, H5. split; [reflexivity|]. split; [done|]. split; [done|]. split; [congruence|done].
Qed.

Section Session.
Context (env : nat -> list Z -> list Z) (junk : proxy_state) (up : Backend -> string -> bool) (used_memory : Z -> Z) (stray : Z) (fuel : nat).

Lemma turn_same zs answers out b s : on_wire zs (out ++ wire answers) s ->
  same_run (socket_turn env junk up used_memory stray fuel tt)
    (control_turn env junk up used_memory stray fuel (zs, answers)) b s (fun x y s' =>
    match x, y with
    | inl tt, inl (zs', answers') => on_wire zs' (out ++ wire answers') s'
    | inr tt, inr answers' => sk_out s' = out ++ wire answers'
    | _, _ => False
    end).
Proof.
  intros H. destruct H as (H1 & Hout & H2). pose proof (receive_same zs b s ltac:(by split)) as Hr.
  unfold same_run in *. unfold socket_turn, control_turn.
  destruct (receiveControl zs b) as [[[message zs'] b']|e] eqn:E.
  - destruct Hr as (x & s1 & Hs1 & -> & (I1 & O1 & Z1)). rewrite (bind_done _ _ _ _ _ E), (bind_done _ _ _ _ _ Hs1).
    cbn [fst snd]. destruct message as [recv_data|].
    + unfold socket_executeControl, on_backend, zoom. mred.
      destruct (executeControl env junk up used_memory fuel recv_data b') as [[answer b2]|e]; [|done].
      destruct answer as [z|]; cbn [sent].
      * unfold on_sock, zoom. cbn [fst snd]. rewrite socket_txsize_run.
        set (r := control_ret _ _ _). eexists _, _. split; [reflexivity|]. destruct (r =? 0)%Z.
        -- split; [done|]. split; [|done]. cbn [sk_out]. by rewrite O1, Hout, wire_app, app_assoc, wire_one.
        -- cbn [sk_out]. by rewrite O1, Hout, wire_app, app_assoc, wire_one.
      * set (r := control_ret _ _ _). eexists _, _. split; [reflexivity|]. rewrite app_nil_r.
        destruct (r =? 0)%Z; [split; [done|]; split; [congruence|done]|congruence].
    + eexists _, s1. split; [reflexivity|]. cbn. congruence.
  - mred. by rewrite E, Hr.
Qed.
Lemma session_same k zs answers out b s : on_wire zs (out ++ wire answers) s ->
  same_run (socket_session env junk up used_memory stray fuel k)
    (loop k (zs, answers) (control_turn env junk up used_memory stray fuel)) b s
    (fun _ answers' s' => sk_out s' = out ++ wire answers').
Proof.
  unfold socket_session. revert zs answers b s. induction k as [|k IH]; intros zs answers b s H; [done|].
  pose proof (turn_same zs answers out b s H) as Ht. unfold same_run in *. cbn [loop].
  destruct (control_turn _ _ _ _ _ _ (zs, answers) b) as [[y b']|e] eqn:E.
  - rewrite (bind_done _ _ _ _ _ E). destruct Ht as (x & s1 & H1 & H2). rewrite (bind_done _ _ _ _ _ H1).
    destruct x as [[]|[]], y as [[zs' answers']|answers']; try done.
    + by apply IH.
    + by eexists _, s1.
  - mred. by rewrite E, Ht.
Qed.
End Session.

(** The frontend's end: the message is written, the answer read. *)
Lemma socket_call_run message answer rest s : in_i32 answer -> sk_in s = int_bytes answer ++ rest ->
  exists s', socket_call message s = Done (answer, s') /\ sk_in s' = rest /\ sk_out s' = sk_out s ++ wire message.
Proof.
  intros Ha. unfold socket_call. revert s. induction message as [|z message IH]; intros s Hs.
  - cbn [for_each]. eexists. mred. rewrite (socket_rxsize_run answer rest s Ha Hs). split; [reflexivity|].
    cbn. by rewrite app_nil_r.
  - destruct (IH (mkSock (sk_in s) (sk_out s ++ int_bytes z) (S (sk_calls s))) Hs) as (s' & H1 & H2 & H3).
    exists s'. cbn [for_each]. split; [|split; [done|]].
    + mred. by rewrite socket_txsize_run.
    + rewrite H3. cbn. by rewrite <- app_assoc.
Qed.
Lemma calls_run messages answers s : length answers = length messages -> Forall in_i32 answers -> sk_in s = wire answers ->
  exists s', mapM socket_call messages s = Done (answers, s') /\ sk_in s' = [] /\
    sk_out s' = sk_out s ++ wire (concat messages).
Proof.
  revert answers s. induction messages as [|message messages IH]; intros answers s Hl Ha Hs.
  - apply nil_length_inv in Hl as ->. exists s. cbn. by rewrite app_nil_r.
  - destruct answers as [|a answers]; [done|]. apply Forall_cons in Ha as [Ha1 Ha].
    destruct (socket_call_run message a (wire answers) s) as (s1 & H1 & H2 & H3); [done..|].
    destruct (IH answers s1) as (s2 & H4 & H5 & H6); [by injection Hl|done|done|].
    exists s2. cbn [mapM]. rewrite (bind_done _ _ _ _ _ H1), (bind_done _ _ _ _ _ H4). split; [done|]. split; [done|].
    rewrite H6, H3. cbn [concat]. by rewrite wire_app, app_assoc.
Qed.
End Proofs.

(** C24: A control connection carries whole messages both ways, byte by byte.  When
    the system moves an [int] in one call, a backend whose socket receives the bytes
    of messages ends as the session on their [int]s does - with the same failure, or
    with the same state of its proxies and the bytes of the answers written, in
    order.  A frontend that sends those messages one by one writes exactly the bytes
    the backend reads, and when every message got its answer, each of its calls
    returns the answer to its own message. *)
Theorem socket_session_refines (K : Kernel) (W : WholeInts K) env junk up used_memory stray fuel
    (messages : list (list Z)) (b : Backend) (Hz : Forall in_i32 (concat messages)) :
  let zs := concat messages in
  let session := socket_session env junk up used_memory stray fuel (S (length zs)) in
  match control_session env junk up used_memory stray fuel zs b with
  | Done (answers, b') =>
      (forall s, sk_in s = wire zs ->
         exists s', session (b, s) = Done (tt, (b', s')) /\ sk_out s' = sk_out s ++ wire answers) /\
      (length answers = length messages -> Forall in_i32 answers ->
         exists f', mapM socket_call messages (mkSock (wire answers) [] 0) = Done (answers, f') /\
           sk_in f' = [] /\ sk_out f' = wire zs)
  | Stop e => forall s, sk_in s = wire zs -> session (b, s) = Stop e
  end.
Proof.
  intros zs session. assert (H : forall s, sk_in s = wire zs ->
    same_run session (control_session env junk up used_memory stray fuel zs) b s
      (fun _ answers s' => sk_out s' = sk_out s ++ wire answers)).
  { intros s Hs. apply session_same. split; [done|]. split; [by rewrite app_nil_r|done]. }
  unfold same_run in H. destruct (control_session _ _ _ _ _ _ zs b) as [[answers b']|e]; [|done]. split.
  - intros s Hs. destruct (H s Hs) as ([] & s' & H1 & H2). by exists s'.
  - intros Hl Ha. apply (calls_run messages answers (mkSock (wire answers) [] 0)); done.
Qed.
(** Ask for the number of GPUs, then load model 4 for batches of 100000. *)
Definition demo_messages : list (list Z) := [[3; 9; 0; 1]; [5; 2; 0; 1; 4; 100000]]%Z.
Lemma in_i32_check l : forallb (fun z => (INT_MIN <=? z) && (z <=? INT_MAX))%Z l = true -> Forall in_i32 l.
Proof.
  intros H. rewrite forallb_forall in H. apply Forall_forall. intros z Hz. apply list_elem_of_In in Hz.
  specialize (H z Hz). apply andb_prop in H as [H1 H2]. apply Z.leb_le in H1, H2. by split.
Qed.
Lemma socket_session_refines_witness :
  exists b' s' f', @socket_session whole_kernel (fun _ m => m) COLD (fun _ _ => true) (fun _ => 0%Z) 0 7 11
      (demo_backend, mkSock (wire (concat demo_messages)) [] 0) = Done (tt, (b', s')) /\
    sk_out s' = [1; 0; 0; 0; 0; 0; 0; 0]%Z /\
    mapM (@socket_call whole_kernel) demo_messages (mkSock (sk_out s') [] 0) = Done ([1; 0]%Z, f').
Proof.
  pose proof (socket_session_refines whole_kernel whole_kernel_whole (fun _ m => m) COLD (fun _ _ => true) (fun _ => 0%Z) 0 7
    demo_messages demo_backend) as H.
  assert (Hz : Forall in_i32 (concat demo_messages)) by (apply in_i32_check; vm_compute; reflexivity).
  specialize (H Hz). cbv zeta in H.
  destruct (control_session (fun _ m => m) COLD (fun _ _ => true) (fun _ => 0%Z) 0 7 (concat demo_messages) demo_backend) as [[answers b']|e] eqn:E.
  - assert (Ha : answers = [1; 0]%Z).
    { assert (E' : option_map fst (match control_session (fun _ m => m) COLD (fun _ _ => true) (fun _ => 0%Z) 0 7 (concat demo_messages) demo_backend
        with Done r => Some r | Stop _ => None end) = Some [1; 0]%Z) by (vm_compute; reflexivity).
      rewrite E in E'. by injection E'. }
    subst answers. destruct H as [H1 H2]. destruct (H1 (mkSock (wire (concat demo_messages)) [] 0) eq_refl) as (s' & H3 & H4).
    destruct (H2 eq_refl ltac:(apply in_i32_check; vm_compute; reflexivity)) as (f' & H5 & _).
    exists b', s', f'. split; [exact H3|]. split; [exact H4|]. rewrite H4. exact H5.
  - exfalso. assert (E' : match control_session (fun _ m => m) COLD (fun _ _ => true) (fun _ => 0%Z) 0 7 (concat demo_messages) demo_backend
      with Done _ => True | Stop _ => False end) by (vm_compute; exact I). by rewrite E in E'.
Defined.
