(* ===== verification/FrontendMain.v ===== *)
(** * The frontend program ([frontend.cpp]) and the starts of its threads
    ([service/server_thread.cpp], [proxy_thread.cpp], [app_thread.cpp],
    [monitor_thread.cpp], [drop_thread.cpp]).

    A thread is recorded when it is created; of what it does then, only the set-up
    of a proxy is part of the start, since [initProxyThreads] waits for it, and that
    of the thread of an application, for which [configureAppSpec] leaves half a
    second.  The
    steps of the threads are in [Pipeline], those of the monitor in [GlobalState].
    Files are their contents; sleeping and printing are left out. *)
From Stdlib Require Import ZArith SpecFloat String Lia.
From S2P Require Import Prelude CppFloat CppStd LatencyModel DevPerfModel SchedData SchedUtils SchedBase Json LoadBalancer SelfTuning AppModel SysState Control GlobalState GlobalSched GlobalSetup Pipeline.

Inductive Thread : Type :=
| T_App (name : string)           (* [initApp] *)
| T_Proxy (p : ProxyPtr)          (* [initProxy]: forms batches *)
| T_Output (p : ProxyPtr)         (* [initOutput]: receives results *)
| T_Monitor | T_GPUMonitor | T_UtilMonitor
| T_Drop                          (* [initLazyDrop], with a pointer to a dead variable *)
| T_SendResults                   (* [initSend] *)
| T_Server.                       (* [initServer] *)
#[global] Instance Thread_eq_dec : EqDecision Thread.
Proof. solve_decision. Defined.

Definition MAX_TASK : nat := 3.
Definition THREAD_PER_TASK : nat := 2 * MAX_TASK.
Definition TOTAL_SENDTHREAD : nat := 8.
Definition TOTAL_OUTPUT_THREAD_PER_PROXY : nat := 2.

(** The options ([None] for a file that does not open, as far as the reader tells)
    and the files they name. *)
Record FrontendOptions : Type := mkFrontendOptions {
  fo_scheduler : string; fo_drop : spec_float; fo_emulation : Z; fo_resource_dir : string; fo_model_list : string;
  fo_config : option (option Value); fo_files : string -> option (option Value); fo_proxy : option Value;
  fo_backends : option Value; fo_latency : list string; fo_rates : option string;
  fo_model_lines : list string; fo_sched : SchedFiles }.

Section Frontend.
Context {Tensor : Type} `{!Torch Tensor}.
Context (reply : list (Z * list Z) -> Z) (threads : nat -> Frontend -> Frontend) (fuel : nat).
Context (connect : string -> bool) (ngpus : Z -> Z) (addr : ProxyPtr -> Z) (clock : nat -> Z).
Abbreviation FM := (M (Service Tensor * list Thread)).

Definition in_service {A} (m : M (Service Tensor) A) : FM A := zoom fst (fun s st => (s, st.2)) m.
Definition in_server {A} (m : GM A) : FM A := in_service (on_server m).
Definition pthread_create (t : Thread) : FM unit := modify (fun st => (st.1, st.2 ++ [t])).

(** ** Starting threads *)
(** [initProxy] up to its loop: only the first thread of a proxy sets it up. *)
Definition initProxy_setup (p : ProxyPtr) : M (Service Tensor) unit :=
  x ← p_rd p;
  if isSetup x then mret tt else _ ← ProxyBasicSetup p; p_wr p (set_isSetup true).
Definition initProxyThread (p : ProxyPtr) : FM unit :=
  _ ← pthread_create (T_Proxy p); in_service (initProxy_setup p).
(** The proxies of the devices [0 .. nGPUs - 1]. *)
Definition for_proxies (nGPUs : Z) (body : ProxyPtr -> FM unit) : FM unit :=
  for_each (dev_range nGPUs) (fun i => m ← in_service p_monitor; for_each (getDevMPSInfo i m) body).
Definition initProxyThreads (nGPUs : Z) : FM unit :=
  for_proxies nGPUs (fun p => for_each (seq 0 THREAD_PER_TASK) (fun _ => initProxyThread p)).
Definition initOutputThreads (nGPUs : Z) : FM unit :=
  for_proxies nGPUs (fun p => for_each (seq 0 TOTAL_OUTPUT_THREAD_PER_PROXY) (fun _ => pthread_create (T_Output p))).
Definition initiateMonitoring : FM unit :=
  _ ← pthread_create T_Monitor; _ ← pthread_create T_GPUMonitor; pthread_create T_UtilMonitor.
Definition initDropThread (drop_ratio : spec_float) : FM unit :=
  _ ← massert (leb fzero drop_ratio); when (fneqb drop_ratio fzero) (pthread_create T_Drop).
Definition initResultThreads (number_of_result_threads : nat) : FM unit :=
  for_each (seq 0 number_of_result_threads) (fun _ => pthread_create T_SendResults).

(** ** The server thread ([initServer])

    A turn of its loop: without work it looks at the queues, otherwise it runs the
    scheduler.  Nothing sets [ready] back to 0. *)
Definition check_ready : M (Service Tensor) unit :=
  m ← p_monitor;
  for_each (ReqListHashTable m) (fun it =>
    when (negb (length it.2 =? 0)%nat) (modify (set_se_ready (i32 (Z.of_nat (length it.2)))))).
Definition initServer_turn : M (Service Tensor) unit :=
  s ← get;
  if (se_ready s =? 0)%Z then check_ready else on_server (doMPSScheduling reply threads fuel clock).

(** ** The monitors of the GPUs: the numbers of one round *)
Definition gpu_monitor_round : M (Service Tensor) float32 :=
  m ← p_monitor;
  gpu_part ← for_acc (all_proxies m) fzero (fun gpu_part p =>
    x ← p_rd p;
    mret (if (length (getProxyNetList p m) =? 0)%nat then gpu_part else fadd gpu_part (i2f (p_cap x))));
  mret (fdiv gpu_part (i2f 100)).
Definition util_monitor_round : M (Service Tensor) Z :=
  m ← p_monitor;
  for_acc (dev_range (nGPUs m)) 0%Z (fun num_gpu i =>
    found ← for_ret (getDevMPSInfo i m) (fun p => x ← p_rd p; mret (if isSchedulable x then Some tt else None));
    mret (match found with Some _ => i32 (num_gpu + 1) | None => num_gpu end)).

(** ** [main] up to the loop that accepts clients

    What the readers of the two application files return is ignored. *)
Definition initAppThread (App : AppSpec) : FM unit :=
  _ ← pthread_create (T_App (as_name App)); in_service (initApp_setup (as_name App)).
Definition configureAppSpec (config : option (option Value)) (files : string -> option (option Value))
    (ind : Indet) (resource_dir : string) : FM unit :=
  m ← in_service p_monitor;
  '(_, specs) ← lift (configAppSpec config files ind resource_dir (AppSpecVec m));
  _ ← in_service (p_mod_monitor (set_AppSpecVec specs));
  for_each specs initAppThread.
Definition read_proxy_json (config : option Value) : GM unit :=
  m ← monitor;
  '(_, (m, _)) ← lift (readInputDims config (m, ∅));
  mod_monitor (fun _ => m).
Definition connect_backends (config : option Value) : GM unit :=
  s ← get;
  '(failed, delegates) ← lift (connectBackendList config connect ngpus (sv_delegates s));
  if (failed : bool) then fail (Exited 1) else put (set_sv_delegates delegates s).
Definition setup_proxys (ind : Indet) : GM unit :=
  s ← get; on_front_fe (configure_all ind (sv_delegates s)).

Definition load_configuration (vm : FrontendOptions) (ind : Indet) : FM unit :=
  _ ← in_server (setupModelwithJSON (fo_config vm) (fo_files vm) (fo_resource_dir vm));
  _ ← configureAppSpec (fo_config vm) (fo_files vm) ind (fo_resource_dir vm);
  _ ← in_server (read_proxy_json (fo_proxy vm));
  _ ← massert (0 <=? fo_emulation vm)%Z;
  _ ← in_server (connect_backends (fo_backends vm));
  _ ← in_server (setup_proxys ind);
  _ ← in_server (setupLatencyModel (fo_latency vm));
  _ ← in_server (setupInitTgtRate (fo_rates vm));
  in_server (setupScheduler (fo_scheduler vm) (fo_sched vm)).

Definition start_threads (vm : FrontendOptions) : FM unit :=
  m ← in_service p_monitor;
  _ ← initProxyThreads (nGPUs m);
  _ ← initOutputThreads (nGPUs m);
  _ ← initiateMonitoring;
  _ ← initDropThread (fo_drop vm);
  initResultThreads TOTAL_SENDTHREAD.

Definition frontend_main (vm : FrontendOptions) (ind : Indet) : FM unit :=
  _ ← load_configuration vm ind;
  _ ← start_threads vm;
  _ ← in_server (setLoadBalancingMode "wrr");
  _ ← in_server setupBackendProxyCtrls;
  _ ← in_server
        (if String.eqb (fo_scheduler vm) "mps_static"
         then readAndBoot reply threads fuel addr (fo_model_list vm) (fo_model_lines vm)
         else _ ← oneshotScheduling reply threads fuel; mret tt);
  pthread_create T_Server.
End Frontend.
