(* ===== verification/FrontendProps.v ===== *)
(** * Properties of the frontend program: when its threads run, every proxy is set
    up once and has the queues they use. *)
From Stdlib Require Import ZArith SpecFloat String Lia.
From S2P Require Import Prelude CppFloat CppStd LatencyModel DevPerfModel SchedData SchedUtils SchedBase Json LoadBalancer SelfTuning AppModel AppProps SysState Control GlobalState GlobalSched GlobalSetup Pipeline DemoServer PipelineProps MapProps Setup FrontendMain.

Section FrontendProps.
Context {Tensor : Type} `{!Torch Tensor}.
Local Abbreviation St := (Service Tensor).
Local Abbreviation FSt := (St * list Thread)%type.

Definition heap (s : St) : list ProxyInfo := f_proxies (fe_front (sv_fe (se_server s))).
Definition names_of (s : St) : list string := mNetNames (sv_gs (se_server s)).
Definition devices (s : St) : gmap Z (list ProxyPtr) := PerDevMPSInfo (mon s).

Definition is_up (s : St) (p : ProxyPtr) : Prop := exists x, heap s !! p = Some x /\ isSetup x = true.
(** A model can be queued for: it has a queue of requests and the mutex of it. *)
Definition net_ready (s : St) (name : string) : Prop :=
  isQueueforNet name (mon s) = true /\ name ∈ ReqMtxVec s.
(** Everything the threads of the proxy use is there, and empty. *)
Definition set_up (s : St) (p : ProxyPtr) : Prop :=
  exists x, heap s !! p = Some x /\ isSetup x = true /\
    PerProxyOutputQueue s !! p = Some [] /\ PerProxyBatchList (mon s) !! p = Some [] /\
    Forall (fun name => isTaskExec x !! name = Some 0%Z /\ isTaskBatching x !! name = Some 0%Z /\ net_ready s name)
      (names_of s).

(** The starting code: [s0] is the service after the configuration. *)
Record startable (s0 s : St) : Prop := {
  st_devices : devices s = devices s0;
  st_gpus : nGPUs (mon s) = nGPUs (mon s0);
  st_names : names_of s = names_of s0;
  st_heap : length (heap s) = length (heap s0);
  st_mutexes : forall name, isQueueforNet name (mon s) = true -> name ∈ ReqMtxVec s;
  st_up : forall p, is_up s p -> set_up s p }.

(** ** The parts of [ProxyBasicSetup] *)
Lemma p_wr_run p f x (s : St) : heap s !! p = Some x ->
  exists s', p_wr p f s = Done (tt, s') /\ heap s' = <[p := f x]> (heap s) /\ mon s' = mon s /\
    names_of s' = names_of s /\ PerProxyOutputQueue s' = PerProxyOutputQueue s /\ ReqMtxVec s' = ReqMtxVec s.
Proof.
  intros H. unfold p_wr, on_server, zoom, wr, on_fe, zoom, fe_wr, fe_on_front, zoom, wr_proxy, heap in *. mred.
  rewrite H. by eexists.
Qed.
Lemma p_rd_run p x (s : St) : heap s !! p = Some x -> p_rd p s = Done (x, s).
Proof.
  intros H. unfold p_rd, on_server, zoom, rd, on_fe, zoom, fe_rd, fe_on_front, zoom, rd_proxy, heap in *. mred.
  rewrite H. by destruct s as [[? ? [[? ?] ? ?] ? ? ?]].
Qed.
Lemma on_gs_run (s : St) : on_server gs s = Done (sv_gs (se_server s), s).
Proof. by destruct s as [[? ? [[? ?] ? ?] ? ? ?]]. Qed.

(** What a part of the setup of a proxy has done so far, [x] being its record. *)
Record setting_up (p : ProxyPtr) (s : St) (x : ProxyInfo) (s' : St) : Prop := {
  su_heap : heap s' = <[p := x]> (heap s);
  su_output : PerProxyOutputQueue s' = <[p := []]> (PerProxyOutputQueue s);
  su_batches : PerProxyBatchList (mon s') = <[p := []]> (PerProxyBatchList (mon s));
  su_devices : devices s' = devices s;
  su_gpus : nGPUs (mon s') = nGPUs (mon s);
  su_names : names_of s' = names_of s;
  su_ready : forall name, net_ready s name -> net_ready s' name;
  su_mutexes : (forall name, isQueueforNet name (mon s) = true -> name ∈ ReqMtxVec s) ->
    forall name, isQueueforNet name (mon s') = true -> name ∈ ReqMtxVec s' }.

Lemma setting_up_step p s x s1 x' s2 : setting_up p s x s1 ->
  heap s2 = <[p := x']> (heap s1) -> mon s2 = mon s1 -> names_of s2 = names_of s1 ->
  PerProxyOutputQueue s2 = PerProxyOutputQueue s1 -> ReqMtxVec s2 = ReqMtxVec s1 -> setting_up p s x' s2.
Proof.
  intros [H1 H2 H3 H4 H5 H6 H7 H8] E1 E2 E3 E4 E5. unfold devices, net_ready in *.
  split; unfold devices, net_ready; rewrite ?E2, ?E3, ?E4, ?E5; try done.
  by rewrite E1, H1, list_insert_insert_eq.
Qed.
Lemma setting_up_lookup p s x s' y : heap s !! p = Some y -> setting_up p s x s' -> heap s' !! p = Some x.
Proof. intros H Hs. rewrite (su_heap _ _ _ _ Hs). apply list_lookup_insert_eq. by eapply lookup_lt_Some. Qed.

Lemma counters_loop p s x s1 (names : list string) y : heap s !! p = Some y -> setting_up p s x s1 ->
  returns (for_each names (fun req_name =>
      p_wr p (fun x => set_isTaskBatching (<[req_name := 0%Z]> (isTaskBatching x))
                         (set_isTaskExec (<[req_name := 0%Z]> (isTaskExec x)) x)))) s1
    (fun _ s2 => exists x', setting_up p s x' s2 /\
       Forall (fun name => isTaskExec x' !! name = Some 0%Z /\ isTaskBatching x' !! name = Some 0%Z) names).
Proof.
  intros Hy Hs.
  apply (returns_for_each (fun pre s2 => exists x', setting_up p s x' s2 /\
    Forall (fun name => isTaskExec x' !! name = Some 0%Z /\ isTaskBatching x' !! name = Some 0%Z) pre)); [|by exists x].
  intros pre name s2 _ (x' & Hx & Hpre).
  edestruct (p_wr_run p) as (s3 & Hr & E1 & E2 & E3 & E4 & E5); [by eapply setting_up_lookup|].
  eapply returns_intro; [exact Hr|]. eexists. split; [by eapply setting_up_step|]. cbn.
  apply Forall_app. split; [|by repeat constructor; rewrite lookup_insert_eq].
  eapply Forall_impl; [exact Hpre|]. intros n [Ha Hb]. cbn.
  destruct (decide (n = name)) as [->|]; [by rewrite !lookup_insert_eq|by rewrite !lookup_insert_ne].
Qed.

Lemma isQueueforNet_set name name' q (m : SysMonitor) :
  isQueueforNet name' (set_request_queue name q m) = bool_decide (name = name') || isQueueforNet name' m.
Proof.
  unfold isQueueforNet, set_request_queue. cbn. case_bool_decide as E; [subst; by rewrite om_find_set|].
  by rewrite om_find_set_ne.
Qed.
(** A new queue of requests comes with its mutex. *)
Lemma queue_step p s x s1 name : setting_up p s x s1 -> isQueueforNet name (mon s1) = false ->
  returns (_ ← p_mod_monitor (addNewQueueforNet name); modify (fun s => set_ReqMtxVec ({[name]} ∪ ReqMtxVec s) s)) s1
    (fun _ s2 => setting_up p s x s2 /\ net_ready s2 name /\ (forall n, net_ready s1 n -> net_ready s2 n)).
Proof.
  intros [H1 H2 H3 H4 H5 H6 H7 H8] Hq. eapply returns_intro; [reflexivity|].
  unfold net_ready, devices, mon, heap, names_of in *. cbn. unfold addNewQueueforNet. rewrite Hq.
  assert (Hn : forall n, isQueueforNet n (f_sys (fe_front (sv_fe (se_server s1)))) = true /\ n ∈ ReqMtxVec s1 ->
    isQueueforNet n (set_request_queue name [] (f_sys (fe_front (sv_fe (se_server s1))))) = true /\
    n ∈ {[name]} ∪ ReqMtxVec s1).
  { intros n [Hn Hm]. rewrite isQueueforNet_set, Hn, orb_true_r. set_solver. }
  split; [|split; [|exact Hn]].
  - split; cbn; try done.
    + intros n Hr. by apply Hn, H7.
    + intros Hm n. change (isQueueforNet n (set_netNames ?l ?m)) with (isQueueforNet n m).
      rewrite isQueueforNet_set. case_bool_decide as E; [set_solver|]. intros Hr. specialize (H8 Hm n Hr). set_solver.
  - split; [|set_solver]. change (isQueueforNet name (set_netNames ?l ?m)) with (isQueueforNet name m).
    by rewrite isQueueforNet_set, bool_decide_eq_true_2.
Qed.
Lemma queues_loop p s x s1 (names : list string) :
  (forall name, isQueueforNet name (mon s) = true -> name ∈ ReqMtxVec s) -> setting_up p s x s1 ->
  returns (for_each names (fun NetName =>
      m ← p_monitor;
      if isQueueforNet NetName m then mret tt
      else
        _ ← p_mod_monitor (addNewQueueforNet NetName);
        modify (fun s => set_ReqMtxVec ({[NetName]} ∪ ReqMtxVec s) s))) s1
    (fun _ s2 => setting_up p s x s2 /\ Forall (net_ready s2) names).
Proof.
  intros Hm Hs. apply (returns_for_each (fun pre s2 => setting_up p s x s2 /\ Forall (net_ready s2) pre)); [|done].
  intros pre name s2 _ [Hx Hpre]. eapply returns_read; [apply p_monitor_run|].
  destruct (isQueueforNet name (mon s2)) eqn:Eq.
  - eapply returns_intro; [reflexivity|]. split; [done|]. apply Forall_app. split; [done|].
    repeat constructor; [done|]. by apply (su_mutexes _ _ _ _ Hx Hm).
  - eapply returns_weaken; [by apply queue_step|]. intros _ s3 (H1 & H2 & H3). split; [done|].
    apply Forall_app. split; [by eapply Forall_impl|by apply Forall_singleton].
Qed.

Lemma setup_returns p s y :
  heap s !! p = Some y -> (forall name, isQueueforNet name (mon s) = true -> name ∈ ReqMtxVec s) ->
  returns (ProxyBasicSetup p) s (fun _ s' => exists x, setting_up p s x s' /\ isSetup x = true /\
    Forall (fun name => isTaskExec x !! name = Some 0%Z /\ isTaskBatching x !! name = Some 0%Z /\ net_ready s' name)
      (names_of s)).
Proof.
  intros Hy Hm. unfold ProxyBasicSetup.
  eapply returns_read; [reflexivity|]. eapply returns_read; [reflexivity|].
  match goal with |- returns _ ?s1 _ => assert (H1 : setting_up p s y s1) end.
  { split; cbn; try done. unfold heap. by rewrite list_insert_id. }
  eapply returns_read; [apply on_gs_run|].
  match goal with |- returns (for_each ?l _ ≫= _) ?s1 _ => change l with (names_of s1); rewrite (su_names _ _ _ _ H1) end.
  eapply returns_bind; [by eapply counters_loop|]. intros [] s2 (x & Hx & Hc).
  edestruct (p_wr_run p) as (s3 & Hr & E1 & E2 & E3 & E4 & E5); [by eapply setting_up_lookup|].
  eapply returns_read; [exact Hr|].
  eapply returns_weaken; [eapply queues_loop; [done|by eapply setting_up_step]|].
  intros [] s4 [Hx4 Hn]. exists (set_isSetup true x). split; [done|]. split; [done|].
  rewrite Forall_forall in Hn, Hc |- *. intros name Hin. destruct (Hc name Hin). repeat split; [done|done| |]; by apply Hn.
Qed.

(** ** One thread of a proxy *)
Lemma is_up_setting p s x s' q y : heap s !! p = Some y -> setting_up p s x s' -> isSetup x = true -> is_up s q -> is_up s' q.
Proof.
  intros Hp Hs Hx (z & Hz & Hup). destruct (decide (q = p)) as [->|Hne].
  - exists x. split; [by eapply setting_up_lookup|done].
  - exists z. rewrite (su_heap _ _ _ _ Hs), list_lookup_insert_ne by done. done.
Qed.
Lemma startable_setup s0 p s x s' y : startable s0 s -> heap s !! p = Some y -> setting_up p s x s' ->
  isSetup x = true ->
  Forall (fun name => isTaskExec x !! name = Some 0%Z /\ isTaskBatching x !! name = Some 0%Z /\ net_ready s' name)
    (names_of s) -> startable s0 s'.
Proof.
  intros [H1 H2 H3 H4 H5 H6] Hy Hs Hup Hn. pose proof Hs as [E1 E2 E3 E4 E5 E6 E7 E8]. split; try congruence.
  - by rewrite E1, length_insert.
  - by apply E8.
  - intros q (z & Hz & Hq). exists z. split; [done|]. split; [done|].
    rewrite E2, E3, E6. destruct (decide (q = p)) as [->|Hne].
    + rewrite !lookup_insert_eq. rewrite (setting_up_lookup _ _ _ _ _ Hy Hs) in Hz. by injection Hz as <-.
    + rewrite !lookup_insert_ne by done. rewrite E1, list_lookup_insert_ne in Hz by done.
      destruct (H6 q) as (z' & Hz' & _ & Ho & Hb & Hz2); [by exists z|]. replace z' with z in * by congruence.
      do 2 (split; [done|]). eapply Forall_impl; [exact Hz2|]. intros name (?&?&?). eauto.
Qed.
Lemma initProxy_setup_returns s0 p s : startable s0 s -> p < length (heap s0) ->
  returns (initProxy_setup p) s (fun _ s' => startable s0 s' /\ is_up s' p /\ forall q, is_up s q -> is_up s' q).
Proof.
  intros Hs Hp. rewrite <- (st_heap _ _ Hs) in Hp. apply lookup_lt_is_Some in Hp as [y Hy].
  unfold initProxy_setup. eapply returns_read; [by apply p_rd_run|].
  destruct (isSetup y) eqn:Ey; [eapply returns_intro; [done|]; split; [done|]; split; [by exists y|done]|].
  eapply returns_bind; [by eapply setup_returns, Hs|]. intros [] s1 (x & Hx & Hup & Hn).
  edestruct (p_wr_run p) as (s2 & Hr & E1 & E2 & E3 & E4 & E5); [by eapply setting_up_lookup|].
  eapply returns_intro; [exact Hr|].
  assert (Hx2 : setting_up p s (set_isSetup true x) s2) by (by eapply setting_up_step).
  assert (Hn2 : Forall (fun name => isTaskExec (set_isSetup true x) !! name = Some 0%Z /\
    isTaskBatching (set_isSetup true x) !! name = Some 0%Z /\ net_ready s2 name) (names_of s)).
  { eapply Forall_impl; [exact Hn|]. intros name (?&?&?&?). unfold net_ready. rewrite E2, E5. done. }
  split; [by eapply startable_setup|]. split; [|intros q; by eapply is_up_setting].
  eexists. split; [by eapply setting_up_lookup|done].
Qed.

(** ** All the threads *)
Lemma in_service_returns {A} (m : M St A) (st : FSt) (Q : A -> St -> Prop) :
  returns m st.1 Q -> returns (in_service m) st (fun a st' => Q a st'.1 /\ st'.2 = st.2).
Proof. unfold returns, in_service, zoom. by destruct (m st.1) as [[a s]|]. Qed.
Lemma in_monitor_run (st : FSt) : in_service p_monitor st = Done (mon st.1, st).
Proof. unfold in_service, zoom. rewrite p_monitor_run. by destruct st. Qed.

Lemma returns_for_proxies (P : list ProxyPtr -> FSt -> Prop) s0 n (body : ProxyPtr -> M FSt unit) st :
  (forall pre st, P pre st -> devices st.1 = devices s0) ->
  (forall pre p st, p ∈ concat (map (fun i => getDevMPSInfo i (mon s0)) (dev_range n)) -> P pre st ->
     returns (body p) st (fun _ => P (pre ++ [p]))) ->
  P [] st -> returns (for_proxies n body) st (fun _ => P (concat (map (fun i => getDevMPSInfo i (mon s0)) (dev_range n)))).
Proof.
  intros Hd Hb H0. unfold for_proxies.
  apply (returns_for_each (fun pre => P (concat (map (fun i => getDevMPSInfo i (mon s0)) pre)))); [|done].
  intros pre i st1 Hi Hst1. eapply returns_read; [apply in_monitor_run|].
  assert (E : getDevMPSInfo i (mon st1.1) = getDevMPSInfo i (mon s0)).
  { unfold getDevMPSInfo. by rewrite (Hd _ _ Hst1 : PerDevMPSInfo (mon st1.1) = _). }
  rewrite E, map_app, concat_app. cbn. rewrite app_nil_r.
  apply (returns_for_each (fun pre' => P (concat (map (fun i => getDevMPSInfo i (mon s0)) pre) ++ pre')));
    [|by rewrite app_nil_r].
  intros pre' p st2 Hp Hst2. rewrite app_assoc. apply Hb; [|done].
  apply list_elem_of_In, in_concat. exists (getDevMPSInfo i (mon s0)).
  split; [apply in_map_iff; exists i; split; [done|by apply list_elem_of_In]|by apply list_elem_of_In].
Qed.
Lemma concat_map_snoc {A B} (f : A -> list B) pre x :
  concat (map f (pre ++ [x])) = concat (map f pre) ++ f x.
Proof. rewrite map_app, concat_app. cbn. by rewrite app_nil_r. Qed.
(** Threads that only start. *)
Lemma start_loop {A} (t : Thread) (l : list A) (st : FSt) :
  for_each l (fun _ => pthread_create t) st = Done (tt, (st.1, st.2 ++ replicate (length l) t)).
Proof.
  revert st. induction l as [|x l IH]; intros st; cbn; [rewrite app_nil_r; by destruct st|].
  etransitivity; [eapply bind_done; reflexivity|]. rewrite IH. cbn. by rewrite <- app_assoc.
Qed.

Lemma proxy_threads_returns s0 p (st : FSt) : startable s0 st.1 -> p < length (heap s0) ->
  returns (for_each (seq 0 THREAD_PER_TASK) (fun _ => initProxyThread p)) st (fun _ st' =>
    startable s0 st'.1 /\ is_up st'.1 p /\ (forall q, is_up st.1 q -> is_up st'.1 q) /\
    st'.2 = st.2 ++ replicate THREAD_PER_TASK (T_Proxy p)).
Proof.
  intros Hs Hp.
  eapply returns_weaken; [apply (returns_for_each (fun pre st' => startable s0 st'.1 /\ (pre <> [] -> is_up st'.1 p) /\
    (forall q, is_up st.1 q -> is_up st'.1 q) /\ st'.2 = st.2 ++ replicate (length pre) (T_Proxy p)))|].
  - intros pre j st1 _ (H1 & H2 & H3 & H4). unfold initProxyThread. eapply returns_read; [reflexivity|].
    eapply returns_weaken; [by eapply in_service_returns, initProxy_setup_returns|].
    intros [] st2 [(G1 & G2 & G3) G4]. cbn in G3, G4. split; [done|]. split; [done|]. split; [by auto|].
    rewrite G4, H4, length_app, replicate_add. cbn. by rewrite app_assoc.
  - split; [done|]. split; [done|]. split; [done|]. cbn. by rewrite app_nil_r.
  - intros [] st' (H1 & H2 & H3 & H4). rewrite length_seq in H4. split; [done|]. split; [by apply H2|]. done.
Qed.
Lemma initProxyThreads_returns s0 log :
  startable s0 s0 -> Forall (fun p => p < length (heap s0)) (all_proxies (mon s0)) ->
  returns (initProxyThreads (nGPUs (mon s0))) (s0, log) (fun _ st' =>
    startable s0 st'.1 /\ Forall (is_up st'.1) (all_proxies (mon s0)) /\
    st'.2 = log ++ concat (map (fun p => replicate THREAD_PER_TASK (T_Proxy p)) (all_proxies (mon s0)))).
Proof.
  intros Hs Hp. rewrite Forall_forall in Hp.
  apply (returns_for_proxies (fun pre st' => startable s0 st'.1 /\ Forall (is_up st'.1) pre /\
    st'.2 = log ++ concat (map (fun p => replicate THREAD_PER_TASK (T_Proxy p)) pre)) s0).
  - intros pre st (H & _). apply H.
  - intros pre p st Hin (H1 & H2 & H3).
    eapply returns_weaken; [apply proxy_threads_returns; [exact H1|by apply Hp]|].
    intros [] st' (G1 & G2 & G3 & G4). split; [done|]. split.
    + apply Forall_app. split; [by eapply Forall_impl|by apply Forall_singleton].
    + by rewrite concat_map_snoc, app_assoc, <- H3.
  - split; [done|]. split; [done|]. cbn. by rewrite app_nil_r.
Qed.
Lemma initOutputThreads_returns s0 st : startable s0 st.1 ->
  returns (initOutputThreads (nGPUs (mon s0))) st (fun _ st' => st'.1 = st.1 /\
    st'.2 = st.2 ++ concat (map (fun p => replicate TOTAL_OUTPUT_THREAD_PER_PROXY (T_Output p)) (all_proxies (mon s0)))).
Proof.
  intros Hs.
  apply (returns_for_proxies (fun pre st' => st'.1 = st.1 /\
    st'.2 = st.2 ++ concat (map (fun p => replicate TOTAL_OUTPUT_THREAD_PER_PROXY (T_Output p)) pre)) s0).
  - intros pre st' [-> _]. apply Hs.
  - intros pre p st' _ [H1 H2]. eapply returns_intro; [apply start_loop|].
    rewrite H2, length_seq, concat_map_snoc, app_assoc. done.
  - split; [done|]. cbn. by rewrite app_nil_r.
Qed.

(** The threads of the frontend, in the order of their start. *)
Definition thread_list (drop_ratio : spec_float) (proxies : list ProxyPtr) : list Thread :=
  concat (map (fun p => replicate THREAD_PER_TASK (T_Proxy p)) proxies) ++
  concat (map (fun p => replicate TOTAL_OUTPUT_THREAD_PER_PROXY (T_Output p)) proxies) ++
  [T_Monitor; T_GPUMonitor; T_UtilMonitor] ++
  (if fneqb drop_ratio fzero then [T_Drop] else []) ++ replicate TOTAL_SENDTHREAD T_SendResults.

(** C28: The frontend starts its threads without fault, and when it goes on to the
    first schedule everything they use is there.  From a configured service, that is
    one whose proxies exist and are not set up yet and in which every queue of
    requests has its mutex, with a drop ratio that is not negative: the start
    returns; six batching and two output threads run for every proxy of every device,
    then the three monitors, the dropping thread if there is a ratio, and eight
    sending threads; every proxy is set up with an empty queue of scheduled
    tasks, an empty output queue and its counters at zero for every model, and every
    model has a queue of requests with its mutex.  The devices and the names of the
    models are as before. *)
Theorem start_threads_ready (vm : FrontendOptions) (s0 : St) (log : list Thread)
    (Hnew : forall p x, heap s0 !! p = Some x -> isSetup x = false)
    (Hmutex : forall name, isQueueforNet name (mon s0) = true -> name ∈ ReqMtxVec s0)
    (Hproxies : Forall (fun p => p < length (heap s0)) (all_proxies (mon s0)))
    (Hdrop : leb fzero (fo_drop vm) = true) :
  returns (start_threads vm) (s0, log) (fun _ st' =>
    Forall (set_up st'.1) (all_proxies (mon s0)) /\
    st'.2 = log ++ thread_list (fo_drop vm) (all_proxies (mon s0)) /\
    devices st'.1 = devices s0 /\ names_of st'.1 = names_of s0).
Proof.
  assert (Hs : startable s0 s0) by (split; try done; intros p (x & Hx & Hup); by rewrite (Hnew p x Hx) in Hup).
  unfold start_threads. eapply returns_read; [apply in_monitor_run|].
  eapply returns_bind; [by apply initProxyThreads_returns|]. intros [] st1 (H1 & H2 & H3).
  eapply returns_bind; [by apply initOutputThreads_returns|]. intros [] st2 (H4 & H5).
  eapply returns_read; [reflexivity|].
  apply returns_bind with (Q1 := fun _ st' => st'.1 = st2.1 /\
    st'.2 = (st2.2 ++ [T_Monitor; T_GPUMonitor; T_UtilMonitor]) ++ (if fneqb (fo_drop vm) fzero then [T_Drop] else [])).
  { unfold initDropThread. rewrite Hdrop. unfold when.
    destruct (fneqb _ _); (eapply returns_intro; [reflexivity|]); cbn; by rewrite <- ?app_assoc, ?app_nil_r. }
  intros [] st3 (H6 & H7). eapply returns_intro; [apply start_loop|]. cbn [fst snd].
  rewrite H6, H4. split; [eapply Forall_impl; [exact H2|]; intros p; apply H1|]. split; [|split; apply H1].
  rewrite H7, H5, H3, length_seq. unfold thread_list. by rewrite <- !app_assoc.
Qed.
End FrontendProps.

(** ** The demonstration backend, configured *)
#[local] Existing Instance rows_torch.
Definition start_service : Service (list Z) := set_ReqMtxVec {["resnet50"; "lenet1"]}%string demo_service.
Definition start_options : FrontendOptions :=
  mkFrontendOptions "oracle" (fdiv (i2f 1) (i2f 2)) 0 "" "" None (fun _ => None) None None [] None []
    (mkFiles None None None (fun _ => []) (fun _ => None) "" []).

Lemma start_threads_ready_witness :
  returns (start_threads start_options) (start_service, []) (fun _ st' =>
    Forall (set_up st'.1) (seq 0 10) /\ length st'.2 = (10 * 6 + 10 * 2 + 3 + 1 + 8)%nat).
Proof.
  assert (Ep : all_proxies (mon start_service) = seq 0 10) by (vm_compute; reflexivity).
  assert (El : length (heap start_service) = 10%nat) by (vm_compute; reflexivity).
  eapply returns_weaken; [apply (start_threads_ready start_options start_service [])|].
  - assert (H : forallb (fun x => negb (isSetup x)) (heap start_service) = true) by (vm_compute; reflexivity).
    rewrite forallb_forall in H. intros p x Hx. apply list_elem_of_lookup_2, list_elem_of_In, H in Hx.
    by apply negb_true_iff.
  - assert (H : forallb (fun e => bool_decide (e.1 ∈ ReqMtxVec start_service)) (ReqListHashTable (mon start_service)) = true)
      by (vm_compute; reflexivity).
    rewrite forallb_forall in H. unfold isQueueforNet. intros name Hq.
    destruct (om_find name (ReqListHashTable (mon start_service))) as [q|] eqn:E; [|done].
    apply om_find_in in E. apply list_elem_of_In, H in E. by apply bool_decide_eq_true in E.
  - rewrite Ep, El. apply Forall_forall. intros p Hp. apply elem_of_seq in Hp. lia.
  - vm_compute. reflexivity.
  - intros [] st' (H1 & H2 & _). rewrite Ep in H1, H2. split; [done|]. rewrite H2. vm_compute. reflexivity.
Defined.
