(* ===== verification/JsonText.v ===== *)
(** * JSON texts, and the parser on them: every text of the grammar is parsed to
    the value it stands for.

    The grammar is that of RFC 8259 without its ban on leading zeros and on
    control characters in strings; comments and trailing commas, which the parser
    also takes, are left out. *)
From Stdlib Require Import ZArith SpecFloat Ascii String Lia.
From S2P Require Import Prelude CppFloat CppStd Json JsonReader Printf.

(** ** The grammar *)
Fixpoint all_chars (p : ascii -> bool) (s : string) : bool :=
  match s with EmptyString => true | String c s' => p c && all_chars p s' end.
Definition blanks (s : string) : Prop := all_chars is_blank s = true.
Definition is_digit (c : ascii) : bool := match digit_of c with Some _ => true | None => false end.
Definition digits (s : string) : Prop := all_chars is_digit s = true /\ s <> ""%string.
(** The number that [s] continues after [a]. *)
Fixpoint number_of (s : string) (a : Z) : Z :=
  match s with EmptyString => a | String c s' => number_of s' (10 * a + default 0%Z (digit_of c)) end.

Definition minus (neg : bool) : string := if neg then "-"%string else ""%string.
Definition fraction_text (f : option string) : string := match f with Some ds => String "." ds | None => ""%string end.
Definition fraction_digits (f : option string) : string := default ""%string f.
Record exponent : Type := mkExponent { x_letter : ascii; x_sign : option ascii; x_digits : string }.
Definition exponent_ok (x : exponent) : Prop :=
  is_exp (x_letter x) = true /\ digits (x_digits x) /\
  match x_sign x with Some c => is_sign c = true | None => True end.
Definition exponent_text (o : option exponent) : string :=
  match o with
  | Some x => String (x_letter x) (match x_sign x with Some c => one c | None => "" end +:+ x_digits x)
  | None => ""
  end%string.
Definition exponent_value (o : option exponent) : Z :=
  match o with
  | Some x => let n := number_of (x_digits x) 0 in
      match x_sign x with Some c => if Ascii.eqb c "-"%char then (- n)%Z else n | None => n end
  | None => 0%Z
  end.
Definition option_ok {A} (P : A -> Prop) (o : option A) : Prop := match o with Some a => P a | None => True end.

Local Open Scope string_scope.
Inductive number_text : Value -> string -> Prop :=
| nt_int (neg : bool) ds : digits ds -> (number_of ds 0 < if neg then 2 ^ 63 + 1 else 2 ^ 64)%Z ->
    number_text (JInt (if neg then - number_of ds 0 else number_of ds 0)%Z) (minus neg +:+ ds)
| nt_real (neg : bool) ip f x d : digits ip -> option_ok digits f -> option_ok exponent_ok x -> (f <> None \/ x <> None) ->
    d = decimal dprec demax neg (number_of (fraction_digits f) (number_of ip 0))
          (Z.of_nat (String.length (fraction_digits f)) - exponent_value x) ->
    is_finite d = true ->
    number_text (JReal d) (minus neg +:+ ip +:+ fraction_text f +:+ exponent_text x).

(** The characters of a string and their texts. *)
Definition hex4 (h : string) (u : Z) : Prop := String.length h = 4%nat /\ hex_digits 4 0 h = (Some u, ""%string).
Definition unicode_text (h : string) : string := String BACKSLASH (String "u" h).
Inductive string_text : string -> string -> Prop :=
| st_end : string_text "" ""
| st_char c d r : c <> DQUOTE -> c <> BACKSLASH -> string_text d r -> string_text (String c d) (String c r)
| st_escape e c d r : simple_escape e = Some c -> string_text d r ->
    string_text (String c d) (String BACKSLASH (String e r))
| st_unicode h u d r : hex4 h u -> ~ (55296 <= u <= 56319)%Z -> string_text d r ->
    string_text (codePointToUTF8 u +:+ d) (unicode_text h +:+ r)
| st_pair h u h' l d r : hex4 h u -> (55296 <= u <= 56319)%Z -> hex4 h' l -> (56320 <= l <= 57343)%Z ->
    string_text d r ->
    string_text (codePointToUTF8 (65536 + (u - 55296) * 1024 + (l - 56320)) +:+ d)
      (unicode_text h +:+ unicode_text h' +:+ r).
Definition quoted (raw : string) : string := String DQUOTE (raw +:+ one DQUOTE).

Definition object_of (ms : list (string * Value)) : Value :=
  JObject (foldl (fun m e => om_set e.1 e.2 m) [] ms).
Definition short_key (k : string) : Prop := (Z.of_nat (String.length k) < 2 ^ 30)%Z.

(** [json_text n v t]: the text [t] stands for [v], with at most [n] levels of
    arrays and objects inside each other around something else.  [items_text] and
    [members_text] are what follows the opening bracket of one that is not
    empty; of two members with the same key the second counts. *)
Inductive json_text : nat -> Value -> string -> Prop :=
| jt_null n : json_text n JNull "null"
| jt_true n : json_text n (JBool true) "true"
| jt_false n : json_text n (JBool false) "false"
| jt_number n v t : number_text v t -> json_text n v t
| jt_string n s raw : string_text s raw -> json_text n (JString s) (quoted raw)
| jt_no_items n ws : blanks ws -> json_text n (JArray []) (String "[" (ws +:+ "]"))
| jt_array n vs t : items_text n vs t -> json_text (S n) (JArray vs) (String "[" t)
| jt_no_members n ws : blanks ws -> json_text n (JObject []) (String "{" (ws +:+ "}"))
| jt_object n ms t : members_text n ms t -> json_text (S n) (object_of ms) (String "{" t)
with items_text : nat -> list Value -> string -> Prop :=
| it_last n ws v t ws' : blanks ws -> json_text n v t -> blanks ws' ->
    items_text n [v] (ws +:+ t +:+ ws' +:+ "]")
| it_more n ws v t ws' vs ts : blanks ws -> json_text n v t -> blanks ws' -> items_text n vs ts ->
    items_text n (v :: vs) (ws +:+ t +:+ ws' +:+ String "," ts)
with members_text : nat -> list (string * Value) -> string -> Prop :=
| mt_last n ws k raw ws1 ws2 v t ws3 : blanks ws -> string_text k raw -> short_key k -> blanks ws1 -> blanks ws2 ->
    json_text n v t -> blanks ws3 ->
    members_text n [(k, v)] (ws +:+ quoted raw +:+ ws1 +:+ String ":" (ws2 +:+ t +:+ ws3 +:+ "}"))
| mt_more n ws k raw ws1 ws2 v t ws3 ms ts : blanks ws -> string_text k raw -> short_key k -> blanks ws1 -> blanks ws2 ->
    json_text n v t -> blanks ws3 -> members_text n ms ts ->
    members_text n ((k, v) :: ms) (ws +:+ quoted raw +:+ ws1 +:+ String ":" (ws2 +:+ t +:+ ws3 +:+ String "," ts)).

Local Close Scope string_scope.
Scheme json_text_ind' := Minimality for json_text Sort Prop
with items_text_ind' := Minimality for items_text Sort Prop
with members_text_ind' := Minimality for members_text Sort Prop.
Combined Scheme json_texts_ind from json_text_ind', items_text_ind', members_text_ind'.

(** ** Text *)
Lemma substring_append s t : substring 0 (String.length s) (s +:+ t)%string = s.
Proof. induction s as [|c s IH]; [by destruct t|]. rewrite append_cons. cbn. by rewrite IH. Qed.
Lemma text_between_append t rest : text_between (t +:+ rest)%string rest = t.
Proof.
  unfold text_between. rewrite append_length. replace (_ + _ - _)%nat with (String.length t) by lia.
  apply substring_append.
Qed.
Lemma distance_append s e : distance (s +:+ e)%string e = String.length s.
Proof. unfold distance. rewrite append_length. lia. Qed.
Lemma skip_blanks_append ws c s : blanks ws -> is_blank c = false -> skip_blanks (ws +:+ String c s)%string = String c s.
Proof.
  unfold blanks. induction ws as [|b ws IH]; intros H Hc.
  - change (skip_blanks (String c s) = String c s). cbn. by rewrite Hc.
  - cbn in H. apply andb_true_iff in H as [Hb H]. rewrite append_cons. cbn. rewrite Hb. by apply IH.
Qed.
Lemma skip_blanks_only ws : blanks ws -> skip_blanks ws = ""%string.
Proof.
  unfold blanks. induction ws as [|b ws IH]; [done|]. cbn. intros H. apply andb_true_iff in H as [Hb H].
  rewrite Hb. by apply IH.
Qed.

(** What may follow a number. *)
Definition stops (rest : string) : Prop :=
  match rest with
  | EmptyString => True
  | String c _ => is_blank c = true \/ c = ","%char \/ c = "]"%char \/ c = "}"%char
  end.
Lemma stops_char c rest : stops (String c rest) -> is_digit c = false /\ Ascii.eqb c "." = false /\ is_exp c = false.
Proof.
  intros [H|[->|[-> | ->]]]; try done. unfold is_blank in H.
  repeat (apply orb_true_iff in H as [H|H]); apply Ascii.eqb_eq in H; by subst.
Qed.
Lemma stops_blanks ws c s : blanks ws -> stops (String c s) -> stops (ws +:+ String c s)%string.
Proof. destruct ws as [|b ws]; [done|]. intros H _. rewrite append_cons. left. unfold blanks in H. cbn in H. by apply andb_true_iff in H as [H _]. Qed.
Lemma stops_only ws : blanks ws -> stops ws.
Proof. destruct ws as [|b ws]; [done|]. intros H. left. unfold blanks in H. cbn in H. by apply andb_true_iff in H as [H _]. Qed.

(** ** Numbers *)
Lemma is_digit_cases c : is_digit c = true ->
  (c = "0" \/ c = "1" \/ c = "2" \/ c = "3" \/ c = "4" \/ c = "5" \/ c = "6" \/ c = "7" \/ c = "8" \/ c = "9")%char.
Proof. destruct c as [[] [] [] [] [] [] [] []]; try discriminate; intros _; tauto. Qed.
Lemma is_digit_value c : is_digit c = true -> exists d, digit_of c = Some d /\ (0 <= d <= 9)%Z.
Proof. intros H. apply is_digit_cases in H. decompose [or] H; subst; eexists; (split; [vm_compute; reflexivity|lia]). Qed.

Lemma skip_digits_append ds rest : all_chars is_digit ds = true ->
  (match rest with String c _ => is_digit c = false | EmptyString => True end) ->
  skip_digits (ds +:+ rest)%string = rest.
Proof.
  intros H Hr. induction ds as [|c ds IH].
  - change (skip_digits rest = rest). destruct rest as [|c r]; [done|]. unfold is_digit in Hr. cbn. by destruct (digit_of c).
  - cbn in H. apply andb_true_iff in H as [Hc H]. rewrite append_cons. cbn. unfold is_digit in Hc.
    destruct (digit_of c); [by apply IH|done].
Qed.
Lemma read_digits_append ds rest a k : all_chars is_digit ds = true ->
  (match rest with String c _ => is_digit c = false | EmptyString => True end) ->
  read_digits (ds +:+ rest)%string a k = (number_of ds a, (k + Z.of_nat (String.length ds))%Z, rest).
Proof.
  intros H Hr. revert a k. induction ds as [|c ds IH]; intros a k.
  - change (read_digits rest a k = (a, (k + 0)%Z, rest)). rewrite Z.add_0_r.
    destruct rest as [|c r]; [done|]. unfold is_digit in Hr. cbn. by destruct (digit_of c).
  - cbn in H. apply andb_true_iff in H as [Hc H]. rewrite append_cons. cbn. unfold is_digit in Hc.
    destruct (digit_of c); [|done]. rewrite IH by done. cbn. do 2 f_equal. lia.
Qed.
Lemma number_of_grows ds : forall a, (0 <= a)%Z -> (a * 10 ^ Z.of_nat (String.length ds) <= number_of ds a)%Z.
Proof.
  induction ds as [|c ds IH]; intros a Ha; cbn [number_of String.length]; [lia|].
  rewrite Nat2Z.inj_succ, Z.pow_succ_r by lia.
  assert (Hd : (0 <= default 0 (digit_of c))%Z).
  { unfold digit_of. destruct (_ && _)%Z eqn:E; cbn; [|lia]. apply andb_true_iff in E as [E _]. apply Z.leb_le in E. lia. }
  specialize (IH (10 * a + default 0 (digit_of c))%Z ltac:(lia)).
  pose proof (Z.pow_pos_nonneg 10 (Z.of_nat (String.length ds)) ltac:(lia) ltac:(lia)). nia.
Qed.

(** The integer loop on digits that fit. *)
Lemma int_digits_fit th last ds : (1 <= th)%Z -> (0 <= last <= 9)%Z -> all_chars is_digit ds = true -> forall a,
  (0 <= a)%Z -> (number_of ds a <= th * 10 + last)%Z ->
  int_digits th last ds a = Some (number_of ds a).
Proof.
  intros Ht Hl. induction ds as [|c ds IH]; intros H a Ha Hn; [done|].
  cbn in H. apply andb_true_iff in H as [Hc H]. apply is_digit_value in Hc as (d & Hd & Hd9).
  cbn [int_digits number_of] in *. rewrite Hd in *. cbn [default id from_option] in *. unfold id in *.
  replace (a * 10 + d)%Z with (10 * a + d)%Z by lia.
  pose proof (number_of_grows ds (10 * a + d) ltac:(lia)) as Hg.
  destruct (th <=? a)%Z eqn:E1; [apply Z.leb_le in E1|by apply IH; [done|lia|]].
  assert (Hp : (1 <= 10 ^ Z.of_nat (String.length ds))%Z) by (pose proof (Z.pow_pos_nonneg 10 (Z.of_nat (String.length ds))); lia).
  assert (a = th) by nia. subst a.
  assert (Hs : ds = ""%string).
  { destruct ds as [|x ds]; [done|]. exfalso. cbn [String.length] in Hg, Hp.
    rewrite Nat2Z.inj_succ, Z.pow_succ_r in Hg by lia.
    pose proof (Z.pow_pos_nonneg 10 (Z.of_nat (String.length ds))). nia. }
  subst ds. cbn in Hn, Hg. rewrite Z.ltb_irrefl, (proj2 (Z.ltb_ge last d)) by lia. cbn. done.
Qed.
Lemma int_digits_only th last s : forall a z, int_digits th last s a = Some z -> all_chars is_digit s = true.
Proof.
  induction s as [|c s IH]; intros a z H; [done|]. cbn in *. unfold is_digit.
  destruct (digit_of c); [|done]. destruct (_ && _); [done|]. cbn. by eapply IH.
Qed.
Lemma all_chars_append p s t : all_chars p (s +:+ t)%string = all_chars p s && all_chars p t.
Proof. induction s as [|c s IH]; [done|]. rewrite append_cons. cbn. by rewrite IH, andb_assoc. Qed.

Lemma digits_front ds : digits ds -> exists c s, ds = String c s /\ is_digit c = true /\ all_chars is_digit s = true.
Proof. intros [H Hne]. destruct ds as [|c s]; [done|]. cbn in H. apply andb_true_iff in H as [H1 H2]. eauto. Qed.

Lemma decode_int_text (neg : bool) ds : digits ds -> (number_of ds 0 < if neg then 2 ^ 63 + 1 else 2 ^ 64)%Z ->
  decode_int (minus neg +:+ ds)%string = Some (if neg then - number_of ds 0 else number_of ds 0)%Z.
Proof.
  intros Hds Hn. pose proof (number_of_grows ds 0 ltac:(lia)) as H0. destruct Hds as [Hd Hne]. destruct neg.
  - change (minus true +:+ ds)%string with (String "-" ds). unfold decode_int. cbn [Ascii.eqb Bool.eqb].
    rewrite int_digits_fit by (try done; lia). cbn. f_equal. pose proof (Z.div_mod (number_of ds 0) 10). lia.
  - change (minus false +:+ ds)%string with ds. destruct (digits_front ds (conj Hd Hne)) as (c & s & -> & Hc & _).
    unfold decode_int. assert (Hm : Ascii.eqb c "-" = false) by (apply is_digit_cases in Hc; decompose [or] Hc; by subst).
    rewrite Hm. rewrite int_digits_fit by (try done; lia). done.
Qed.

(** *** Numbers with a fraction or an exponent *)
Definition no_digit (s : string) : Prop := match s with String c _ => is_digit c = false | EmptyString => True end.
Lemma stops_no_digit rest : stops rest -> no_digit rest.
Proof. destruct rest as [|c r]; [done|]. intros H. by apply stops_char in H as [H _]. Qed.
Lemma is_exp_cases c : is_exp c = true -> c = "e"%char \/ c = "E"%char.
Proof. intros H. apply orb_true_iff in H as [H|H]; apply Ascii.eqb_eq in H; auto. Qed.
Lemma is_sign_cases c : is_sign c = true -> c = "+"%char \/ c = "-"%char.
Proof. intros H. apply orb_true_iff in H as [H|H]; apply Ascii.eqb_eq in H; auto. Qed.
Lemma digit_no_sign c : is_digit c = true -> is_sign c = false.
Proof. intros H. apply is_digit_cases in H. decompose [or] H; by subst. Qed.

Lemma exponent_front x rest : option_ok exponent_ok x -> stops rest ->
  no_digit (exponent_text x +:+ rest)%string /\ skip_fraction (exponent_text x +:+ rest)%string = (exponent_text x +:+ rest)%string.
Proof.
  intros Hx Hr. destruct x as [x|].
  - destruct Hx as (He & _). apply is_exp_cases in He. unfold exponent_text. rewrite append_cons.
    destruct He as [-> | ->]; done.
  - change (exponent_text None +:+ rest)%string with rest. destruct rest as [|c r]; [done|].
    apply stops_char in Hr as (H1 & H2 & _). cbn. by rewrite H2.
Qed.
Lemma fraction_front f e : no_digit e -> no_digit (fraction_text f +:+ e)%string.
Proof. intros H. by destruct f. Qed.

Lemma number_end_text ds f x rest : all_chars is_digit ds = true -> option_ok digits f -> option_ok exponent_ok x -> stops rest ->
  number_end (ds +:+ fraction_text f +:+ exponent_text x +:+ rest)%string = rest.
Proof.
  intros Hds Hf Hx Hr. destruct (exponent_front x rest Hx Hr) as [He1 He2]. unfold number_end.
  rewrite skip_digits_append by (try done; by apply fraction_front).
  assert (Hfr : skip_fraction (fraction_text f +:+ exponent_text x +:+ rest)%string = (exponent_text x +:+ rest)%string).
  { destruct f as [fd|]; [|exact He2]. unfold fraction_text. rewrite append_cons. cbn [skip_fraction].
    change (Ascii.eqb "." ".") with true. cbv iota. apply skip_digits_append; [apply Hf|done]. }
  rewrite Hfr. destruct x as [x|].
  - destruct Hx as (He & [Hd Hne] & Hs). unfold exponent_text. rewrite append_cons. cbn [skip_exponent]. rewrite He.
    rewrite append_assoc.
    assert (Hc : skip_char is_sign ((match x_sign x with Some c => one c | None => "" end) +:+ x_digits x +:+ rest)%string
      = (x_digits x +:+ rest)%string).
    { destruct (x_sign x) as [c|].
      - change (one c +:+ x_digits x +:+ rest)%string with (String c (x_digits x +:+ rest)%string). cbn [skip_char]. by rewrite Hs.
      - change ("" +:+ x_digits x +:+ rest)%string with (x_digits x +:+ rest)%string.
        destruct (digits_front _ (conj Hd Hne)) as (c & s & E & Hc & _). rewrite E, append_cons. cbn [skip_char].
        by rewrite digit_no_sign. }
    rewrite Hc. apply skip_digits_append; [done|by apply stops_no_digit].
  - change (exponent_text None +:+ rest)%string with rest. destruct rest as [|c r]; [done|].
    apply stops_char in Hr as (_ & _ & Hr). cbn. by rewrite Hr.
Qed.

Lemma read_sign_digits ds rest : digits ds -> read_sign (ds +:+ rest)%string = (false, ds +:+ rest)%string.
Proof.
  intros H. destruct (digits_front ds H) as (c & s & -> & Hc & _). rewrite append_cons. unfold read_sign.
  apply digit_no_sign in Hc. apply orb_false_iff in Hc as [H1 H2]. by rewrite H1, H2.
Qed.
Lemma digits_length ds : digits ds -> (0 < Z.of_nat (String.length ds))%Z.
Proof. intros [_ H]. destruct ds; [done|]. cbn. lia. Qed.

Lemma read_power_text x : option_ok exponent_ok x -> read_power (exponent_text x) = Some (exponent_value x).
Proof.
  destruct x as [x|]; [|done]. intros (He & Hd & Hs). unfold exponent_text, read_power. rewrite He.
  set (body := (_ +:+ x_digits x)%string).
  assert (Hb : read_sign body = (match x_sign x with Some c => Ascii.eqb c "-" | None => false end, x_digits x)).
  { unfold body. destruct (x_sign x) as [c|].
    - apply is_sign_cases in Hs as [-> | ->]; done.
    - pose proof (read_sign_digits (x_digits x) "" Hd) as H. by rewrite append_empty_r in H. }
  rewrite Hb. pose proof (digits_length _ Hd) as Hl.
  assert (Hr : read_digits (x_digits x) 0 0 = (number_of (x_digits x) 0, (0 + Z.of_nat (String.length (x_digits x)))%Z, ""%string)).
  { pose proof (read_digits_append (x_digits x) "" 0 0 (proj1 Hd) I) as H. by rewrite append_empty_r in H. }
  rewrite Hr, (proj2 (Z.eqb_neq _ _)) by lia. cbn -[Z.opp number_of]. unfold exponent_value.
  destruct (x_sign x) as [c|]; [|done]. by destruct (Ascii.eqb c "-").
Qed.

Section Real.
Context (neg : bool) (ip : string) (f : option string) (x : option exponent).
Context (Hi : digits ip) (Hf : option_ok digits f) (Hx : option_ok exponent_ok x).
Local Abbreviation text := (minus neg +:+ ip +:+ fraction_text f +:+ exponent_text x)%string.

Lemma read_double_text d :
  d = decimal dprec demax neg (number_of (fraction_digits f) (number_of ip 0))
        (Z.of_nat (String.length (fraction_digits f)) - exponent_value x) ->
  is_finite d = true -> read_double text = Some d.
Proof.
  intros -> Hfin. unfold read_double.
  assert (Hsg : read_sign text = (neg, ip +:+ fraction_text f +:+ exponent_text x)%string).
  { destruct neg; [done|]. exact (read_sign_digits ip (fraction_text f +:+ exponent_text x)%string Hi). }
  destruct (exponent_front x "" Hx I) as [He1 He2]. rewrite append_empty_r in He1, He2.
  rewrite Hsg, read_digits_append by (try apply Hi; by apply fraction_front).
  assert (Hfr : read_fraction (number_of ip 0) (fraction_text f +:+ exponent_text x)%string =
    (number_of (fraction_digits f) (number_of ip 0), Z.of_nat (String.length (fraction_digits f)), exponent_text x)).
  { destruct f as [fd|].
    - unfold fraction_text. rewrite append_cons. unfold read_fraction. change (Ascii.eqb "." ".") with true. cbv iota.
      by rewrite read_digits_append by (try apply Hf; done).
    - change (fraction_text None +:+ exponent_text x)%string with (exponent_text x).
      unfold read_fraction. destruct (exponent_text x) as [|c s]; [done|]. cbn [skip_fraction] in He2.
      destruct (Ascii.eqb c "."); [|done]. exfalso. assert (H : String.length (skip_digits s) = String.length (String c s)) by by rewrite He2.
      assert (Hle : (String.length (skip_digits s) <= String.length s)%nat).
      { clear. induction s as [|b s IH]; cbn; [lia|]. destruct (digit_of b); cbn; lia. }
      cbn in H. lia. }
  rewrite Hfr. pose proof (digits_length ip Hi). rewrite (proj2 (Z.eqb_neq _ _)) by lia.
  rewrite read_power_text by done. cbn. destruct (decimal _ _ _ _ _); done.
Qed.

Lemma decode_int_real : f <> None \/ x <> None -> decode_int text = None.
Proof.
  intros Hne. assert (Hbad : all_chars is_digit (ip +:+ fraction_text f +:+ exponent_text x)%string = false).
  { rewrite !all_chars_append. destruct f as [fd|]; [by rewrite andb_false_r|]. destruct x as [x'|]; [|by destruct Hne].
    destruct Hx as (He & _). apply is_exp_cases in He. cbn [exponent_text all_chars].
    destruct He as [-> | ->]; cbn; by rewrite andb_false_r. }
  assert (Hno : forall th last a, int_digits th last (ip +:+ fraction_text f +:+ exponent_text x)%string a = None).
  { intros th last a. destruct (int_digits _ _ _ _) eqn:E; [|done]. apply int_digits_only in E. congruence. }
  destruct neg.
  - change (minus true +:+ ip +:+ fraction_text f +:+ exponent_text x)%string with
      (String "-" (ip +:+ fraction_text f +:+ exponent_text x)%string). unfold decode_int.
    change (Ascii.eqb "-" "-") with true. cbv iota. by rewrite Hno.
  - change (minus false +:+ ip +:+ fraction_text f +:+ exponent_text x)%string with
      (ip +:+ fraction_text f +:+ exponent_text x)%string.
    destruct (digits_front ip Hi) as (c & s & E & Hc & _). revert Hno. rewrite E, append_cons. intros Hno.
    unfold decode_int. apply digit_no_sign, orb_false_iff in Hc as [_ Hc]. by rewrite Hc, Hno.
Qed.
End Real.

(** ** Runs of the parser from one place in the text to another *)
Definition runs {A} (m : M Reader A) (a : A) (s s' : string) : Prop :=
  forall r, current_ r = s -> commentsBefore_ r = ""%string ->
  exists r', m r = Done (a, r') /\ current_ r' = s' /\ errors_ r' = errors_ r /\ commentsBefore_ r' = ""%string.

Lemma runs_ret {A} (a : A) s : runs (mret a) a s s.
Proof. intros r H1 H2. by exists r. Qed.
Lemma runs_bind {A B} (m : M Reader A) (f : A -> M Reader B) a b s s1 s2 :
  runs m a s s1 -> runs (f a) b s1 s2 -> runs (m ≫= f) b s s2.
Proof.
  intros Hm Hf r H1 H2. destruct (Hm r H1 H2) as (r1 & E1 & C1 & R1 & B1).
  destruct (Hf r1 C1 B1) as (r2 & E2 & C2 & R2 & B2). exists r2. rewrite (bind_done _ _ _ _ _ E1).
  repeat split; try done. congruence.
Qed.
Lemma runs_get {B} (f : Reader -> M Reader B) b s s' :
  (forall r, current_ r = s -> commentsBefore_ r = ""%string -> runs (f r) b s s') -> runs (get ≫= f) b s s'.
Proof. intros H r H1 H2. by apply (H r H1 H2). Qed.
(** Reading the position and moving it. *)
Lemma runs_move {A} (g : string -> string) (h : string -> A) s :
  runs (r ← get; _ ← put (set_current (g (current_ r)) r); mret (h (current_ r))) (h s) s (g s).
Proof. intros r <- H2. by eexists. Qed.

Abbreviation readToken := (readToken setDefaults true).
Definition token (ty : TokenType) (s rest : string) : bool * Token := (true, mkToken ty s rest).

Lemma runs_token ws c s ty rest : blanks ws -> is_blank c = false ->
  runs (read_from setDefaults true (String c s) c) (true, ty) s rest ->
  runs readToken (token ty (String c s) rest) (ws +:+ String c s)%string rest.
Proof.
  intros Hw Hc Hr. unfold JsonReader.readToken.
  apply (runs_bind _ _ tt _ _ (String c s)).
  { intros r H1 H2. eexists. split; [reflexivity|]. cbn. by rewrite H1, skip_blanks_append. }
  apply runs_get. intros r Hr1 _. rewrite Hr1.
  apply (runs_bind _ _ c _ _ s).
  { intros r1 H1 H2. unfold getNextChar. mred. rewrite H1. by eexists. }
  eapply runs_bind; [exact Hr|]. apply runs_get. intros r' Hr' _. rewrite Hr'. apply runs_ret.
Qed.

(** Brackets, commas and colons. *)
Definition punctuation (c : ascii) : option TokenType :=
  let is_ (d : ascii) := Ascii.eqb c d in
  if is_ "{"%char then Some tokenObjectBegin else if is_ "}"%char then Some tokenObjectEnd
  else if is_ "["%char then Some tokenArrayBegin else if is_ "]"%char then Some tokenArrayEnd
  else if is_ ","%char then Some tokenArraySeparator else if is_ ":"%char then Some tokenMemberSeparator
  else None.
Lemma runs_punctuation ws c s ty : blanks ws -> punctuation c = Some ty ->
  runs readToken (token ty (String c s) s) (ws +:+ String c s)%string s.
Proof.
  intros Hw Hp. unfold punctuation in Hp.
  repeat match type of Hp with (if Ascii.eqb c ?d then _ else _) = _ =>
    destruct (Ascii.eqb_spec c d) as [->|_]; [injection Hp as <-; apply runs_token; [done|done|apply runs_ret]|] end.
  done.
Qed.

Lemma drop_prefix_append p s : drop_prefix p (p +:+ s)%string = Some s.
Proof. induction p as [|c p IH]; [by destruct s|]. rewrite append_cons. cbn. by rewrite Ascii.eqb_refl. Qed.
Lemma runs_match p s : runs (match_ p) true (p +:+ s)%string s.
Proof. intros r H1 H2. unfold match_. mred. rewrite H1, drop_prefix_append. mred. by eexists. Qed.

(** [true], [false] and [null]. *)
Lemma runs_word ws c p s ty : blanks ws -> is_blank c = false ->
  read_from setDefaults true (String c (p +:+ s)%string) c = (ok ← match_ p; mret (ok, ty)) ->
  runs readToken (token ty (String c (p +:+ s)%string) s) (ws +:+ String c (p +:+ s))%string s.
Proof.
  intros Hw Hc E. apply runs_token; [done|done|]. rewrite E. eapply runs_bind; [apply runs_match|apply runs_ret].
Qed.

(** *** Number tokens *)
Lemma runs_readNumber b s : (match s with String c _ => Ascii.eqb c "I" = false | EmptyString => True end) ->
  runs (readNumber b) true s (number_end s).
Proof.
  intros Hs r H1 H2. unfold readNumber. mred. rewrite H1. destruct s as [|c s].
  - by exists r.
  - rewrite Hs, andb_false_r. by eexists.
Qed.
Lemma digit_not_I c : is_digit c = true -> Ascii.eqb c "I" = false.
Proof. intros H. apply is_digit_cases in H. decompose [or] H; by subst. Qed.

(** A text that starts with a digit, or with a minus sign and a digit, and ends where
    the number ends. *)
Lemma runs_number ws neg ip more rest : blanks ws -> digits ip ->
  (forall ds, all_chars is_digit ds = true -> number_end (ds +:+ more +:+ rest)%string = rest) ->
  runs readToken (token tokenNumber ((minus neg +:+ ip +:+ more) +:+ rest)%string rest)
    (ws +:+ (minus neg +:+ ip +:+ more) +:+ rest)%string rest.
Proof.
  intros Hw Hd Hend. destruct (digits_front ip Hd) as (c & s & E & Hc & Hs).
  rewrite !append_assoc. destruct neg.
  - change (minus true +:+ ip +:+ more +:+ rest)%string with (String "-" (ip +:+ more +:+ rest)%string).
    apply runs_token; [done|done|].
    apply (runs_bind (readNumber true) _ true _ _ rest); [|apply runs_ret].
    rewrite <- (Hend ip (proj1 Hd)) at 2. apply runs_readNumber. rewrite E, append_cons. by apply digit_not_I.
  - change (minus false +:+ ip +:+ more +:+ rest)%string with (ip +:+ more +:+ rest)%string.
    rewrite E, append_cons. pose proof (Hend s Hs) as He. apply runs_token; [done| |].
    + apply is_digit_cases in Hc. decompose [or] Hc; by subst.
    + assert (Hf : read_from setDefaults true (String c (s +:+ more +:+ rest)%string) c =
        (_ ← readNumber false; mret (true, tokenNumber))) by (apply is_digit_cases in Hc; decompose [or] Hc; by subst).
      rewrite Hf. apply (runs_bind (readNumber false) _ true _ _ rest); [|apply runs_ret].
      rewrite <- He at 2. intros r H1 H2. unfold readNumber. mred. rewrite H1.
      destruct (s +:+ more +:+ rest)%string; [by exists r|]. cbn [andb]. mred. by eexists.
Qed.

(** A number: the token, and its value. *)
Lemma runs_number_token ws v t rest : blanks ws -> number_text v t -> stops rest ->
  runs readToken (token tokenNumber (t +:+ rest)%string rest) (ws +:+ t +:+ rest)%string rest.
Proof.
  intros Hw Hn Hr. destruct Hn as [neg ds Hd Hb|neg ip f x d Hi Hf Hx Hne Hv Hfin].
  - pose proof (runs_number ws neg ds "" rest Hw Hd) as H. rewrite !append_empty_r in H. apply H.
    intros ds' Hds'. exact (number_end_text ds' None None rest Hds' I I Hr).
  - apply runs_number; [done|done|]. intros ds' Hds'. rewrite append_assoc. by apply number_end_text.
Qed.
Lemma runs_decodeNumber v t rest s : number_text v t ->
  runs (decodeNumber (mkToken tokenNumber (t +:+ rest)%string rest)) (Some v) s s.
Proof.
  intros Hn. unfold decodeNumber, decodeDouble, token_text. cbn [start_ end_]. rewrite text_between_append.
  destruct Hn as [neg ds Hd Hb|neg ip f x d Hi Hf Hx Hne Hv Hfin].
  - rewrite decode_int_text by done. apply runs_ret.
  - rewrite decode_int_real, (read_double_text _ _ _ _ Hi Hf Hx _ Hv Hfin) by done. apply runs_ret.
Qed.

(** *** Strings *)
Lemma hex4_chars h u : hex4 h u -> exists a b c d, h = String a (String b (String c (one d))) /\
  hex_digit a <> None /\ hex_digit b <> None /\ hex_digit c <> None /\ hex_digit d <> None.
Proof.
  intros [Hl H]. destruct h as [|a [|b [|c [|d []]]]]; try done. exists a, b, c, d. split; [done|].
  cbn in H. destruct (hex_digit a); [|done]. destruct (hex_digit b); [|done]. destruct (hex_digit c); [|done].
  by destruct (hex_digit d).
Qed.
Lemma hex_digits_append h u s : hex4 h u -> hex_digits 4 0 (h +:+ s)%string = (Some u, s).
Proof.
  intros H. destruct (hex4_chars h u H) as (a & b & c & d & -> & _). destruct H as [_ H]. unfold one in *.
  rewrite !append_cons. change ("" +:+ s)%string with s. cbn in *.
  destruct (hex_digit a); [|done]. destruct (hex_digit b); [|done]. destruct (hex_digit c); [|done].
  destruct (hex_digit d); [|done]. by injection H as <-.
Qed.
Lemma hex_plain c : hex_digit c <> None -> Ascii.eqb c BACKSLASH = false /\ Ascii.eqb c DQUOTE = false.
Proof. intros H. split; apply Ascii.eqb_neq; intros ->; by apply H. Qed.
Lemma string_end_unicode h u s : hex4 h u ->
  string_end DQUOTE (unicode_text h +:+ s)%string = string_end DQUOTE s.
Proof.
  intros H. destruct (hex4_chars h u H) as (a & b & c & d & -> & Ha & Hb & Hc & Hd). unfold unicode_text, one.
  rewrite !append_cons. change ("" +:+ s)%string with s. cbn [string_end].
  change (Ascii.eqb BACKSLASH BACKSLASH) with true. cbv iota.
  apply hex_plain in Ha as [-> ->]. apply hex_plain in Hb as [-> ->]. apply hex_plain in Hc as [-> ->].
  by apply hex_plain in Hd as [-> ->].
Qed.

Lemma string_end_text raw d rest : string_text d raw ->
  string_end DQUOTE (raw +:+ String DQUOTE rest)%string = (true, rest).
Proof.
  induction 1 as [|c d r H1 H2 H IH|e c d r He H IH|h u d r Hh Hu H IH|h u h' l d r Hh Hu Hh' Hlow H IH].
  - done.
  - rewrite append_cons. cbn [string_end].
    destruct (Ascii.eqb_spec c BACKSLASH); [done|]. destruct (Ascii.eqb_spec c DQUOTE); [done|]. exact IH.
  - rewrite !append_cons. exact IH.
  - by rewrite append_assoc, (string_end_unicode h u).
  - by rewrite !append_assoc, (string_end_unicode h u), (string_end_unicode h' l).
Qed.
Lemma runs_string_token ws d raw rest : blanks ws -> string_text d raw ->
  runs readToken (token tokenString (quoted raw +:+ rest)%string rest) (ws +:+ quoted raw +:+ rest)%string rest.
Proof.
  intros Hw Hs. unfold quoted. rewrite append_cons, append_assoc. change (one DQUOTE +:+ rest)%string with (String DQUOTE rest).
  apply runs_token; [done|done|]. apply (runs_bind (readString DQUOTE) _ true _ _ rest); [|apply runs_ret].
  intros r H1 H2. unfold readString. mred. rewrite H1, (string_end_text _ d) by done. mred. by eexists.
Qed.

(** *** Decoding: nothing is read. *)
Definition yields {A} (m : M Reader A) (a : A) : Prop := forall r, m r = Done (a, r).
Lemma yields_runs {A} (m : M Reader A) a s : yields m a -> runs m a s s.
Proof. intros H r H1 H2. exists r. by rewrite H. Qed.
Lemma yields_bind {A B} (m : M Reader A) (f : A -> M Reader B) a b : yields m a -> yields (f a) b -> yields (m ≫= f) b.
Proof. intros Hm Hf r. by rewrite (bind_done _ _ _ _ _ (Hm r)). Qed.

Section Decode.
Context (t : Token) (rest : string).
Local Abbreviation closing := (String DQUOTE rest).

Lemma yields_hex h u s : hex4 h u ->
  yields (decodeUnicodeEscapeSequence t (h +:+ s +:+ closing)%string closing) (Some (u, s +:+ closing)%string).
Proof.
  intros H r. unfold decodeUnicodeEscapeSequence. rewrite <- append_assoc, distance_append, append_length.
  destruct H as [Hl H']. rewrite Hl. cbn [Nat.ltb Nat.leb Nat.add]. by rewrite append_assoc, (hex_digits_append h u).
Qed.
Lemma yields_unicode h u s : hex4 h u -> ~ (55296 <= u <= 56319)%Z ->
  yields (decodeUnicodeCodePoint t (h +:+ s +:+ closing)%string closing) (Some (u, s +:+ closing)%string).
Proof.
  intros H Hu. unfold decodeUnicodeCodePoint. eapply yields_bind; [by apply yields_hex|].
  cbv beta iota. destruct ((55296 <=? u) && (u <=? 56319))%Z eqn:E; [|done]. apply andb_true_iff in E as [E1%Z.leb_le E2%Z.leb_le]. lia.
Qed.
Lemma yields_pair h u h' l s : hex4 h u -> (55296 <= u <= 56319)%Z -> hex4 h' l -> (56320 <= l <= 57343)%Z ->
  yields (decodeUnicodeCodePoint t (h +:+ (unicode_text h' +:+ s) +:+ closing)%string closing)
    (Some (65536 + (u - 55296) * 1024 + (l - 56320), s +:+ closing)%string%Z).
Proof.
  intros H Hu H' Hl. unfold decodeUnicodeCodePoint. eapply yields_bind; [by apply yields_hex|]. cbv beta iota.
  rewrite (proj2 (Z.leb_le _ _)), (proj2 (Z.leb_le _ _)) by lia. cbn [andb].
  rewrite distance_append, append_length. unfold unicode_text at 1. cbn [String.length].
  rewrite (proj1 H'). cbn [Nat.ltb Nat.leb Nat.add].
  unfold unicode_text. rewrite !append_cons. cbn [surrogate_start].
  change (Ascii.eqb BACKSLASH BACKSLASH) with true. cbv iota. change (Ascii.eqb "u" "u") with true. cbv iota.
  rewrite append_assoc. eapply yields_bind; [by apply yields_hex|]. cbv beta iota. intros r.
  rewrite Z.shiftl_mul_pow2 by lia. change 1023%Z with (Z.ones 10). rewrite !Z.land_ones by lia.
  change (2 ^ 10)%Z with 1024%Z.
  replace (u mod 1024)%Z with (u - 55296)%Z by (apply (Z.mod_unique_pos _ _ 54); lia).
  replace (l mod 1024)%Z with (l - 56320)%Z by (apply (Z.mod_unique_pos _ _ 55); lia). done.
Qed.

Lemma decode_step fuel decoded current o d : yields (decode_char t closing (decoded, current)) (inl o) ->
  yields (loop fuel o (decode_char t closing)) d ->
  yields (loop (S fuel) (decoded, current) (decode_char t closing)) d.
Proof. intros H1 H2. cbn [loop]. by eapply yields_bind. Qed.
(** A backslash that is not the last character before the closing quote. *)
Lemma decode_backslash decoded e s : decode_char t closing (decoded, String BACKSLASH (String e (s +:+ closing)))%string =
  decode_escape t closing decoded (String e (s +:+ closing))%string.
Proof.
  unfold decode_char.
  change (String BACKSLASH (String e (s +:+ closing)))%string with (String BACKSLASH (String e s) +:+ closing)%string at 1.
  rewrite distance_append. cbn [String.length Nat.eqb]. change (Ascii.eqb BACKSLASH DQUOTE) with false.
  change (Ascii.eqb BACKSLASH BACKSLASH) with true. cbv iota.
  change (String e (s +:+ closing))%string with (String e s +:+ closing)%string at 1. by rewrite distance_append.
Qed.

Lemma decode_text raw d : string_text d raw -> forall fuel decoded, (String.length raw < fuel)%nat ->
  yields (loop fuel (decoded, raw +:+ closing)%string (decode_char t closing)) (true, decoded +:+ d)%string.
Proof.
  induction 1 as [|c d r H1 H2 H IH|e c d r He H IH|h u d r Hh Hu H IH|h u h' l d r Hh Hu Hh' Hlow H IH];
    intros fuel decoded Hf; (destruct fuel as [|fuel]; [lia|]).
  - intros r. cbn [loop]. unfold decode_char. rewrite distance_append. cbn. by rewrite append_empty_r.
  - apply (decode_step _ _ _ (decoded +:+ one c, r +:+ closing)%string).
    + intros r0. unfold decode_char. rewrite distance_append. cbn [String.length Nat.eqb]. rewrite append_cons.
      destruct (Ascii.eqb_spec c DQUOTE); [done|]. by destruct (Ascii.eqb_spec c BACKSLASH).
    + cbn in Hf. specialize (IH fuel (decoded +:+ one c)%string ltac:(lia)). by rewrite append_assoc in IH.
  - rewrite !append_cons. apply (decode_step _ _ _ (decoded +:+ one c, r +:+ closing)%string).
    + rewrite decode_backslash. unfold decode_escape. rewrite He. done.
    + cbn in Hf. specialize (IH fuel (decoded +:+ one c)%string ltac:(lia)). by rewrite append_assoc in IH.
  - unfold unicode_text in *. rewrite !append_cons, append_assoc.
    apply (decode_step _ _ _ (decoded +:+ codePointToUTF8 u, r +:+ closing)%string).
    + rewrite <- append_assoc, decode_backslash, append_assoc. unfold decode_escape. cbn [simple_escape Ascii.eqb Bool.eqb].
      eapply yields_bind; [by apply yields_unicode|]. done.
    + rewrite !append_cons in Hf. cbn [String.length] in Hf. rewrite append_length in Hf. specialize (IH fuel (decoded +:+ codePointToUTF8 u)%string ltac:(lia)).
      by rewrite append_assoc in IH.
  - set (cp := (65536 + (u - 55296) * 1024 + (l - 56320))%Z).
    rewrite (append_assoc (unicode_text h)). unfold unicode_text at 1. rewrite !append_cons.
    apply (decode_step _ _ _ (decoded +:+ codePointToUTF8 cp, r +:+ closing)%string).
    + rewrite <- append_assoc, decode_backslash, append_assoc. unfold decode_escape. cbn [simple_escape Ascii.eqb Bool.eqb].
      eapply yields_bind; [by apply yields_pair|]. done.
    + unfold unicode_text in Hf. rewrite !append_cons in Hf. cbn [String.length] in Hf.
      rewrite append_length in Hf. cbn [String.length] in Hf. rewrite append_length in Hf.
      specialize (IH fuel (decoded +:+ codePointToUTF8 cp)%string ltac:(lia)). by rewrite append_assoc in IH.
Qed.
End Decode.

Lemma runs_decodeString d raw rest s : string_text d raw ->
  runs (decodeString (mkToken tokenString (quoted raw +:+ rest)%string rest)) (true, d) s s.
Proof.
  intros H. apply yields_runs. unfold decodeString, quoted. cbn [start_ end_]. rewrite append_cons, append_assoc.
  change (one DQUOTE +:+ rest)%string with (String DQUOTE rest).
  apply (decode_text _ rest raw d H _ ""%string). rewrite append_length. lia.
Qed.

(** ** Values *)
Abbreviation readValue := (readValue setDefaults true).
Abbreviation value_of_token := (value_of_token setDefaults true).

Lemma runs_skipSpaces ws c s : blanks ws -> is_blank c = false ->
  runs skipSpaces tt (ws +:+ String c s)%string (String c s).
Proof. intros Hw Hc r H1 H2. eexists. split; [reflexivity|]. cbn. by rewrite H1, skip_blanks_append. Qed.
Lemma runs_stop fuel again t s : again t = false -> (1 <= fuel)%nat ->
  runs (tokens_while setDefaults true fuel again t) t s s.
Proof.
  intros Ha Hf. destruct fuel as [|fuel]; [lia|]. unfold tokens_while. cbn [loop]. rewrite Ha.
  eapply runs_bind; apply runs_ret.
Qed.
Lemma runs_skipCommentTokens fuel t s s' : runs readToken t s s' -> is_comment t.2 = false -> (1 <= fuel)%nat ->
  runs (skipCommentTokens setDefaults true fuel) t.2 s s'.
Proof.
  intros Ht Hc Hf. unfold skipCommentTokens. eapply runs_bind; [exact Ht|]. cbn [allowComments_ setDefaults].
  eapply runs_bind; [by apply (runs_stop fuel (fun t => is_comment t.2) t)|]. destruct t as [b t]. apply runs_ret.
Qed.
Lemma runs_take_comments s : runs (take_comments true) tt s s.
Proof. intros r H1 H2. unfold take_comments. mred. rewrite H2. by exists r. Qed.

(** A value is read as its first token is. *)
Lemma runs_readValue fuel nodes v0 t v s s1 s2 : (nodes <= 1000)%nat ->
  runs readToken t s s1 -> is_comment t.2 = false ->
  runs (value_of_token (S fuel) (readValue fuel (S nodes)) t.2 v0) (Some true, v) s1 s2 ->
  runs (readValue (S fuel) nodes v0) (true, v) s s2.
Proof.
  intros Hn Ht Hc Hv. cbn [JsonReader.readValue].
  assert (Hl : (stackLimit_ setDefaults <? nodes)%nat = false) by (apply Nat.ltb_ge; exact Hn).
  rewrite Hl. eapply runs_bind; [apply runs_skipCommentTokens; [exact Ht|done|lia]|].
  eapply runs_bind; [apply runs_take_comments|]. eapply runs_bind; [exact Hv|]. cbv beta iota.
  eapply runs_bind; [|apply runs_ret]. intros r H1 H2. by eexists.
Qed.

Lemma scalar_value fuel nodes v0 t v ws s rest : (nodes <= 1000)%nat -> (1 <= fuel)%nat ->
  runs readToken t (ws +:+ s)%string rest -> is_comment t.2 = false ->
  (forall f rv, runs (value_of_token f rv t.2 v0) (Some true, v) rest rest) ->
  runs (readValue fuel nodes v0) (true, v) (ws +:+ s)%string rest.
Proof. intros Hn Hf Ht Hc Hv. destruct fuel as [|fuel]; [lia|]. eapply runs_readValue; eauto. Qed.

Lemma json_front n v t : json_text n v t ->
  exists c s, t = String c s /\ is_blank c = false /\ Ascii.eqb c "]" = false.
Proof.
  intros H. destruct H as [n|n|n|n v t H|n s raw H|n ws H|n vs t H|n ws H|n ms t H]; try by eexists _, _.
  assert (Hf : forall neg ip more, digits ip -> exists c s, (minus neg +:+ ip +:+ more)%string = String c s /\
    is_blank c = false /\ Ascii.eqb c "]" = false).
  { intros neg ip more Hd. destruct neg; [by eexists _, _|]. destruct (digits_front ip Hd) as (c & s & -> & Hc & _).
    eexists c, _. split; [reflexivity|]. apply is_digit_cases in Hc. decompose [or] Hc; by subst. }
  destruct H as [neg ds Hd Hb|neg ip f x d Hi _ _ _ _ _]; [|by apply Hf].
  specialize (Hf neg ds ""%string Hd). by rewrite append_empty_r in Hf.
Qed.

Definition value_parsed (n : nat) (v : Value) (t : string) : Prop := forall fuel nodes v0 ws rest,
  blanks ws -> stops rest -> (nodes + n <= 1000)%nat -> (String.length (ws +:+ t +:+ rest)%string + 2 <= fuel)%nat ->
  runs (readValue fuel nodes v0) (true, v) (ws +:+ t +:+ rest)%string rest.
Definition items_parsed (n : nat) (vs : list Value) (t : string) : Prop := forall fuel turns nodes elems rest,
  (nodes + n <= 1000)%nat -> (String.length (t +:+ rest)%string + 2 <= fuel)%nat ->
  (String.length (t +:+ rest)%string < turns)%nat ->
  runs (loop turns elems (array_step setDefaults true (S fuel) (readValue fuel nodes)))
    (true, elems ++ vs) (t +:+ rest)%string rest.
Definition members_parsed (n : nat) (ms : list (string * Value)) (t : string) : Prop :=
  forall fuel turns nodes name members rest,
  (nodes + n <= 1000)%nat -> (String.length (t +:+ rest)%string + 2 <= fuel)%nat ->
  (String.length (t +:+ rest)%string < turns)%nat ->
  runs (loop turns (name, members) (object_step setDefaults true (S fuel) (readValue fuel nodes)))
    (true, foldl (fun m e => om_set e.1 e.2 m) members ms) (t +:+ rest)%string rest.

(** An item up to the comma or bracket [c] after it. *)
Lemma array_item n v t ws ws' c ty fuel nodes elems rest :
  value_parsed n v t -> json_text n v t -> blanks ws -> blanks ws' -> (nodes + n <= 1000)%nat ->
  punctuation c = Some ty -> stops (String c rest) -> ty = tokenArraySeparator \/ ty = tokenArrayEnd ->
  (String.length (ws +:+ t +:+ ws' +:+ String c rest)%string + 2 <= fuel)%nat ->
  runs (array_step setDefaults true (S fuel) (readValue fuel nodes) elems)
    (if decide (ty = tokenArrayEnd) then inr (true, elems ++ [v]) else inl (elems ++ [v]))
    (ws +:+ t +:+ ws' +:+ String c rest)%string rest.
Proof.
  intros Hv Hj Hw Hw' Hn Hc Hs Hty Hf. destruct (json_front n v t Hj) as (c0 & s0 & E & Hb & Hne).
  unfold array_step. eapply runs_bind; [rewrite E, append_cons; by apply runs_skipSpaces|]. rewrite <- append_cons, <- E.
  apply runs_get. intros r Hr _. rewrite Hr, E, append_cons. cbn [at_array_end]. rewrite Hne. cbn [andb].
  rewrite <- append_cons, <- E. rewrite append_length in Hf.
  eapply runs_bind; [apply (Hv fuel nodes JNull ""%string); [done|by apply stops_blanks|done|]|].
  { change ("" +:+ t +:+ ws' +:+ String c rest)%string with (t +:+ ws' +:+ String c rest)%string. lia. }
  cbv beta iota. cbn [negb]. eapply runs_bind; [by apply (runs_punctuation ws' c rest ty)|].
  eapply runs_bind; [apply runs_stop; [|lia]; by destruct Hty as [-> | ->]|].
  unfold token. destruct Hty as [-> | ->]; apply runs_ret.
Qed.

(** A member up to the comma or bracket [c] after it. *)
Lemma object_member n k raw v t ws ws1 ws2 ws3 c ty fuel nodes name members rest :
  value_parsed n v t -> string_text k raw -> short_key k -> blanks ws -> blanks ws1 -> blanks ws2 -> blanks ws3 ->
  (nodes + n <= 1000)%nat -> punctuation c = Some ty -> stops (String c rest) ->
  ty = tokenArraySeparator \/ ty = tokenObjectEnd ->
  (String.length (ws +:+ quoted raw +:+ ws1 +:+ String ":" (ws2 +:+ t +:+ ws3 +:+ String c rest))%string + 2 <= fuel)%nat ->
  runs (object_step setDefaults true (S fuel) (readValue fuel nodes) (name, members))
    (if decide (ty = tokenObjectEnd) then inr (true, om_set k v members) else inl (k, om_set k v members))
    (ws +:+ quoted raw +:+ ws1 +:+ String ":" (ws2 +:+ t +:+ ws3 +:+ String c rest))%string rest.
Proof.
  intros Hv Hk Hsk Hw Hw1 Hw2 Hw3 Hn Hc Hs Hty Hf. unfold object_step.
  eapply runs_bind; [by apply (runs_string_token ws k raw)|]. unfold token. cbv beta iota. cbn [negb].
  eapply runs_bind; [by apply runs_stop; [|lia]|]. cbv beta iota. cbn [negb type_].
  change (bool_decide (tokenString = tokenObjectEnd)) with false. cbn [andb].
  eapply runs_bind.
  { unfold read_name. cbn [type_]. rewrite decide_True by done.
    eapply runs_bind; [by apply (runs_decodeString k raw)|]. apply runs_ret. }
  cbv beta iota. unfold short_key in Hsk. rewrite (proj2 (Z.leb_gt _ _)) by exact Hsk.
  cbn [rejectDupKeys_ setDefaults andb]. unfold read_member.
  eapply runs_bind; [by apply (runs_punctuation ws1 ":" _ tokenMemberSeparator)|]. unfold token. cbv beta iota.
  change (negb true || negb (bool_decide (tokenMemberSeparator = tokenMemberSeparator))) with false. cbn [type_]. cbv iota.
  eapply runs_bind; [apply (Hv fuel nodes _ ws2); [done|by apply stops_blanks|done|]|].
  { rewrite !append_length in Hf. cbn [String.length] in Hf. rewrite !append_length in *. lia. }
  cbv beta iota. cbn [negb]. eapply runs_bind; [by apply (runs_punctuation ws3 c rest ty)|]. unfold token. cbv beta iota.
  assert (Hok : (negb true || negb (bool_decide (type_ (mkToken ty (String c rest) rest) ∈ [tokenObjectEnd; tokenArraySeparator; tokenComment]))) = false)
    by by destruct Hty as [-> | ->].
  rewrite Hok. eapply runs_bind; [apply runs_stop; [|lia]; by destruct Hty as [-> | ->]|]. cbv beta iota. cbn [type_].
  destruct (decide _); apply runs_ret.
Qed.

(** A word, and then anything. *)
Lemma word_parsed n c p v :
  is_blank c = false -> (exists ty, is_comment (mkToken ty "" "") = false /\
    (forall s, read_from setDefaults true (String c (p +:+ s)%string) c = (ok ← match_ p; mret (ok, ty))) /\
    (forall f rv a b v0 s, runs (value_of_token f rv (mkToken ty a b) v0) (Some true, v) s s)) ->
  value_parsed n v (String c p).
Proof.
  intros Hb (ty & Hc & Hr & Hv) fuel nodes v0 ws rest Hw Hs Hn Hf. rewrite append_cons.
  eapply scalar_value; [lia|lia|by apply runs_word| |]; [exact Hc|]. intros f rv. apply Hv.
Qed.
Lemma no_items_parsed n ws : blanks ws -> value_parsed n (JArray []) (String "[" (ws +:+ "]")).
Proof.
  intros Hw fuel nodes v0 ws0 rest Hw0 Hs Hn Hf. destruct fuel as [|fuel]; [lia|]. rewrite append_cons, append_assoc.
  eapply runs_readValue; [lia|by apply (runs_punctuation ws0 "["%char _ tokenArrayBegin)|done|].
  unfold JsonReader.value_of_token. cbn [type_ token snd]. unfold readArray.
  apply (runs_bind _ _ (true, JArray []) _ _ rest); [|apply runs_ret].
  apply (runs_bind _ _ (true, @nil Value) _ _ rest); [|apply runs_ret]. cbn [loop].
  apply (runs_bind _ _ (inr (true, @nil Value)) _ _ rest); [|apply runs_ret]. unfold array_step.
  eapply runs_bind; [by apply (runs_skipSpaces ws "]"%char rest)|]. apply runs_get. intros r Hr _. rewrite Hr.
  change (at_array_end setDefaults [] (String "]" rest)) with true. cbv iota.
  eapply runs_bind; [by apply (runs_punctuation ""%string "]"%char rest tokenArrayEnd)|apply runs_ret].
Qed.
Lemma no_members_parsed n ws : blanks ws -> value_parsed n (JObject []) (String "{" (ws +:+ "}")).
Proof.
  intros Hw fuel nodes v0 ws0 rest Hw0 Hs Hn Hf. destruct fuel as [|fuel]; [lia|]. rewrite append_cons, append_assoc.
  eapply runs_readValue; [lia|by apply (runs_punctuation ws0 "{"%char _ tokenObjectBegin)|done|].
  unfold JsonReader.value_of_token. cbn [type_ token snd]. unfold readObject.
  apply (runs_bind _ _ (true, JObject []) _ _ rest); [|apply runs_ret].
  apply (runs_bind _ _ (true, @nil (string * Value)) _ _ rest); [|apply runs_ret]. cbn [loop].
  apply (runs_bind _ _ (inr (true, @nil (string * Value))) _ _ rest); [|apply runs_ret]. unfold object_step.
  eapply runs_bind; [by apply (runs_punctuation ws "}"%char rest tokenObjectEnd)|]. unfold token. cbv beta iota. cbn [negb].
  eapply runs_bind; [by apply runs_stop; [|lia]|apply runs_ret].
Qed.

Lemma array_parsed n vs t : items_parsed n vs t -> value_parsed (S n) (JArray vs) (String "[" t).
Proof.
  intros Hi fuel nodes v0 ws rest Hw Hs Hn Hf. destruct fuel as [|fuel]; [lia|].
  rewrite append_length, append_cons in Hf. cbn [String.length] in Hf. rewrite append_cons.
  eapply runs_readValue; [lia|by apply (runs_punctuation ws "["%char _ tokenArrayBegin)|done|].
  unfold JsonReader.value_of_token. cbn [type_ token snd]. unfold readArray.
  apply (runs_bind _ _ (true, JArray vs) _ _ rest); [|apply runs_ret].
  eapply runs_bind; [apply (Hi fuel (S fuel) (S nodes) []); lia|]. apply runs_ret.
Qed.
Lemma object_parsed n ms t : members_parsed n ms t -> value_parsed (S n) (object_of ms) (String "{" t).
Proof.
  intros Hi fuel nodes v0 ws rest Hw Hs Hn Hf. destruct fuel as [|fuel]; [lia|].
  rewrite append_length, append_cons in Hf. cbn [String.length] in Hf. rewrite append_cons.
  eapply runs_readValue; [lia|by apply (runs_punctuation ws "{"%char _ tokenObjectBegin)|done|].
  unfold JsonReader.value_of_token. cbn [type_ token snd]. unfold readObject.
  apply (runs_bind _ _ (true, object_of ms) _ _ rest); [|apply runs_ret].
  eapply runs_bind; [apply (Hi fuel (S fuel) (S nodes) ""%string []); lia|]. apply runs_ret.
Qed.

Lemma texts_parsed :
  (forall n v t, json_text n v t -> value_parsed n v t) /\
  (forall n vs t, items_text n vs t -> items_parsed n vs t) /\
  (forall n ms t, members_text n ms t -> members_parsed n ms t).
Proof.
  assert (Hj : forall n v t, json_text n v t -> value_parsed n v t -> json_text n v t /\ value_parsed n v t) by auto.
  apply json_texts_ind.
  - intros n. apply word_parsed; [done|]. exists tokenNull. split; [done|]. split; [done|]. intros. apply runs_ret.
  - intros n. apply word_parsed; [done|]. exists tokenTrue. split; [done|]. split; [done|]. intros. apply runs_ret.
  - intros n. apply word_parsed; [done|]. exists tokenFalse. split; [done|]. split; [done|]. intros. apply runs_ret.
  - intros n v t Ht fuel nodes v0 ws rest Hw Hs Hn Hf.
    eapply scalar_value; [lia|lia|by apply (runs_number_token ws v)|done|]. intros f rv.
    unfold JsonReader.value_of_token. cbn [type_ token snd].
    eapply runs_bind; [by apply (runs_decodeNumber v)|apply runs_ret].
  - intros n s raw Hr fuel nodes v0 ws rest Hw Hs Hn Hf.
    eapply scalar_value; [lia|lia|by apply (runs_string_token ws s)|done|]. intros f rv.
    unfold JsonReader.value_of_token. cbn [type_ token snd].
    eapply runs_bind; [by apply (runs_decodeString s)|apply runs_ret].
  - intros n ws Hw. by apply no_items_parsed.
  - intros n vs t _ Hi. by apply array_parsed.
  - intros n ws Hw. by apply no_members_parsed.
  - intros n ms t _ Hi. by apply object_parsed.
  - intros n ws v t ws' Hw Ht Hv Hw' fuel turns nodes elems rest Hn Hf Hl. destruct turns as [|turns]; [lia|]. cbn [loop].
    rewrite !append_assoc in *. change ("]" +:+ rest)%string with (String "]" rest) in *.
    eapply runs_bind; [apply (array_item n v t ws ws' "]" tokenArrayEnd); auto; right; auto|].
    rewrite decide_True by done. apply runs_ret.
  - intros n ws v t ws' vs ts Hw Ht Hv Hw' _ Hi fuel turns nodes elems rest Hn Hf Hl.
    destruct turns as [|turns]; [lia|]. cbn [loop]. rewrite !append_assoc, append_cons in *.
    eapply runs_bind; [apply (array_item n v t ws ws' "," tokenArraySeparator); auto; right; auto|].
    rewrite decide_False by done. cbv iota. rewrite !append_length in Hf, Hl. cbn [String.length] in Hf, Hl.
    rewrite !append_length in Hf, Hl. specialize (Hi fuel turns nodes (elems ++ [v]) rest Hn).
    rewrite append_length, <- app_assoc in Hi. apply Hi; lia.
  - intros n ws k raw ws1 ws2 v t ws3 Hw Hk Hsk Hw1 Hw2 Ht Hv Hw3 fuel turns nodes name members rest Hn Hf Hl.
    destruct turns as [|turns]; [lia|]. cbn [loop].
    rewrite !append_assoc, append_cons, !append_assoc in *. change ("}" +:+ rest)%string with (String "}" rest) in *.
    eapply runs_bind; [apply (object_member n k raw v t ws ws1 ws2 ws3 "}" tokenObjectEnd); auto; right; auto|].
    rewrite decide_True by done. apply runs_ret.
  - intros n ws k raw ws1 ws2 v t ws3 ms ts Hw Hk Hsk Hw1 Hw2 Ht Hv Hw3 _ Hi fuel turns nodes name members rest Hn Hf Hl.
    destruct turns as [|turns]; [lia|]. cbn [loop].
    rewrite !append_assoc, append_cons, !append_assoc, append_cons in *.
    eapply runs_bind; [apply (object_member n k raw v t ws ws1 ws2 ws3 "," tokenArraySeparator); auto; right; auto|].
    rewrite decide_False by done. cbv iota.
    rewrite !append_length in Hf, Hl. cbn [String.length] in Hf, Hl.
    rewrite !append_length in Hf, Hl. cbn [String.length] in Hf, Hl. rewrite !append_length in Hf, Hl.
    specialize (Hi fuel turns nodes k (om_set k v members) rest Hn). rewrite append_length in Hi. apply Hi; lia.
Qed.

(** ** Documents *)
Lemma runs_end ws : blanks ws -> runs readToken (token tokenEndOfStream "" "") ws "".
Proof.
  intros Hw r H1 H2. exists (set_current "" r). unfold JsonReader.readToken, skipSpaces, getNextChar. mred.
  rewrite H1, (skip_blanks_only ws Hw). split; [|done]. by destruct r.
Qed.

(** C16: the parser accepts every JSON text: a document that consists of a value of
    the grammar with blanks around it and at most 1000 levels of nesting is parsed
    to that value, without an error message. *)
Theorem parse_complete v t ws ws' (Ht : json_text 999 v t) (Hw : blanks ws) (Hw' : blanks ws') :
  parseFromStream (ws +:+ t +:+ ws')%string JNull = Done (true, v, ""%string).
Proof.
  set (doc := (ws +:+ t +:+ ws')%string). unfold parseFromStream, char_reader_parse.
  assert (H : runs (parse setDefaults true doc JNull) (true, v) doc ""%string).
  { unfold parse. eapply runs_bind.
    - apply (proj1 texts_parsed 999%nat v t Ht (parse_fuel doc) 1%nat JNull ws ws' Hw); [by apply stops_only|lia|].
      unfold parse_fuel, doc. lia.
    - cbv beta iota. eapply runs_bind; [apply runs_skipCommentTokens; [by apply runs_end|done|unfold parse_fuel; lia]|].
      cbn [failIfExtra_ setDefaults andb]. apply runs_get. intros r Hr Hc. rewrite Hc.
      cbn [String.eqb negb andb allowComments_ when strictRoot_ setDefaults].
      eapply runs_bind; [apply runs_ret|apply runs_ret]. }
  destruct (H (new_reader doc) eq_refl eq_refl) as (r & E & _ & Er & _). by rewrite (obind_done _ _ _ E), Er.
Qed.

(** A document with every kind of text, written with single quotes. *)
Fixpoint dquotes (s : string) : string :=
  match s with
  | EmptyString => EmptyString
  | String c s' => String (if Ascii.eqb c SQUOTE then DQUOTE else c) (dquotes s')
  end.
Definition demo_real : float64 := i2d 25.
Definition demo_members : list (string * Value) :=
  [("ID", JInt (-12)); ("w", JArray [JReal demo_real; JString (String NEWLINE "A")])]%Z%string.
Definition demo_doc : string := dquotes " {'ID' :-12 , 'w': [2.5e1 ,'\n\u0041']}  ".

Lemma parse_complete_witness :
  parseFromStream demo_doc JNull = Done (true, object_of demo_members, ""%string).
Proof.
  assert (Hid : string_text "ID" "ID") by (repeat (constructor; [discriminate..|]); constructor).
  assert (Hw : string_text "w" "w") by (repeat (constructor; [discriminate..|]); constructor).
  assert (Hs : string_text (String NEWLINE "A") "\n\u0041").
  { apply (st_escape "n"); [done|].
    apply (st_unicode "0041" 65 "" ""); [done|lia|constructor]. }
  assert (Hi : json_text 998 (JInt (-12)) "-12").
  { apply jt_number. apply (nt_int true "12"); [by split|done]. }
  assert (Hr : json_text 997 (JReal demo_real) "2.5e1").
  { apply jt_number. apply (nt_real false "2" (Some "5"%string) (Some (mkExponent "e" None "1")) demo_real);
      [by split|by split|by repeat split|by auto|vm_compute; reflexivity|vm_compute; reflexivity]. }
  assert (Hv : items_text 997 [JReal demo_real; JString (String NEWLINE "A")] (dquotes "2.5e1 ,'\n\u0041']")).
  { apply (it_more 997 "" _ "2.5e1" " " _ (dquotes "'\n\u0041']")); [done|exact Hr|done|].
    apply (it_last 997 "" _ (quoted "\n\u0041") ""); [done|by apply jt_string|done]. }
  assert (Hm : members_text 998 demo_members (dquotes "'ID' :-12 , 'w': [2.5e1 ,'\n\u0041']}")).
  { apply (mt_more 998 "" "ID" "ID" " " "" (JInt (-12)) "-12" " " _ (dquotes " 'w': [2.5e1 ,'\n\u0041']}")); try done.
    apply (mt_last 998 " " "w" "w" "" " " _ (dquotes "[2.5e1 ,'\n\u0041']") ""); try done. by apply jt_array. }
  exact (parse_complete (object_of demo_members) _ " " "  " (jt_object 998 _ _ Hm) eq_refl eq_refl).
Defined.
