(* ===== verification/EndpointsProps.v ===== *)
(** * The process a backend boots is the one it connects to, and the addresses of
    backends are read as written ([Endpoints]). *)
From Stdlib Require Import ZArith Ascii String Lia.
From S2P Require Import Prelude CppFloat CppStd SchedData SysState Printf Endpoints.
Local Open Scope string_scope.

(** ** Words
    Characters without a meaning to the shell, and the texts that are one word. *)
Definition SPACE : ascii := " "%char.
Definition plain_char (c : ascii) : bool :=
  let n := Z.of_nat (nat_of_ascii c) in
  (((48 <=? n) && (n <=? 57)) || ((65 <=? n) && (n <=? 90)) || ((97 <=? n) && (n <=? 122))
   || (n =? 45) || (n =? 46) || (n =? 47) || (n =? 95))%Z.
Fixpoint all_chars (P : ascii -> bool) (s : string) : bool :=
  match s with EmptyString => true | String c s' => P c && all_chars P s' end.
Definition word (w : string) : Prop := all_chars plain_char w = true /\ w <> "".
(** A shell that splits such commands at blanks. *)
Definition splits_words (shell : string -> list string) : Prop :=
  forall ws, Forall word ws -> shell (String.concat " " ws) = ws.

(** ** Texts of numbers *)
Lemma all_chars_app P s t : all_chars P (s +:+ t) = all_chars P s && all_chars P t.
Proof. induction s as [|c s IH]; [done|]. rewrite append_cons. cbn. by rewrite IH, andb_assoc. Qed.
Lemma digit_char_plain d : (0 <= d < 10)%Z -> plain_char (digit_char d) = true.
Proof.
  intros Hd. assert (H : (d = 0 \/ d = 1 \/ d = 2 \/ d = 3 \/ d = 4 \/ d = 5 \/ d = 6 \/ d = 7 \/ d = 8 \/ d = 9)%Z) by lia.
  decompose [or] H; subst; reflexivity.
Qed.
Lemma digits_w_plain w n acc : all_chars plain_char (digits_w w n acc) = all_chars plain_char acc.
Proof.
  revert n acc. induction w as [|w IH]; intros n acc; [done|]. cbn [digits_w]. rewrite IH. cbn [all_chars].
  by rewrite digit_char_plain by (apply Z.mod_pos_bound; lia).
Qed.
Lemma print_int_plain z : all_chars plain_char (print_int z) = true.
Proof. unfold print_int, print_nat. destruct (z <? 0)%Z; cbn [all_chars]; rewrite digits_w_plain; done. Qed.
Lemma print_nat_nonempty n : (0 <= n)%Z -> print_nat n <> "".
Proof.
  intros Hn E. destruct (print_nat_digits n "" Hn) as (w & _ & H). rewrite append_empty_r, E in H.
  destruct (digits_w_starts w n "") as (c & s & H' & _). congruence.
Qed.
Lemma print_int_nonempty z : print_int z <> "".
Proof. unfold print_int. destruct (Z.ltb_spec z 0); [done|]. by apply print_nat_nonempty. Qed.
Lemma print_int_inj z y : in_i32 z -> in_i32 y -> print_int z = print_int y -> z = y.
Proof. intros Hz Hy E. apply stoi_print in Hz, Hy. rewrite E in Hz. congruence. Qed.

Lemma digits_w_length w n acc : String.length (digits_w w n acc) = (w + String.length acc)%nat.
Proof. revert n acc. induction w as [|w IH]; intros n acc; [done|]. cbn [digits_w]. rewrite IH. cbn. lia. Qed.
Lemma ndigits_le fuel n k : (n < 10 ^ Z.of_nat (S k))%Z -> (ndigits fuel n <= S k)%nat.
Proof.
  revert n k. induction fuel as [|f IH]; intros n k Hn; cbn [ndigits]; [lia|].
  destruct (Z.ltb_spec n 10); [lia|]. destruct k as [|k]; [cbn in Hn; lia|].
  apply le_n_S, IH. apply Z.div_lt_upper_bound; [lia|]. rewrite <- Z.pow_succ_r, <- Nat2Z.inj_succ by lia. exact Hn.
Qed.
Lemma print_int_length z : in_i32 z -> (String.length (print_int z) <= 11)%nat.
Proof.
  unfold in_i32, INT_MIN, INT_MAX. intros Hz. unfold print_int, print_nat.
  assert (H : forall n, (n <= 2 ^ 31)%Z -> (String.length (digits_w (ndigits (Z.to_nat (Z.log2 n)) n) n "") <= 10)%nat).
  { intros n Hn. rewrite digits_w_length. cbn. pose proof (ndigits_le (Z.to_nat (Z.log2 n)) n 9 ltac:(cbn; lia)). lia. }
  destruct (Z.ltb_spec z 0); [cbn [String.length]; specialize (H (- z)%Z); lia|specialize (H z); lia].
Qed.

(** ** The words of the command *)
(** Such a shell. *)
Definition push_word (w : string) (ws : list string) : list string := if String.eqb w "" then ws else w :: ws.
Fixpoint word_split (s : string) : string * list string :=
  match s with
  | EmptyString => ("", [])
  | String c s' =>
      let '(w, ws) := word_split s' in
      if Ascii.eqb c SPACE then ("", push_word w ws) else (String c w, ws)
  end.
Definition words (s : string) : list string := let '(w, ws) := word_split s in push_word w ws.
Lemma plain_not_space c : plain_char c = true -> Ascii.eqb c SPACE = false.
Proof. intros H. apply Ascii.eqb_neq. intros ->. by cbv in H. Qed.
Lemma word_split_word w : all_chars plain_char w = true -> word_split w = (w, []).
Proof.
  induction w as [|c w IH]; cbn; [done|]. intros [Hc Hw]%andb_true_iff. rewrite IH by done. by rewrite plain_not_space.
Qed.
Lemma word_split_app w rest : all_chars plain_char w = true -> word_split (w +:+ String SPACE rest) = (w, words rest).
Proof.
  induction w as [|c w IH].
  - intros _. change ("" +:+ String SPACE rest) with (String SPACE rest). cbn. unfold words. by destruct (word_split rest).
  - cbn. intros [Hc Hw]%andb_true_iff. rewrite append_cons. cbn. by rewrite IH, plain_not_space by done.
Qed.
Lemma push_word_word w ws : w <> "" -> push_word w ws = w :: ws.
Proof. intros H. unfold push_word. by destruct (String.eqb_spec w ""). Qed.
Lemma words_split : splits_words words.
Proof.
  intros ws. induction 1 as [|w ws [Hp Hn] Hws IH]; [done|]. destruct ws as [|w2 ws].
  - cbn. unfold words. rewrite word_split_word by done. by apply push_word_word.
  - change (String.concat " " (w :: w2 :: ws)) with (w +:+ String SPACE (String.concat " " (w2 :: ws))).
    unfold words at 1. rewrite word_split_app, IH by done. by apply push_word_word.
Qed.
Lemma print_int_word z : word (print_int z).
Proof. split; [apply print_int_plain|apply print_int_nonempty]. Qed.
Lemma boot_words shell devid cap dedup part ngpu nparts dir sh : splits_words shell ->
  all_chars plain_char dir = true -> all_chars plain_char sh = true ->
  shell (bootProxy_cmd devid cap dedup part ngpu nparts dir sh) =
  [dir +:+ "/" +:+ sh; print_int devid; print_int cap; print_int dedup; MODEL_LIST; print_int part; print_int ngpu; print_int nparts].
Proof.
  intros Hshell Hd Hs. rewrite <- Hshell.
  - f_equal. unfold bootProxy_cmd. cbn [String.concat]. by rewrite !append_assoc.
  - assert (Hw : word (dir +:+ "/" +:+ sh)).
    { split; [by rewrite !all_chars_app, Hd, Hs|by destruct dir]. }
    constructor; [exact Hw|]. do 3 (constructor; [apply print_int_word|]).
    constructor; [by split|]. do 3 (constructor; [apply print_int_word|]). constructor.
Qed.

(** ** The names of the sockets *)
Lemma append_inj p s t : p +:+ s = p +:+ t -> s = t.
Proof. induction p as [|c p IH]; [done|]. rewrite !append_cons. intros H. injection H. exact IH. Qed.
Lemma substring_whole n s : (String.length s <= n)%nat -> substring 0 n s = s.
Proof.
  revert n. induction s as [|c s IH]; intros n H; [by destruct n|]. destruct n as [|n]; [cbn in H; lia|].
  cbn in *. by rewrite IH by lia.
Qed.
Lemma substring_length n s : String.length (substring 0 n s) = Nat.min n (String.length s).
Proof. revert n. induction s as [|c s IH]; intros [|n]; try done. cbn. by rewrite IH. Qed.
Lemma id_text_inj d c k d' c' k' : Forall in_i32 [d; c; k; d'; c'; k'] -> id_text d c k = id_text d' c' k' -> (d, c, k) = (d', c', k').
Proof.
  intros H E. repeat (apply Forall_cons in H as [? H]). unfold id_text in E.
  assert (Hl : forall z, lacks "_" (print_int z) = true) by (intros z; by apply lacks_print_int).
  assert (Hsp : forall z rest, span_delim "_" (print_int z +:+ "_" +:+ rest) = (print_int z, Some rest)).
  { intros z rest. exact (span_field _ _ rest (Hl z)). }
  pose proof (f_equal (span_delim "_") E) as E1. rewrite !Hsp in E1. injection E1 as E1 E2.
  pose proof (f_equal (span_delim "_") E2) as E3. rewrite !Hsp in E3. injection E3 as E3 E4.
  apply print_int_inj in E1, E3, E4; [congruence|done..].
Qed.
Lemma id_text_length d c k : Forall in_i32 [d; c; k] -> (String.length (id_text d c k) <= 35)%nat.
Proof.
  intros H. repeat (apply Forall_cons in H as [? H]). unfold id_text. rewrite !append_length. cbn [String.length].
  pose proof (print_int_length d). pose proof (print_int_length c). pose proof (print_int_length k).
  repeat match goal with H : in_i32 _ -> _ |- _ => specialize (H ltac:(assumption)) end. lia.
Qed.
(** The arrays are long enough, whatever the numbers. *)
Lemma connect_to_run up prefix d c k : (String.length prefix <= 20)%nat ->
  let path := prefix +:+ substring 0 19 (id_text d c k) in
  connect_to up prefix d c k = if up path then Done path else Stop (Exited 1).
Proof.
  intros Hp path. assert (Hl : (String.length (substring 0 19 (id_text d c k)) <= 19)%nat) by (rewrite substring_length; lia).
  assert (Hpath : (String.length path < 108)%nat) by (unfold path; rewrite append_length; lia).
  assert (E1 : c_strcpy 50 prefix = Done prefix) by (unfold c_strcpy; by rewrite (proj2 (Nat.ltb_lt _ _)) by lia).
  assert (E2 : c_strcat 50 prefix (c_snprintf 20 (id_text d c k)) = Done path).
  { unfold c_strcat, c_snprintf. change (20 - 1)%nat with 19%nat. by rewrite (proj2 (Nat.ltb_lt _ _)) by lia. }
  assert (E3 : c_strcpy 108 path = Done path) by (unfold c_strcpy; by rewrite (proj2 (Nat.ltb_lt _ _))).
  unfold connect_to, mbind, outcome_bind. by rewrite E1, E2, E3.
Qed.
Lemma listen_on_run o prefix : Forall in_i32 [g_devID o; g_threadCap o; g_dedup o] -> (String.length prefix <= 20)%nat ->
  let path := prefix +:+ id_text (g_devID o) (g_threadCap o) (g_dedup o) in
  listen_on (fun _ => true) path = Done path.
Proof.
  intros Hi Hp path. unfold listen_on, c_strcpy, mbind, outcome_bind.
  rewrite (proj2 (Nat.ltb_lt _ _)); [done|]. unfold path. rewrite append_length. pose proof (id_text_length _ _ _ Hi). lia.
Qed.

(** ** Who meets whom *)
Section Meet.
Context (d c k : Z).
Hypothesis ids : Forall in_i32 [d; c; k].
Definition pin : string := "/tmp/gpusock_input_" +:+ id_text d c k.
Definition pout : string := "/tmp/gpusock_output_" +:+ id_text d c k.
(** Only this proxy listens. *)
Definition only_it (p : string) : bool := bool_decide (p = pin \/ p = pout).
Lemma pin_pout s t : "/tmp/gpusock_input_" +:+ s <> "/tmp/gpusock_output_" +:+ t.
Proof. intros H. apply (f_equal (String.get 13)) in H. discriminate H. Qed.
Lemma only_it_in s : only_it ("/tmp/gpusock_input_" +:+ s) = bool_decide (s = id_text d c k).
Proof.
  apply bool_decide_ext. unfold pin, pout. split; [|by intros ->; left].
  intros [H|H]; [by apply append_inj in H|by apply pin_pout in H].
Qed.
Lemma only_it_out s : only_it ("/tmp/gpusock_output_" +:+ s) = bool_decide (s = id_text d c k).
Proof.
  apply bool_decide_ext. unfold pin, pout. split; [|by intros ->; right].
  intros [H|H]; [by symmetry in H; apply pin_pout in H|by apply append_inj in H].
Qed.
(** A name that fits reaches the proxy exactly when it is its own. *)
Lemma meets prefix d' c' k' : (String.length prefix <= 20)%nat ->
  (forall s, only_it (prefix +:+ s) = bool_decide (s = id_text d c k)) ->
  Forall in_i32 [d'; c'; k'] -> (String.length (id_text d' c' k') <= 19)%nat ->
  connect_to only_it prefix d' c' k' =
  if bool_decide ((d', c', k') = (d, c, k)) then Done (prefix +:+ id_text d c k) else Stop (Exited 1).
Proof.
  intros Hp Hit Hi Hl. rewrite connect_to_run, substring_whole, Hit by done.
  assert (E : id_text d' c' k' = id_text d c k <-> (d', c', k') = (d, c, k)).
  { split; [|by intros [= -> -> ->]]. apply id_text_inj. by apply (Forall_app _ [d'; c'; k'] [d; c; k]). }
  rewrite (bool_decide_ext _ _ E). case_bool_decide as H; [by injection H as -> -> ->|done].
Qed.
(** A name that does not fit is cut off and reaches nobody. *)
Lemma misses prefix : (String.length prefix <= 20)%nat ->
  (forall s, only_it (prefix +:+ s) = bool_decide (s = id_text d c k)) ->
  (19 < String.length (id_text d c k))%nat -> connect_to only_it prefix d c k = Stop (Exited 1).
Proof.
  intros Hp Hit Hl. rewrite connect_to_run, Hit by done. rewrite bool_decide_eq_false_2; [done|].
  intros E. apply (f_equal String.length) in E. rewrite substring_length in E. lia.
Qed.
End Meet.

(** ** The addresses of the backends *)
(** [host:port] is read as written; the port is taken modulo 65536. *)
Lemma connectChannel_address net host portno : lacks ":" host = true -> in_i32 portno ->
  connectChannel net (host +:+ ":" +:+ print_int portno) =
  (fd ← client_init net host portno; if (fd <? 0)%Z then Done (-1)%Z else Done fd).
Proof.
  intros Hh Hp. unfold connectChannel.
  assert (E : addr_fields (S (String.length (host +:+ ":" +:+ print_int portno))) (Some (host +:+ ":" +:+ print_int portno))
    = [host; print_int portno]).
  { rewrite append_length. change (String.length (":" +:+ print_int portno)) with (S (String.length (print_int portno))).
    rewrite Nat.add_succ_r. cbn [addr_fields].
    change (host +:+ ":" +:+ print_int portno) with (host +:+ String ":" (print_int portno)).
    rewrite span_field by done. rewrite span_lacks by (by apply lacks_print_int). by destruct (_ + _)%nat. }
  rewrite E, stoi_print by done. done.
Qed.
(** A text without exactly one colon ends the frontend. *)
Definition count_char (c : ascii) : string -> nat :=
  fix go s := match s with EmptyString => 0%nat | String a s' => ((if Ascii.eqb a c then 1 else 0) + go s')%nat end.
Lemma addr_fields_count s : forall fuel, (String.length s < fuel)%nat ->
  length (addr_fields fuel (Some s)) = S (count_char ":" s).
Proof.
  assert (H : forall fuel s, (String.length s < fuel)%nat -> length (addr_fields fuel (Some s)) = S (count_char ":" s)); [|by auto].
  clear s. induction fuel as [|fuel IH]; intros s Hl; [lia|]. cbn [addr_fields].
  assert (Hs : forall t, let '(f, r) := span_delim ":" t in match r with
    | None => count_char ":" t = 0%nat
    | Some t' => count_char ":" t = S (count_char ":" t') /\ (String.length t' < String.length t)%nat end).
  { clear. induction t as [|c t IHt]; [done|]. cbn. destruct (Ascii.eqb c ":") eqn:E; [split; [done|cbn; lia]|].
    destruct (span_delim ":" t) as [f [t'|]]; cbn; [destruct IHt; split; [done|lia]|done]. }
  specialize (Hs s). destruct (span_delim ":" s) as [f [t|]].
  - destruct Hs as [-> Ht]. cbn [length]. rewrite IH by lia. done.
  - rewrite Hs. cbn. by destruct fuel.
Qed.
Lemma connectChannel_malformed net addr : count_char ":" addr <> 1%nat -> connectChannel net addr = Stop AssertionFailed.
Proof.
  intros H. unfold connectChannel. pose proof (addr_fields_count addr (S (String.length addr)) ltac:(lia)) as E.
  destruct (addr_fields _ _) as [|a [|b [|? ?]]]; try done. cbn in E. lia.
Qed.
(** A backend is skipped only when its host is known and refuses the connection; a
    host name that is not known ends the frontend. *)
Lemma connectCtrlChannel_unreachable net host portno : lacks ":" host = true -> in_i32 portno -> (0 <= net_socket net)%Z ->
  connectCtrlChannel net (host +:+ ":" +:+ print_int portno) =
  match net_host net host with
  | None => Stop (Exited 0)
  | Some server => Done (if net_connect net server (htons portno) then (net_socket net, net_socket net) else (-1, -1)%Z)
  end.
Proof.
  intros Hh Hp Hs. unfold connectCtrlChannel. rewrite connectChannel_address by done. unfold client_init.
  rewrite (proj2 (Z.ltb_ge _ _)) by lia. destruct (net_host net host) as [server|]; [|done].
  destruct (net_connect net server (htons portno)); cbn; [|done].
  rewrite (proj2 (Z.ltb_ge _ _)) by lia. cbn. by rewrite (proj2 (Z.eqb_neq _ _)) by lia.
Qed.

(** C27: the process a backend boots listens where the backend connects.  For a shell
    that splits plain commands at blanks, a script whose path is plain, and a proxy
    with numbers that are not negative, the process gets the device, the share, the
    number and the partition of the proxy as its options.  The two sockets it listens
    on differ, and no array for their names overflows.  When only this process
    listens, a backend that connects for a device, share and number whose text has at
    most 19 characters reaches it if they are those of the proxy, on the socket of the
    right direction, and ends otherwise; with a longer text the name is cut off, and
    the backend ends although its proxy listens. *)
Theorem booted_proxy_is_reached (shell : string -> list string) (lexical_int : string -> outcome Z)
    (pwd dir sh : string) (x : ProxyInfo) (ngpu nparts : Z)
    (Hshell : splits_words shell) (Hlex : forall z, (0 <= z <= INT_MAX)%Z -> lexical_int (print_int z) = Done z)
    (Hpath : all_chars plain_char dir && all_chars plain_char sh = true)
    (Hx : Forall (fun z => 0 <= z <= INT_MAX)%Z [p_dev_id x; p_cap x; p_dedup_num x; partition_num x; ngpu; nparts]) :
  exists o pin pout,
    booted_proxy shell lexical_int pwd dir sh true x ngpu nparts = Some (Done o) /\
    (g_devID o, g_threadCap o, g_dedup o, g_partIdx o) = (p_dev_id x, p_cap x, p_dedup_num x, partition_num x) /\
    recvInput_socket (fun _ => true) o = Done pin /\ send_output_socket (fun _ => true) o = Done pout /\ pin <> pout /\
    let up p := bool_decide (p = pin \/ p = pout) in
    (forall d c k, Forall in_i32 [d; c; k] -> (String.length (id_text d c k) <= 19)%nat ->
      let own := bool_decide ((d, c, k) = (p_dev_id x, p_cap x, p_dedup_num x)) in
      connectGPUProxyIn up d c k = (if own then Done pin else Stop (Exited 1)) /\
      connectGPUProxyOut up d c k = (if own then Done pout else Stop (Exited 1))) /\
    ((19 < String.length (id_text (p_dev_id x) (p_cap x) (p_dedup_num x)))%nat ->
      connectGPUProxyIn up (p_dev_id x) (p_cap x) (p_dedup_num x) = Stop (Exited 1) /\
      connectGPUProxyOut up (p_dev_id x) (p_cap x) (p_dedup_num x) = Stop (Exited 1)).
Proof.
  apply andb_prop in Hpath as [Hd Hs]. pose proof Hx as Hall.
  do 6 (apply Forall_cons in Hx as [? Hx]).
  set (d := p_dev_id x) in *. set (c := p_cap x) in *. set (k := p_dedup_num x) in *.
  assert (Hids : Forall in_i32 [d; c; k]).
  { unfold in_i32, INT_MIN, INT_MAX in *. repeat constructor; lia. }
  exists (mkProxyOptions d c k (partition_num x) ((pwd +:+ "/../") +:+ "models/")), (pin d c k), (pout d c k). split.
  { unfold booted_proxy. fold d c k. rewrite boot_words by done. cbn. unfold parseOpts, option_int. cbn. by rewrite !Hlex by done. }
  split; [done|]. split; [by apply listen_on_run; [|cbn; lia]|]. split; [by apply listen_on_run; [|cbn; lia]|].
  split; [apply pin_pout|]. split.
  - intros d' c' k' Hi Hl. split; (apply (meets d c k Hids); [cbn; lia| |exact Hi|exact Hl]); [apply only_it_in|apply only_it_out].
  - intros Hl. split; (apply misses; [cbn; lia| |exact Hl]); [apply only_it_in|apply only_it_out].
Qed.

(** The second half of GPU 1. *)
Definition demo_part : ProxyInfo := 
  set_p_dev_id 1 (set_p_cap 50 (set_p_dedup_num 1 (set_partition_num 1 (new_proxy_info (mkIndet 0 fzero false))))).
Lemma booted_proxy_is_reached_witness :
  exists o, booted_proxy words stoi "/opt/proxy" "/opt/proxy" "startProxy.sh" true demo_part 2 7 = Some (Done o) /\
    recvInput_socket (fun _ => true) o = Done "/tmp/gpusock_input_1_50_1".
Proof.
  destruct (booted_proxy_is_reached words stoi "/opt/proxy" "/opt/proxy" "startProxy.sh" demo_part 2 7) as (o & i & o' & H1 & H2 & H3 & _).
  - exact words_split.
  - intros z Hz. apply stoi_print. unfold in_i32, INT_MIN, INT_MAX in *. lia.
  - vm_compute. reflexivity.
  - repeat (constructor; [vm_compute; split; congruence|]). constructor.
  - exists o. split; [exact H1|]. rewrite H3. vm_compute in H1. injection H1 as <-. vm_compute in H3. congruence.
Defined.
