(* ===== verification/Standalone.v ===== *)
(** * The stand-alone scheduler ([standalone_scheduler.cpp]) and the writer of
    partition files ([ProxyPartitionWriter] of [common/config.cpp]). *)
From Stdlib Require Import ZArith SpecFloat String Lia.
From S2P Require Import Prelude CppFloat CppStd LatencyModel DevPerfModel SchedData SchedUtils SchedBase Json Setup IncrEstimate IncrSchedule LoadBalancer SelfTuning AppModel SysState Control GlobalState GlobalSched GlobalSetup Printf.

(** ** Every way to split the GPUs

    The two nodes of a GPU split at [a].  The members that are not set hold
    arbitrary values. *)
Definition split_nodes (i : Indet) (a gpuid : Z) : Node * Node :=
  let b := i32 (100 - a) in
  (set_n_dedup_num 0 (set_n_id gpuid (set_n_resource_pntg a (raw_node i))),
   set_n_dedup_num (if (a =? b)%Z then 1 else 0)
     (set_n_id gpuid (set_n_resource_pntg b (raw_node i)))).

(** [temp.push_back] and [temp.pop_back] of a node whose size is not 0;
    [pop_back] of an empty vector is undefined. *)
Definition push_node (t : Node) (temp : list Node) : list Node :=
  if negb (n_resource_pntg t =? 0)%Z then temp ++ [t] else temp.
Definition pop_back {A} (l : list A) : outcome (list A) :=
  match l with [] => Stop Undefined | _ => Done (removelast l) end.
Definition pop_node (t : Node) (temp : list Node) : outcome (list Node) :=
  if negb (n_resource_pntg t =? 0)%Z then pop_back temp else Done temp.

(** The state is the vector [comb] points to; [temp] is a local of the call,
    changed by the turns of its loop, and a copy of it goes to the calls it
    makes.  [gpuid] is an [int] that counts down to 0: from a negative number
    it never gets there, and below [INT_MIN] the subtraction is undefined. *)
Definition before_gpu (gpuid : Z) : outcome Z :=
  if (gpuid =? INT_MIN)%Z then Stop Undefined else Done (gpuid - 1)%Z.
Fixpoint ReturnNodeList (fuel : nat) (i : Indet) (availpart : list Z) (temp : list Node) (gpuid : Z) :
    M (list (list Node)) unit :=
  match fuel with
  | O => fail OutOfFuel
  | S fuel =>
      if (gpuid =? 0)%Z then modify (fun comb => comb ++ [temp])
      else
        _ ← for_acc availpart temp (fun temp a1 =>
          let '(t1, t2) := split_nodes i a1 gpuid in
          let temp := push_node t1 temp in
          let temp := push_node t2 temp in
          next ← lift (before_gpu gpuid);
          _ ← ReturnNodeList fuel i availpart temp next;
          temp ← lift (pop_node t1 temp);
          lift (pop_node t2 temp));
        mret tt
  end.

Definition fillPossibleCases2 (fuel : nat) (i : Indet) (AVAIL_PARTS : list Z) (pVec : list (list Node)) (ngpu : Z) :
    outcome (list (list Node)) :=
  '(_, pVec) ← ReturnNodeList fuel i AVAIL_PARTS [] ngpu pVec;
  mret pVec.

(** ** [ProxyPartitionWriter] *)
Definition config_line (c : task_config) : string :=
  (print_int (cf_node_id c) +:+ "," +:+ print_int (cf_thread_cap c) +:+ "," +:+ print_int (cf_dedup_num c)
   +:+ "," +:+ cf_name c +:+ "," +:+ print_int (cf_batch_size c) +:+ "," +:+ print_lf (f2d (cf_duty_cycle c)))%string.
Definition writeResults (configs : list task_config) : outcome string :=
  if decide (configs = []) then Stop AssertionFailed else Done (write_lines (map config_line configs)).
(** The constructor: [_num_of_GPU]. *)
Definition ProxyPartitionWriter (filename : string) (nGPU : Z) : outcome Z :=
  if String.eqb filename "" || negb (0 <? nGPU)%Z then Stop AssertionFailed else Done nGPU.

(** ** [writeSchedulingResults]

    One configuration per task, and one for a node without tasks; what
    [addResults] refuses is left out. *)
Definition reserved_config (n : Node) (max_batch : Z) : task_config :=
  mkConfig (n_id n) (n_dedup_num n) (n_resource_pntg n) "reserved" max_batch fzero.
Definition node_config (n : Node) (name : string) (batch : Z) : task_config :=
  mkConfig (n_id n) (n_dedup_num n) (n_resource_pntg n) name batch (n_duty_cycle n).
Definition write_node (num_of_GPU : Z) (configs : list task_config) (np : NodePtr) : SM (list task_config) :=
  it ← rd_node np;
  match n_vTaskList it with
  | [] => max_batch ← getMaxBatchSize; mret (addResults num_of_GPU (reserved_config it max_batch) configs).2
  | tasks =>
      for_acc tasks configs (fun configs tp =>
        t ← rd_task tp;
        name ← SchedBase.getModelName (t_id t);
        mret (addResults num_of_GPU (node_config it name (t_batch_size t)) configs).2)
  end.
Definition writeSchedulingResults (filename : string) (simulator : SimState) : SM string :=
  num_of_GPU ← lift (ProxyPartitionWriter filename (i32 (Z.of_nat (length (vGPUList simulator)))));
  configs ← for_acc (vGPUList simulator) [] (fun configs gp =>
    g ← rd_gpu gp; for_acc (g_vNodeList g) configs (write_node num_of_GPU));
  lift (writeResults configs).

(** ** [main]

    The files: JSON values, the profiles, the batching overheads and the task
    file.  The result is the exit code and the text of the output file; [printf]
    is left out. *)
Record MainFiles : Type := mkMainFiles {
  mf_sched : option Value; mf_mem : option Value; mf_device : option Value; mf_proxy : option Value;
  mf_profiles : string -> list string; mf_batch : string -> option string; mf_tasks : option string }.

Section Main.
Context (exp_neg : Z -> spec_float) (fuel : nat) (files : MainFiles).
Definition main_tasks (task_list : list Task) : SM (list Task) :=
  i ← gets w_indet; lift (SchedBase.setupTasks exp_neg fuel i (mf_tasks files) task_list).
Definition fresh_sim : SM SimState := i ← gets w_indet; mret (mkSimState [] [] (indet_int i)).

(** One case of the exhaustive search; a schedule ends the search. *)
Definition search_case (vec : list Node) : SM (option SimState) :=
  input ← fresh_sim;
  output ← fresh_sim;
  task_list ← main_tasks [];
  input ← resetScheduler input vec;
  _ ← initDevMems input;
  '(failed, _, _, output) ← runScheduling task_list input output false;
  mret (if (failed : bool) then None else Some output).

Definition main (res_dir output_file : string) (full_search : bool) : SM (Z * string) :=
  success ← initializeScheduler (mf_sched files) (mf_mem files) (mf_device files) (mf_profiles files)
    (mf_batch files) res_dir ["1_28_28.txt"; "3_224_224.txt"; "3_300_300.txt"]%string;
  if negb success then fail (Exited 1)
  else
    _ ← setupNetworkChecker (mf_proxy files);
    use_parts ← getUseParts;
    let AVAIL_PARTS := if (use_parts : bool) then [50; 60; 80; 100]%Z else [100]%Z in
    simulator ← fresh_sim;
    final_output ← fresh_sim;
    _ ← setupAvailParts AVAIL_PARTS;
    task_list ← main_tasks [];
    n ← getMaxGPUs;
    simulator ← initiateDevs simulator n;
    _ ← initDevMems simulator;
    _ ← for_each task_list initSaturateTrp;
    best ← (if negb full_search then
              '(failed, _, _, final_output) ← runScheduling task_list simulator final_output true;
              mret (if (failed : bool) then inl 1%Z else inr final_output)
            else
              i ← gets w_indet;
              n ← getMaxGPUs;
              possible_cases ← lift (fillPossibleCases2 (S (Z.to_nat n)) i AVAIL_PARTS [] n);
              found ← for_ret possible_cases search_case;
              mret (match found with Some output => inr output | None => inl 0%Z end));
    match best with
    | inl code => mret (code, "EMPTY"%string)
    | inr best_sim => text ← writeSchedulingResults output_file best_sim; mret (0%Z, text)
    end.
End Main.
