(* ===== verification/StandaloneProps.v ===== *)
(** * Properties of the stand-alone scheduler: the exhaustive search lists every
    way to split the GPUs once and starts each case from a well-formed cluster,
    and the file of a schedule reads back as the schedule. *)
From Stdlib Require Import ZArith SpecFloat String Lia.
From S2P Require Import Prelude CppFloat CppStd LatencyModel DevPerfModel SchedData SchedUtils SchedBase Json Setup IncrEstimate IncrSchedule SchedFrame SchedInv BaseProps IncrProps Demo LoadBalancer SelfTuning AppModel SysState Control GlobalState GlobalSched GlobalSetup Printf Standalone.

(** ** The exhaustive search *)

(** The shares a GPU is split into at [a], with their copy numbers: the part of
    size 0 of a GPU that is not split does not exist, and the second of two equal
    halves is copy 1. *)
Definition split_pair (a : Z) : list (Z * Z) :=
  if decide (a = 0 \/ a = 100)%Z then [(100, 0)]%Z
  else if decide (a = 50)%Z then [(50, 0); (50, 1)]%Z else [(a, 0); (100 - a, 0)]%Z.
(** A choice of one split per GPU, the GPU with the highest number first: the
    number, the share and the copy number of every part. *)
Fixpoint choice_parts (choice : list Z) : list (Z * Z * Z) :=
  match choice with
  | [] => []
  | a :: cs => map (fun p => (Z.of_nat (length choice), p.1, p.2)) (split_pair a) ++ choice_parts cs
  end.
Definition node_key (n : Node) : Z * Z * Z := (n_id n, n_resource_pntg n, n_dedup_num n).
(** A node of a case. *)
Definition part_node (i : Indet) (p : Z * Z * Z) : Node :=
  mkNode [] (indet_float i) (indet_float i) p.1.2 p.1.1 (indet_bool i) p.2 "".

(** All words of length [n] over [parts], in lexicographic order. *)
Fixpoint words (parts : list Z) (n : nat) : list (list Z) :=
  match n with
  | O => [[]]
  | S m => flat_map (fun a => map (cons a) (words parts m)) parts
  end.
Lemma words_length parts n : length (words parts n) = (length parts ^ n)%nat.
Proof.
  induction n as [|n IH]; [done|]. cbn [words Nat.pow].
  rewrite (flat_map_constant_length (c := (length parts ^ n)%nat)); [done|].
  intros a _. by rewrite length_map.
Qed.
Lemma words_in parts n w : w ∈ words parts n <-> length w = n /\ Forall (fun a => a ∈ parts) w.
Proof.
  revert w. induction n as [|n IH]; intros w; cbn [words].
  - rewrite list_elem_of_singleton. split; [intros ->; by split|]. intros [H _]. by destruct w.
  - rewrite list_elem_of_In, in_flat_map. split.
    + intros (a & Ha & H). apply in_map_iff in H as (w' & <- & H). apply list_elem_of_In, IH in H as [Hl Hf].
      split; [cbn; lia|]. constructor; [by apply list_elem_of_In|done].
    + intros [Hl Hf]. destruct w as [|a w]; [done|]. apply Forall_cons in Hf as [Ha Hf].
      exists a. split; [by apply list_elem_of_In|]. apply in_map, list_elem_of_In, IH. split; [cbn in Hl; lia|done].
Qed.
Lemma words_NoDup parts n : NoDup parts -> NoDup (words parts n).
Proof.
  intros Hp. induction n as [|n IH]; cbn [words]; [apply NoDup_singleton|].
  assert (H : forall l, NoDup l -> NoDup (flat_map (fun a => map (cons a) (words parts n)) l)); [|by apply H].
  induction l as [|a l IHl]; intros Hl; cbn [flat_map]; [by apply NoDup_nil|].
  apply NoDup_cons in Hl as [Ha Hl]. apply NoDup_app. split_and!; [|intros w Hw Hw'|by apply IHl].
  - apply (NoDup_fmap_2 (cons a)); done.
  - apply list_elem_of_In, in_map_iff in Hw as (w1 & <- & _).
    apply list_elem_of_In, in_flat_map in Hw' as (b & Hb & Hw'). apply in_map_iff in Hw' as (w2 & [= -> _] & _).
    by apply Ha, list_elem_of_In.
Qed.
(** A list made of blocks of one size. *)
Lemma blocks_lookup {A B} (f : A -> list B) (c : nat) (l : list A) k : (0 < c)%nat ->
  (forall a, a ∈ l -> length (f a) = c) -> flat_map f l !! k = (a ← l !! (k / c)%nat; f a !! (k mod c)%nat).
Proof.
  intros Hc. revert k. induction l as [|a l IH]; intros k Hf; cbn [flat_map].
  - by rewrite !lookup_nil.
  - pose proof (Hf a ltac:(by left)) as Ha. destruct (decide (k < c)%nat) as [Hk|Hk].
    + rewrite Nat.div_small, Nat.mod_small, lookup_app_l by lia. done.
    + rewrite lookup_app_r by lia. rewrite Ha, IH by (intros b Hb; apply Hf; by right).
      assert (Hd : (k / c = S ((k - c) / c) /\ k mod c = (k - c) mod c)%nat).
      { replace k with ((k - c) + 1 * c)%nat at 1 3 by lia. rewrite Nat.div_add, Nat.Div0.mod_add by lia. lia. }
      by destruct Hd as [-> ->].
Qed.
Lemma digit_mod k L n m : (0 < L)%nat -> (m < n)%nat ->
  (((k mod L ^ n) / L ^ m) mod L = (k / L ^ m) mod L)%nat.
Proof.
  intros HL Hm. assert (Hpow : forall e, (L ^ e <> 0)%nat) by (intros e; apply Nat.pow_nonzero; lia).
  rewrite (Nat.div_mod_eq k (L ^ n)) at 2.
  replace (L ^ n)%nat with (L ^ (n - m - 1) * L * L ^ m)%nat at 2.
  2: { rewrite <- (Nat.pow_1_r L) at 2. rewrite <- !Nat.pow_add_r. f_equal. lia. }
  replace (L ^ (n - m - 1) * L * L ^ m * (k / L ^ n) + k mod L ^ n)%nat with
    (k mod L ^ n + (L ^ (n - m - 1) * (k / L ^ n) * L) * L ^ m)%nat by lia.
  rewrite Nat.div_add by done. by rewrite Nat.Div0.mod_add.
Qed.
(** The [k]-th word spells [k] in base [length parts]. *)
Lemma words_digit parts n k w j : words parts n !! k = Some w -> (j < n)%nat ->
  w !! j = parts !! ((k / length parts ^ (n - 1 - j)) mod length parts)%nat.
Proof.
  revert k w j. induction n as [|n IH]; intros k w j Hk Hj; [lia|].
  assert (HL : (0 < length parts)%nat) by (destruct parts; [done|cbn; lia]).
  assert (Hpow : (0 < length parts ^ n)%nat) by (apply Nat.neq_0_lt_0, Nat.pow_nonzero; lia).
  cbn [words] in Hk. rewrite (blocks_lookup _ (length parts ^ n)) in Hk.
  2: { done. }
  2: { intros a _. by rewrite length_map, words_length. }
  apply bind_Some in Hk as (a & Ha & Hw).
  apply list_lookup_fmap_Some in Hw as (w' & -> & Hw'). destruct j as [|j].
  - cbn [lookup list_lookup]. replace (S n - 1 - 0)%nat with n by lia.
    rewrite Nat.mod_small; [done|]. by apply lookup_lt_Some in Ha.
  - cbn [lookup list_lookup]. change (w' !! j = parts !! ((k / length parts ^ (S n - 1 - S j)) mod length parts)%nat).
    rewrite (IH _ _ j Hw') by lia. f_equal. replace (S n - 1 - S j)%nat with (n - 1 - j)%nat by lia.
    apply digit_mod; lia.
Qed.

(** *** The recursion *)
Lemma split_nodes_parts i a g temp : (0 <= a <= 100)%Z ->
  let t1 := (split_nodes i a g).1 in let t2 := (split_nodes i a g).2 in
  let temp' := temp ++ map (fun p => part_node i (g, p.1, p.2)) (split_pair a) in
  push_node t2 (push_node t1 temp) = temp' /\
  (temp ← pop_node t1 temp'; pop_node t2 temp) = Done temp.
Proof.
  intros Ha. cbn zeta. assert (Hb : i32 (100 - a) = (100 - a)%Z) by (apply i32_id; unfold in_i32, INT_MIN, INT_MAX; lia).
  assert (Hpop : forall l (t : Node), pop_back (l ++ [t]) = Done l).
  { intros l t. unfold pop_back. rewrite removelast_last. by destruct l. }
  assert (Hkeys : split_nodes i a g = (part_node i (g, a, 0%Z), part_node i (g, (100 - a)%Z, if (a =? 100 - a)%Z then 1%Z else 0%Z))).
  { unfold split_nodes. by rewrite Hb. }
  rewrite Hkeys. unfold push_node, pop_node, split_pair. cbn [fst snd n_resource_pntg part_node].
  destruct (decide (a = 0 \/ a = 100)%Z) as [[->| ->]|H].
  - cbn. by rewrite Hpop.
  - cbn. by rewrite Hpop.
  - rewrite (proj2 (Z.eqb_neq a 0)), (proj2 (Z.eqb_neq (100 - a) 0)) by lia. cbn [negb].
    rewrite <- app_assoc. destruct (decide (a = 50)%Z) as [->|Hne].
    + cbn [map app fst snd]. split; [done|]. 
      change (temp ++ [?x; ?y]) with (temp ++ [x] ++ [y]). rewrite app_assoc, Hpop. cbn [mbind outcome_bind]. apply Hpop.
    + rewrite (proj2 (Z.eqb_neq a (100 - a))) by lia. cbn [map app fst snd]. split; [done|].
      change (temp ++ [?x; ?y]) with (temp ++ [x] ++ [y]). rewrite app_assoc, Hpop. cbn [mbind outcome_bind]. apply Hpop.
Qed.

Definition case_nodes (i : Indet) (choice : list Z) : list Node := map (part_node i) (choice_parts choice).
Lemma case_nodes_keys i choice : map node_key (case_nodes i choice) = choice_parts choice.
Proof.
  unfold case_nodes. rewrite map_map. etrans; [|apply map_id]. apply map_ext. by intros [[g s] d].
Qed.

Lemma ReturnNodeList_run i parts n : Forall (fun a => (0 <= a <= 100)%Z) parts -> (Z.of_nat n <= INT_MAX)%Z ->
  forall fuel comb temp, (n < fuel)%nat ->
  ReturnNodeList fuel i parts temp (Z.of_nat n) comb =
    Done (tt, comb ++ map (fun w => temp ++ case_nodes i w) (words parts n)).
Proof.
  intros Hp Hn. induction n as [|n IH]; intros fuel comb temp Hf; (destruct fuel as [|fuel]; [lia|]); cbn [ReturnNodeList].
  - cbn. by rewrite app_nil_r.
  - rewrite (proj2 (Z.eqb_neq _ _)) by lia.
    set (body := fun (temp : list Node) (a1 : Z) => _).
    assert (H : forall l comb, Forall (fun a => (0 <= a <= 100)%Z) l -> for_acc l temp body comb =
      Done (temp, comb ++ map (fun w => temp ++ case_nodes i w) (flat_map (fun a => map (cons a) (words parts n)) l))).
    { induction l as [|a l IHl]; intros cm Hl; cbn [for_acc flat_map]; [by rewrite app_nil_r|].
      apply Forall_cons in Hl as [Ha Hl].
      destruct (split_nodes_parts i a (Z.of_nat (S n)) temp Ha) as [Hpush Hpop]. cbn zeta in Hpush, Hpop.
      rewrite (bind_done _ _ _ temp (cm ++ map (fun w => temp ++ case_nodes i w) (map (cons a) (words parts n)))).
      { rewrite IHl by done. by rewrite map_app, <- app_assoc. }
      unfold body. destruct (split_nodes i a (Z.of_nat (S n))) as [t1 t2]. cbn [fst snd] in Hpush, Hpop. cbv zeta.
      rewrite Hpush. rewrite (bind_done _ _ _ (Z.of_nat n) cm).
      2: { unfold before_gpu. rewrite (proj2 (Z.eqb_neq _ _)) by (unfold INT_MIN; lia). mred. do 2 f_equal. lia. }
      rewrite (bind_done _ _ _ tt (cm ++ map (fun w => temp ++ case_nodes i w) (map (cons a) (words parts n)))).
      2: { rewrite IH by lia. do 3 f_equal. rewrite map_map. apply map_ext_in. intros w Hw%list_elem_of_In%words_in.
           rewrite <- app_assoc. f_equal. unfold case_nodes. cbn [choice_parts length]. destruct Hw as [-> _].
           rewrite map_app, map_map. done. }
      unfold mbind, outcome_bind in Hpop. unfold mbind, M_bind, lift.
      destruct (pop_node t1 _) as [temp1|] eqn:E1; [|done]. by rewrite Hpop. }
    by rewrite (bind_done _ _ _ _ _ (H parts comb Hp)).
Qed.
Lemma ReturnNodeList_negative i parts gpuid : (gpuid < 0)%Z -> parts <> [] ->
  forall fuel comb temp r, ReturnNodeList fuel i parts temp gpuid comb <> Done r.
Proof.
  intros Hg Hp fuel. revert gpuid Hg. induction fuel as [|fuel IH]; intros gpuid Hg comb temp r; cbn [ReturnNodeList]; [done|].
  rewrite (proj2 (Z.eqb_neq _ _)) by lia. destruct parts as [|a l]; [done|]. cbn [for_acc].
  destruct (split_nodes i a gpuid) as [t1 t2] eqn:Es. unfold before_gpu. destruct (gpuid =? INT_MIN)%Z; [done|].
  unfold mbind, M_bind, lift at 1. 
  destruct (ReturnNodeList fuel i (a :: l) _ (gpuid - 1) comb) as [[]|] eqn:E; [|done].
  exfalso. by apply (IH (gpuid - 1)%Z ltac:(lia) _ _ _ E).
Qed.

(** C13: the exhaustive search considers every way to split the GPUs, in a fixed
    order.  For a GPU number that is not negative, the recursion that pushes
    nodes on [temp] and pops them off again appends one case per choice of one
    split for every GPU: the [k]-th choice spells [k] in base of the number of
    splits, every choice is among them, and none twice if no split is listed
    twice; the case lists, from the highest GPU to GPU 1, the parts of the
    split, without a part of size 0, and the second of two equal halves as copy 1.
    From a negative number of GPUs the recursion never gives a result. *)
Theorem fillPossibleCases2_enumerates i parts pVec ngpu :
  Forall (fun a => (0 <= a <= 100)%Z) parts -> in_i32 ngpu ->
  let n := Z.to_nat ngpu in let L := length parts in
  ((0 <= ngpu)%Z -> exists choices cases,
    (forall fuel, (n < fuel)%nat -> fillPossibleCases2 fuel i parts pVec ngpu = Done (pVec ++ cases)) /\
    map (map node_key) cases = map choice_parts choices /\
    length choices = (L ^ n)%nat /\
    (forall choice, choice ∈ choices <-> length choice = n /\ Forall (fun a => a ∈ parts) choice) /\
    (forall k choice j, choices !! k = Some choice -> (j < n)%nat ->
      choice !! j = parts !! ((k / L ^ (n - 1 - j)) mod L)%nat) /\
    (NoDup parts -> NoDup choices)) /\
  ((ngpu < 0)%Z -> parts <> [] -> forall fuel r, fillPossibleCases2 fuel i parts pVec ngpu <> Done r).
Proof.
  intros Hp Hn. cbn zeta. split.
  - intros Hpos. exists (words parts (Z.to_nat ngpu)), (map (case_nodes i) (words parts (Z.to_nat ngpu))). split_and!.
    + intros fuel Hf. unfold fillPossibleCases2. rewrite <- (Z2Nat.id ngpu) at 1 by done.
      rewrite ReturnNodeList_run; [done|done|rewrite Z2Nat.id by done; apply Hn|done].
    + rewrite map_map. apply map_ext. apply case_nodes_keys.
    + apply words_length.
    + apply words_in.
    + intros k choice j Hk Hj. by apply (words_digit parts (Z.to_nat ngpu) k).
    + apply words_NoDup.
  - intros Hneg Hne fuel r. unfold fillPossibleCases2.
    destruct (ReturnNodeList fuel i parts [] ngpu pVec) as [x|] eqn:E; [|done].
    by apply ReturnNodeList_negative in E.
Qed.

(** Two GPUs split at 50 or not at all: four cases. *)
Lemma fillPossibleCases2_enumerates_witness :
  (exists cases, fillPossibleCases2 3 demo_indet [50; 100]%Z [] 2 = Done cases /\ length cases = 4%nat /\
    map (map node_key) cases =
      [[(2, 50, 0); (2, 50, 1); (1, 50, 0); (1, 50, 1)]; [(2, 50, 0); (2, 50, 1); (1, 100, 0)];
       [(2, 100, 0); (1, 50, 0); (1, 50, 1)]; [(2, 100, 0); (1, 100, 0)]]%Z) /\
  (forall r, fillPossibleCases2 1000 demo_indet [50; 100]%Z [] (-1) <> Done r).
Proof.
  assert (Hp : Forall (fun a => (0 <= a <= 100)%Z) [50; 100]%Z) by (repeat constructor; lia).
  split.
  - destruct (proj1 (fillPossibleCases2_enumerates demo_indet [50; 100]%Z [] 2 Hp ltac:(unfold in_i32, INT_MIN, INT_MAX; lia)))
      as (choices & cases & Hrun & Hkeys & Hlen & _); [lia|].
    exists cases. split; [apply Hrun; cbn; lia|]. split.
    + rewrite <- (length_map (map node_key)), Hkeys, length_map. exact Hlen.
    + specialize (Hrun 3%nat ltac:(cbn; lia)). revert Hrun. vm_compute. intros [= <-]. reflexivity.
  - intros r. apply (fillPossibleCases2_enumerates demo_indet [50; 100]%Z [] (-1) Hp);
      [unfold in_i32, INT_MIN, INT_MAX; lia|lia|done].
Defined.

(** *** Each case is a well-formed cluster *)
Lemma split_pair_sum a : (0 <= a <= 100)%Z ->
  foldr (fun p s => (p.1 + s)%Z) 0%Z (split_pair a) = 100%Z /\ Forall (fun p => (0 <= p.1)%Z) (split_pair a).
Proof.
  intros Ha. unfold split_pair. destruct (decide _); [|destruct (decide _)];
    (split; [cbn; lia|repeat constructor; cbn; lia]).
Qed.
(** The nodes of a case numbered [j + 1]. *)
Definition gpu_parts (i : Indet) (j : nat) (a : Z) : list Node :=
  map (fun p => part_node i (Z.of_nat (S j), p.1, p.2)) (split_pair a).
Lemma gpu_parts_filter i j m a :
  base.filter (fun n => (n_id n - 1)%Z = Z.of_nat j) (gpu_parts i m a) = if decide (m = j) then gpu_parts i m a else [].
Proof.
  unfold gpu_parts. induction (split_pair a) as [|p l IH]; cbn [map]; [by destruct (decide _)|].
  destruct (decide (m = j)) as [->|Hne].
  - rewrite filter_cons_True by (cbn; lia). by rewrite IH.
  - by rewrite filter_cons_False by (cbn; lia).
Qed.
Lemma case_nodes_cons i a cs : case_nodes i (a :: cs) = gpu_parts i (length cs) a ++ case_nodes i cs.
Proof. unfold case_nodes, gpu_parts. cbn [choice_parts length]. by rewrite map_app, map_map. Qed.
Lemma case_nodes_above i choice j : (length choice <= j)%nat ->
  base.filter (fun n => (n_id n - 1)%Z = Z.of_nat j) (case_nodes i choice) = [].
Proof.
  induction choice as [|a cs IH]; intros Hj; [done|]. cbn [length] in Hj.
  rewrite case_nodes_cons, filter_app, gpu_parts_filter, decide_False, IH by lia. done.
Qed.
Lemma nodes_of_gpu i choice j : (j < length choice)%nat -> exists a, choice !! (length choice - S j)%nat = Some a /\
  base.filter (fun n => (n_id n - 1)%Z = Z.of_nat j) (case_nodes i choice) = gpu_parts i j a.
Proof.
  induction choice as [|a cs IH]; intros Hj; [cbn in Hj; lia|]. cbn [length] in *.
  rewrite case_nodes_cons, filter_app, gpu_parts_filter. destruct (decide (length cs = j)) as [<-|Hne].
  - exists a. rewrite Nat.sub_diag, case_nodes_above, app_nil_r by lia. done.
  - destruct IH as (b & Hb & ->); [lia|]. exists b. split; [|done].
    by replace (S (length cs) - S j)%nat with (S (length cs - S j)) by lia.
Qed.

(** A GPU with new nodes of its number and type that add up to 100 percent. *)
Lemma parts_sum_new w pre ns : w_nodes w = pre ++ ns ->
  parts_sum w (seq (length pre) (length ns)) = foldr (fun n s => (n_resource_pntg n + s)%Z) 0%Z ns.
Proof.
  revert pre. induction ns as [|n ns IH]; intros pre Hw; cbn [length seq foldr]; [by rewrite parts_sum_nil|].
  rewrite parts_sum_cons. f_equal.
  - unfold part_at, shape_at. rewrite Hw, list_lookup_middle by done. done.
  - rewrite <- (IH (pre ++ [n])); [|by rewrite <- app_assoc]. by rewrite length_app, Nat.add_1_r.
Qed.
Lemma wf_add_gpu_nodes w sim g ns :
  wf_sim w sim -> g_GPUID g = Z.of_nat (length (vGPUList sim)) ->
  g_vNodeList g = seq (length (w_nodes w)) (length ns) ->
  foldr (fun n s => (n_resource_pntg n + s)%Z) 0%Z ns = 100%Z ->
  Forall (fun n => n_id n = g_GPUID g /\ n_type n = g_TYPE g /\ (0 <= n_resource_pntg n)%Z) ns ->
  (forall gp, gp ∈ vGPUList sim -> (gp < length (w_gpus w))%nat) ->
  wf_sim (mkWorld (w_sched w) (w_tasks w) (w_nodes w ++ ns) (w_gpus w ++ [g]) (w_indet w))
    (mkSimState (vGPUList sim ++ [length (w_gpus w)]) (parts sim) (next_dummy_id sim)).
Proof.
  intros Hwf Hid Hl Hsum Hns Hlt. set (w2 := mkWorld _ _ _ _ _).
  assert (Hsh : forall q, (q < length (w_nodes w))%nat -> shape_at w2 q = shape_at w q).
  { intros q Hq. unfold shape_at. cbn. by rewrite lookup_app_l. }
  assert (Hgs : forall q, (q < length (w_gpus w))%nat -> gshape_at w2 q = gshape_at w q).
  { intros q Hq. unfold gshape_at. cbn. by rewrite lookup_app_l. }
  assert (Hg : gshape_at w2 (length (w_gpus w)) = Some (gshape g)).
  { unfold gshape_at. cbn. by rewrite lookup_app_r, Nat.sub_diag. }
  split; cbn.
  - apply NoDup_app. split_and!; [apply Hwf| |apply NoDup_singleton].
    intros q Hq ->%list_elem_of_singleton. apply Hlt in Hq. lia.
  - intros i gp [Hi|[Hle Hi]]%lookup_app_Some.
    + destruct (wf_at _ _ Hwf i gp Hi) as (g' & Hg' & [H1 H2 H3 H4]).
      exists g'. rewrite Hgs by (apply Hlt; by eapply list_elem_of_lookup_2). split; [done|].
      assert (Hstay : forall p, p ∈ g'.2 -> shape_at w2 p = shape_at w p).
      { intros p Hpp. apply Hsh. destruct (H4 _ Hpp) as (a & b & Hs & _). by apply shape_at_lt in Hs. }
      split; [done|done| |].
      * rewrite (parts_sum_ext w); [done|]. intros p Hpp. unfold part_at. by rewrite Hstay.
      * intros p Hpp. rewrite Hstay by done. auto.
    + apply list_lookup_singleton_Some in Hi as [Hz <-]. exists (gshape g). split; [done|].
      split; unfold gshape; cbn; rewrite ?Hl.
      * rewrite Hid. lia.
      * apply NoDup_seq.
      * rewrite <- Hsum. by apply parts_sum_new.
      * intros p Hp%elem_of_seq. destruct (lookup_lt_is_Some_2 ns (p - length (w_nodes w))) as [n Hn]; [lia|].
        assert (Hin : n ∈ ns) by (by eapply list_elem_of_lookup_2).
        rewrite Forall_forall in Hns. destruct (Hns n Hin) as (Hnid & Hty & Hpos).
        exists (n_resource_pntg n), (n_dedup_num n). split; [|done].
        unfold shape_at. cbn. rewrite lookup_app_r, Hn by lia. cbn. unfold shape. rewrite Hnid, Hty, Hid.
        do 4 f_equal. lia.
Qed.

(** The node [resetScheduler] makes of one of a case. *)
Definition reset_node (i : Indet) (type : string) (n : Node) : Node :=
  set_n_dedup_num (n_dedup_num n) (mkNode [] (indet_float i) fzero (n_resource_pntg n) (n_id n - 1) false 0 type).
Lemma reset_nodes_run type gp l w g : w_gpus w !! gp = Some g ->
  for_each l (fun the_node =>
    new_node_ptr ← makeEmptyNode (n_id the_node - 1) (n_resource_pntg the_node) type;
    _ ← wr_node new_node_ptr (set_n_dedup_num (n_dedup_num the_node));
    wr_gpu gp (fun g => set_g_vNodeList (g_vNodeList g ++ [new_node_ptr]) g)) w =
  Done (tt, mkWorld (w_sched w) (w_tasks w) (w_nodes w ++ map (reset_node (w_indet w) type) l)
    (<[gp := set_g_vNodeList (g_vNodeList g ++ seq (length (w_nodes w)) (length l)) g]> (w_gpus w)) (w_indet w)).
Proof.
  revert w g. induction l as [|n l IH]; intros w g Hg; cbn [for_each map length seq].
  - rewrite !app_nil_r. rewrite list_insert_id; [by destruct w|]. rewrite Hg. by destruct g.
  - set (w1 := mkWorld (w_sched w) (w_tasks w) (w_nodes w ++ [reset_node (w_indet w) type n])
      (<[gp := set_g_vNodeList (g_vNodeList g ++ [length (w_nodes w)]) g]> (w_gpus w)) (w_indet w)).
    rewrite (bind_done _ _ _ tt w1).
    + rewrite (IH w1 (set_g_vNodeList (g_vNodeList g ++ [length (w_nodes w)]) g)).
      * cbn. unfold w1. cbn. rewrite <- !app_assoc, list_insert_insert_eq, length_app. cbn. by rewrite Nat.add_1_r.
      * cbn. apply list_lookup_insert_eq. by eapply lookup_lt_Some.
    + unfold makeEmptyNode, new_node, wr_node, wr_gpu. mred.
      rewrite list_lookup_middle by done. cbn. rewrite Hg. cbn.
      rewrite insert_app_r_alt, Nat.sub_diag by done. done.
Qed.

(** What a GPU holds: its number, its type, and in order the number, the type,
    the share, the copy number and the tasks of its nodes. *)
Definition node_view (w : World) (np : NodePtr) : option (Z * string * Z * Z * list TaskPtr) :=
  n ← w_nodes w !! np; Some (n_id n, n_type n, n_resource_pntg n, n_dedup_num n, n_vTaskList n).
Definition gpu_view (w : World) (gp : GPUPtr) : option (Z * string * list (option (Z * string * Z * Z * list TaskPtr))) :=
  g ← w_gpus w !! gp; Some (g_GPUID g, g_TYPE g, map (node_view w) (g_vNodeList g)).
(** GPU [j] of the given type, split at [a]. *)
Definition split_gpu (j : nat) (type : string) (a : Z) :
    Z * string * list (option (Z * string * Z * Z * list TaskPtr)) :=
  (Z.of_nat j, type, map (fun p => Some (Z.of_nat j, type, p.1, p.2, [])) (split_pair a)).

Lemma node_view_grow w w' ns np v : w_nodes w' = w_nodes w ++ ns -> node_view w np = Some v -> node_view w' np = Some v.
Proof.
  unfold node_view. intros ->. destruct (w_nodes w !! np) as [n|] eqn:E; [|done].
  by rewrite (lookup_app_l_Some _ _ _ _ E).
Qed.
Lemma gpu_view_grow w w' ns gs gp j type a : w_nodes w' = w_nodes w ++ ns -> w_gpus w' = w_gpus w ++ gs ->
  gpu_view w gp = Some (split_gpu j type a) -> gpu_view w' gp = Some (split_gpu j type a).
Proof.
  intros Hns Hgs. unfold gpu_view, split_gpu. rewrite Hgs. destruct (w_gpus w !! gp) as [g|] eqn:E; [|done].
  rewrite (lookup_app_l_Some _ _ _ _ E). cbn. intros [= <- <- Hm]. do 2 f_equal. rewrite <- Hm.
  apply map_ext_in. intros np Hnp. apply (in_map (node_view w)) in Hnp as Hv. rewrite Hm in Hv.
  apply in_map_iff in Hv as (p & Hv & _). rewrite <- Hv. by apply (node_view_grow w w' ns).
Qed.
Lemma new_nodes_view w w' ns : w_nodes w' = w_nodes w ++ ns ->
  map (node_view w') (seq (length (w_nodes w)) (length ns)) =
    map (fun n => Some (n_id n, n_type n, n_resource_pntg n, n_dedup_num n, n_vTaskList n)) ns.
Proof.
  intros Hw. assert (H : forall pre l, w_nodes w' = pre ++ l -> map (node_view w') (seq (length pre) (length l)) =
    map (fun n => Some (n_id n, n_type n, n_resource_pntg n, n_dedup_num n, n_vTaskList n)) l); [|by apply H].
  intros pre l. revert pre. induction l as [|n l IH]; intros pre Hl; cbn [length seq map]; [done|]. f_equal.
  - unfold node_view. by rewrite Hl, list_lookup_middle.
  - rewrite <- (IH (pre ++ [n])); [by rewrite length_app, Nat.add_1_r|by rewrite <- app_assoc].
Qed.

Record cluster_ok (type : string) (choice : list Z) (j : nat) (gpus : list GPUPtr) (w : World) : Prop := mkCluster {
  co_wf : wf_sim w (gpus_state gpus);
  co_len : length gpus = j;
  co_lt : forall gp, gp ∈ gpus -> (gp < length (w_gpus w))%nat;
  co_view : forall m gp, gpus !! m = Some gp -> exists a, choice !! (length choice - S m)%nat = Some a /\
    gpu_view w gp = Some (split_gpu m type a) }.

Lemma reset_gpu_ok type choice j gpus i w :
  (j < length choice)%nat -> Forall (fun a => (0 <= a <= 100)%Z) choice -> cluster_ok type choice j gpus w ->
  returns (reset_gpu type (case_nodes i choice) (Z.of_nat j)) w (fun gp w' => cluster_ok type choice (S j) (gpus ++ [gp]) w').
Proof.
  intros Hj Hc [Hwf Hlen Hlt Hview]. destruct (nodes_of_gpu i choice j Hj) as (a & Ha & Hf).
  rewrite Forall_forall in Hc. destruct (split_pair_sum a) as [Hsum Hpos]; [by apply Hc, list_elem_of_lookup_2 with (length choice - S j)%nat|].
  unfold reset_gpu. eapply returns_read; [done|]. rewrite Hf.
  set (g := set_g_TYPE type (set_g_GPUID (Z.of_nat j) (raw_gpu (w_indet w)))).
  eapply returns_read; [reflexivity|].
  set (w1 := set_w_gpus (w_gpus w ++ [g]) w).
  eapply returns_read.
  { apply reset_nodes_run. cbn. by rewrite list_lookup_middle. }
  eapply returns_intro; [reflexivity|]. rewrite <- (length_map (reset_node (w_indet w1) type) (gpu_parts i j a)).
  set (ns := map (reset_node (w_indet w1) type) (gpu_parts i j a)). cbn [w_gpus set_w_gpus w1].
  rewrite insert_app_r_alt, Nat.sub_diag by done. cbn [list_insert insert w_sched w_tasks w_nodes w_indet].
  set (g' := set_g_vNodeList _ g). 
  set (w2 := mkWorld _ _ _ _ _).
  assert (Hnodes : w_nodes w2 = w_nodes w ++ ns) by done. assert (Hgpus : w_gpus w2 = w_gpus w ++ [g']) by done.
  split.
  - apply (wf_add_gpu_nodes w (gpus_state gpus) g' ns Hwf); [cbn; by rewrite Hlen|done| | |done].
    + rewrite <- Hsum. unfold ns, gpu_parts. rewrite map_map. clear. induction (split_pair a) as [|p l IH]; [done|].
      cbn [map foldr]. by rewrite IH.
    + unfold ns, gpu_parts. rewrite map_map. apply Forall_map. eapply Forall_impl; [exact Hpos|].
      intros p Hp. cbn. split_and!; [lia|done|done].
  - rewrite length_app. cbn. lia.
  - intros gp Hgp. rewrite Hgpus, length_app. cbn. apply elem_of_app in Hgp as [Hgp| ->%list_elem_of_singleton]; [|lia].
    apply Hlt in Hgp. lia.
  - intros m gp [Hm|[Hm Hgp]]%lookup_app_Some.
    + destruct (Hview m gp Hm) as (b & Hb & Hv). exists b. split; [done|]. by apply (gpu_view_grow w w2 ns [g']).
    + apply list_lookup_singleton_Some in Hgp as [Hz <-]. replace m with j by lia. exists a. split; [done|].
      unfold gpu_view. rewrite Hgpus, list_lookup_middle by done. cbn.
      unfold split_gpu. do 2 f_equal. rewrite (new_nodes_view w w2 ns Hnodes).
      unfold ns, gpu_parts. rewrite !map_map. apply map_ext. intros p. cbn. do 5 f_equal. lia.
Qed.

(** C12: every case of the exhaustive search starts from the cluster it
    describes.  With one device type, [resetScheduler] never fails on a case; the
    result is a well-formed cluster with one GPU per device, in order, and there
    is one choice of splits, whose parts are the case, so that GPU [j] carries the
    number [j] and the type and its nodes, in order, are the parts of its split:
    with the split's shares and copy numbers, the GPU's number and type, and no
    task. *)
Theorem search_case_wf parts i type k vec cases fuel input w :
  _typeToNumofTypeTable (w_sched w) = [(type, k)] -> Forall (fun a => (0 <= a <= 100)%Z) parts ->
  (0 <= k <= INT_MAX)%Z -> (Z.to_nat k < fuel)%nat ->
  fillPossibleCases2 fuel i parts [] k = Done cases -> vec ∈ cases -> vGPUList input = [] ->
  exists choice, length choice = Z.to_nat k /\ Forall (fun a => a ∈ parts) choice /\
    map node_key vec = choice_parts choice /\
    returns (resetScheduler input vec) w (fun sim w' =>
      wf_sim w' sim /\ length (vGPUList sim) = Z.to_nat k /\
      forall j gp, vGPUList sim !! j = Some gp -> exists a, choice !! (Z.to_nat k - S j)%nat = Some a /\
        gpu_view w' gp = Some (split_gpu j type a)).
Proof.
  intros Hty Hparts Hk Hfuel Hcases Hvec Hin.
  assert (Hch : exists choice, vec = case_nodes i choice /\ length choice = Z.to_nat k /\ Forall (fun a => a ∈ parts) choice).
  { revert Hcases. unfold fillPossibleCases2. rewrite <- (Z2Nat.id k) at 1 by lia.
    rewrite ReturnNodeList_run by (try done; lia). intros [= <-].
    apply list_elem_of_In, in_map_iff in Hvec as (choice & <- & Hch%list_elem_of_In%words_in). by exists choice. }
  destruct Hch as (choice & -> & Hlen & Hch). exists choice. split_and!; [done|done|apply case_nodes_keys|].
  assert (Hpct : Forall (fun a => (0 <= a <= 100)%Z) choice).
  { rewrite Forall_forall in *. intros a Ha. by apply Hparts, Hch. }
  unfold resetScheduler. eapply returns_read; [done|]. rewrite Hty, Hin. cbn [for_acc snd fst].
  eapply returns_bind with (Q1 := cluster_ok type choice (Z.to_nat k)).
  - eapply returns_bind; [|intros gpus w' H; eapply returns_intro; [reflexivity|exact H]].
    rewrite <- (map_id (seq 0 (Z.to_nat k))). apply (returns_for_acc_seq (cluster_ok type choice) (fun j => j) 0).
    + intros j gpus w' Hj Hok. eapply returns_bind; [apply reset_gpu_ok; [lia|done|exact Hok]|].
      intros gp w2 H. eapply returns_intro; [reflexivity|exact H].
    + split; [|done|by intros ? ?%elem_of_nil|done]. split; [apply NoDup_nil_2|done].
  - intros gpus w' [Hwf Hl _ Hv]. eapply returns_intro; [reflexivity|]. rewrite <- Hlen. split_and!; [|by rewrite Hlen|exact Hv].
    by eapply wf_sim_gpus; [|exact Hwf].
Qed.

Lemma search_case_wf_witness :
  exists cases, fillPossibleCases2 3 demo_indet [50; 60; 80; 100]%Z [] 2 = Done cases /\ length cases = 16%nat /\
  Forall (fun vec => exists choice, map node_key vec = choice_parts choice /\
    returns (resetScheduler (mkSimState [] [] 0) vec) demo_world (fun sim w' =>
      wf_sim w' sim /\ length (vGPUList sim) = 2%nat /\
      forall j gp, vGPUList sim !! j = Some gp -> exists a, choice !! (2 - S j)%nat = Some a /\
        gpu_view w' gp = Some (split_gpu j "A" a))) cases.
Proof.
  destruct (fillPossibleCases2 3 demo_indet [50; 60; 80; 100]%Z [] 2) as [cases|] eqn:E; [|revert E; vm_compute; discriminate].
  exists cases. split; [reflexivity|]. split; [by revert E; vm_compute; intros [= <-]|].
  apply Forall_forall. intros vec Hvec.
  destruct (search_case_wf [50; 60; 80; 100]%Z demo_indet "A" 2 vec cases 3 (mkSimState [] [] 0) demo_world)
    as (choice & _ & _ & Hkeys & Hrun).
  - vm_compute. reflexivity.
  - repeat constructor; lia.
  - unfold INT_MAX. lia.
  - cbn. lia.
  - exact E.
  - exact Hvec.
  - reflexivity.
  - exists choice. split; [exact Hkeys|exact Hrun].
Defined.

(** ** The file of a schedule *)

(** A duty cycle whose six digits are read as a [float] again. *)
Definition printable (d : spec_float) : bool :=
  is_finite (f2d d) &&
  match read_back (f2d d) with S754_infinity _ => false | S754_zero _ => (micro (f2d d) =? 0)%Z | _ => true end.
(** A configuration as it is read back: the duty cycle to six digits. *)
Definition reread (c : task_config) : task_config :=
  mkConfig (cf_node_id c) (cf_dedup_num c) (cf_thread_cap c) (cf_name c) (cf_batch_size c)
    (read_back (f2d (cf_duty_cycle c))).
Definition plain_name (name : string) : bool := lacks COMMA name && lacks NEWLINE name.
Definition config_ok (c : task_config) : Prop :=
  in_i32 (cf_node_id c) /\ in_i32 (cf_thread_cap c) /\ in_i32 (cf_dedup_num c) /\ in_i32 (cf_batch_size c) /\
  plain_name (cf_name c) = true /\ printable (cf_duty_cycle c) = true.

Lemma stof_printable d : printable d = true -> stof (print_lf (f2d d)) = Done (read_back (f2d d)).
Proof. intros [Hf Hr]%andb_true_iff. by apply stof_print. Qed.

Lemma field_read f rest token : lacks COMMA f = true ->
  getline (Some (f +:+ "," +:+ rest)%string) token = (f, Some rest).
Proof. intros H. exact (span_field COMMA f rest H). Qed.
Lemma last_field_read f token : lacks COMMA f = true -> getline (Some f) token = (f, None).
Proof. apply span_lacks. Qed.
Lemma lacks_int z : lacks COMMA (print_int z) = true.
Proof. by apply lacks_print_int. Qed.

(** [read_config] reads back the line of a configuration. *)
Lemma read_config_line c token : config_ok c ->
  exists token', read_config (config_line c) token = Done (reread c, token').
Proof.
  intros (Hid & Hcap & Hdd & Hb & Hname & Hduty).
  apply andb_true_iff in Hname as [Hname _].
  assert (Hlf : lacks COMMA (print_lf (f2d (cf_duty_cycle c))) = true).
  { apply lacks_print_lf; [|done..]. by apply andb_true_iff in Hduty as [? _]. }
  eexists. unfold read_config, config_line. cbv zeta.
  rewrite field_read by apply lacks_int. rewrite stoi_print by done. cbn [mbind outcome_bind].
  rewrite field_read by apply lacks_int. rewrite stoi_print by done. cbn [mbind outcome_bind].
  rewrite field_read by apply lacks_int. rewrite stoi_print by done. cbn [mbind outcome_bind].
  rewrite field_read by done. rewrite field_read by apply lacks_int. rewrite stoi_print by done. cbn [mbind outcome_bind].
  rewrite last_field_read by done. rewrite stof_printable by done. reflexivity.
Qed.
Lemma read_configs_lines cs token : Forall config_ok cs ->
  read_configs (map config_line cs) token = Done (map reread cs).
Proof.
  intros H. revert token. induction H as [|c cs Hc _ IH]; intros token; [done|]. cbn [map read_configs].
  destruct (read_config_line c token Hc) as (token' & ->). cbn [mbind outcome_bind]. by rewrite IH.
Qed.
Lemma config_line_plain c : config_ok c -> lacks NEWLINE (config_line c) = true.
Proof.
  intros (_ & _ & _ & _ & Hname & Hduty). apply andb_true_iff in Hname as [_ Hname].
  apply andb_true_iff in Hduty as [Hfin _].
  assert (Hi : forall z, lacks NEWLINE (print_int z) = true) by (intros; by apply lacks_print_int).
  assert (Hf : lacks NEWLINE (print_lf (f2d (cf_duty_cycle c))) = true) by (by apply lacks_print_lf).
  unfold config_line. by rewrite !lacks_app, !Hi, Hname, Hf.
Qed.
Lemma reader_written filename n cs : (0 < n)%Z -> filename <> ""%string -> Forall config_ok cs ->
  ProxyPartitionReader filename n (file_lines (write_lines (map config_line cs))) = Done (map reread cs).
Proof.
  intros Hn Hf Hcs. unfold ProxyPartitionReader.
  rewrite (proj2 (String.eqb_neq _ _) Hf), (proj2 (Z.ltb_lt _ _)) by done. cbn [orb negb].
  rewrite file_lines_write; [by apply read_configs_lines|].
  apply Forall_map. eapply Forall_impl; [exact Hcs|]. intros c. apply config_line_plain.
Qed.

(** The configurations of a schedule, GPU by GPU and node by node: one per task,
    and one of no duty cycle for a node without tasks. *)
Definition task_config_of (w : World) (n : Node) (tp : TaskPtr) : list task_config :=
  match w_tasks w !! tp with
  | None => []
  | Some t => match at_index (_IDtoModelName (w_sched w)) (t_id t) with
              | Done name =>
                  [{| cf_node_id := n_id n; cf_thread_cap := n_resource_pntg n; cf_dedup_num := n_dedup_num n;
                      cf_duty_cycle := n_duty_cycle n; cf_name := name; cf_batch_size := t_batch_size t |}]
              | Stop _ => []
              end
  end.
Definition node_configs (w : World) (np : NodePtr) : list task_config :=
  match w_nodes w !! np with
  | None => []
  | Some n =>
      match n_vTaskList n with
      | [] => [{| cf_node_id := n_id n; cf_thread_cap := n_resource_pntg n; cf_dedup_num := n_dedup_num n;
                  cf_duty_cycle := fzero; cf_name := "reserved"; cf_batch_size := _MAX_BATCH |}]
      | tasks => flat_map (task_config_of w n) tasks
      end
  end.
Definition gpu_configs (w : World) (gp : GPUPtr) : list task_config :=
  match w_gpus w !! gp with Some g => flat_map (node_configs w) (g_vNodeList g) | None => [] end.
Definition schedule_configs (w : World) (sim : SimState) : list task_config :=
  flat_map (gpu_configs w) (vGPUList sim).

(** What belongs in the file of [N] GPUs: a GPU that exists, a percentage, a
    batch that is not empty, a duty cycle that is not negative. *)
Definition acceptable (N : Z) (c : task_config) : Prop :=
  (0 <= cf_node_id c < N)%Z /\ (0 < cf_thread_cap c <= 100)%Z /\ cf_batch_size c <> 0%Z /\
  ltb (cf_duty_cycle c) fzero = false.
#[local] Instance acceptable_dec N c : Decision (acceptable N c) := ltac:(unfold acceptable; apply _).
Lemma addResults_spec N c cs :
  (addResults N c cs).2 = cs ++ base.filter (acceptable N) [c].
Proof.
  unfold addResults. 
  destruct ((0 <=? cf_node_id c)%Z && (cf_node_id c <? N)%Z) eqn:E1; cbn [negb].
  2: { rewrite filter_cons_False, filter_nil, app_nil_r; [done|]. intros ([H1 H2] & _).
       by rewrite (proj2 (Z.leb_le _ _) H1), (proj2 (Z.ltb_lt _ _) H2) in E1. }
  destruct ((0 <? cf_thread_cap c)%Z && (cf_thread_cap c <=? 100)%Z) eqn:E2; cbn [negb].
  2: { rewrite filter_cons_False, filter_nil, app_nil_r; [done|]. intros (_ & [H1 H2] & _).
       by rewrite (proj2 (Z.ltb_lt _ _) H1), (proj2 (Z.leb_le _ _) H2) in E2. }
  apply andb_true_iff in E1 as [H1%Z.leb_le H2%Z.ltb_lt]. apply andb_true_iff in E2 as [H3%Z.ltb_lt H4%Z.leb_le].
  destruct (cf_batch_size c =? 0)%Z eqn:E3; [apply Z.eqb_eq in E3|apply Z.eqb_neq in E3].
  { rewrite filter_cons_False, filter_nil, app_nil_r; [done|]. by intros (_ & _ & H & _). }
  destruct (ltb (cf_duty_cycle c) fzero) eqn:E4.
  { rewrite filter_cons_False, filter_nil, app_nil_r; [done|]. intros (_ & _ & _ & H). congruence. }
  by rewrite filter_cons_True.
Qed.

(** What the writer needs to read: GPUs, nodes and tasks that exist, models it
    knows; and what a line can hold: plain names, [int]s, and duty cycles whose
    six digits a [float] can hold. *)
Definition readable_task (w : World) (tp : TaskPtr) : Prop :=
  exists t name, w_tasks w !! tp = Some t /\ at_index (_IDtoModelName (w_sched w)) (t_id t) = Done name /\
    plain_name name = true /\ in_i32 (t_batch_size t).
Record readable_node (w : World) (n : Node) : Prop := mkReadable {
  rn_dedup : in_i32 (n_dedup_num n);
  rn_duty : n_vTaskList n <> [] -> printable (n_duty_cycle n) = true;
  rn_tasks : Forall (readable_task w) (n_vTaskList n) }.
Definition readable_gpu (w : World) (gp : GPUPtr) : Prop :=
  exists g, w_gpus w !! gp = Some g /\
    Forall (fun np => exists n, w_nodes w !! np = Some n /\ readable_node w n) (g_vNodeList g).
Definition readable (w : World) (sim : SimState) : Prop := Forall (readable_gpu w) (vGPUList sim).

Lemma foldl_flat {A B} (f : A -> list B) (l : list A) acc :
  foldl (fun acc x => acc ++ f x) acc l = acc ++ flat_map f l.
Proof. revert acc. induction l as [|x l IH]; intros acc; cbn; [by rewrite app_nil_r|]. by rewrite IH, <- app_assoc. Qed.
Lemma filter_flat {A B} (P : B -> Prop) `{!forall x, Decision (P x)} (f : A -> list B) l :
  base.filter P (flat_map f l) = flat_map (fun x => base.filter P (f x)) l.
Proof. induction l as [|x l IH]; [done|]. cbn [flat_map]. by rewrite filter_app, IH. Qed.

(** One node, one GPU: what is acceptable of its configurations is appended. *)
Lemma write_node_run w N cs np n : w_nodes w !! np = Some n -> readable_node w n ->
  write_node N cs np w = Done (cs ++ base.filter (acceptable N) (node_configs w np), w).
Proof.
  intros Hn [Hdd Hpr Ht]. unfold write_node, node_configs. rewrite Hn.
  rewrite (bind_done _ _ _ n w) by (unfold rd_node; mred; by rewrite Hn).
  destruct (n_vTaskList n) as [|tp tasks].
  - rewrite (bind_done _ _ _ _MAX_BATCH w) by done. unfold mret, M_ret. by rewrite addResults_spec.
  - rewrite (for_acc_pure (fun cs tp => cs ++ base.filter (acceptable N) (task_config_of w n tp))).
    { by rewrite foldl_flat, <- filter_flat. }
    intros cs' tp' Hin. rewrite Forall_forall in Ht. destruct (Ht tp' Hin) as (t & name & Htk & Hnm & _).
    rewrite (bind_done _ _ _ t w) by (unfold rd_task; mred; by rewrite Htk).
    rewrite (bind_done _ _ _ name w) by (unfold SchedBase.getModelName, sched; mred; by rewrite Hnm).
    unfold mret, M_ret, task_config_of. by rewrite addResults_spec, Htk, Hnm.
Qed.
Lemma write_gpu_run w N cs gp : readable_gpu w gp ->
  (g ← rd_gpu gp; for_acc (g_vNodeList g) cs (write_node N)) w =
    Done (cs ++ base.filter (acceptable N) (gpu_configs w gp), w).
Proof.
  intros (g & Hg & Hnodes). unfold gpu_configs. rewrite Hg.
  rewrite (bind_done _ _ _ g w) by (unfold rd_gpu; mred; by rewrite Hg).
  rewrite (for_acc_pure (fun cs np => cs ++ base.filter (acceptable N) (node_configs w np))).
  { by rewrite foldl_flat, <- filter_flat. }
  intros cs' np Hnp. rewrite Forall_forall in Hnodes. destruct (Hnodes np Hnp) as (n & Hn & Hr).
  by apply (write_node_run w N cs' np n).
Qed.

(** A line holds every acceptable configuration. *)
Lemma node_configs_ok w N np n c : (N < 2147483648)%Z -> w_nodes w !! np = Some n -> readable_node w n ->
  c ∈ node_configs w np -> acceptable N c -> config_ok c.
Proof.
  intros HN Hn [Hdd Hpr Ht] Hc (Hid & Hp & _). unfold node_configs in Hc. rewrite Hn in Hc.
  assert (Hi : in_i32 (cf_node_id c) /\ in_i32 (cf_thread_cap c)) by (unfold in_i32, INT_MIN, INT_MAX; lia).
  destruct (n_vTaskList n) as [|tp tasks].
  - apply list_elem_of_singleton in Hc as ->. split_and!; try apply Hi; try apply Hdd; done.
  - apply list_elem_of_In, in_flat_map in Hc. destruct Hc as (tp' & Hin%list_elem_of_In & Hc).
    rewrite Forall_forall in Ht. destruct (Ht tp' Hin) as (t & name & Htk & Hnm & Hpl & Hb).
    unfold task_config_of in Hc. rewrite Htk, Hnm in Hc. destruct Hc as [<-|[]].
    split_and!; try apply Hi; try done. by apply Hpr.
Qed.
Lemma schedule_configs_ok w sim N : (N < 2147483648)%Z -> readable w sim ->
  Forall config_ok (base.filter (acceptable N) (schedule_configs w sim)).
Proof.
  intros HN Hr. apply Forall_forall. intros c [Ha Hc]%list_elem_of_filter.
  apply list_elem_of_In, in_flat_map in Hc as (gp & Hgp & Hc). apply list_elem_of_In in Hgp.
  unfold readable in Hr. rewrite Forall_forall in Hr. destruct (Hr gp Hgp) as (g & Hg & Hnodes).
  unfold gpu_configs in Hc. rewrite Hg in Hc. apply in_flat_map in Hc as (np & Hnp%list_elem_of_In & Hc).
  rewrite Forall_forall in Hnodes. destruct (Hnodes np Hnp) as (n & Hn & Hrn).
  apply (node_configs_ok w N np n); try done. by apply list_elem_of_In.
Qed.

(** C11: the file of a schedule reads back as the schedule, without what does not
    belong in it.  Whatever schedule [writeSchedulingResults] gets - its GPUs,
    nodes and tasks exist, the scheduler knows its models - the frontend's
    [ProxyPartitionReader] makes of the text one configuration per task, and one
    per node without tasks, in the order of the schedule: GPU, percentage, copy
    number, model and batch size exactly, the duty cycle to six digits.  Left out
    are exactly the configurations of a GPU that does not exist, of a percentage
    not from 1 to 100, of an empty batch or of a negative duty cycle; if that
    leaves none, the assertion of [writeResults] ends the program. *)
Theorem schedule_file_roundtrip filename specfile sim w :
  vGPUList sim <> [] -> (Z.of_nat (length (vGPUList sim)) < 2147483648)%Z ->
  filename <> ""%string -> specfile <> ""%string -> readable w sim ->
  let N := Z.of_nat (length (vGPUList sim)) in
  let written := base.filter (acceptable N) (schedule_configs w sim) in
  match written with
  | [] => writeSchedulingResults filename sim w = Stop AssertionFailed
  | _ => exists text, writeSchedulingResults filename sim w = Done (text, w) /\
      ProxyPartitionReader specfile N (file_lines text) = Done (map reread written)
  end.
Proof.
  intros Hne HN Hf Hf2 Hr. cbv zeta. set (N := Z.of_nat _) in *.
  assert (HN0 : (0 < N)%Z) by (unfold N; destruct (vGPUList sim); [done|cbn; lia]).
  assert (Hi : i32 N = N) by (apply i32_id; unfold in_i32, INT_MIN, INT_MAX; lia).
  pose proof (schedule_configs_ok w sim N HN Hr) as Hok.
  assert (Hrun : writeSchedulingResults filename sim w =
    lift (writeResults (base.filter (acceptable N) (schedule_configs w sim))) w).
  { unfold writeSchedulingResults. fold N. rewrite Hi. rewrite (bind_done _ _ _ N w).
    2: { unfold ProxyPartitionWriter. by rewrite (proj2 (String.eqb_neq _ _) Hf), (proj2 (Z.ltb_lt _ _) HN0). }
    rewrite (bind_done _ _ _ (base.filter (acceptable N) (schedule_configs w sim)) w); [done|].
    rewrite (for_acc_pure (fun cs gp => cs ++ base.filter (acceptable N) (gpu_configs w gp))).
    - by rewrite foldl_flat, <- filter_flat.
    - intros cs gp Hgp. apply write_gpu_run. unfold readable in Hr. rewrite Forall_forall in Hr. by apply Hr. }
  rewrite Hrun. destruct (base.filter _ _) as [|c cs]; [done|].
  exists (write_lines (map config_line (c :: cs))). split; [done|]. by apply reader_written.
Qed.

(** A check that a schedule can be read by the writer. *)
Definition i32_b (z : Z) : bool := ((INT_MIN <=? z) && (z <=? INT_MAX))%Z.
Lemma i32_check z : i32_b z = true -> in_i32 z.
Proof. intros [H1%Z.leb_le H2%Z.leb_le]%andb_true_iff. done. Qed.
Definition readable_task_b (w : World) (tp : TaskPtr) : bool :=
  match w_tasks w !! tp with
  | None => false
  | Some t => match at_index (_IDtoModelName (w_sched w)) (t_id t) with
              | Done name => plain_name name && i32_b (t_batch_size t)
              | Stop _ => false
              end
  end.
Definition readable_node_b (w : World) (n : Node) : bool :=
  i32_b (n_dedup_num n) && (printable (n_duty_cycle n) || match n_vTaskList n with [] => true | _ => false end) &&
  forallb (readable_task_b w) (n_vTaskList n).
Definition readable_b (w : World) (sim : SimState) : bool :=
  forallb (fun gp => match w_gpus w !! gp with
    | Some g => forallb (fun np => match w_nodes w !! np with Some n => readable_node_b w n | None => false end)
                  (g_vNodeList g)
    | None => false end) (vGPUList sim).
Lemma readable_check w sim : readable_b w sim = true -> readable w sim.
Proof.
  unfold readable_b. rewrite forallb_forall. intros H. apply Forall_forall. intros gp Hgp.
  specialize (H gp (proj1 (list_elem_of_In _ _) Hgp)). destruct (w_gpus w !! gp) as [g|] eqn:Hg; [|done].
  exists g. split; [done|]. rewrite forallb_forall in H. apply Forall_forall. intros np Hnp.
  specialize (H np (proj1 (list_elem_of_In _ _) Hnp)). destruct (w_nodes w !! np) as [n|] eqn:Hn; [|done].
  exists n. split; [done|]. unfold readable_node_b in H.
  apply andb_true_iff in H as [[H1 H2]%andb_true_iff H3]. split; [by apply i32_check| |].
  - intros Hne. apply orb_true_iff in H2 as [H2|H2]; [done|]. by destruct (n_vTaskList n).
  - rewrite forallb_forall in H3. apply Forall_forall. intros tp Htp%list_elem_of_In. specialize (H3 tp Htp).
    unfold readable_task_b in H3. destruct (w_tasks w !! tp) as [t|] eqn:Et; [|done].
    destruct (at_index _ _) as [name|] eqn:En; [|done].
    apply andb_true_iff in H3 as [H5 H6]. exists t, name. split_and!; try done. by apply i32_check.
Qed.

(** The schedule of two sessions on the two GPUs of [Demo]; and a cluster whose
    only GPU has one node of share 0, of which nothing can be written. *)
Lemma schedule_file_roundtrip_witness :
  match incrementalScehduling [demo_task 1500] demo_sim demo_world with
  | Done (r, w') => exists text, writeSchedulingResults "ModelList.txt" r.2 w' = Done (text, w') /\
      omap (fun c => Some (cf_node_id c, cf_thread_cap c, cf_name c, cf_batch_size c))
        (default [] (match ProxyPartitionReader "ModelList.txt" 2 (file_lines text) with Done l => Some l | Stop _ => None end)) =
      [(0, 50, "resnet50", 23); (0, 50, "resnet50", 23); (1, 50, "resnet50", 23); (1, 50, "resnet50", 5)]%Z%string
  | Stop _ => False
  end /\
  writeSchedulingResults "ModelList.txt" (mkSimState [0%nat] [] 0)
    (mkWorld (w_sched demo_world) [] [part_node demo_indet (0, 0, 0)%Z]
      [set_g_vNodeList [0%nat] (raw_gpu demo_indet)] demo_indet) = Stop AssertionFailed.
Proof.
  split.
  2: { set (w := mkWorld _ _ _ _ _). set (sim := mkSimState _ _ _).
       pose proof (schedule_file_roundtrip "ModelList.txt" "ModelList.txt" sim w) as H. cbv zeta in H.
       assert (E : base.filter (acceptable (Z.of_nat (length (vGPUList sim)))) (schedule_configs w sim) = [])
         by (vm_compute; reflexivity).
       rewrite E in H. apply H; [done|cbn; lia|discriminate|discriminate|].
       apply readable_check. vm_compute. reflexivity. }
  apply run_returns; [vm_compute; reflexivity|]. intros [r w'] H.
  assert (Hrun : forall T (f : _ -> T) x, f (match incrementalScehduling [demo_task 1500] demo_sim demo_world with
      Done y => Some y | Stop _ => None end) = x -> f (Some (r, w')) = x) by (intros ? ? ?; by rewrite H).
  assert (Hlen : length (vGPUList r.2) = 2%nat).
  { apply (Hrun _ (fun o => match o with Some y => length (vGPUList y.1.2) | None => 0 end)%nat). vm_compute. reflexivity. }
  assert (Hr : readable_b w' r.2 = true).
  { apply (Hrun _ (fun o => match o with Some y => readable_b y.2 y.1.2 | None => false end)). vm_compute. reflexivity. }
  pose proof (schedule_file_roundtrip "ModelList.txt" "ModelList.txt" r.2 w') as Hw. cbv zeta in Hw.
  rewrite Hlen in Hw. change (Z.of_nat 2) with 2%Z in Hw.
  assert (Hview : omap (fun c => Some (cf_node_id c, cf_thread_cap c, cf_name c, cf_batch_size c))
      (map reread (base.filter (acceptable 2) (schedule_configs w' r.2))) =
      [(0, 50, "resnet50", 23); (0, 50, "resnet50", 23); (1, 50, "resnet50", 23); (1, 50, "resnet50", 5)]%Z%string).
  { apply (Hrun _ (fun o => omap (fun c => Some (cf_node_id c, cf_thread_cap c, cf_name c, cf_batch_size c))
      (map reread (base.filter (acceptable 2) (match o with Some y => schedule_configs y.2 y.1.2 | None => [] end))))).
    vm_compute. reflexivity. }
  destruct (base.filter (acceptable 2) (schedule_configs w' r.2)) as [|c cs] eqn:E; [discriminate Hview|].
  destruct Hw as (text & Ht & Hrd).
  - intros Hnil. by rewrite Hnil in Hlen.
  - lia.
  - discriminate.
  - discriminate.
  - by apply readable_check.
  - exists text. split; [exact Ht|]. rewrite Hrd. exact Hview.
Defined.
