(* ===== verification/Client.v ===== *)
(** * The client ([client.cpp], [common/exp_model.cpp]): its options, the thread
    that sends the requests and the thread that receives the answers.

    The build defines [NO_NET]: of an input only the task number is sent.  Images
    and tensors are opaque; which of them is chosen matters, because the index is
    not checked.  The clock, [std::rand], the random engine and [log] are
    parameters. *)
From Stdlib Require Import ZArith SpecFloat String Lia.
From S2P Require Import Prelude CppFloat CppStd SchedData AppModel.

(** ** Options and global variables *)
Record ClientOptions : Type := mkOptions {
  o_task : string; o_portno : Z; o_hostname : string; o_batch : Z; o_requests : Z; o_rate : Z;
  o_skip_resize : bool; o_dist : string; o_flux : bool; o_flux_file : string }.

Record ClientVars : Type := mkVars {
  g_skipResize : bool; g_rate : Z; g_randMean : spec_float; g_model : string;
  g_useFlux : bool; g_useFluxFile : bool; g_randRate : list Z; g_standRate : Z;
  g_reqDist : string; g_numReqs : Z; g_useIMG : bool; g_useMNIST : bool; g_useNLP : bool;
  g_batchSize : Z; g_hostName : string; g_portNo : Z }.

Definition BATCH_BUFFER : Z := 10.
Definition FLUX_INTERVAL : Z := 20.

(** [iss >> a] fails where [stof] would throw; the loop ends there. *)
Fixpoint readTraceFile (lines : list string) : list Z :=
  match lines with
  | [] => []
  | line :: lines' =>
      match stof line with Done a => f2i a :: readTraceFile lines' | Stop _ => [] end
  end.

(** The kinds of input of an application: images, MNIST, token ids. *)
Definition input_kinds (model : string) : bool * bool * bool :=
  if String.eqb model "lenet1" then (false, true, false)
  else if String.eqb model "game" then (true, true, false)
  else if String.eqb model "bert" then (false, false, true)
  else (true, false, false).

(** [trace]: the lines of the flux file. *)
Definition setupGlobalVars (vm : ClientOptions) (trace : list string) : outcome ClientVars :=
  if (o_rate vm =? 0)%Z then Stop AssertionFailed
  else if o_flux vm && String.eqb (o_flux_file vm) "no_file" then Stop (Exited 1)
  else if (o_batch vm =? 0)%Z then Stop AssertionFailed
  else
    let '(img, mnist, nlp) := input_kinds (o_task vm) in
    Done (mkVars (o_skip_resize vm) (o_rate vm) (ddiv (i2d 1) (i2d (o_rate vm))) (o_task vm)
      (o_flux vm) (o_flux vm) (if o_flux vm then readTraceFile trace else []) 0
      (o_dist vm) (u64 (o_requests vm)) img mnist nlp (o_batch vm) (o_hostname vm) (o_portno vm)).

(** ** Inputs *)
(** [getInput]: the dimensions of a random tensor. *)
Definition getInput (g_batchSize : Z) (net_name : string) : outcome (list Z) :=
  if String.eqb net_name "lenet1" then Done [g_batchSize; 1; 28; 28]%Z
  else if String.eqb net_name "ssd-mobilenetv1" then Done [g_batchSize; 3; 300; 300]%Z
  else if String.eqb net_name "resnet50" || String.eqb net_name "googlenet" || String.eqb net_name "vgg16" then
    Done [g_batchSize; 3; 224; 224]%Z
  else if String.eqb net_name "bert" then Done [g_batchSize; 14]%Z
  else Stop (Exited 1).

(** The images of the first lines of the input file; a file that is too short
    gives fewer. *)
Definition readImgData (lines : list string) (batch_size : Z) (v : ClientVars) (data_root_dir : string) :
    outcome (list string) :=
  let imgs := map (fun f => data_root_dir +:+ "/" +:+ f)%string (take (Z.to_nat batch_size) lines) in
  if (g_batchSize v <? 1)%Z then Stop (Exited 1) else Done imgs.
Fixpoint generateTokenIDs (n : nat) (g_batchSize : Z) (task : string) : outcome (list (list Z)) :=
  match n with
  | O => Done []
  | S n' => t ← getInput g_batchSize task; ts ← generateTokenIDs n' g_batchSize task; mret (t :: ts)
  end.

(** [g_inputImgTensor], [g_MNISTData] and [g_tokenData]: how many tensors they
    hold. *)
Record InputData : Type := mkInputs { d_img : nat; d_mnist : nat; d_token : nat }.
Definition readInputData (v : ClientVars) (lines : list string) (root : string) (mnist_size : nat) :
    outcome InputData :=
  imgs ← (if g_useIMG v then readImgData lines (i32 (g_batchSize v * BATCH_BUFFER)) v root else mret []);
  tokens ← (if g_useNLP v then
              generateTokenIDs (Z.to_nat (i32 (g_batchSize v * BATCH_BUFFER))) (g_batchSize v) (g_model v)
            else mret []);
  mret (mkInputs (length imgs) (if g_useMNIST v then mnist_size else 0%nat) (length tokens)).

(** ** The threads

    What was sent (the application, then [int]s) and slept (microseconds), the
    arrays [gp_reqStartTime] and [gp_reqEndTime], how often the clock, [rand] and
    the engine were used, and the static [s_count]. *)
Record Client : Type := mkClient {
  cl_app : option string; cl_sent : list Z; cl_slept : list spec_float;
  gp_reqStartTime : gmap Z Z; gp_reqEndTime : gmap Z Z;
  cl_clock : nat; cl_rand : nat; cl_draws : nat; s_count : Z }.

Definition set_cl_app (x : option string) (c : Client) : Client :=
  mkClient x (cl_sent c) (cl_slept c) (gp_reqStartTime c) (gp_reqEndTime c) (cl_clock c) (cl_rand c) (cl_draws c) (s_count c).
Definition set_cl_sent (x : list Z) (c : Client) : Client :=
  mkClient (cl_app c) x (cl_slept c) (gp_reqStartTime c) (gp_reqEndTime c) (cl_clock c) (cl_rand c) (cl_draws c) (s_count c).
Definition set_cl_slept (x : list spec_float) (c : Client) : Client :=
  mkClient (cl_app c) (cl_sent c) x (gp_reqStartTime c) (gp_reqEndTime c) (cl_clock c) (cl_rand c) (cl_draws c) (s_count c).
Definition set_reqStartTime (x : gmap Z Z) (c : Client) : Client :=
  mkClient (cl_app c) (cl_sent c) (cl_slept c) x (gp_reqEndTime c) (cl_clock c) (cl_rand c) (cl_draws c) (s_count c).
Definition set_reqEndTime (x : gmap Z Z) (c : Client) : Client :=
  mkClient (cl_app c) (cl_sent c) (cl_slept c) (gp_reqStartTime c) x (cl_clock c) (cl_rand c) (cl_draws c) (s_count c).
Definition set_cl_clock (x : nat) (c : Client) : Client :=
  mkClient (cl_app c) (cl_sent c) (cl_slept c) (gp_reqStartTime c) (gp_reqEndTime c) x (cl_rand c) (cl_draws c) (s_count c).
Definition set_cl_rand (x : nat) (c : Client) : Client :=
  mkClient (cl_app c) (cl_sent c) (cl_slept c) (gp_reqStartTime c) (gp_reqEndTime c) (cl_clock c) x (cl_draws c) (s_count c).
Definition set_cl_draws (x : nat) (c : Client) : Client :=
  mkClient (cl_app c) (cl_sent c) (cl_slept c) (gp_reqStartTime c) (gp_reqEndTime c) (cl_clock c) (cl_rand c) x (s_count c).
Definition set_s_count (x : Z) (c : Client) : Client :=
  mkClient (cl_app c) (cl_sent c) (cl_slept c) (gp_reqStartTime c) (gp_reqEndTime c) (cl_clock c) (cl_rand c) (cl_draws c) x.
Definition new_client : Client := mkClient None [] [] ∅ ∅ 0 0 0 0.

Section Client.
(** The [n]-th reading of the clock, value of [std::rand] and draw from
    [uniform_real_distribution(0, 1)]; [log] of the C library. *)
Context (clock : nat -> Z) (rand : nat -> Z) (uniform : nat -> spec_float) (log : spec_float -> spec_float).
Local Abbreviation CM := (M Client).

Definition cl_now : CM Z := c ← get; _ ← put (set_cl_clock (S (cl_clock c)) c); mret (clock (cl_clock c)).
Definition std_rand : CM Z := c ← get; _ ← put (set_cl_rand (S (cl_rand c)) c); mret (rand (cl_rand c)).
Definition send_int (z : Z) : CM unit := modify (fun c => set_cl_sent (cl_sent c ++ [i32 z]) c).

(** [ExpModel::randomExponentialInterval] *)
Definition randomExponentialInterval (mean : spec_float) (nclient : Z) : CM spec_float :=
  c ← get;
  _ ← put (set_cl_draws (S (cl_draws c)) c);
  let _mean := dmul (i2d nclient) mean in
  mret (dmul (fneg (log (fmax (uniform (cl_draws c)) (dlit 1 1000000000)))) _mean).

(** The remainder by the size 0 of an empty trace is undefined. *)
Definition getNextRandMean (rand_rates : list Z) : CM spec_float :=
  c ← get;
  _ ← put (set_s_count (i32 (s_count c + 1)) c);
  if decide (rand_rates = []) then fail Undefined
  else
    let index := (u64 (s_count c) mod Z.of_nat (length rand_rates))%Z in
    rate ← lift (at_index rand_rates index);
    mret (if ltb (i2d rate) (dlit 1 1000) then fzero else ddiv (i2d 1) (i2d rate)).

(** One input: a tensor is chosen at random - its index has to be in range - and
    the task number is sent. *)
Definition send_input (v : ClientVars) (tensors : nat) (i : Z) : CM unit :=
  r ← std_rand;
  let size := i32 (g_batchSize v * BATCH_BUFFER) in
  if (size =? 0)%Z then fail Undefined
  else
    let rand_val := Z.rem r size in
    if ((0 <=? rand_val) && (rand_val <? Z.of_nat tensors))%Z then send_int (i + 1) else fail Undefined.

(** The mean interval after the check for a new rate. *)
Definition next_flux (v : ClientVars) (l_rand_mean : spec_float) (last_flux : Z) : CM (spec_float * Z) :=
  if g_useFlux v then
    t ← cl_now;
    if gtb (ddiv (i2d (u64 (t - last_flux))) (i2d 1000000000)) (i2d FLUX_INTERVAL) then
      l_rand_mean ← (if g_useFluxFile v then getNextRandMean (g_randRate v) else mret l_rand_mean);
      last_flux ← cl_now;
      mret (l_rand_mean, last_flux)
    else mret (l_rand_mean, last_flux)
  else mret (l_rand_mean, last_flux).
Definition wait_time (v : ClientVars) (l_rand_mean : spec_float) : CM spec_float :=
  if String.eqb (g_reqDist v) "exp" then
    rand_mean ← randomExponentialInterval l_rand_mean 1; mret (dmul rand_mean (i2d 1000))
  else if String.eqb (g_reqDist v) "uni" then mret (dmul l_rand_mean (i2d 1000))
  else fail (Exited 1).

Definition send_one (v : ClientVars) (d : InputData) (st : spec_float * Z) (i : Z) : CM (spec_float * Z) :=
  '(l_rand_mean, last_flux) ← next_flux v st.1 st.2;
  wait_milli ← wait_time v l_rand_mean;
  _ ← modify (fun c => set_cl_slept (cl_slept c ++ [dmul wait_milli (i2d 1000)]) c);
  _ ← when (g_useIMG v) (send_input v (d_img d) i);
  _ ← when (g_useMNIST v) (send_input v (d_mnist d) i);
  _ ← when (g_useNLP v) (send_input v (d_token d) i);
  t ← cl_now;
  _ ← modify (fun c => set_reqStartTime (<[i := t]> (gp_reqStartTime c)) c);
  mret (l_rand_mean, last_flux).

Definition num_input (v : ClientVars) : nat :=
  (if g_useIMG v then 1 else 0) + (if g_useMNIST v then 1 else 0) + (if g_useNLP v then 1 else 0).

(** The name goes out in a message of [MAX_REQ_SIZE] bytes, of which those after
    the end of the string are arbitrary. *)
Definition sendRequest (v : ClientVars) (d : InputData) : CM unit :=
  _ ← modify (set_cl_app (Some (substring 0 (Z.to_nat MAX_REQ_SIZE) (g_model v))));
  _ ← send_int (Z.of_nat (num_input v));
  last_flux ← cl_now;
  _ ← for_acc (map Z.of_nat (seq 0 (Z.to_nat (g_numReqs v)))) (g_randMean v, last_flux) (send_one v d);
  mret tt.

(** [recvRequest]: as many answers as there were requests; at the end of the
    stream the task number read is 0. *)
Definition recv_one (v : ClientVars) (replies : list Z) (i : nat) : CM (list Z) :=
  let '(taskID, rest) := match replies with [] => (0%Z, []) | x :: r => (x, r) end in
  t ← cl_now;
  if ((1 <=? taskID) && (taskID <=? g_numReqs v))%Z then
    _ ← modify (fun c => set_reqEndTime (<[(taskID - 1)%Z := t]> (gp_reqEndTime c)) c);
    mret rest
  else fail Undefined.
Definition recvRequest (v : ClientVars) (replies : list Z) : CM unit :=
  _ ← for_acc (seq 0 (Z.to_nat (g_numReqs v))) replies (recv_one v); mret tt.

(** The lines [main] prints: the response time of a request in milliseconds; a
    request without times has arbitrary ones. *)
Definition respond_time (c : Client) (i : Z) : option spec_float :=
  t1 ← gp_reqStartTime c !! i;
  t2 ← gp_reqEndTime c !! i;
  Some (ddiv (i2d (u64 (t2 - t1))) (i2d 1000000)).
Definition client_main (vm : ClientOptions) (trace lines : list string) (root : string) (mnist_size : nat)
    (connected : bool) (replies : list Z) : CM (list (option spec_float)) :=
  v ← lift (setupGlobalVars vm trace);
  d ← lift (readInputData v lines root mnist_size);
  if negb connected then fail (Exited 0)
  else
    _ ← sendRequest v d;
    _ ← recvRequest v replies;
    c ← get;
    mret (map (fun i => respond_time c (Z.of_nat i)) (seq 0 (Z.to_nat (g_numReqs v)))).
End Client.
