(* ===== verification/ClientProps.v ===== *)
(** * Properties of the client: what it sends, that it ends with a response time
    for every request, and that the frontend gives the requests the numbers the
    client gave them. *)
From Stdlib Require Import ZArith SpecFloat String Permutation Lia.
From S2P Require Import Prelude CppFloat CppStd LatencyModel DevPerfModel SchedData SchedUtils SchedBase Json LoadBalancer SelfTuning AppModel AppProps SysState Control GlobalState GlobalSched Pipeline DemoServer PipelineProps MapProps ServiceInv ReplyInv Client.

Section ClientProps.
Context (clock : nat -> Z) (rand : nat -> Z) (uniform : nat -> spec_float) (log : spec_float -> spec_float).
Local Abbreviation send := (sendRequest clock rand uniform log).

(** The words for the first [n] requests of an application with [k] inputs. *)
Definition request_words (k n : nat) : list Z := flat_map (fun i => replicate k (Z.of_nat i + 1)%Z) (seq 0 n).

(** The inputs suffice: every index drawn is in range, the distribution is known
    and a fluctuating rate has a trace. *)
Record inputs_ok (v : ClientVars) (d : InputData) : Prop := mkInputsOk {
  io_batch : (0 < g_batchSize v * BATCH_BUFFER < 2147483648)%Z;
  io_img : g_useIMG v = true -> (g_batchSize v * BATCH_BUFFER <= Z.of_nat (d_img d))%Z;
  io_mnist : g_useMNIST v = true -> (g_batchSize v * BATCH_BUFFER <= Z.of_nat (d_mnist d))%Z;
  io_token : g_useNLP v = true -> (g_batchSize v * BATCH_BUFFER <= Z.of_nat (d_token d))%Z;
  io_dist : g_reqDist v = "exp"%string \/ g_reqDist v = "uni"%string;
  io_trace : g_useFlux v = true -> g_useFluxFile v = true -> g_randRate v <> [];
  io_reqs : (0 <= g_numReqs v < 2147483648)%Z }.

(** What a step of the sending thread leaves alone. *)
Definition sends (zs : list Z) (c c' : Client) : Prop :=
  cl_sent c' = cl_sent c ++ zs /\ gp_reqStartTime c' = gp_reqStartTime c /\ gp_reqEndTime c' = gp_reqEndTime c /\
  cl_app c' = cl_app c.
Lemma sends_nil c : sends [] c c.
Proof. unfold sends. by rewrite app_nil_r. Qed.
Lemma sends_trans zs ws c c1 c2 : sends zs c c1 -> sends ws c1 c2 -> sends (zs ++ ws) c c2.
Proof. intros (H1 & H2 & H3 & H7) (H4 & H5 & H6 & H8). unfold sends. rewrite H4, H1, app_assoc. split_and!; congruence. Qed.

Lemma cl_now_run c : returns (cl_now clock) c (fun _ c' => sends [] c c').
Proof. eapply returns_intro; [reflexivity|]. unfold sends. cbn. by rewrite app_nil_r. Qed.
Lemma next_rate_run v c : g_randRate v <> [] -> returns (getNextRandMean (g_randRate v)) c (fun _ c' => sends [] c c').
Proof.
  intros Hne. unfold getNextRandMean. eapply returns_read; [reflexivity|]. eapply returns_read; [reflexivity|].
  rewrite decide_False by done. set (index := (_ mod _)%Z).
  assert (Hi : (0 <= index < Z.of_nat (length (g_randRate v)))%Z).
  { apply Z.mod_pos_bound. destruct (g_randRate v); [done|cbn; lia]. }
  destruct (lookup_lt_is_Some_2 (g_randRate v) (Z.to_nat index)) as [rate Hr]; [lia|].
  eapply returns_read with (a := rate).
  { unfold at_index. rewrite (proj2 (Z.ltb_ge _ _)) by lia. by rewrite Hr. }
  eapply returns_intro; [reflexivity|]. unfold sends. cbn. by rewrite app_nil_r.
Qed.
Lemma next_flux_run v st c : (g_useFlux v = true -> g_useFluxFile v = true -> g_randRate v <> []) ->
  returns (next_flux clock v st.1 st.2) c (fun _ c' => sends [] c c').
Proof.
  intros Htr. unfold next_flux. destruct (g_useFlux v) eqn:Ef; [|eapply returns_intro; [reflexivity|apply sends_nil]].
  eapply returns_bind; [apply cl_now_run|]. intros t c1 H1. destruct (gtb _ _); [|by eapply returns_intro].
  eapply returns_bind with (Q1 := fun _ c' => sends [] c c').
  - destruct (g_useFluxFile v); [|by eapply returns_intro].
    eapply returns_weaken; [by apply next_rate_run, Htr|]. intros a c2 H2. exact (sends_trans _ _ _ _ _ H1 H2).
  - intros m c2 H2. eapply returns_bind; [apply cl_now_run|]. intros t' c3 H3.
    eapply returns_intro; [reflexivity|]. exact (sends_trans _ _ _ _ _ H2 H3).
Qed.
Lemma wait_time_run v m c : g_reqDist v = "exp"%string \/ g_reqDist v = "uni"%string ->
  returns (wait_time uniform log v m) c (fun _ c' => sends [] c c').
Proof.
  unfold wait_time. intros [-> | ->]; unfold returns; cbn; unfold sends; cbn; by rewrite app_nil_r.
Qed.

Hypothesis rand_nonneg : forall n, (0 <= rand n)%Z.
Lemma send_input_run v d tensors i c : inputs_ok v d -> (g_batchSize v * BATCH_BUFFER <= Z.of_nat tensors)%Z ->
  (0 <= i < 2147483647)%Z -> returns (send_input rand v tensors i) c (fun _ c' => sends [i + 1]%Z c c').
Proof.
  intros [Hb _ _ _ _ _ _] Ht Hi. unfold send_input. eapply returns_read; [reflexivity|].
  rewrite i32_id by (unfold in_i32, INT_MIN, INT_MAX; lia). rewrite (proj2 (Z.eqb_neq _ _)) by lia.
  pose proof (rand_nonneg (cl_rand c)) as Hr.
  pose proof (Z.rem_bound_pos (rand (cl_rand c)) (g_batchSize v * BATCH_BUFFER) Hr ltac:(lia)).
  rewrite (proj2 (Z.leb_le _ _)), (proj2 (Z.ltb_lt _ _)) by lia. cbn [andb].
  eapply returns_intro; [reflexivity|]. unfold sends. cbn. rewrite i32_id by (unfold in_i32, INT_MIN, INT_MAX; lia). done.
Qed.
Lemma send_kind_run (b : bool) v d tensors i c : inputs_ok v d -> (b = true -> (g_batchSize v * BATCH_BUFFER <= Z.of_nat tensors)%Z) ->
  (0 <= i < 2147483647)%Z ->
  returns (when b (send_input rand v tensors i)) c (fun _ c' => sends (replicate (if b then 1 else 0) (i + 1)%Z) c c').
Proof.
  intros Hio Ht Hi. destruct b; cbn [when]; [by apply (send_input_run v d); auto|].
  eapply returns_intro; [reflexivity|apply sends_nil].
Qed.

(** One request: a word per input, and its start time. *)
Lemma send_one_run v d st i c : inputs_ok v d -> (0 <= i < 2147483647)%Z ->
  returns (send_one clock rand uniform log v d st i) c (fun _ c' =>
    cl_sent c' = cl_sent c ++ replicate (num_input v) (i + 1)%Z /\
    (exists t, gp_reqStartTime c' = <[i := t]> (gp_reqStartTime c)) /\ gp_reqEndTime c' = gp_reqEndTime c /\
    cl_app c' = cl_app c).
Proof.
  intros Hio Hi. pose proof Hio as [_ Himg Hmn Htk Hd Htr _]. unfold send_one.
  eapply returns_bind; [by apply next_flux_run|]. intros [m lf] c1 H1.
  eapply returns_bind; [by apply wait_time_run|]. intros w c2 H2.
  eapply returns_read; [reflexivity|]. set (c3 := set_cl_slept _ c2).
  assert (H3 : sends [] c c3) by exact (sends_trans _ _ _ _ _ H1 H2).
  eapply returns_bind; [by apply (send_kind_run _ v d)|]. intros u4 c4 H4.
  eapply returns_bind; [by apply (send_kind_run _ v d)|]. intros u5 c5 H5.
  eapply returns_bind; [by apply (send_kind_run _ v d)|]. intros u6 c6 H6.
  eapply returns_bind; [apply cl_now_run|]. intros t c7 H7.
  eapply returns_read; [reflexivity|]. eapply returns_intro; [reflexivity|].
  assert (H : sends (replicate (num_input v) (i + 1)%Z) c c7).
  { unfold num_input. rewrite !replicate_add.
    pose proof (sends_trans _ _ _ _ _ (sends_trans _ _ _ _ _ (sends_trans _ _ _ _ _ (sends_trans _ _ _ _ _ H3 H4) H5) H6) H7) as H.
    by rewrite app_nil_r in H. }
  destruct H as (Hs & Hst & He & Ha). cbn. split; [done|]. split; [|done]. exists t. by rewrite Hst.
Qed.

Lemma request_words_snoc k n : request_words k (S n) = request_words k n ++ replicate k (Z.of_nat n + 1)%Z.
Proof. unfold request_words. rewrite seq_S, flat_map_app. cbn. by rewrite app_nil_r. Qed.

(** After [j] requests. *)
Definition sent_upto (v : ClientVars) (c0 : Client) (j : nat) (c : Client) : Prop :=
  cl_sent c = cl_sent c0 ++ [Z.of_nat (num_input v)] ++ request_words (num_input v) j /\
  (forall i, (i < j)%nat -> is_Some (gp_reqStartTime c !! Z.of_nat i)) /\
  cl_app c = Some (substring 0 (Z.to_nat MAX_REQ_SIZE) (g_model v)).
Lemma send_run v d c : inputs_ok v d ->
  returns (send v d) c (fun _ c' => sent_upto v c (Z.to_nat (g_numReqs v)) c').
Proof.
  intros Hio. pose proof Hio as [_ _ _ _ _ _ Hn]. unfold sendRequest.
  eapply returns_read; [reflexivity|]. eapply returns_read; [reflexivity|].
  eapply returns_bind; [apply cl_now_run|]. intros lf c1 (H1 & H2 & H3 & H4).
  eapply returns_bind; [|intros r c2 H; eapply returns_intro; [reflexivity|exact H]].
  apply (returns_for_acc_seq (fun j _ c' => sent_upto v c j c') Z.of_nat 0).
  - intros j st c2 Hj (Hs & Hst & He). eapply returns_weaken; [apply (send_one_run v d st (Z.of_nat j) c2 Hio); lia|].
    intros _ c3 (Hs3 & (t & Ht) & _ & He3). unfold sent_upto. rewrite Hs3, Hs, request_words_snoc, <- !app_assoc.
    split; [done|]. split; [|congruence]. intros i Hi. rewrite Ht. destruct (decide (i = j)) as [->|Hne].
    + rewrite lookup_insert_eq. eauto.
    + rewrite lookup_insert_ne by lia. apply Hst. lia.
  - unfold sent_upto. rewrite H1, app_nil_r. cbn. split; [|split; [lia|exact H4]].
    rewrite i32_id; [done|]. unfold in_i32, INT_MIN, INT_MAX, num_input.
    destruct (g_useIMG v), (g_useMNIST v), (g_useNLP v); cbn; lia.
Qed.

(** Answers that cover every request fill in every end time. *)
Definition answered (v : ClientVars) (all rest : list Z) (c : Client) : Prop :=
  exists done, all = done ++ rest /\ forall x, x ∈ done -> is_Some (gp_reqEndTime c !! (x - 1)%Z).
Lemma recv_run v replies c : (0 <= g_numReqs v)%Z -> length replies = Z.to_nat (g_numReqs v) ->
  Forall (fun x => (1 <= x <= g_numReqs v)%Z) replies ->
  returns (recvRequest clock v replies) c (fun _ c' =>
    (forall x, x ∈ replies -> is_Some (gp_reqEndTime c' !! (x - 1)%Z)) /\
    gp_reqStartTime c' = gp_reqStartTime c /\ cl_sent c' = cl_sent c).
Proof.
  intros Hn Hlen Hall. unfold recvRequest.
  set (P := fun (j : nat) (rest : list Z) (c' : Client) => rest = drop j replies /\
    (forall x, x ∈ take j replies -> is_Some (gp_reqEndTime c' !! (x - 1)%Z)) /\
    gp_reqStartTime c' = gp_reqStartTime c /\ cl_sent c' = cl_sent c).
  eapply returns_bind with (Q1 := P (Z.to_nat (g_numReqs v))).
  - rewrite <- (map_id (seq 0 _)). apply (returns_for_acc_seq P (fun j => j) 0).
    + intros j rest c1 Hj (-> & Hdone & Hst & Hs). destruct (lookup_lt_is_Some_2 replies j) as [x Hx]; [lia|].
      rewrite (drop_S _ _ _ Hx). unfold recv_one.
      eapply returns_bind; [apply cl_now_run|]. intros t c2 (Hc1 & Hc2 & Hc3 & _).
      assert (Hr : (1 <= x <= g_numReqs v)%Z) by (rewrite Forall_forall in Hall; apply Hall; by eapply list_elem_of_lookup_2).
      rewrite (proj2 (Z.leb_le _ _)), (proj2 (Z.leb_le _ _)) by lia. cbn [andb].
      eapply returns_read; [reflexivity|]. eapply returns_intro; [reflexivity|]. unfold P. cbn.
      split; [done|]. split; [|split; [congruence|rewrite Hc1, app_nil_r; congruence]].
      intros y Hy. rewrite (take_S_r _ _ _ Hx) in Hy. rewrite Hc3. apply elem_of_app in Hy as [Hy|Hy].
      * destruct (decide (y = x)) as [->|Hne]; [rewrite lookup_insert_eq; eauto|].
        rewrite lookup_insert_ne by lia. by apply Hdone.
      * apply list_elem_of_singleton in Hy as ->. rewrite lookup_insert_eq. eauto.
    + split; [done|]. split; [|done]. intros x Hx. by apply elem_of_nil in Hx.
  - intros rest c' (_ & Hd & Hst & Hs). eapply returns_intro; [reflexivity|]. split_and!; [|done|done].
    intros x Hx. apply Hd. by rewrite take_ge by lia.
Qed.

(** C15: the client reports a response time for every request.  With inputs for
    every index it may draw and a known distribution, and when the answers are
    the numbers of the requests in any order, [main] returns with one time per
    request; it sent the number of inputs of its application and then, for
    request after request, one word per input that carries the number of the
    request, counting from 1. *)
Theorem client_main_reports vm trace lines root mnist replies v d :
  setupGlobalVars vm trace = Done v -> readInputData v lines root mnist = Done d -> inputs_ok v d ->
  replies ≡ₚ map (fun i => Z.of_nat i + 1)%Z (seq 0 (Z.to_nat (g_numReqs v))) ->
  returns (client_main clock rand uniform log vm trace lines root mnist true replies) new_client (fun times c =>
    cl_sent c = Z.of_nat (num_input v) :: request_words (num_input v) (Z.to_nat (g_numReqs v)) /\
    length times = Z.to_nat (g_numReqs v) /\ Forall is_Some times).
Proof.
  intros Hv Hd Hio Hr. pose proof (io_reqs _ _ Hio) as Hn. unfold client_main.
  eapply returns_read; [by rewrite Hv|]. eapply returns_read; [by rewrite Hd|]. cbn [negb].
  eapply returns_bind; [by apply send_run|]. intros u c1 (Hs1 & Hst1 & _).
  eapply returns_bind; [apply recv_run|].
  - lia.
  - by rewrite Hr, length_map, length_seq.
  - rewrite Hr. apply Forall_map, Forall_forall. intros i Hi%elem_of_seq. lia.
  - intros u2 c2 (He & Hst & Hs). eapply returns_read; [reflexivity|]. eapply returns_intro; [reflexivity|].
    split; [by rewrite Hs, Hs1|]. split; [by rewrite length_map, length_seq|].
    apply Forall_map, Forall_forall. intros i Hi%elem_of_seq. unfold respond_time. rewrite Hst.
    destruct (Hst1 i) as [t1 ->]; [lia|]. destruct (He (Z.of_nat i + 1)%Z) as [t2 Ht2].
    { rewrite Hr. apply list_elem_of_fmap. exists i. split; [done|]. apply elem_of_seq. lia. }
    replace (Z.of_nat i + 1 - 1)%Z with (Z.of_nat i) in Ht2 by lia. rewrite Ht2. cbn. eauto.
Qed.
End ClientProps.

(** ** The frontend takes the numbers over *)
Section Served.
Context {Tensor : Type} `{!Torch Tensor}.
Context (clock : nat -> Z).
Local Abbreviation St := (Service Tensor).

(** Steps that leave applications, requests, mutexes and specifications alone. *)
Definition idle (s s' : St) : Prop :=
  se_apps s' = se_apps s /\ se_reqs s' = se_reqs s /\ ReqMtxVec s' = ReqMtxVec s /\
  AppSpecVec (mon s') = AppSpecVec (mon s).
Lemma idle_trans s1 s2 s3 : idle s1 s2 -> idle s2 s3 -> idle s1 s3.
Proof. unfold idle. intuition congruence. Qed.
Lemma now_run (s : St) : exists t s', now clock s = Done (t, s') /\ idle s s'.
Proof. do 2 eexists. split; [reflexivity|done]. Qed.
Lemma wr_last r f l x (s : St) : r = length l -> se_reqs s = l ++ [x] ->
  wr_req r f s = Done (tt, set_se_reqs (l ++ [f x]) s).
Proof.
  intros -> Hs. unfold wr_req. mred. rewrite Hs, list_lookup_middle by done. cbn.
  by rewrite insert_app_r_alt, Nat.sub_diag by done.
Qed.
Lemma stamp_last r st l x (s : St) : r = length l -> se_reqs s = l ++ [x] ->
  exists t s', stamp clock r st s = Done (tt, set_se_reqs (l ++ [set_time st t x]) s') /\ idle s s'.
Proof.
  intros Hr Hs. destruct (now_run s) as (t & s1 & Hn & Hi). exists t, s1. split; [|done].
  unfold stamp. rewrite (bind_done _ _ _ t s1) by done. apply wr_last; [done|]. destruct Hi as (_ & -> & _). done.
Qed.

(** A request is made for the instance [a] and queued. *)
Lemma addtoModelQueue_run name t cgid a app (s : St) : se_apps s !! a = Some app -> name ∈ ReqMtxVec s ->
  (Z.of_nat (String.length name) < MAX_REQ_SIZE)%Z ->
  returns (addtoModelQueue clock name t cgid a) s (fun _ s' => exists r,
    se_reqs s' = se_reqs s ++ [r] /\ mTaskID r = ai_taskID app /\ _task r = Some a /\
    se_apps s' = se_apps s /\ ReqMtxVec s' = ReqMtxVec s /\ AppSpecVec (mon s') = AppSpecVec (mon s)).
Proof.
  intros Ha Hm Hlen. unfold addtoModelQueue.
  eapply returns_read with (s' := s); [unfold rd_app; mred; by rewrite Ha|].
  eapply returns_read; [apply p_monitor_run|].
  eapply returns_bind with (Q1 := fun _ s' => idle s s').
  { destruct (negb _ && _); cbn [when]; [|by eapply returns_intro].
    destruct (p_mod_monitor_run (incPerModelCnt name) s) as (s1 & E & Hmon & Hb & Hr & Happ).
    eapply returns_intro; [exact E|]. injection E as <-. done. }
  intros _ s1 H1. eapply returns_read; [reflexivity|]. cbv zeta. eapply returns_read; [reflexivity|].
  eapply returns_read; [reflexivity|]. 
  match goal with |- returns _ ?st _ => set (s2 := st) end. assert (H2 : idle s s2) by exact H1.
  match goal with |- context [new_req ?x] => set (x0 := x) end. clearbody x0. clearbody s2. clear H1 s1.
  eapply returns_read; [reflexivity|]. set (s3 := set_se_reqs (se_reqs s2 ++ [x0]) s2).
  destruct (stamp_last (length (se_reqs s2)) Start (se_reqs s2) x0 s3 eq_refl eq_refl) as (tm & s4 & E4 & H4).
  eapply returns_read; [exact E4|].
  eapply returns_read; [apply (wr_last _ _ (se_reqs s2) (set_time Start tm x0)); done|].
  cbv beta. set (x1 := pushInputData t (setCGID cgid (setupAppInstance a (set_mTaskID (ai_taskID app) (set_time Start tm x0))))).
  eapply returns_read with (a := x1); [unfold rd_req; mred; by rewrite list_lookup_middle|].
  eapply returns_read with (a := set_mReqName name x1).
  { unfold setReqName. by rewrite (proj2 (Z.ltb_lt _ _)). }
  eapply returns_read; [apply (wr_last _ _ (se_reqs s2) x1); done|]. cbv beta.
  unfold push_request.
  eapply returns_bind with (Q1 := fun _ s' => se_reqs s' = se_reqs s2 ++ [set_mReqName name x1] /\
    se_apps s' = se_apps s4 /\ ReqMtxVec s' = ReqMtxVec s4 /\ AppSpecVec (mon s') = AppSpecVec (mon s4)).
  { destruct H4 as (_ & _ & Hmtx & _). destruct H2 as (_ & _ & Hmtx2 & _).
    eapply returns_read.
    - unfold has_mutex. mred. rewrite Hmtx. cbn. rewrite Hmtx2. rewrite decide_True by done. reflexivity.
    - eapply returns_intro; [reflexivity|]. done. }
  intros _ s5 (H5 & H6 & H7 & H8). eapply returns_intro; [reflexivity|].
  destruct H2 as (Ha2 & Hr2 & Hm2 & Hs2). destruct H4 as (Ha4 & _ & Hm4 & Hs4).
  exists (set_mReqName name x1). cbn -[x1]. rewrite H5, H6, H7.
  split; [by rewrite Hr2|]. split; [done|]. split; [done|]. split; [rewrite Ha4; exact Ha2|].
  split; [rewrite Hm4; exact Hm2|]. transitivity (AppSpecVec (mon s5)); [done|]. rewrite H8, Hs4. exact Hs2.
Qed.

(** An application whose inputs all lead to models with a queue. *)
Definition input_served (mtx : gset string) (sp : AppSpec) (ts : TensorSpec) : Prop :=
  exists dsts, getNextDsts (ts_id ts) sp = Done dsts /\
    Forall (fun d => exists name, AppModel.getModelName d sp = Done name /\ name ∈ mtx /\
      (Z.of_nat (String.length name) < MAX_REQ_SIZE)%Z) dsts.

(** During the round of instance [a], opened in state [s0] on connection [sock]:
    its requests carry the number [x]. *)
Record Fed (s0 : St) (a ptr : nat) (sock x : Z) (s : St) : Prop := mkFed {
  fed_len : length (se_apps s) = length (se_apps s0);
  fed_others : forall b, b <> a -> se_apps s !! b = se_apps s0 !! b;
  fed_app : exists app, se_apps s !! a = Some app /\ ai_fd app = sock /\ _pAppSpec app = ptr;
  fed_reqs : exists new, se_reqs s = se_reqs s0 ++ new /\ Forall (fun r => mTaskID r = x /\ _task r = Some a) new;
  fed_mtx : ReqMtxVec s = ReqMtxVec s0;
  fed_specs : AppSpecVec (mon s) = AppSpecVec (mon s0) }.
Definition has_id (a : nat) (x : Z) (s : St) : Prop := ai_taskID <$> se_apps s !! a = Some x.

Lemma fed_idle s0 a ptr sock x s s' : Fed s0 a ptr sock x s -> idle s s' -> Fed s0 a ptr sock x s'.
Proof. intros [H1 H2 H3 H4 H5 H6] (Ha & Hr & Hm & Hs). split; rewrite ?Ha, ?Hr, ?Hm, ?Hs; done. Qed.
Lemma fed_wr_app s0 a ptr sock x f s : (forall y, ai_fd (f y) = ai_fd y /\ _pAppSpec (f y) = _pAppSpec y) ->
  Fed s0 a ptr sock x s ->
  returns (wr_app a f) s (fun _ s' => Fed s0 a ptr sock x s' /\ forall y, se_apps s !! a = Some y -> se_apps s' !! a = Some (f y)).
Proof.
  intros Hf [H1 H2 (app & Ha & Hfd & Hp) H4 H5 H6]. unfold wr_app.
  eapply returns_read; [reflexivity|]. eapply returns_read; [by rewrite Ha|]. eapply returns_intro; [reflexivity|].
  assert (Hlt : (a < length (se_apps s))%nat) by (by eapply lookup_lt_Some). split.
  - split; try done; cbn.
    + by rewrite length_insert.
    + intros b Hb. rewrite list_lookup_insert_ne by done. auto.
    + exists (f app). rewrite list_lookup_insert_eq by done. destruct (Hf app) as [-> ->]. done.
  - intros y Hy. cbn. rewrite list_lookup_insert_eq by done. by rewrite Ha in Hy; injection Hy as ->.
Qed.

Lemma app_spec_run s0 a ptr sock x sp s : Fed s0 a ptr sock x s -> AppSpecVec (mon s0) !! ptr = Some sp ->
  app_spec a s = Done (sp, s).
Proof.
  intros [_ _ (app & Ha & _ & Hp) _ _ Hs] Hsp. unfold app_spec.
  rewrite (bind_done _ _ _ app s) by (unfold rd_app; mred; by rewrite Ha).
  rewrite (bind_done _ _ _ (mon s) s) by apply p_monitor_run. by rewrite Hs, Hp, Hsp.
Qed.

(** One input: its word becomes the number of the instance and of the requests
    made for the models it leads to. *)
Lemma recvTensor_run s0 a ptr sock x sp ts stream isLast isFirst s :
  Fed s0 a ptr sock x s -> AppSpecVec (mon s0) !! ptr = Some sp -> input_served (ReqMtxVec s0) sp ts -> (0 < x)%Z ->
  returns (recvTensor clock (x :: stream) a ts isLast isFirst) s (fun r s' =>
    r = (EXIT_SUCCESS, stream) /\ Fed s0 a ptr sock x s' /\ has_id a x s').
Proof.
  intros Hfed Hsp (dsts & Hd & Hall) Hx. unfold recvTensor. cbv zeta.
  eapply returns_bind with (Q1 := fun _ s' => Fed s0 a ptr sock x s').
  { destruct isFirst; cbn [when]; [|by eapply returns_intro].
    destruct (now_run s) as (t & s1 & E & Hi). eapply returns_read; [exact E|].
    eapply returns_weaken; [apply fed_wr_app; [done|by eapply fed_idle]|]. by intros _ s2 [H _]. }
  intros _ s1 H1. rewrite (proj2 (Z.leb_gt _ _)) by done.
  eapply returns_bind; [apply (fed_wr_app s0 a ptr sock x (set_taskID x)); [done|exact H1]|]. intros _ s2 [H2 Hid].
  assert (Hid2 : has_id a x s2).
  { destruct (fed_app _ _ _ _ _ _ H1) as (y & Hy & _). unfold has_id. by rewrite (Hid y Hy). }
  eapply returns_read; [by eapply app_spec_run|]. eapply returns_read; [by rewrite Hd|].
  eapply returns_bind with (Q1 := fun _ s' => Fed s0 a ptr sock x s' /\ has_id a x s').
  - apply (returns_for_each (fun _ s' => Fed s0 a ptr sock x s' /\ has_id a x s')); [|done].
    intros pre d s3 Hin [H3 Hid3]. rewrite Forall_forall in Hall. destruct (Hall d Hin) as (name & Hn & Hm & Hl).
    eapply returns_read; [by eapply app_spec_run|]. eapply returns_read; [by rewrite Hn|].
    pose proof H3 as [HA HB (app & Happ & Hfd & Hp) (new & Hnew & Hallnew) HE HF].
    eapply returns_weaken; [apply (addtoModelQueue_run name t_ones d a app s3 Happ); [by rewrite HE|done]|].
    intros _ s4 (r & Hr & Htid & Htask & Happs & Hmtx & Hspec). split.
    + split; rewrite ?Happs, ?Hmtx, ?Hspec; eauto.
      exists (new ++ [r]). rewrite Hr, Hnew, app_assoc. split; [done|]. apply Forall_app. split; [done|].
      constructor; [|done]. split; [|done]. unfold has_id in Hid3. rewrite Happ in Hid3. injection Hid3 as <-. exact Htid.
    + unfold has_id. by rewrite Happs.
  - intros _ s3 [H3 Hid3]. eapply returns_bind with (Q1 := fun _ s' => Fed s0 a ptr sock x s' /\ has_id a x s').
    + destruct isLast; cbn [when]; [|by eapply returns_intro].
      destruct (now_run s3) as (t & s4 & E & Hi). eapply returns_read; [exact E|].
      eapply returns_weaken; [apply fed_wr_app; [done|by eapply fed_idle]|].
      intros _ s5 [H5 Hy]. split; [done|]. destruct Hi as (Ha & _). unfold has_id in *. rewrite Ha in Hy.
      destruct (se_apps s3 !! a) as [y|] eqn:Ey; [|done]. rewrite (Hy y eq_refl). exact Hid3.
    + intros _ s4 H4. eapply returns_intro; [reflexivity|]. by split.
Qed.

(** The inputs of a round. *)
Lemma inputs_run s0 a ptr sock x sp l n rest s :
  Fed s0 a ptr sock x s -> AppSpecVec (mon s0) !! ptr = Some sp -> (0 < x)%Z ->
  Forall (fun e => input_served (ReqMtxVec s0) sp e.2) l -> (l = [] -> has_id a x s) ->
  returns (for_acc_ret l (replicate (length l) x ++ rest) (fun stream e =>
    '(failed, stream) ← recvTensor clock stream a e.2 (e.1 =? n - 1)%nat (e.1 =? 0)%nat;
    mret (if (failed : bool) then inr tt else inl stream))) s (fun r s' =>
    r = inl rest /\ Fed s0 a ptr sock x s' /\ has_id a x s').
Proof.
  intros Hfed Hsp Hx. revert s Hfed. induction l as [|e l IH]; intros s Hfed Hall Hid; cbn [length replicate app for_acc_ret].
  - eapply returns_intro; [reflexivity|]. split; [done|]. split; [done|]. by apply Hid.
  - apply Forall_cons in Hall as [He Hall].
    eapply returns_bind with (Q1 := fun r s' => r = inl (replicate (length l) x ++ rest) /\ Fed s0 a ptr sock x s' /\ has_id a x s').
    + eapply returns_bind; [by eapply recvTensor_run|]. intros r s1 (-> & H1 & H2). by eapply returns_intro.
    + intros r s1 (-> & H1 & H2). by apply IH.
Qed.

(** What one round adds: an instance with number [x] on connection [sock] and its
    requests. *)
Record Round (sock x : Z) (s s' : St) : Prop := mkRound {
  rnd_apps : exists app, ai_taskID app = x /\ ai_fd app = sock /\ se_apps s' = se_apps s ++ [app];
  rnd_reqs : exists new, se_reqs s' = se_reqs s ++ new /\
    Forall (fun r => mTaskID r = x /\ _task r = Some (length (se_apps s))) new;
  rnd_mtx : ReqMtxVec s' = ReqMtxVec s;
  rnd_specs : AppSpecVec (mon s') = AppSpecVec (mon s) }.

Lemma fed_round s s1 a ptr sock x s' app0 : a = length (se_apps s) -> se_apps s1 = se_apps s ++ [app0] ->
  se_reqs s1 = se_reqs s -> ReqMtxVec s1 = ReqMtxVec s -> AppSpecVec (mon s1) = AppSpecVec (mon s) ->
  Fed s1 a ptr sock x s' -> has_id a x s' -> Round sock x s s'.
Proof.
  intros -> Ha Hr Hm Hs [Hlen Hoth (app & Happ & Hfd & Hp) (new & Hnew & Hall) Hm' Hs'] Hid.
  split; [| |congruence|congruence].
  - exists app. unfold has_id in Hid. rewrite Happ in Hid. injection Hid as Hid. split; [done|]. split; [done|].
    apply list_eq. intros i. destruct (decide (i = length (se_apps s))) as [->|Hne].
    + by rewrite Happ, list_lookup_middle.
    + rewrite (Hoth i Hne), Ha. destruct (decide (i < length (se_apps s))%nat).
      * by rewrite !lookup_app_l.
      * rewrite !lookup_app_r by lia. destruct (i - length (se_apps s))%nat eqn:E; [lia|done].
  - exists new. by rewrite Hnew, Hr.
Qed.

Lemma handle_round_run sock name ptr sp x rest s : AppSpecVec (mon s) !! ptr = Some sp -> (0 < x)%Z ->
  inputTensors sp <> [] -> Forall (input_served (ReqMtxVec s) sp) (inputTensors sp) ->
  returns (handle_round clock sock name ptr (replicate (length (inputTensors sp)) x ++ rest)) s (fun r s' =>
    r = inl rest /\ Round sock x s s').
Proof.
  intros Hsp Hx Hne Hall. unfold handle_round.
  eapply returns_read; [apply p_monitor_run|]. eapply returns_read; [by rewrite Hsp|].
  eapply returns_read; [reflexivity|]. eapply returns_read; [reflexivity|].
  set (app0 := setSocketFD _ _). set (s1 := set_se_apps (se_apps s ++ [app0]) s).
  assert (Hfed : Fed s1 (length (se_apps s)) ptr sock x s1).
  { split; try done.
    - exists app0. split; [by apply list_lookup_middle|done].
    - exists []. by rewrite app_nil_r. }
  assert (Hlen : length (imap (@Datatypes.pair nat TensorSpec) (inputTensors sp)) = length (inputTensors sp)) by apply length_imap.
  rewrite <- Hlen at 1.
  eapply returns_bind.
  - apply (inputs_run s1 (length (se_apps s)) ptr sock x sp); [exact Hfed|exact Hsp|done| |].
    + apply Forall_forall. intros [i ts] Hin. apply elem_of_lookup_imap in Hin as (j & y & [= <- ->] & Hy).
      rewrite Forall_forall in Hall. apply Hall. by eapply list_elem_of_lookup_2.
    + intros Hnil. rewrite Hnil in Hlen. by destruct (inputTensors sp).
  - intros r s2 (-> & H2 & Hid). destruct (now_run s2) as (t & s3 & E3 & Hi).
    eapply returns_bind with (Q1 := fun _ s' => Fed s1 (length (se_apps s)) ptr sock x s' /\ has_id (length (se_apps s)) x s').
    + eapply returns_read; [exact E3|]. eapply returns_weaken; [apply fed_wr_app; [done|by eapply fed_idle]|].
      intros _ s4 [H4 Hy]. split; [done|]. destruct Hi as (Ha & _). unfold has_id in *. rewrite Ha in Hy.
      destruct (se_apps s2 !! _) as [y|] eqn:Ey; [|done]. rewrite (Hy y eq_refl). exact Hid.
    + intros _ s4 [H4 Hid4]. eapply returns_intro; [reflexivity|]. split; [done|].
      by eapply (fed_round s s1); [..|exact H4|exact Hid4].
Qed.

(** The round that meets the end of the stream leaves the connection. *)
Lemma last_round_run sock name ptr sp s : AppSpecVec (mon s) !! ptr = Some sp -> inputTensors sp <> [] ->
  returns (handle_round clock sock name ptr []) s (fun r s' =>
    r = inr tt /\ se_reqs s' = se_reqs s /\ exists app, se_apps s' = se_apps s ++ [app]).
Proof.
  intros Hsp Hne. unfold handle_round.
  eapply returns_read; [apply p_monitor_run|]. eapply returns_read; [by rewrite Hsp|].
  eapply returns_read; [reflexivity|]. eapply returns_read; [reflexivity|].
  set (app0 := setSocketFD _ _). set (s1 := set_se_apps (se_apps s ++ [app0]) s).
  destruct (inputTensors sp) as [|ts l]; [done|]. cbn [imap for_acc_ret fst snd].
  destruct (now_run s1) as (t & s2 & E2 & Ha & Hr & Hm & Hs).
  set (s3 := set_se_apps (se_apps s ++ [set_start t app0]) s2).
  assert (Hrecv : forall isLast, recvTensor clock [] (length (se_apps s)) ts isLast true s1 = Done ((EXIT_FAILURE, []), s3)).
  { intros isLast. unfold recvTensor. cbv zeta. cbn [when].
    rewrite (bind_done _ _ _ tt s3); [done|]. rewrite (bind_done _ _ _ t s2) by done.
    unfold wr_app. mred. rewrite Ha. cbn. rewrite list_lookup_middle by done. cbn.
    by rewrite insert_app_r_alt, Nat.sub_diag by done. }
  eapply returns_read.
  { rewrite (bind_done _ _ _ (inr tt) s3); [reflexivity|].
    rewrite (bind_done _ _ _ (EXIT_FAILURE, []) s3) by apply Hrecv. reflexivity. }
  eapply returns_intro; [reflexivity|]. split; [done|]. split; [by cbn; rewrite Hr|]. by exists (set_start t app0).
Qed.

(** [n] instances with consecutive numbers, the first [k]. *)
Definition served_from (k : nat) (sock : Z) (n : nat) (s s' : St) : Prop :=
  exists apps news last, se_apps s' = se_apps s ++ apps ++ [last] /\ length apps = n /\
    (forall i app, apps !! i = Some app -> ai_taskID app = (Z.of_nat (k + i) + 1)%Z /\ ai_fd app = sock) /\
    se_reqs s' = se_reqs s ++ concat news /\ length news = n /\
    forall i rs, news !! i = Some rs ->
      Forall (fun r => mTaskID r = (Z.of_nat (k + i) + 1)%Z /\ _task r = Some (length (se_apps s) + i)%nat) rs.

Lemma rounds_run sock name ptr sp n : forall k fuel s,
  AppSpecVec (mon s) !! ptr = Some sp -> inputTensors sp <> [] ->
  Forall (input_served (ReqMtxVec s) sp) (inputTensors sp) -> (n < fuel)%nat ->
  returns (loop fuel (flat_map (fun i => replicate (length (inputTensors sp)) (Z.of_nat i + 1)%Z) (seq k n))
    (handle_round clock sock name ptr)) s (fun _ s' => served_from k sock n s s').
Proof.
  induction n as [|n IH]; intros k fuel s Hsp Hne Hall Hfuel; (destruct fuel as [|fuel]; [lia|]); cbn [seq flat_map loop].
  - eapply returns_bind; [by apply (last_round_run sock name ptr sp)|]. intros r s1 (-> & Hr & app & Happ).
    eapply returns_intro; [reflexivity|]. exists [], [], app. split; [done|]. split; [done|]. split; [by intros i a ?|].
    split; [by rewrite Hr, app_nil_r|]. split; [done|]. by intros i rs ?.
  - eapply returns_bind; [apply (handle_round_run sock name ptr sp (Z.of_nat k + 1)); [done|lia|done|done]|].
    intros r s1 (-> & [(app & Hid & Hfd & Happ) (new & Hnew & Hnews) Hmtx Hspecs]).
    eapply returns_weaken; [apply (IH (S k) fuel s1); [by rewrite Hspecs|done|by rewrite Hmtx|lia]|].
    intros _ s2 (apps & news & last & H1 & H2 & H3 & H4 & H5 & H6).
    exists (app :: apps), (new :: news), last. split; [by rewrite H1, Happ, <- !app_assoc|]. split; [cbn; lia|].
    split; [|split; [by rewrite H4, Hnew, <- app_assoc|split; [cbn; lia|]]].
    + intros [|i] a Ha; cbn in Ha; [injection Ha as <-; by rewrite Nat.add_0_r|].
      replace (k + S i)%nat with (S k + i)%nat by lia. by apply H3.
    + intros [|i] rs Hrs; cbn in Hrs; [injection Hrs as <-; by rewrite !Nat.add_0_r|].
      replace (k + S i)%nat with (S k + i)%nat by lia. specialize (H6 i rs Hrs).
      rewrite Happ, length_app in H6. cbn in H6.
      eapply Forall_impl; [exact H6|]. intros r [-> ->]. split; [done|]. f_equal. lia.
Qed.
End Served.

Lemma substring_all s n : (String.length s <= n)%nat -> substring 0 n s = s.
Proof. revert n. induction s as [|c s IH]; intros [|n] H; cbn in *; try lia; [done..|]. by rewrite IH by lia. Qed.

(** C14: the frontend numbers the requests as the client does.  What the client's
    sending thread writes for [n] requests, read by the frontend's thread for an
    application with as many inputs, opens [n] instances on the connection and one
    more that is given up at the end of the stream: the instance opened in round
    [i] gets the number [i + 1], and so do all requests queued for its models. *)
Theorem client_requests_served {Tensor : Type} `{!Torch Tensor} clock rand uniform log clock' fuel sock v d
    (s : Service Tensor) ptr sp :
  (forall n, (0 <= rand n)%Z) -> inputs_ok v d -> (Z.of_nat (String.length (g_model v)) < MAX_REQ_SIZE)%Z ->
  find_spec (g_model v) (AppSpecVec (mon s)) = Some ptr -> AppSpecVec (mon s) !! ptr = Some sp ->
  num_input v = length (inputTensors sp) -> inputTensors sp <> [] ->
  Forall (input_served (ReqMtxVec s) sp) (inputTensors sp) -> (Z.to_nat (g_numReqs v) < fuel)%nat ->
  returns (sendRequest clock rand uniform log v d) new_client (fun _ c =>
    exists name words, cl_app c = Some name /\ cl_sent c = Z.of_nat (num_input v) :: words /\
      returns (handleRequest clock' fuel sock name words) s (fun _ s' =>
        served_from 0 sock (Z.to_nat (g_numReqs v)) s s')).
Proof.
  intros Hrand Hio Hlen Hfind Hsp Hk Hne Hall Hfuel.
  eapply returns_weaken; [by apply (send_run clock rand uniform log Hrand v d)|]. intros _ c (Hs & _ & Ha).
  exists (g_model v), (request_words (num_input v) (Z.to_nat (g_numReqs v))).
  split; [rewrite Ha; f_equal; apply substring_all; lia|]. split; [done|].
  unfold handleRequest. eapply returns_read; [apply p_monitor_run|]. rewrite Hfind, Hk.
  by apply (rounds_run clock' sock (g_model v) ptr sp).
Qed.

(** ** Witnesses: the game application, with an image and a digit per request *)
#[local] Existing Instance rows_torch.
Definition demo_options : ClientOptions :=
  mkOptions "game" 8080 "localhost" 1 3 100 false "uni" false "no_file".
Definition demo_vars : ClientVars :=
  match setupGlobalVars demo_options [] with Done v => v | Stop _ => mkVars false 0 fzero "" false false [] 0 "" 0 false false false 0 "" 0 end.
Definition demo_lines : list string := replicate 12 "cat.jpg"%string.
Definition demo_inputs : InputData := mkInputs 10 50 0.
Definition demo_rand (n : nat) : Z := (7 * Z.of_nat n + 3)%Z.

Lemma demo_inputs_ok : inputs_ok demo_vars demo_inputs.
Proof.
  split; vm_compute; try (split; reflexivity); try (intros _; discriminate); try discriminate; [by right|..]; split; [discriminate|reflexivity].
Qed.

Lemma client_main_reports_witness :
  returns (client_main (fun n => Z.of_nat n) demo_rand (fun _ => fzero) (fun x => x) demo_options [] demo_lines "data" 50
    true [2; 3; 1]%Z) new_client (fun times c =>
      cl_sent c = [2; 1; 1; 2; 2; 3; 3]%Z /\ length times = 3%nat /\ Forall is_Some times).
Proof.
  apply (client_main_reports (fun n => Z.of_nat n) demo_rand (fun _ => fzero) (fun x => x)) with (v := demo_vars) (d := demo_inputs).
  - intros n. unfold demo_rand. lia.
  - reflexivity.
  - vm_compute. reflexivity.
  - exact demo_inputs_ok.
  - change (map (fun i => Z.of_nat i + 1)%Z (seq 0 (Z.to_nat (g_numReqs demo_vars)))) with [1; 2; 3]%Z.
    apply (Permutation_app_comm [2; 3]%Z [1]%Z).
Defined.

(** The application with its two inputs. *)
Definition demo_game_app : AppSpec :=
  mkAppSpec "game" "" [mkTensorSpec [3; 224; 224] [2] 0 KFLOAT32; mkTensorSpec [1; 28; 28] [3] 1 KFLOAT32]%Z
    [mkCompDep "Input" "Input" 0 0 0 [] [2]; mkCompDep "Input" "Input" 1 0 0 [] [3];
     mkCompDep "Model" "resnet50" 2 0 0 [0] [4]; mkCompDep "Model" "lenet1" 3 0 0 [1] [4];
     mkCompDep "Output" "None" 4 0 0 [2; 3] []]%Z ∅ 0.
Definition demo_game : Service (list Z) :=
  run (_ ← p_mod_monitor (set_AppSpecVec [demo_game_app]);
       modify (fun s => set_ReqMtxVec {["resnet50"%string; "lenet1"%string]} s)) demo_idle.

Lemma client_requests_served_witness :
  returns (sendRequest (fun n => Z.of_nat n) demo_rand (fun _ => fzero) (fun x => x) demo_vars demo_inputs) new_client (fun _ c =>
    exists name words, cl_app c = Some name /\ cl_sent c = 2%Z :: words /\
      returns (handleRequest demo_clock 4 7 name words) demo_game (fun _ s' => served_from 0 7 3 demo_game s')).
Proof.
  apply (client_requests_served (fun n => Z.of_nat n) demo_rand (fun _ => fzero) (fun x => x) demo_clock 4 7
    demo_vars demo_inputs demo_game 0 demo_game_app).
  - intros n. unfold demo_rand. lia.
  - exact demo_inputs_ok.
  - vm_compute. reflexivity.
  - vm_compute. reflexivity.
  - vm_compute. reflexivity.
  - reflexivity.
  - discriminate.
  - assert (E : ReqMtxVec demo_game = {["resnet50"%string; "lenet1"%string]}) by reflexivity. rewrite E.
    repeat constructor.
    + exists [2]%Z. split; [reflexivity|]. constructor; [|constructor]. exists "resnet50"%string.
      split; [reflexivity|]. split; [set_solver|vm_compute; reflexivity].
    + exists [3]%Z. split; [reflexivity|]. constructor; [|constructor]. exists "lenet1"%string.
      split; [reflexivity|]. split; [set_solver|vm_compute; reflexivity].
  - vm_compute. lia.
Defined.
