(* ===== verification/Inference.v ===== *)
(** * The stand-alone inference program ([standalone_inference.cpp]) and the
    timers of one request ([common/profile.cpp]).

    The model file is loaded, run once for every batch size from 32 down to 1,
    and then [requests] times on inputs of the given batch size.  A tensor is its
    sizes and element type; [jit_load] and [forward] of libtorch, which may throw
    ([None]), and the readings of the clock are parameters. *)
From Stdlib Require Import ZArith SpecFloat String Lia.
From S2P Require Import Prelude CppFloat CppStd SchedData AppModel Json ProxyProc.

(** ** Global variables and options *)
Record InputInfo : Type := mkInputInfo { InputDims : list (list Z); InputTypes : list string }.
Definition new_InputInfo : InputInfo := mkInputInfo [] [].

Record InferOptions : Type := mkInferOptions {
  io_task : string; io_taskfile : string; io_batch : Z; io_requests : Z; io_mean : spec_float }.
Record InferVars : Type := mkInferVars {
  g_mean : spec_float; g_numReqs : Z; g_batchSize : Z; g_task : string; g_taskFile : string;
  g_nameToInputInfo : gmap string InputInfo }.

(** *** [readInputJSONFile]: [None] is a file that cannot be parsed.  A model that
    is listed again replaces its first entry. *)
Definition push_input (inputs : Value) (info : InputInfo) (j : nat) : outcome InputInfo :=
  v ← element inputs j;
  dims ← (x ← member v "InputDim"; int_elements x);
  type ← (x ← member v "InputType"; asString x);
  mret (mkInputInfo (InputDims info ++ [dims]) (InputTypes info ++ [type])).
Definition read_model_info (specs : Value) (mapping : gmap string InputInfo) (i : nat) :
    outcome (gmap string InputInfo) :=
  spec ← element specs i;
  model_name ← (v ← member spec "ModelName"; asString v);
  inputs ← member spec "Inputs";
  info ← foldl (fun acc j => info ← acc; push_input inputs info j) (Done new_InputInfo) (seq 0 (size inputs));
  mret (<[model_name := info]> mapping).
Definition readInputJSONFile (config : option Value) (mapping : gmap string InputInfo) :
    outcome (bool * gmap string InputInfo) :=
  match config with
  | None => Done (EXIT_FAILURE, mapping)
  | Some root =>
      specs ← member root "ModelInfoSpecs";
      mapping ← foldl (fun acc i => m ← acc; read_model_info specs m i) (Done mapping) (seq 0 (size specs));
      mret (EXIT_SUCCESS, mapping)
  end.

Definition setupInferVars (vm : InferOptions) (config : option Value) : outcome InferVars :=
  if (io_batch vm =? 0)%Z then Stop AssertionFailed
  else
    '(failed, infos) ← readInputJSONFile config ∅;
    if (failed : bool) then Stop (Exited 1)
    else Done (mkInferVars (io_mean vm) (io_requests vm) (io_batch vm) (io_task vm) (io_taskfile vm) infos).

(** ** Inputs *)
Record Tensor : Type := mkTensor { tensor_sizes : list Z; tensor_dtype : TensorDataOption }.

(** The element type; another name ends the program. *)
Definition tensor_options (input_type : string) : outcome TensorDataOption :=
  if String.eqb input_type "INT64" then Done KINT64
  else if String.eqb input_type "FP32" then Done KFLOAT32
  else Stop (Exited 1).
(** [torch::ones]: a negative size throws. *)
Definition torch_ones (dims : list Z) (dtype : TensorDataOption) : outcome Tensor :=
  if forallb (fun d => 0 <=? d)%Z dims then Done (mkTensor dims dtype) else Stop Uncaught.

(** The first dimension of the file is skipped, and the batch size is the global
    one. *)
Definition getRandomNLPInput (g_batchSize : Z) (input_dims : list Z) (input_type : string) : outcome Tensor :=
  options ← tensor_options input_type; torch_ones (g_batchSize :: drop 1 input_dims) options.
Definition getRandomImgInput (input_dims : list Z) (input_type : string) (batch_size : Z) : outcome Tensor :=
  options ← tensor_options input_type; torch_ones (batch_size :: input_dims) options.

(** [str.find(sub) != npos] *)
Definition contains (sub str : string) : bool :=
  match String.index 0 sub str with Some _ => true | None => false end.

(** [None] is the undefined tensor, on which [to] throws.  Every input of the
    model is made, but only the last is pushed. *)
Definition random_input (v : InferVars) (str_name : string) (info : InputInfo) (batch_size : Z) (i : nat) :
    outcome Tensor :=
  dims ← deref (InputDims info !! i);
  type ← deref (InputTypes info !! i);
  if contains "bert" str_name then getRandomNLPInput (g_batchSize v) dims type
  else getRandomImgInput dims type batch_size.
Definition getInputs (v : InferVars) (str_name : string) (inputs : list Tensor) (batch_size : Z) :
    outcome (list Tensor) :=
  input ← match g_nameToInputInfo v !! str_name with
          | None => t ← getRandomImgInput [3; 224; 224]%Z "FP32" batch_size; mret (Some t)
          | Some info =>
              foldl (fun acc i => _ ← acc; t ← random_input v str_name info batch_size i; mret (Some t))
                (Done None) (seq 0 (length (InputDims info)))
          end;
  t ← throws input;
  mret (inputs ++ [t]).

(** ** The run

    How often the clock was read, the arguments of [usleep] in microseconds, the
    inputs of the calls of [forward], and what was printed. *)
Inductive line : Type :=
| PyTorchInit_total (ms : spec_float)
| Main_load (jit_load warmup : spec_float)
| Stamp (name premsg : string)
| Latency (ms : spec_float)
| Total (latency throughput : spec_float).
Record Run : Type := mkRun {
  r_clock : nat; r_slept : list spec_float; r_fed : list (list Tensor); r_out : list line }.
Definition set_r_clock (x : nat) (r : Run) : Run := mkRun x (r_slept r) (r_fed r) (r_out r).
Definition add_slept (x : spec_float) (r : Run) : Run := mkRun (r_clock r) (r_slept r ++ [x]) (r_fed r) (r_out r).
Definition add_fed (x : list Tensor) (r : Run) : Run := mkRun (r_clock r) (r_slept r) (r_fed r ++ [x]) (r_out r).
Definition add_line (x : line) (r : Run) : Run := mkRun (r_clock r) (r_slept r) (r_fed r) (r_out r ++ [x]).
Definition new_run : Run := mkRun 0 [] [] [].

Section Inference.
Context {Mod : Type}.
Context (clock : nat -> Z) (jit_load : string -> option Mod) (forward : Mod -> list Tensor -> option IValue).
(** [total_end] is never assigned, [total_start] only when there is a request. *)
Context (junk_start junk_end : Z).
Local Abbreviation IM := (M Run).

Definition getCurNs : IM Z := r ← get; _ ← put (set_r_clock (S (r_clock r)) r); mret (u64 (clock (r_clock r))).
Definition usleep (us : spec_float) : IM unit := modify (add_slept us).
Definition cout (l : line) : IM unit := modify (add_line l).
(** [double(end - start) / 1000000] *)
Definition diff_ms (t1 t2 : Z) : spec_float := ddiv (i2d (u64 (t2 - t1))) (i2d 1000000).

Definition PyTorchInit : IM unit :=
  total_start ← getCurNs; total_end ← getCurNs; cout (PyTorchInit_total (diff_ms total_start total_end)).

Definition run_forward (module : Mod) (inputs : list Tensor) : IM IValue :=
  _ ← modify (add_fed inputs); lift (throws (forward module inputs)).

(** Copying the output - of a tuple the first element - to the CPU. *)
Definition fetch_output (output : IValue) : outcome unit :=
  match output with
  | VTuple elements => o ← deref (elements !! 0%nat); _ ← throws o; mret tt
  | VTensor _ => mret tt
  | VOther => Stop Uncaught
  end.

Definition warmup (v : InferVars) (module : Mod) : IM unit :=
  for_each (rev (seq 1 32)) (fun batch_size =>
    inputs ← lift (getInputs v (g_task v) [] (Z.of_nat batch_size));
    _ ← run_forward module inputs;
    mret tt).

Definition infer_one (v : InferVars) (module : Mod) (total_start : Z) (i : nat) : IM Z :=
  _ ← usleep (dmul (dmul (g_mean v) (i2d 1000)) (i2d 1000));
  inputs ← lift (getInputs v (g_task v) [] (g_batchSize v));
  _ ← cout (Stamp (g_task v) "START EXEC");
  total_start ← (if decide (i = 0)%nat then getCurNs else mret total_start);
  start_check ← getCurNs;
  start ← getCurNs;
  output ← run_forward module inputs;
  _ ← lift (fetch_output output);
  end_ ← getCurNs;
  _ ← cout (Stamp (g_task v) "END EXEC");
  _ ← cout (Latency (diff_ms start end_));
  mret total_start.

Definition computeRequest (v : InferVars) : IM unit :=
  _ ← PyTorchInit;
  _ ← usleep (i2d 3000000);
  t1 ← getCurNs;
  module ← lift (throws (jit_load (g_taskFile v)));
  t2 ← getCurNs;
  t3 ← getCurNs;
  _ ← warmup v module;
  t4 ← getCurNs;
  _ ← usleep (i2d 3000000);
  _ ← cout (Main_load (diff_ms t1 t2) (diff_ms t4 t3));
  total_start ← for_acc (seq 0 (Z.to_nat (g_numReqs v))) junk_start (infer_one v module);
  cout (Total (diff_ms total_start junk_end)
    (ddiv (i2d (i32 (g_numReqs v * g_batchSize v)))
      (ddiv (i2d (u64 (junk_end - total_start))) (i2d 1000000000)))).

Definition inference_main (vm : InferOptions) (config : option Value) : IM unit :=
  v ← lift (setupInferVars vm config);
  _ ← cout (Stamp "" "START PROGRAM");
  _ ← computeRequest v;
  cout (Stamp "" "END PROGRAM").
End Inference.

(** ** [ReqProfile]: the times of one request, zero until they are set.  The batch
    size is not initialised. *)
Record ReqProfile : Type := mkReqProfile {
  _id : Z; _jid : Z; _input__start : Z; _input_end : Z; _cpu_comp_start : Z; _gpu_start : Z;
  _gpu_end : Z; _cpu_post_end : Z; _output_start : Z; _output_end : Z; _prof_batch_size : Z }.
Definition new_ReqProfile (req_id job_id junk : Z) : ReqProfile :=
  mkReqProfile req_id job_id 0 0 0 0 0 0 0 0 junk.
Definition setInputStart (t : Z) (p : ReqProfile) : ReqProfile :=
  mkReqProfile (_id p) (_jid p) t (_input_end p) (_cpu_comp_start p) (_gpu_start p) (_gpu_end p)
    (_cpu_post_end p) (_output_start p) (_output_end p) (_prof_batch_size p).
Definition setInputEnd (t : Z) (p : ReqProfile) : ReqProfile :=
  mkReqProfile (_id p) (_jid p) (_input__start p) t (_cpu_comp_start p) (_gpu_start p) (_gpu_end p)
    (_cpu_post_end p) (_output_start p) (_output_end p) (_prof_batch_size p).
Definition setCPUCompStart (t : Z) (p : ReqProfile) : ReqProfile :=
  mkReqProfile (_id p) (_jid p) (_input__start p) (_input_end p) t (_gpu_start p) (_gpu_end p)
    (_cpu_post_end p) (_output_start p) (_output_end p) (_prof_batch_size p).
Definition setGPUStart (t : Z) (p : ReqProfile) : ReqProfile :=
  mkReqProfile (_id p) (_jid p) (_input__start p) (_input_end p) (_cpu_comp_start p) t (_gpu_end p)
    (_cpu_post_end p) (_output_start p) (_output_end p) (_prof_batch_size p).
Definition setGPUEnd (t : Z) (p : ReqProfile) : ReqProfile :=
  mkReqProfile (_id p) (_jid p) (_input__start p) (_input_end p) (_cpu_comp_start p) (_gpu_start p) t
    (_cpu_post_end p) (_output_start p) (_output_end p) (_prof_batch_size p).
Definition setCPUPostEnd (t : Z) (p : ReqProfile) : ReqProfile :=
  mkReqProfile (_id p) (_jid p) (_input__start p) (_input_end p) (_cpu_comp_start p) (_gpu_start p) (_gpu_end p)
    t (_output_start p) (_output_end p) (_prof_batch_size p).
Definition setOutputStart (t : Z) (p : ReqProfile) : ReqProfile :=
  mkReqProfile (_id p) (_jid p) (_input__start p) (_input_end p) (_cpu_comp_start p) (_gpu_start p) (_gpu_end p)
    (_cpu_post_end p) t (_output_end p) (_prof_batch_size p).
Definition setOutputEnd (t : Z) (p : ReqProfile) : ReqProfile :=
  mkReqProfile (_id p) (_jid p) (_input__start p) (_input_end p) (_cpu_comp_start p) (_gpu_start p) (_gpu_end p)
    (_cpu_post_end p) (_output_start p) t (_prof_batch_size p).
Definition setProfBatchSize (t : Z) (p : ReqProfile) : ReqProfile :=
  mkReqProfile (_id p) (_jid p) (_input__start p) (_input_end p) (_cpu_comp_start p) (_gpu_start p) (_gpu_end p)
    (_cpu_post_end p) (_output_start p) (_output_end p) t.

(** The numbers of the printed line: job, request, batch size, then the times in
    milliseconds. *)
Definition printTimes (p : ReqProfile) : outcome (list Z * list spec_float) :=
  if forallb (fun t => negb (t =? 0)%Z) [_input__start p; _gpu_end p; _gpu_start p; _output_end p] then
    let total := diff_ms (_input__start p) (_output_end p) in
    let total_gpu := diff_ms (_gpu_start p) (_gpu_end p) in
    Done ([_jid p; _id p; _prof_batch_size p],
          [diff_ms (_input__start p) (_input_end p);
           diff_ms (_input_end p) (_cpu_comp_start p);
           diff_ms (_cpu_comp_start p) (_gpu_start p);
           total_gpu;
           diff_ms (_gpu_end p) (_cpu_post_end p);
           diff_ms (_cpu_post_end p) (_output_start p);
           diff_ms (_output_start p) (_output_end p);
           dsub total total_gpu])
  else Stop AssertionFailed.
