(* ===== verification/InferenceProps.v ===== *)
(** * The stand-alone inference program: what a run feeds to the model and
    prints. *)
From Stdlib Require Import ZArith SpecFloat String Lia.
From S2P Require Import Prelude CppFloat CppStd SchedData AppModel Json AppProps ProxyProc Inference.

(** ** The file of input dimensions *)
Record ModelSpec : Type := mkModelSpec { sp_name : string; sp_inputs : list (list Z * string) }.
Definition dims_json (i : list Z * string) : Value :=
  JObject [("InputDim", ints_json i.1); ("InputType", JString i.2)]%string.
Definition spec_json (s : ModelSpec) : Value :=
  JObject [("Inputs", JArray (map dims_json (sp_inputs s))); ("ModelName", JString (sp_name s))]%string.
Definition specs_json (ss : list ModelSpec) : Value :=
  JObject [("ModelInfoSpecs", JArray (map spec_json ss))]%string.
Definition info_of (s : ModelSpec) : InputInfo := mkInputInfo (map fst (sp_inputs s)) (map snd (sp_inputs s)).
Definition infos_of (ss : list ModelSpec) (m : gmap string InputInfo) : gmap string InputInfo :=
  foldl (fun m s => <[sp_name s := info_of s]> m) m ss.
Definition spec_in_range (s : ModelSpec) : Prop := Forall (fun i => Forall in_i32 i.1) (sp_inputs s).

(** A loop over the indices of an array visits its elements. *)
Lemma fold_elements {X S} (enc : X -> Value) (rd : S -> nat -> outcome S) (out : S -> X -> S) (l : list X) :
  forall pre s,
  (forall pre' x l' s, pre' ++ x :: l' = pre ++ l -> rd s (length pre') = Done (out s x)) ->
  foldl (fun acc i => s ← acc; rd s i) (Done s) (seq (length pre) (length l)) = Done (foldl out s l).
Proof.
  induction l as [|x l IH]; intros pre s Hrd; [done|]. cbn [length seq foldl].
  assert (E : (s ← Done s; rd s (length pre)) = Done (out s x)) by (cbn; by apply (Hrd pre x l)).
  rewrite E. specialize (IH (pre ++ [x]) (out s x)).
  rewrite length_app, Nat.add_1_r, <- app_assoc in IH. by apply IH.
Qed.

Lemma push_input_json pre i l info :
  Forall in_i32 i.1 ->
  push_input (JArray (map dims_json (pre ++ i :: l))) info (length pre) =
  Done (mkInputInfo (InputDims info ++ [i.1]) (InputTypes info ++ [i.2])).
Proof.
  intros H. unfold push_input. rewrite (obind_done _ _ _ (element_middle _ _ _ _)).
  by rewrite (obind_done _ _ _ (ints_member (dims_json i) "InputDim" _ eq_refl H)).
Qed.

Lemma push_inputs_info inputs info :
  foldl (fun info (i : list Z * string) => mkInputInfo (InputDims info ++ [i.1]) (InputTypes info ++ [i.2])) info inputs =
  mkInputInfo (InputDims info ++ map fst inputs) (InputTypes info ++ map snd inputs).
Proof.
  revert info. induction inputs as [|i l IH]; intros info; cbn; [by rewrite !app_nil_r; destruct info|].
  rewrite IH. cbn. by rewrite <- !app_assoc.
Qed.

Lemma read_model_info_json pre s l m :
  spec_in_range s ->
  read_model_info (JArray (map spec_json (pre ++ s :: l))) m (length pre) = Done (<[sp_name s := info_of s]> m).
Proof.
  intros H. unfold read_model_info. rewrite (obind_done _ _ _ (element_middle _ _ _ _)).
  rewrite (obind_done _ _ (sp_name s)) by done.
  rewrite (obind_done _ _ (JArray (map dims_json (sp_inputs s)))) by done.
  cbn [size]. rewrite length_map.
  pose proof (fold_elements dims_json (push_input (JArray (map dims_json (sp_inputs s))))
    (fun info i => mkInputInfo (InputDims info ++ [i.1]) (InputTypes info ++ [i.2])) (sp_inputs s) [] new_InputInfo) as E.
  cbn [length app] in E. rewrite E.
  - by rewrite push_inputs_info.
  - intros pre' x l' info He. rewrite <- He. apply push_input_json.
    unfold spec_in_range in H. rewrite Forall_forall in H. apply H. rewrite <- He. set_solver.
Qed.

Lemma readInputJSONFile_json ss m :
  Forall spec_in_range ss ->
  readInputJSONFile (Some (specs_json ss)) m = Done (EXIT_SUCCESS, infos_of ss m).
Proof.
  intros H. unfold readInputJSONFile.
  rewrite (obind_done _ _ (JArray (map spec_json ss))) by done. cbn [size]. rewrite length_map.
  pose proof (fold_elements spec_json (read_model_info (JArray (map spec_json ss)))
    (fun m s => <[sp_name s := info_of s]> m) ss [] m) as E.
  cbn [length app] in E. rewrite E; [done|].
  intros pre s l m' He. rewrite <- He. apply read_model_info_json.
  rewrite Forall_forall in H. apply H. rewrite <- He. set_solver.
Qed.

(** The entry that counts is the last one of that name. *)
Definition spec_of (task : string) (ss : list ModelSpec) : option ModelSpec :=
  List.find (fun s => String.eqb (sp_name s) task) (rev ss).
Lemma infos_of_lookup ss task : infos_of ss ∅ !! task = info_of <$> spec_of task ss.
Proof.
  unfold infos_of, spec_of. induction ss as [|s ss IH] using rev_ind; [done|].
  rewrite foldl_app, rev_app_distr. cbn.
  destruct (String.eqb_spec (sp_name s) task) as [<-|Hne]; cbn; [apply lookup_insert_eq|].
  rewrite lookup_insert_ne by done. exact IH.
Qed.

(** ** The inputs of a run *)
Definition dtype_of (ty : string) : TensorDataOption := if String.eqb ty "INT64" then KINT64 else KFLOAT32.
Definition legal_input (i : list Z * string) : Prop :=
  Forall (fun d => 0 <= d)%Z i.1 /\ (i.2 = "FP32" \/ i.2 = "INT64")%string.
Definition usable (s : ModelSpec) : Prop := sp_inputs s <> [] /\ Forall legal_input (sp_inputs s).

(** The input made of one entry. *)
Definition entry_input (task : string) (own batch : Z) (i : list Z * string) : Tensor :=
  mkTensor (if contains "bert" task then own :: drop 1 i.1 else batch :: i.1) (dtype_of i.2).
(** The tensor the model gets in a batch of [batch], when the batch size of the
    options is [own]. *)
Definition model_input (ss : list ModelSpec) (task : string) (own batch : Z) : Tensor :=
  match spec_of task ss with
  | None => mkTensor [batch; 3; 224; 224]%Z KFLOAT32
  | Some s => entry_input task own batch (List.last (sp_inputs s) ([], ""%string))
  end.

Lemma torch_ones_nonneg dims ty : Forall (fun d => 0 <= d)%Z dims -> torch_ones dims ty = Done (mkTensor dims ty).
Proof.
  intros H. unfold torch_ones. rewrite (proj2 (forallb_forall _ dims)); [done|].
  intros d Hd. apply Z.leb_le. rewrite List.Forall_forall in H. by apply H.
Qed.
Lemma tensor_options_legal ty : (ty = "FP32" \/ ty = "INT64")%string -> tensor_options ty = Done (dtype_of ty).
Proof. by intros [-> | ->]. Qed.

Lemma random_input_legal v task s batch i :
  (0 <= g_batchSize v)%Z -> (0 <= batch)%Z -> Forall legal_input (sp_inputs s) -> (i < length (sp_inputs s))%nat ->
  random_input v task (info_of s) batch i =
  Done (entry_input task (g_batchSize v) batch (nth i (sp_inputs s) ([], ""%string))).
Proof.
  intros Hg Hb Hl Hi. destruct (lookup_lt_is_Some_2 _ _ Hi) as [[dims ty] Hx].
  rewrite (nth_lookup_Some _ _ _ _ Hx).
  destruct (Forall_lookup_1 _ _ _ _ Hl Hx) as [Hd Ht]. cbn in Hd, Ht.
  unfold random_input, info_of, entry_input. cbn. rewrite !list_lookup_fmap, Hx. cbn.
  unfold getRandomNLPInput, getRandomImgInput. rewrite (tensor_options_legal _ Ht).
  destruct (contains "bert" task); cbn; apply torch_ones_nonneg; constructor; try done.
  by apply Forall_drop.
Qed.

Lemma last_made {A} (f : nat -> outcome A) (g : nat -> A) n :
  (forall i, (i < n)%nat -> f i = Done (g i)) ->
  foldl (fun acc i => _ ← acc; t ← f i; mret (Some t)) (Done None) (seq 0 n) =
  Done (match n with O => None | S m => Some (g m) end).
Proof.
  induction n as [|n IH]; intros H; [done|]. rewrite seq_S, foldl_app. cbn [foldl].
  rewrite IH by (intros; apply H; lia). cbn. by rewrite H by lia.
Qed.

Lemma nth_length_last {A} (x d : A) l : nth (length l) (x :: l) d = List.last (x :: l) d.
Proof. revert x. induction l as [|y l IH]; intros x; [done|]. apply IH. Qed.

Definition loaded (v : InferVars) (ss : list ModelSpec) : Prop :=
  g_nameToInputInfo v = infos_of ss ∅ /\ (0 < g_batchSize v)%Z /\
  (forall s, spec_of (g_task v) ss = Some s -> usable s).

Lemma getInputs_model v ss inputs batch :
  loaded v ss -> (0 <= batch)%Z ->
  getInputs v (g_task v) inputs batch = Done (inputs ++ [model_input ss (g_task v) (g_batchSize v) batch]).
Proof.
  intros (Hi & Hg & Hu) Hb. unfold getInputs, model_input. rewrite Hi, infos_of_lookup.
  destruct (spec_of (g_task v) ss) as [s|]; cbn [fmap option_fmap option_map].
  - destruct (Hu s eq_refl) as [Hne Hl]. cbn [InputDims info_of]. rewrite length_map.
    rewrite (last_made _ (fun i => entry_input (g_task v) (g_batchSize v) batch (nth i (sp_inputs s) ([], ""%string)))).
    2:{ intros i H. apply random_input_legal; auto; lia. }
    destruct (sp_inputs s) as [|x l]; [done|]. cbn [length]. by rewrite nth_length_last.
  - unfold getRandomImgInput. cbn [tensor_options String.eqb]. rewrite (tensor_options_legal "FP32") by auto.
    cbn. rewrite torch_ones_nonneg; [done|]. repeat constructor; lia.
Qed.

(** ** The run *)
Ltac run_red := unfold getCurNs, cout, usleep, add_slept, add_fed, add_line, set_r_clock in *; mred.
Definition latencies (out : list line) : list spec_float :=
  omap (fun l => match l with Latency ms => Some ms | _ => None end) out.

Section Run.
Context {Mod : Type}.
Context (clock : nat -> Z) (jit_load : string -> option Mod) (forward : Mod -> list Tensor -> option IValue).
Context (junk_start junk_end : Z) (ss : list ModelSpec) (v : InferVars) (m : Mod).
Local Abbreviation input := (model_input ss (g_task v) (g_batchSize v)).
(** A batch on which the model returns a tensor, or a tuple that starts with one. *)
Definition runs_on (x : Tensor) : Prop :=
  exists output, forward m [x] = Some output /\ fetch_output output = Done tt.
Context (Hv : loaded v ss).

Lemma warmup_batches : forall bs r,
  Forall (fun b => runs_on (input (Z.of_nat b))) bs ->
  for_each bs (fun batch_size =>
    inputs ← lift (getInputs v (g_task v) [] (Z.of_nat batch_size));
    _ ← run_forward forward m inputs; mret tt) r =
  Done (tt, mkRun (r_clock r) (r_slept r) (r_fed r ++ map (fun b => [input (Z.of_nat b)]) bs) (r_out r)).
Proof.
  induction bs as [|b bs IH]; intros r H; cbn [for_each map].
  - rewrite app_nil_r. by destruct r.
  - inversion H as [|? ? (o & Ho & _) Hbs]; subst.
    rewrite (bind_done _ _ r tt (add_fed [input (Z.of_nat b)] r)).
    2:{ rewrite (lift_done _ _ _ _ (getInputs_model v ss [] (Z.of_nat b) Hv ltac:(lia))).
        unfold run_forward. cbn [app]. mred. by rewrite Ho. }
    rewrite IH by done. cbn. by rewrite <- app_assoc.
Qed.

(** The clock readings of request [i]; the first one is preceded by another. *)
Definition first_tick (i : nat) : nat := if decide (i = 0)%nat then 1%nat else 0%nat.
Definition wait_us : spec_float := dmul (dmul (g_mean v) (i2d 1000)) (i2d 1000).
Definition one_lines (c : nat) : list line :=
  [Stamp (g_task v) "START EXEC"; Stamp (g_task v) "END EXEC";
   Latency (diff_ms (u64 (clock (S c))) (u64 (clock (S (S c)))))].
Definition after_one (st : Z * Run) (i : nat) : Z * Run :=
  let c := (first_tick i + r_clock st.2)%nat in
  (if decide (i = 0)%nat then u64 (clock (r_clock st.2)) else st.1,
   mkRun (3 + c) (r_slept st.2 ++ [wait_us]) (r_fed st.2 ++ [[input (g_batchSize v)]])
     (r_out st.2 ++ one_lines c)).

Lemma infer_one_done ts r i :
  runs_on (input (g_batchSize v)) ->
  infer_one clock forward v m ts i r = Done (after_one (ts, r) i).
Proof.
  intros (o & Ho & Hf). unfold infer_one.
  rewrite (bind_done _ _ r tt (add_slept wait_us r)) by done.
  destruct Hv as (_ & Hb & _).
  rewrite (lift_done _ _ _ _ (getInputs_model v ss [] (g_batchSize v) Hv ltac:(lia))). cbn [app].
  rewrite (bind_done _ _ _ tt (add_line (Stamp (g_task v) "START EXEC") (add_slept wait_us r))) by done.
  unfold run_forward, after_one, first_tick, one_lines.
  destruct (decide (i = 0)%nat); run_red; rewrite Ho; run_red; rewrite Hf; run_red;
    by rewrite <- !app_assoc.
Qed.

Lemma infer_all_done is_ : forall ts r,
  runs_on (input (g_batchSize v)) ->
  for_acc is_ ts (infer_one clock forward v m) r = Done (foldl after_one (ts, r) is_).
Proof.
  induction is_ as [|i is_ IH]; intros ts r H; [done|]. cbn [for_acc foldl].
  unfold mbind, M_bind. rewrite infer_one_done by done.
  destruct (after_one (ts, r) i) as [ts' r']. by apply IH.
Qed.

Lemma latencies_app a b : latencies (a ++ b) = latencies a ++ latencies b.
Proof. apply omap_app. Qed.

Lemma after_all n : forall k ts r,
  r_clock r = (6 + 3 * k + (if decide (k = 0) then 0 else 1))%nat ->
  let r' := (foldl after_one (ts, r) (seq k n)).2 in
  r_slept r' = r_slept r ++ repeat wait_us n /\
  r_fed r' = r_fed r ++ repeat [input (g_batchSize v)] n /\
  latencies (r_out r') = latencies (r_out r) ++
    map (fun i => diff_ms (u64 (clock (8 + 3 * i))) (u64 (clock (9 + 3 * i))))%nat (seq k n).
Proof.
  induction n as [|n IH]; intros k ts r Hc; cbn [seq foldl repeat map].
  - by rewrite !app_nil_r.
  - destruct (after_one (ts, r) k) as [ts' r1] eqn:E.
    assert (Hr1 : r1 = (after_one (ts, r) k).2) by by rewrite E.
    assert (Hc' : (first_tick k + r_clock r = 7 + 3 * k)%nat).
    { unfold first_tick. rewrite Hc. destruct (decide (k = 0)); lia. }
    destruct (IH (S k) ts' r1) as (H1 & H2 & H3).
    { rewrite Hr1. unfold after_one. cbn [snd r_clock]. rewrite Hc'. destruct (decide (S k = 0)); lia. }
    cbn zeta in *. rewrite H1, H2, H3, Hr1. cbn -[Nat.mul first_tick]. rewrite Hc', latencies_app.
    repeat split; try by rewrite <- app_assoc.
Qed.

Definition run_result (r0 r : Run) (n : nat) : Prop :=
  r_slept r = r_slept r0 ++ i2d 3000000 :: i2d 3000000 :: repeat wait_us n /\
  r_fed r = r_fed r0 ++ map (fun b => [input (Z.of_nat b)]) (rev (seq 1 32)) ++ repeat [input (g_batchSize v)] n /\
  latencies (r_out r) = latencies (r_out r0) ++
    map (fun i => diff_ms (u64 (clock (8 + 3 * i))) (u64 (clock (9 + 3 * i))))%nat (seq 0 n).

Lemma computeRequest_done r0 :
  jit_load (g_taskFile v) = Some m -> r_clock r0 = 0%nat ->
  (forall b, (1 <= b <= 32)%Z \/ b = g_batchSize v -> runs_on (input b)) ->
  returns (computeRequest clock jit_load forward junk_start junk_end v) r0
    (fun _ r => run_result r0 r (Z.to_nat (g_numReqs v))).
Proof.
  intros Hm Hc Hf. unfold computeRequest, returns.
  set (sl := r_slept r0 ++ [i2d 3000000]).
  set (out := r_out r0 ++ [PyTorchInit_total (diff_ms (u64 (clock 0)) (u64 (clock 1)))]).
  set (fed := r_fed r0 ++ map (fun b => [input (Z.of_nat b)]) (rev (seq 1 32))).
  rewrite (bind_done _ _ r0 tt (mkRun 2 (r_slept r0) (r_fed r0) out)).
  2:{ unfold PyTorchInit. run_red. by rewrite Hc. }
  rewrite (bind_done _ _ _ tt (mkRun 2 sl (r_fed r0) out)) by done.
  rewrite (bind_done _ _ _ (u64 (clock 2)) (mkRun 3 sl (r_fed r0) out)) by done.
  rewrite (lift_done _ _ m) by (unfold throws; by rewrite Hm).
  rewrite (bind_done _ _ _ (u64 (clock 3)) (mkRun 4 sl (r_fed r0) out)) by done.
  rewrite (bind_done _ _ _ (u64 (clock 4)) (mkRun 5 sl (r_fed r0) out)) by done.
  rewrite (bind_done _ _ _ tt (mkRun 5 sl fed out)).
  2:{ apply (warmup_batches (rev (seq 1 32)) (mkRun 5 sl (r_fed r0) out)).
      apply Forall_forall. intros b Hb. apply Hf. apply list_elem_of_In, in_rev, in_seq in Hb. lia. }
  rewrite (bind_done _ _ _ (u64 (clock 5)) (mkRun 6 sl fed out)) by done.
  rewrite (bind_done _ _ _ tt (mkRun 6 (sl ++ [i2d 3000000]) fed out)) by done.
  set (r2 := mkRun 6 (sl ++ [i2d 3000000]) fed
    (out ++ [Main_load (diff_ms (u64 (clock 2)) (u64 (clock 3))) (diff_ms (u64 (clock 5)) (u64 (clock 4)))])).
  rewrite (bind_done _ _ _ tt r2) by done.
  pose proof (infer_all_done (seq 0 (Z.to_nat (g_numReqs v))) junk_start r2 (Hf _ (or_intror eq_refl))) as E.
  destruct (after_all (Z.to_nat (g_numReqs v)) 0 junk_start r2 eq_refl) as (H1 & H2 & H3).
  destruct (foldl after_one (junk_start, r2) (seq 0 (Z.to_nat (g_numReqs v)))) as [ts r3].
  rewrite (bind_done _ _ _ _ _ E). unfold cout, modify, run_result. cbn -[seq Nat.mul rev].
  cbn [snd] in H1, H2, H3. rewrite latencies_app, H1, H2, H3. unfold r2, out, fed, sl. cbn -[seq Nat.mul rev].
  rewrite !latencies_app, !app_nil_r. by rewrite <- !app_assoc.
Qed.
End Run.

(** ** The program *)
Definition vars_of (vm : InferOptions) (ss : list ModelSpec) : InferVars :=
  mkInferVars (io_mean vm) (io_requests vm) (io_batch vm) (io_task vm) (io_taskfile vm) (infos_of ss ∅).

(** C18: the stand-alone inference program runs the model on one input of every
    batch size from 32 down to 1 and then [requests] times on the batch size of the
    options, and prints one latency per request: the time between the two clock
    readings around the run.  The input is made from the last entry of the task in
    the file of dimensions, and of its inputs the last one; for a BERT task the
    warm-up too has the batch size of the options.  The program ends, for a
    positive batch size, known element types, and a model that can be loaded and
    returns a tensor, or a tuple that starts with one. *)
Theorem inference_main_runs {Mod : Type} clock jit_load forward junk_start junk_end ss vm (m : Mod)
    (Hss : Forall spec_in_range ss) (Hb : (0 < io_batch vm)%Z)
    (Hu : forall s, spec_of (io_task vm) ss = Some s -> usable s)
    (Hm : jit_load (io_taskfile vm) = Some m)
    (Hf : forall b, (1 <= b <= 32)%Z \/ b = io_batch vm ->
      runs_on forward m (model_input ss (io_task vm) (io_batch vm) b)) :
  let input := model_input ss (io_task vm) (io_batch vm) in
  let n := Z.to_nat (io_requests vm) in
  let time i := u64 (clock i) in
  returns (inference_main clock jit_load forward junk_start junk_end vm (Some (specs_json ss))) new_run (fun _ r =>
    r_fed r = map (fun b => [input (Z.of_nat b)]) (rev (seq 1 32)) ++ repeat [input (io_batch vm)] n /\
    latencies (r_out r) = map (fun i => diff_ms (time (8 + 3 * i)) (time (9 + 3 * i)))%nat (seq 0 n) /\
    r_slept r = i2d 3000000 :: i2d 3000000 :: repeat (dmul (dmul (io_mean vm) (i2d 1000)) (i2d 1000)) n).
Proof.
  cbv zeta. set (v := vars_of vm ss).
  assert (Hv : setupInferVars vm (Some (specs_json ss)) = Done v).
  { unfold setupInferVars. rewrite (proj2 (Z.eqb_neq _ _)) by lia. by rewrite readInputJSONFile_json. }
  assert (Hl : loaded v ss) by (split; [done|split; [exact Hb|exact Hu]]).
  pose proof (computeRequest_done clock jit_load forward junk_start junk_end ss v m Hl
    (add_line (Stamp "" "START PROGRAM") new_run) Hm eq_refl Hf) as H.
  unfold inference_main, returns in *. rewrite (lift_done _ _ _ _ Hv).
  rewrite (bind_done _ _ _ tt (add_line (Stamp "" "START PROGRAM") new_run)) by done.
  unfold mbind, M_bind. destruct (computeRequest _ _ _ _ _ _ _) as [[[] r]|e]; [|done].
  destruct H as (H1 & H2 & H3). cbn -[seq Nat.mul rev] in *.
  rewrite H1, H2, latencies_app, H3. split; [done|]. split; [by rewrite app_nil_r|done].
Qed.

Definition demo_specs : list ModelSpec :=
  [mkModelSpec "bert" [([1; 7], "INT64"); ([1; 14], "INT64")]; mkModelSpec "lenet1" [([1; 28; 28], "FP32")]]%Z%string.
Definition demo_opts : InferOptions := mkInferOptions "bert" "bert.pt" 4 2 (dlit 3 10).
Definition demo_time (i : nat) : Z := (1000000 * Z.of_nat (i * i))%Z.
Definition demo_forward (m : string) (inputs : list Tensor) : option IValue :=
  match inputs with [t] => Some (VTensor (tensor_sizes t)) | _ => None end.

Lemma inference_main_runs_witness :
  returns (inference_main demo_time Some demo_forward 0 0 demo_opts (Some (specs_json demo_specs))) new_run (fun _ r =>
    r_fed r = repeat [mkTensor [4; 14]%Z KINT64] 34 /\ latencies (r_out r) = [i2d 17; i2d 23]).
Proof.
  assert (H := inference_main_runs demo_time Some demo_forward 0 0 demo_specs demo_opts "bert.pt"%string).
  assert (Hr : Forall spec_in_range demo_specs).
  { repeat constructor; unfold in_i32, INT_MIN, INT_MAX; vm_compute; discriminate. }
  assert (Hu : forall s, spec_of "bert" demo_specs = Some s -> usable s).
  { intros s [= <-]. split; [discriminate|]. repeat constructor; cbn; auto; lia. }
  specialize (H Hr ltac:(vm_compute; reflexivity) Hu eq_refl).
  specialize (H ltac:(intros b _; eexists; split; reflexivity)).
  unfold returns in *. destruct (inference_main _ _ _ _ _ _ _ _) as [[[] r]|e]; [|done].
  destruct H as (H1 & H2 & _). split; [rewrite H1; vm_compute; reflexivity|rewrite H2; vm_compute; reflexivity].
Defined.
